(* ===== verification/_CoqProject ===== *)
-Q . S2P
Prelude.v
GoStrings.v
ProviderTypes.v
Encoding.v
CoreProxy.v
Aperture.v
Paths.v
Regex.v
RegexReplace.v
ErrorClass.v
Cooldown.v
Fallback.v
Routing.v
Bus.v
Session.v
AgentContext.v
StateManager.v
SplitMessage.v
Channels.v
ToolBase.v
Hardware.v
Services.v
MCP.v
WebText.v
WebTools.v
FileTools.v
ShellTool.v
Skills.v
HostFiles.v
SkillRegistry.v
ToolLoop.v
Wire.v
OpenAICompat.v
AgentState.v
AgentTurn.v
AgentSummary.v
AgentLoop.v
Subagent.v
Heartbeat.v
SearchCache.v
SkillTools.v
Agents.v
Config.v
Auth.v
DeviceLogin.v
ProviderFactory.v
Settings.v
ChannelSetup.v
Migration.v
MigrationFiles.v
ToDhall.v
Media.v
SkillInstaller.v
SkillCommands.v
Adapters.v
Slack.v
Discord.v
XMPP.v
Platforms.v
OneBot.v
OneBotRequests.v
Line.v
WeCom.v
TelegramText.v
Telegram.v
TokenSources.v
Anthropic.v
Codex.v
Antigravity.v
CliProviders.v
Clients.v
Cron.v
CronTool.v
CommandLine.v
Campaign.v
