(* ===== verification/Prelude.v ===== *)
(** * TinyClaw: a verification library

    TinyClaw is a personal AI agent: chat channels put messages on a bus, the
    agent loop routes each to an agent and a session, asks a language model with
    a request built from the session and the workspace, runs the tools the model
    calls, and publishes the reply.  This library models its core as Rocq
    functions and proves what makes it correct.  This file is the root: it also
    holds the shared notation, tactics and lemmas.

    ** How the parts interact

    Channels (pkg/channels) check senders against an allowlist and publish
    inbound messages on the bus (pkg/bus).  The agent loop (pkg/agent/loop.go)
    takes them one at a time; the router (pkg/routing) finds the agent and the
    session key; the session manager (pkg/session) keeps the histories; the
    context builder (pkg/agent/context.go, memory.go) makes the request, with
    the skills of the workspace (pkg/skills); the fallback chain (pkg/providers)
    tries models in order, with the error classifier and the cooldown tracker;
    the registry (pkg/tools) runs tools, among them the file tools with their
    sandbox, the shell tool with its guard, the web tools, the tools of servers, the
    tools that find and install skills, the message tool and subagents, which run the tool loop and announce
    their results on the bus.  Agents are built with their tools from the
    configuration (pkg/agent/instance.go, pkg/config); the factory of
    pkg/providers makes the client of a model from the same configuration and
    the credentials (pkg/auth), and each client turns the messages of the loops
    into the format of its service and back.  The loop records the last channel
    in the state manager (pkg/state), where the heartbeat (pkg/heartbeat) reads
    it; the cron service (pkg/cron) runs stored jobs, which the scheduling tool
    makes; the campaign runner (pkg/campaign) runs multi-step jobs under
    guardrails; the dispatcher of pkg/channels sends what is on the outbound
    queue, long messages split by pkg/utils.  The device monitor (pkg/devices) puts
    notices on it, the HTTP handlers of pkg/api hand messages to the loop directly.
    A migration (pkg/migrate) brings the settings and the files of another assistant
    into all this, and the command line (cmd/tinyclaw) puts it together.  The proxy of
    the verified core (pkg/core), the access proxy (pkg/aperture) and the secrets
    (pkg/tailscale) stand beside it: the gateway builds them and does not use them.

    ** Files

    - [Prelude], [GoStrings], [Paths]: lists, [result], 64-bit integers, times;
      strings as lists of bytes with the operations of Go's strings package and
      path/filepath that the code uses.
    - [ProviderTypes]: pkg/providers/types.go and protocoltypes: messages, tool
      calls, errors, JSON values, the class [LLMProvider].  [Encoding]: base64,
      hexadecimal, decimal integers and JSON decoding of the standard library.
    - [Regex], [RegexReplace]: the regular expressions of the sources, with a
      matcher that is proved correct, their groups and replacements.  [ErrorClass]:
      error_classifier.go.
    - [Cooldown]: cooldown.go.  [Fallback]: model_ref.go, fallback.go.
    - [Routing]: agent_id.go, session_key.go, route.go; pkg/agent/registry.go.
    - [Bus]: pkg/bus.  Goroutines and the lock as a step relation.
    - [Session]: pkg/session/manager.go, in memory and on disk.
    - [AgentContext]: pkg/agent/context.go and memory.go.
    - [StateManager]: pkg/state, pkg/constants.  [SplitMessage]: message.go and
      string.go of pkg/utils.  [Channels]: base.go and manager.go;
      [ChannelSetup]: the channels a configuration gives.  [Heartbeat]:
      pkg/heartbeat.  [Migration], [MigrationFiles], [ToDhall]: pkg/migrate, the
      settings (config.go), the files (migrate.go, workspace.go) and the configuration
      as Dhall (to_dhall.go).
    - [Media]: pkg/utils/media.go, pkg/voice/transcriber.go.  [OneBot],
      [OneBotRequests]: pkg/channels/onebot.go, the second file with the
      goroutines that make requests and wait for answers.  [Line]: line.go.
      [WeCom]: wecom.go and wecom_app.go.  [TelegramText], [Telegram]: telegram.go and
      telegram_commands.go, the first file with the conversion of Markdown.
      [Adapters]: files and chunks, which several platforms share; [Slack], [Discord],
      [XMPP]: slack.go, discord.go, xmpp.go; [Platforms]: a Module each for
      whatsapp.go, maixcam.go, qq.go, dingtalk.go, feishu_64.go.
    - [ToolBase]: base.go, result.go, registry.go of pkg/tools.  [FileTools]:
      filesystem.go, edit.go, over a tree of files, directories and links.
      [ShellTool]: shell.go.  [MCP]: mcp_client.go, mcp_registry.go.  [WebText],
      [WebTools]: web.go, the first file with the text of pages.  [Hardware]: i2c.go,
      spi.go and their files for Linux, as programs of requests.  [ToolLoop]: toolloop.go, message.go,
      toolcall_utils.go.  [Subagent]: subagent.go, spawn.go.
    - [Skills]: pkg/skills/loader.go.  [HostFiles]: the operations of os on a
      tree that installing uses.  [SkillRegistry]: registry.go and
      clawhub_registry.go of pkg/skills, pkg/utils/zip.go, skills.go and
      download.go.  [SearchCache]: search_cache.go.  [SkillTools]:
      skills_install.go and skills_search.go of pkg/tools.  [SkillInstaller]:
      installer.go of pkg/skills.  [SkillCommands]: the commands for skills and
      the first start (internal/skills, internal/onboard of cmd/tinyclaw).
    - [AgentState], [AgentTurn], [AgentSummary], [AgentLoop]:
      pkg/agent/loop.go.  A turn is a computation of a state monad over the
      agent and what agents share; a relation between states is proved of a
      turn operation by operation (the tactic [walk]).  [Agents]:
      pkg/agent/instance.go and the tools an agent gets.
    - [Config]: the models of pkg/config (config.go, migration.go, defaults.go).
      [Settings]: the other settings.  [Auth], [DeviceLogin]: store.go,
      oauth.go, pkce.go, token.go of pkg/auth.
      [ProviderFactory]: factory.go, factory_provider.go, legacy_provider.go.
    - [Wire]: what clients of models share, and the class [RequestFormat] that
      says what a format promises.  [OpenAICompat]: openai_compat/provider.go.
      [Anthropic]: anthropic/provider.go, claude_provider.go.  [Codex]:
      codex_provider.go.  [Antigravity]: antigravity_provider.go, but for its
      tokens, which are with those of Codex in [TokenSources].
      [CliProviders]: claude_cli_provider.go, codex_cli_provider.go,
      tool_call_extract.go, codex_cli_credentials.go, github_copilot_provider.go.
      [Clients]: the tool loop composed with the clients.
    - [Cron]: pkg/cron/service.go.  [CronTool]: pkg/tools/cron.go.
      [Campaign]: runner.go and guardrails.go of pkg/campaign.
    - [CoreProxy]: pkg/core/proxy.go: frames, and calls as a step relation.
      [Aperture]: client.go and cerbos.go of pkg/aperture.  [Services]: a Module each
      for pkg/health, pkg/api, pkg/devices, pkg/tailscale and the approval tool.
      [CommandLine]: auth, agent, cron, status and gateway of cmd/tinyclaw/internal.

    ** How code is modelled

    A method of a mutable object takes its state and returns the new one;
    readings of the clock, faults of the file system, answers of models and of
    servers, and the order in which maps are iterated are arguments, so the
    theorems hold for all of them.  Where goroutines share state a step relation
    interleaves their atomic steps, and invariants are proved by induction over
    reachable states.  Errors are values of [result] or [option]; a nil pointer
    that is dereferenced is a value of its own.  Loops that end structurally are
    [Fixpoint]s over what they consume.  Fuel is used where the code bounds the
    loop itself (the iterations of the tool loop and of a turn: the bound is the
    configured one) and for the message splitter, whose loop need not end: for
    text without code fences as much fuel as the text has bytes is proved
    enough, and an input that never ends is proved not to.  The structs of a
    provider's SDK are records and inductive types of the fields the code sets
    and reads.

    ** What the theorems show

    - Fallback: a request succeeds with the first candidate that is neither in
      cooldown nor fails; when it is exhausted; however runs of the chain that
      share the tracker interleave, a provider whose failure is recorded is not
      called again for a minute, unless another run was calling it then and
      succeeded (generating an image and asking a single model do not use the
      tracker); the cooldown records stay within their bounds; how a failed request
      of a client is classified.
    - Agent loop: a message touches one session of one agent and leaves a
      well-formed record there; the loop writes the file of that session only, and
      the tools, which can reach the files of all sessions, are the only ones that
      can change another; every request of a turn shows the rounds the session has;
      the number of requests of a turn to providers is bounded; at most one
      summarisation per session; what a summarisation keeps and loses.
    - Sessions: the manager refines a map of histories; saving is atomic and
      confined to its directory; what is saved is loaded again.
    - Requests: what is sent is acceptable to providers; the prompt cache is
      fresh; the tool loop is a dialogue, in which every answer of the model is
      restated with all its calls and every call gets the answer of its tool; what
      each client sends says what was said in this dialogue, the calls with their
      arguments, every result with its call; calls written into a text are taken
      from it; schemas are made of what is supported.
    - Routing: the priority cascade; session keys name the agent and keep direct
      chats apart; a routed agent exists; the form of identifiers.
    - Files and commands: sandboxed tools neither change nor read anything
      outside the directory the workspace leads to; writes are atomic; edits are
      unambiguous; a restricted shell tool runs no command in a directory outside of it
      and with no path outside but a slash alone; installing a skill
      and extracting an archive change only their directory; so do the tools of
      an agent that is built with the restriction, and scheduled commands pass
      the same guard.
    - Models and credentials: the old settings give one entry for each configured
      provider, with its own key, base and proxy; entries of one name are used in turn; tokens
      are read back, refreshed, saved before they are used and not used when
      they have expired; a login exchanges only the code it asked for.
    - Tools of servers: a server that answers each request with one line answers the
      use of its tools, each use with its own answer.  Pages: no tag is left in what
      is shown of a page.
    - Migration: what settings are converted to does not depend on the order of maps;
      a migration loses no file; the text of a configuration does not depend on keys.
    - Channels: the HTML of an answer holds no tag the conversion did not write; a
      reply goes back where the message came from, quoting the last message noted
      there; duplicates are
      those among the last identifiers; answers reach the requests that wait for
      them; reply tokens are used once, while fresh; what a platform seals is
      opened; only authentic and allowed messages are handed on; typing indicators
      are stopped once and none is left over.
    - Core proxy: a call returns only what the core answered to it, whatever the
      interleaving, and it panics only when an answer is framed with a length that
      cannot be allocated.  Access proxy: meters are the sums of their events.  Hardware:
      what the tools ask of devices is in range, and confirmed where it must be.
    - Command line: what logging in and out records and removes; what a chat asks;
      what commands change of the tree.
    - Bus: what is sent is received, in order, and nothing else but the empty
      messages of a bus that is closed and drained.  Subagents: every task ends once,
      is announced once, if the bus is open, and then reported once.  Cron: a tick
      calls the handler for every due job once, in order.
    - Campaigns, search cache, splitter, allowlist: the invariants of their states,
      what each operation does, termination.

    Findings, where the code departs from what it documents or means to do, are
    lemmas next to the properties; each is an instance or a general statement.

    ** Not modelled, and why

    The flags and the printing of the command line, the order in which the gateway
    starts and stops its parts, the servers and clients of HTTP, the client libraries of
    the platforms, and the interface of the adapters of campaigns are input and output
    around what is modelled here, as is sending a request for the clients of models.  The
    core that pkg/core talks to is written in another language and is a parameter; the
    remote calls of pkg/tailscale and the check of tools in pkg/aperture are stubs in the
    code and are modelled as that.  A server of tools
    that never answers blocks the use of its tools; the model has its answers as
    arguments and leaves this out.  Ciphers and hashes are parameters.  JSON encoding
    and decoding are parameters, or a file stands for what decoding it gives.  Logging
    is left out.  Permissions and disk space of the file system are not represented;
    the faults of writes are arguments instead.  Each agent has its directory of
    sessions, which its tools may change while they run ([tool_writes] is an
    argument); what a tool that goes on in the background writes later is not
    represented, and two agents configured with one workspace, which share this
    directory, are kept apart.  The typing indicators that end by themselves are not
    told from those that run until they are stopped.

    ** What could follow

    The bus has invariants of its interleavings but no liveness under fairness; the
    goroutines of the gateway are modelled part by part and not all together; the core
    in the other language would need a model of its own. *)
From stdpp Require Import base gmap strings list fin_maps sorting.
From Stdlib Require Import Ascii ZArith Lia.

(** ** Notation scope of the development *)
Declare Scope go_scope.
Delimit Scope go_scope with go.

(** [err?] results: Go functions that return [(T, error)] return a [result]. *)
Inductive result (E A : Type) : Type :=
| Ok (a : A)
| Err (e : E).
Arguments Ok {E A} a.
Arguments Err {E A} e.

Notation "'let?' x ':=' m 'in' k" :=
  (match m with Ok x => k | Err e => Err e end)
  (at level 10, x pattern, m at level 100, k at level 200) : go_scope.

Definition is_ok {E A} (r : result E A) : bool :=
  match r with Ok _ => true | Err _ => false end.

(** ** Tactics *)
Create HintDb tiny.

(** Decide every boolean test and match left in the goal or in a hypothesis. *)
Ltac split_cases :=
  repeat first
    [ progress simplify_eq/=
    | case_bool_decide
    | case_decide
    | case_match ].

(** Case analysis on the boolean tests of the goal, leaving the hypotheses alone. *)
Ltac decide_goal :=
  match goal with |- context [bool_decide ?P] => destruct (bool_decide_reflect P) end.

(** Case analysis on an innermost match of the goal. *)
Ltac case_inner :=
  match goal with
  | |- context [match ?x with _ => _ end] =>
      lazymatch x with context [match _ with _ => _ end] => fail | _ => destruct x eqn:? end
  end.

(** Turn boolean comparisons on numbers into propositions. *)
Ltac bool_nums :=
  repeat match goal with
  | H : (_ && _) = true |- _ => apply andb_true_iff in H; destruct H
  | H : (_ && _) = false |- _ => apply andb_false_iff in H
  | H : (_ || _) = true |- _ => apply orb_true_iff in H
  | H : (_ || _) = false |- _ => apply orb_false_iff in H; destruct H
  | H : negb _ = true |- _ => apply negb_true_iff in H
  | H : negb _ = false |- _ => apply negb_false_iff in H
  | H : Z.ltb _ _ = true |- _ => apply Z.ltb_lt in H
  | H : Z.ltb _ _ = false |- _ => apply Z.ltb_ge in H
  | H : Z.leb _ _ = true |- _ => apply Z.leb_le in H
  | H : Z.leb _ _ = false |- _ => apply Z.leb_gt in H
  | H : Z.eqb _ _ = true |- _ => apply Z.eqb_eq in H
  | H : Z.eqb _ _ = false |- _ => apply Z.eqb_neq in H
  | H : Nat.ltb _ _ = true |- _ => apply Nat.ltb_lt in H
  | H : Nat.ltb _ _ = false |- _ => apply Nat.ltb_ge in H
  | H : Nat.leb _ _ = true |- _ => apply Nat.leb_le in H
  | H : Nat.leb _ _ = false |- _ => apply Nat.leb_gt in H
  | H : Nat.eqb _ _ = true |- _ => apply Nat.eqb_eq in H
  | H : Nat.eqb _ _ = false |- _ => apply Nat.eqb_neq in H
  | H : bool_decide _ = true |- _ => apply bool_decide_eq_true in H
  | H : bool_decide _ = false |- _ => apply bool_decide_eq_false in H
  end.

(** ** Machine integers: Go's [int] and [int64] wrap modulo 2^64 *)
Definition int64_min : Z := (-2^63)%Z.
Definition int64_max : Z := (2^63 - 1)%Z.
Definition in_int64 (z : Z) : Prop := (int64_min <= z <= int64_max)%Z.
Definition wrap64 (z : Z) : Z := ((z + 2^63) mod 2^64 - 2^63)%Z.

Lemma wrap64_id (z : Z) : in_int64 z → wrap64 z = z.
Proof.
  unfold in_int64, wrap64, int64_min, int64_max; intros H.
  rewrite Z.mod_small; lia.
Qed.

Lemma wrap64_range (z : Z) : in_int64 (wrap64 z).
Proof.
  unfold in_int64, wrap64, int64_min, int64_max.
  pose proof (Z.mod_pos_bound (z + 2^63) (2^64) ltac:(lia)). lia.
Qed.

#[export] Hint Resolve wrap64_id wrap64_range : tiny.

(** ** Time: [time.Time] as nanoseconds since the zero time *)

(** [time.Time]: the zero value is 0 ([IsZero]); [time.Duration]: nanoseconds. *)
Abbreviation time := Z (only parsing).
Abbreviation duration := Z (only parsing).

Definition is_zero_time (t : time) : bool := Z.eqb t 0.

(** [t.Sub(u)] saturates at the largest and the smallest duration. *)
Definition time_sub (t u : time) : duration :=
  Z.max int64_min (Z.min int64_max (t - u)).

Definition millisecond : duration := 1_000_000%Z.
Definition second : duration := 1_000_000_000%Z.
Definition minute : duration := (60 * second)%Z.
Definition hour : duration := (60 * minute)%Z.

Ltac unfold_time := unfold hour, minute, second, millisecond in *.

(** ** Lists *)
Section lists.
Context {A : Type}.
Implicit Types (l : list A) (p : A → bool).

Fixpoint drop_while p l : list A :=
  match l with
  | [] => []
  | x :: l' => if p x then drop_while p l' else l
  end.

Definition trim_by p l : list A :=
  reverse (drop_while p (reverse (drop_while p l))).

(** The first element that satisfies [p]: Go's [for ... { if p { return } }]. *)
Fixpoint find_first p l : option A :=
  match l with
  | [] => None
  | x :: l' => if p x then Some x else find_first p l'
  end.

Lemma find_first_Some p l x :
  find_first p l = Some x →
  ∃ l1 l2, l = l1 ++ x :: l2 ∧ p x = true ∧ Forall (λ y, p y = false) l1.
Proof.
  induction l as [|y l IH]; simpl; intros H; [done|].
  destruct (p y) eqn:E; simplify_eq.
  - exists [], l. auto.
  - destruct (IH H) as (l1 & l2 & -> & ? & ?).
    exists (y :: l1), l2. auto.
Qed.

Lemma find_first_None p l :
  find_first p l = None ↔ Forall (λ y, p y = false) l.
Proof.
  induction l as [|y l IH]; simpl; [by split|].
  destruct (p y) eqn:E; rewrite Forall_cons.
  - split; [done|]. intros [? _]. congruence.
  - rewrite IH. tauto.
Qed.

Lemma drop_while_suffix p l : drop_while p l `suffix_of` l.
Proof.
  induction l as [|x l IH]; simpl; [done|].
  destruct (p x); [|done]. by apply suffix_cons_r.
Qed.

Lemma drop_while_id p l :
  match l with [] => true | x :: _ => negb (p x) end = true → drop_while p l = l.
Proof. destruct l as [|x l]; simpl; [done|]. by destruct (p x). Qed.

Lemma drop_while_hd p l x l' : drop_while p l = x :: l' → p x = false.
Proof.
  induction l as [|y l IH]; simpl; [done|].
  destruct (p y) eqn:E; [done|]. by intros [= <- <-].
Qed.

Lemma drop_while_idem p l : drop_while p (drop_while p l) = drop_while p l.
Proof.
  apply drop_while_id. destruct (drop_while p l) as [|x l'] eqn:E; [done|].
  by rewrite (drop_while_hd _ _ _ _ E).
Qed.

(** Dropping stops at an element outside [p]. *)
Lemma drop_while_stop p l x l' : p x = false → ∃ k, drop_while p (l ++ x :: l') = k ++ x :: l'.
Proof.
  intros Hx. induction l as [|y l [k IH]]; cbn [app drop_while]; [rewrite Hx; by exists []|].
  destruct (p y); [by exists k|]. by exists (y :: l).
Qed.

Lemma drop_while_length p l : length (drop_while p l) ≤ length l.
Proof. by apply suffix_length, drop_while_suffix. Qed.

Lemma trim_by_length p l : length (trim_by p l) ≤ length l.
Proof.
  unfold trim_by. rewrite length_reverse.
  etrans; [apply drop_while_length|]. rewrite length_reverse.
  apply drop_while_length.
Qed.

Lemma Forall_drop_while (P : A → Prop) p l : Forall P l → Forall P (drop_while p l).
Proof. induction 1; simpl; [done|]. destruct (p _); auto. Qed.

Lemma Forall_trim_by (P : A → Prop) p l : Forall P l → Forall P (trim_by p l).
Proof.
  intros H. unfold trim_by.
  by apply Forall_reverse, Forall_drop_while, Forall_reverse, Forall_drop_while.
Qed.

(** A trimmed list starts and ends outside [p]; a list that does is its own trimming. *)
Lemma trim_by_hd p l x : head (trim_by p l) = Some x → p x = false.
Proof.
  unfold trim_by. intros H.
  destruct (drop_while_suffix p (reverse (drop_while p l))) as [k Hk].
  set (m := drop_while p (reverse (drop_while p l))) in *.
  assert (drop_while p l = reverse m ++ reverse k) as E.
  { rewrite <-(reverse_involutive (drop_while p l)), Hk. by rewrite reverse_app. }
  destruct (reverse m) as [|y r]; simplify_eq/=. by eapply drop_while_hd.
Qed.
Lemma trim_by_last p l x : last (trim_by p l) = Some x → p x = false.
Proof.
  unfold trim_by. rewrite <-head_reverse, reverse_involutive. intros H.
  destruct (drop_while p (reverse _)) as [|y r] eqn:E; simplify_eq/=. by eapply drop_while_hd.
Qed.
Lemma trim_by_ends p l :
  (∀ x, head l = Some x → p x = false) → (∀ x, last l = Some x → p x = false) →
  trim_by p l = l.
Proof.
  intros Hh Hl. unfold trim_by.
  rewrite (drop_while_id p l).
  2:{ destruct l; [done|]. apply negb_true_iff. by apply Hh. }
  rewrite (drop_while_id p (reverse l)); [by rewrite reverse_involutive|].
  destruct (reverse l) as [|x l'] eqn:E; [done|].
  apply negb_true_iff, Hl. by rewrite <-head_reverse, E.
Qed.

Lemma trim_by_id p l : Forall (λ x, p x = false) l → trim_by p l = l.
Proof.
  intros H. unfold trim_by.
  rewrite (drop_while_id p l).
  2:{ destruct H; [done|]. apply negb_true_iff. done. }
  rewrite (drop_while_id p (reverse l)); [by rewrite reverse_involutive|].
  destruct (reverse l) as [|x l'] eqn:E; [done|].
  apply Forall_reverse in H. rewrite E in H. inversion H; subst.
  by apply negb_true_iff.
Qed.
End lists.

#[export] Hint Resolve Forall_drop_while Forall_trim_by : tiny.
