(* ===== verification/GoStrings.v ===== *)
(** * Go strings

    A Go string is a sequence of bytes: here a [string] of ASCII/8-bit
    characters.  This file holds the functions of Go's [strings], [unicode]
    and [unicode/utf8] packages that the program uses, with their lemmas.
    Case mapping and white space follow Go's ASCII tables: bytes above 127
    are neither letters nor spaces, so on a string with non-ASCII letters the
    model keeps them where Go would map their case. *)
From stdpp Require Import base gmap strings list fin_maps sorting pretty.
From Stdlib Require Import Ascii ZArith Lia.
From S2P Require Import Prelude.

(** ** Characters and lists of characters *)
Fixpoint chars (s : string) : list ascii :=
  match s with EmptyString => [] | String c s' => c :: chars s' end.
Fixpoint implode (l : list ascii) : string :=
  match l with [] => "" | c :: l' => String c (implode l') end.

Lemma implode_chars (s : string) : implode (chars s) = s.
Proof. induction s as [|c s IH]; simpl; [done|]. by rewrite IH. Qed.
Lemma chars_implode (l : list ascii) : chars (implode l) = l.
Proof. induction l as [|c l IH]; simpl; [done|]. by rewrite IH. Qed.
Lemma append_cons (c : ascii) (s t : string) : String c s +:+ t = String c (s +:+ t).
Proof. done. Qed.
Lemma append_nil_l (t : string) : "" +:+ t = t.
Proof. done. Qed.
Lemma chars_app (s t : string) : chars (s +:+ t) = chars s ++ chars t.
Proof. induction s as [|c s IH]; [done|]. rewrite append_cons. simpl. by rewrite IH. Qed.
Lemma implode_app (k l : list ascii) : implode (k ++ l) = implode k +:+ implode l.
Proof. induction k as [|c k IH]; simpl; [done|]. by rewrite append_cons, IH. Qed.
Lemma length_chars (s : string) : length (chars s) = String.length s.
Proof. induction s; simpl; auto. Qed.

#[export] Instance chars_inj : Inj (=) (=) chars.
Proof. intros s t H. by rewrite <-(implode_chars s), H, implode_chars. Qed.
#[export] Instance implode_inj : Inj (=) (=) implode.
Proof. intros s t H. by rewrite <-(chars_implode s), H, chars_implode. Qed.

Create Rewrite HintDb go_str.
#[export] Hint Rewrite implode_chars chars_implode chars_app : go_str.

Lemma chars_nil_iff (s : string) : chars s = [] ↔ s = "".
Proof. by destruct s. Qed.

(** [byte c]: the byte value of a character. *)
Definition byte (c : ascii) : nat := nat_of_ascii c.
Definition in_range (lo hi : ascii) (c : ascii) : bool :=
  (byte lo <=? byte c) && (byte c <=? byte hi).

Definition is_space (c : ascii) : bool :=
  (9 <=? byte c) && (byte c <=? 13) || (byte c =? 32).
Definition is_digit (c : ascii) : bool := in_range "0" "9" c.
Definition is_lower (c : ascii) : bool := in_range "a" "z" c.
Definition is_upper (c : ascii) : bool := in_range "A" "Z" c.
Definition lower_char (c : ascii) : ascii :=
  if is_upper c then ascii_of_nat (byte c + 32) else c.

(** A property of all 256 characters is decided by computation. *)
Definition all_ascii : list ascii := ascii_of_nat <$> seq 0 256.
Lemma elem_of_all_ascii (c : ascii) : c ∈ all_ascii.
Proof.
  unfold all_ascii. apply list_elem_of_fmap. exists (nat_of_ascii c).
  rewrite ascii_nat_embedding. split; [done|]. apply elem_of_seq.
  pose proof (nat_ascii_bounded c). lia.
Qed.
Lemma forall_ascii (P : ascii → bool) : forallb P all_ascii = true → ∀ c, P c = true.
Proof.
  intros H c. apply (proj1 (forallb_forall P all_ascii) H).
  apply list_elem_of_In, elem_of_all_ascii.
Qed.
Ltac by_all_ascii := apply forall_ascii; vm_compute; reflexivity.

Lemma is_space_lower (c : ascii) : is_space (lower_char c) = is_space c.
Proof.
  cut (Bool.eqb (is_space (lower_char c)) (is_space c) = true); [by apply Bool.eqb_prop|].
  revert c. by_all_ascii.
Qed.
Lemma lower_char_idemp (c : ascii) : lower_char (lower_char c) = lower_char c.
Proof.
  cut (bool_decide (lower_char (lower_char c) = lower_char c) = true).
  { by intros ?%bool_decide_eq_true. }
  revert c. by_all_ascii.
Qed.
Lemma lower_not_upper (c : ascii) : is_upper (lower_char c) = false.
Proof.
  cut (negb (is_upper (lower_char c)) = true); [by intros ?%negb_true_iff|].
  revert c. by_all_ascii.
Qed.

(** ** strings.ToLower, strings.TrimSpace *)
Definition to_lower (s : string) : string := implode (lower_char <$> chars s).
Definition trim_space (s : string) : string := implode (trim_by is_space (chars s)).

Lemma chars_to_lower (s : string) : chars (to_lower s) = lower_char <$> chars s.
Proof. apply chars_implode. Qed.
Lemma to_lower_app s t : to_lower (s +:+ t) = to_lower s +:+ to_lower t.
Proof. unfold to_lower. by rewrite chars_app, fmap_app, implode_app. Qed.

Lemma chars_trim_space (s : string) : chars (trim_space s) = trim_by is_space (chars s).
Proof. apply chars_implode. Qed.

Lemma to_lower_idemp (s : string) : to_lower (to_lower s) = to_lower s.
Proof.
  apply (inj chars). rewrite !chars_to_lower, <-list_fmap_compose.
  apply list_fmap_ext. intros i c _. apply lower_char_idemp.
Qed.

(** The line feed. *)
Definition newline_char : ascii := ascii_of_nat 10.

Lemma drop_while_fmap {A B} (f : A → B) (p : B → bool) (l : list A) :
  drop_while p (f <$> l) = f <$> drop_while (p ∘ f) l.
Proof. induction l as [|x l IH]; simpl; [done|]. by destruct (p (f x)). Qed.
Lemma drop_while_ext {A} (p q : A → bool) (l : list A) :
  (∀ x, p x = q x) → drop_while p l = drop_while q l.
Proof. intros H. induction l as [|x l IH]; simpl; [done|]. rewrite H. by destruct (q x). Qed.
Lemma fmap_reverse' {A B} (f : A → B) (l : list A) : f <$> reverse l = reverse (f <$> l).
Proof. by rewrite fmap_reverse. Qed.

Lemma trim_lower (s : string) : trim_space (to_lower s) = to_lower (trim_space s).
Proof.
  apply (inj chars). rewrite chars_trim_space, !chars_to_lower, chars_trim_space.
  unfold trim_by.
  assert (∀ l, drop_while is_space (lower_char <$> l) = lower_char <$> drop_while is_space l) as Hd.
  { intros l. rewrite drop_while_fmap. f_equal. apply drop_while_ext, is_space_lower. }
  by rewrite Hd, <-fmap_reverse, Hd, <-fmap_reverse.
Qed.

Lemma drop_while_reverse_trim {A} (p : A → bool) (l : list A) :
  drop_while p (trim_by p l) = trim_by p l.
Proof.
  unfold trim_by. apply drop_while_id.
  destruct (drop_while_suffix p (reverse (drop_while p l))) as [k Hk].
  set (m := drop_while p (reverse (drop_while p l))) in *.
  assert (drop_while p l = reverse m ++ reverse k) as E.
  { rewrite <-(reverse_involutive (drop_while p l)), Hk. by rewrite reverse_app. }
  destruct (reverse m) as [|x r] eqn:Er; [done|].
  simpl in E. by rewrite (drop_while_hd _ _ _ _ E).
Qed.

Lemma trim_by_idemp {A} (p : A → bool) (l : list A) :
  trim_by p (trim_by p l) = trim_by p l.
Proof.
  unfold trim_by at 1. rewrite drop_while_reverse_trim.
  unfold trim_by. by rewrite reverse_involutive, drop_while_idem.
Qed.

Lemma trim_space_idemp (s : string) : trim_space (trim_space s) = trim_space s.
Proof. apply (inj chars). by rewrite !chars_trim_space, trim_by_idemp. Qed.

Lemma trim_space_id (s : string) :
  Forall (λ c, is_space c = false) (chars s) → trim_space s = s.
Proof. intros H. apply (inj chars). by rewrite chars_trim_space, trim_by_id. Qed.

(** ** Prefixes and substrings *)
Fixpoint has_prefix_l (p l : list ascii) : bool :=
  match p, l with
  | [], _ => true
  | c :: p', d :: l' => bool_decide (c = d) && has_prefix_l p' l'
  | _ :: _, [] => false
  end.

Lemma has_prefix_l_spec p l : has_prefix_l p l = true ↔ ∃ k, l = p ++ k.
Proof.
  revert l. induction p as [|c p IHp]; intros [|d l]; simpl.
  - split; [by exists []|done].
  - split; [by exists (d :: l)|done].
  - split; [done|by intros [k ?]].
  - rewrite andb_true_iff, bool_decide_eq_true, IHp. split.
    + intros [-> [k ->]]. by exists k.
    + intros [k [= -> ->]]. eauto.
Qed.

(** The position of the first occurrence of [p], as [strings.Index] (None: -1). *)
Fixpoint index_l (p l : list ascii) : option nat :=
  if has_prefix_l p l then Some 0
  else match l with
       | [] => None
       | _ :: l' => S <$> index_l p l'
       end.

Lemma index_l_Some p l i :
  index_l p l = Some i → ∃ k, l = take i l ++ p ++ k ∧ i ≤ length l.
Proof.
  revert i. induction l as [|d l IH]; intros i; simpl.
  - destruct (has_prefix_l p []) eqn:E; [|done]. intros [= <-].
    apply has_prefix_l_spec in E as [k ?]. exists k. auto.
  - destruct (has_prefix_l p (d :: l)) eqn:E.
    + intros [= <-]. apply has_prefix_l_spec in E as [k ?]. exists k. simpl; auto with lia.
    + intros (j & Hj & ->)%fmap_Some. destruct (IH _ Hj) as (k & Hk & ?).
      exists k. simpl. split; [by f_equal|lia].
Qed.

Lemma index_l_None p l : index_l p l = None → ∀ a b, l ≠ a ++ p ++ b.
Proof.
  induction l as [|d l IH]; simpl.
  - destruct (has_prefix_l p []) eqn:E; [done|]. intros _ a b Hab.
    symmetry in Hab. apply app_nil in Hab as [-> [-> ->]%app_nil]. done.
  - destruct (has_prefix_l p (d :: l)) eqn:E; [done|].
    intros Hn a b Hab. apply fmap_None in Hn. destruct a as [|x a].
    + assert (has_prefix_l p (d :: l) = true) by (apply has_prefix_l_spec; eauto). congruence.
    + simplify_eq/=. by eapply IH.
Qed.

Definition has_prefix (s p : string) : bool := has_prefix_l (chars p) (chars s).
Definition has_suffix (s p : string) : bool :=
  has_prefix_l (reverse (chars p)) (reverse (chars s)).
Definition index (s p : string) : option nat := index_l (chars p) (chars s).
Definition contains (s p : string) : bool := bool_decide (is_Some (index s p)).
Definition trim_prefix (s p : string) : string :=
  if has_prefix s p then implode (drop (String.length p) (chars s)) else s.

(** [s[:n]] and [s[n:]] for [n] within the string. *)
Definition str_take (n : nat) (s : string) : string := implode (take n (chars s)).
Definition str_drop (n : nat) (s : string) : string := implode (drop n (chars s)).

Lemma str_take_drop (n : nat) (s : string) : str_take n s +:+ str_drop n s = s.
Proof. unfold str_take, str_drop. by rewrite <-implode_app, take_drop, implode_chars. Qed.

(** [strings.TrimRight(s, c)] for one character, [strings.CutSuffix]. *)
Definition trim_right_char (c : ascii) (s : string) : string :=
  implode (reverse (drop_while (λ x, bool_decide (x = c)) (reverse (chars s)))).
Definition trim_suffix (s suffix : string) : string :=
  if has_suffix s suffix then str_take (String.length s - String.length suffix) s else s.

(** [strings.ContainsAny]. *)
Definition contains_any (s cs : string) : bool :=
  existsb (λ c, bool_decide (c ∈ chars cs)) (chars s).

(** ** Cutting at the first occurrence of a character *)
Fixpoint cut_l (c : ascii) (l : list ascii) : option (list ascii * list ascii) :=
  match l with
  | [] => None
  | d :: l' => if bool_decide (c = d) then Some ([], l')
               else prod_map (cons d) id <$> cut_l c l'
  end.

Lemma cut_l_Some c l a b : cut_l c l = Some (a, b) → l = a ++ c :: b ∧ c ∉ a.
Proof.
  revert a b. induction l as [|d l IH]; intros a b; simpl; [done|].
  case_bool_decide as E.
  - intros [= <- <-]. subst. split; [done|set_solver].
  - intros ([a' b'] & H & [= -> ->])%fmap_Some. simpl.
    destruct (IH _ _ H) as [-> ?]. split; [done|set_solver].
Qed.
Lemma cut_l_app c a b : c ∉ a → cut_l c (a ++ c :: b) = Some (a, b).
Proof.
  induction a as [|d a IH]; intros Hn; simpl.
  - by rewrite bool_decide_true.
  - rewrite bool_decide_false by set_solver. rewrite IH by set_solver. done.
Qed.
Lemma cut_l_None c l : cut_l c l = None ↔ c ∉ l.
Proof.
  induction l as [|d l IH]; simpl; [set_solver|].
  case_bool_decide; [set_solver|]. rewrite fmap_None, IH. set_solver.
Qed.

(** [strings.Cut(s, c)] for a one-character separator; also [SplitN(s, c, 2)]. *)
Definition cut (s : string) (c : ascii) : option (string * string) :=
  prod_map implode implode <$> cut_l c (chars s).

Lemma cut_Some s c a b : cut s c = Some (a, b) → s = a +:+ String c b ∧ c ∉ chars a.
Proof.
  unfold cut. intros ([a' b'] & H & [= -> ->])%fmap_Some.
  apply cut_l_Some in H as [Hs ?]. rewrite chars_implode. split; [|done].
  rewrite <-(implode_chars s), Hs, implode_app. done.
Qed.
Lemma cut_app a c b : c ∉ chars a → cut (a +:+ String c b) c = Some (a, b).
Proof.
  intros H. unfold cut. rewrite chars_app. simpl.
  rewrite cut_l_app by done. simpl. by rewrite !implode_chars.
Qed.

(** ** strings.ReplaceAll for single characters, strings.Join, strings.Fields *)
Definition replace_char (c d : ascii) (s : string) : string :=
  implode ((λ x, if bool_decide (x = c) then d else x) <$> chars s).

Fixpoint join (sep : string) (l : list string) : string :=
  match l with
  | [] => ""
  | [s] => s
  | s :: l' => s +:+ sep +:+ join sep l'
  end.

Fixpoint fields_go (cur : list ascii) (l : list ascii) : list (list ascii) :=
  match l with
  | [] => if decide (cur = []) then [] else [cur]
  | c :: l' =>
      if is_space c
      then (if decide (cur = []) then [] else [cur]) ++ fields_go [] l'
      else fields_go (cur ++ [c]) l'
  end.
Definition fields (s : string) : list string := implode <$> fields_go [] (chars s).

(** ** UTF-8: [utf8.DecodeRune] on bytes, the width of the first rune *)
Definition cont_byte (lo hi : nat) (l : list ascii) : bool :=
  match l with c :: _ => (lo <=? byte c) && (byte c <=? hi) | [] => false end.

(** The width in bytes of the valid encoding at the head of [l], [None] when the
    bytes there are no valid encoding (Go then yields U+FFFD with width 1). *)
Definition rune_width (l : list ascii) : option nat :=
  match l with
  | [] => None
  | c :: r =>
      let b := byte c in
      if b <? 128 then Some 1
      else if (194 <=? b) && (b <=? 223) then
        if cont_byte 128 191 r then Some 2 else None
      else if (224 <=? b) && (b <=? 239) then
        let lo := if b =? 224 then 160 else 128 in
        let hi := if b =? 237 then 159 else 191 in
        if cont_byte lo hi r && cont_byte 128 191 (tail r) then Some 3 else None
      else if (240 <=? b) && (b <=? 244) then
        let lo := if b =? 240 then 144 else 128 in
        let hi := if b =? 244 then 143 else 191 in
        if cont_byte lo hi r && cont_byte 128 191 (tail r)
           && cont_byte 128 191 (tail (tail r)) then Some 4 else None
      else None
  end.

(** [[]rune(s)], each rune as the bytes [string(r)] gives back for it: an
    invalid byte becomes the replacement character's three bytes. *)
Definition rune_error : list ascii := ascii_of_nat <$> [239; 191; 189].
Fixpoint runes_go (fuel : nat) (l : list ascii) : list (list ascii) :=
  match fuel, l with
  | S n, _ :: r =>
      match rune_width l with
      | Some w => take w l :: runes_go n (drop w l)
      | None => rune_error :: runes_go n r
      end
  | _, _ => []
  end.
Definition runes (s : string) : list (list ascii) := runes_go (String.length s) (chars s).
Definition rune_count (s : string) : nat := length (runes s).

Lemma cont_byte_length lo hi l : cont_byte lo hi l = true → 1 ≤ length l.
Proof. destruct l; simpl; [done|lia]. Qed.

Lemma length_tail_pos {A} (l : list A) : 1 ≤ length (tail l) → length (tail l) = length l - 1.
Proof. destruct l; simpl; lia. Qed.

Lemma rune_width_pos l w : rune_width l = Some w → 1 ≤ w ≤ length l.
Proof.
  unfold rune_width. destruct l as [|c r]; [done|]. generalize (byte c); intros b H.
  change (length (c :: r)) with (S (length r)).
  repeat match type of H with
  | (if ?t then _ else _) = _ => destruct t eqn:?; try done
  end; simplify_eq; bool_nums;
  repeat match goal with
  | E : cont_byte _ _ _ = true |- _ => apply cont_byte_length in E
  end;
  pose proof (length_tail_pos r); pose proof (length_tail_pos (tail r)); lia.
Qed.

Lemma runes_go_length n l : length (runes_go n l) ≤ length l.
Proof.
  revert l. induction n as [|n IH]; intros [|c l];
    cbn [runes_go]; [simpl; lia..|].
  destruct (rune_width (c :: l)) as [w|] eqn:E; cbn [length].
  - apply rune_width_pos in E as [? ?].
    pose proof (IH (drop w (c :: l))) as H'. rewrite length_drop in H'.
    change (length (c :: l)) with (S (length l)) in *. lia.
  - pose proof (IH l). lia.
Qed.

Lemma rune_count_le (s : string) : rune_count s ≤ String.length s.
Proof. unfold rune_count, runes. rewrite <-(length_chars s). apply runes_go_length. Qed.
