(* ===== verification/ProviderTypes.v ===== *)
(** * Provider types (pkg/providers/types.go, pkg/providers/protocoltypes/types.go)

    The messages exchanged with a language model, tool calls, and the
    classification of provider failures. *)
From stdpp Require Import base gmap strings list fin_maps countable.
From Stdlib Require Import Ascii ZArith Lia.
From S2P Require Import Prelude GoStrings.

(** ** Failover reasons *)

(** The constants of type [FailoverReason]; the empty string is [None] of
    [option FailoverReason]. *)
Inductive FailoverReason : Set :=
| FailoverAuth
| FailoverRateLimit
| FailoverBilling
| FailoverTimeout
| FailoverFormat
| FailoverOverloaded
| FailoverUnknown.

#[export] Instance FailoverReason_eq_dec : EqDecision FailoverReason.
Proof. solve_decision. Defined.

Definition all_reasons : list FailoverReason :=
  [FailoverAuth; FailoverRateLimit; FailoverBilling; FailoverTimeout; FailoverFormat;
   FailoverOverloaded; FailoverUnknown].

Definition reason_index (r : FailoverReason) : nat :=
  match r with
  | FailoverAuth => 0 | FailoverRateLimit => 1 | FailoverBilling => 2
  | FailoverTimeout => 3 | FailoverFormat => 4 | FailoverOverloaded => 5
  | FailoverUnknown => 6
  end.

#[export] Program Instance FailoverReason_countable : Countable FailoverReason :=
  inj_countable' reason_index (λ n, default FailoverUnknown (all_reasons !! n)) _.
Next Obligation. by intros []. Qed.

Definition reason_string (r : option FailoverReason) : string :=
  match r with
  | Some FailoverAuth => "auth"
  | Some FailoverRateLimit => "rate_limit"
  | Some FailoverBilling => "billing"
  | Some FailoverTimeout => "timeout"
  | Some FailoverFormat => "format"
  | Some FailoverOverloaded => "overloaded"
  | Some FailoverUnknown => "unknown"
  | None => ""
  end.

(** ** Errors

    A Go [error] as the failover code inspects it: its text, and whether
    [errors.Is] finds [context.Canceled] or [context.DeadlineExceeded] in it. *)
Record error := mk_error {
  err_text : string;
  err_canceled : bool;
  err_deadline : bool;
}.

Definition errors_New (text : string) : error := mk_error text false false.

(** [fmt.Errorf("...%w", err)]: the chain of the wrapped error is kept. *)
Definition wrap_error (prefix : string) (e : error) : error :=
  mk_error (prefix +:+ err_text e) (err_canceled e) (err_deadline e).

Definition context_Canceled : error := mk_error "context canceled" true false.

Record FailoverError := mk_FailoverError {
  fe_Reason : FailoverReason;
  fe_Provider : string;
  fe_Model : string;
  fe_Status : Z;
  fe_Wrapped : error;
}.

Definition IsRetriable (e : FailoverError) : bool :=
  negb (bool_decide (fe_Reason e = FailoverFormat)).

(** ** Model configuration *)
Record ModelConfig := mk_ModelConfig {
  mc_Primary : string;
  mc_Fallbacks : list string;
}.

(** ** JSON values: what [map[string]any] holds after decoding *)
Inductive json :=
| JNull
| JBool (b : bool)
| JNum (n : Z)
| JStr (s : string)
| JArr (l : list json)
| JObj (kvs : list (string * json)).

(** [args["k"].(string)]: the value and whether the type assertion holds. *)
Definition arg_string (args : gmap string json) (k : string) : option string :=
  match args !! k with Some (JStr s) => Some s | _ => None end.

(** [s, _ := args["k"].(string)]: the zero value when the assertion fails. *)
Definition arg_string_or_empty (args : gmap string json) (k : string) : string :=
  default "" (arg_string args k).

(** ** The protocol types *)
Record FunctionCall := mk_FunctionCall {
  fc_Name : string;
  fc_Arguments : string;
  fc_ThoughtSignature : string;
}.

Record ToolCall := mk_ToolCall {
  tc_ID : string;
  tc_Type : string;
  tc_Function : option FunctionCall;
  tc_Name : string;
  tc_Arguments : option (gmap string json);   (* None: the nil map *)
  tc_ThoughtSignature : string;
  tc_ExtraContent : option (option string);   (* *ExtraContent, its *GoogleExtra's signature *)
}.

Record UsageInfo := mk_UsageInfo {
  ui_PromptTokens : Z;
  ui_CompletionTokens : Z;
  ui_TotalTokens : Z;
}.

Record LLMResponse := mk_LLMResponse {
  lr_Content : string;
  lr_ReasoningContent : string;
  lr_ToolCalls : list ToolCall;
  lr_FinishReason : string;
  lr_Usage : option UsageInfo;
}.

Record ContentBlock := mk_ContentBlock {
  cb_Type : string;
  cb_Text : string;
  cb_CacheControl : option string;
}.

Record Message := mk_Message {
  m_Role : string;
  m_Content : string;
  m_ReasoningContent : string;
  m_SystemParts : list ContentBlock;
  m_ToolCalls : list ToolCall;
  m_ToolCallID : string;
}.

(** [Message{Role: role, Content: content}]. *)
Definition text_message (role content : string) : Message :=
  mk_Message role content "" [] [] "".

(** [Message{Role: "tool", Content: content, ToolCallID: id}]. *)
Definition tool_message (content id : string) : Message :=
  mk_Message "tool" content "" [] [] id.

(** What is left of a message after [json.Marshal] and [json.Unmarshal]: the
    fields tagged [json:"-"] of its tool calls are dropped. *)
Definition json_ToolCall (tc : ToolCall) : ToolCall :=
  mk_ToolCall (tc_ID tc) (tc_Type tc) (tc_Function tc) "" None "" (tc_ExtraContent tc).
Definition json_Message (m : Message) : Message :=
  mk_Message (m_Role m) (m_Content m) (m_ReasoningContent m) (m_SystemParts m)
    (json_ToolCall <$> m_ToolCalls m) (m_ToolCallID m).

Record ToolDefinition := mk_ToolDefinition {
  td_Type : string;
  td_Name : string;
  td_Description : string;
  td_Parameters : option (gmap string json);
}.

(** ** The provider interface

    [LLMProvider.Chat] talks to a remote service: each call has an outcome the
    program does not control.  A provider state [P] that [chat] threads makes
    consecutive calls free to answer differently.  The [options] map of [Chat]
    is the same in every call of a loop, so it is part of [P]. *)
Class LLMProvider (P : Type) := {
  chat : P → list Message → list ToolDefinition → string → result error LLMResponse * P;
}.
