(* ===== verification/Encoding.v ===== *)
(** * Encodings (encoding/base64, encoding/hex, strconv, strings, encoding/json)

    What the sources use of the encodings of the standard library, with the round
    trips: base64, hexadecimal, decimal integers of 64 bits, replacing and cutting
    strings, and how JSON values decode into strings and fields. *)
From stdpp Require Import base gmap strings list pretty.
From Stdlib Require Import Ascii ZArith Lia ZifyNat.
From S2P Require Import Prelude GoStrings ProviderTypes.
#[local] Open Scope nat_scope.

(** ** base64 *)
Definition alphabet : list ascii :=
  chars "ABCDEFGHIJKLMNOPQRSTUVWXYZabcdefghijklmnopqrstuvwxyz0123456789+/".
Definition pad : ascii := "="%char.

Definition sextet (c : ascii) : option nat := fst <$> list_find (c =.) alphabet.

Definition octet (n : nat) : ascii := ascii_of_nat n.

(** Groups of four characters, the last one padded. *)
Fixpoint decode_groups (l : list ascii) : option (list ascii) :=
  match l with
  | [] => Some []
  | a :: b :: c :: d :: l' =>
      x ← sextet a; y ← sextet b;
      if bool_decide (c = pad ∧ d = pad ∧ l' = []) then Some [octet (x * 4 + y / 16)]
      else
        z ← sextet c;
        if bool_decide (d = pad ∧ l' = [])
        then Some [octet (x * 4 + y / 16); octet (y mod 16 * 16 + z / 4)]
        else
          w ← sextet d; rest ← decode_groups l';
          Some (octet (x * 4 + y / 16) :: octet (y mod 16 * 16 + z / 4) :: octet (z mod 4 * 64 + w) :: rest)
  | _ => None
  end.

(** [base64.StdEncoding.DecodeString], which skips line ends. *)
Definition std_decode (s : list ascii) : option (list ascii) :=
  decode_groups (filter (λ c, c ≠ ascii_of_nat 10 ∧ c ≠ ascii_of_nat 13) s).

Definition std_char (n : nat) : ascii := default pad (alphabet !! n).
Definition url_char (n : nat) : ascii :=
  if bool_decide (n = 62) then "-"%char else if bool_decide (n = 63) then "_"%char else std_char n.

(** [base64.RawURLEncoding.EncodeToString]. *)
Fixpoint raw_url_encode (l : list ascii) : list ascii :=
  match l with
  | [] => []
  | [a] => [url_char (byte a / 4); url_char (byte a mod 4 * 16)]
  | [a; b] => [url_char (byte a / 4); url_char (byte a mod 4 * 16 + byte b / 16);
               url_char (byte b mod 16 * 4)]
  | a :: b :: c :: l' =>
      url_char (byte a / 4) :: url_char (byte a mod 4 * 16 + byte b / 16)
        :: url_char (byte b mod 16 * 4 + byte c / 64) :: url_char (byte c mod 64) :: raw_url_encode l'
  end.

(** [base64.StdEncoding.EncodeToString]. *)
Fixpoint raw_std (l : list ascii) : list ascii :=
  match l with
  | [] => []
  | [a] => [std_char (byte a / 4); std_char (byte a mod 4 * 16)]
  | [a; b] => [std_char (byte a / 4); std_char (byte a mod 4 * 16 + byte b / 16);
               std_char (byte b mod 16 * 4)]
  | a :: b :: c :: l' =>
      std_char (byte a / 4) :: std_char (byte a mod 4 * 16 + byte b / 16)
        :: std_char (byte b mod 16 * 4 + byte c / 64) :: std_char (byte c mod 64) :: raw_std l'
  end.

(** Padding to groups of four characters. *)
Definition padded (l : list ascii) : list ascii :=
  if decide (length l mod 4 = 2) then l ++ [pad; pad]
  else if decide (length l mod 4 = 3) then l ++ [pad] else l.

Definition std_encode (l : list ascii) : list ascii := padded (raw_std l).

(** ** Hexadecimal: [hex.EncodeToString] *)
Definition hex_char (n : nat) : ascii := default "0"%char (chars "0123456789abcdef" !! n).
Definition hex_encode (l : list ascii) : list ascii :=
  l ≫= λ c, [hex_char (byte c / 16); hex_char (byte c mod 16)].

(** ** Integers: [strconv.ParseInt] in base 10 for 64 bits, and [strconv.Atoi] *)
Definition digits_value (l : list ascii) : Z :=
  foldl (λ n c, n * 10 + (Z.of_nat (byte c) - 48))%Z 0%Z l.

(** A number without a sign; [None] when there is a character that is no digit. *)
Definition parse_digits (l : list ascii) : option Z :=
  if negb (bool_decide (l = [])) && forallb is_digit l then Some (digits_value l) else None.

Definition sign_split (l : list ascii) : bool * list ascii :=
  match l with
  | c :: r => if bool_decide (c = "-"%char) then (true, r)
              else if bool_decide (c = "+"%char) then (false, r) else (false, l)
  | [] => (false, [])
  end.

(** The value, and whether there is no error; out of range it is the nearest bound. *)
Definition ParseInt (s : string) : Z * bool :=
  let '(neg, ds) := sign_split (chars s) in
  match parse_digits ds with
  | None => (0%Z, false)
  | Some n =>
      let v := if neg then (- n)%Z else n in
      if (v <? int64_min)%Z then (int64_min, false)
      else if (int64_max <? v)%Z then (int64_max, false)
      else (v, true)
  end.

(** ** [strings.CutPrefix], [strings.ReplaceAll] of a text that is not empty *)
Definition CutPrefix (s p : string) : option string :=
  if has_prefix s p then Some (str_drop (String.length p) s) else None.

Fixpoint replace_go (old new : list ascii) (skip : nat) (l : list ascii) : list ascii :=
  match l with
  | [] => []
  | c :: r =>
      match skip with
      | S k => replace_go old new k r
      | 0 => if has_prefix_l old l then new ++ replace_go old new (length old - 1) r
             else c :: replace_go old new 0 r
      end
  end.
Definition ReplaceAll (s old new : string) : string :=
  implode (replace_go (chars old) (chars new) 0 (chars s)).

(** ** JSON *)

(** The float64 nearest to an integer, ties to even. *)
Definition float64_of (n : Z) : Z :=
  let a := Z.abs n in
  if (a <? 2 ^ 53)%Z then n
  else
    let ulp := (2 ^ (Z.log2 a - 52))%Z in
    let q := (a / ulp)%Z in
    let r := (a mod ulp)%Z in
    let q := if (2 * r <? ulp)%Z then q
             else if (ulp <? 2 * r)%Z then (q + 1)%Z
             else if Z.even q then q else (q + 1)%Z in
    (Z.sgn n * (q * ulp))%Z.

(** [%v] of an integer below 2^53 that was decoded as a float64: six digits at most
    are written out, otherwise there is an exponent. *)
Definition format_float (n : Z) : string :=
  let ds := chars (pretty (Z.abs n)) in
  let sign := if (n <? 0)%Z then "-" else "" in
  if Nat.leb (length ds) 6 then sign +:+ implode ds
  else
    let m := reverse (drop_while (λ c, bool_decide (c = "0"%char)) (reverse ds)) in
    let e := length ds - 1 in
    sign +:+ implode (take 1 m ++ (if bool_decide (drop 1 m = []) then [] else "."%char :: drop 1 m))
      +:+ "e+" +:+ (if Nat.ltb e 10 then "0" else "") +:+ pretty e.

(** Decoding into a string: null leaves it empty. *)
Definition string_of (v : json) : option string :=
  match v with JStr s => Some s | JNull => Some "" | _ => None end.

Definition bool_of (v : json) : option bool :=
  match v with JBool b => Some b | JNull => Some false | _ => None end.

(** Decoding into an int64. *)
Definition int64_of (v : json) : option Z :=
  match v with
  | JNum n => if bool_decide (int64_min <= n <= int64_max)%Z then Some n else None
  | JNull => Some 0%Z
  | _ => None
  end.

(** A field of an object as the decoder finds it: the last one of the name, by any
    case of its letters. *)
Definition field (k : string) (kvs : list (string * json)) : option json :=
  snd <$> find_first (λ kv, bool_decide (to_lower kv.1 = k)) (reverse kvs).

(** The key of a map. *)
Definition key (k : string) (kvs : list (string * json)) : option json :=
  snd <$> find_first (λ kv, bool_decide (kv.1 = k)) (reverse kvs).

(** A list of strings: null is the nil list. *)
Definition string_list_of (v : json) : option (option (list string)) :=
  match v with JNull => Some None | JArr items => Some <$> mapM string_of items | _ => None end.

(** Induction over a value, with the hypothesis for all values inside it. *)
Definition json_induction (P : json → Prop) (HNull : P JNull) (HBool : ∀ b, P (JBool b)) (HNum : ∀ n, P (JNum n))
    (HStr : ∀ s, P (JStr s)) (HArr : ∀ l, Forall P l → P (JArr l))
    (HObj : ∀ kvs, Forall (λ kv, P kv.2) kvs → P (JObj kvs)) : ∀ v, P v :=
  fix go v :=
    match v with
    | JNull => HNull
    | JBool b => HBool b
    | JNum n => HNum n
    | JStr s => HStr s
    | JArr l => HArr l ((fix all l := match l return Forall P l with
                                      | [] => Forall_nil_2 P
                                      | x :: r => Forall_cons_2 P x r (go x) (all r)
                                      end) l)
    | JObj kvs => HObj kvs ((fix all kvs := match kvs return Forall (λ kv, P kv.2) kvs with
                                            | [] => Forall_nil_2 _
                                            | x :: r => Forall_cons_2 _ x r (go x.2) (all r)
                                            end) kvs)
    end.

(** ** base64: round trip *)
Lemma below_64 (P : nat → Prop) : Forall P (seq 0 64) → ∀ n, n < 64 → P n.
Proof. rewrite Forall_forall. intros H n Hn. apply H, elem_of_seq. lia. Qed.

Lemma sextet_std n : n < 64 → sextet (std_char n) = Some n.
Proof. revert n. apply below_64. cbn [seq]. repeat (apply Forall_cons; split); try done. Qed.

Lemma std_char_props n :
  n < 64 → std_char n ≠ pad ∧ std_char n ≠ ascii_of_nat 10 ∧ std_char n ≠ ascii_of_nat 13 ∧
  url_char n ≠ "."%char ∧
  (if bool_decide (url_char n = "-"%char) then "+"%char
   else if bool_decide (url_char n = "_"%char) then "/"%char else url_char n) = std_char n.
Proof. revert n. apply below_64. cbn [seq]. repeat (apply Forall_cons; split); try done. Qed.

Lemma byte_lt a : byte a < 256.
Proof. apply nat_ascii_bounded. Qed.
Lemma octet_byte a : octet (byte a) = a.
Proof. apply ascii_nat_embedding. Qed.

Definition to_std (c : ascii) : ascii :=
  if bool_decide (c = "-"%char) then "+"%char else if bool_decide (c = "_"%char) then "/"%char else c.

(** Induction in steps of three. *)
Lemma triples_ind (P : list ascii → Prop) :
  P [] → (∀ a, P [a]) → (∀ a b, P [a; b]) → (∀ a b c l, P l → P (a :: b :: c :: l)) → ∀ l, P l.
Proof.
  intros H0 H1 H2 H3 l. assert (P l ∧ (∀ a, P (a :: l)) ∧ (∀ a b, P (a :: b :: l))) as [? _]; [|done].
  induction l as [|c l (IH1 & IH2 & IH3)]; [by auto|]. split; [done|]. split; [done|]. auto.
Qed.

(** Arithmetic with divisions by constants. *)
Ltac div_lia := zify; Z.to_euclidean_division_equations; lia.

Section sextets.
Context (a b c : ascii).
Let Ha := byte_lt a.
Let Hb := byte_lt b.
Let Hc := byte_lt c.

Lemma sextet_1 : byte a / 4 < 64.
Proof. clear -Ha. div_lia. Qed.
Lemma sextet_2 : byte a mod 4 * 16 + byte b / 16 < 64.
Proof. clear -Ha Hb. div_lia. Qed.
Lemma sextet_3 : byte b mod 16 * 4 + byte c / 64 < 64.
Proof. clear -Hb Hc. div_lia. Qed.
Lemma sextet_4 : byte c mod 64 < 64.
Proof. clear -Hc. div_lia. Qed.
Lemma sextet_2' : byte a mod 4 * 16 < 64.
Proof. clear -Ha. div_lia. Qed.
Lemma sextet_3' : byte b mod 16 * 4 < 64.
Proof. clear -Hb. div_lia. Qed.

Lemma octet_1 : byte a / 4 * 4 + (byte a mod 4 * 16 + byte b / 16) / 16 = byte a.
Proof. clear -Ha Hb. div_lia. Qed.
Lemma octet_1' : byte a / 4 * 4 + byte a mod 4 * 16 / 16 = byte a.
Proof. clear -Ha. div_lia. Qed.
Lemma octet_2 : (byte a mod 4 * 16 + byte b / 16) mod 16 * 16 + (byte b mod 16 * 4 + byte c / 64) / 4 = byte b.
Proof. clear -Ha Hb Hc. div_lia. Qed.
Lemma octet_2' : (byte a mod 4 * 16 + byte b / 16) mod 16 * 16 + byte b mod 16 * 4 / 4 = byte b.
Proof. clear -Ha Hb. div_lia. Qed.
Lemma octet_3 : (byte b mod 16 * 4 + byte c / 64) mod 4 * 64 + byte c mod 64 = byte c.
Proof. clear -Hb Hc. div_lia. Qed.
End sextets.

#[local] Hint Resolve sextet_1 sextet_2 sextet_3 sextet_4 sextet_2' sextet_3' : tiny.

Lemma to_std_url n : n < 64 → to_std (url_char n) = std_char n.
Proof. intros Hn. apply std_char_props, Hn. Qed.

Lemma to_std_encode l : to_std <$> raw_url_encode l = raw_std l.
Proof.
  induction l as [|a|a b|a b c l IH] using triples_ind; [done|..];
    cbn [raw_url_encode raw_std fmap list_fmap]; rewrite ?to_std_url by eauto with tiny; [done..|].
  by rewrite <-IH.
Qed.

Lemma raw_std_chars l c : c ∈ raw_std l → ∃ n, n < 64 ∧ c = std_char n.
Proof.
  induction l as [|x|x y|x y z l IH] using triples_ind; cbn [raw_std]; intros H; [set_solver|..];
    repeat (apply elem_of_cons in H as [->|H]; [eexists; split; [|done]; eauto with tiny|]);
    first [by apply not_elem_of_nil in H|by apply IH].
Qed.

Lemma raw_url_chars l c : c ∈ raw_url_encode l → ∃ n, n < 64 ∧ c = url_char n.
Proof.
  induction l as [|x|x y|x y z l IH] using triples_ind; cbn [raw_url_encode]; intros H; [set_solver|..];
    repeat (apply elem_of_cons in H as [->|H]; [eexists; split; [|done]; eauto with tiny|]);
    first [by apply not_elem_of_nil in H|by apply IH].
Qed.

Lemma padded_group a b c d l : padded (a :: b :: c :: d :: l) = a :: b :: c :: d :: padded l.
Proof.
  unfold padded. cbn [length].
  replace (S (S (S (S (length l)))) mod 4) with (length l mod 4) by div_lia.
  by repeat case_decide.
Qed.

Lemma decode_padded l : decode_groups (padded (raw_std l)) = Some l.
Proof.
  induction l as [|a|a b|a b c l IH] using triples_ind; [done|..]; cbn [raw_std].
  - change (padded ?l) with (l ++ [pad; pad]). cbn [app decode_groups].
    rewrite !sextet_std by eauto with tiny. cbn [mbind option_bind].
    rewrite bool_decide_eq_true_2 by done. by rewrite octet_1', octet_byte.
  - change (padded ?l) with (l ++ [pad]). cbn [app decode_groups].
    rewrite !sextet_std by eauto with tiny. cbn [mbind option_bind].
    rewrite bool_decide_eq_false_2 by (intros [H _]; revert H; apply std_char_props; eauto with tiny).
    rewrite bool_decide_eq_true_2 by done. by rewrite octet_1, octet_2', !octet_byte.
  - rewrite padded_group. cbn [decode_groups].
    rewrite !sextet_std by eauto with tiny. cbn [mbind option_bind].
    rewrite !bool_decide_eq_false_2 by (intros [H _]; revert H; apply std_char_props; eauto with tiny).
    rewrite IH. cbn [mbind option_bind]. by rewrite octet_1, octet_2, octet_3, !octet_byte.
Qed.

Lemma to_std_pad : to_std pad = pad.
Proof. done. Qed.

Lemma length_raw l : length (raw_url_encode l) = length (raw_std l).
Proof. by rewrite <-to_std_encode, length_fmap. Qed.

Lemma filter_keep {A} (P : A → Prop) `{∀ x, Decision (P x)} (l : list A) :
  Forall P l → filter P l = l.
Proof. induction 1 as [|x l Hx _ IH]; [done|]. by rewrite filter_cons_True, IH. Qed.

Lemma std_decode_encode l : std_decode (std_encode l) = Some l.
Proof.
  unfold std_decode, std_encode. rewrite filter_keep; [apply decode_padded|].
  apply Forall_forall. intros c Hc. unfold padded in Hc.
  assert (c = pad ∨ c ∈ raw_std l) as [->|H] by (repeat case_decide; clear -Hc; set_solver); [done|].
  apply raw_std_chars in H as (n & Hn & ->). split; by apply std_char_props.
Qed.

(** ** Integers: what is printed is parsed *)
Lemma digits_value_snoc l c : digits_value (l ++ [c]) = (digits_value l * 10 + (Z.of_nat (byte c) - 48))%Z.
Proof. unfold digits_value. by rewrite foldl_app. Qed.

Lemma pretty_N_char_digit x :
  (x < 10)%N → is_digit (pretty_N_char x) = true ∧ (Z.of_nat (byte (pretty_N_char x)) - 48)%Z = Z.of_N x.
Proof.
  intros H. destruct x as [|p]; [split; vm_compute; reflexivity|].
  do 4 (try destruct p as [p|p|]); try lia; split; vm_compute; reflexivity.
Qed.

Lemma pretty_N_go_digits x s :
  ∃ ds, chars (pretty_N_go x s) = ds ++ chars s ∧ Forall (λ c, is_digit c = true) ds ∧
        digits_value ds = Z.of_N x ∧ ((0 < x)%N → ds ≠ []).
Proof.
  revert s. induction (N.lt_wf_0 x) as [x _ IH]; intros s.
  destruct (decide (x = 0)%N) as [->|Hx]; [by exists []|].
  rewrite pretty_N_go_step by lia.
  destruct (IH (x `div` 10)%N ltac:(apply N.div_lt; lia) (String (pretty_N_char (x `mod` 10)) s))
    as (ds & -> & Hd & Hv & _).
  destruct (pretty_N_char_digit (x `mod` 10)%N ltac:(by apply N.mod_lt)) as [Hc Hcv].
  exists (ds ++ [pretty_N_char (x `mod` 10)]). split; [by rewrite <-app_assoc|]. split.
  { apply Forall_app. by repeat constructor. }
  split; [|by destruct ds]. rewrite digits_value_snoc, Hcv, Hv.
  pose proof (N.div_mod x 10 ltac:(done)). lia.
Qed.

Lemma pretty_N_digits (x : N) :
  parse_digits (chars (pretty x)) = Some (Z.of_N x) ∧ Forall (λ c, is_digit c = true) (chars (pretty x)).
Proof.
  unfold pretty, pretty_N. case_decide as Hx.
  { subst x. split; [reflexivity|]. by repeat constructor. }
  destruct (pretty_N_go_digits x "") as (ds & -> & Hd & Hv & Hne). rewrite app_nil_r. split; [|done].
  unfold parse_digits. rewrite bool_decide_eq_false_2 by (apply Hne; lia). cbn [negb andb].
  assert (forallb is_digit ds = true) as ->; [|by rewrite Hv].
  apply forallb_forall. rewrite Forall_forall in Hd. intros c Hc. by apply Hd, list_elem_of_In.
Qed.

Lemma pretty_Z_nonneg (n : Z) : (0 <= n)%Z → pretty n = pretty (Z.to_N n).
Proof. by destruct n as [|p|p]. Qed.

Lemma sign_split_digit c l : is_digit c = true → sign_split (c :: l) = (false, c :: l).
Proof. intros H. unfold sign_split. rewrite !bool_decide_eq_false_2; [done|by intros ->..]. Qed.

Lemma sign_split_pretty (n : Z) :
  sign_split (chars (pretty n)) = ((n <? 0)%Z, chars (pretty (Z.to_N (Z.abs n)))).
Proof.
  destruct (Z.ltb_spec n 0).
  - destruct n as [|p|p]; [lia..|]. unfold pretty at 1, pretty_Z. by rewrite chars_app.
  - rewrite pretty_Z_nonneg by done. rewrite Z.abs_eq by done.
    destruct (pretty_N_digits (Z.to_N n)) as [Hp Hd]. destruct (chars (pretty (Z.to_N n))) as [|c l]; [done|].
    apply Forall_cons in Hd as [Hd _]. by apply sign_split_digit.
Qed.

Lemma pretty_with_sign (n : Z) : (if (n <? 0)%Z then "-" else "") +:+ pretty (Z.to_N (Z.abs n)) = pretty n.
Proof.
  destruct (Z.ltb_spec n 0); [by destruct n as [|p|p]; [lia..|]|].
  by rewrite (pretty_Z_nonneg n), Z.abs_eq.
Qed.

Lemma ParseInt_pretty (n : Z) : in_int64 n → ParseInt (pretty n) = (n, true).
Proof.
  intros Hr. unfold in_int64 in Hr. unfold ParseInt. rewrite sign_split_pretty.
  destruct (pretty_N_digits (Z.to_N (Z.abs n))) as [-> _].
  rewrite Z2N.id by lia.
  replace (if (n <? 0)%Z then (- Z.abs n)%Z else Z.abs n) with n by (destruct (Z.ltb_spec n 0); lia).
  by rewrite !(proj2 (Z.ltb_ge _ _)) by lia.
Qed.

(** The digits of a number hold no other character, but for its sign. *)
Lemma pretty_Z_digits (n : Z) c : c ∈ chars (pretty n) → is_digit c = true ∨ c = "-"%char.
Proof.
  intros Hc. destruct n as [|p|p].
  - left. by apply list_elem_of_singleton in Hc as ->.
  - left. destruct (pretty_N_digits (Npos p)) as [_ H]. rewrite Forall_forall in H. by apply H.
  - unfold pretty, pretty_Z in Hc. rewrite chars_app in Hc. apply elem_of_app in Hc as [Hc|Hc].
    + right. by apply list_elem_of_singleton in Hc.
    + left. destruct (pretty_N_digits (Npos p)) as [_ H]. rewrite Forall_forall in H. by apply H.
Qed.

Lemma CutPrefix_app p s : CutPrefix (p +:+ s) p = Some s.
Proof.
  unfold CutPrefix, has_prefix, str_drop. rewrite chars_app.
  rewrite (proj2 (has_prefix_l_spec _ _)) by (by exists (chars s)).
  rewrite <-length_chars, drop_app_length. by rewrite implode_chars.
Qed.

Lemma float64_exact n : (Z.abs n < 2 ^ 53)%Z → float64_of n = n.
Proof. intros H. unfold float64_of. by rewrite (proj2 (Z.ltb_lt _ _) H). Qed.

Lemma mapM_strings l : mapM string_of (JStr <$> l) = Some l.
Proof. by apply mapM_fmap_Some. Qed.

Example format_float_ids :
  format_float 123456 = "123456" ∧ format_float 1234567 = "1.234567e+06" ∧ format_float 2000000000 = "2e+09".
Proof. split_and!; vm_compute; reflexivity. Qed.
