(* ===== verification/CoreProxy.v ===== *)
(** * The proxy of the verified core (pkg/core/proxy.go)

    Requests to a process are framed with their length, and answers are read from its
    output by a goroutine that hands each to the call that waits for it.  The frames
    are read back, and a relation interleaves calls with the reader: what a call
    returns is an answer to it, nothing blocks while no request is answered twice,
    and nothing panics while also the lengths of the frames can be allocated. *)
From stdpp Require Import base gmap strings list pretty.
From Stdlib Require Import Ascii ZArith Lia.
From S2P Require Import Prelude GoStrings Encoding.
#[local] Open Scope nat_scope.

(** ** Frames *)
Definition cr : ascii := ascii_of_nat 13.
Definition length_header : string := "Content-Length:".

(** What [sendRequest] writes for the text of a request. *)
Definition frame (data : list ascii) : list ascii :=
  chars length_header ++ [" "%char] ++ chars (pretty (Z.of_nat (length data))) ++ [cr; newline_char; cr; newline_char] ++ data.

(** How [readResponses] ends: the output ends or breaks off, or [make] panics on the
    length of a frame. *)
Inductive read_end := OutputEnded | BadLength.

(** [make] panics on a negative length, and on one beyond what the runtime can address. *)
Definition max_alloc : Z := 2 ^ 48.
Definition make_panics (n : Z) : bool := (n <? 0)%Z || (max_alloc <? n)%Z.

(** The length that a header gives; [None] for a line that is skipped. *)
Definition content_length (line : list ascii) : option Z :=
  let header := trim_by is_space line in
  if negb (has_prefix_l (chars length_header) header) then None
  else
    match ParseInt (implode (trim_by is_space (drop (length (chars length_header)) header))) with
    | (n, true) => Some n
    | (_, false) => None
    end.

(** One round of the loop. *)
Inductive round :=
| Ends (e : read_end)
| Skips (rest : list ascii)
| Reads (content rest : list ascii).

Definition read_round (l : list ascii) : round :=
  match cut_l newline_char l with
  | None => Ends OutputEnded
  | Some (line, l) =>
      match content_length line with
      | None => Skips l
      | Some n =>
          match cut_l newline_char l with
          | None => Ends OutputEnded
          | Some (_, l) =>
              if make_panics n then Ends BadLength
              else if (Z.of_nat (length l) <? n)%Z then Ends OutputEnded
              else Reads (take (Z.to_nat n) l) (drop (Z.to_nat n) l)
          end
      end
  end.

(** The contents that are read from an output.  Every round reads a line, so the length
    of the output is enough fuel. *)
Fixpoint read_frames (fuel : nat) (l : list ascii) : list (list ascii) * read_end :=
  match fuel with
  | O => ([], OutputEnded)
  | S fuel =>
      match read_round l with
      | Ends e => ([], e)
      | Skips l => read_frames fuel l
      | Reads content l => let '(contents, e) := read_frames fuel l in (content :: contents, e)
      end
  end.
Definition read_output (l : list ascii) : list (list ascii) * read_end := read_frames (S (length l)) l.

(** ** What is framed is read back *)
Lemma read_round_shorter l :
  match read_round l with
  | Ends _ => True
  | Skips rest => length rest < length l
  | Reads _ rest => length rest < length l
  end.
Proof.
  unfold read_round. destruct (cut_l newline_char l) as [[h r]|] eqn:E; [|done].
  apply cut_l_Some in E as [-> _]. rewrite length_app. cbn [length].
  destruct (content_length h) as [n|]; [|lia].
  destruct (cut_l newline_char r) as [[b r']|] eqn:E'; [|done].
  apply cut_l_Some in E' as [-> _]. rewrite length_app. cbn [length].
  destruct (make_panics _); [done|]. destruct (_ <? _)%Z; [done|]. rewrite length_drop. lia.
Qed.

(** Enough fuel. *)
Lemma read_frames_fuel n m l : length l < n → length l < m → read_frames n l = read_frames m l.
Proof.
  revert m l. induction n as [|n IH]; intros [|m] l Hn Hm; try lia. cbn [read_frames].
  pose proof (read_round_shorter l) as Hs. destruct (read_round l) as [e|r|c r]; [done|apply IH; lia|].
  by rewrite (IH m r) by lia.
Qed.

Lemma trim_clean l : is_space (default " "%char (head l)) = false → is_space (default " "%char (last l)) = false →
  trim_by is_space l = l.
Proof.
  intros Hh Hl. destruct l as [|x l]; [discriminate Hh|]. cbn [head default from_option id] in Hh.
  unfold trim_by. rewrite (drop_while_id _ (x :: l)) by exact (proj2 (negb_true_iff _) Hh).
  rewrite drop_while_id; [apply reverse_involutive|]. rewrite <- head_reverse in Hl.
  destruct (reverse (x :: l)) as [|y k]; [discriminate Hl|]. cbn [head default from_option id] in Hl.
  exact (proj2 (negb_true_iff _) Hl).
Qed.

Lemma trim_snoc_space l c : is_space c = true → l ≠ [] → is_space (default " "%char (head l)) = false →
  trim_by is_space (l ++ [c]) = trim_by is_space l.
Proof.
  intros Hc Hne Hh. unfold trim_by.
  destruct l as [|x l]; [done|]. cbn [head default from_option id] in Hh.
  rewrite (drop_while_id is_space ((x :: l) ++ [c])), (drop_while_id is_space (x :: l))
    by exact (proj2 (negb_true_iff _) Hh).
  rewrite reverse_app. cbn [reverse rev_append app drop_while]. change (reverse [c]) with [c].
  cbn [app drop_while]. by rewrite Hc.
Qed.

Lemma digit_not_space c : is_digit c = true → is_space c = false.
Proof.
  intros H. cut (negb (is_digit c) || negb (is_space c) = true).
  { rewrite H. cbn. by intros ->%negb_true_iff. }
  clear H. revert c. by_all_ascii.
Qed.

Lemma digits_of_length (n : nat) :
  ∃ d ds, chars (pretty (Z.of_nat n)) = d :: ds ∧ Forall (λ c, is_digit c = true) (d :: ds).
Proof.
  rewrite pretty_Z_nonneg by lia. destruct (pretty_N_digits (Z.to_N (Z.of_nat n))) as [Hp Hd].
  destruct (chars _) as [|d ds]; [done|]. eauto.
Qed.

Lemma last_digit d ds : Forall (λ c, is_digit c = true) (d :: ds) → ∃ x, last (d :: ds) = Some x ∧ is_digit x = true.
Proof.
  intros H. destruct (last (d :: ds)) as [x|] eqn:E; [|by apply last_None in E].
  exists x. split; [done|]. rewrite list.Forall_forall in H. apply H. by apply last_Some_elem_of.
Qed.

Lemma content_length_header (n : nat) :
  in_int64 (Z.of_nat n) →
  content_length (chars length_header ++ [" "%char] ++ chars (pretty (Z.of_nat n)) ++ [cr]) = Some (Z.of_nat n).
Proof.
  intros Hi. destruct (digits_of_length n) as (d & ds & Ed & Hd). destruct (last_digit d ds Hd) as (x & Hx & Hxd).
  unfold content_length. rewrite Ed.
  assert (trim_by is_space (chars length_header ++ [" "%char] ++ (d :: ds) ++ [cr]) =
    chars length_header ++ [" "%char] ++ d :: ds) as ->.
  { rewrite (assoc_L (++) [" "%char]), (assoc_L (++) (chars length_header)), trim_snoc_space by done.
    apply trim_clean; [done|]. rewrite !last_app, Hx. cbn [default from_option id]. by apply digit_not_space. }
  assert (has_prefix_l (chars length_header) (chars length_header ++ [" "%char] ++ d :: ds) = true) as ->
    by (apply has_prefix_l_spec; by eexists).
  cbn [negb]. rewrite drop_app_length.
  assert (trim_by is_space ([" "%char] ++ d :: ds) = d :: ds) as ->.
  { unfold trim_by at 1. change (drop_while is_space ([" "%char] ++ d :: ds)) with (drop_while is_space (d :: ds)).
    apply trim_clean; [|rewrite Hx]; cbn [head default from_option id]; apply digit_not_space; [|done].
    by apply Forall_cons in Hd as [? _]. }
  rewrite <- Ed, implode_chars, ParseInt_pretty by done. done.
Qed.

Lemma allocable (n : nat) : (Z.of_nat n <= max_alloc)%Z → in_int64 (Z.of_nat n) ∧ make_panics (Z.of_nat n) = false.
Proof.
  unfold make_panics, in_int64, max_alloc. intros H. split.
  - split; [by trans 0%Z; [|apply Nat2Z.is_nonneg]|]. trans (2 ^ 48)%Z; [done|by vm_compute].
  - apply orb_false_iff. split; apply Z.ltb_ge; [lia|done].
Qed.

Lemma read_round_frame data l :
  (Z.of_nat (length data) <= max_alloc)%Z → read_round (frame data ++ l) = Reads data l.
Proof.
  intros [Hi Hm]%allocable. unfold read_round.
  assert (frame data ++ l =
    (chars length_header ++ [" "%char] ++ chars (pretty (Z.of_nat (length data))) ++ [cr])
      ++ newline_char :: ([cr] ++ newline_char :: data ++ l)) as ->.
  { unfold frame. by repeat rewrite <- (assoc_L (++)). }
  rewrite cut_l_app.
  - rewrite content_length_header by done. rewrite cut_l_app by (by refine (bool_decide_unpack _ _)).
    rewrite Hm.
    rewrite (proj2 (Z.ltb_ge (Z.of_nat (length (data ++ l))) _)) by (rewrite length_app; lia).
    by rewrite Nat2Z.id, take_app_length, drop_app_length.
  - rewrite !not_elem_of_app. split_and!; [by refine (bool_decide_unpack _ _)..| |by refine (bool_decide_unpack _ _)].
    intros [H|H]%pretty_Z_digits; discriminate H.
Qed.

(** The contents that the reader takes from the frames that were written are those
    that were written, in order, and then it has reached the end. *)
Lemma frames_round_trip (contents : list (list ascii)) :
  Forall (λ data, (Z.of_nat (length data) <= max_alloc)%Z) contents →
  read_output (contents ≫= frame) = (contents, OutputEnded).
Proof.
  unfold read_output. intros H. generalize (Nat.lt_succ_diag_r (length (contents ≫= frame))).
  generalize (S (length (contents ≫= frame))). induction H as [|data contents Hi _ IH]; intros n Hn.
  - by destruct n.
  - destruct n as [|n]; [lia|]. cbn [mbind list_bind] in *. cbn [read_frames].
    rewrite read_round_frame by done. rewrite length_app in Hn.
    rewrite IH; [done|]. assert (0 < length (frame data)) by (unfold frame; rewrite length_app; cbn; lia). lia.
Qed.

Lemma frames_round_trip_witness :
  read_output ([chars "{}"; chars "[1]"] ≫= frame) = ([chars "{}"; chars "[1]"], OutputEnded).
Proof. apply (frames_round_trip [chars "{}"; chars "[1]"]). repeat constructor; vm_compute; by intros. Defined.

(** ** Calls and the reader *)

(** What a call returns: the result of an answer; nothing, from a channel that an error
    closed; or the error of the write or of the canceled context. *)
Inductive call_result := Answered (result : string) | ClosedChannel | WriteFailed | Canceled.

Inductive phase :=
| Registered
| Waiting
| Returning (r : call_result)
| Returned (r : call_result).

(** A call with its channel of capacity one. *)
Record call_state := mk_call_state {
  cs_phase : phase;
  cs_buffer : option string;
  cs_closed : bool;
}.

(** Calls are numbered from 0: the identifier of a call is one more.  [rp_callbacks] are
    the calls in the map of callbacks.  [rp_blocked]: the reader is sending to a full
    channel, and holds the lock of the map.  [rp_answers]: the answers that were
    dispatched, [None] for an error.  [rp_lengths]: the lengths of the frames that the
    reader began to read. *)
Record proxy := mk_proxy {
  rp_calls : list call_state;
  rp_callbacks : gset nat;
  rp_blocked : option (nat * string);
  rp_answers : list (nat * option string);
  rp_lengths : list Z;
  rp_panicked : bool;
  rp_reader_gone : bool;
}.

Definition NewCoreProxy : proxy := mk_proxy [] ∅ None [] [] false false.

Definition with_call (i : nat) (c : call_state) (s : proxy) : proxy :=
  mk_proxy (<[i := c]> (rp_calls s)) (rp_callbacks s) (rp_blocked s) (rp_answers s) (rp_lengths s) (rp_panicked s) (rp_reader_gone s).
Definition set_phase (p : phase) (c : call_state) : call_state := mk_call_state p (cs_buffer c) (cs_closed c).

(** [call] up to the registration of its channel. *)
Definition begin_call (s : proxy) : proxy :=
  mk_proxy (rp_calls s ++ [mk_call_state Registered None false]) ({[length (rp_calls s)]} ∪ rp_callbacks s)
    (rp_blocked s) (rp_answers s) (rp_lengths s) (rp_panicked s) (rp_reader_gone s).

Definition panic (s : proxy) : proxy :=
  mk_proxy (rp_calls s) (rp_callbacks s) (rp_blocked s) (rp_answers s) (rp_lengths s) true (rp_reader_gone s).
Definition block (b : option (nat * string)) (s : proxy) : proxy :=
  mk_proxy (rp_calls s) (rp_callbacks s) b (rp_answers s) (rp_lengths s) (rp_panicked s) (rp_reader_gone s).
Definition log_answer (a : nat * option string) (s : proxy) : proxy :=
  mk_proxy (rp_calls s) (rp_callbacks s) (rp_blocked s) (rp_answers s ++ [a]) (rp_lengths s) (rp_panicked s) (rp_reader_gone s).

(** The reader makes room for a frame of the length [n], whatever the length in its
    header is. *)
Definition make_buffer (n : Z) (s : proxy) : proxy :=
  let s := mk_proxy (rp_calls s) (rp_callbacks s) (rp_blocked s) (rp_answers s) (rp_lengths s ++ [n]) (rp_panicked s)
             (rp_reader_gone s) in
  if make_panics n then panic s else s.

(** The reader dispatches an answer under the lock: an error closes the channel, a
    result is sent to it. *)
Definition dispatch (i : nat) (answer : option string) (s : proxy) : proxy :=
  let s := log_answer (i, answer) s in
  if negb (bool_decide (i ∈ rp_callbacks s)) then s
  else
    match rp_calls s !! i with
    | None => s
    | Some c =>
        if cs_closed c then panic s
        else
          match answer with
          | None => with_call i (mk_call_state (cs_phase c) (cs_buffer c) true) s
          | Some result =>
              match cs_buffer c with
              | None => with_call i (mk_call_state (cs_phase c) (Some result) (cs_closed c)) s
              | Some _ => block (Some (i, result)) s
              end
          end
    end.

(** The deferred deletion, under the lock. *)
Definition finish_call (i : nat) (c : call_state) (r : call_result) (s : proxy) : proxy :=
  mk_proxy (<[i := set_phase (Returned r) c]> (rp_calls s)) (rp_callbacks s ∖ {[i]}) (rp_blocked s) (rp_answers s)
    (rp_lengths s) (rp_panicked s) (rp_reader_gone s).

Definition reader_ends (s : proxy) : proxy :=
  mk_proxy (rp_calls s) (rp_callbacks s) (rp_blocked s) (rp_answers s) (rp_lengths s) (rp_panicked s) true.

Inductive proxy_step : proxy → proxy → Prop :=
| ps_begin s : rp_panicked s = false → rp_blocked s = None → proxy_step s (begin_call s)
| ps_write i c ok s :
    rp_panicked s = false → rp_calls s !! i = Some c → cs_phase c = Registered →
    proxy_step s (with_call i (set_phase (if ok : bool then Waiting else Returning WriteFailed) c) s)
| ps_frame n s :
    rp_panicked s = false → rp_blocked s = None → rp_reader_gone s = false →
    proxy_step s (make_buffer n s)
| ps_dispatch i answer s :
    rp_panicked s = false → rp_blocked s = None → rp_reader_gone s = false →
    proxy_step s (dispatch i answer s)
| ps_unblock i result c s :
    rp_panicked s = false → rp_blocked s = Some (i, result) → rp_calls s !! i = Some c → cs_buffer c = None →
    proxy_step s (block None (with_call i (mk_call_state (cs_phase c) (Some result) (cs_closed c)) s))
| ps_receive i c result s :
    rp_panicked s = false → rp_calls s !! i = Some c → cs_phase c = Waiting → cs_buffer c = Some result →
    proxy_step s (with_call i (mk_call_state (Returning (Answered result)) None (cs_closed c)) s)
| ps_closed i c s :
    rp_panicked s = false → rp_calls s !! i = Some c → cs_phase c = Waiting → cs_buffer c = None → cs_closed c = true →
    proxy_step s (with_call i (set_phase (Returning ClosedChannel) c) s)
| ps_cancel i c s :
    rp_panicked s = false → rp_calls s !! i = Some c → cs_phase c = Waiting →
    proxy_step s (with_call i (set_phase (Returning Canceled) c) s)
| ps_finish i c r s :
    rp_panicked s = false → rp_blocked s = None → rp_calls s !! i = Some c → cs_phase c = Returning r →
    proxy_step s (finish_call i c r s)
| ps_reader_ends s : rp_panicked s = false → rp_blocked s = None → proxy_step s (reader_ends s).

Definition proxy_reachable (s : proxy) : Prop := rtc proxy_step NewCoreProxy s.

(** ** What the rest of the program calls *)
Inductive core_error :=
| AlreadyRunning
| StartFailed (what : string)
| MarshalFailed (what : string)
| UnmarshalFailed (what : string)
| CallFailed (r : call_result).

(** The flag [running] under its lock.  [spawn] makes the pipes and starts the process. *)
Definition Start_core (spawn : option string) (running : bool) : option core_error * bool :=
  if running then (Some AlreadyRunning, running)
  else
    match spawn with
    | Some what => (Some (StartFailed what), running)
    | None => (None, true)
    end.
Definition Stop_core (wait : option string) (running : bool) : option string * bool :=
  if running then (wait, false) else (None, running).

(** The end of the reader, which leaves the flag alone, or the next round. *)
Definition reader_round (running : bool) (l : list ascii) : option round :=
  if running then Some (read_round l) else None.

Record ProcessMessageParams := mk_ProcessMessageParams {
  pm_channel : string;
  pm_account_id : string;
  pm_sender_id : string;
  pm_chat_id : string;
  pm_content : string;
  pm_request_id : string;
  pm_max_iterations : Z;
}.

Record ProcessMessageResult := mk_ProcessMessageResult {
  pr_content : string;
  pr_agent_id : string;
  pr_session_key : string;
  pr_audit_log : string;
}.

Section ProcessMessage.
Context (Marshal : ProcessMessageParams → string + string).
Context (Unmarshal : string → ProcessMessageResult + string).

(** [r] is how the call of the encoded parameters returned.  A closed channel gives a
    text of no bytes, and no error. *)
Definition ProcessMessage (r : string → call_result) (params : ProcessMessageParams) : ProcessMessageResult + core_error :=
  match Marshal params with
  | inr what => inr (MarshalFailed what)
  | inl paramsJSON =>
      let unmarshal t :=
        match Unmarshal t with
        | inl result => inl result
        | inr what => inr (UnmarshalFailed what)
        end in
      match r paramsJSON with
      | Answered result => unmarshal result
      | ClosedChannel => unmarshal EmptyString
      | WriteFailed => inr (CallFailed WriteFailed)
      | Canceled => inr (CallFailed Canceled)
      end
  end.

(** The error that the core reports does not reach the caller: every one is the failure
    to decode an empty text. *)
Lemma core_error_lost r params t what :
  Marshal params = inl t → r t = ClosedChannel → Unmarshal EmptyString = inr what →
  ProcessMessage r params = inr (UnmarshalFailed what).
Proof. unfold ProcessMessage. by intros -> -> ->. Qed.
End ProcessMessage.

(** ** The invariant *)
Definition result_of (p : phase) : option call_result :=
  match p with Returning r | Returned r => Some r | _ => None end.

(** What is known of a call: a result in its channel or returned is that of an answer
    to it, and only an error closes its channel. *)
Record call_ok (answers : list (nat * option string)) (i : nat) (c : call_state) : Prop := {
  co_buffer : ∀ t, cs_buffer c = Some t → (i, Some t) ∈ answers;
  co_result : ∀ t, result_of (cs_phase c) = Some (Answered t) → (i, Some t) ∈ answers;
  co_closed : cs_closed c = true → (i, None) ∈ answers;
  co_nil : result_of (cs_phase c) = Some ClosedChannel → (i, None) ∈ answers;
}.

(** No request is answered twice. *)
Definition answered_once (s : proxy) : Prop := NoDup (fst <$> rp_answers s).

(** No frame has a length on which [make] panics. *)
Definition lengths_sound (s : proxy) : Prop := Forall (λ n, make_panics n = false) (rp_lengths s).

Record proxy_ok (s : proxy) : Prop := {
  po_calls : ∀ i c, rp_calls s !! i = Some c → call_ok (rp_answers s) i c;
  po_blocked : ∀ i t, rp_blocked s = Some (i, t) → (i, Some t) ∈ rp_answers s ∧ ¬ answered_once s;
  po_panicked : rp_panicked s = true → ¬ (answered_once s ∧ lengths_sound s);
}.

Lemma call_ok_mono answers more i c : call_ok answers i c → call_ok (answers ++ more) i c.
Proof. intros [H1 H2 H3 H4]. split; intros; apply elem_of_app; left; auto. Qed.

(** A change of one call that leaves the answers alone. *)
Lemma with_call_ok i c s : proxy_ok s → call_ok (rp_answers s) i c → proxy_ok (with_call i c s).
Proof.
  intros [Hc Hb Hp] Hi. split; [|done..]. intros j c' [(<- & <- & _)|[_ Hj]]%list_lookup_insert_Some; [done|auto].
Qed.

Lemma log_answer_ok a s : proxy_ok s → rp_blocked s = None → proxy_ok (log_answer a s).
Proof.
  intros [Hc Hb Hp] Hn. split; cbn.
  - intros i c Hi. by apply call_ok_mono, Hc.
  - intros i t H. congruence.
  - intros H [Hd Hl]. apply Hp; [done|]. split; [|done]. unfold answered_once in Hd. cbn in Hd.
    rewrite fmap_app in Hd. by apply NoDup_app in Hd as [? _].
Qed.

(** An answer to a call that has one already is a second one. *)
Lemma second_answer (i : nat) (a x : option string) (answers : list (nat * option string)) : (i, x) ∈ answers → ¬ NoDup (fst <$> (answers ++ [(i, a)])).
Proof.
  rewrite fmap_app. intros Hin (_ & Hd & _)%NoDup_app. apply (Hd i); [|by left].
  apply list_elem_of_fmap. by exists (i, x).
Qed.

Lemma dispatch_ok i answer s :
  proxy_ok s → rp_blocked s = None → proxy_ok (dispatch i answer s).
Proof.
  intros Hok Hn. pose proof (log_answer_ok (i, answer) s Hok Hn) as Hlog. unfold dispatch.
  destruct (negb _); [done|]. cbn [rp_calls log_answer].
  destruct (rp_calls s !! i) as [c|] eqn:Ei; [|done].
  destruct (po_calls _ Hok i c Ei) as [Hb Hr Hcl Hnil].
  assert ((i, answer) ∈ rp_answers (log_answer (i, answer) s)) as Hin by (cbn; apply elem_of_app; right; by left).
  destruct (po_calls _ Hlog i c Ei) as [Hb' Hr' Hcl' Hnil'].
  destruct (cs_closed c) eqn:Ec.
  - destruct Hlog as [L1 L2 L3]. split; [done|done|]. intros _ [Hd _]. revert Hd. eapply second_answer. by apply Hcl.
  - destruct answer as [t|].
    + destruct (cs_buffer c) as [u|] eqn:Eb.
      * destruct Hlog as [L1 L2 L3]. split; [done| |done]. cbn. intros j t' [= <- <-]. split; [done|].
        eapply second_answer. by apply Hb.
      * apply with_call_ok; [done|]. split; cbn; [by intros t' [= <-]|done|done|done].
    + apply with_call_ok; [done|]. by split.
Qed.

Lemma make_buffer_ok n s : proxy_ok s → proxy_ok (make_buffer n s).
Proof.
  intros [Hc Hb Hp]. unfold make_buffer. destruct (make_panics n) eqn:En; (split; [done|done|]); cbn.
  - intros _ [_ Hl]. unfold lengths_sound in Hl. cbn in Hl. apply Forall_app in Hl as [_ [Hl _]%Forall_cons]. congruence.
  - intros H [Hd Hl]. apply Hp; [done|]. split; [done|]. unfold lengths_sound in *. cbn in Hl. by apply Forall_app in Hl as [? _].
Qed.

Lemma proxy_step_ok s s' : proxy_ok s → proxy_step s s' → proxy_ok s'.
Proof.
  intros Hok Hstep. destruct Hstep as [s Hp Hb|i c ok s Hp Hi Hph|n s Hp Hb Hg|i answer s Hp Hb Hg|i t c s Hp Hb Hi Hbuf|
    i c t s Hp Hi Hph Hbuf|i c s Hp Hi Hph Hbuf Hcl|i c s Hp Hi Hph|i c r s Hp Hb Hi Hph|s Hp Hb].
  - destruct Hok as [H1 H2 H3]. split; cbn; [|done..].
    intros i c [Hi|[_ Hi]]%lookup_app_Some; [auto|]. apply list_lookup_singleton_Some in Hi as [_ <-]. by split.
  - apply with_call_ok; [done|]. destruct (po_calls _ Hok i c Hi) as [H1 H2 H3 H4].
    split; cbn; [done| |done|]; by destruct ok.
  - by apply make_buffer_ok.
  - by apply dispatch_ok.
  - destruct (po_blocked _ Hok i t Hb) as [Hin Hd]. destruct (po_calls _ Hok i c Hi) as [H1 H2 H3 H4].
    assert (proxy_ok (with_call i (mk_call_state (cs_phase c) (Some t) (cs_closed c)) s)) as [K1 K2 K3].
    { apply with_call_ok; [done|]. split; cbn; [by intros t' [= <-]|done..]. }
    by split.
  - apply with_call_ok; [done|]. destruct (po_calls _ Hok i c Hi) as [H1 H2 H3 H4].
    split; cbn; [done|intros t' [= <-]; auto|done|done].
  - apply with_call_ok; [done|]. destruct (po_calls _ Hok i c Hi) as [H1 H2 H3 H4]. split; cbn; [done|done|done|auto].
  - apply with_call_ok; [done|]. destruct (po_calls _ Hok i c Hi) as [H1 H2 H3 H4]. by split.
  - destruct (po_calls _ Hok i c Hi) as [H1 H2 H3 H4]. rewrite Hph in H2, H4.
    assert (proxy_ok (with_call i (set_phase (Returned r) c) s)) as [K1 K2 K3] by (apply with_call_ok; [done|by split]).
    by split.
  - destruct Hok as [H1 H2 H3]. by split.
Qed.

Lemma proxy_reachable_ok s : proxy_reachable s → proxy_ok s.
Proof.
  intros H. unfold proxy_reachable in H.
  assert (proxy_ok NewCoreProxy) as H0 by (split; cbn; [intros i c Hi; by rewrite lookup_nil in Hi|done|done]).
  induction H as [|s s1 s2 Hs _ IH]; [done|]. apply IH. by eapply proxy_step_ok.
Qed.

(** C22: Whatever the interleaving of calls, cancellations and the reader: a call returns
    a result only if the core answered its own request with it, and nothing only if the
    core answered it with an error; while the core answers no request twice, the
    reader never blocks with the lock of the callbacks; and while it moreover frames
    its answers with a length for which there can be room, neither negative nor beyond
    what can be addressed, nothing panics. *)
Theorem core_answers_its_call (s : proxy) :
  proxy_reachable s →
  (∀ i c t, rp_calls s !! i = Some c → cs_phase c = Returned (Answered t) → (i, Some t) ∈ rp_answers s) ∧
  (∀ i c, rp_calls s !! i = Some c → cs_phase c = Returned ClosedChannel → (i, None) ∈ rp_answers s) ∧
  (answered_once s → rp_blocked s = None ∧ (lengths_sound s → rp_panicked s = false)).
Proof.
  intros [Hc Hb Hp]%proxy_reachable_ok. split_and!.
  - intros i c t Hi Hr. apply (co_result _ _ _ (Hc i c Hi)). by rewrite Hr.
  - intros i c Hi Hr. apply (co_nil _ _ _ (Hc i c Hi)). by rewrite Hr.
  - intros Hd. split.
    + destruct (rp_blocked s) as [[i t]|]; [|done]. by destruct (Hb i t eq_refl).
    + intros Hl. apply not_true_iff_false. intros H. by apply (Hp H).
Qed.

(** One call, written and waiting. *)
Definition one_waiting : proxy := with_call 0 (mk_call_state Waiting None false) (begin_call NewCoreProxy).

Lemma one_waiting_reachable : proxy_reachable one_waiting.
Proof.
  eapply rtc_l; [by apply ps_begin|]. eapply rtc_l; [by apply (ps_write 0 (mk_call_state Registered None false) true)|].
  apply rtc_refl.
Qed.

Definition one_framed : proxy := make_buffer 2 one_waiting.

Lemma answered_reachable t : proxy_reachable (dispatch 0 (Some t) one_framed).
Proof. eapply rtc_r; [eapply rtc_r; [apply one_waiting_reachable|by apply ps_frame]|]. by apply ps_dispatch. Qed.

(** The call receives its answer and returns it. *)
Definition one_returned : proxy :=
  finish_call 0 (mk_call_state (Returning (Answered "{}")) None false)
    (Answered "{}") (with_call 0 (mk_call_state (Returning (Answered "{}")) None false) (dispatch 0 (Some "{}") one_framed)).

Lemma one_returned_reachable : proxy_reachable one_returned.
Proof.
  eapply rtc_r; [|by apply ps_finish].
  eapply rtc_r; [apply answered_reachable|]. by apply (ps_receive 0 (mk_call_state Waiting (Some "{}") false)).
Qed.

Lemma core_answers_its_call_witness :
  proxy_reachable one_returned ∧ answered_once one_returned ∧ lengths_sound one_returned ∧
  rp_panicked one_returned = false ∧ rp_blocked one_returned = None.
Proof.
  assert (answered_once one_returned) as H by (apply NoDup_singleton).
  assert (lengths_sound one_returned) as Hl by (by repeat constructor).
  destruct (core_answers_its_call one_returned one_returned_reachable) as (_ & _ & H3).
  destruct (H3 H) as [Hb Hp]. split_and!; [apply one_returned_reachable|done|done|exact (Hp Hl)|exact Hb].
Defined.

(** ** Where the interplay fails *)

(** A call that is canceled before it takes its answer, and a second answer: the reader
    waits for the call with the lock, the call waits for the lock, and so does every
    call that begins. *)
Definition deadlocked : proxy :=
  dispatch 0 (Some "again")
    (with_call 0 (mk_call_state (Returning Canceled) (Some "{}") false) (dispatch 0 (Some "{}") one_framed)).

Lemma second_answer_deadlock :
  proxy_reachable deadlocked ∧ rp_panicked deadlocked = false ∧ ∀ s, ¬ proxy_step deadlocked s.
Proof.
  split_and!; [|done|].
  - eapply rtc_r; [|by apply ps_dispatch].
    eapply rtc_r; [apply answered_reachable|]. by apply (ps_cancel 0 (mk_call_state Waiting (Some "{}") false)).
  - remember deadlocked as d eqn:E. intros s H. destruct H as [s Hp Hb|i c ok s Hp Hi Hph|n s Hp Hb|i a s Hp Hb|i t c s Hp Hb Hi Hbuf|
      i c t s Hp Hi Hph|i c s Hp Hi Hph|i c s Hp Hi Hph|i c r s Hp Hb|s Hp Hb]; subst s; try discriminate Hb.
    2: { injection Hb as <- <-. by injection Hi as <-. }
    all: by destruct i; [injection Hi as <-|].
Qed.

(** An error and then another answer: a send on a closed channel. *)
Lemma answer_after_error_panics :
  rp_panicked (dispatch 0 (Some "{}") (dispatch 0 None one_waiting)) = true.
Proof. by vm_compute. Qed.

(** When the output of the core ends, a call that waits can only be canceled. *)
Lemma core_exit_leaves_calls s :
  proxy_step (reader_ends one_waiting) s → rp_calls s !! 0 = Some (mk_call_state Waiting None false) ∨
    rp_calls s !! 0 = Some (mk_call_state (Returning Canceled) None false).
Proof.
  remember (reader_ends one_waiting) as d eqn:E.
  intros H. destruct H as [s Hp Hb|i c ok s Hp Hi Hph|n s Hp Hb Hg|i a s Hp Hb Hg|i t c s Hp Hb Hi Hbuf|
    i c t s Hp Hi Hph Hbuf|i c s Hp Hi Hph Hbuf Hcl|i c s Hp Hi Hph|i c r s Hp Hb Hi Hph|s Hp Hb]; subst s; auto.
  all: try discriminate Hb; try discriminate Hg; destruct i; try discriminate Hi; injection Hi as <-; auto; done.
Qed.

(** The flag is still set then, and the core cannot be started again before it is
    stopped. *)
Lemma dead_core_not_restarted spawn : Start_core spawn true = (Some AlreadyRunning, true).
Proof. done. Qed.

(** One frame with a negative length in its header makes the reader, and with it the
    program, panic. *)
Example negative_length : read_output (chars "Content-Length: -1" ++ [newline_char; newline_char]) = ([], BadLength).
Proof. by vm_compute. Qed.

Lemma frame_length_panics : ∃ s, proxy_reachable s ∧ answered_once s ∧ rp_panicked s = true.
Proof.
  exists (make_buffer (-1) one_waiting). split_and!; [|by apply NoDup_nil_2|done].
  eapply rtc_r; [apply one_waiting_reachable|by apply ps_frame].
Qed.
