(* ===== verification/Aperture.v ===== *)
(** * The access proxy (pkg/aperture/client.go, cerbos.go)

    Requests of models rewritten for the proxy, events of usage that the proxy reports
    and the meters they are added to, and the check of tools, which is a stub. *)
From stdpp Require Import base gmap strings list fin_maps.
From Stdlib Require Import Ascii ZArith Lia.
From S2P Require Import Prelude GoStrings.
#[local] Open Scope Z_scope.

(** The sum of integers of 64 bits wraps once or at every step. *)
Lemma wrap64_add (a b : Z) : wrap64 (wrap64 a + b) = wrap64 (a + b).
Proof.
  unfold wrap64. f_equal.
  replace ((a + 2 ^ 63) mod 2 ^ 64 - 2 ^ 63 + b + 2 ^ 63) with ((a + 2 ^ 63) mod 2 ^ 64 + b) by lia.
  rewrite Zplus_mod_idemp_l. f_equal. lia.
Qed.

(** ** Usage and meters *)
Section Meters.
(** Numbers with a fraction, and their sum; instants. *)
Context {F T : Type} (fzero : F) (fadd : F → F → F).

Record UsageEvent := mk_UsageEvent {
  ue_RequestID : string;
  ue_Model : string;
  ue_InputTokens : Z;
  ue_OutputTokens : Z;
  ue_TotalTokens : Z;
  ue_Duration : F;
  ue_Timestamp : T;
  ue_Status : Z;
}.

Record SessionMeter := mk_SessionMeter {
  sm_SessionKey : string;
  sm_Calls : Z;
  sm_InputTokens : Z;
  sm_OutputTokens : Z;
  sm_ToolCalls : Z;
  sm_Duration : F;
  sm_LastActivity : option T;
}.
Record AgentMeter := mk_AgentMeter {
  am_AgentID : string;
  am_TotalCalls : Z;
  am_TotalTokens : Z;
  am_TotalLatency : F;
  am_Errors : Z;
  am_Sessions : gmap string SessionMeter;
}.
Abbreviation MeterStore := (gmap string AgentMeter) (only parsing).

Definition NewMeterStore : MeterStore := ∅.

Definition new_session (sessionKey : string) : SessionMeter := mk_SessionMeter sessionKey 0 0 0 0 fzero None.
Definition new_agent (agentID : string) : AgentMeter := mk_AgentMeter agentID 0 0 fzero 0 ∅.

Definition add_session (e : UsageEvent) (s : SessionMeter) : SessionMeter :=
  mk_SessionMeter (sm_SessionKey s) (wrap64 (sm_Calls s + 1)) (wrap64 (sm_InputTokens s + ue_InputTokens e))
    (wrap64 (sm_OutputTokens s + ue_OutputTokens e)) (sm_ToolCalls s) (fadd (sm_Duration s) (ue_Duration e))
    (Some (ue_Timestamp e)).

Definition is_error (e : UsageEvent) : bool := 400 <=? ue_Status e.

Definition add_agent (sessionKey : string) (e : UsageEvent) (m : AgentMeter) : AgentMeter :=
  let sess := default (new_session sessionKey) (am_Sessions m !! sessionKey) in
  mk_AgentMeter (am_AgentID m) (wrap64 (am_TotalCalls m + 1)) (wrap64 (am_TotalTokens m + ue_TotalTokens e))
    (fadd (am_TotalLatency m) (ue_Duration e))
    (if is_error e then wrap64 (am_Errors m + 1) else am_Errors m)
    (<[sessionKey := add_session e sess]> (am_Sessions m)).

(** [Record]. *)
Definition record_usage (s : MeterStore) (r : string * string * UsageEvent) : MeterStore :=
  let '(agentID, sessionKey, e) := r in
  <[agentID := add_agent sessionKey e (default (new_agent agentID) (s !! agentID))]> s.

Definition GetAgentMeter (s : MeterStore) (agentID : string) : option AgentMeter := s !! agentID.

(** [GetAllMeters] copies the references of the meters, which are those of their agents:
    a meter is never replaced.  Reading a reference reads the meter as it is then. *)
Definition GetAllMeters (s : MeterStore) : gset string := dom s.
Definition read_meter (s : MeterStore) (ref : string) : option AgentMeter := s !! ref.

(** ** What the meters say *)
Abbreviation usage := (string * string * UsageEvent)%type.

Definition of_agent (a : string) (l : list usage) : list usage := filter (λ r, r.1.1 = a) l.
Definition of_session (k : string) (l : list usage) : list usage := filter (λ r, r.1.2 = k) l.
Definition total (f : UsageEvent → Z) (l : list usage) : Z := wrap64 (foldr (λ r n, f r.2 + n) 0 l).
Definition durations (l : list usage) : F := foldl (λ d r, fadd d (ue_Duration r.2)) fzero l.

(** What the meter of a session is for the events of the session. *)
Definition session_meter (k : string) (l : list usage) : SessionMeter :=
  mk_SessionMeter k (total (λ _, 1) l) (total ue_InputTokens l) (total ue_OutputTokens l) 0 (durations l)
    ((λ r : usage, ue_Timestamp r.2) <$> last l).

Definition agent_meter (a : string) (l : list usage) (m : AgentMeter) : Prop :=
  am_AgentID m = a ∧ am_TotalCalls m = total (λ _, 1) l ∧ am_TotalTokens m = total ue_TotalTokens l ∧
  am_TotalLatency m = durations l ∧ am_Errors m = total (λ e, if is_error e then 1 else 0) l ∧
  ∀ k, am_Sessions m !! k =
    if bool_decide (of_session k l = []) then None else Some (session_meter k (of_session k l)).

Lemma total_snoc f l r : total f (l ++ [r]) = wrap64 (total f l + f r.2).
Proof.
  unfold total. rewrite foldr_snoc, wrap64_add. f_equal.
  assert (∀ n, foldr (λ r n, f r.2 + n) n l = foldr (λ r n, f r.2 + n) 0 l + n) as H
    by (induction l as [|x l IH]; intros n; cbn; [lia|rewrite (IH n); lia]).
  rewrite H. lia.
Qed.

Lemma durations_snoc l r : durations (l ++ [r]) = fadd (durations l) (ue_Duration r.2).
Proof. unfold durations. by rewrite foldl_snoc. Qed.

Lemma of_session_snoc k l r :
  of_session k (l ++ [r]) = of_session k l ++ if bool_decide (r.1.2 = k) then [r] else [].
Proof.
  unfold of_session. rewrite filter_app, filter_cons. cbn [filter list_filter].
  destruct (decide (r.1.2 = k)) as [H|H]; [by rewrite bool_decide_eq_true_2|by rewrite bool_decide_eq_false_2].
Qed.

Lemma session_meter_snoc k l e a :
  session_meter k (l ++ [(a, k, e)]) =
    add_session e (if bool_decide (l = []) then new_session k else session_meter k l).
Proof.
  unfold session_meter, add_session. rewrite !total_snoc, durations_snoc, last_snoc.
  case_bool_decide as H; [by subst l|done].
Qed.

(** Adding an event to the meter of an agent. *)
Lemma add_agent_meter a k e l m :
  agent_meter a l m → agent_meter a (l ++ [(a, k, e)]) (add_agent k e m).
Proof.
  intros (H1 & H2 & H3 & H4 & H5 & H6). unfold agent_meter, add_agent. cbn [am_AgentID am_TotalCalls am_TotalTokens am_TotalLatency am_Errors am_Sessions].
  rewrite !total_snoc, durations_snoc, H2, H3, H4, H5. cbn [snd]. split_and!; try done.
  - destruct (is_error e); [done|]. rewrite Z.add_0_r. symmetry. apply wrap64_id. unfold total. apply wrap64_range.
  - intros k'. rewrite of_session_snoc. cbn [fst snd]. destruct (decide (k = k')) as [<-|Hne].
    + rewrite lookup_insert_eq, (bool_decide_eq_true_2 (k = k)) by done.
      rewrite (bool_decide_eq_false_2 (_ ++ _ = [])) by (intros [? ?]%app_nil; done).
      rewrite session_meter_snoc, H6. by destruct (bool_decide _).
    + rewrite lookup_insert_ne, (bool_decide_eq_false_2 (k = k')) by done. by rewrite app_nil_r.
Qed.

Lemma new_agent_meter a : agent_meter a [] (new_agent a).
Proof. unfold agent_meter. split_and!; done. Qed.

(** The meters after any events. *)
Lemma usage_accounted_all (l : list usage) (a : string) :
  match foldl record_usage NewMeterStore l !! a with
  | None => of_agent a l = []
  | Some m => of_agent a l ≠ [] ∧ agent_meter a (of_agent a l) m
  end.
Proof.
  induction l as [|[[a' k] e] l IH] using rev_ind; [done|].
  rewrite foldl_snoc. unfold of_agent in *. rewrite filter_app, filter_cons. cbn [filter list_filter fst record_usage].
  destruct (decide (a' = a)) as [->|Hne].
  - rewrite lookup_insert_eq. split; [by intros [_ ?]%app_nil|]. apply add_agent_meter.
    destruct (foldl _ _ _ !! a) as [m|]; [apply IH|]. rewrite IH. apply new_agent_meter.
  - rewrite lookup_insert_ne by done. by rewrite app_nil_r.
Qed.

(** C31: After any events the meter of an agent holds what a count over its events gives:
    the number of its calls and of its errors, the sums of its tokens and durations, and
    for each session the same of the events of the session; an agent without events has
    no meter.  Numbers wrap at 64 bits. *)
Theorem usage_accounted (l : list usage) (a : string) :
  match foldl record_usage NewMeterStore l !! a with
  | None => of_agent a l = []
  | Some m => of_agent a l ≠ [] ∧ agent_meter a (of_agent a l) m
  end.
Proof. apply usage_accounted_all. Qed.

(** ** Where meters depart from what they say *)

(** What is called a snapshot follows the events that come later. *)
Lemma snapshot_changes s a k e m :
  a ∈ GetAllMeters s → read_meter s a = Some m →
  read_meter (record_usage s (a, k, e)) a = Some (add_agent k e m).
Proof. unfold read_meter. intros _ H. cbn. by rewrite lookup_insert_eq, H. Qed.

(** Calls of tools are never counted. *)
Lemma tool_calls_never_counted l a m k s :
  foldl record_usage NewMeterStore l !! a = Some m → am_Sessions m !! k = Some s → sm_ToolCalls s = 0.
Proof.
  intros Hm Hs. pose proof (usage_accounted_all l a) as H. rewrite Hm in H. destruct H as (_ & _ & _ & _ & _ & _ & H).
  rewrite H in Hs. destruct (bool_decide _); [done|]. by injection Hs as <-.
Qed.
End Meters.

(** ** Rewriting requests *)
Record url := mk_url { u_Scheme : string; u_Host : string; u_Path : string }.

Record aperture_config := mk_aperture_config {
  ac_Enabled : bool;
  ac_ProxyURL : string;
  ac_WebhookURL : string;
  ac_WebhookKey : string;
}.
Record aperture_client := mk_aperture_client {
  cl_config : aperture_config;
  cl_proxyURL : option url;
}.

Section Client.
(** [net/url]: parsing and writing. *)
Context (parse_url : string → result string url) (url_String : url → string).

Definition NewClient (cfg : aperture_config) : result string aperture_client :=
  if bool_decide (ac_ProxyURL cfg = "") then Ok (mk_aperture_client cfg None)
  else
    match parse_url (ac_ProxyURL cfg) with
    | Err e => Err ("invalid aperture proxy URL: " +:+ e)
    | Ok u => Ok (mk_aperture_client cfg (Some u))
    end.

Definition ProxyURL (c : aperture_client) : string := if ac_Enabled (cl_config c) then ac_ProxyURL (cl_config c) else "".
Definition IsEnabled (c : aperture_client) : bool := ac_Enabled (cl_config c).

(** A request: its address, the host it names and its headers. *)
Record request := mk_request { rq_URL : url; rq_Host : string; rq_Header : gmap string string }.

(** What [RoundTrip] hands to the transport below. *)
Definition RoundTrip (proxyURL : url) (req : request) : request :=
  mk_request (mk_url (u_Scheme proxyURL) (u_Host proxyURL) (u_Path (rq_URL req))) (u_Host proxyURL)
    (<["X-Aperture-Target" := url_String (rq_URL req)]> (rq_Header req)).
Definition ProxyTransport (c : aperture_client) (req : request) : request :=
  match cl_proxyURL c with
  | Some u => if ac_Enabled (cl_config c) then RoundTrip u req else req
  | None => req
  end.

(** A request goes to the proxy exactly when it is enabled and has an address; then the
    proxy is told where the request was for, and every other header is kept. *)
Lemma transport_target cfg c req :
  NewClient cfg = Ok c →
  if ac_Enabled cfg && negb (bool_decide (ac_ProxyURL cfg = "")) then
    ∃ u, parse_url (ac_ProxyURL cfg) = Ok u ∧ u_Host (rq_URL (ProxyTransport c req)) = u_Host u ∧
      rq_Host (ProxyTransport c req) = u_Host u ∧
      rq_Header (ProxyTransport c req) !! "X-Aperture-Target" = Some (url_String (rq_URL req)) ∧
      ∀ k, k ≠ "X-Aperture-Target" → rq_Header (ProxyTransport c req) !! k = rq_Header req !! k
  else ProxyTransport c req = req.
Proof.
  unfold NewClient. case_bool_decide as Hp.
  - intros [= <-]. by rewrite andb_false_r.
  - destruct (parse_url (ac_ProxyURL cfg)) as [u|] eqn:Eu; [|done]. intros [= <-]. rewrite andb_true_r.
    unfold ProxyTransport. cbn. destruct (ac_Enabled cfg); [|done]. exists u. split_and!; try done.
    + apply lookup_insert_eq.
    + intros k Hk. cbn. by rewrite lookup_insert_ne.
Qed.

(** The path of the address of the proxy is dropped. *)
Lemma proxy_path_dropped u req : u_Path (rq_URL (RoundTrip u req)) = u_Path (rq_URL req).
Proof. done. Qed.

(** ** The webhook *)
Section Webhook.
Context {E : Type}.

(** A call of the webhook: its method, its key, [""] when the header is absent, and what
    its body decodes to. *)
Record webhook_call := mk_webhook_call { wh_Method : string; wh_Key : string; wh_Body : result string E }.

(** The status of the answer, and the event that is handled. *)
Definition WebhookHandler (c : aperture_client) (handler : bool) (r : webhook_call) : Z * option E :=
  if negb (bool_decide (wh_Method r = "POST")) then (405, None)
  else if negb (bool_decide (ac_WebhookKey (cl_config c) = "")) && negb (bool_decide (wh_Key r = ac_WebhookKey (cl_config c)))
  then (401, None)
  else
    match wh_Body r with
    | Err _ => (400, None)
    | Ok e => (200, if handler : bool then Some e else None)
    end.

(** An event is handled only when it is posted with the key, if there is one; a call that
    is answered without an error posts an event. *)
Lemma webhook_guarded c handler r status e :
  WebhookHandler c handler r = (status, e) →
  (is_Some e → wh_Method r = "POST" ∧ status = 200 ∧
     (ac_WebhookKey (cl_config c) ≠ "" → wh_Key r = ac_WebhookKey (cl_config c))) ∧
  (status = 200 → ∃ x, wh_Body r = Ok x ∧ (handler = true → e = Some x)).
Proof.
  unfold WebhookHandler. case_bool_decide as Hm; cbn [negb]; [|intros [= <- <-]; split; [by intros [? ?]|done]].
  case_bool_decide as Hk; case_bool_decide as Hk'; cbn [negb andb];
    try (intros [= <- <-]; split; [by intros [? ?]|done]);
    (destruct (wh_Body r) as [x|e']; [|intros [= <- <-]; split; [by intros [? ?]|done]]);
    intros [= <- <-]; (split; [intros _; split_and!; try done|intros _; exists x; split; [done|by destruct handler]]).
Qed.

(** Without a key everyone may report usage. *)
Lemma webhook_open c r e :
  ac_WebhookKey (cl_config c) = "" → wh_Method r = "POST" → wh_Body r = Ok e → WebhookHandler c true r = (200, Some e).
Proof. intros Hk Hm Hb. unfold WebhookHandler. by rewrite Hk, Hm, Hb. Qed.
End Webhook.
End Client.

(** ** Whether a tool may be used *)
Record CerbosDecision := mk_CerbosDecision {
  cd_Allowed : bool;
  cd_Reason : string;
  cd_PolicyID : string;
  cd_Timestamp : Z;
}.
Record ToolAccessRequest := mk_ToolAccessRequest {
  ta_AgentID : string;
  ta_SessionKey : string;
  ta_Channel : string;
  ta_ToolName : string;
  ta_Action : string;
}.
Record CerbosClient := mk_CerbosClient { cb_Enabled : bool; cb_cache : gmap string CerbosDecision }.
Definition NewCerbosClient (enabled : bool) : CerbosClient := mk_CerbosClient enabled ∅.

Definition cacheKey (r : ToolAccessRequest) : string := ta_AgentID r +:+ ":" +:+ ta_ToolName r +:+ ":" +:+ ta_Action r.

Definition CheckToolAccess (now : Z) (r : ToolAccessRequest) (c : CerbosClient) : CerbosDecision * CerbosClient :=
  if negb (cb_Enabled c) then (mk_CerbosDecision true "cerbos_disabled" "" now, c)
  else
    match cb_cache c !! cacheKey r with
    | Some d => (d, c)
    | None =>
        let d := mk_CerbosDecision true "cerbos_stub_allow" "default" now in
        (d, mk_CerbosClient (cb_Enabled c) (<[cacheKey r := d]> (cb_cache c)))
    end.

(** [InvalidateCache]: the keys that begin with the agent and a colon. *)
Definition InvalidateCache (agentID : string) (c : CerbosClient) : CerbosClient :=
  mk_CerbosClient (cb_Enabled c) (filter (λ kd, has_prefix kd.1 (agentID +:+ ":") = false) (cb_cache c)).

(** After its cache is invalidated, nothing is known of an agent; what is known of agents
    whose identifiers do not begin with its own and a colon is kept. *)
Lemma invalidated agentID c r :
  (ta_AgentID r = agentID → cb_cache (InvalidateCache agentID c) !! cacheKey r = None) ∧
  (has_prefix (cacheKey r) (agentID +:+ ":") = false →
   cb_cache (InvalidateCache agentID c) !! cacheKey r = cb_cache c !! cacheKey r).
Proof.
  split; cbn.
  - intros <-. apply map_lookup_filter_None. right. intros d _ H. cbn in H.
    assert (has_prefix (cacheKey r) (ta_AgentID r +:+ ":") = true) as H'; [|congruence].
    unfold cacheKey, has_prefix. rewrite !chars_app. apply has_prefix_l_spec.
    exists (chars (ta_ToolName r) ++ chars ":" ++ chars (ta_Action r)). by rewrite <- (assoc_L (++)).
  - intros H. destruct (cb_cache c !! cacheKey r) as [d|] eqn:E.
    + by apply map_lookup_filter_Some.
    + apply map_lookup_filter_None. by left.
Qed.

(** Every request is allowed, whatever was asked before: no policy is asked. *)
Lemma cerbos_allows_everything enabled (l : list (Z * ToolAccessRequest)) now r :
  let c := foldl (λ c x, (CheckToolAccess x.1 x.2 c).2) (NewCerbosClient enabled) l in
  cd_Allowed (CheckToolAccess now r c).1 = true.
Proof.
  assert (∀ c : CerbosClient, map_Forall (λ _ d, cd_Allowed d = true) (cb_cache c) → ∀ now r,
    cd_Allowed (CheckToolAccess now r c).1 = true ∧
    map_Forall (λ _ d, cd_Allowed d = true) (cb_cache (CheckToolAccess now r c).2)) as Hstep.
  { intros c Hc n q. unfold CheckToolAccess. destruct (negb _); [done|].
    destruct (_ !! _) as [d|] eqn:E; [split; [by apply (Hc _ _ E)|done]|]. split; [done|]. by apply map_Forall_insert_2. }
  intros c. apply Hstep. subst c. assert (map_Forall (λ _ d, cd_Allowed d = true) (cb_cache (NewCerbosClient enabled))) as H0
    by apply map_Forall_empty.
  revert H0. generalize (NewCerbosClient enabled). induction l as [|[n q] l IH]; intros c0 H0; [done|].
  by apply IH, Hstep.
Qed.

(** Agents and tools with colons share their decisions. *)
Example keys_shared :
  cacheKey (mk_ToolAccessRequest "a:b" "" "" "c" "x") = cacheKey (mk_ToolAccessRequest "a" "" "" "b:c" "x").
Proof. done. Qed.
