(* ===== verification/Paths.v ===== *)
(** * File paths (Go package path/filepath on Unix)

    [Clean], [Join], [IsAbs], [IsLocal], [Rel], [Dir] and [Ext] as the program
    uses them, by components.  [norm] lists the components that remain after
    the lexical processing of [Clean]; the lemmas relate the functions to it. *)
From stdpp Require Import base gmap strings list.
From Stdlib Require Import Ascii ZArith Lia.
From S2P Require Import Prelude GoStrings.

Abbreviation comp := (list ascii).
Definition slash : ascii := "/".
Definition dot_comp : comp := ["."%char].
Definition dotdot : comp := ["."%char; "."%char].

(** ** Splitting and joining *)
Fixpoint split_l (c : ascii) (l : list ascii) : list comp :=
  match l with
  | [] => [[]]
  | x :: l' =>
      if bool_decide (x = c) then [] :: split_l c l'
      else match split_l c l' with
           | [] => [[x]]
           | p :: ps => (x :: p) :: ps
           end
  end.

Fixpoint join_l (c : ascii) (ps : list comp) : list ascii :=
  match ps with
  | [] => []
  | [p] => p
  | p :: ps' => p ++ c :: join_l c ps'
  end.

(** ** Clean *)
Definition IsAbs_l (l : list ascii) : bool := bool_decide (head l = Some slash).

(** [acc] is the output so far, innermost component first. *)
Fixpoint clean_go (rooted : bool) (acc ps : list comp) : list comp :=
  match ps with
  | [] => reverse acc
  | p :: ps' =>
      if bool_decide (p = []) || bool_decide (p = dot_comp) then clean_go rooted acc ps'
      else if bool_decide (p = dotdot) then
        match acc with
        | [] => if rooted then clean_go rooted [] ps' else clean_go rooted [dotdot] ps'
        | t :: acc' => if bool_decide (t = dotdot) then clean_go rooted (dotdot :: acc) ps'
                       else clean_go rooted acc' ps'
        end
      else clean_go rooted (p :: acc) ps'
  end.

(** The components of the cleaned path. *)
Definition norm (l : list ascii) : list comp := clean_go (IsAbs_l l) [] (split_l slash l).

Definition render (rooted : bool) (ps : list comp) : list ascii :=
  if rooted then slash :: join_l slash ps
  else if bool_decide (ps = []) then dot_comp else join_l slash ps.

Definition Clean_l (l : list ascii) : list ascii := render (IsAbs_l l) (norm l).

Definition IsAbs (p : string) : bool := IsAbs_l (chars p).
Definition Clean (p : string) : string := implode (Clean_l (chars p)).

(** [filepath.Join(a, b)]. *)
Definition Join (a b : string) : string :=
  if bool_decide (a = "") then (if bool_decide (b = "") then "" else Clean b)
  else Clean (a +:+ "/" +:+ b).

(** ** IsLocal *)
Definition has_dots (ps : list comp) : bool :=
  existsb (λ p, bool_decide (p = dot_comp) || bool_decide (p = dotdot)) ps.

Definition IsLocal_l (l : list ascii) : bool :=
  if IsAbs_l l || bool_decide (l = []) then false
  else
    let l := if has_dots (split_l slash l) then Clean_l l else l in
    negb (bool_decide (l = dotdot) || has_prefix_l (dotdot ++ [slash]) l).

Definition IsLocal (p : string) : bool := IsLocal_l (chars p).

(** ** Rel *)
Fixpoint strip_common (b t : list comp) : list comp * list comp :=
  match b, t with
  | x :: b', y :: t' => if bool_decide (x = y) then strip_common b' t' else (b, t)
  | _, _ => (b, t)
  end.

(** [filepath.Rel] ([None]: the error).  A cleaned target "." counts as a component. *)
Definition Rel_l (base targ : list ascii) : option (list ascii) :=
  let cb := Clean_l base in
  let ct := Clean_l targ in
  if bool_decide (ct = cb) then Some dot_comp
  else if negb (Bool.eqb (IsAbs_l base) (IsAbs_l targ)) then None
  else
    let tcomps := if bool_decide (ct = dot_comp) then [dot_comp] else norm targ in
    let '(b, t) := strip_common (norm base) tcomps in
    if bool_decide (head b = Some dotdot) then None
    else Some (join_l slash (replicate (length b) dotdot ++ t)).

Definition Rel (base targ : string) : option string := implode <$> Rel_l (chars base) (chars targ).

(** ** Ext and Dir *)
(** The suffix from the last dot of the last component; empty without a dot. *)
Fixpoint ext_go (rev_l acc : list ascii) : list ascii :=
  match rev_l with
  | [] => []
  | x :: l' => if bool_decide (x = slash) then []
               else if bool_decide (x = "."%char) then x :: acc
               else ext_go l' (x :: acc)
  end.
Definition Ext (p : string) : string := implode (ext_go (reverse (chars p)) []).

Definition Dir_l (l : list ascii) : list ascii :=
  Clean_l (reverse (drop_while (λ c, negb (bool_decide (c = slash))) (reverse l))).
Definition Dir (p : string) : string := implode (Dir_l (chars p)).

(** ** Lemmas: splitting *)
Lemma split_l_ne c l : split_l c l ≠ [].
Proof. destruct l as [|x l]; simpl; [done|]. case_bool_decide; [done|]. by destruct (split_l c l). Qed.

Lemma split_l_free c p : c ∉ p → split_l c p = [p].
Proof.
  induction p as [|x p IH]; intros H; simpl; [done|].
  rewrite bool_decide_eq_false_2 by set_solver. rewrite IH by set_solver. done.
Qed.

Lemma split_l_app c p l : c ∉ p → split_l c (p ++ c :: l) = p :: split_l c l.
Proof.
  induction p as [|x p IH]; intros H; simpl.
  - by rewrite bool_decide_eq_true_2.
  - rewrite bool_decide_eq_false_2 by set_solver. by rewrite IH by set_solver.
Qed.

Lemma split_l_app' c l l' : split_l c (l ++ c :: l') = split_l c l ++ split_l c l'.
Proof.
  induction l as [|x l IH]; simpl; [by rewrite bool_decide_eq_true_2|].
  case_bool_decide; [by rewrite IH|]. rewrite IH.
  pose proof (split_l_ne c l). by destruct (split_l c l).
Qed.

Lemma split_join c ps : ps ≠ [] → Forall (λ p, c ∉ p) ps → split_l c (join_l c ps) = ps.
Proof.
  intros Hne H. induction H as [|p ps Hp Hps IH]; [done|].
  destruct ps as [|q ps]; [by apply split_l_free|].
  change (join_l c (p :: q :: ps)) with (p ++ c :: join_l c (q :: ps)).
  rewrite split_l_app by done. by rewrite IH.
Qed.

Lemma split_l_free_all c l : Forall (λ p, c ∉ p) (split_l c l).
Proof.
  induction l as [|x l IH]; simpl; [by repeat constructor; apply not_elem_of_nil|].
  case_bool_decide; [constructor; [apply not_elem_of_nil|done]|].
  destruct (split_l c l) as [|p ps]; inversion IH; subst; constructor; try done; set_solver.
Qed.

(** ** Lemmas: cleaned components *)

(** An ordinary component: not empty, "." or "..", and without a slash. *)
Definition ordinary (p : comp) : Prop :=
  p ≠ [] ∧ p ≠ dot_comp ∧ p ≠ dotdot ∧ slash ∉ p.

(** Cleaned components: some ".." (none in a rooted path), then ordinary ones. *)
Definition cleaned (rooted : bool) (ps : list comp) : Prop :=
  ∃ n qs, ps = replicate n dotdot ++ qs ∧ Forall ordinary qs ∧ (rooted = true → n = 0).

Lemma clean_go_cleaned rooted acc ps :
  Forall (λ p, slash ∉ p) ps → cleaned rooted (reverse acc) → cleaned rooted (clean_go rooted acc ps).
Proof.
  intros Hps. revert acc. induction Hps as [|p ps Hp _ IH]; intros acc Hacc; simpl; [done|].
  case_bool_decide; [by apply IH|]. case_bool_decide; simpl; [by apply IH|].
  case_bool_decide; [subst p; destruct acc as [|t acc]|].
  - destruct rooted; apply IH; [done|]. exists 1, []. by split_and!.
  - destruct Hacc as (n & qs & Heq & Hqs & Hr). rewrite reverse_cons in Heq.
    case_bool_decide as E; apply IH.
    + subst t. destruct qs as [|q qs _] using rev_ind.
      * exists (S n), []. rewrite app_nil_r in *.
        change (dotdot :: dotdot :: acc) with ([dotdot] ++ dotdot :: acc).
        rewrite reverse_app, reverse_cons, Heq. split_and!; [|done|].
        { by rewrite replicate_S_end. }
        intros Hrt. specialize (Hr Hrt). subst n. simpl in Heq. by destruct (reverse acc).
      * exfalso. rewrite app_assoc in Heq. apply app_inj_tail in Heq as [_ <-].
        apply Forall_app in Hqs as [_ Hq]. inversion Hq as [|? ? (?&?&?&?)]. done.
    + destruct qs as [|q qs _] using rev_ind.
      * rewrite app_nil_r in Heq. exfalso.
        destruct n as [|n]; [by destruct (reverse acc)|].
        rewrite replicate_S_end in Heq. apply app_inj_tail in Heq as [_ ->]. done.
      * rewrite app_assoc in Heq. apply app_inj_tail in Heq as [Heq ->].
        apply Forall_app in Hqs as [Hqs _]. by exists n, qs.
  - apply IH. destruct Hacc as (n & qs & Heq & Hqs & Hr). rewrite reverse_cons.
    exists n, (qs ++ [p]). rewrite Heq, app_assoc. split_and!; [done| |done].
    apply Forall_app. split; [done|]. by repeat constructor.
Qed.

Lemma norm_cleaned l : cleaned (IsAbs_l l) (norm l).
Proof. apply clean_go_cleaned; [apply split_l_free_all|]. exists 0, []. by split_and!. Qed.

Lemma dotdot_free : slash ∉ dotdot.
Proof. refine (bool_decide_unpack (¬ _) _). by vm_compute. Qed.

Lemma cleaned_free rooted ps : cleaned rooted ps → Forall (λ p, p ≠ [] ∧ slash ∉ p) ps.
Proof.
  intros (n & qs & -> & Hqs & _). apply Forall_app. split.
  - apply Forall_replicate. split; [done|apply dotdot_free].
  - eapply Forall_impl; [done|]. by intros p (?&?&?&?).
Qed.

(** Ordinary components are only appended. *)
Lemma clean_go_ordinary rooted acc qs :
  Forall ordinary qs → clean_go rooted acc qs = reverse acc ++ qs.
Proof.
  intros H. revert acc. induction H as [|q qs (?&?&?&?) _ IH]; intros acc; simpl;
    [by rewrite app_nil_r|].
  rewrite !bool_decide_eq_false_2 by done. simpl. rewrite IH, reverse_cons.
  by rewrite <-app_assoc.
Qed.

Lemma replicate_cons_middle {A} n (x : A) l : replicate n x ++ x :: l = x :: replicate n x ++ l.
Proof. induction n as [|n IH]; simpl; [done|]. by rewrite IH. Qed.

Lemma clean_go_dotdots n acc qs :
  Forall (λ p, p = dotdot) acc →
  clean_go false acc (replicate n dotdot ++ qs) = clean_go false (replicate n dotdot ++ acc) qs.
Proof.
  revert acc. induction n as [|n IH]; intros acc Hacc; [done|].
  rewrite replicate_S. simpl. destruct acc as [|t acc].
  - rewrite IH by (by repeat constructor). by rewrite replicate_cons_middle.
  - inversion Hacc; subst. rewrite bool_decide_eq_true_2 by done.
    rewrite IH by (by repeat constructor). by rewrite replicate_cons_middle.
Qed.

(** Cleaning cleaned components changes nothing. *)
Lemma clean_go_id rooted ps : cleaned rooted ps → clean_go rooted [] ps = ps.
Proof.
  intros (n & qs & -> & Hqs & Hr). destruct rooted.
  - rewrite (Hr eq_refl). simpl. by rewrite clean_go_ordinary.
  - rewrite clean_go_dotdots by constructor. rewrite clean_go_ordinary by done.
    rewrite app_nil_r, reverse_replicate. done.
Qed.

Lemma clean_go_app rooted acc ps ps' :
  clean_go rooted acc (ps ++ ps') = clean_go rooted (reverse (clean_go rooted acc ps)) ps'.
Proof.
  revert acc. induction ps as [|p ps IH]; intros acc; simpl; [by rewrite reverse_involutive|].
  repeat case_match; auto.
Qed.

(** ** Lemmas: Clean *)
Lemma split_render rooted ps :
  cleaned rooted ps →
  split_l slash (render rooted ps)
  = (if rooted then [[]] else []) ++ (if bool_decide (ps = []) then (if rooted then [[]] else [dot_comp]) else ps).
Proof.
  intros Hc. pose proof (cleaned_free _ _ Hc) as Hf.
  assert (Forall (λ p, slash ∉ p) ps) as Hs by (eapply Forall_impl; [done|]; by intros ? []).
  unfold render. destruct rooted; cbn [app].
  - change (split_l slash (slash :: join_l slash ps)) with ([] :: split_l slash (join_l slash ps)).
    f_equal. case_bool_decide; [by subst|].
    by apply split_join.
  - case_bool_decide; [reflexivity|]. by apply split_join.
Qed.

Lemma IsAbs_render rooted ps : cleaned rooted ps → IsAbs_l (render rooted ps) = rooted.
Proof.
  intros Hc. pose proof (cleaned_free _ _ Hc) as Hf. unfold IsAbs_l, render.
  destruct rooted; [done|]. case_bool_decide as E; [|done]. exfalso. revert E.
  case_bool_decide; [done|]. destruct Hf as [|p ps [Hne Hp] _]; [done|].
  destruct p as [|x p]; [done|]. assert (head (join_l slash ((x :: p) :: ps)) = Some x) as ->.
  { by destruct ps. }
  intros [= ->]. apply Hp. set_solver.
Qed.

Lemma norm_render rooted ps : cleaned rooted ps → norm (render rooted ps) = ps.
Proof.
  intros Hc. unfold norm. rewrite IsAbs_render, split_render by done.
  destruct rooted; simpl; case_bool_decide; subst; try done; by apply clean_go_id.
Qed.

Lemma norm_Clean l : norm (Clean_l l) = norm l.
Proof. apply norm_render, norm_cleaned. Qed.
Lemma IsAbs_Clean l : IsAbs_l (Clean_l l) = IsAbs_l l.
Proof. apply IsAbs_render, norm_cleaned. Qed.
Lemma Clean_idemp l : Clean_l (Clean_l l) = Clean_l l.
Proof. unfold Clean_l at 1. by rewrite norm_Clean, IsAbs_Clean. Qed.

Lemma Clean_eq_iff l l' :
  IsAbs_l l = IsAbs_l l' → Clean_l l = Clean_l l' ↔ norm l = norm l'.
Proof.
  intros Ha. split; [intros H; by rewrite <-(norm_Clean l), H, norm_Clean|].
  intros H. unfold Clean_l. by rewrite Ha, H.
Qed.

(** ** Lemmas: IsLocal *)
Lemma head_split_dotdot l :
  bool_decide (l = dotdot) || has_prefix_l (dotdot ++ [slash]) l
  = bool_decide (head (split_l slash l) = Some dotdot).
Proof.
  apply eq_true_iff_eq. rewrite orb_true_iff, !bool_decide_eq_true, has_prefix_l_spec. split.
  - intros [->|[k ->]]; [reflexivity|]. rewrite <-app_assoc. simpl app at 2.
    by rewrite split_l_app by apply dotdot_free.
  - intros H. destruct (cut_l slash l) as [[a b]|] eqn:E.
    + apply cut_l_Some in E as [-> Ha]. rewrite split_l_app in H by done. simplify_eq/=.
      right. by exists b.
    + apply cut_l_None in E. rewrite split_l_free in H by done. simplify_eq/=. by left.
Qed.

Lemma clean_go_no_dotdot rooted acc ps :
  dotdot ∉ ps → dotdot ∉ acc → dotdot ∉ clean_go rooted acc ps.
Proof.
  revert acc. induction ps as [|p ps IH]; intros acc Hps Hacc; simpl; [by rewrite elem_of_reverse|].
  apply not_elem_of_cons in Hps as [Hp Hps].
  case_bool_decide; [by apply IH|]. case_bool_decide; simpl; [by apply IH|].
  rewrite bool_decide_eq_false_2 by congruence. apply IH; [done|]. set_solver.
Qed.

Lemma head_elem {A} (l : list A) x : head l = Some x → x ∈ l.
Proof. destruct l; [done|]. intros [= ->]. apply list_elem_of_here. Qed.

Lemma IsLocal_spec l :
  IsLocal_l l = true ↔ IsAbs_l l = false ∧ l ≠ [] ∧ head (norm l) ≠ Some dotdot.
Proof.
  unfold IsLocal_l. destruct (IsAbs_l l) eqn:Ha; simpl; [split; [done|by intros []]|].
  case_bool_decide as Hl; [split; [done|by intros (_&?&_)]|].
  rewrite head_split_dotdot, negb_true_iff, bool_decide_eq_false.
  destruct (has_dots (split_l slash l)) eqn:Hd.
  - unfold Clean_l. rewrite Ha, split_render by (rewrite <-Ha; apply norm_cleaned).
    simpl. case_bool_decide as E; [|by split; [intros ?; split_and!|intros (_ & _ & ?)]].
    rewrite E. simpl. split; [intros _; by split_and!|done].
  - assert (dotdot ∉ split_l slash l) as Hn.
    { intros Hin. unfold has_dots in Hd. rewrite <-not_true_iff_false in Hd. apply Hd.
      apply existsb_exists. exists dotdot. rewrite <-list_elem_of_In. by split. }
    split; [|intros _ Hh; apply Hn; by apply head_elem].
    intros _. split_and!; [done|done|]. intros Hh.
    apply (clean_go_no_dotdot (IsAbs_l l) [] _ Hn); [apply not_elem_of_nil|].
    by apply head_elem.
Qed.

Lemma local_ordinary l : IsLocal_l l = true → Forall ordinary (norm l).
Proof.
  intros (Ha & _ & Hh)%IsLocal_spec. destruct (norm_cleaned l) as (n & qs & E & Hqs & _).
  rewrite E in Hh |- *. by destruct n.
Qed.

(** ** Lemmas: staying inside a directory *)
Lemma clean_go_bottom acc ps :
  last acc = Some dotdot → head (clean_go false acc ps) = Some dotdot.
Proof.
  revert acc. induction ps as [|p ps IH]; intros acc Hl; simpl; [by rewrite head_reverse|].
  assert (∀ x, last (x :: acc) = Some dotdot) as Hcons by (intros; by rewrite last_cons, Hl).
  case_bool_decide; [by apply IH|]. case_bool_decide; simpl; [by apply IH|].
  case_bool_decide; [|by apply IH].
  destruct acc as [|t acc]; [done|]. case_bool_decide; [by apply IH|].
  apply IH. rewrite last_cons in Hl. destruct (last acc); [done|]. by simplify_eq/=.
Qed.

Lemma clean_go_above rooted acc A ps :
  Forall ordinary acc → head (clean_go false acc ps) ≠ Some dotdot →
  Forall (λ p, slash ∉ p) ps →
  clean_go rooted (acc ++ A) ps = reverse A ++ clean_go false acc ps.
Proof.
  intros Hacc Hh Hs. revert acc Hacc Hh. induction Hs as [|p ps Hp _ IH]; intros acc Hacc Hh; simpl in *.
  { by rewrite reverse_app. }
  case_bool_decide; [by apply IH|]. case_bool_decide; simpl in *; [by apply IH|].
  case_bool_decide; simpl in *; [|apply (IH (p :: acc)); [by repeat constructor|done]].
  destruct Hacc as [|t acc (?&?&?&?) Hacc]; simpl in *.
  - exfalso. apply Hh. by apply clean_go_bottom.
  - rewrite bool_decide_eq_false_2 in Hh |- * by done. by apply IH.
Qed.

Lemma norm_join_rel a b :
  IsAbs_l b = false → head (norm b) ≠ Some dotdot →
  norm (a ++ slash :: b) =
  clean_go (IsAbs_l (a ++ slash :: b)) [] (split_l slash a) ++ norm b.
Proof.
  intros Ha Hh. unfold norm at 1. rewrite split_l_app', clean_go_app.
  set (A := clean_go _ [] (split_l slash a)).
  unfold norm in *. rewrite Ha in *.
  rewrite <-(app_nil_l (reverse A)), clean_go_above; [|done|done|apply split_l_free_all].
  by rewrite reverse_involutive.
Qed.

Lemma norm_join a b :
  IsLocal_l b = true → norm (a ++ slash :: b) =
  clean_go (IsAbs_l (a ++ slash :: b)) [] (split_l slash a) ++ norm b.
Proof. intros (Ha & _ & Hh)%IsLocal_spec. by apply norm_join_rel. Qed.

Lemma strip_common_spec b t b' t' :
  strip_common b t = (b', t') →
  ∃ k, b = k ++ b' ∧ t = k ++ t' ∧ ∀ x y, head b' = Some x → head t' = Some y → x ≠ y.
Proof.
  revert t. induction b as [|x b IH]; intros t H; simpl in H.
  { simplify_eq. by exists []. }
  destruct t as [|y t]; [simplify_eq; by exists []|].
  case_bool_decide; simplify_eq.
  - destruct (IH _ H) as (k & -> & -> & ?). by exists (y :: k).
  - exists []. split_and!; [done|done|]. intros ? ? [= <-] [= <-]. done.
Qed.

Lemma rooted_ordinary l : IsAbs_l l = true → Forall ordinary (norm l).
Proof.
  intros Ha. destruct (norm_cleaned l) as (n & qs & -> & Hqs & Hn). by rewrite Hn.
Qed.

Lemma join_l_ne c p ps : p ≠ [] → join_l c (p :: ps) ≠ [].
Proof. intros H. destruct ps; simpl; [done|]. by destruct p. Qed.

(** [filepath.Rel] followed by [filepath.IsLocal] decides containment. *)
Lemma Rel_local base targ :
  IsAbs_l base = true → IsAbs_l targ = true →
  (match Rel_l base targ with Some r => IsLocal_l r | None => false end) = true
  ↔ norm base `prefix_of` norm targ.
Proof.
  intros Hb Ht. unfold Rel_l.
  destruct (bool_decide_reflect (Clean_l targ = Clean_l base)) as [E|E].
  { apply Clean_eq_iff in E; [|congruence]. rewrite E. by split. }
  rewrite Hb, Ht. simpl.
  rewrite (bool_decide_eq_false_2 (Clean_l targ = dot_comp)).
  2:{ intros Hd. pose proof (IsAbs_Clean targ) as H. rewrite Hd, Ht in H. done. }
  destruct (strip_common _ _) as [b t] eqn:Es.
  apply strip_common_spec in Es as (k & Hnb & Hnt & Hdiff).
  pose proof (rooted_ordinary _ Hb) as Hob. pose proof (rooted_ordinary _ Ht) as Hot.
  rewrite Hnb in Hob |- *. rewrite Hnt in Hot |- *.
  apply Forall_app in Hob as [_ Hob], Hot as [_ Hot].
  rewrite bool_decide_eq_false_2.
  2:{ destruct Hob as [|? ? (?&?&?&?)]; [done|]. intros [= ?]. congruence. }
  assert (cleaned false (replicate (length b) dotdot ++ t)) as Hc by (by exists (length b), t).
  set (ps := replicate (length b) dotdot ++ t) in *.
  assert (ps ≠ []) as Hps.
  { intros Hn. apply E. apply Clean_eq_iff; [congruence|]. rewrite Hnb, Hnt.
    subst ps. apply app_nil in Hn as [Hn1 ->]. by destruct b. }
  assert (render false ps = join_l slash ps) as Hr.
  { unfold render. by rewrite bool_decide_eq_false_2. }
  rewrite IsLocal_spec, <-Hr, norm_render, IsAbs_render by done.
  assert (render false ps ≠ []) as Hne.
  { rewrite Hr. pose proof (cleaned_free _ _ Hc) as Hf. destruct ps; [done|].
    inversion_clear Hf as [|? ? [? _] _]. by apply join_l_ne. }
  split.
  - intros (_ & _ & Hh). subst ps. destruct b as [|x b]; [|done].
    rewrite app_nil_r. by exists t.
  - intros [m Hm]. rewrite <-app_assoc in Hm. apply app_inv_head in Hm.
    split_and!; [done|done|]. subst ps. destruct b as [|x b].
    + simpl. destruct Hot as [|? ? (?&?&?&?)]; [done|]. intros [= ?]. congruence.
    + rewrite Hm in Hdiff. by destruct (Hdiff x x).
Qed.

(** [filepath.Rel] between absolute paths is defined, and it does not start
    with ".." exactly when the target is the base, or below it through a name
    that does not start with "..". *)
Lemma has_prefix_dotdot_join p ps :
  has_prefix_l dotdot (join_l slash (p :: ps)) = has_prefix_l dotdot p.
Proof.
  destruct ps as [|q ps]; [done|]. change (join_l slash (p :: q :: ps)) with (p ++ slash :: join_l slash (q :: ps)).
  destruct p as [|a [|b p]]; try done; simpl; repeat case_bool_decide; done.
Qed.

Lemma Rel_inside base targ :
  IsAbs_l base = true → IsAbs_l targ = true →
  ∃ r, Rel_l base targ = Some r
    ∧ (has_prefix_l dotdot r = false ↔
         ∃ rest, norm targ = norm base ++ rest
           ∧ match head rest with Some p => has_prefix_l dotdot p = false | None => True end).
Proof.
  intros Hb Ht. unfold Rel_l.
  destruct (bool_decide_reflect (Clean_l targ = Clean_l base)) as [E|E].
  { apply Clean_eq_iff in E; [|congruence]. rewrite E. eexists. split; [done|].
    split; [|done]. intros _. exists []. by rewrite app_nil_r. }
  rewrite Hb, Ht. cbn [negb Bool.eqb].
  rewrite (bool_decide_eq_false_2 (Clean_l targ = dot_comp)).
  2:{ intros Hd. pose proof (IsAbs_Clean targ) as H. rewrite Hd, Ht in H. done. }
  destruct (strip_common _ _) as [b t] eqn:Es.
  apply strip_common_spec in Es as (k & Hnb & Hnt & Hdiff).
  pose proof (rooted_ordinary _ Hb) as Hob. rewrite Hnb in Hob. apply Forall_app in Hob as [_ Hob].
  rewrite bool_decide_eq_false_2.
  2:{ destruct Hob as [|? ? (?&?&?&?)]; [done|]. intros [= ?]. congruence. }
  eexists. split; [done|].
  assert (b = [] → t = [] → False) as Hne.
  { intros -> ->. apply E, Clean_eq_iff; [congruence|]. by rewrite Hnb, Hnt. }
  rewrite Hnb, Hnt. destruct b as [|x b].
  - destruct t as [|y t]; [by destruct Hne|]. cbn [length replicate app].
    rewrite has_prefix_dotdot_join. split.
    + intros Hy. exists (y :: t). split; [by rewrite app_nil_r|done].
    + rewrite app_nil_r. intros (rest & Heq%app_inv_head & Hr). by rewrite <-Heq in Hr.
  - cbn [length replicate app]. rewrite has_prefix_dotdot_join. split; [done|].
    intros (rest & Hr & _). rewrite <-app_assoc in Hr. apply app_inv_head in Hr. subst t.
    exfalso. by apply (Hdiff x x).
Qed.
