(* ===== verification/Regex.v ===== *)
(** * Regular expressions (Go package regexp)

    The regular expressions the program compiles are written in this small
    syntax.  [run] is the backtracking matcher: it lists the ends of all
    matches at a position in the order of preference of leftmost-first
    matching.  [matches] is the meaning of an expression, and [run_spec] shows
    that the two agree; it is what lets the classification and guard theorems
    speak about the text instead of about the matcher. *)
From stdpp Require Import base gmap strings list.
From Stdlib Require Import Ascii ZArith Lia.
From S2P Require Import Prelude GoStrings.

(** ** Syntax *)
Inductive re :=
| Eps
| Cls (p : ascii → bool)      (* one character of a class *)
| Cat (r1 r2 : re)
| Alt (r1 r2 : re)
| Star (r : re)               (* greedy *)
| Lazy (r : re)               (* non-greedy *)
| Bol                         (* ^ *)
| Eol                         (* $ *)
| Wb.                         (* \b *)

(** A position in the text: the character before it and the rest. *)
Abbreviation pos := (option ascii * list ascii)%type.

Definition is_word (c : ascii) : bool :=
  is_digit c || is_lower c || is_upper c || bool_decide (c = "_"%char).

Definition word_boundary (c : pos) : bool :=
  xorb (match c.1 with Some x => is_word x | None => false end)
       (match c.2 with x :: _ => is_word x | [] => false end).

(** ** Meaning *)
Inductive matches : re → pos → pos → Prop :=
| m_eps c : matches Eps c c
| m_cls p prev x l : p x = true → matches (Cls p) (prev, x :: l) (Some x, l)
| m_cat r1 r2 c1 c2 c3 : matches r1 c1 c2 → matches r2 c2 c3 → matches (Cat r1 r2) c1 c3
| m_alt_l r1 r2 c c' : matches r1 c c' → matches (Alt r1 r2) c c'
| m_alt_r r1 r2 c c' : matches r2 c c' → matches (Alt r1 r2) c c'
| m_star_nil r c : matches (Star r) c c
| m_star_cons r c1 c2 c3 :
    matches r c1 c2 → matches (Star r) c2 c3 → matches (Star r) c1 c3
| m_lazy r c c' : matches (Star r) c c' → matches (Lazy r) c c'
| m_bol l : matches Bol (None, l) (None, l)
| m_eol prev : matches Eol (prev, []) (prev, [])
| m_wb c : word_boundary c = true → matches Wb c c.

#[export] Hint Constructors matches : tiny.

(** ** The matcher *)
Fixpoint star_go (f : pos → list pos) (n : nat) (c : pos) : list pos :=
  match n with
  | O => [c]
  | S n' =>
      (f c ≫= λ c', if length c'.2 <? length c.2 then star_go f n' c' else []) ++ [c]
  end.

Fixpoint lazy_go (f : pos → list pos) (n : nat) (c : pos) : list pos :=
  match n with
  | O => [c]
  | S n' =>
      [c] ++ (f c ≫= λ c', if length c'.2 <? length c.2 then lazy_go f n' c' else [])
  end.

Fixpoint run (r : re) (c : pos) : list pos :=
  match r with
  | Eps => [c]
  | Cls p => match c.2 with
             | x :: l => if p x then [(Some x, l)] else []
             | [] => []
             end
  | Cat r1 r2 => run r1 c ≫= run r2
  | Alt r1 r2 => run r1 c ++ run r2 c
  | Star r => star_go (run r) (length c.2) c
  | Lazy r => lazy_go (run r) (length c.2) c
  | Bol => match c.1 with None => [c] | Some _ => [] end
  | Eol => match c.2 with [] => [c] | _ :: _ => [] end
  | Wb => if word_boundary c then [c] else []
  end.

(** All positions of a text, from the left. *)
Fixpoint positions (prev : option ascii) (l : list ascii) : list pos :=
  (prev, l) :: match l with [] => [] | x :: l' => positions (Some x) l' end.

(** The leftmost position with a match, and the preferred end there. *)
Fixpoint find_match (r : re) (ps : list pos) : option (pos * pos) :=
  match ps with
  | [] => None
  | c :: ps' => match run r c with
                | c' :: _ => Some (c, c')
                | [] => find_match r ps'
                end
  end.

(** [re.MatchString(s)]. *)
Definition MatchString (r : re) (s : string) : bool :=
  bool_decide (is_Some (find_match r (positions None (chars s)))).

(** [re.FindAllString(s, -1)]: the successive leftmost matches, none of them
    overlapping; an empty match right after a match is not delivered, and after
    an empty match the search goes on one character (UTF-8) later. *)
Definition between (c c' : pos) : list ascii := take (length c.2 - length c'.2) c.2.
Definition next_rune (c : pos) : pos :=
  let w := default 1 (rune_width c.2) in (last (take w c.2), drop w c.2).

Fixpoint find_all (fuel : nat) (r : re) (prev_end : option nat) (c : pos) : list (list ascii) :=
  match fuel with
  | O => []
  | S fuel' =>
      match find_match r (positions c.1 c.2) with
      | None => []
      | Some (s, e) =>
          let is_empty := length e.2 =? length c.2 in
          let accept := negb (is_empty && bool_decide (prev_end = Some (length s.2))) in
          let rest :=
            if is_empty then
              match c.2 with
              | [] => []
              | _ :: _ => find_all fuel' r (Some (length e.2)) (next_rune c)
              end
            else find_all fuel' r (Some (length e.2)) e in
          if accept then between s e :: rest else rest
      end
  end.
Definition FindAllString (r : re) (s : string) : list string :=
  implode <$> find_all (S (length (chars s))) r None (None, chars s).

(** ** The matcher computes the meaning *)
Lemma matches_suffix r c c' :
  matches r c c' → length c'.2 ≤ length c.2 ∧ (length c'.2 = length c.2 → c' = c).
Proof.
  induction 1 as [| | r1 r2 c1 c2 c3 _ [IH1 IH1'] _ [IH2 IH2'] | | | |
                  r c1 c2 c3 _ [IH1 IH1'] _ [IH2 IH2'] | | | |];
    simpl in *; try (split; [lia|intros; done || lia]); auto.
  - split; [lia|]. intros. rewrite IH2' by lia. apply IH1'. lia.
  - split; [lia|]. intros. rewrite IH2' by lia. apply IH1'. lia.
Qed.

Lemma star_go_sound (r : re) (f : pos → list pos) n c c' :
  (∀ d d', d' ∈ f d → matches r d d') → c' ∈ star_go f n c → matches (Star r) c c'.
Proof.
  intros Hf. revert c. induction n as [|n IH]; intros c; simpl.
  - intros ->%list_elem_of_singleton. constructor.
  - rewrite elem_of_app, list_elem_of_bind, list_elem_of_singleton.
    intros [(d & Hd & Hin)| ->]; [|constructor].
    case_match; [|by apply not_elem_of_nil in Hd].
    eapply m_star_cons; eauto.
Qed.

Lemma star_go_complete (r : re) (f : pos → list pos) n c c' :
  (∀ d d', matches r d d' → d' ∈ f d) →
  length c.2 ≤ n → matches (Star r) c c' → c' ∈ star_go f n c.
Proof.
  intros Hf. revert c. induction n as [|n IH]; intros c Hn Hm.
  - destruct (matches_suffix _ _ _ Hm) as [? Heq]. rewrite Heq by lia. simpl. set_solver.
  - remember (Star r) as sr eqn:Hsr. revert Hn.
    induction Hm as [| | | | | | r0 c1 c2 c3 H1 _ H2 IH2 | | | |]; intros Hn; simplify_eq; simpl.
    { set_solver. }
    destruct (matches_suffix _ _ _ H1) as [Hle Heq].
    destruct (decide (length c2.2 = length c1.2)) as [E|E].
    { specialize (Heq E). subst c2. by apply IH2. }
    rewrite elem_of_app, list_elem_of_bind. left. exists c2. split; [|by apply Hf].
    rewrite (proj2 (Nat.ltb_lt _ _)) by lia. apply IH; [lia|done].
Qed.

(** Trying the shortest first gives the same ends in another order. *)
Lemma lazy_go_star f n c c' : c' ∈ lazy_go f n c ↔ c' ∈ star_go f n c.
Proof.
  revert c. induction n as [|n IH]; intros c; [done|].
  assert (∀ d, c' ∈ (if length d.2 <? length c.2 then lazy_go f n d else []) ↔
               c' ∈ (if length d.2 <? length c.2 then star_go f n d else [])) as E
    by (intros d; case_match; [apply IH|done]).
  cbn [lazy_go star_go]. rewrite !elem_of_app, !list_elem_of_bind. setoid_rewrite E. tauto.
Qed.

(** The positions [run] returns are exactly the ends of the matches. *)
Lemma run_spec (r : re) (c c' : pos) : c' ∈ run r c ↔ matches r c c'.
Proof.
  revert c c'. induction r as [|p|r1 IH1 r2 IH2|r1 IH1 r2 IH2|r IH|r IH| | |]; intros c c'; simpl.
  - rewrite list_elem_of_singleton. split; [intros ->; constructor|by inversion 1].
  - destruct c as [prev [|x l]]; simpl; [split; [by intros ?%not_elem_of_nil|by inversion 1]|].
    destruct (p x) eqn:E; split.
    + intros ->%list_elem_of_singleton. by constructor.
    + inversion 1; subst. apply list_elem_of_here.
    + by intros ?%not_elem_of_nil.
    + inversion 1; subst. congruence.
  - rewrite list_elem_of_bind. split.
    + intros (d & ?%IH2 & ?%IH1). by econstructor.
    + inversion 1; subst. eexists. rewrite IH1, IH2. eauto.
  - rewrite elem_of_app, IH1, IH2. split; [intros []; eauto with tiny|inversion 1; eauto].
  - split.
    + apply star_go_sound. intros. by apply IH.
    + apply star_go_complete; [|done]. intros. by apply IH.
  - rewrite lazy_go_star. split.
    + intros H. apply m_lazy. eapply star_go_sound; [|exact H]. intros. by apply IH.
    + inversion 1; subst. eapply star_go_complete; [|done|done]. intros. by apply IH.
  - destruct c as [[x|] l]; simpl; split.
    + by intros ?%not_elem_of_nil.
    + inversion 1.
    + intros ->%list_elem_of_singleton. constructor.
    + inversion 1; subst. apply list_elem_of_here.
  - destruct c as [prev [|x l]]; simpl; split.
    + intros ->%list_elem_of_singleton. constructor.
    + inversion 1; subst. apply list_elem_of_here.
    + by intros ?%not_elem_of_nil.
    + inversion 1.
  - destruct (word_boundary c) eqn:E; split.
    + intros ->%list_elem_of_singleton. by constructor.
    + inversion 1; subst. apply list_elem_of_here.
    + by intros ?%not_elem_of_nil.
    + inversion 1; subst. congruence.
Qed.

Lemma elem_of_positions prev l c :
  c ∈ positions prev l ↔ ∃ pre post, l = pre ++ post
    ∧ c = (match last pre with Some x => Some x | None => prev end, post).
Proof.
  revert prev. induction l as [|x l IH]; intros prev; cbn [positions];
    rewrite elem_of_cons; [rewrite elem_of_nil|rewrite IH]; split.
  - intros [->|[]]. by exists [], [].
  - intros (pre & post & [-> ->]%eq_sym%app_nil & ->). by left.
  - intros [->|(pre & post & -> & ->)]; [by exists [], (x :: l)|].
    exists (x :: pre), post. split; [done|]. rewrite last_cons. by destruct (last pre).
  - intros ([|y pre] & post & Hl & ->); simplify_eq/=; [by left|]. right.
    exists pre, post. split; [done|].
    change (match last (y :: pre) with Some x => Some x | None => prev end)
      with (match last ([y] ++ pre) with Some x => Some x | None => prev end).
    rewrite last_app. by destruct (last pre).
Qed.

Lemma find_match_Some r ps c c' :
  find_match r ps = Some (c, c') →
  ∃ ps1 ps2, ps = ps1 ++ c :: ps2 ∧ matches r c c' ∧ ∀ d d', d ∈ ps1 → ¬ matches r d d'.
Proof.
  induction ps as [|d ps IH]; simpl; [done|].
  destruct (run r d) as [|d' l] eqn:E; intros H.
  - destruct (IH H) as (ps1 & ps2 & -> & ? & Hn). exists (d :: ps1), ps2.
    split_and!; [done|done|]. intros e e' [->|He]%elem_of_cons; [|by apply Hn].
    rewrite <-run_spec, E. apply not_elem_of_nil.
  - simplify_eq. exists [], ps. split_and!; [done| |set_solver].
    apply run_spec. rewrite E. set_solver.
Qed.

Lemma find_match_None r ps :
  find_match r ps = None → ∀ c c', c ∈ ps → ¬ matches r c c'.
Proof.
  induction ps as [|d ps IH]; simpl; [set_solver|].
  destruct (run r d) as [|d' l] eqn:E; [|done].
  intros H c c' [->|Hc]%elem_of_cons; [|by apply IH].
  rewrite <-run_spec, E. apply not_elem_of_nil.
Qed.

(** A text matches iff the expression matches at some split of it. *)
Lemma MatchString_iff r s :
  MatchString r s = true ↔
  ∃ pre post c', chars s = pre ++ post ∧ matches r (last pre, post) c'.
Proof.
  unfold MatchString. rewrite bool_decide_eq_true. split.
  - intros [[c c'] H]. apply find_match_Some in H as (ps1 & ps2 & Hps & Hm & _).
    assert (c ∈ positions None (chars s)) as Hc by (rewrite Hps; set_solver).
    apply elem_of_positions in Hc as (pre & post & Hs & ->).
    exists pre, post, c'. split; [done|]. by destruct (last pre).
  - intros (pre & post & c' & Hs & Hm).
    destruct (find_match r (positions None (chars s))) eqn:E; [done|].
    exfalso. eapply find_match_None; [done| |exact Hm].
    apply elem_of_positions. exists pre, post. split; [done|]. by destruct (last pre).
Qed.

(** The matcher is correct and complete: [re.MatchString(s)] is true
    exactly when the expression matches at some position of the text, and when
    a match is reported it is a match of the expression at the leftmost
    position that has one. *)
Lemma regexp_match_correct (r : re) (s : string) :
  (MatchString r s = true ↔
     ∃ pre post c', chars s = pre ++ post ∧ matches r (last pre, post) c')
  ∧ (∀ c c', find_match r (positions None (chars s)) = Some (c, c') →
       matches r c c' ∧ length c'.2 ≤ length c.2
       ∧ ∃ pre, chars s = pre ++ c.2
         ∧ ∀ pre' post' d, chars s = pre' ++ post' → length pre' < length pre →
             ¬ matches r (last pre', post') d).
Proof.
  split; [apply MatchString_iff|]. intros c c' H.
  apply find_match_Some in H as (ps1 & ps2 & Hps & Hm & Hleft).
  split; [done|]. split; [by apply matches_suffix in Hm as [? _]|].
  assert (∀ l prev ps1 ps2, positions prev l = ps1 ++ c :: ps2 →
    length ps1 ≤ length l ∧ c.2 = drop (length ps1) l ∧
    ∀ n, n < length ps1 → ps1 !! n =
      Some (match last (take n l) with Some x => Some x | None => prev end, drop n l)) as Hpos.
  { clear. intros l. induction l as [|x l IH]; intros prev ps1 ps2; cbn [positions].
    - destruct ps1 as [|d [|d' ps1]]; intros; simplify_eq/=. split_and!; [lia|done|lia].
    - destruct ps1 as [|d ps1]; cbn; intros Hp; injection Hp; clear Hp.
      { intros _ <-. split_and!; [simpl; lia|done|simpl; lia]. }
      intros Hp <-. destruct (IH _ _ _ Hp) as (? & ? & Hn). split_and!; [simpl; lia|done|].
      intros [|n] Hlt; [done|]. simpl in *. rewrite Hn by lia. repeat f_equal.
      rewrite last_cons. by destruct (last (take n l)). }
  destruct (Hpos _ _ _ _ Hps) as (Hlen & Hc & Hn).
  exists (take (length ps1) (chars s)). split; [by rewrite Hc, take_drop|].
  intros pre' post' d Hs Hlt. rewrite length_take in Hlt.
  apply Hleft. apply list_elem_of_lookup. exists (length pre').
  rewrite Hn by lia. rewrite Hs, take_app_length, drop_app_length.
  by destruct (last pre').
Qed.

(** ** All matches *)
Lemma find_match_after r prev l c c' :
  find_match r (positions prev l) = Some (c, c') →
  length c'.2 ≤ length c.2 ≤ length l ∧ c.2 `suffix_of` l.
Proof.
  intros (ps1 & ps2 & Hps & Hm & _)%find_match_Some.
  apply matches_suffix in Hm as [? _].
  assert (c ∈ positions prev l) as (pre & post & -> & ->)%elem_of_positions by (rewrite Hps; set_solver).
  simpl in *. rewrite length_app. split; [lia|by exists pre].
Qed.

Lemma next_rune_shorter c : c.2 ≠ [] → length (next_rune c).2 < length c.2.
Proof.
  intros Hc. unfold next_rune. cbn [snd]. rewrite length_drop.
  assert (1 ≤ length c.2) by (destruct c.2; simpl; [done|lia]).
  destruct (rune_width c.2) as [w|] eqn:E; simpl; [|lia].
  apply rune_width_pos in E. lia.
Qed.

(** The fuel of [FindAllString] is enough: more gives the same matches. *)
Lemma find_all_fuel r n m prev_end c :
  length c.2 < n → length c.2 < m → find_all n r prev_end c = find_all m r prev_end c.
Proof.
  revert m prev_end c. induction n as [|n IH]; intros [|m] prev_end c Hn Hm; try lia.
  cbn [find_all]. destruct (find_match _ _) as [[s e]|] eqn:E; [|done].
  apply find_match_after in E as [Hle _].
  assert ((if length e.2 =? length c.2 then
             match c.2 with [] => [] | _ :: _ => find_all n r (Some (length e.2)) (next_rune c) end
           else find_all n r (Some (length e.2)) e)
        = (if length e.2 =? length c.2 then
             match c.2 with [] => [] | _ :: _ => find_all m r (Some (length e.2)) (next_rune c) end
           else find_all m r (Some (length e.2)) e)) as ->; [|done].
  destruct (Nat.eqb_spec (length e.2) (length c.2)) as [He|He]; [|apply IH; lia].
  destruct c.2 as [|x l] eqn:El; [done|]. pose proof (next_rune_shorter c ltac:(by rewrite El)).
  rewrite El in *. apply IH; lia.
Qed.

(** A position without a match there is skipped. *)
Lemma find_all_skip r n m prev_end p x l :
  length l < m → S (length l) < n →
  run r (p, x :: l) = [] → (∀ c, ¬ matches r c c) →
  find_all n r prev_end (p, x :: l) = find_all m r prev_end (Some x, l).
Proof.
  intros Hm Hn Hr Hne. destruct n as [|n], m as [|m]; [lia..|].
  cbn [find_all]. cbn [positions find_match fst snd]. rewrite Hr.
  destruct (find_match r (positions (Some x) l)) as [[s e]|] eqn:E; [|done].
  pose proof (find_match_after _ _ _ _ _ E) as [Hle _]. cbn [length].
  rewrite (proj2 (Nat.eqb_neq (length e.2) (S (length l)))) by lia. cbn [andb negb].
  destruct (Nat.eqb_spec (length e.2) (length l)) as [He|He]; cbn [andb negb].
  - exfalso. apply find_match_Some in E as (_ & _ & _ & Hm' & _).
    assert (length e.2 = length s.2) as Heq by lia.
    apply matches_suffix in Hm' as Hs. destruct Hs as [_ Hs]. rewrite (Hs Heq) in Hm'.
    by apply (Hne s).
  - f_equal. apply find_all_fuel; lia.
Qed.

(** A match at the position itself, not empty, is delivered, and the search
    goes on where it ends. *)
Lemma find_all_take r n m prev_end c c' ends :
  length c.2 < n → length c'.2 < m → length c'.2 < length c.2 →
  run r c = c' :: ends →
  find_all n r prev_end c = between c c' :: find_all m r (Some (length c'.2)) c'.
Proof.
  intros Hn Hm Hlt Hr. destruct n as [|n]; [lia|]. destruct c as [p l]. cbn [find_all].
  assert (find_match r (positions (p, l).1 (p, l).2) = Some (p, l, c')) as ->
    by (destruct l; cbn [positions find_match fst snd]; by rewrite Hr).
  cbn [fst snd] in *. rewrite (proj2 (Nat.eqb_neq (length c'.2) (length l))) by lia.
  cbn [andb negb]. f_equal. apply find_all_fuel; lia.
Qed.

(** What the search has delivered before plays no part when no match is empty. *)
Lemma find_all_prev r n e1 e2 c :
  (∀ d, ¬ matches r d d) → find_all n r e1 c = find_all n r e2 c.
Proof.
  intros Hne. destruct n as [|n]; [done|]. cbn [find_all].
  destruct (find_match _ _) as [[s e]|] eqn:E; [|done].
  destruct (Nat.eqb_spec (length e.2) (length c.2)) as [He|He]; [|done]. exfalso.
  pose proof (find_match_after _ _ _ _ _ E) as [Hle _].
  apply find_match_Some in E as (_ & _ & _ & Hm' & _).
  assert (length e.2 = length s.2) as Heq by lia.
  apply matches_suffix in Hm' as Hs. destruct Hs as [_ Hs]. rewrite (Hs Heq) in Hm'.
  by apply (Hne s).
Qed.

(** A greedy repetition of a class first tries the longest run. *)
Lemma star_class_longest p n prev l :
  length l ≤ n →
  ∃ ends, star_go (run (Cls p)) n (prev, l)
    = (match last (take (length l - length (drop_while p l)) l) with Some x => Some x | None => prev end,
       drop_while p l) :: ends.
Proof.
  revert n prev. induction l as [|x l IH]; intros n prev Hn.
  { destruct n; simpl; by eexists. }
  destruct n as [|n]; [simpl in Hn; lia|].
  assert (run (Cls p) (prev, x :: l) = if p x then [(Some x, l)] else []) as Hr by done.
  cbn [star_go]. rewrite Hr. cbn [snd drop_while]. destruct (p x) eqn:E.
  - cbn [mbind list_bind app snd]. rewrite app_nil_r.
    rewrite (proj2 (Nat.ltb_lt _ _)) by (simpl; lia).
    destruct (IH n (Some x) ltac:(simpl in Hn; lia)) as [ends ->].
    eexists. cbn [app]. f_equal. f_equal. cbn [length].
    rewrite Nat.sub_succ_l by apply drop_while_length. cbn [take]. rewrite last_cons.
    by destruct (last _).
  - eexists. rewrite Nat.sub_diag. simpl. done.
Qed.

(** What a match of each form is. *)
Lemma Cat_iff r1 r2 c c' : matches (Cat r1 r2) c c' ↔ ∃ d, matches r1 c d ∧ matches r2 d c'.
Proof. split; [inversion 1; eauto|intros (? & ? & ?); eauto with tiny]. Qed.
Lemma Cls_iff p c c' :
  matches (Cls p) c c' ↔ ∃ x l, c.2 = x :: l ∧ p x = true ∧ c' = (Some x, l).
Proof.
  split; [inversion 1; subst; eauto|]. destruct c as [prev l0].
  intros (x & l & Hc & ? & ->). simplify_eq/=. eauto with tiny.
Qed.
Lemma Wb_iff c c' : matches Wb c c' ↔ word_boundary c = true ∧ c' = c.
Proof. split; [inversion 1; eauto|intros [? ->]; eauto with tiny]. Qed.

Lemma Bol_iff c c' : matches Bol c c' ↔ c.1 = None ∧ c' = c.
Proof.
  split; [inversion 1; eauto|]. destruct c as [prev l0]. cbn. intros [-> ->]. constructor.
Qed.
Lemma Eol_iff c c' : matches Eol c c' ↔ c.2 = [] ∧ c' = c.
Proof.
  split; [inversion 1; eauto|]. destruct c as [prev l0]. cbn. intros [-> ->]. constructor.
Qed.

(** A repetition of a class reads characters of the class. *)
Lemma star_class_chars p c c' :
  matches (Star (Cls p)) c c' → ∃ l, c.2 = l ++ c'.2 ∧ Forall (λ x, p x = true) l.
Proof.
  remember (Star (Cls p)) as r eqn:Hr.
  induction 1 as [| | | | | |r0 d1 d2 d3 H1 _ _ IH| | | |]; simplify_eq; [by exists []|].
  apply Cls_iff in H1 as (x & l & E & Hx & ->). destruct (IH eq_refl) as (l' & E' & Hl').
  exists (x :: l'). cbn in E'. rewrite E, E'. split; [done|]. by constructor.
Qed.
(** A concatenation that starts with a class is not empty. *)
Lemma Cls_Cat_not_empty p r c : ¬ matches (Cat (Cls p) r) c c.
Proof.
  rewrite Cat_iff. intros (d & (x & l & Hc & _ & ->)%Cls_iff & [Hle _]%matches_suffix).
  rewrite Hc in Hle. simpl in Hle. lia.
Qed.

(** ** Combinators for the expressions of the source *)
Fixpoint lit_l (l : list ascii) : re :=
  match l with
  | [] => Eps
  | [c] => Cls (λ x, bool_decide (x = c))
  | c :: l' => Cat (Cls (λ x, bool_decide (x = c))) (lit_l l')
  end.
Definition lit (s : string) : re := lit_l (chars s).
Definition opt (r : re) : re := Alt r Eps.
Definition plus (r : re) : re := Cat r (Star r).
Fixpoint rep (n : nat) (r : re) : re :=
  match n with O => Eps | S n' => Cat r (rep n' r) end.
(** [r{lo,lo+k}]. *)
Fixpoint upto (k : nat) (r : re) : re :=
  match k with O => Eps | S k' => opt (Cat r (upto k' r)) end.
Definition rep_range (lo k : nat) (r : re) : re := Cat (rep lo r) (upto k r).
Fixpoint seq_of (rs : list re) : re :=
  match rs with [] => Eps | [r] => r | r :: rs' => Cat r (seq_of rs') end.
Fixpoint one_of (rs : list re) : re :=
  match rs with [] => Cls (λ _, false) | [r] => r | r :: rs' => Alt r (one_of rs') end.
Definition any_of (s : string) : re := Cls (λ x, bool_decide (x ∈ chars s)).
Definition none_of (s : string) : re := Cls (λ x, negb (bool_decide (x ∈ chars s))).
Definition newline : ascii := ascii_of_nat 10.
Definition quote : ascii := ascii_of_nat 34.
Definition dot : re := Cls (λ x, negb (bool_decide (x = newline))).
Definition digit : re := Cls is_digit.
(** [\s] is [[\t\n\f\r ]]. *)
Definition ws_class (c : ascii) : bool := bool_decide (byte c ∈ [9; 10; 12; 13; 32]).
Definition ws : re := Cls ws_class.

(** The flag [(?i)]: a class also accepts the other case of its letters. *)
Definition upper_char (c : ascii) : ascii :=
  if is_lower c then ascii_of_nat (byte c - 32) else c.
Fixpoint fold_case (r : re) : re :=
  match r with
  | Cls p => Cls (λ x, p x || p (lower_char x) || p (upper_char x))
  | Cat r1 r2 => Cat (fold_case r1) (fold_case r2)
  | Alt r1 r2 => Alt (fold_case r1) (fold_case r2)
  | Star r => Star (fold_case r)
  | Lazy r => Lazy (fold_case r)
  | _ => r
  end.

(** ** Matching known texts *)

(** The character before a position, after the text [l] has been read. *)
Definition after (prev : option ascii) (l : list ascii) : option ascii :=
  match last l with Some x => Some x | None => prev end.

Lemma after_cons prev x l : after prev (x :: l) = after (Some x) l.
Proof. unfold after. rewrite last_cons. by destruct (last l). Qed.

Lemma lit_match l prev post : matches (lit_l l) (prev, l ++ post) (after prev l, post).
Proof.
  revert prev. induction l as [|x l IH]; intros prev; [constructor|].
  rewrite after_cons. assert (bool_decide (x = x) = true) as Hx by by apply bool_decide_eq_true.
  destruct l as [|y l]; [by constructor|]. eapply m_cat; [by constructor|apply IH].
Qed.

Lemma star_class_match p l prev post :
  Forall (λ x, p x = true) l → matches (Star (Cls p)) (prev, l ++ post) (after prev l, post).
Proof.
  intros H. revert prev. induction H as [|x l Hx _ IH]; intros prev; [constructor|].
  rewrite after_cons. eapply m_star_cons; [by constructor|apply IH].
Qed.

Lemma plus_class_match p l prev post :
  l ≠ [] → Forall (λ x, p x = true) l →
  matches (plus (Cls p)) (prev, l ++ post) (after prev l, post).
Proof.
  intros Hne H. destruct H as [|x l Hx H]; [done|]. rewrite after_cons.
  eapply m_cat; [by constructor|by apply star_class_match].
Qed.

Lemma plus_class_chars p c c' :
  matches (plus (Cls p)) c c' → ∃ l, c.2 = l ++ c'.2 ∧ l ≠ [] ∧ Forall (λ x, p x = true) l.
Proof.
  intros (d & (x & l & E & Hx & ->)%Cls_iff & (m & Em & Hm)%star_class_chars)%Cat_iff.
  exists (x :: m). cbn in Em. rewrite E, Em. split_and!; [done|done|by constructor].
Qed.

Lemma lit_chars l c c' : matches (lit_l l) c c' → c.2 = l ++ c'.2.
Proof.
  revert c. induction l as [|x l IH]; intros c H; [by inversion H|].
  destruct l as [|y l].
  - apply Cls_iff in H as (z & k & E & Hz & ->). apply bool_decide_eq_true in Hz as ->. done.
  - apply Cat_iff in H as (d & (z & k & E & Hz & ->)%Cls_iff & H%IH).
    apply bool_decide_eq_true in Hz as ->. cbn in H. by rewrite E, H.
Qed.

Lemma rep_class_match p l prev post :
  Forall (λ x, p x = true) l → matches (rep (length l) (Cls p)) (prev, l ++ post) (after prev l, post).
Proof.
  intros H. revert prev. induction H as [|x l Hx _ IH]; intros prev; [constructor|].
  rewrite after_cons. eapply m_cat; [by constructor|apply IH].
Qed.

Lemma rep_class_chars p n c c' :
  matches (rep n (Cls p)) c c' → ∃ l, c.2 = l ++ c'.2 ∧ length l = n ∧ Forall (λ x, p x = true) l.
Proof.
  revert c. induction n as [|n IH]; intros c H; [inversion H; by exists []|].
  apply Cat_iff in H as (d & (x & k & E & Hx & ->)%Cls_iff & H).
  destruct (IH _ H) as (l & El & Hl & HF). exists (x :: l). cbn in El.
  rewrite E, El. split_and!; [done|cbn; lia|by constructor].
Qed.
