(* ===== verification/RegexReplace.v ===== *)
(** * Groups and replacements of regular expressions (Go package regexp)

    An expression with groups is the sequence of its parts, the groups among them.
    A text is cut into characters outside of matches and matches, each with the
    texts of the parts; the functions that find and replace all matches are
    functions of this cut.  The cut keeps the text, its matches are matches, and no
    match begins at a character that is kept. *)
From stdpp Require Import base gmap strings list.
From Stdlib Require Import Ascii Lia.
From S2P Require Import Prelude GoStrings Regex.
#[local] Open Scope nat_scope.

(** The positions after the parts, for every match of the sequence, the preferred
    match first. *)
Fixpoint run_seq (rs : list re) (c : pos) : list (list pos) :=
  match rs with
  | [] => [[]]
  | r :: rs => run r c ≫= λ c', cons c' <$> run_seq rs c'
  end.

(** The texts of the parts. *)
Fixpoint pieces (c : pos) (cuts : list pos) : list (list ascii) :=
  match cuts with
  | [] => []
  | c' :: cuts => between c c' :: pieces c' cuts
  end.

Inductive token :=
| Plain (x : ascii)
| Matched (ps : list (list ascii)).

(** The cut of a text.  The expressions that the program replaces match no empty text,
    and begin and end with ASCII characters or stand at the end of a text, so their
    matches begin and end between characters of UTF-8. *)
Fixpoint scan (fuel : nat) (rs : list re) (c : pos) : list token :=
  match fuel with
  | O => Plain <$> c.2
  | S fuel =>
      match c.2 with
      | [] => []
      | x :: l =>
          match run_seq rs c with
          | cuts :: _ =>
              let e := default c (last cuts) in
              if length e.2 <? length c.2 then Matched (pieces c cuts) :: scan fuel rs e
              else Plain x :: scan fuel rs (Some x, l)
          | [] => Plain x :: scan fuel rs (Some x, l)
          end
      end
  end.
Definition tokens (rs : list re) (l : list ascii) : list token := scan (S (length l)) rs (None, l).

Definition token_text (t : token) : list ascii :=
  match t with Plain x => [x] | Matched ps => mjoin ps end.
Definition replaced (f : list (list ascii) → list ascii) (t : token) : list ascii :=
  match t with Plain x => [x] | Matched ps => f ps end.

(** [FindAllStringSubmatch(s, -1)], and the replacement of all matches by a function
    of their parts. *)
Definition find_groups (rs : list re) (l : list ascii) : list (list (list ascii)) :=
  omap (λ t, match t with Plain _ => None | Matched ps => Some ps end) (tokens rs l).
Definition replace_l (rs : list re) (f : list (list ascii) → list ascii) (l : list ascii) : list ascii :=
  tokens rs l ≫= replaced f.

(** [ReplaceAllStringFunc] with a function that counts its calls. *)
Fixpoint replace_counted (f : nat → list ascii) (i : nat) (ts : list token) : list ascii :=
  match ts with
  | [] => []
  | Plain x :: ts => x :: replace_counted f i ts
  | Matched _ :: ts => f i ++ replace_counted f (S i) ts
  end.

(** The text of a part, and of a group. *)
Definition part (i : nat) (ps : list (list ascii)) : list ascii := default [] (ps !! i).

(** [[\s\S]], and [r+?]. *)
Definition any_char : re := Cls (λ _, true).
Definition lazy_plus (r : re) : re := Cat r (Lazy r).

(** ** The parts of a match *)
Inductive path : list re → pos → list pos → Prop :=
| path_nil c : path [] c []
| path_cons r rs c c' cuts : matches r c c' → path rs c' cuts → path (r :: rs) c (c' :: cuts).

Lemma run_seq_spec rs c cuts : cuts ∈ run_seq rs c ↔ path rs c cuts.
Proof.
  revert c cuts. induction rs as [|r rs IH]; intros c cuts; cbn [run_seq].
  - rewrite list_elem_of_singleton. split; [intros ->; constructor|by inversion 1].
  - rewrite list_elem_of_bind. setoid_rewrite list_elem_of_fmap. split.
    + intros (c' & (k & -> & Hk) & Hr). constructor; [by apply run_spec|by apply IH].
    + inversion 1; subst. eexists; split; [eexists; split; [done|by apply IH]|by apply run_spec].
Qed.

Lemma between_prefix r c c' : matches r c c' → c.2 = between c c' ++ c'.2.
Proof.
  intros H. assert (c'.2 `suffix_of` c.2) as [k E].
  { induction H; cbn in *; first [done | by exists [x] | by etrans]. }
  unfold between. by rewrite E, length_app, Nat.add_sub, take_app_length.
Qed.

(** The parts of a match follow each other, each matching its expression. *)
Inductive parts_match : list re → pos → list (list ascii) → pos → Prop :=
| parts_nil c : parts_match [] c [] c
| parts_cons r rs c c' p ps e :
    matches r c c' → c.2 = p ++ c'.2 → parts_match rs c' ps e → parts_match (r :: rs) c (p :: ps) e.

Lemma path_parts rs c cuts : path rs c cuts → parts_match rs c (pieces c cuts) (default c (last cuts)).
Proof.
  induction 1 as [|r rs c c' cuts Hr _ IH]; [constructor|]. cbn [pieces].
  econstructor; [exact Hr|by eapply between_prefix|].
  destruct cuts as [|d cuts]; [exact IH|].
  revert IH. rewrite !last_cons. by destruct (last cuts).
Qed.

Lemma parts_text rs c ps e : parts_match rs c ps e → c.2 = mjoin ps ++ e.2.
Proof. induction 1 as [|? ? ? ? ? ? ? _ E _ IH]; [done|]. cbn. by rewrite E, IH, (assoc_L (++)). Qed.

Lemma run_seq_parts rs c cuts ends :
  run_seq rs c = cuts :: ends → parts_match rs c (pieces c cuts) (default c (last cuts)).
Proof. intros E. apply path_parts, run_seq_spec. rewrite E. apply list_elem_of_here. Qed.

Lemma parts_cons_inv r rs c ps e :
  parts_match (r :: rs) c ps e →
  ∃ p c' ps', ps = p :: ps' ∧ matches r c c' ∧ c.2 = p ++ c'.2 ∧ parts_match rs c' ps' e.
Proof. inversion 1; subst. eauto 8. Qed.

Lemma parts_lit_inv s rs c ps e :
  parts_match (lit s :: rs) c ps e →
  ∃ c' ps', ps = chars s :: ps' ∧ c.2 = chars s ++ c'.2 ∧ parts_match rs c' ps' e.
Proof.
  intros (p & c' & ps' & -> & Hm%lit_chars & Hc & H)%parts_cons_inv. exists c', ps'.
  rewrite Hm in Hc. apply app_inv_tail in Hc as <-. by rewrite Hm.
Qed.

(** ** The cut *)
Lemma scan_text n rs c : scan n rs c ≫= token_text = c.2.
Proof.
  revert c. induction n as [|n IH]; intros c.
  { cbn [scan]. induction c.2 as [|x l IH]; [done|]. csimpl. by rewrite IH. }
  cbn [scan]. destruct c as [prev [|x l]]; [done|]. cbn [snd].
  destruct (run_seq rs (prev, x :: l)) as [|cuts ends] eqn:E; [csimpl; by rewrite IH|].
  apply run_seq_parts, parts_text in E. case_match; csimpl; rewrite IH; done.
Qed.

(** The text is what the cut is made of. *)
Lemma tokens_text rs l : tokens rs l ≫= token_text = l.
Proof. apply scan_text. Qed.

(** An expression whose matches are not empty. *)
Definition consumes (rs : list re) : Prop :=
  ∀ c ps e, parts_match rs c ps e → length e.2 < length c.2.

Lemma parts_run rs c ps e : parts_match rs c ps e → ∃ cuts, cuts ∈ run_seq rs c.
Proof.
  induction 1 as [c|r rs c c' p ps e Hr _ _ [cuts IH]]; [exists []; by left|].
  exists (c' :: cuts). apply run_seq_spec. constructor; [done|by apply run_seq_spec].
Qed.

(** Induction over the cut of a text: a match is passed, and a character is kept where
    no match begins. *)
Lemma scan_ind rs (P : pos → list token → Prop) :
  (∀ prev, P (prev, []) []) →
  (∀ prev x l ts, (consumes rs → ∀ ps e, ¬ parts_match rs (prev, x :: l) ps e) →
    P (Some x, l) ts → P (prev, x :: l) (Plain x :: ts)) →
  (∀ c ps e ts, parts_match rs c ps e → length e.2 < length c.2 → P e ts → P c (Matched ps :: ts)) →
  ∀ n c, length c.2 < n → P c (scan n rs c).
Proof.
  intros Hnil Hplain Hmatch n. induction n as [|n IH]; intros [prev l] Hn; [lia|].
  cbn [scan snd] in *. destruct l as [|x l]; [done|].
  destruct (run_seq rs (prev, x :: l)) as [|cuts ends] eqn:E.
  - apply Hplain; [|apply IH; simpl in *; lia].
    intros _ ps e (cuts & Hc)%parts_run. rewrite E in Hc. by apply not_elem_of_nil in Hc.
  - apply run_seq_parts in E. case_match eqn:El; bool_nums.
    + eapply Hmatch; [exact E|done|]. apply IH. simpl in *. lia.
    + apply Hplain; [|apply IH; simpl in *; lia]. intros Hc. apply Hc in E. simpl in *. lia.
Qed.

Lemma tokens_ind rs (P : pos → list token → Prop) :
  (∀ prev, P (prev, []) []) →
  (∀ prev x l ts, (consumes rs → ∀ ps e, ¬ parts_match rs (prev, x :: l) ps e) →
    P (Some x, l) ts → P (prev, x :: l) (Plain x :: ts)) →
  (∀ c ps e ts, parts_match rs c ps e → length e.2 < length c.2 → P e ts → P c (Matched ps :: ts)) →
  ∀ l, P (None, l) (tokens rs l).
Proof. intros H1 H2 H3 l. apply (scan_ind rs P H1 H2 H3). cbn. lia. Qed.

(** More fuel than characters gives the same cut. *)
Lemma scan_fuel n m rs c : length c.2 < n → length c.2 < m → scan n rs c = scan m rs c.
Proof.
  revert m c. induction n as [|n IH]; intros [|m] [prev l] Hn Hm; try lia.
  cbn [scan snd] in *. destruct l as [|x l]; [done|]. cbn [length] in *.
  rewrite (IH m (Some x, l)) by (cbn; lia).
  destruct (run_seq _ _) as [|cuts ends]; [done|].
  case_match eqn:E; bool_nums; [|done]. by rewrite (IH m) by (cbn in *; lia).
Qed.

(** A single expression: all matches are those of [FindAllString]. *)
Lemma run_seq_single r c : run_seq [r] c = (λ c', [c']) <$> run r c.
Proof. cbn. by induction (run r c) as [|c' l IH]; csimpl; [|rewrite IH]. Qed.

Lemma find_groups_all r n m pe c :
  (∀ d, ¬ matches r d d) → length c.2 < n → length c.2 < m →
  mjoin <$> omap (λ t, match t with Plain _ => None | Matched ps => Some ps end) (scan n [r] c) =
  find_all m r pe c.
Proof.
  intros Hne. assert (∀ d d', matches r d d' → length d'.2 < length d.2) as Hlt.
  { intros d d' H. destruct (matches_suffix _ _ _ H) as [? He]. destruct (decide (length d'.2 = length d.2)); [|lia].
    rewrite (He e) in H. by apply Hne in H. }
  revert m pe c. induction n as [|n IH]; intros m pe [prev l] Hn Hm; [lia|].
  cbn [scan snd] in *. destruct l as [|x l].
  { destruct m as [|m]; [lia|]. cbn. destruct (run r (prev, [])) as [|c' l] eqn:E; [done|].
    assert (matches r (prev, []) c') as H by (apply run_spec; rewrite E; apply list_elem_of_here).
    apply Hlt in H. cbn in H. lia. }
  rewrite run_seq_single. destruct (run r (prev, x :: l)) as [|c' ends] eqn:E; csimpl.
  - rewrite (find_all_skip r m (S (length l))) by (try done; simpl in *; lia).
    apply IH; simpl in *; lia.
  - assert (matches r (prev, x :: l) c') as H by (apply run_spec; rewrite E; apply list_elem_of_here).
    pose proof (Hlt _ _ H) as Hl. cbn [snd] in Hl. rewrite (proj2 (Nat.ltb_lt _ _)) by done.
    rewrite (find_all_take r m (S (length c'.2)) _ _ c' ends) by (try done; simpl in *; lia).
    cbn [omap list_omap fmap list_fmap default from_option id last]. cbn [pieces mjoin list_join].
    rewrite app_nil_r. f_equal. apply IH; simpl in *; lia.
Qed.

Lemma find_groups_FindAllString r s :
  (∀ d, ¬ matches r d d) → implode ∘ mjoin <$> find_groups [r] (chars s) = FindAllString r s.
Proof.
  intros Hne. unfold FindAllString, find_groups, tokens.
  rewrite list_fmap_compose. f_equal. by apply find_groups_all; [|cbn; lia..].
Qed.
