(* ===== verification/ErrorClass.v ===== *)
(** * Error classification (pkg/providers/error_classifier.go)

    Which provider errors trigger a fallback, and why: context errors, HTTP
    status codes found in the text, then the message patterns in priority
    order.  The patterns are the regular expressions and substrings of the
    source, in the syntax of [Regex]. *)
From stdpp Require Import base gmap strings list.
From Stdlib Require Import Ascii ZArith Lia.
From S2P Require Import Prelude GoStrings Regex ProviderTypes.
#[local] Open Scope Z_scope.

(** ** Patterns *)
Inductive errorPattern :=
| substr (s : string)
| rxp (r : re).      (* compiled with the flag (?i) *)

Definition spaces_or_underscore : re := any_of "_ ".
Definition star_dot : re := Star dot.

Definition rateLimitPatterns : list errorPattern := [
  rxp (seq_of [lit "rate"; spaces_or_underscore; lit "limit"]);
  substr "too many requests";
  substr "429";
  substr "exceeded your current quota";
  rxp (seq_of [lit "exceeded"; star_dot; lit "quota"]);
  rxp (lit "resource has been exhausted");
  rxp (seq_of [lit "resource"; star_dot; lit "exhausted"]);
  substr "resource_exhausted";
  substr "quota exceeded";
  substr "usage limit" ].

Definition quoted (s : string) : re :=
  seq_of [Cls (λ x, bool_decide (x = quote)); lit s; Cls (λ x, bool_decide (x = quote))].

Definition overloadedPatterns : list errorPattern := [
  rxp (lit "overloaded_error");
  rxp (seq_of [quoted "type"; Star ws; lit ":"; Star ws; quoted "overloaded_error"]);
  substr "overloaded" ].

Definition timeoutPatterns : list errorPattern := [
  substr "timeout";
  substr "timed out";
  substr "deadline exceeded";
  substr "context deadline exceeded" ].

Definition billingPatterns : list errorPattern := [
  rxp (seq_of [Wb; lit "402"; Wb]);
  substr "payment required";
  substr "insufficient credits";
  substr "credit balance";
  substr "plans & billing";
  substr "insufficient balance" ].

Definition authPatterns : list errorPattern := [
  rxp (seq_of [lit "invalid"; opt spaces_or_underscore; lit "api"; opt spaces_or_underscore;
               lit "key"]);
  substr "incorrect api key";
  substr "invalid token";
  substr "authentication";
  substr "re-authenticate";
  substr "oauth token refresh failed";
  substr "unauthorized";
  substr "forbidden";
  substr "access denied";
  substr "expired";
  substr "token has expired";
  rxp (seq_of [Wb; lit "401"; Wb]);
  rxp (seq_of [Wb; lit "403"; Wb]);
  substr "no credentials found";
  substr "no api key found" ].

Definition formatPatterns : list errorPattern := [
  substr "string should match pattern";
  substr "tool_use.id";
  substr "tool_use_id";
  substr "messages.1.content.1.tool_use.id";
  substr "invalid request format" ].

Definition imageDimensionPatterns : list errorPattern :=
  [rxp (lit "image dimensions exceed max")].

Definition imageSizePatterns : list errorPattern :=
  [rxp (seq_of [lit "image exceeds"; star_dot; lit "mb"])].

Definition transientStatusCodes : list Z := [500; 502; 503; 521; 522; 523; 524; 529].

Definition pattern_matches (msg : string) (p : errorPattern) : bool :=
  match p with
  | rxp r => MatchString (fold_case r) msg
  | substr s => if bool_decide (s = "") then false else contains msg s
  end.

Fixpoint matchesAny (msg : string) (patterns : list errorPattern) : bool :=
  match patterns with
  | [] => false
  | p :: ps => if pattern_matches msg p then true else matchesAny msg ps
  end.

Definition IsImageDimensionError (msg : string) : bool := matchesAny msg imageDimensionPatterns.
Definition IsImageSizeError (msg : string) : bool := matchesAny msg imageSizePatterns.

(** ** Status codes *)
Definition parseDigits (s : string) : Z :=
  foldl (λ n c, if is_digit c then n * 10 + (Z.of_nat (byte c) - 48) else n) 0 (chars s).

(** The text before the three captured digits in the two patterns. *)
Definition status_prefix : re := Cat (lit "status") (plus (Cls (λ x, bool_decide (x = ":"%char) || ws_class x))).
Definition http_prefix : re :=
  seq_of [lit "HTTP"; plus (Cls (λ x, bool_decide (x = "/"%char) || ws_class x));
          Star digit; opt (lit "."); Star digit; plus ws].
Definition with_code (prefix : re) : re := Cat prefix (rep 3 digit).

(** [p.FindStringSubmatch(msg)[1]]: the group is the last three characters of the match. *)
Definition submatch_code (prefix : re) (msg : string) : option string :=
  (λ cc : pos * pos,
     let len := (length cc.1.2 - length cc.2.2)%nat in
     implode (drop (len - 3) (take len cc.1.2)))
  <$> find_match (with_code prefix) (positions None (chars msg)).

Definition extractHTTPStatus (msg : string) : Z :=
  match submatch_code status_prefix msg with
  | Some code => parseDigits code
  | None => match submatch_code http_prefix msg with
            | Some code => parseDigits code
            | None => 0
            end
  end.

Definition classifyByStatus (status : Z) : option FailoverReason :=
  if (status =? 401) || (status =? 403) then Some FailoverAuth
  else if status =? 402 then Some FailoverBilling
  else if status =? 408 then Some FailoverTimeout
  else if status =? 429 then Some FailoverRateLimit
  else if status =? 400 then Some FailoverFormat
  else if bool_decide (status ∈ transientStatusCodes) then Some FailoverTimeout
  else None.

Definition classifyByMessage (msg : string) : option FailoverReason :=
  if matchesAny msg rateLimitPatterns then Some FailoverRateLimit
  else if matchesAny msg overloadedPatterns then Some FailoverRateLimit
  else if matchesAny msg billingPatterns then Some FailoverBilling
  else if matchesAny msg timeoutPatterns then Some FailoverTimeout
  else if matchesAny msg authPatterns then Some FailoverAuth
  else if matchesAny msg formatPatterns then Some FailoverFormat
  else None.

(** ** ClassifyError *)
Definition ClassifyError (err : option error) (provider model : string) : option FailoverError :=
  match err with
  | None => None
  | Some err =>
      if err_canceled err then None
      else if err_deadline err then
        Some (mk_FailoverError FailoverTimeout provider model 0 err)
      else
        let msg := to_lower (err_text err) in
        if IsImageDimensionError msg || IsImageSizeError msg then
          Some (mk_FailoverError FailoverFormat provider model 0 err)
        else
          let status := extractHTTPStatus msg in
          let by_message :=
            match classifyByMessage msg with
            | Some reason => Some (mk_FailoverError reason provider model 0 err)
            | None => None
            end in
          if 0 <? status then
            match classifyByStatus status with
            | Some reason => Some (mk_FailoverError reason provider model status err)
            | None => by_message
            end
          else by_message
  end.

(** ** Lemmas *)
Lemma matches_lit_head c l r c1 c2 :
  matches (Cat (lit_l (c :: l)) r) c1 c2 → ∃ rest, c1.2 = c :: rest.
Proof.
  inversion 1 as [| |? ? ? d ? Hl Hr| | | | | | | |]; subst.
  assert (∃ r', matches (Cat (Cls (λ x, bool_decide (x = c))) r') c1 d
    ∨ matches (Cls (λ x, bool_decide (x = c))) c1 d) as [r' [Hm|Hm]].
  { destruct l; simpl in Hl; [exists Eps|]; eauto. }
  - inversion Hm as [| |? ? ? e ? Hc| | | | | | | |]; subst.
    inversion Hc; subst. bool_nums. subst. simpl. eauto.
  - inversion Hm; subst. bool_nums. subst. simpl. eauto.
Qed.

Lemma http_prefix_lower msg : submatch_code http_prefix (to_lower msg) = None.
Proof.
  unfold submatch_code. apply fmap_None.
  destruct (find_match _ _) as [[c c']|] eqn:E; [exfalso|done].
  apply find_match_Some in E as (ps1 & ps2 & Hps & Hm & _).
  assert (c ∈ positions None (chars (to_lower msg))) as Hc by (rewrite Hps; set_solver).
  apply elem_of_positions in Hc as (pre & post & Hs & ->).
  inversion Hm as [| |? ? ? d ? Hpre _| | | | | | | |]; subst.
  destruct (matches_lit_head "H"%char (chars "TTP") _ _ _ Hpre) as [rest Hrest]. simpl in Hrest. subst post.
  rewrite chars_to_lower in Hs.
  assert ("H"%char ∈ lower_char <$> chars msg) as Hin by (rewrite Hs; set_solver).
  apply list_elem_of_fmap in Hin as (x & Hx & _).
  pose proof (lower_not_upper x) as Hu. rewrite <-Hx in Hu. discriminate.
Qed.

(** The pattern for "HTTP/1.1 503" cannot match inside [ClassifyError]: the
    message is lowercased first and the pattern is in upper case, so only the
    "status" pattern ever extracts a code.  A server failure reported as
    "HTTP/1.1 500 ..." without the word "status" is left unclassified, and the
    fallback chain stops instead of trying the next candidate, although the
    extraction alone finds 500 in it.  The form "HTTP 429" that the comment
    promises is not found even in upper case. *)
Lemma http_status_pattern_is_dead (msg : string) :
  extractHTTPStatus (to_lower msg)
  = match submatch_code status_prefix (to_lower msg) with
    | Some code => parseDigits code
    | None => 0
    end
  ∧ ClassifyError (Some (errors_New "HTTP/1.1 500 Internal Server Error")) "openai" "gpt" = None
  ∧ extractHTTPStatus "HTTP/1.1 500 Internal Server Error" = 500
  ∧ (∃ e, ClassifyError (Some (errors_New "status: 500 Internal Server Error")) "openai" "gpt"
          = Some e ∧ fe_Reason e = FailoverTimeout)
  ∧ extractHTTPStatus "HTTP 429" = 0.
Proof.
  split_and!.
  - unfold extractHTTPStatus. by rewrite http_prefix_lower.
  - vm_compute. reflexivity.
  - vm_compute. reflexivity.
  - eexists. split; vm_compute; reflexivity.
  - vm_compute. reflexivity.
Qed.

Lemma classifyByMessage_range msg r :
  classifyByMessage msg = Some r →
  r ∈ [FailoverAuth; FailoverRateLimit; FailoverBilling; FailoverTimeout; FailoverFormat].
Proof.
  unfold classifyByMessage. intros H.
  repeat match type of H with (if ?b then _ else _) = _ => destruct b end;
    simplify_eq; set_solver.
Qed.

Lemma classifyByStatus_range s r :
  classifyByStatus s = Some r →
  r ∈ [FailoverAuth; FailoverRateLimit; FailoverBilling; FailoverTimeout; FailoverFormat].
Proof.
  unfold classifyByStatus. repeat case_match; intros; simplify_eq; set_solver.
Qed.

(** What a classification says is true of the error: it names the given
    candidate and wraps the given error, which is no user cancellation; the
    reason is one of the five that the cooldowns know; a recorded status code
    is the one in the message and determines the reason; and the error stops
    the chain exactly when the reason is a format error. *)
Lemma classification_sound (err : error) (provider model : string) (fe : FailoverError) :
  ClassifyError (Some err) provider model = Some fe →
  fe_Provider fe = provider ∧ fe_Model fe = model ∧ fe_Wrapped fe = err
  ∧ err_canceled err = false
  ∧ fe_Reason fe ∈
      [FailoverAuth; FailoverRateLimit; FailoverBilling; FailoverTimeout; FailoverFormat]
  ∧ (fe_Status fe ≠ 0 →
       fe_Status fe = extractHTTPStatus (to_lower (err_text err))
       ∧ classifyByStatus (fe_Status fe) = Some (fe_Reason fe))
  ∧ (IsRetriable fe = false ↔ fe_Reason fe = FailoverFormat)
  ∧ (err_deadline err = true → fe_Reason fe = FailoverTimeout).
Proof.
  intros H. simpl in H.
  assert (IsRetriable fe = false ↔ fe_Reason fe = FailoverFormat) as Hret.
  { unfold IsRetriable. case_bool_decide; simpl; split; congruence. }
  destruct (err_canceled err) eqn:Hc; [done|].
  destruct (err_deadline err) eqn:Hd; [simplify_eq/=; split_and!; try done; set_solver|].
  destruct (_ || _) eqn:Hi; [simplify_eq/=; split_and!; try done; set_solver|].
  assert (∀ r, classifyByMessage (to_lower (err_text err)) = Some r →
    fe = mk_FailoverError r provider model 0 err →
    fe_Reason fe ∈ [FailoverAuth; FailoverRateLimit; FailoverBilling; FailoverTimeout;
                    FailoverFormat]) as Hm.
  { intros r Hr ->. by eapply classifyByMessage_range. }
  destruct (0 <? _) eqn:Hs; [destruct (classifyByStatus _) as [r|] eqn:Hst|];
    try (destruct (classifyByMessage _) as [r'|] eqn:Hmsg; [|done]); simplify_eq/=;
    (split_and!; try done); try (by eapply classifyByStatus_range);
    by eapply Hm.
Qed.

Lemma classification_sound_witness :
  let err := errors_New "API error: status 429: slow down" in
  let fe := mk_FailoverError FailoverRateLimit "openai" "gpt" 429 err in
  ClassifyError (Some err) "openai" "gpt" = Some fe
  ∧ classifyByStatus (fe_Status fe) = Some (fe_Reason fe).
Proof.
  intros err fe.
  assert (ClassifyError (Some err) "openai" "gpt" = Some fe) as H by (vm_compute; reflexivity).
  split; [exact H|].
  apply (classification_sound err "openai" "gpt" fe H). discriminate.
Defined.

(** ** Reading a status code back *)
Definition sep_class (x : ascii) : bool := bool_decide (x = ":"%char) || ws_class x.

Lemma digit_not_sep d : is_digit d = true → sep_class d = false.
Proof.
  intros Hd. apply orb_false_iff. split.
  - apply bool_decide_eq_false. by intros ->.
  - apply bool_decide_eq_false. intros Hw. unfold is_digit, in_range in Hd.
    apply andb_true_iff in Hd as [H1 H2]. unfold byte in *.
    apply Nat.leb_le in H1, H2. change (nat_of_ascii "0") with 48%nat in H1.
    repeat (apply elem_of_cons in Hw as [Hw|Hw]; [lia|]). by apply not_elem_of_nil in Hw.
Qed.

(** A word, separators and three digits: what the status pattern matches there. *)
Lemma with_code_match seps ds prev post :
  seps ≠ [] → Forall (λ x, sep_class x = true) seps → Forall (λ x, is_digit x = true) ds → length ds = 3%nat →
  ∃ c', matches (with_code status_prefix) (prev, chars "status" ++ seps ++ ds ++ post) c'.
Proof.
  intros Hne Hs Hd Hl. eexists. apply Cat_iff. eexists. split.
  - apply Cat_iff. eexists. split; [apply lit_match|]. by apply plus_class_match.
  - rewrite <-Hl. by apply rep_class_match.
Qed.

Lemma with_code_inv c c' :
  matches (with_code status_prefix) c c' →
  ∃ seps ds, c.2 = chars "status" ++ seps ++ ds ++ c'.2 ∧ seps ≠ [] ∧
    Forall (λ x, sep_class x = true) seps ∧ Forall (λ x, is_digit x = true) ds ∧ length ds = 3%nat.
Proof.
  intros (d & (e & H1%lit_chars & (seps & H2 & Hne & Hs)%plus_class_chars)%Cat_iff &
          (ds & H3 & Hl & Hd)%rep_class_chars)%Cat_iff.
  exists seps, ds. by rewrite H1, H2, H3.
Qed.

(** Separators and digits can be told apart, so the code is determined. *)
Lemma seps_digits_inj seps ds post seps' ds' post' :
  Forall (λ x, sep_class x = true) seps → Forall (λ x, sep_class x = true) seps' →
  Forall (λ x, is_digit x = true) ds → Forall (λ x, is_digit x = true) ds' →
  length ds = 3%nat → length ds' = 3%nat →
  seps ++ ds ++ post = seps' ++ ds' ++ post' → seps = seps' ∧ ds = ds' ∧ post = post'.
Proof.
  intros Hs Hs' Hd Hd' Hl Hl'. revert seps' Hs'. induction Hs as [|x seps Hx _ IH]; intros seps' Hs' E.
  - destruct Hs' as [|y seps' Hy Hs'].
    + cbn in E. apply app_inj_1 in E as [-> ->]; [done|lia].
    + destruct Hd as [|d ds Hd _]; [done|]. cbn in E. injection E as -> _.
      by rewrite digit_not_sep in Hy.
  - destruct Hs' as [|y seps' Hy Hs'].
    + destruct Hd' as [|d ds' Hd' _]; [done|]. cbn in E. injection E as -> _.
      by rewrite digit_not_sep in Hx.
    + cbn in E. injection E as -> E. destruct (IH seps' Hs' E) as (-> & -> & ->). done.
Qed.

(** The code after the first "status" of a text is the one that is extracted. *)
Lemma status_code_extracted msg head seps ds post :
  chars msg = head ++ chars "status" ++ seps ++ ds ++ post →
  seps ≠ [] → Forall (λ x, sep_class x = true) seps → Forall (λ x, is_digit x = true) ds → length ds = 3%nat →
  (∀ k, (k < length head)%nat → has_prefix_l (chars "status") (drop k (chars msg)) = false) →
  extractHTTPStatus msg = parseDigits (implode ds).
Proof.
  intros Hmsg Hne Hs Hd Hl Hhead. unfold extractHTTPStatus.
  assert (submatch_code status_prefix msg = Some (implode ds)) as ->; [|done].
  unfold submatch_code. destruct (find_match _ _) as [[c c']|] eqn:E.
  - apply regexp_match_correct in E as (Hm & _ & pre & Hpre & Hleft).
    destruct (with_code_inv _ _ Hm) as (seps' & ds' & Hc & Hne' & Hs' & Hd' & Hl').
    assert (length pre = length head) as Hlen.
    { destruct (lt_eq_lt_dec (length pre) (length head)) as [[Hlt|?]|Hgt]; [exfalso|done|exfalso].
      - specialize (Hhead _ Hlt). rewrite Hpre, drop_app_length in Hhead.
        apply not_true_iff_false in Hhead. apply Hhead, has_prefix_l_spec. rewrite Hc. eauto.
      - destruct (with_code_match seps ds (last head) post Hne Hs Hd Hl) as [d Hd2].
        by apply (Hleft head (chars "status" ++ seps ++ ds ++ post) d Hmsg Hgt). }
    rewrite Hmsg in Hpre. apply app_inj_1 in Hpre as [_ Hpre]; [|done].
    rewrite Hc in Hpre. apply app_inv_head in Hpre.
    destruct (seps_digits_inj _ _ _ _ _ _ Hs Hs' Hd Hd' Hl Hl' Hpre) as (-> & -> & _).
    cbn [fmap option_fmap option_map]. do 2 f_equal. cbn [fst snd].
    assert (length c.2 - length c'.2 = 6 + length seps' + 3)%nat as ->
      by (rewrite Hc, !length_app, Hl'; cbn; lia).
    rewrite Hc, !app_assoc, take_app_le by (rewrite !length_app, Hl'; cbn; lia).
    rewrite take_ge by (rewrite !length_app, Hl'; cbn; lia).
    apply drop_app_length'. rewrite length_app. cbn. lia.
  - exfalso. destruct (with_code_match seps ds (last head) post Hne Hs Hd Hl) as [d Hd2].
    eapply find_match_None; [exact E| |exact Hd2]. apply elem_of_positions.
    exists head, (chars "status" ++ seps ++ ds ++ post). split; [done|]. by destruct (last head).
Qed.
