(* ===== verification/Cooldown.v ===== *)
(** * Provider cooldowns (pkg/providers/cooldown.go)

    The per-provider failure counters and cooldown timers of the fallback
    chain.  Every operation takes the clock reading [now] that the code gets
    from [nowFunc]; a run of operations with a clock that never goes back is a
    sequence of [step]s. *)
From stdpp Require Import base gmap strings list fin_maps.
From Stdlib Require Import ZArith Lia.
From S2P Require Import Prelude ProviderTypes.
#[local] Open Scope Z_scope.

(** ** State *)
Record cooldownEntry := mk_cooldownEntry {
  ErrorCount : Z;
  FailureCounts : gmap FailoverReason Z;
  CooldownEnd : time;
  DisabledUntil : time;
  DisabledReason : option FailoverReason;
  LastFailure : time;
}.

Record CooldownTracker := mk_CooldownTracker {
  entries : gmap string cooldownEntry;
  failureWindow : duration;
}.

Definition defaultFailureWindow : duration := 24 * hour.
Definition NewCooldownTracker : CooldownTracker :=
  mk_CooldownTracker ∅ defaultFailureWindow.

(** ** Backoff formulas *)
Definition calculateStandardCooldown (errorCount : Z) : duration :=
  let n := Z.max 1 errorCount in
  let exp := Z.min (n - 1) 3 in
  let ms := 60_000 * 5 ^ exp in
  let ms := Z.min 3_600_000 ms in
  ms * millisecond.

Definition calculateBillingCooldown (billingErrorCount : Z) : duration :=
  let baseMs := 5 * 60 * 60 * 1000 in
  let maxMs := 24 * 60 * 60 * 1000 in
  let n := Z.max 1 billingErrorCount in
  let exp := Z.min (n - 1) 10 in
  let raw := baseMs * 2 ^ exp in
  let ms := Z.min maxMs raw in
  ms * millisecond.

(** ** Operations *)
Definition fresh_entry : cooldownEntry := mk_cooldownEntry 0 ∅ 0 0 None 0.

Definition getOrCreate (ct : CooldownTracker) (provider : string) : cooldownEntry :=
  default fresh_entry (entries ct !! provider).

Definition count_of (m : gmap FailoverReason Z) (r : FailoverReason) : Z := default 0 (m !! r).

(** The entry after a failure at [now]. *)
Definition fail_entry (window : duration) (now : time) (reason : FailoverReason)
    (entry : cooldownEntry) : cooldownEntry :=
  let reset := negb (is_zero_time (LastFailure entry))
               && (window <? time_sub now (LastFailure entry)) in
  let errs := (if reset then 0 else ErrorCount entry) + 1 in
  let counts := if reset then ∅ else FailureCounts entry in
  let counts := <[reason := count_of counts reason + 1]> counts in
  if bool_decide (reason = FailoverBilling) then
    mk_cooldownEntry errs counts (CooldownEnd entry)
      (now + calculateBillingCooldown (count_of counts FailoverBilling))
      (Some FailoverBilling) now
  else
    mk_cooldownEntry errs counts (now + calculateStandardCooldown errs)
      (DisabledUntil entry) (DisabledReason entry) now.

Definition MarkFailure (now : time) (provider : string) (reason : FailoverReason)
    (ct : CooldownTracker) : CooldownTracker :=
  mk_CooldownTracker
    (<[provider := fail_entry (failureWindow ct) now reason (getOrCreate ct provider)]> (entries ct))
    (failureWindow ct).

Definition MarkSuccess (provider : string) (ct : CooldownTracker) : CooldownTracker :=
  match entries ct !! provider with
  | None => ct
  | Some entry =>
      mk_CooldownTracker
        (<[provider := mk_cooldownEntry 0 ∅ 0 0 None (LastFailure entry)]> (entries ct))
        (failureWindow ct)
  end.

(** [!t.IsZero() && now.Before(t)]. *)
Definition pending (now t : time) : bool := negb (is_zero_time t) && (now <? t).

Definition IsAvailable (now : time) (provider : string) (ct : CooldownTracker) : bool :=
  match entries ct !! provider with
  | None => true
  | Some entry =>
      if pending now (DisabledUntil entry) then false
      else if pending now (CooldownEnd entry) then false
      else true
  end.

Definition CooldownRemaining (now : time) (provider : string) (ct : CooldownTracker) : duration :=
  match entries ct !! provider with
  | None => 0
  | Some entry =>
      let remaining := 0 in
      let remaining :=
        if pending now (DisabledUntil entry) then
          let d := time_sub (DisabledUntil entry) now in
          if remaining <? d then d else remaining
        else remaining in
      if pending now (CooldownEnd entry) then
        let d := time_sub (CooldownEnd entry) now in
        if remaining <? d then d else remaining
      else remaining
  end.

Definition ErrorCountOf (provider : string) (ct : CooldownTracker) : Z :=
  match entries ct !! provider with None => 0 | Some entry => ErrorCount entry end.

Definition FailureCount (provider : string) (reason : FailoverReason) (ct : CooldownTracker) : Z :=
  match entries ct !! provider with
  | None => 0
  | Some entry => count_of (FailureCounts entry) reason
  end.

(** ** Runs: calls in the order of the lock, with a clock that never goes back *)
Inductive step : time * CooldownTracker → time * CooldownTracker → Prop :=
| step_failure now now' p r ct :
    now <= now' → step (now, ct) (now', MarkFailure now' p r ct)
| step_success now now' p ct :
    now <= now' → step (now, ct) (now', MarkSuccess p ct)
| step_wait now now' ct :
    now <= now' → step (now, ct) (now', ct).

(** States reached from a new tracker whose clock starts after the zero time. *)
Inductive reachable : time * CooldownTracker → Prop :=
| reach_init now : 0 < now → reachable (now, NewCooldownTracker)
| reach_step s s' : reachable s → step s s' → reachable s'.

(** ** Lemmas on the formulas *)
Lemma standard_cooldown_bounds n :
  minute <= calculateStandardCooldown n <= hour.
Proof.
  unfold calculateStandardCooldown, minute, hour, minute, second, millisecond; cbv zeta.
  assert (1 <= 5 ^ Z.min (Z.max 1 n - 1) 3).
  { change 1 with (5 ^ 0) at 1. apply Z.pow_le_mono_r; lia. }
  lia.
Qed.

Lemma billing_cooldown_bounds n :
  5 * hour <= calculateBillingCooldown n <= 24 * hour.
Proof.
  unfold calculateBillingCooldown, hour, minute, second, millisecond; cbv zeta.
  assert (1 <= 2 ^ Z.min (Z.max 1 n - 1) 10).
  { change 1 with (2 ^ 0) at 1. apply Z.pow_le_mono_r; lia. }
  lia.
Qed.

#[export] Hint Resolve standard_cooldown_bounds billing_cooldown_bounds : tiny.

(** ** The invariant of an entry *)
Definition sum_counts (m : gmap FailoverReason Z) : Z :=
  foldr (λ r acc, count_of m r + acc) 0 all_reasons.

Record entry_ok (now : time) (e : cooldownEntry) : Prop := {
  ok_total : ErrorCount e = sum_counts (FailureCounts e);
  ok_counts r : 0 <= count_of (FailureCounts e) r;
  ok_last : 0 < LastFailure e <= now;
  ok_end : 0 <= CooldownEnd e <= LastFailure e + hour;
  ok_disabled : 0 <= DisabledUntil e <= LastFailure e + 24 * hour;
  ok_reason : DisabledReason e = Some FailoverBilling ↔ DisabledUntil e ≠ 0;
}.

Definition tracker_ok (s : time * CooldownTracker) : Prop :=
  0 < s.1 ∧ ∀ p e, entries s.2 !! p = Some e → entry_ok s.1 e.

Lemma sum_counts_empty : sum_counts ∅ = 0.
Proof. reflexivity. Qed.

Lemma count_of_insert m r r' z :
  count_of (<[r := z]> m) r' = if decide (r = r') then z else count_of m r'.
Proof. unfold count_of. rewrite lookup_insert. by case_decide. Qed.

Lemma sum_counts_incr m r :
  sum_counts (<[r := count_of m r + 1]> m) = sum_counts m + 1.
Proof. unfold sum_counts, all_reasons. simpl. rewrite !count_of_insert. destruct r; simpl; lia. Qed.

Lemma entry_ok_mono now now' e : now <= now' → entry_ok now e → entry_ok now' e.
Proof. intros H []. constructor; auto. lia. Qed.

Lemma fail_entry_ok window now now' reason e :
  0 < now → now <= now' → (e = fresh_entry ∨ entry_ok now e) →
  entry_ok now' (fail_entry window now' reason e).
Proof.
  intros Hpos Hle He. unfold fail_entry.
  set (reset := negb _ && _).
  set (counts := if reset then ∅ else FailureCounts e).
  set (errs := if reset then 0 else ErrorCount e).
  assert (errs = sum_counts counts ∧ (∀ r, 0 <= count_of counts r)) as [Hsum Hnn].
  { unfold errs, counts. destruct reset; [by split|].
    destruct He as [->|[]]; [by split|]. auto. }
  assert (0 <= CooldownEnd e <= now' + hour ∧ 0 <= DisabledUntil e <= now' + 24 * hour
    ∧ (DisabledReason e = Some FailoverBilling ↔ DisabledUntil e ≠ 0)) as (He1 & He2 & He3).
  { unfold_time.
    destruct He as [->|[? ? ? Hce Hdu ?]]; simpl; [split_and!; [lia..|done]|].
    unfold hour, minute, second in Hce, Hdu. split_and!; [lia..|done]. }
  pose proof (standard_cooldown_bounds (errs + 1)).
  pose proof (billing_cooldown_bounds
    (count_of (<[reason:=count_of counts reason + 1]> counts) FailoverBilling)).
  assert (∀ r, 0 <= count_of (<[reason:=count_of counts reason + 1]> counts) r).
  { intros r. rewrite count_of_insert. pose proof (Hnn r). pose proof (Hnn reason).
    case_decide; lia. }
  case_bool_decide; constructor; simpl; rewrite ?sum_counts_incr; unfold_time; auto; try lia.
  split; [intros _; lia|done].
Qed.

Lemma MarkFailure_lookup now p r ct q :
  entries (MarkFailure now p r ct) !! q =
  if decide (p = q) then Some (fail_entry (failureWindow ct) now r (getOrCreate ct p))
  else entries ct !! q.
Proof. simpl. apply lookup_insert. Qed.

Lemma MarkSuccess_lookup p ct q :
  entries (MarkSuccess p ct) !! q =
  if decide (p = q)
  then (λ e, mk_cooldownEntry 0 ∅ 0 0 None (LastFailure e)) <$> entries ct !! q
  else entries ct !! q.
Proof.
  unfold MarkSuccess. case_decide as E; subst.
  - destruct (entries ct !! q) eqn:H; simpl; [by rewrite lookup_insert_eq|done].
  - destruct (entries ct !! p) eqn:H; simpl; [by rewrite lookup_insert_ne|done].
Qed.

Lemma getOrCreate_ok now ct p :
  tracker_ok (now, ct) → getOrCreate ct p = fresh_entry ∨ entry_ok now (getOrCreate ct p).
Proof.
  intros [_ H]. unfold getOrCreate. simpl in H.
  destruct (entries ct !! p) eqn:E; simpl; eauto.
Qed.

Lemma step_ok s s' : tracker_ok s → step s s' → tracker_ok s'.
Proof.
  intros Hok Hs. destruct Hs as [now now' p r ct Hle|now now' p ct Hle|now now' ct Hle];
    destruct Hok as [Hpos He]; (split; [simpl in *; lia|]); intros q e; cbn [snd fst].
  - rewrite MarkFailure_lookup. case_decide as E; [|eauto using entry_ok_mono].
    intros [= <-]. eapply fail_entry_ok; [exact Hpos|done|]. by apply getOrCreate_ok.
  - rewrite MarkSuccess_lookup. case_decide as E; [|eauto using entry_ok_mono].
    intros (e' & Hl & ->)%fmap_Some. destruct (He _ _ Hl).
    constructor; simpl in *; unfold_time; try lia; try done.
  - eauto using entry_ok_mono.
Qed.

Lemma reachable_ok s : reachable s → tracker_ok s.
Proof.
  induction 1 as [now Hpos|s s' _ IH Hs]; [|by eapply step_ok].
  split; [done|]. intros ? ? H. cbn in H. by rewrite lookup_empty in H.
Qed.

(** C24: in every state the tracker can reach, each entry's error count is the
    sum of its per-reason counts, no counter is negative, a standard cooldown
    ends at most one hour and a billing disable at most 24 hours after the
    last failure, and the disable reason is billing exactly when a disable
    time is set. *)
Theorem cooldown_invariant (now : time) (ct : CooldownTracker) (p : string) (e : cooldownEntry) :
  reachable (now, ct) → entries ct !! p = Some e → entry_ok now e.
Proof.
  intros Hr. apply (proj2 (reachable_ok _ Hr) p).
Qed.

(** ** Availability *)
Definition blocked_until (e : cooldownEntry) : time := Z.max (DisabledUntil e) (CooldownEnd e).

Lemma IsAvailable_spec now e p ct t :
  entries ct !! p = Some e → entry_ok now e → 0 < t →
  IsAvailable t p ct = (blocked_until e <=? t).
Proof.
  intros Hl [] Ht. unfold IsAvailable, pending, is_zero_time, blocked_until. rewrite Hl.
  destruct (Z.eqb_spec (DisabledUntil e) 0), (Z.eqb_spec (CooldownEnd e) 0); simpl;
    repeat case_match; bool_nums; symmetry;
    (apply Z.leb_le || apply Z.leb_gt); lia.
Qed.

Lemma CooldownRemaining_spec now e p ct :
  entries ct !! p = Some e → entry_ok now e →
  CooldownRemaining now p ct = Z.max 0 (blocked_until e - now).
Proof.
  intros Hl [? ? ? He Hd ?].
  unfold_time.
  assert (∀ t, t <= LastFailure e + 24 * 3600000000000 → now < t → time_sub t now = t - now) as Hsub.
  { intros. unfold time_sub, int64_min, int64_max. lia. }
  unfold CooldownRemaining, pending, is_zero_time, blocked_until. rewrite Hl.
  destruct (Z.eqb_spec (DisabledUntil e) 0), (Z.eqb_spec (CooldownEnd e) 0); simpl;
    repeat case_match; bool_nums; rewrite ?Hsub in * by lia; lia.
Qed.

(** The remaining cooldown the tracker reports is exact in every reachable
    state: it is between 0 and 24 hours, the provider stays unavailable at
    every instant before it has passed, and it is available once it has. *)
Lemma remaining_is_exact (now : time) (ct : CooldownTracker) (p : string) :
  reachable (now, ct) →
  let d := CooldownRemaining now p ct in
  0 <= d <= 24 * hour
  ∧ (∀ t, now <= t < now + d → IsAvailable t p ct = false)
  ∧ (∀ t, now + d <= t → IsAvailable t p ct = true)
  ∧ (IsAvailable now p ct = true ↔ d = 0).
Proof.
  intros Hr d. subst d.
  destruct (entries ct !! p) as [e|] eqn:Hl.
  2:{ unfold CooldownRemaining, IsAvailable. rewrite Hl.
      split_and!; [vm_compute; congruence..|intros; lia|done|done]. }
  assert (entry_ok now e) as Hok.
  { by apply (proj2 (reachable_ok _ Hr) p). }
  rewrite (CooldownRemaining_spec now e p ct Hl Hok).
  pose proof (ok_last _ _ Hok). pose proof (ok_end _ _ Hok). pose proof (ok_disabled _ _ Hok).
  assert (0 <= Z.max 0 (blocked_until e - now) <= 24 * hour) as Hb.
  { unfold blocked_until; unfold_time; lia. }
  split; [exact Hb|]. split_and!.
  - intros t Ht. rewrite (IsAvailable_spec now e) by (done || lia). apply Z.leb_gt. lia.
  - intros t Ht. rewrite (IsAvailable_spec now e) by (done || lia). apply Z.leb_le. lia.
  - rewrite (IsAvailable_spec now e) by (done || lia). rewrite Z.leb_le. lia.
Qed.

(** ** Streaks of failures *)

(** Failures of [p] with reason [r] at the instants [ts], in order. *)
Definition fail_at (p : string) (r : FailoverReason) (ct : CooldownTracker) (ts : list time) :
    CooldownTracker :=
  foldl (λ ct t, MarkFailure t p r ct) ct ts.

(** Increasing instants, none further than [w] after the one before. *)
Fixpoint within (w : duration) (prev : time) (ts : list time) : Prop :=
  match ts with
  | [] => True
  | t :: ts' => prev <= t <= prev + w ∧ within w t ts'
  end.

Lemma within_last w prev ts : within w prev ts → 0 <= w → prev <= default prev (last ts).
Proof.
  revert prev. induction ts as [|t ts IH]; intros prev; [simpl; lia|].
  intros [? H] ?. apply IH in H; [|done]. rewrite last_cons.
  destruct (last ts); simpl in *; lia.
Qed.

Lemma fail_entry_next w now r e :
  0 < LastFailure e → LastFailure e <= now <= LastFailure e + w → 0 <= w <= int64_max →
  r ≠ FailoverBilling →
  fail_entry w now r e =
  mk_cooldownEntry (ErrorCount e + 1)
    (<[r := count_of (FailureCounts e) r + 1]> (FailureCounts e))
    (now + calculateStandardCooldown (ErrorCount e + 1)) (DisabledUntil e) (DisabledReason e) now.
Proof.
  intros ? ? Hw Hr. unfold fail_entry, time_sub, int64_min, int64_max in *.
  rewrite (proj2 (Z.ltb_ge _ _)) by lia. rewrite andb_false_r.
  by rewrite bool_decide_eq_false_2 by done.
Qed.

Lemma fail_at_entry p r ts ct e w :
  failureWindow ct = w → 0 <= w <= int64_max → r ≠ FailoverBilling →
  entries ct !! p = Some e → 0 < LastFailure e → within w (LastFailure e) ts → ts ≠ [] →
  ∃ e', entries (fail_at p r ct ts) !! p = Some e'
    ∧ ErrorCount e' = ErrorCount e + Z.of_nat (length ts)
    ∧ CooldownEnd e' = default 0 (last ts) + calculateStandardCooldown (ErrorCount e + Z.of_nat (length ts))
    ∧ DisabledUntil e' = DisabledUntil e.
Proof.
  intros Hw Hb Hr. revert ct e Hw.
  induction ts as [|t ts IH]; intros ct e Hw Hl Hpos Hin Hne; [done|].
  destruct Hin as [Ht Hin].
  assert (entries (MarkFailure t p r ct) !! p = Some (fail_entry w t r e)) as Hl'.
  { rewrite MarkFailure_lookup, decide_True by done. unfold getOrCreate. by rewrite Hl, Hw. }
  rewrite (fail_entry_next w t r e) in Hl' by (done || lia).
  destruct ts as [|t' ts].
  - eexists. split; [exact Hl'|]. simpl. split_and!; try done; lia.
  - destruct (IH (MarkFailure t p r ct) _ Hw Hl') as (e' & ? & He & Hc & Hd);
      [simpl in *; lia|done|done|].
    exists e'. split; [done|]. simpl in *. rewrite He, Hc, Hd.
    replace (ErrorCount e + 1 + Z.of_nat (S (length ts)))
      with (ErrorCount e + Z.of_nat (S (S (length ts)))) by lia.
    split_and!; try done; lia.
Qed.

(** Exponential backoff of a failing provider.  From a tracker without an
    entry for [p], [n] failures with a retriable, non-billing reason, each at
    most the failure window (24 h) after the previous one, leave an error
    count of [n], and the provider is unavailable at every later instant up to
    the last failure plus min(1h, 1min * 5^min(n-1,3)) and available from then
    on. *)
Lemma failure_streak_backoff (ct : CooldownTracker) (p : string) (r : FailoverReason)
    (t : time) (ts : list time) :
  entries ct !! p = None → failureWindow ct = defaultFailureWindow → r ≠ FailoverBilling →
  0 < t → within defaultFailureWindow t ts →
  let n := 1 + Z.of_nat (length ts) in
  let ct' := fail_at p r ct (t :: ts) in
  let end' := default t (last ts) + Z.min hour (minute * 5 ^ Z.min (n - 1) 3) in
  ErrorCountOf p ct' = n
  ∧ ∀ now, 0 < now → IsAvailable now p ct' = (end' <=? now).
Proof.
  intros Hl Hw Hr Ht Hin n ct' end'.
  set (e1 := fail_entry defaultFailureWindow t r fresh_entry).
  assert (entries (MarkFailure t p r ct) !! p = Some e1) as Hl1.
  { rewrite MarkFailure_lookup, decide_True by done. unfold getOrCreate. by rewrite Hl, Hw. }
  assert (ErrorCount e1 = 1 ∧ CooldownEnd e1 = t + calculateStandardCooldown 1
    ∧ DisabledUntil e1 = 0 ∧ LastFailure e1 = t) as (He1 & Hc1 & Hd1 & Hf1).
  { unfold e1, fail_entry. by rewrite bool_decide_eq_false_2. }
  assert (∃ e', entries ct' !! p = Some e' ∧ ErrorCount e' = n
    ∧ CooldownEnd e' = default t (last ts) + calculateStandardCooldown n
    ∧ DisabledUntil e' = 0) as (e' & Hl' & He & Hc & Hd).
  { unfold ct', n. destruct ts as [|t' ts]; [by eauto|].
    destruct (fail_at_entry p r (t' :: ts) (MarkFailure t p r ct) e1 defaultFailureWindow)
      as (e' & ? & He & Hc & Hd); try done; [lia|by rewrite Hf1|].
    exists e'. rewrite He, Hc, Hd, He1. split_and!; try done; try lia.
    rewrite last_cons. by destruct (last ts). }
  unfold ErrorCountOf, IsAvailable. rewrite Hl'. split; [done|]. intros now Hnow.
  assert (end' = CooldownEnd e') as ->.
  { rewrite Hc. unfold end'. f_equal. unfold calculateStandardCooldown.
    rewrite (Z.max_r 1 n) by lia. unfold_time.
    generalize (5 ^ Z.min (n - 1) 3). lia. }
  unfold pending, is_zero_time. rewrite Hd. simpl.
  assert (0 < CooldownEnd e') as Hpos.
  { rewrite Hc. pose proof (standard_cooldown_bounds n).
    pose proof (within_last _ _ _ Hin). unfold defaultFailureWindow in *. unfold_time. lia. }
  rewrite (proj2 (Z.eqb_neq _ _)) by lia. simpl.
  case_match; bool_nums; symmetry; [apply Z.leb_gt|apply Z.leb_le]; lia.
Qed.

Lemma failure_streak_backoff_witness :
  ErrorCountOf "openai"
    (fail_at "openai" FailoverRateLimit NewCooldownTracker [hour; hour + minute; hour + 2 * minute])
  = 3
  ∧ ∀ now, 0 < now →
    IsAvailable now "openai"
      (fail_at "openai" FailoverRateLimit NewCooldownTracker
         [hour; hour + minute; hour + 2 * minute])
    = (hour + 2 * minute + 25 * minute <=? now).
Proof.
  pose proof (failure_streak_backoff NewCooldownTracker "openai" FailoverRateLimit hour
    [hour + minute; hour + 2 * minute]) as H.
  apply H; [reflexivity|reflexivity|discriminate|reflexivity|].
  vm_compute; repeat split; discriminate.
Defined.

(** A success forgives everything: after [MarkSuccess] the provider is
    available at every instant with all its counters at zero, its next failure
    is counted as the first, and no other provider is affected. *)
Lemma success_resets (ct : CooldownTracker) (p : string) :
  let ct' := MarkSuccess p ct in
  (∀ now, IsAvailable now p ct' = true ∧ CooldownRemaining now p ct' = 0)
  ∧ ErrorCountOf p ct' = 0
  ∧ (∀ r, FailureCount p r ct' = 0)
  ∧ (∀ now r, ErrorCountOf p (MarkFailure now p r ct') = 1)
  ∧ (∀ q now, q ≠ p →
       IsAvailable now q ct' = IsAvailable now q ct
       ∧ ErrorCountOf q ct' = ErrorCountOf q ct).
Proof.
  intros ct'. subst ct'.
  assert (entries (MarkSuccess p ct) !! p = None
    ∨ ∃ lf, entries (MarkSuccess p ct) !! p = Some (mk_cooldownEntry 0 ∅ 0 0 None lf)) as Hp.
  { rewrite MarkSuccess_lookup, decide_True by done. destruct (_ !! p); simpl; eauto. }
  split_and!.
  - intros now. unfold IsAvailable, CooldownRemaining. by destruct Hp as [->|[lf ->]].
  - unfold ErrorCountOf. by destruct Hp as [->|[lf ->]].
  - intros r. unfold FailureCount. by destruct Hp as [->|[lf ->]].
  - intros now r. unfold ErrorCountOf.
    rewrite MarkFailure_lookup, decide_True by done.
    unfold getOrCreate, fail_entry.
    destruct Hp as [->|[lf ->]]; simpl; repeat case_match; reflexivity.
  - intros q now Hq. unfold IsAvailable, ErrorCountOf.
    by rewrite MarkSuccess_lookup, decide_False by done.
Qed.

(** A tracker after one failure, for the concrete runs. *)
Definition sample_tracker : CooldownTracker :=
  MarkFailure hour "openai" FailoverBilling NewCooldownTracker.

Lemma sample_reachable : reachable (hour, sample_tracker).
Proof.
  apply (reach_step (hour, NewCooldownTracker)); [apply reach_init; reflexivity|].
  apply step_failure. reflexivity.
Qed.

Lemma cooldown_invariant_witness :
  ∃ e, entries sample_tracker !! "openai" = Some e ∧ entry_ok hour e.
Proof.
  eexists. split; [vm_compute; reflexivity|].
  apply (cooldown_invariant hour sample_tracker "openai"); [apply sample_reachable|].
  vm_compute; reflexivity.
Defined.

Lemma remaining_is_exact_witness :
  CooldownRemaining hour "openai" sample_tracker = 5 * hour
  ∧ ∀ t, hour <= t < 6 * hour → IsAvailable t "openai" sample_tracker = false.
Proof.
  split; [reflexivity|].
  destruct (remaining_is_exact hour sample_tracker "openai" sample_reachable)
    as (_ & H & _).
  intros t Ht. apply H. exact Ht.
Defined.
