(* ===== verification/Fallback.v ===== *)
(** * Model fallback (pkg/providers/model_ref.go, pkg/providers/fallback.go)

    Parsing of model references, the deduplicated candidate list, and the
    fallback chain that tries the candidates in order with the cooldown
    tracker of [Cooldown] and the classification of [ErrorClass]; and runs of the
    chain that share the tracker, interleaved between its operations. *)
From stdpp Require Import base gmap strings list relations.
From Stdlib Require Import Ascii ZArith Lia.
From S2P Require Import Prelude GoStrings ProviderTypes Cooldown Regex ErrorClass.

(** ** Model references *)
Record ModelRef := mk_ModelRef {
  ref_Provider : string;
  ref_Model : string;
}.

Definition NormalizeProvider (provider : string) : string :=
  let p := to_lower (trim_space provider) in
  if bool_decide (p = "z.ai") || bool_decide (p = "z-ai") then "zai"
  else if bool_decide (p = "opencode-zen") then "opencode"
  else if bool_decide (p = "qwen") then "qwen-portal"
  else if bool_decide (p = "kimi-code") then "kimi-coding"
  else if bool_decide (p = "gpt") then "openai"
  else if bool_decide (p = "claude") then "anthropic"
  else if bool_decide (p = "glm") then "zhipu"
  else if bool_decide (p = "google") then "gemini"
  else p.

Definition ParseModelRef (raw defaultProvider : string) : option ModelRef :=
  let raw := trim_space raw in
  if bool_decide (raw = "") then None
  else
    let no_slash := Some (mk_ModelRef (NormalizeProvider defaultProvider) raw) in
    match cut raw "/" with
    | Some (p, m) =>
        if bool_decide (p = "") then no_slash     (* idx = 0 *)
        else
          let provider := NormalizeProvider p in
          let model := trim_space m in
          if bool_decide (model = "") then None else Some (mk_ModelRef provider model)
    | None => no_slash
    end.

Definition ModelKey (provider model : string) : string :=
  NormalizeProvider provider +:+ "/" +:+ to_lower (trim_space model).

(** ** Candidates *)
Record FallbackCandidate := mk_FallbackCandidate {
  c_Provider : string;
  c_Model : string;
}.

#[export] Instance FallbackCandidate_eq_dec : EqDecision FallbackCandidate.
Proof. solve_decision. Defined.

Definition addCandidate (defaultProvider : string)
    (acc : gset string * list FallbackCandidate) (raw : string) :
    gset string * list FallbackCandidate :=
  let '(seen, candidates) := acc in
  match ParseModelRef raw defaultProvider with
  | None => acc
  | Some ref =>
      let key := ModelKey (ref_Provider ref) (ref_Model ref) in
      if bool_decide (key ∈ seen) then acc
      else ({[key]} ∪ seen,
            candidates ++ [mk_FallbackCandidate (ref_Provider ref) (ref_Model ref)])
  end.

Definition ResolveCandidates (cfg : ModelConfig) (defaultProvider : string) :
    list FallbackCandidate :=
  let acc := addCandidate defaultProvider (∅, []) (mc_Primary cfg) in
  snd (foldl (addCandidate defaultProvider) acc (mc_Fallbacks cfg)).

(** ** Attempts and results *)
Inductive AttemptError :=
| InCooldown (remaining : duration)      (* provider %s in cooldown (%s remaining) *)
| Plain (e : error)
| Classified (fe : FailoverError).

Record FallbackAttempt := mk_FallbackAttempt {
  a_Provider : string;
  a_Model : string;
  a_Error : AttemptError;
  a_Reason : option FailoverReason;
  a_Duration : duration;
  a_Skipped : bool;
}.

Record FallbackResult := mk_FallbackResult {
  f_Response : LLMResponse;
  f_Provider : string;
  f_Model : string;
  f_Attempts : list FallbackAttempt;
}.

Inductive FallbackError :=
| NoCandidates
| Canceled
| Unclassified (provider model : string) (e : error)
| NonRetriable (fe : FailoverError)
| Exhausted (Attempts : list FallbackAttempt).

(** What the world does in one iteration of the loop: the context before and
    after the call, the clock at the three places that read it, the call. *)
Record iteration := mk_iteration {
  canceled_before : bool;
  at_check : time;
  at_remaining : time;
  run_call : string → string → result error LLMResponse;
  elapsed : duration;
  canceled_after : bool;
  at_mark : time;
}.

Definition skipped_attempt (it : iteration) (c : FallbackCandidate) (ct : CooldownTracker) :
    FallbackAttempt :=
  mk_FallbackAttempt (c_Provider c) (c_Model c)
    (InCooldown (CooldownRemaining (at_remaining it) (c_Provider c) ct))
    (Some FailoverRateLimit) 0 true.

Definition failed_attempt (it : iteration) (c : FallbackCandidate) (fe : FailoverError) :
    FallbackAttempt :=
  mk_FallbackAttempt (c_Provider c) (c_Model c) (Classified fe) (Some (fe_Reason fe))
    (elapsed it) false.

Definition plain_attempt (it : iteration) (c : FallbackCandidate) (e : error)
    (reason : option FailoverReason) : FallbackAttempt :=
  mk_FallbackAttempt (c_Provider c) (c_Model c) (Plain e) reason (elapsed it) false.

(** ** Execute

    [env i] is the world at the [i]-th candidate. *)
Fixpoint execute_loop (env : nat → iteration) (i : nat) (candidates : list FallbackCandidate)
    (attempts : list FallbackAttempt) (ct : CooldownTracker) :
    result FallbackError FallbackResult * CooldownTracker :=
  match candidates with
  | [] => (Err (Exhausted attempts), ct)
  | c :: rest =>
      let it := env i in
      if canceled_before it then (Err Canceled, ct)
      else if negb (IsAvailable (at_check it) (c_Provider c) ct) then
        execute_loop env (S i) rest (attempts ++ [skipped_attempt it c ct]) ct
      else
        match run_call it (c_Provider c) (c_Model c) with
        | Ok resp =>
            (Ok (mk_FallbackResult resp (c_Provider c) (c_Model c) attempts),
             MarkSuccess (c_Provider c) ct)
        | Err err =>
            if canceled_after it then (Err Canceled, ct)
            else
              match ClassifyError (Some err) (c_Provider c) (c_Model c) with
              | None => (Err (Unclassified (c_Provider c) (c_Model c) err), ct)
              | Some failErr =>
                  if negb (IsRetriable failErr) then (Err (NonRetriable failErr), ct)
                  else
                    let ct := MarkFailure (at_mark it) (c_Provider c) (fe_Reason failErr) ct in
                    let attempts := attempts ++ [failed_attempt it c failErr] in
                    if bool_decide (rest = []) then (Err (Exhausted attempts), ct)
                    else execute_loop env (S i) rest attempts ct
              end
        end
  end.

Definition Execute (env : nat → iteration) (candidates : list FallbackCandidate)
    (ct : CooldownTracker) : result FallbackError FallbackResult * CooldownTracker :=
  match candidates with
  | [] => (Err NoCandidates, ct)
  | _ => execute_loop env 0 candidates [] ct
  end.

(** ** ExecuteImage *)
Fixpoint execute_image_loop (env : nat → iteration) (i : nat)
    (candidates : list FallbackCandidate) (attempts : list FallbackAttempt) :
    result FallbackError FallbackResult :=
  match candidates with
  | [] => Err (Exhausted attempts)
  | c :: rest =>
      let it := env i in
      if canceled_before it then Err Canceled
      else
        match run_call it (c_Provider c) (c_Model c) with
        | Ok resp => Ok (mk_FallbackResult resp (c_Provider c) (c_Model c) attempts)
        | Err err =>
            if canceled_after it then Err Canceled
            else
              let errMsg := to_lower (err_text err) in
              if IsImageDimensionError errMsg || IsImageSizeError errMsg then
                Err (NonRetriable
                       (mk_FailoverError FailoverFormat (c_Provider c) (c_Model c) 0 err))
              else
                let attempts := attempts ++ [plain_attempt it c err None] in
                if bool_decide (rest = []) then Err (Exhausted attempts)
                else execute_image_loop env (S i) rest attempts
        end
  end.

Definition ExecuteImage (env : nat → iteration) (candidates : list FallbackCandidate) :
    result FallbackError FallbackResult :=
  match candidates with
  | [] => Err NoCandidates
  | _ => execute_image_loop env 0 candidates []
  end.

(** ** Passing over candidates: the specification of the loop *)

(** Candidate [c] is passed over in iteration [it]: it is in cooldown, or its
    call fails with a retriable error, which is recorded in the tracker. *)
Inductive passes (it : iteration) (c : FallbackCandidate) (ct : CooldownTracker) :
    FallbackAttempt → CooldownTracker → Prop :=
| passes_skip :
    canceled_before it = false → IsAvailable (at_check it) (c_Provider c) ct = false →
    passes it c ct (skipped_attempt it c ct) ct
| passes_fail err fe :
    canceled_before it = false → IsAvailable (at_check it) (c_Provider c) ct = true →
    run_call it (c_Provider c) (c_Model c) = Err err → canceled_after it = false →
    ClassifyError (Some err) (c_Provider c) (c_Model c) = Some fe → IsRetriable fe = true →
    passes it c ct (failed_attempt it c fe)
      (MarkFailure (at_mark it) (c_Provider c) (fe_Reason fe) ct).

(** All of [cs] are passed over, the first of them at iteration [i]. *)
Inductive passes_all (env : nat → iteration) :
    nat → list FallbackCandidate → CooldownTracker →
    list FallbackAttempt → CooldownTracker → Prop :=
| passes_nil i ct : passes_all env i [] ct [] ct
| passes_cons i c cs ct a ct1 atts ct2 :
    passes (env i) c ct a ct1 → passes_all env (S i) cs ct1 atts ct2 →
    passes_all env i (c :: cs) ct (a :: atts) ct2.

(** The call of candidate [c] answers [resp]. *)
Definition answers (it : iteration) (c : FallbackCandidate) (ct : CooldownTracker)
    (resp : LLMResponse) : Prop :=
  canceled_before it = false ∧ IsAvailable (at_check it) (c_Provider c) ct = true
  ∧ run_call it (c_Provider c) (c_Model c) = Ok resp.

#[export] Hint Constructors passes passes_all : tiny.

Lemma passes_not_answers it c ct a ct' resp : passes it c ct a ct' → ¬ answers it c ct resp.
Proof. intros [] (? & ? & ?); congruence. Qed.

Lemma passes_fun it c ct a1 ct1 a2 ct2 :
  passes it c ct a1 ct1 → passes it c ct a2 ct2 → a1 = a2 ∧ ct1 = ct2.
Proof. intros [] []; try congruence; split; congruence. Qed.

(** One iteration of the loop: the candidate is passed over, or the loop ends. *)
Lemma execute_step env i c rest atts ct :
  (∃ a ct1, passes (env i) c ct a ct1
     ∧ execute_loop env i (c :: rest) atts ct = execute_loop env (S i) rest (atts ++ [a]) ct1)
  ∨ (∃ resp, answers (env i) c ct resp
     ∧ execute_loop env i (c :: rest) atts ct
       = (Ok (mk_FallbackResult resp (c_Provider c) (c_Model c) atts),
          MarkSuccess (c_Provider c) ct))
  ∨ (∃ e, (∀ a ct1, ¬ passes (env i) c ct a ct1) ∧ (∀ resp, ¬ answers (env i) c ct resp)
     ∧ (∀ l, e ≠ Exhausted l) ∧ execute_loop env i (c :: rest) atts ct = (Err e, ct)).
Proof.
  cbn [execute_loop]. cbv zeta.
  destruct (canceled_before (env i)) eqn:Hcb.
  { right; right. exists Canceled. split_and!; [intros ?? []; congruence| |done|done].
    intros ? (?&?&?); congruence. }
  destruct (IsAvailable _ _ ct) eqn:Hav; cbn [negb].
  2:{ left. eauto with tiny. }
  destruct (run_call _ _ _) as [resp|err] eqn:Hrun.
  { right; left. exists resp. by split. }
  destruct (canceled_after (env i)) eqn:Hca.
  { right; right. exists Canceled. split_and!; [intros ?? []; congruence| |done|done].
    intros ? (?&?&?); congruence. }
  destruct (ClassifyError _ _ _) as [fe|] eqn:Hcl.
  2:{ right; right. eexists (Unclassified _ _ _).
      split_and!; [intros ?? []; congruence|intros ? (?&?&?); congruence|done|done]. }
  destruct (IsRetriable fe) eqn:Hr; cbn [negb].
  2:{ right; right. exists (NonRetriable fe).
      split_and!; [intros ?? []; congruence|intros ? (?&?&?); congruence|done|done]. }
  left. do 2 eexists. split; [by eapply passes_fail|].
  case_bool_decide as E; [by subst|done].
Qed.

Lemma execute_loop_ok env cs : ∀ i atts ct res ct',
  execute_loop env i cs atts ct = (Ok res, ct') ↔
  ∃ pre c post atts' ct1, cs = pre ++ c :: post
    ∧ passes_all env i pre ct atts' ct1
    ∧ answers (env (i + length pre)%nat) c ct1 (f_Response res)
    ∧ f_Provider res = c_Provider c ∧ f_Model res = c_Model c
    ∧ f_Attempts res = atts ++ atts'
    ∧ ct' = MarkSuccess (c_Provider c) ct1.
Proof.
  induction cs as [|c cs IH]; intros i atts ct res ct'.
  { split; [done|]. intros ([|] & ? & ? & ? & ? & ? & _); done. }
  destruct (execute_step env i c cs atts ct)
    as [(a & ct1 & Hp & ->)|[(resp & Ha & ->)|(e & Hp & Ha & _ & ->)]].
  - rewrite IH. split.
    + intros (pre & d & post & atts' & ct2 & -> & Hall & Hans & ? & ? & Hl & ?).
      exists (c :: pre), d, post, (a :: atts'), ct2.
      simpl length. rewrite Nat.add_succ_r. rewrite <-app_assoc in Hl.
      split_and!; eauto with tiny.
    + intros (pre & d & post & atts' & ct2 & Heq & Hall & Hans & ? & ? & Hl & ?).
      destruct pre as [|d' pre]; simplify_eq/=; inversion Hall; subst.
      { rewrite Nat.add_0_r in Hans. by destruct (passes_not_answers _ _ _ _ _ _ Hp Hans). }
      match goal with H : passes (env i) _ _ _ _ |- _ =>
        destruct (passes_fun _ _ _ _ _ _ _ Hp H) as [<- <-] end.
      rewrite Nat.add_succ_r in Hans.
      do 5 eexists. split_and!; [done|done|done|done|done| |done].
      by rewrite Hl, <-app_assoc.
  - split.
    + intros [= <- <-]. exists [], c, cs, [], ct. rewrite Nat.add_0_r, app_nil_r.
      split_and!; eauto with tiny.
    + intros (pre & d & post & atts' & ct2 & Heq & Hall & Hans & Hf & Hm & Hl & ->).
      destruct pre as [|d' pre]; simplify_eq/=; inversion Hall; subst.
      * rewrite Nat.add_0_r in Hans. destruct Ha as (?&?&?), Hans as (?&?&?).
        rewrite app_nil_r in Hl. destruct res; simpl in *. congruence.
      * by edestruct passes_not_answers.
  - split; [done|]. intros (pre & d & post & atts' & ct2 & Heq & Hall & Hans & _).
    destruct pre as [|d' pre]; simplify_eq/=; inversion Hall; subst.
    + rewrite Nat.add_0_r in Hans. by apply Ha in Hans.
    + by edestruct Hp.
Qed.

Lemma execute_loop_exhausted env cs : ∀ i atts ct l ct',
  execute_loop env i cs atts ct = (Err (Exhausted l), ct') ↔
  ∃ atts', l = atts ++ atts' ∧ passes_all env i cs ct atts' ct'.
Proof.
  induction cs as [|c cs IH]; intros i atts ct l ct'.
  { simpl. split.
    - intros [= <- <-]. exists []. rewrite app_nil_r. eauto with tiny.
    - intros (? & -> & H). inversion H; subst. by rewrite app_nil_r. }
  destruct (execute_step env i c cs atts ct)
    as [(a & ct1 & Hp & ->)|[(resp & Ha & ->)|(e & Hp & Ha & He & ->)]].
  - rewrite IH. split.
    + intros (atts' & -> & Hall). exists (a :: atts'). rewrite <-app_assoc. eauto with tiny.
    + intros (atts' & -> & Hall). inversion Hall; subst.
      match goal with H : passes (env i) _ _ _ _ |- _ =>
        destruct (passes_fun _ _ _ _ _ _ _ Hp H) as [<- <-] end.
      eexists. split; [|done]. by rewrite <-app_assoc.
  - split; [done|]. intros (atts' & -> & Hall). inversion Hall; subst.
    by edestruct passes_not_answers.
  - split; [intros [= -> _]; by edestruct He|].
    intros (atts' & -> & Hall). inversion Hall; subst. by edestruct Hp.
Qed.

Lemma execute_unfold env cs ct :
  cs ≠ [] → Execute env cs ct = execute_loop env 0 cs [] ct.
Proof. by destruct cs. Qed.

Lemma passes_names it c ct a ct' :
  passes it c ct a ct' → a_Provider a = c_Provider c ∧ a_Model a = c_Model c.
Proof. by intros []. Qed.

Lemma passes_all_names env i cs ct atts ct' :
  passes_all env i cs ct atts ct' →
  (λ a, (a_Provider a, a_Model a)) <$> atts = (λ c, (c_Provider c, c_Model c)) <$> cs.
Proof.
  induction 1 as [|i c cs ct a ct1 atts ct2 Hp _ IH]; [done|].
  rewrite !fmap_cons. apply passes_names in Hp as [-> ->]. by rewrite IH.
Qed.

(** C1: [Execute] returns a response exactly when some candidate answers and
    every candidate before it is passed over, that is in cooldown or failing
    with a retriable error; the response, provider and model are that
    candidate's, the attempts are those of the candidates passed over, in
    order, and the tracker records their failures and then the success. *)
Theorem execute_ok_iff (env : nat → iteration) (cs : list FallbackCandidate)
    (ct ct' : CooldownTracker) (res : FallbackResult) :
  Execute env cs ct = (Ok res, ct') ↔
  ∃ pre c post ct1, cs = pre ++ c :: post
    ∧ passes_all env 0 pre ct (f_Attempts res) ct1
    ∧ answers (env (length pre)) c ct1 (f_Response res)
    ∧ f_Provider res = c_Provider c ∧ f_Model res = c_Model c
    ∧ ct' = MarkSuccess (c_Provider c) ct1.
Proof.
  destruct cs as [|c0 cs].
  { split; [done|]. intros ([|] & ? & ? & ? & ? & _); done. }
  rewrite execute_unfold by done. rewrite execute_loop_ok. split.
  - intros (pre & c & post & atts' & ct1 & ? & Hall & ? & ? & ? & Hl & ?).
    simpl in Hl. rewrite Hl. exists pre, c, post, ct1. by split_and!.
  - intros (pre & c & post & ct1 & ? & Hall & ? & ? & ? & ?).
    exists pre, c, post, (f_Attempts res), ct1. by split_and!.
Qed.

(** [Execute] reports exhaustion exactly when there are candidates and
    every one of them is passed over; the error then lists one attempt per
    candidate, in the order of the candidates and under their names. *)
Lemma execute_exhausted_iff (env : nat → iteration) (cs : list FallbackCandidate)
    (ct ct' : CooldownTracker) (atts : list FallbackAttempt) :
  (Execute env cs ct = (Err (Exhausted atts), ct') ↔
   cs ≠ [] ∧ passes_all env 0 cs ct atts ct')
  ∧ (Execute env cs ct = (Err (Exhausted atts), ct') →
     (λ a, (a_Provider a, a_Model a)) <$> atts = (λ c, (c_Provider c, c_Model c)) <$> cs).
Proof.
  assert (Execute env cs ct = (Err (Exhausted atts), ct') ↔
    cs ≠ [] ∧ passes_all env 0 cs ct atts ct') as H.
  { destruct cs as [|c cs]; [split; [done|by intros []]|].
    rewrite execute_unfold by done. rewrite execute_loop_exhausted. simpl. split.
    - by intros (? & -> & ?).
    - intros [_ ?]. eauto. }
  split; [done|]. intros [_ Hall]%H. by eapply passes_all_names.
Qed.

(** ** The tracker during a run *)

(** [p] is blocked until [T] at least. *)
Definition blocked (p : string) (T : time) (ct : CooldownTracker) : Prop :=
  ∃ e, entries ct !! p = Some e ∧ (T <= CooldownEnd e ∨ T <= DisabledUntil e)%Z.

Lemma blocked_unavailable p T ct t :
  blocked p T ct → (0 < T)%Z → (t < T)%Z → IsAvailable t p ct = false.
Proof.
  intros (e & Hl & H) HT Ht. unfold IsAvailable, pending, is_zero_time. rewrite Hl.
  destruct (Z.eqb_spec (DisabledUntil e) 0), (Z.eqb_spec (CooldownEnd e) 0); simpl;
    repeat case_match; bool_nums; try done; lia.
Qed.

Lemma MarkFailure_blocks now p r ct : blocked p (now + minute) (MarkFailure now p r ct).
Proof.
  exists (fail_entry (failureWindow ct) now r (getOrCreate ct p)).
  rewrite MarkFailure_lookup, decide_True by done. split; [done|].
  unfold fail_entry. case_bool_decide; simpl.
  - right. pose proof (billing_cooldown_bounds
      (count_of (<[r := (count_of (if negb (is_zero_time (LastFailure (getOrCreate ct p)))
        && (failureWindow ct <? time_sub now (LastFailure (getOrCreate ct p)))%Z
        then ∅ else FailureCounts (getOrCreate ct p)) r + 1)%Z]>
        (if negb (is_zero_time (LastFailure (getOrCreate ct p)))
        && (failureWindow ct <? time_sub now (LastFailure (getOrCreate ct p)))%Z
        then ∅ else FailureCounts (getOrCreate ct p))) FailoverBilling)) as H'.
    unfold_time; lia.
  - left. match goal with |- context [calculateStandardCooldown ?n] =>
      pose proof (standard_cooldown_bounds n) end. unfold_time; lia.
Qed.

(** ** Runs of the chain that share a tracker

    Several goroutines run the chain at once, and one after the other.  A run is cut at
    the operations on the tracker: the look at the head of the loop, the call, and
    what follows it.  The log says which provider was called when, and which call
    succeeded or was recorded as a failure. *)
Inductive chain_run :=
| Trying (cs : list FallbackCandidate) (attempts : list FallbackAttempt)
| Calling (c : FallbackCandidate) (rest : list FallbackCandidate) (attempts : list FallbackAttempt)
| Ended (r : result FallbackError FallbackResult).

(** Up to the call. *)
Definition look (it : iteration) (c : FallbackCandidate) (rest : list FallbackCandidate)
    (attempts : list FallbackAttempt) (ct : CooldownTracker) : chain_run :=
  if canceled_before it then Ended (Err Canceled)
  else if negb (IsAvailable (at_check it) (c_Provider c) ct)
  then Trying rest (attempts ++ [skipped_attempt it c ct])
  else Calling c rest attempts.

(** What is logged of the end of a call. *)
Inductive call_end := CallSucceeded | FailureRecorded | NotRecorded.

(** The call and what follows it. *)
Definition after_call (it : iteration) (c : FallbackCandidate) (rest : list FallbackCandidate)
    (attempts : list FallbackAttempt) (ct : CooldownTracker) : chain_run * CooldownTracker * call_end :=
  match run_call it (c_Provider c) (c_Model c) with
  | Ok resp =>
      (Ended (Ok (mk_FallbackResult resp (c_Provider c) (c_Model c) attempts)),
       MarkSuccess (c_Provider c) ct, CallSucceeded)
  | Err err =>
      if canceled_after it then (Ended (Err Canceled), ct, NotRecorded)
      else
        match ClassifyError (Some err) (c_Provider c) (c_Model c) with
        | None => (Ended (Err (Unclassified (c_Provider c) (c_Model c) err)), ct, NotRecorded)
        | Some failErr =>
            if negb (IsRetriable failErr) then (Ended (Err (NonRetriable failErr)), ct, NotRecorded)
            else
              (Trying rest (attempts ++ [failed_attempt it c failErr]),
               MarkFailure (at_mark it) (c_Provider c) (fe_Reason failErr) ct, FailureRecorded)
        end
  end.

(** A run alone is [Execute]: the loop is its steps. *)
Lemma execute_loop_steps env i c rest attempts ct :
  execute_loop env i (c :: rest) attempts ct =
  match look (env i) c rest attempts ct with
  | Ended r => (r, ct)
  | Trying rest attempts => execute_loop env (S i) rest attempts ct
  | Calling _ _ _ =>
      match after_call (env i) c rest attempts ct with
      | (Ended r, ct, _) => (r, ct)
      | (Trying rest attempts, ct, _) => execute_loop env (S i) rest attempts ct
      | (Calling _ _ _, ct, _) => (Err Canceled, ct)
      end
  end.
Proof.
  cbn [execute_loop]. unfold look, after_call. destruct (canceled_before _); [done|].
  destruct (negb _); [done|]. destruct (run_call _ _ _) as [resp|err]; [done|].
  destruct (canceled_after _); [done|]. destruct (ClassifyError _ _ _) as [fe|]; [|done].
  destruct (negb _); [done|]. case_bool_decide as E; [by subst|done].
Qed.

(** [Execute] with the candidates it calls, in order. *)
Fixpoint execute_log (env : nat → iteration) (i : nat) (cs : list FallbackCandidate)
    (attempts : list FallbackAttempt) (ct : CooldownTracker) :
    result FallbackError FallbackResult * CooldownTracker * list FallbackCandidate :=
  match cs with
  | [] => (Err (Exhausted attempts), ct, [])
  | c :: rest =>
      match look (env i) c rest attempts ct with
      | Ended r => (r, ct, [])
      | Trying _ attempts => execute_log env (S i) rest attempts ct
      | Calling _ _ _ =>
          match after_call (env i) c rest attempts ct with
          | (Ended r, ct, _) => (r, ct, [c])
          | (Trying _ attempts, ct, _) =>
              let '(r, ct, called) := execute_log env (S i) rest attempts ct in (r, ct, c :: called)
          | (Calling _ _ _, ct, _) => (Err Canceled, ct, [c])
          end
      end
  end.
Definition ExecuteLog (env : nat → iteration) (cs : list FallbackCandidate) (ct : CooldownTracker) :
    result FallbackError FallbackResult * CooldownTracker * list FallbackCandidate :=
  match cs with [] => (Err NoCandidates, ct, []) | _ => execute_log env 0 cs [] ct end.

Lemma execute_log_erase env cs : ∀ i attempts ct,
  (execute_log env i cs attempts ct).1 = execute_loop env i cs attempts ct.
Proof.
  induction cs as [|c rest IH]; intros i attempts ct; [done|].
  rewrite execute_loop_steps. cbn [execute_log].
  destruct (look _ _ _ _ _) as [cs' att|c' cs' att|r] eqn:E; [| |done].
  - assert (cs' = rest) as -> by (revert E; unfold look; repeat case_match; by intros [= <- _]). apply IH.
  - destruct (after_call _ _ _ _ _) as [[[cs2 att2|c2 cs2 att2|r] ct2] e] eqn:E2; [|done|done].
    assert (cs2 = rest) as ->.
    { revert E2. unfold after_call. repeat case_match; try done. by intros [= <- _ _ _]. }
    rewrite <-IH. by destruct (execute_log _ _ _ _ _) as [[? ?] ?].
Qed.

Lemma ExecuteLog_Execute env cs ct : (ExecuteLog env cs ct).1 = Execute env cs ct.
Proof. destruct cs as [|c cs]; [done|]. apply execute_log_erase. Qed.

(** Every candidate is called at most once. *)
Lemma execute_log_called env cs : ∀ i attempts ct, (execute_log env i cs attempts ct).2 `sublist_of` cs.
Proof.
  induction cs as [|c rest IH]; intros i attempts ct; cbn [execute_log]; [done|].
  assert ([c] `sublist_of` c :: rest) as H1 by (apply sublist_skip, sublist_nil_l).
  destruct (look _ _ _ _ _); [apply sublist_cons, IH| |apply sublist_nil_l].
  destruct (after_call _ _ _ _ _) as [[[cs2 att2|c2 cs2 att2|r2] ct2] e]; [|done|done].
  specialize (IH (S i) att2 ct2).
  destruct (execute_log _ _ _ _ _) as [[? ?] called]. by apply sublist_skip.
Qed.

Lemma ExecuteLog_called env cs ct : (ExecuteLog env cs ct).2 `sublist_of` cs.
Proof. destruct cs as [|c cs]; [done|]. apply execute_log_called. Qed.

(** Events, with the number of the run; [EvCalled] has the time of its look,
    [EvFailed] that of its record. *)
Inductive chain_event :=
| EvCalled (run : nat) (provider : string) (t : time)
| EvSucceeded (run : nat) (provider : string)
| EvFailed (run : nat) (provider : string) (t : time).

Definition run_of (e : chain_event) : nat :=
  match e with EvCalled i _ _ | EvSucceeded i _ | EvFailed i _ _ => i end.

Record chain_world := mk_chain_world {
  cw_now : time;
  cw_runs : list chain_run;
  cw_tracker : CooldownTracker;
  cw_log : list chain_event;
}.

Definition end_event (i : nat) (p : string) (t : time) (e : call_end) : list chain_event :=
  match e with
  | CallSucceeded => [EvSucceeded i p]
  | FailureRecorded => [EvFailed i p t]
  | NotRecorded => []
  end.

(** The clock does not go back; what the world does in an iteration is free. *)
Inductive chain_step : chain_world → chain_world → Prop :=
| cs_start cs now runs ct log :
    chain_step (mk_chain_world now runs ct log) (mk_chain_world now (runs ++ [Trying cs []]) ct log)
| cs_look i it c rest attempts now runs ct log :
    runs !! i = Some (Trying (c :: rest) attempts) → (now <= at_check it)%Z →
    chain_step (mk_chain_world now runs ct log)
      (mk_chain_world (at_check it) (<[i := look it c rest attempts ct]> runs) ct
         (log ++ match look it c rest attempts ct with
                 | Calling c _ _ => [EvCalled i (c_Provider c) (at_check it)]
                 | _ => []
                 end))
| cs_call i it c rest attempts now runs ct log run' ct' e :
    runs !! i = Some (Calling c rest attempts) → (now <= at_mark it)%Z →
    after_call it c rest attempts ct = (run', ct', e) →
    chain_step (mk_chain_world now runs ct log)
      (mk_chain_world (at_mark it) (<[i := run']> runs) ct' (log ++ end_event i (c_Provider c) (at_mark it) e))
| cs_exhausted i attempts now runs ct log :
    runs !! i = Some (Trying [] attempts) →
    chain_step (mk_chain_world now runs ct log)
      (mk_chain_world now (<[i := Ended (Err (Exhausted attempts))]> runs) ct log).

Inductive chains_reachable : chain_world → Prop :=
| cr_init now : (0 < now)%Z → chains_reachable (mk_chain_world now [] NewCooldownTracker [])
| cr_step s s' : chains_reachable s → chain_step s s' → chains_reachable s'.

(** A call of [p] by run [k] is the last thing [log] says of that run. *)
Definition under_way (k : nat) (p : string) (log : list chain_event) : Prop :=
  ∃ l1 l2 t, log = l1 ++ EvCalled k p t :: l2 ∧ Forall (λ e, run_of e ≠ k) l2.

(** No call within a minute of a recorded failure, unless a call of another run, under way
    at the failure, succeeded between. *)
Definition failures_respected (log : list chain_event) : Prop :=
  ∀ l1 j p t l2 i t' l3,
    log = l1 ++ EvFailed j p t :: l2 ++ EvCalled i p t' :: l3 → (t' < t + minute)%Z →
    ∃ k, k ≠ j ∧ under_way k p l1 ∧ EvSucceeded k p ∈ l2.

Definition timely (now : time) (e : chain_event) : Prop :=
  match e with EvCalled _ _ t | EvFailed _ _ t => (0 < t <= now)%Z | EvSucceeded _ _ => True end.

Record chains_ok (s : chain_world) : Prop := {
  ch_clock : (0 < cw_now s)%Z;
  ch_times : ∀ e, e ∈ cw_log s → timely (cw_now s) e;
  ch_blocked : ∀ l1 j p t l2, cw_log s = l1 ++ EvFailed j p t :: l2 → (∀ k, EvSucceeded k p ∉ l2) →
    blocked p (t + minute) (cw_tracker s);
  ch_calling : ∀ i c rest attempts, cw_runs s !! i = Some (Calling c rest attempts) →
    under_way i (c_Provider c) (cw_log s);
  ch_succeeded : ∀ l1 k p l2, cw_log s = l1 ++ EvSucceeded k p :: l2 → under_way k p l1;
  ch_respected : failures_respected (cw_log s);
}.

Lemma blocked_mark p T now q r ct :
  blocked p T ct → (T <= now + minute)%Z → blocked p T (MarkFailure now q r ct).
Proof.
  intros Hb HT. destruct (decide (q = p)) as [<-|Hne].
  - destruct (MarkFailure_blocks now q r ct) as (e & He & Hor). exists e. split; [done|]. lia.
  - destruct Hb as (e & He & Hor). exists e. by rewrite MarkFailure_lookup, decide_False.
Qed.

Lemma blocked_success p T q ct : blocked p T ct → q ≠ p → blocked p T (MarkSuccess q ct).
Proof. intros (e & He & Hor) Hne. exists e. by rewrite MarkSuccess_lookup, decide_False. Qed.

(** The place of an event in a log that one event was added to. *)
Lemma snoc_split {A} (log l1 l2 : list A) e x :
  log ++ [e] = l1 ++ x :: l2 →
  (l2 = [] ∧ e = x ∧ log = l1) ∨ (∃ l2', l2 = l2' ++ [e] ∧ log = l1 ++ x :: l2').
Proof.
  destruct l2 as [|y l2 _] using rev_ind.
  - intros [-> [= ->]]%app_inj_tail. by left.
  - rewrite app_comm_cons, app_assoc. intros [-> ->]%app_inj_tail. right. by exists l2.
Qed.

(** The first event of a kind. *)
Lemma first_event {A} (P : A → Prop) `{!∀ x, Decision (P x)} (l : list A) x :
  x ∈ l → P x → ∃ l1 y l2, l = l1 ++ y :: l2 ∧ P y ∧ Forall (λ z, ¬ P z) l1.
Proof.
  induction l as [|y l IH]; [by intros ?%elem_of_nil|]. intros Hin Hx.
  destruct (decide (P y)) as [Hy|Hy]; [exists [], y, l; by split_and!|].
  apply elem_of_cons in Hin as [->|Hin]; [done|].
  destruct (IH Hin Hx) as (l1 & z & l2 & -> & Hz & Hl). exists (y :: l1), z, l2. split_and!; [done..|by constructor].
Qed.

Definition succeeds (p : string) (e : chain_event) : Prop :=
  match e with EvSucceeded _ q => q = p | _ => False end.
#[export] Instance succeeds_dec p e : Decision (succeeds p e).
Proof. destruct e; simpl; apply _. Defined.

Lemma in_log {A} (l1 l2 : list A) x : x ∈ l1 ++ x :: l2.
Proof. apply elem_of_app. right. by left. Qed.

Lemma timely_later now now' e : timely now e → (now <= now')%Z → timely now' e.
Proof. destruct e; simpl; intros; lia. Qed.

Lemma timely_snoc (log : list chain_event) now now' e :
  (∀ e, e ∈ log → timely now e) → (now <= now')%Z → timely now' e →
  ∀ e', e' ∈ log ++ [e] → timely now' e'.
Proof.
  intros H Hn He e' [Hin| ->%list_elem_of_singleton]%elem_of_app; [|done]. by eapply timely_later; [apply H|].
Qed.

Lemma under_way_snoc k p log e : under_way k p log → run_of e ≠ k → under_way k p (log ++ [e]).
Proof.
  intros (l1 & l2 & t & -> & Hl) He. exists l1, (l2 ++ [e]), t.
  rewrite <-app_assoc. split; [done|]. apply Forall_app. split; [done|by constructor].
Qed.

(** Only a call can offend. *)
Lemma respected_snoc log e :
  failures_respected log → (∀ i p t, e ≠ EvCalled i p t) → failures_respected (log ++ [e]).
Proof.
  intros H He l1 j p t l2 i t' l3 E Ht. rewrite app_comm_cons, app_assoc in E.
  apply snoc_split in E as [(_ & E & _)|(l3' & _ & E)]; [by destruct (He i p t')|].
  rewrite <-app_assoc in E. by eapply (H _ _ _ _ _ _ _ _ E).
Qed.

(** A call that the tracker allows does not offend. *)
Lemma respected_called now runs ct log i p t' :
  chains_ok (mk_chain_world now runs ct log) → (now <= t')%Z → IsAvailable t' p ct = true →
  failures_respected (log ++ [EvCalled i p t']).
Proof.
  intros [Hc Ht Hb _ Hs Hr] Hnow Hav l1 j q t l2 i' t1 l3 E Hlt. cbn [cw_now cw_log cw_tracker] in *.
  rewrite app_comm_cons, app_assoc in E.
  apply snoc_split in E as [(-> & [= <- <- <-] & E)|(l3' & _ & E)];
    [|rewrite <-app_assoc in E; by eapply (Hr _ _ _ _ _ _ _ _ E)].
  assert (0 < t <= now)%Z as [Ht0 _] by (apply (Ht (EvFailed j p t)); rewrite E; apply in_log).
  destruct (decide (Exists (succeeds p) l2)) as [Hex|Hno].
  2:{ exfalso. assert (blocked p (t + minute) ct) as Hbl.
      { apply (Hb _ _ _ _ _ E). intros k Hk. apply Hno, Exists_exists. by exists (EvSucceeded k p). }
      rewrite (blocked_unavailable _ _ _ t' Hbl) in Hav; [done|unfold_time; lia|done]. }
  apply Exists_exists in Hex as (x & Hx & Hsx).
  destruct (first_event (succeeds p) l2 x Hx Hsx) as (l2a & y & l2b & -> & Hy & Hfirst).
  destruct y as [|k q'|]; try done. simpl in Hy. subst q'.
  destruct (Hs (l1 ++ EvFailed j p t :: l2a) k p l2b) as (la & lb & ta & Eab & Hlb).
  { by rewrite <-app_assoc. }
  exists k. symmetry in Eab.
  apply app_eq_inv in Eab as [(m & -> & Em)|(m & -> & Em)]; destruct m as [|z m]; try done; injection Em as <- Em.
  - (* called since: then an earlier success *)
    exfalso. subst l2a. destruct (Hr l1 j p t m k ta (lb ++ EvSucceeded k p :: l2b)) as (k' & _ & _ & Hin).
    + rewrite E, <-app_assoc. done.
    + assert (0 < ta <= now)%Z; [|lia]. apply (Ht (EvCalled k p ta)). rewrite E.
      apply elem_of_app. right. right. apply elem_of_app. left. apply in_log.
    + rewrite Forall_forall in Hfirst. apply (Hfirst (EvSucceeded k' p)); [|done]. apply elem_of_app. by left.
  - (* under way at the failure *)
    subst lb. apply Forall_app in Hlb as [Hm [Hj _]%Forall_cons]. split_and!; [done| |apply in_log].
    by exists la, m, ta.
Qed.

(** The steps that log nothing and leave the tracker alone. *)
Lemma chains_ok_quiet now runs ct log now' runs' :
  chains_ok (mk_chain_world now runs ct log) → (now <= now')%Z →
  (∀ i c rest attempts, runs' !! i = Some (Calling c rest attempts) →
    under_way i (c_Provider c) log) →
  chains_ok (mk_chain_world now' runs' ct log).
Proof.
  intros [Hc Ht Hb _ Hs Hr] Hn Hruns. split; cbn in *; try done; [lia|].
  intros e He. eapply timely_later; [by apply Ht|done].
Qed.

(** The runs other than the one that took the step. *)
Lemma others_under_way (runs : list chain_run) log i run' e :
  (∀ k c rest attempts, runs !! k = Some (Calling c rest attempts) → under_way k (c_Provider c) log) →
  run_of e = i →
  (∀ c rest attempts, run' = Calling c rest attempts → under_way i (c_Provider c) (log ++ [e])) →
  ∀ k c rest attempts, <[i := run']> runs !! k = Some (Calling c rest attempts) →
    under_way k (c_Provider c) (log ++ [e]).
Proof.
  intros H He Hi k c rest attempts [(<- & -> & _)|[Hne Hk]]%list_lookup_insert_Some; [by eapply Hi|].
  apply under_way_snoc; [by eapply H|congruence].
Qed.

Lemma after_call_cases it c rest attempts ct run' ct' e :
  after_call it c rest attempts ct = (run', ct', e) →
  (∀ d r a, run' ≠ Calling d r a) ∧
  match e with
  | CallSucceeded => ct' = MarkSuccess (c_Provider c) ct
  | FailureRecorded => ∃ r, ct' = MarkFailure (at_mark it) (c_Provider c) r ct
  | NotRecorded => ct' = ct
  end.
Proof.
  unfold after_call. destruct (run_call _ _ _); [by intros [= <- <- <-]|].
  destruct (canceled_after _); [by intros [= <- <- <-]|].
  destruct (ClassifyError _ _ _) as [fe|]; [|by intros [= <- <- <-]].
  destruct (negb _); intros [= <- <- <-]; eauto.
Qed.

Lemma look_cases it c rest attempts ct :
  (∀ d r a, look it c rest attempts ct ≠ Calling d r a) ∨
  (look it c rest attempts ct = Calling c rest attempts ∧ IsAvailable (at_check it) (c_Provider c) ct = true).
Proof.
  unfold look. destruct (canceled_before it); [by left|].
  destruct (IsAvailable _ _ _) eqn:E; cbn [negb]; [by right|by left].
Qed.

Lemma look_step_ok i it c rest attempts now runs ct log :
  chains_ok (mk_chain_world now runs ct log) → (now <= at_check it)%Z →
  IsAvailable (at_check it) (c_Provider c) ct = true →
  chains_ok (mk_chain_world (at_check it) (<[i := Calling c rest attempts]> runs) ct
    (log ++ [EvCalled i (c_Provider c) (at_check it)])).
Proof.
  intros Hok Hn Hav. pose proof (respected_called _ _ _ _ i (c_Provider c) (at_check it) Hok Hn Hav) as Hresp.
  destruct Hok as [Hc Ht Hb Hcall Hs Hr]. cbn in *. split; cbn; [lia| | | | |done].
  - eapply timely_snoc; [done|done|]. simpl. lia.
  - intros l1 j p t l2 [(_ & ? & _)|(l2' & -> & E)]%snoc_split Hno; [done|].
    apply (Hb _ _ _ _ _ E). intros k Hk. apply (Hno k). apply elem_of_app. by left.
  - apply (others_under_way runs); [done|done|]. intros d r a [= <- <- <-]. by exists log, [], (at_check it).
  - intros l1 k p l2 [(_ & ? & _)|(l2' & -> & E)]%snoc_split; [done|]. by eapply Hs.
Qed.

Lemma success_step_ok i c rest attempts now now' runs run' ct log :
  chains_ok (mk_chain_world now runs ct log) → (now <= now')%Z →
  runs !! i = Some (Calling c rest attempts) → (∀ d r a, run' ≠ Calling d r a) →
  chains_ok (mk_chain_world now' (<[i := run']> runs) (MarkSuccess (c_Provider c) ct)
    (log ++ [EvSucceeded i (c_Provider c)])).
Proof.
  intros [Hc Ht Hb Hcall Hs Hr] Hn Hi Hrun. cbn in *. split; cbn; [lia| | | | |by apply respected_snoc].
  - by eapply timely_snoc.
  - intros l1 j p t l2 [(_ & ? & _)|(l2' & -> & E)]%snoc_split Hno; [done|].
    apply blocked_success.
    + apply (Hb _ _ _ _ _ E). intros k Hk. apply (Hno k). apply elem_of_app. by left.
    + intros Hp. apply (Hno i). rewrite Hp. apply elem_of_app. right. by left.
  - apply (others_under_way runs); [done|done|]. intros d r a E. by destruct (Hrun d r a).
  - intros l1 k p l2 [(_ & [= <- <-] & <-)|(l2' & -> & E)]%snoc_split; [by eapply Hcall|]. by eapply Hs.
Qed.

Lemma failure_step_ok i c rest attempts now now' r runs run' ct log :
  chains_ok (mk_chain_world now runs ct log) → (now <= now')%Z →
  runs !! i = Some (Calling c rest attempts) → (∀ d r a, run' ≠ Calling d r a) →
  chains_ok (mk_chain_world now' (<[i := run']> runs) (MarkFailure now' (c_Provider c) r ct)
    (log ++ [EvFailed i (c_Provider c) now'])).
Proof.
  intros [Hc Ht Hb Hcall Hs Hr] Hn Hi Hrun. cbn in *. split; cbn; [lia| | | | |by apply respected_snoc].
  - eapply timely_snoc; [done|done|]. simpl. lia.
  - intros l1 j p t l2 [(-> & [= <- <- <-] & _)|(l2' & -> & E)]%snoc_split Hno; [apply MarkFailure_blocks|].
    apply blocked_mark.
    + apply (Hb _ _ _ _ _ E). intros k Hk. apply (Hno k). apply elem_of_app. by left.
    + assert (0 < t <= now)%Z; [|lia]. apply (Ht (EvFailed j p t)). rewrite E. apply in_log.
  - apply (others_under_way runs); [done|done|]. intros d s a E. by destruct (Hrun d s a).
  - intros l1 k p l2 [(_ & ? & _)|(l2' & -> & E)]%snoc_split; [done|]. by eapply Hs.
Qed.

Lemma chain_step_ok s s' : chains_ok s → chain_step s s' → chains_ok s'.
Proof.
  intros Hok Hstep.
  destruct Hstep as [cs now runs ct log|i it c rest attempts now runs ct log Hi Hn
    |i it c rest attempts now runs ct log run' ct' e Hi Hn E|i attempts now runs ct log Hi].
  - eapply chains_ok_quiet; [done|lia|]. intros i c rest attempts [Hi|[_ Hi]]%lookup_app_Some.
    + by eapply (ch_calling _ Hok).
    + by apply list_lookup_singleton_Some in Hi as [_ ?].
  - destruct (look_cases it c rest attempts ct) as [Hno|[-> Hav]]; [|by apply look_step_ok with (now := now)].
    assert (match look it c rest attempts ct with
            | Calling c _ _ => [EvCalled i (c_Provider c) (at_check it)] | _ => [] end = []) as ->.
    { destruct (look it c rest attempts ct) as [| |] eqn:E; try done. by destruct (Hno c0 rest0 attempts0). }
    rewrite app_nil_r. eapply chains_ok_quiet; [done|done|].
    intros k d r a [(<- & E & _)|[_ Hk]]%list_lookup_insert_Some; [by destruct (Hno d r a)|].
    by eapply (ch_calling _ Hok).
  - apply after_call_cases in E as [Hno He]. destruct e; cbn [end_event].
    + subst ct'. by eapply success_step_ok.
    + destruct He as [r ->]. by eapply failure_step_ok.
    + subst ct'. rewrite app_nil_r. eapply chains_ok_quiet; [done|done|].
      intros k d r a [(<- & E & _)|[_ Hk]]%list_lookup_insert_Some; [by destruct (Hno d r a)|].
      by eapply (ch_calling _ Hok).
  - eapply chains_ok_quiet; [done|lia|].
    intros k d r a [(<- & E & _)|[_ Hk]]%list_lookup_insert_Some; [done|]. by eapply (ch_calling _ Hok).
Qed.

Lemma chains_reachable_ok s : chains_reachable s → chains_ok s.
Proof.
  induction 1 as [now Hnow|s s' _ IH Hs]; [|by eapply chain_step_ok].
  split; cbn; [done|by intros e ?%elem_of_nil|by intros [] ?|by intros i c r a ?|by intros [] ?|by intros [] ?].
Qed.

(** When no other run is calling the provider at the failure, as in runs one after the
    other, it is left alone for the minute. *)
Lemma alone_no_retry s j i p t t' before between after :
  chains_reachable s →
  cw_log s = before ++ EvFailed j p t :: between ++ EvCalled i p t' :: after →
  (∀ k, under_way k p before → k = j) → (t + minute <= t')%Z.
Proof.
  intros Hr E Hno. destruct (Z.le_gt_cases (t + minute) t') as [|Ht]; [done|exfalso].
  destruct (ch_respected _ (chains_reachable_ok s Hr) _ _ _ _ _ _ _ _ E Ht) as (k & Hk & Hw & _). by apply Hk, Hno.
Qed.


(** Every run of the chain is a run of the tracker: from a reachable
    tracker, with a clock that does not go back, [Execute] leaves a reachable
    tracker, so all that holds of reachable trackers holds after it, whatever
    it returns; and the providers that are no candidates keep their entries. *)
Lemma execute_tracker (env : nat → iteration) (cs : list FallbackCandidate)
    (t0 : time) (ct ct' : CooldownTracker) (r : result FallbackError FallbackResult) :
  Execute env cs ct = (r, ct') →
  reachable (t0, ct) →
  (t0 <= at_mark (env 0%nat))%Z → (∀ k l, k ≤ l → (at_mark (env k) <= at_mark (env l))%Z) →
  (∃ t, reachable (t, ct'))
  ∧ ∀ p, (∀ c, c ∈ cs → c_Provider c ≠ p) → entries ct' !! p = entries ct !! p.
Proof.
  intros Hex Hr H0 Hmono. destruct cs as [|c0 cs']; [simplify_eq/=; eauto|].
  rewrite execute_unfold in Hex by done. revert Hex Hr H0.
  generalize (c0 :: cs') as cs, (@nil FallbackAttempt) as atts, 0%nat as i. clear c0 cs'.
  intros cs. revert t0 ct. induction cs as [|c cs IH]; intros t0 ct atts i Hex Hr H0.
  { simplify_eq/=. eauto. }
  destruct (execute_step env i c cs atts ct)
    as [(a & ct1 & Hp & E)|[(resp & Ha & E)|(e & Hp & Ha & _ & E)]]; rewrite E in Hex; clear E.
  - assert (∃ t1, (t1 <= at_mark (env i))%Z ∧ reachable (t1, ct1)) as (t1 & Ht1 & Hr1).
    { destruct Hp; [eauto|]. exists (at_mark (env i)). split; [done|].
      eapply reach_step; [done|]. by constructor. }
    pose proof (Hmono i (S i) ltac:(lia)).
    destruct (IH t1 ct1 _ _ Hex Hr1 ltac:(lia)) as [? Hf]. split; [done|].
    intros p Hp'. rewrite Hf by set_solver. destruct Hp; [done|].
    rewrite MarkFailure_lookup, decide_False; [done|]. apply Hp'. set_solver.
  - simplify_eq. split.
    + exists t0. eapply reach_step; [done|]. by constructor.
    + intros p Hp. rewrite MarkSuccess_lookup, decide_False; [done|]. apply Hp. set_solver.
  - simplify_eq. eauto.
Qed.

(** ** Candidates *)
Lemma NormalizeProvider_idemp p : NormalizeProvider (NormalizeProvider p) = NormalizeProvider p.
Proof.
  unfold NormalizeProvider at 2 3. cbv zeta.
  repeat match goal with
  | |- context [if ?b then _ else _] => destruct b eqn:?; [reflexivity|]
  end.
  unfold NormalizeProvider.
  rewrite trim_lower, to_lower_idemp, trim_space_idemp.
  repeat match goal with H : _ = false |- _ => rewrite H; clear H end. done.
Qed.

(** The keys of the candidates that a list of raw references names. *)
Definition key_of (c : FallbackCandidate) : string := ModelKey (c_Provider c) (c_Model c).
Definition candidate_of (d raw : string) : option FallbackCandidate :=
  (λ r, mk_FallbackCandidate (ref_Provider r) (ref_Model r)) <$> ParseModelRef raw d.

Definition acc_ok (d : string) (raws : list string)
    (acc : gset string * list FallbackCandidate) : Prop :=
  acc.1 = list_to_set (key_of <$> acc.2)
  ∧ NoDup (key_of <$> acc.2)
  ∧ acc.2 `sublist_of` omap (candidate_of d) raws
  ∧ ∀ c, c ∈ omap (candidate_of d) raws → key_of c ∈ key_of <$> acc.2.

Lemma addCandidate_ok d raws acc raw :
  acc_ok d raws acc → acc_ok d (raws ++ [raw]) (addCandidate d acc raw).
Proof.
  destruct acc as [seen cs]. intros (Hs & Hnd & Hsub & Hall). simpl in *. subst seen.
  unfold acc_ok. rewrite omap_app. simpl. unfold candidate_of at 2 4.
  destruct (ParseModelRef raw d) as [ref|]; simpl; [|by rewrite app_nil_r].
  set (c := mk_FallbackCandidate (ref_Provider ref) (ref_Model ref)).
  case_bool_decide as E; simpl.
  - rewrite elem_of_list_to_set in E. split_and!; [done|done| |].
    + by apply sublist_inserts_r.
    + intros x [?| ->%list_elem_of_singleton]%elem_of_app; [by apply Hall|done].
  - rewrite elem_of_list_to_set in E. split_and!.
    + rewrite fmap_app, list_to_set_app_L. simpl. by rewrite union_empty_r_L, (comm_L (∪)).
    + rewrite fmap_app. apply NoDup_app. split_and!; [done| |apply NoDup_singleton].
      intros x Hx ->%list_elem_of_singleton. by apply E.
    + by apply sublist_app.
    + intros x [?| ->%list_elem_of_singleton]%elem_of_app; rewrite fmap_app, elem_of_app;
        [by left; apply Hall|right; by apply list_elem_of_singleton].
Qed.

(** The candidate list is the configured list without duplicates: it is a
    subsequence of what the primary and the fallbacks parse to, no two
    candidates have the same normalised provider and model, none of the
    configured models is lost, and the primary, if it parses, comes first. *)
Lemma ResolveCandidates_dedup (cfg : ModelConfig) (d : string) :
  let all := omap (candidate_of d) (mc_Primary cfg :: mc_Fallbacks cfg) in
  let cs := ResolveCandidates cfg d in
  cs `sublist_of` all
  ∧ NoDup (key_of <$> cs)
  ∧ (∀ c, c ∈ all → key_of c ∈ key_of <$> cs)
  ∧ (∀ c, candidate_of d (mc_Primary cfg) = Some c → head cs = Some c).
Proof.
  unfold ResolveCandidates.
  assert (∀ raws acc raws0, acc_ok d raws0 acc →
    acc_ok d (raws0 ++ raws) (foldl (addCandidate d) acc raws)) as Hfold.
  { induction raws as [|raw raws IH]; intros acc raws0 Hok; simpl; [by rewrite app_nil_r|].
    rewrite cons_middle, app_assoc. by apply IH, addCandidate_ok. }
  assert (acc_ok d [mc_Primary cfg] (addCandidate d (∅, []) (mc_Primary cfg))) as H0.
  { apply (addCandidate_ok d []). split_and!; simpl; [done|constructor|done|set_solver]. }
  destruct (Hfold (mc_Fallbacks cfg) _ _ H0) as (_ & Hnd & Hsub & Hall).
  split_and!; [exact Hsub|exact Hnd|exact Hall|].
  intros c Hc.
  assert (∀ raws acc, head acc.2 = Some c →
    head (foldl (addCandidate d) acc raws).2 = Some c) as Hhd.
  { induction raws as [|raw raws IH]; intros [s l] Hl; simpl in *; [done|]. apply IH.
    unfold addCandidate. destruct (ParseModelRef raw d); [|done].
    case_bool_decide; [done|]. by destruct l. }
  apply Hhd. unfold candidate_of in Hc. simpl.
  destruct (ParseModelRef (mc_Primary cfg) d); simplify_eq/=. done.
Qed.

Lemma chars_to_lower_last s x :
  last (chars (to_lower s)) = Some x → ∃ y, last (chars s) = Some y ∧ x = lower_char y.
Proof. rewrite chars_to_lower, fmap_last. intros (y & ? & ->)%fmap_Some. eauto. Qed.

Lemma NormalizeProvider_trimmed p : trim_space (NormalizeProvider p) = NormalizeProvider p.
Proof.
  unfold NormalizeProvider. cbv zeta.
  repeat match goal with
  | |- context [if ?b then _ else _] => destruct b; [reflexivity|]
  end.
  by rewrite trim_lower, trim_space_idemp.
Qed.

Lemma trim_space_join a c b :
  a ≠ "" → b ≠ "" → trim_space a = a → trim_space b = b →
  trim_space (a +:+ String c b) = a +:+ String c b.
Proof.
  intros Hna Hnb Ha Hb. apply (inj chars). rewrite chars_trim_space, chars_app. simpl.
  rewrite <-chars_nil_iff in Hna, Hnb.
  assert (chars a = trim_by is_space (chars a)) as Ha' by (by rewrite <-chars_trim_space, Ha).
  assert (chars b = trim_by is_space (chars b)) as Hb' by (by rewrite <-chars_trim_space, Hb).
  apply trim_by_ends.
  - intros x Hx. apply (trim_by_hd is_space (chars a)). rewrite <-Ha'.
    by destruct (chars a).
  - intros x Hx. apply (trim_by_last is_space (chars b)). rewrite <-Hb'.
    rewrite last_app, last_cons in Hx. destruct (last (chars b)) eqn:E; [done|].
    by apply last_None in E.
Qed.

(** Parsing a model reference is stable: the provider it finds is in
    normal form, and writing "provider/model" again and parsing it gives the
    same reference under any default provider. *)
Lemma ParseModelRef_roundtrip (raw d d' : string) (ref : ModelRef) :
  ParseModelRef raw d = Some ref →
  ref_Provider ref ≠ "" → "/"%char ∉ chars (ref_Provider ref) →
  NormalizeProvider (ref_Provider ref) = ref_Provider ref
  ∧ ParseModelRef (ref_Provider ref +:+ "/" +:+ ref_Model ref) d' = Some ref.
Proof.
  intros H Hp Hs.
  assert (∃ p, ref_Provider ref = NormalizeProvider p) as [p Hnp].
  { unfold ParseModelRef in H. split_cases; eauto. }
  assert (ref_Model ref ≠ "" ∧ trim_space (ref_Model ref) = ref_Model ref) as [Hm Hmt].
  { unfold ParseModelRef in H. split_cases; rewrite ?trim_space_idemp; done. }
  assert (NormalizeProvider (ref_Provider ref) = ref_Provider ref) as Hn.
  { by rewrite Hnp, NormalizeProvider_idemp. }
  split; [done|].
  unfold ParseModelRef.
  change ("/" +:+ ref_Model ref) with (String "/"%char (ref_Model ref)).
  rewrite trim_space_join by (done || by rewrite Hnp, NormalizeProvider_trimmed).
  rewrite bool_decide_eq_false_2 by (by destruct (ref_Provider ref)).
  rewrite cut_app by done. rewrite bool_decide_eq_false_2 by done.
  rewrite Hmt, bool_decide_eq_false_2 by done. rewrite Hn. by destruct ref.
Qed.

(** ** The image chain *)

(** A candidate the image chain passes over: its call fails, not with a
    cancellation and not with an image dimension or size error. *)
Inductive image_passes (it : iteration) (c : FallbackCandidate) : FallbackAttempt → Prop :=
| image_pass err :
    canceled_before it = false → run_call it (c_Provider c) (c_Model c) = Err err →
    canceled_after it = false →
    IsImageDimensionError (to_lower (err_text err)) = false →
    IsImageSizeError (to_lower (err_text err)) = false →
    image_passes it c (plain_attempt it c err None).

Inductive image_passes_all (env : nat → iteration) :
    nat → list FallbackCandidate → list FallbackAttempt → Prop :=
| image_passes_nil i : image_passes_all env i [] []
| image_passes_cons i c cs a atts :
    image_passes (env i) c a → image_passes_all env (S i) cs atts →
    image_passes_all env i (c :: cs) (a :: atts).

Definition image_answers (it : iteration) (c : FallbackCandidate) (resp : LLMResponse) : Prop :=
  canceled_before it = false ∧ run_call it (c_Provider c) (c_Model c) = Ok resp.

#[export] Hint Constructors image_passes image_passes_all : tiny.

Lemma execute_image_step env i c rest atts :
  (∃ a, image_passes (env i) c a
     ∧ execute_image_loop env i (c :: rest) atts
       = execute_image_loop env (S i) rest (atts ++ [a]))
  ∨ (∃ resp, image_answers (env i) c resp
     ∧ execute_image_loop env i (c :: rest) atts
       = Ok (mk_FallbackResult resp (c_Provider c) (c_Model c) atts))
  ∨ (∃ e, (∀ a, ¬ image_passes (env i) c a) ∧ (∀ resp, ¬ image_answers (env i) c resp)
     ∧ (∀ l, e ≠ Exhausted l) ∧ execute_image_loop env i (c :: rest) atts = Err e).
Proof.
  cbn [execute_image_loop]. cbv zeta.
  destruct (canceled_before (env i)) eqn:Hcb.
  { right; right. exists Canceled. split_and!; [intros ? []; congruence| |done|done].
    intros ? [??]; congruence. }
  destruct (run_call _ _ _) as [resp|err] eqn:Hrun.
  { right; left. exists resp. by split. }
  destruct (canceled_after (env i)) eqn:Hca.
  { right; right. exists Canceled. split_and!; [intros ? []; congruence| |done|done].
    intros ? [??]; congruence. }
  destruct (_ || _) eqn:Himg.
  { right; right. eexists. split_and!; [|intros ? [??]; congruence| |done]; [|done].
    intros ? [? ? He ? Hd Hs]. rewrite Hrun in He. simplify_eq. by rewrite Hd, Hs in Himg. }
  apply orb_false_iff in Himg as [??].
  left. eexists. split; [by eapply image_pass|].
  case_bool_decide as E; [by subst|done].
Qed.

(** The image chain ignores cooldowns: it answers exactly with the first
    candidate whose call succeeds, provided every call before it failed with
    an error other than a cancellation or an image dimension or size error
    (unclassified errors do not stop it), and lists those failures in order. *)
Lemma execute_image_ok_iff (env : nat → iteration) (cs : list FallbackCandidate)
    (res : FallbackResult) :
  ExecuteImage env cs = Ok res ↔
  ∃ pre c post, cs = pre ++ c :: post
    ∧ image_passes_all env 0 pre (f_Attempts res)
    ∧ image_answers (env (length pre)) c (f_Response res)
    ∧ f_Provider res = c_Provider c ∧ f_Model res = c_Model c.
Proof.
  assert (∀ cs i atts, execute_image_loop env i cs atts = Ok res ↔
    ∃ pre c post atts', cs = pre ++ c :: post ∧ image_passes_all env i pre atts'
      ∧ image_answers (env (i + length pre)) c (f_Response res)
      ∧ f_Provider res = c_Provider c ∧ f_Model res = c_Model c
      ∧ f_Attempts res = atts ++ atts') as Hloop.
  { clear cs. induction cs as [|c cs IH]; intros i atts.
    { split; [done|]. intros ([|] & ? & ? & ? & ? & _); done. }
    destruct (execute_image_step env i c cs atts)
      as [(a & Hp & ->)|[(resp & Ha & ->)|(e & Hp & Ha & _ & ->)]].
    - rewrite IH. split.
      + intros (pre & d & post & atts' & -> & Hall & Hans & ? & ? & Hl).
        exists (c :: pre), d, post, (a :: atts').
        simpl length. rewrite Nat.add_succ_r. rewrite <-app_assoc in Hl.
        split_and!; eauto with tiny.
      + intros (pre & d & post & atts' & Heq & Hall & Hans & ? & ? & Hl).
        destruct pre as [|d' pre]; simplify_eq/=; inversion Hall; subst.
        { rewrite Nat.add_0_r in Hans. destruct Hp, Hans; congruence. }
        match goal with H : image_passes (env i) _ ?b |- _ =>
          assert (b = a) as -> by (destruct Hp, H; congruence) end.
        rewrite Nat.add_succ_r in Hans.
        do 4 eexists. split_and!; [done|done|done|done|done|].
        by rewrite Hl, <-app_assoc.
    - split.
      + intros [= <-]. exists [], c, cs, []. rewrite Nat.add_0_r, app_nil_r.
        split_and!; eauto with tiny.
      + intros (pre & d & post & atts' & Heq & Hall & Hans & Hf & Hm & Hl).
        destruct pre as [|d' pre]; simplify_eq/=; inversion Hall; subst.
        * rewrite Nat.add_0_r in Hans. destruct Ha, Hans.
          rewrite app_nil_r in Hl. destruct res; simpl in *. congruence.
        * match goal with H : image_passes (env i) _ _ |- _ => destruct H, Ha; congruence end.
    - split; [done|]. intros (pre & d & post & atts' & Heq & Hall & Hans & _).
      destruct pre as [|d' pre]; simplify_eq/=; inversion Hall; subst.
      + rewrite Nat.add_0_r in Hans. by apply Ha in Hans.
      + by edestruct Hp. }
  destruct cs as [|c0 cs].
  { split; [done|]. intros ([|] & ? & ? & ? & _); done. }
  unfold ExecuteImage. rewrite Hloop. split.
  - intros (pre & c & post & atts' & ? & Hall & ? & ? & ? & Hl).
    simpl in Hl. rewrite <-Hl in Hall. exists pre, c, post. by split_and!.
  - intros (pre & c & post & ? & ? & ? & ? & ?). exists pre, c, post, (f_Attempts res).
    by split_and!.
Qed.

(** ** Concrete runs *)

(** A world where calls of "openai" are rate limited and others succeed. *)
Definition sample_response : LLMResponse := mk_LLMResponse "hi" "" [] "stop" None.
Definition sample_env (i : nat) : iteration :=
  let t := (hour + Z.of_nat i * second)%Z in
  mk_iteration false t t
    (λ p _, if bool_decide (p = "openai") then Err (errors_New "status: 429") else Ok sample_response)
    second false t.
Definition sample_candidates : list FallbackCandidate :=
  [mk_FallbackCandidate "openai" "gpt-4"; mk_FallbackCandidate "openai" "gpt-4o";
   mk_FallbackCandidate "anthropic" "claude"].

Lemma sample_env_mono k l : k ≤ l → (at_mark (sample_env k) <= at_mark (sample_env l))%Z.
Proof. simpl. unfold_time. lia. Qed.

(** Two runs call the same provider; one call is rate limited, the other succeeds and lifts
    the cooldown, so that a third run calls it again at once. *)
Definition limited_it : iteration := sample_env 0.
Definition answered_it : iteration :=
  mk_iteration false hour hour (λ _ _, Ok sample_response) second false hour.
Definition openai_only : list FallbackCandidate := [mk_FallbackCandidate "openai" "gpt-4"].
Definition overlapping_log : list chain_event :=
  [EvCalled 0 "openai" hour; EvCalled 1 "openai" hour; EvFailed 0 "openai" hour; EvSucceeded 1 "openai";
   EvCalled 2 "openai" hour].

Lemma overlapping_reachable : ∃ s, chains_reachable s ∧ cw_log s = overlapping_log.
Proof.
  eexists. split.
  - eapply cr_step; [eapply cr_step; [eapply cr_step; [eapply cr_step; [eapply cr_step; [eapply cr_step;
      [eapply cr_step; [eapply cr_step; [apply (cr_init hour); done|]|]|]|]|]|]|]|].
    + apply (cs_start openai_only).
    + apply (cs_start openai_only).
    + apply (cs_start openai_only).
    + by eapply (cs_look 0 answered_it).
    + by eapply (cs_look 1 answered_it).
    + eapply (cs_call 0 limited_it); [reflexivity|done|vm_compute; reflexivity].
    + eapply (cs_call 1 answered_it); [reflexivity|done|vm_compute; reflexivity].
    + by eapply (cs_look 2 answered_it).
  - vm_compute. reflexivity.
Qed.


Lemma execute_tracker_witness :
  ∃ r ct' t, Execute sample_env sample_candidates NewCooldownTracker = (r, ct')
    ∧ reachable (t, ct').
Proof.
  destruct (Execute sample_env sample_candidates NewCooldownTracker) as [r ct'] eqn:E.
  destruct (execute_tracker sample_env sample_candidates second NewCooldownTracker ct' r E)
    as [[t Ht] _].
  - apply reach_init. done.
  - done.
  - apply sample_env_mono.
  - exists r, ct', t. split; [reflexivity|exact Ht].
Defined.

Lemma ParseModelRef_roundtrip_witness :
  ParseModelRef " GPT / gpt-4o " "zhipu" = Some (mk_ModelRef "openai" "gpt-4o")
  ∧ ParseModelRef "openai/gpt-4o" "glm" = Some (mk_ModelRef "openai" "gpt-4o").
Proof.
  split; [reflexivity|].
  apply (ParseModelRef_roundtrip " GPT / gpt-4o " "zhipu" "glm" (mk_ModelRef "openai" "gpt-4o"));
    [reflexivity|discriminate|].
  refine (bool_decide_unpack (¬ _) _). vm_compute. exact I.
Defined.
