(* ===== verification/Routing.v ===== *)
(** * Routing (pkg/routing/agent_id.go, session_key.go, route.go; pkg/agent/registry.go)

    Agent identifiers, session keys, the priority cascade that picks the agent
    of a message, and the registry the chosen agent is looked up in. *)
From stdpp Require Import base gmap strings list.
From Stdlib Require Import Ascii ZArith Lia.
From S2P Require Import Prelude GoStrings.

(** ** Agent identifiers *)
Definition DefaultAgentID : string := "main".
Definition DefaultMainKey : string := "main".
Definition DefaultAccountID : string := "default".
Definition MaxAgentIDLength : nat := 64.

Definition dash : ascii := "-".
(** The class [[a-z0-9_-]], and [[a-z0-9]] for the first character. *)
Definition is_alnum_lower (c : ascii) : bool := is_lower c || is_digit c.
Definition is_id_char (c : ascii) : bool :=
  is_alnum_lower c || bool_decide (c = "_"%char) || bool_decide (c = dash).
Definition is_dash (c : ascii) : bool := bool_decide (c = dash).

(** [validIDRe.MatchString]: [^[a-z0-9][a-z0-9_-]{0,63}$]. *)
Definition validID (s : string) : bool :=
  match chars s with
  | c :: l => is_alnum_lower c && forallb is_id_char l && (length l <=? 63)
  | [] => false
  end.

(** [invalidCharsRe.ReplaceAllString(s, "-")]: each maximal run of characters
    outside the class becomes one dash. *)
Fixpoint collapse_invalid (in_run : bool) (l : list ascii) : list ascii :=
  match l with
  | [] => []
  | c :: l' =>
      if is_id_char c then c :: collapse_invalid false l'
      else if in_run then collapse_invalid true l'
      else dash :: collapse_invalid true l'
  end.

(** [leadingDashRe] and [trailingDashRe] replaced by the empty string. *)
Definition strip_leading (l : list ascii) : list ascii := drop_while is_dash l.
Definition strip_trailing (l : list ascii) : list ascii :=
  reverse (drop_while is_dash (reverse l)).

Definition normalize_id (fallback id : string) : string :=
  let trimmed := trim_space id in
  if bool_decide (trimmed = "") then fallback
  else
    let lower := to_lower trimmed in
    if validID lower then lower
    else
      let result := collapse_invalid false (chars lower) in
      let result := strip_leading result in
      let result := strip_trailing result in
      let result := if (MaxAgentIDLength <? length result)%nat
                    then take MaxAgentIDLength result else result in
      if bool_decide (result = []) then fallback else implode result.

Definition NormalizeAgentID (id : string) : string := normalize_id DefaultAgentID id.
Definition NormalizeAccountID (id : string) : string := normalize_id DefaultAccountID id.

(** ** Session keys *)
Definition DMScopeMain : string := "main".
Definition DMScopePerPeer : string := "per-peer".
Definition DMScopePerChannelPeer : string := "per-channel-peer".
Definition DMScopePerAccountChannelPeer : string := "per-account-channel-peer".

Record RoutePeer := mk_RoutePeer {
  rp_Kind : string;
  rp_ID : string;
}.

(** The map [IdentityLinks] in the order in which the runtime iterates it. *)
Record SessionKeyParams := mk_SessionKeyParams {
  skp_AgentID : string;
  skp_Channel : string;
  skp_AccountID : string;
  skp_Peer : option RoutePeer;
  skp_DMScope : string;
  skp_IdentityLinks : list (string * list string);
}.

Record ParsedSessionKey := mk_ParsedSessionKey {
  psk_AgentID : string;
  psk_Rest : string;
}.

Definition BuildAgentMainSessionKey (agentID : string) : string :=
  "agent:" +:+ NormalizeAgentID agentID +:+ ":" +:+ DefaultMainKey.

Definition normalizeChannel (channel : string) : string :=
  let c := trim_space (to_lower channel) in
  if bool_decide (c = "") then "unknown" else c.

Fixpoint linked_name (candidates : list string) (links : list (string * list string)) : string :=
  match links with
  | [] => ""
  | (canonical, ids) :: links' =>
      let canonicalName := trim_space canonical in
      if bool_decide (canonicalName = "") then linked_name candidates links'
      else
        if existsb (λ id, let normalized := to_lower (trim_space id) in
                          negb (bool_decide (normalized = ""))
                          && bool_decide (normalized ∈ candidates)) ids
        then canonicalName
        else linked_name candidates links'
  end.

Definition link_candidates (channel peerID : string) : list string :=
  let channel := to_lower (trim_space channel) in
  [to_lower peerID]
  ++ (if bool_decide (channel = "") then [] else [channel +:+ ":" +:+ to_lower peerID]).

Definition resolveLinkedPeerID (identityLinks : list (string * list string))
    (channel peerID : string) : string :=
  if bool_decide (identityLinks = []) then ""
  else
    let peerID := trim_space peerID in
    if bool_decide (peerID = "") then ""
    else linked_name (link_candidates channel peerID) identityLinks.

Definition BuildAgentPeerSessionKey (params : SessionKeyParams) : string :=
  let agentID := NormalizeAgentID (skp_AgentID params) in
  let peer := default (mk_RoutePeer "direct" "") (skp_Peer params) in
  let peerKind := trim_space (rp_Kind peer) in
  let peerKind := if bool_decide (peerKind = "") then "direct" else peerKind in
  if bool_decide (peerKind = "direct") then
    let dmScope := if bool_decide (skp_DMScope params = "") then DMScopeMain
                   else skp_DMScope params in
    let peerID := trim_space (rp_ID peer) in
    let peerID :=
      if negb (bool_decide (dmScope = DMScopeMain)) && negb (bool_decide (peerID = "")) then
        let linked := resolveLinkedPeerID (skp_IdentityLinks params) (skp_Channel params) peerID in
        if negb (bool_decide (linked = "")) then linked else peerID
      else peerID in
    let peerID := to_lower peerID in
    let channel := normalizeChannel (skp_Channel params) in
    if bool_decide (dmScope = DMScopePerAccountChannelPeer) && negb (bool_decide (peerID = ""))
    then
      let accountID := NormalizeAccountID (skp_AccountID params) in
      "agent:" +:+ agentID +:+ ":" +:+ channel +:+ ":" +:+ accountID +:+ ":direct:" +:+ peerID
    else if bool_decide (dmScope = DMScopePerChannelPeer) && negb (bool_decide (peerID = ""))
    then "agent:" +:+ agentID +:+ ":" +:+ channel +:+ ":direct:" +:+ peerID
    else if bool_decide (dmScope = DMScopePerPeer) && negb (bool_decide (peerID = ""))
    then "agent:" +:+ agentID +:+ ":direct:" +:+ peerID
    else BuildAgentMainSessionKey agentID
  else
    let channel := normalizeChannel (skp_Channel params) in
    let peerID := to_lower (trim_space (rp_ID peer)) in
    let peerID := if bool_decide (peerID = "") then "unknown" else peerID in
    "agent:" +:+ agentID +:+ ":" +:+ channel +:+ ":" +:+ peerKind +:+ ":" +:+ peerID.

Definition ParseAgentSessionKey (sessionKey : string) : option ParsedSessionKey :=
  let raw := trim_space sessionKey in
  if bool_decide (raw = "") then None
  else
    match cut raw ":" with
    | None => None
    | Some (p0, tl) =>
        match cut tl ":" with
        | None => None
        | Some (p1, rest) =>
            if negb (bool_decide (p0 = "agent")) then None
            else
              let agentID := trim_space p1 in
              if bool_decide (agentID = "") || bool_decide (rest = "") then None
              else Some (mk_ParsedSessionKey agentID rest)
        end
    end.

Definition IsSubagentSessionKey (sessionKey : string) : bool :=
  let raw := trim_space sessionKey in
  if bool_decide (raw = "") then false
  else if has_prefix (to_lower raw) "subagent:" then true
  else match ParseAgentSessionKey raw with
       | None => false
       | Some parsed => has_prefix (to_lower (psk_Rest parsed)) "subagent:"
       end.

(** ** Configuration the router reads (pkg/config/config.go) *)
Record PeerMatch := mk_PeerMatch {
  pm_Kind : string;
  pm_ID : string;
}.

Record BindingMatch := mk_BindingMatch {
  bm_Channel : string;
  bm_AccountID : string;
  bm_Peer : option PeerMatch;
  bm_GuildID : string;
  bm_TeamID : string;
}.

Record AgentBinding := mk_AgentBinding {
  b_AgentID : string;
  b_Match : BindingMatch;
}.

(** [AgentConfig] without the fields the router and the registry do not read;
    [None] of [ac_AllowAgents]: no subagents section, or a nil list. *)
Record AgentConfig := mk_AgentConfig {
  ac_ID : string;
  ac_Default : bool;
  ac_AllowAgents : option (list string);
}.

Record Config := mk_Config {
  cfg_Agents : list AgentConfig;
  cfg_Bindings : list AgentBinding;
  cfg_DMScope : string;
  cfg_IdentityLinks : list (string * list string);
}.

Record RouteInput := mk_RouteInput {
  ri_Channel : string;
  ri_AccountID : string;
  ri_Peer : option RoutePeer;
  ri_ParentPeer : option RoutePeer;
  ri_GuildID : string;
  ri_TeamID : string;
}.

Record ResolvedRoute := mk_ResolvedRoute {
  rr_AgentID : string;
  rr_Channel : string;
  rr_AccountID : string;
  rr_SessionKey : string;
  rr_MainSessionKey : string;
  rr_MatchedBy : string;
}.

(** ** Bindings *)
Definition matchesAccountID (matchAccountID actual : string) : bool :=
  let trimmed := trim_space matchAccountID in
  if bool_decide (trimmed = "") then bool_decide (actual = DefaultAccountID)
  else if bool_decide (trimmed = "*") then true
  else bool_decide (to_lower trimmed = to_lower actual).

Definition binding_applies (channel accountID : string) (b : AgentBinding) : bool :=
  let matchChannel := to_lower (trim_space (bm_Channel (b_Match b))) in
  if bool_decide (matchChannel = "") || negb (bool_decide (matchChannel = channel)) then false
  else matchesAccountID (bm_AccountID (b_Match b)) accountID.

Definition filterBindings (cfg : Config) (channel accountID : string) : list AgentBinding :=
  List.filter (binding_applies channel accountID) (cfg_Bindings cfg).

Definition peer_binding (peer : RoutePeer) (b : AgentBinding) : bool :=
  match bm_Peer (b_Match b) with
  | None => false
  | Some p =>
      let peerKind := to_lower (trim_space (pm_Kind p)) in
      let peerID := trim_space (pm_ID p) in
      if bool_decide (peerKind = "") || bool_decide (peerID = "") then false
      else bool_decide (peerKind = to_lower (rp_Kind peer)) && bool_decide (peerID = rp_ID peer)
  end.
Definition findPeerMatch (bindings : list AgentBinding) (peer : RoutePeer) : option AgentBinding :=
  find_first (peer_binding peer) bindings.

Definition guild_binding (guildID : string) (b : AgentBinding) : bool :=
  let matchGuild := trim_space (bm_GuildID (b_Match b)) in
  negb (bool_decide (matchGuild = "")) && bool_decide (matchGuild = guildID).
Definition findGuildMatch (bindings : list AgentBinding) (guildID : string) :
    option AgentBinding :=
  find_first (guild_binding guildID) bindings.

Definition team_binding (teamID : string) (b : AgentBinding) : bool :=
  let matchTeam := trim_space (bm_TeamID (b_Match b)) in
  negb (bool_decide (matchTeam = "")) && bool_decide (matchTeam = teamID).
Definition findTeamMatch (bindings : list AgentBinding) (teamID : string) :
    option AgentBinding :=
  find_first (team_binding teamID) bindings.

Definition unscoped (b : AgentBinding) : bool :=
  let m := b_Match b in
  negb (bool_decide (is_Some (bm_Peer m)) || negb (bool_decide (bm_GuildID m = ""))
        || negb (bool_decide (bm_TeamID m = ""))).
Definition account_binding (b : AgentBinding) : bool :=
  if bool_decide (trim_space (bm_AccountID (b_Match b)) = "*") then false else unscoped b.
Definition findAccountMatch (bindings : list AgentBinding) : option AgentBinding :=
  find_first account_binding bindings.

Definition wildcard_binding (b : AgentBinding) : bool :=
  if negb (bool_decide (trim_space (bm_AccountID (b_Match b)) = "*")) then false else unscoped b.
Definition findChannelWildcardMatch (bindings : list AgentBinding) : option AgentBinding :=
  find_first wildcard_binding bindings.

(** ** Agent selection *)
Fixpoint first_default_id (agents : list AgentConfig) : option string :=
  match agents with
  | [] => None
  | a :: agents' =>
      if ac_Default a then
        let id := trim_space (ac_ID a) in
        if negb (bool_decide (id = "")) then Some (NormalizeAgentID id)
        else first_default_id agents'
      else first_default_id agents'
  end.

Definition resolveDefaultAgentID (cfg : Config) : string :=
  match cfg_Agents cfg with
  | [] => DefaultAgentID
  | a0 :: _ =>
      match first_default_id (cfg_Agents cfg) with
      | Some id => id
      | None =>
          let id := trim_space (ac_ID a0) in
          if negb (bool_decide (id = "")) then NormalizeAgentID id else DefaultAgentID
      end
  end.

Definition pickAgentID (cfg : Config) (agentID : string) : string :=
  let trimmed := trim_space agentID in
  if bool_decide (trimmed = "") then NormalizeAgentID (resolveDefaultAgentID cfg)
  else
    let normalized := NormalizeAgentID trimmed in
    let agents := cfg_Agents cfg in
    if bool_decide (agents = []) then normalized
    else if existsb (λ a, bool_decide (NormalizeAgentID (ac_ID a) = normalized)) agents
    then normalized
    else NormalizeAgentID (resolveDefaultAgentID cfg).

(** ** ResolveRoute *)
Definition choose (cfg : Config) (channel accountID : string) (peer : option RoutePeer)
    (agentID matchedBy : string) : ResolvedRoute :=
  let dmScope := if bool_decide (cfg_DMScope cfg = "") then DMScopeMain else cfg_DMScope cfg in
  let resolvedAgentID := pickAgentID cfg agentID in
  mk_ResolvedRoute resolvedAgentID channel accountID
    (to_lower (BuildAgentPeerSessionKey
       (mk_SessionKeyParams resolvedAgentID channel accountID peer dmScope
          (cfg_IdentityLinks cfg))))
    (to_lower (BuildAgentMainSessionKey resolvedAgentID))
    matchedBy.

(** [peer != nil && strings.TrimSpace(peer.ID) != ""], then the peer search. *)
Definition peer_level (bindings : list AgentBinding) (peer : option RoutePeer) :
    option AgentBinding :=
  match peer with
  | None => None
  | Some p => if bool_decide (trim_space (rp_ID p) = "") then None
              else findPeerMatch bindings p
  end.

Definition ResolveRoute (cfg : Config) (input : RouteInput) : ResolvedRoute :=
  let channel := to_lower (trim_space (ri_Channel input)) in
  let accountID := NormalizeAccountID (ri_AccountID input) in
  let bindings := filterBindings cfg channel accountID in
  let choose := choose cfg channel accountID (ri_Peer input) in
  match peer_level bindings (ri_Peer input) with
  | Some m => choose (b_AgentID m) "binding.peer"
  | None =>
  match peer_level bindings (ri_ParentPeer input) with
  | Some m => choose (b_AgentID m) "binding.peer.parent"
  | None =>
  let guildID := trim_space (ri_GuildID input) in
  match (if bool_decide (guildID = "") then None else findGuildMatch bindings guildID) with
  | Some m => choose (b_AgentID m) "binding.guild"
  | None =>
  let teamID := trim_space (ri_TeamID input) in
  match (if bool_decide (teamID = "") then None else findTeamMatch bindings teamID) with
  | Some m => choose (b_AgentID m) "binding.team"
  | None =>
  match findAccountMatch bindings with
  | Some m => choose (b_AgentID m) "binding.account"
  | None =>
  match findChannelWildcardMatch bindings with
  | Some m => choose (b_AgentID m) "binding.channel"
  | None => choose (resolveDefaultAgentID cfg) "default"
  end end end end end end.

(** ** The agent registry *)
Section registry.
(** [NewAgentInstance] builds an instance of any kind from its configuration. *)
Context {Instance_ : Type} (NewAgentInstance : AgentConfig → Instance_).

Definition implicit_agent : AgentConfig := mk_AgentConfig "main" true None.

Definition NewAgentRegistry (cfg : Config) : gmap string Instance_ :=
  match cfg_Agents cfg with
  | [] => {["main" := NewAgentInstance implicit_agent]}
  | agents =>
      foldl (λ m ac, <[NormalizeAgentID (ac_ID ac) := NewAgentInstance ac]> m) ∅ agents
  end.

Definition GetAgent (agents : gmap string Instance_) (agentID : string) : option Instance_ :=
  agents !! NormalizeAgentID agentID.

Definition ListAgentIDs (agents : gmap string Instance_) : gset string := dom agents.

(** The map iteration yields some entry first: [pick] chooses it. *)
Definition GetDefaultAgent (pick : gmap string Instance_ → option Instance_)
    (agents : gmap string Instance_) : option Instance_ :=
  match agents !! "main" with
  | Some a => Some a
  | None => pick agents
  end.

(** [allow] reads the [Subagents.AllowAgents] of an instance. *)
Definition CanSpawnSubagent (allow : Instance_ → option (list string))
    (agents : gmap string Instance_) (parentAgentID targetAgentID : string) : bool :=
  match GetAgent agents parentAgentID with
  | None => false
  | Some parent =>
      match allow parent with
      | None => false
      | Some allowed =>
          let targetNorm := NormalizeAgentID targetAgentID in
          existsb (λ a, if bool_decide (a = "*") then true
                        else bool_decide (NormalizeAgentID a = targetNorm)) allowed
      end
  end.
End registry.

(** ** Normal forms of identifiers *)
Record id_form (s : string) : Prop := {
  form_ne : s ≠ "";
  form_length : String.length s ≤ MaxAgentIDLength;
  form_chars : Forall (λ c, is_id_char c = true) (chars s);
  form_head : head (chars s) ≠ Some dash;
}.

(** What the documented pattern [[a-z0-9][a-z0-9_-]{0,63}] asks for and
    [id_form] does not: a first character other than an underscore. *)
Definition underscore_dash (s : string) : Prop :=
  head (chars s) = Some "_"%char ∧ last (chars s) = Some dash.

Lemma id_char_facts c :
  is_id_char c = true →
  is_space c = false ∧ lower_char c = c ∧ c ≠ ":"%char ∧ c ≠ "/"%char
  ∧ (is_alnum_lower c = true ∨ c = "_"%char ∨ c = dash).
Proof.
  intros H.
  assert (implb (is_id_char c) (negb (is_space c) && bool_decide (lower_char c = c)
    && negb (bool_decide (c = ":"%char)) && negb (bool_decide (c = "/"%char))
    && (is_alnum_lower c || bool_decide (c = "_"%char) || bool_decide (c = dash))) = true) as Hall.
  { clear H. revert c. by_all_ascii. }
  rewrite H in Hall. simpl in Hall. bool_nums.
  split_and!; try done. repeat (destruct_or!; bool_nums); auto.
Qed.

Lemma forall_id_trim l : Forall (λ c, is_id_char c = true) l → Forall (λ c, is_space c = false) l.
Proof. intros Hl. eapply Forall_impl; [done|]. intros c H. by apply id_char_facts. Qed.

Lemma id_no_colon s : Forall (λ c, is_id_char c = true) (chars s) → ":"%char ∉ chars s.
Proof.
  intros H Hin. pose proof (proj1 (Forall_forall _ _) H _ Hin) as Hc.
  by apply id_char_facts in Hc as (_ & _ & ? & _).
Qed.

Lemma id_lower s : Forall (λ c, is_id_char c = true) (chars s) → to_lower s = s.
Proof.
  intros H. apply (inj chars). rewrite chars_to_lower.
  induction H as [|c l Hc _ IH]; [done|]. rewrite fmap_cons, IH. f_equal.
  by apply id_char_facts.
Qed.

Lemma collapse_id_chars b l : Forall (λ c, is_id_char c = true) (collapse_invalid b l).
Proof.
  revert b. induction l as [|c l IH]; intros b; simpl; [done|].
  destruct (is_id_char c) eqn:E; [by constructor|]. destruct b; [done|]. by constructor.
Qed.

Lemma collapse_id l b : Forall (λ c, is_id_char c = true) l → collapse_invalid b l = l.
Proof.
  intros H. revert b. induction H as [|c l Hc _ IH]; intros b; simpl; [done|].
  by rewrite Hc, IH.
Qed.

Lemma validID_form s : validID s = true → id_form s.
Proof.
  unfold validID. destruct (chars s) as [|c l] eqn:E; [done|]. intros H. bool_nums.
  assert (is_id_char c = true) as Hc by (unfold is_id_char; by rewrite H).
  constructor.
  - by intros ->.
  - rewrite <-length_chars, E. simpl. unfold MaxAgentIDLength. lia.
  - rewrite E. constructor; [done|]. apply Forall_forall. intros x Hx.
    rewrite forallb_forall in H1. by apply H1, list_elem_of_In.
  - rewrite E. intros [= ->]. discriminate.
Qed.

Lemma normalize_id_form fallback id : id_form fallback → id_form (normalize_id fallback id).
Proof.
  intros Hf. unfold normalize_id.
  case_bool_decide; [done|]. set (lower := to_lower (trim_space id)).
  destruct (validID lower) eqn:Hv; [by apply validID_form|].
  change (strip_trailing (strip_leading ?l)) with (trim_by is_dash l).
  set (r := trim_by is_dash _).
  assert (Forall (λ c, is_id_char c = true) r) as Hr by apply Forall_trim_by, collapse_id_chars.
  assert (head r ≠ Some dash) as Hh.
  { intros H'. apply trim_by_hd in H'. discriminate. }
  set (r' := if (MaxAgentIDLength <? length r) then take MaxAgentIDLength r else r).
  assert (length r' ≤ MaxAgentIDLength ∧ Forall (λ c, is_id_char c = true) r'
    ∧ head r' ≠ Some dash) as (? & ? & ?).
  { subst r'. destruct (MaxAgentIDLength <? length r) eqn:E; bool_nums; [|done].
    rewrite length_take. split_and!; [lia|by apply Forall_take|].
    destruct r; [done|]. unfold MaxAgentIDLength. done. }
  case_bool_decide as E; [done|]. constructor; rewrite ?chars_implode; auto.
  - by destruct r'.
  - by rewrite <-length_chars, chars_implode.
Qed.

Lemma normalize_id_stable fallback s :
  id_form s → ¬ underscore_dash s → normalize_id fallback s = s.
Proof.
  intros [Hne Hlen Hc Hh] Hu. unfold normalize_id.
  rewrite trim_space_id by (by apply forall_id_trim).
  rewrite bool_decide_eq_false_2 by done. rewrite id_lower by done.
  destruct (validID s) eqn:Hv; [done|].
  rewrite collapse_id by done.
  change (strip_trailing (strip_leading ?l)) with (trim_by is_dash l).
  assert (head (chars s) = Some "_"%char) as Hus.
  { unfold validID in Hv. destruct (chars s) as [|c l] eqn:E; [by apply chars_nil_iff in E|].
    inversion_clear Hc as [|? ? Hc1 Hc2].
    destruct (id_char_facts _ Hc1) as (_ & _ & _ & _ & [Ha|[->| ->]]); [|done|done].
    rewrite Ha in Hv. simpl in Hv.
    rewrite <-length_chars, E in Hlen. simpl in Hlen. unfold MaxAgentIDLength in Hlen.
    apply andb_false_iff in Hv as [Hv|Hv]; bool_nums; [|lia].
    rewrite (proj2 (forallb_forall _ _)) in Hv; [done|].
    intros x Hx. by apply (proj1 (Forall_forall _ _) Hc2), list_elem_of_In. }
  rewrite trim_by_ends.
  - rewrite length_chars. destruct (MaxAgentIDLength <? _) eqn:E; bool_nums; [lia|].
    rewrite bool_decide_eq_false_2 by (by rewrite chars_nil_iff). by rewrite implode_chars.
  - intros x Hx. rewrite Hus in Hx. by simplify_eq.
  - intros x Hx. unfold is_dash. apply bool_decide_eq_false. intros ->. by apply Hu.
Qed.

Lemma id_form_main : id_form DefaultAgentID.
Proof. by apply validID_form. Qed.
Lemma id_form_default : id_form DefaultAccountID.
Proof. by apply validID_form. Qed.
Lemma NormalizeAgentID_form id : id_form (NormalizeAgentID id).
Proof. apply normalize_id_form, id_form_main. Qed.

#[export] Hint Resolve id_form_main id_form_default NormalizeAgentID_form normalize_id_form : tiny.

(** A normalised agent identifier is never empty, has at most 64
    characters, only lower case letters, digits, dashes and underscores, and
    does not start with a dash; a valid identifier is only trimmed and
    lowercased, a blank one becomes "main". *)
Lemma NormalizeAgentID_normal (id : string) :
  id_form (NormalizeAgentID id)
  ∧ (validID (to_lower (trim_space id)) = true → NormalizeAgentID id = to_lower (trim_space id))
  ∧ (trim_space id = "" → NormalizeAgentID id = "main").
Proof.
  split_and!.
  - apply NormalizeAgentID_form.
  - unfold NormalizeAgentID, normalize_id. case_bool_decide as E.
    + rewrite E. done.
    + intros ->. done.
  - unfold NormalizeAgentID, normalize_id. intros ->. done.
Qed.

(** C40: the form of agent identifiers.  Every identifier is normalised to one
    that is not empty, has at most 64 characters, only lower case letters,
    digits, dashes and underscores, and does not start with a dash; normalising
    it again changes nothing, except when it starts with an underscore and the
    cut at 64 characters ends it in a dash.  The exception is real, and so are
    results that the documented form [[a-z0-9][a-z0-9_-]{0,63}] excludes, and
    results with the trailing dash that the comment says is stripped. *)
Theorem agent_id_form :
  (∀ id, id_form (NormalizeAgentID id))
  ∧ (∀ id, ¬ underscore_dash (NormalizeAgentID id) →
     NormalizeAgentID (NormalizeAgentID id) = NormalizeAgentID id)
  ∧ (∃ id, NormalizeAgentID (NormalizeAgentID id) ≠ NormalizeAgentID id)
  ∧ NormalizeAgentID "_abc" = "_abc" ∧ validID "_abc" = false
  ∧ (∃ id, last (chars (NormalizeAgentID id)) = Some dash
       ∧ validID (to_lower (trim_space id)) = false).
Proof.
  split_and!; [apply NormalizeAgentID_form|..].
  - intros id H. apply normalize_id_stable; [apply NormalizeAgentID_form|done].
  - exists (implode ("_"%char :: replicate 62 "x"%char ++ ["-"%char; "y"%char])).
    vm_compute. discriminate.
  - reflexivity.
  - reflexivity.
  - exists (implode (replicate 63 "x"%char ++ [" "%char; "y"%char])).
    split; vm_compute; reflexivity.
Qed.

(** ** Session keys *)
Lemma normalize_trim fallback s : normalize_id fallback (trim_space s) = normalize_id fallback s.
Proof. unfold normalize_id. by rewrite trim_space_idemp. Qed.

Lemma colon_inj a b x y :
  ":"%char ∉ chars a → ":"%char ∉ chars b →
  a +:+ ":" +:+ x = b +:+ ":" +:+ y → a = b ∧ x = y.
Proof.
  intros Ha Hb H. pose proof (cut_app a ":" x Ha) as Ha'. pose proof (cut_app b ":" y Hb) as Hb'.
  change (String ":" x) with (":" +:+ x) in Ha'. change (String ":" y) with (":" +:+ y) in Hb'.
  rewrite H, Hb' in Ha'. by simplify_eq.
Qed.

(** [s] does not end in white space. *)
Definition ends_solid (s : string) : Prop := ∀ x, last (chars s) = Some x → is_space x = false.

Lemma ends_solid_app s t : t ≠ "" → ends_solid t → ends_solid (s +:+ t).
Proof.
  intros Hne Ht x. rewrite chars_app, last_app. intros Hx. apply Ht.
  destruct (last (chars t)) eqn:E; [done|]. apply last_None, chars_nil_iff in E. done.
Qed.
Lemma ends_solid_check s :
  match last (chars s) with Some x => is_space x | None => false end = false → ends_solid s.
Proof. intros H x Hx. by rewrite Hx in H. Qed.
Lemma ends_solid_trim s : ends_solid (trim_space s).
Proof. intros x. rewrite chars_trim_space. apply trim_by_last. Qed.
Lemma ends_solid_lower s : ends_solid s → ends_solid (to_lower s).
Proof.
  intros H x. rewrite chars_to_lower, fmap_last. intros (y & Hy & ->)%fmap_Some.
  rewrite is_space_lower. by apply H.
Qed.
Lemma to_lower_nil s : to_lower s = "" ↔ s = "".
Proof.
  rewrite <-!chars_nil_iff, chars_to_lower. split; [apply fmap_nil_inv|by intros ->].
Qed.
Lemma append_assoc' (s t u : string) : (s +:+ t) +:+ u = s +:+ (t +:+ u).
Proof. apply (inj chars). rewrite !chars_app. by rewrite app_assoc. Qed.
Lemma normalizeChannel_ne c : normalizeChannel c ≠ "".
Proof. unfold normalizeChannel. by case_bool_decide. Qed.

#[export] Hint Resolve ends_solid_app ends_solid_trim ends_solid_lower normalizeChannel_ne : tiny.

Lemma parse_key a rest :
  id_form a → rest ≠ "" → ends_solid rest →
  ParseAgentSessionKey ("agent:" +:+ a +:+ ":" +:+ rest) = Some (mk_ParsedSessionKey a rest).
Proof.
  intros [Hne _ Hc _] Hr Hs. unfold ParseAgentSessionKey.
  assert (trim_space ("agent:" +:+ a +:+ ":" +:+ rest) = "agent:" +:+ a +:+ ":" +:+ rest) as ->.
  { apply (inj chars). rewrite chars_trim_space. apply trim_by_ends.
    - intros x [= <-]. done.
    - assert (ends_solid ("agent:" +:+ a +:+ ":" +:+ rest)) as H; [|exact H].
      rewrite <-!append_assoc'. by apply ends_solid_app. }
  rewrite bool_decide_eq_false_2 by done.
  change ("agent:" +:+ a +:+ ":" +:+ rest) with ("agent" +:+ String ":" (a +:+ String ":" rest)).
  rewrite cut_app by (refine (bool_decide_unpack (¬ _) _); vm_compute; exact I).
  rewrite cut_app by (by apply id_no_colon).
  simpl. rewrite trim_space_id by (by apply forall_id_trim).
  by rewrite !bool_decide_eq_false_2.
Qed.

Lemma linked_solid links ch p : ends_solid (resolveLinkedPeerID links ch p).
Proof.
  unfold resolveLinkedPeerID.
  case_bool_decide; [by apply ends_solid_check|]. case_bool_decide; [by apply ends_solid_check|].
  generalize (link_candidates ch (trim_space p)). intros l.
  induction links as [|[canonical ids] links IH]; simpl; [by apply ends_solid_check|].
  destruct (decide (links = [])) as [->|]; [|specialize (IH ltac:(done))];
    repeat case_match; auto using ends_solid_trim; by apply ends_solid_check.
Qed.

Lemma build_shape params :
  ¬ underscore_dash (NormalizeAgentID (skp_AgentID params)) →
  ∃ rest, BuildAgentPeerSessionKey params
            = "agent:" +:+ NormalizeAgentID (skp_AgentID params) +:+ ":" +:+ rest
    ∧ rest ≠ "" ∧ ends_solid rest.
Proof.
  intros Hu. unfold BuildAgentPeerSessionKey, BuildAgentMainSessionKey. cbv zeta.
  assert (NormalizeAgentID (NormalizeAgentID (skp_AgentID params))
    = NormalizeAgentID (skp_AgentID params)) as ->.
  { apply normalize_id_stable; [apply NormalizeAgentID_form|done]. }
  set (id := NormalizeAgentID _). set (ch := normalizeChannel _).
  assert (ch ≠ "") as Hch by apply normalizeChannel_ne.
  assert (∀ s : string, s ≠ "" → ∀ t : string, t +:+ s ≠ "") as Happ.
  { intros s Hs t. by destruct t. }
  assert (∀ p : string, p ≠ "" → ends_solid p → ∀ t : string, t +:+ p ≠ "" ∧ ends_solid (t +:+ p)) as Hend.
  { intros p Hp Hsp t. split; [by apply Happ|by apply ends_solid_app]. }
  case_bool_decide.
  2:{ set (pid := if bool_decide (_ = "") then "unknown" else _).
      assert (pid ≠ "" ∧ ends_solid pid) as [Hp Hps].
      { subst pid.
        decide_goal; [split; [done|by apply ends_solid_check]|].
        split; [done|apply ends_solid_lower, ends_solid_trim]. }
      eexists. split; [done|]. rewrite <-!append_assoc'. by apply Hend. }
  set (pid := to_lower _).
  assert (ends_solid pid) as Hps.
  { apply ends_solid_lower. repeat case_match; auto using ends_solid_trim, linked_solid. }
  destruct (decide (pid = "")) as [Hp|Hp].
  - rewrite (bool_decide_eq_true_2 _ Hp). simpl. rewrite !andb_false_r.
    exists "main". split; [done|]. split; [done|by apply ends_solid_check].
  - rewrite (bool_decide_eq_false_2 _ Hp). simpl. rewrite !andb_true_r.
    assert (∀ t : string, t +:+ pid ≠ "" ∧ ends_solid (t +:+ pid)) as Hpid by auto.
    clearbody pid.
    generalize (if bool_decide (skp_DMScope params = "") then DMScopeMain else skp_DMScope params).
    intros dm. repeat decide_goal.
    1: exists (ch +:+ ":" +:+ NormalizeAccountID (skp_AccountID params) +:+ ":direct:" +:+ pid).
    2: exists (ch +:+ ":direct:" +:+ pid).
    3: exists ("direct:" +:+ pid).
    4: { exists "main". split; [done|split; [done|by apply ends_solid_check]]. }
    all: (split; [done|]); rewrite <-?append_assoc'; exact (Hpid _).
Qed.

(** A session key says which agent it belongs to: parsing the key built for
    an agent, also after the router lowercased it, gives back the normalised
    agent identifier, so the keys of two agents never coincide, whatever the
    channel, account, peer, scope and identity links. *)
Lemma session_key_agent (params : SessionKeyParams) :
  let id := NormalizeAgentID (skp_AgentID params) in
  ¬ underscore_dash id →
  (∃ rest, rest ≠ ""
     ∧ ParseAgentSessionKey (BuildAgentPeerSessionKey params) = Some (mk_ParsedSessionKey id rest)
     ∧ ParseAgentSessionKey (to_lower (BuildAgentPeerSessionKey params))
       = Some (mk_ParsedSessionKey id (to_lower rest)))
  ∧ ∀ params', ¬ underscore_dash (NormalizeAgentID (skp_AgentID params')) →
      to_lower (BuildAgentPeerSessionKey params) = to_lower (BuildAgentPeerSessionKey params') →
      id = NormalizeAgentID (skp_AgentID params').
Proof.
  intros id Hu.
  assert (∀ ps, ¬ underscore_dash (NormalizeAgentID (skp_AgentID ps)) →
    ∃ rest, rest ≠ "" ∧
     ParseAgentSessionKey (BuildAgentPeerSessionKey ps)
     = Some (mk_ParsedSessionKey (NormalizeAgentID (skp_AgentID ps)) rest)
     ∧ ParseAgentSessionKey (to_lower (BuildAgentPeerSessionKey ps))
       = Some (mk_ParsedSessionKey (NormalizeAgentID (skp_AgentID ps)) (to_lower rest))) as Hall.
  { intros ps Hps. destruct (build_shape ps Hps) as (rest & -> & Hne & Hs). exists rest.
    pose proof (NormalizeAgentID_form (skp_AgentID ps)) as Hf.
    split_and!; [done|by apply parse_key|].
    rewrite !to_lower_app, (id_lower (NormalizeAgentID _)) by apply Hf.
    change (to_lower "agent:") with "agent:". change (to_lower ":") with ":".
    apply parse_key; [done| |by apply ends_solid_lower]. by rewrite to_lower_nil. }
  split; [by apply Hall|].
  intros params' Hu' Heq.
  destruct (Hall params Hu) as (? & _ & _ & H1), (Hall params' Hu') as (? & _ & _ & H2).
  rewrite Heq, H2 in H1. by simplify_eq.
Qed.

Lemma session_key_agent_witness :
  ∃ rest, rest ≠ ""
    ∧ ParseAgentSessionKey (BuildAgentPeerSessionKey
        (mk_SessionKeyParams "Support Bot" "Telegram" "" (Some (mk_RoutePeer "direct" "User 7"))
           DMScopePerChannelPeer []))
      = Some (mk_ParsedSessionKey "support-bot" rest).
Proof.
  destruct (session_key_agent
    (mk_SessionKeyParams "Support Bot" "Telegram" "" (Some (mk_RoutePeer "direct" "User 7"))
       DMScopePerChannelPeer [])) as [(rest & Hne & H & _) _].
  - intros [H _]. vm_compute in H. discriminate.
  - exists rest. split; [exact Hne|exact H].
Defined.

(** The parameters of a direct message under the scope "per-channel-peer". *)
Definition direct_params (agent channel account peer : string) : SessionKeyParams :=
  mk_SessionKeyParams agent channel account (Some (mk_RoutePeer "direct" peer))
    DMScopePerChannelPeer [].

Lemma direct_key agent channel account peer :
  trim_space peer ≠ "" →
  BuildAgentPeerSessionKey (direct_params agent channel account peer)
  = "agent" +:+ ":" +:+ (NormalizeAgentID agent +:+ ":" +:+
      (normalizeChannel channel +:+ ":" +:+ ("direct" +:+ ":" +:+ to_lower (trim_space peer)))).
Proof.
  intros Hp. unfold BuildAgentPeerSessionKey, direct_params. cbn -[trim_space to_lower].
  change (bool_decide (trim_space "direct" = "")) with false. cbn -[trim_space to_lower].
  change (bool_decide (trim_space "direct" = "direct")) with true. cbn -[trim_space to_lower].
  rewrite (bool_decide_eq_false_2 (trim_space peer = "")) by done. cbn -[trim_space to_lower].
  rewrite (bool_decide_eq_false_2 (to_lower _ = "")) by (by rewrite to_lower_nil).
  done.
Qed.

(** Direct messages are isolated per channel and peer under that scope: two
    keys are equal exactly when the agents, the channels and the peers are
    equal after normalisation, for channel names without a colon; the default
    scope sends all direct messages of an agent to its one main session. *)
Lemma direct_sessions_isolated (a a' ch ch' acc acc' p p' : string) :
  trim_space p ≠ "" → trim_space p' ≠ "" →
  ":"%char ∉ chars (normalizeChannel ch) → ":"%char ∉ chars (normalizeChannel ch') →
  (BuildAgentPeerSessionKey (direct_params a ch acc p)
   = BuildAgentPeerSessionKey (direct_params a' ch' acc' p')
   ↔ NormalizeAgentID a = NormalizeAgentID a' ∧ normalizeChannel ch = normalizeChannel ch'
     ∧ to_lower (trim_space p) = to_lower (trim_space p'))
  ∧ (∀ links, BuildAgentPeerSessionKey
        (mk_SessionKeyParams a ch acc (Some (mk_RoutePeer "direct" p)) "" links)
      = BuildAgentMainSessionKey (NormalizeAgentID a)).
Proof.
  intros Hp Hp' Hc Hc'. split.
  - rewrite !direct_key by done. split.
    + intros H.
      apply colon_inj in H as [_ H];
        [|by refine (bool_decide_unpack (¬ _) _); vm_compute; exact I..].
      apply colon_inj in H as [? H];
        [|by apply id_no_colon, NormalizeAgentID_form..].
      apply colon_inj in H as [? H]; [|done..].
      apply colon_inj in H as [_ H];
        [|by refine (bool_decide_unpack (¬ _) _); vm_compute; exact I..].
      done.
    + intros (-> & -> & ->). done.
  - intros links. unfold BuildAgentPeerSessionKey. cbn -[trim_space to_lower].
    change (bool_decide (trim_space "direct" = "")) with false. cbn -[trim_space to_lower].
    change (bool_decide (trim_space "direct" = "direct")) with true. cbn -[trim_space to_lower].
    done.
Qed.

Lemma direct_sessions_isolated_witness :
  BuildAgentPeerSessionKey (direct_params "main" "telegram" "" "7")
  ≠ BuildAgentPeerSessionKey (direct_params "main" "discord" "" "7").
Proof.
  intros H.
  assert (trim_space "7" ≠ "") as Hp by discriminate.
  assert (":"%char ∉ chars (normalizeChannel "telegram")) as Hc.
  { refine (bool_decide_unpack (¬ _) _). vm_compute. exact I. }
  assert (":"%char ∉ chars (normalizeChannel "discord")) as Hc'.
  { refine (bool_decide_unpack (¬ _) _). vm_compute. exact I. }
  apply (direct_sessions_isolated "main" "main" "telegram" "discord" "" "" "7" "7" Hp Hp Hc Hc')
    in H as (_ & H & _).
  vm_compute in H. discriminate.
Defined.

(** ** The priority cascade *)

(** The six binding levels in order of priority, each with the bindings that
    match there; a level whose field is blank in the message matches nothing. *)
Definition nonblank_peer (peer : option RoutePeer) (b : AgentBinding) : bool :=
  match peer with
  | None => false
  | Some p => negb (bool_decide (trim_space (rp_ID p) = "")) && peer_binding p b
  end.

Definition levels (input : RouteInput) : list (string * (AgentBinding → bool)) :=
  [ ("binding.peer", nonblank_peer (ri_Peer input));
    ("binding.peer.parent", nonblank_peer (ri_ParentPeer input));
    ("binding.guild", λ b, negb (bool_decide (trim_space (ri_GuildID input) = ""))
                           && guild_binding (trim_space (ri_GuildID input)) b);
    ("binding.team", λ b, negb (bool_decide (trim_space (ri_TeamID input) = ""))
                          && team_binding (trim_space (ri_TeamID input)) b);
    ("binding.account", account_binding);
    ("binding.channel", wildcard_binding) ].

(** The first level with a matching binding, and its first such binding. *)
Fixpoint cascade (ls : list (string * (AgentBinding → bool))) (bs : list AgentBinding) :
    option (string * AgentBinding) :=
  match ls with
  | [] => None
  | (name, p) :: ls' =>
      match find_first p bs with
      | Some b => Some (name, b)
      | None => cascade ls' bs
      end
  end.

Lemma find_first_ext {A} (p q : A → bool) l :
  (∀ x, p x = q x) → find_first p l = find_first q l.
Proof. intros H. induction l as [|x l IH]; simpl; [done|]. by rewrite H, IH. Qed.
Lemma find_first_false {A} (l : list A) : find_first (λ _, false) l = None.
Proof. by induction l. Qed.

Lemma guard_find {A} (t : bool) (p : A → bool) l :
  (if t then None else find_first p l) = find_first (λ x, negb t && p x) l.
Proof. destruct t; simpl; [by rewrite find_first_false|done]. Qed.

Lemma peer_level_find bs peer : peer_level bs peer = find_first (nonblank_peer peer) bs.
Proof.
  unfold peer_level, nonblank_peer. destruct peer as [p|]; [|by rewrite find_first_false].
  apply guard_find.
Qed.

Lemma ResolveRoute_cascade cfg input :
  let channel := to_lower (trim_space (ri_Channel input)) in
  let accountID := NormalizeAccountID (ri_AccountID input) in
  ResolveRoute cfg input =
  let '(name, agent) :=
    match cascade (levels input) (filterBindings cfg channel accountID) with
    | Some (name, b) => (name, b_AgentID b)
    | None => ("default", resolveDefaultAgentID cfg)
    end in
  choose cfg channel accountID (ri_Peer input) agent name.
Proof.
  intros channel accountID. unfold ResolveRoute. cbv zeta. fold channel accountID.
  rewrite !peer_level_find. unfold findGuildMatch, findTeamMatch. rewrite !guard_find.
  unfold levels, cascade, findAccountMatch, findChannelWildcardMatch.
  repeat match goal with
  | |- context [find_first ?p ?l] => destruct (find_first p l); [reflexivity|]
  end. reflexivity.
Qed.

Lemma cascade_Some ls bs name b :
  cascade ls bs = Some (name, b) →
  ∃ pre p post, ls = pre ++ (name, p) :: post ∧ find_first p bs = Some b
    ∧ ∀ n q c, (n, q) ∈ pre → c ∈ bs → q c = false.
Proof.
  induction ls as [|[n q] ls IH]; simpl; [done|].
  destruct (find_first q bs) as [b'|] eqn:E.
  - intros [= -> ->]. exists [], q, ls. split_and!; [done|done|]. intros ? ? ? H. by apply not_elem_of_nil in H.
  - intros H. destruct (IH H) as (pre & p & post & -> & ? & Hpre).
    exists ((n, q) :: pre), p, post. split_and!; [done|done|].
    intros n' q' c [[= -> ->]|Hin]%elem_of_cons Hc; [|by eapply Hpre].
    apply find_first_None in E. by apply (proj1 (Forall_forall _ _) E).
Qed.

Lemma cascade_None ls bs :
  cascade ls bs = None → ∀ n q c, (n, q) ∈ ls → c ∈ bs → q c = false.
Proof.
  induction ls as [|[n q] ls IH]; simpl; [intros _ ? ? ? H; by apply not_elem_of_nil in H|].
  destruct (find_first q bs) as [b'|] eqn:E; [done|].
  intros H n' q' c [[= -> ->]|Hin]%elem_of_cons Hc; [|by eapply IH].
  apply find_first_None in E. by apply (proj1 (Forall_forall _ _) E).
Qed.

(** C8: the priority cascade peer > parent peer > guild > team > account >
    channel > default: the agent is picked from a binding that applies to the
    message's channel and account and matches at the reported level, no
    applicable binding matches at a higher level, and none before it in the
    configuration matches at its own level; the default agent is picked only
    when no applicable binding matches at any level. *)
Theorem route_priority (cfg : Config) (input : RouteInput) :
  let channel := to_lower (trim_space (ri_Channel input)) in
  let accountID := NormalizeAccountID (ri_AccountID input) in
  let bs := filterBindings cfg channel accountID in
  let r := ResolveRoute cfg input in
  (∃ pre p post before b after,
     levels input = pre ++ (rr_MatchedBy r, p) :: post
     ∧ bs = before ++ b :: after
     ∧ b ∈ cfg_Bindings cfg ∧ binding_applies channel accountID b = true
     ∧ p b = true ∧ Forall (λ c, p c = false) before
     ∧ (∀ n q c, (n, q) ∈ pre → c ∈ bs → q c = false)
     ∧ rr_AgentID r = pickAgentID cfg (b_AgentID b))
  ∨ (rr_MatchedBy r = "default"
     ∧ (∀ n q c, (n, q) ∈ levels input → c ∈ bs → q c = false)
     ∧ rr_AgentID r = pickAgentID cfg (resolveDefaultAgentID cfg)).
Proof.
  intros channel accountID bs r. subst r. rewrite ResolveRoute_cascade. cbv zeta.
  fold channel accountID bs. destruct (cascade (levels input) bs) as [[name b]|] eqn:E.
  - left. apply cascade_Some in E as (pre & p & post & Hls & Hf & Hpre).
    apply find_first_Some in Hf as (l1 & l2 & Hbs & Hp & Hl1).
    exists pre, p, post, l1, b, l2. simpl.
    assert (In b bs) as Hin by (rewrite Hbs; apply in_elt).
    apply filter_In in Hin as [Hin Happ].
    split_and!; try done. by apply list_elem_of_In.
  - right. simpl. split_and!; [done|by apply cascade_None|done].
Qed.

(** ** The registry *)
Section registry_lemmas.
Context {I : Type} (new : AgentConfig → I).

Lemma registry_fold agents (m : gmap string I) id :
  foldl (λ m ac, <[NormalizeAgentID (ac_ID ac) := new ac]> m) m agents !! id
  = match last (List.filter (λ a, bool_decide (NormalizeAgentID (ac_ID a) = id)) agents) with
    | Some a => Some (new a)
    | None => m !! id
    end.
Proof.
  revert m. induction agents as [|a agents IH]; intros m; simpl; [done|].
  rewrite IH. case_bool_decide as E.
  - rewrite last_cons. destruct (last _); [done|]. by rewrite E, lookup_insert_eq.
  - destruct (last _); [done|]. by rewrite lookup_insert_ne.
Qed.

Lemma registry_lookup cfg id :
  cfg_Agents cfg ≠ [] →
  NewAgentRegistry new cfg !! id
  = new <$> last (List.filter (λ a, bool_decide (NormalizeAgentID (ac_ID a) = id))
                   (cfg_Agents cfg)).
Proof.
  intros Hne. unfold NewAgentRegistry. destruct (cfg_Agents cfg) as [|a agents] eqn:E; [done|].
  rewrite registry_fold, lookup_empty. by destruct (last _).
Qed.

Lemma last_filter_Some (p : AgentConfig → bool) l a :
  a ∈ l → p a = true → ∃ b, last (List.filter p l) = Some b ∧ b ∈ l ∧ p b = true.
Proof.
  intros Hin Hp. destruct (last (List.filter p l)) as [b|] eqn:E.
  - exists b. split; [done|]. apply last_Some_elem_of, list_elem_of_In, filter_In in E as [??].
    by rewrite list_elem_of_In.
  - apply last_None in E.
    assert (In a (List.filter p l)) as H by (apply filter_In; by rewrite <-list_elem_of_In).
    by rewrite E in H.
Qed.
End registry_lemmas.

Lemma first_default_id_Some agents id :
  first_default_id agents = Some id → ∃ a, a ∈ agents ∧ id = NormalizeAgentID (ac_ID a).
Proof.
  induction agents as [|a agents IH]; simpl; [done|].
  intros H. repeat case_match; simplify_eq; try (destruct (IH H) as (b & ? & ?); exists b; set_solver).
  exists a. split; [set_solver|]. apply normalize_trim.
Qed.

Lemma resolveDefault_configured cfg :
  cfg_Agents cfg ≠ [] →
  ∃ a, a ∈ cfg_Agents cfg ∧ resolveDefaultAgentID cfg = NormalizeAgentID (ac_ID a).
Proof.
  intros Hne. unfold resolveDefaultAgentID. destruct (cfg_Agents cfg) as [|a0 agents]; [done|].
  destruct (first_default_id (a0 :: agents)) as [id|] eqn:E; [by apply first_default_id_Some|].
  exists a0. split; [set_solver|]. case_match; [apply normalize_trim|].
  bool_nums. unfold NormalizeAgentID, normalize_id. rewrite H. done.
Qed.

Lemma pickAgentID_configured cfg id :
  (∀ a, a ∈ cfg_Agents cfg → ¬ underscore_dash (NormalizeAgentID (ac_ID a))) →
  cfg_Agents cfg ≠ [] →
  ∃ a, a ∈ cfg_Agents cfg ∧ pickAgentID cfg id = NormalizeAgentID (ac_ID a).
Proof.
  intros Hst Hne.
  destruct (resolveDefault_configured cfg Hne) as (d & Hd & Hdef).
  assert (NormalizeAgentID (resolveDefaultAgentID cfg) = NormalizeAgentID (ac_ID d)) as Hdef'.
  { rewrite Hdef. apply normalize_id_stable; [apply NormalizeAgentID_form|by apply Hst]. }
  unfold pickAgentID. repeat decide_goal; eauto; [done|].
  destruct (existsb _ _) eqn:E; [|by eauto].
  apply existsb_exists in E as (a & Ha & Heq). bool_nums.
  exists a. by rewrite list_elem_of_In.
Qed.

(** With a configured agent list, the agent a route names is always in the
    registry, under an instance built from a configuration with that
    identifier, provided no identifier normalises to one of the form that is
    not stable.  Without an agent list the claim fails: a binding's agent is
    then used for the session key although only "main" is registered. *)
Lemma resolved_agent_registered {I : Type} (new : AgentConfig → I) (cfg : Config)
    (input : RouteInput) :
  (∀ a, a ∈ cfg_Agents cfg → ¬ underscore_dash (NormalizeAgentID (ac_ID a))) →
  cfg_Agents cfg ≠ [] →
  ∃ a, a ∈ cfg_Agents cfg
    ∧ NormalizeAgentID (ac_ID a) = rr_AgentID (ResolveRoute cfg input)
    ∧ GetAgent (NewAgentRegistry new cfg) (rr_AgentID (ResolveRoute cfg input)) = Some (new a).
Proof.
  intros Hst Hne.
  assert (∃ id, rr_AgentID (ResolveRoute cfg input) = pickAgentID cfg id) as [id ->].
  { rewrite ResolveRoute_cascade. cbv zeta. destruct (cascade _ _) as [[??]|]; simpl; eauto. }
  destruct (pickAgentID_configured cfg id Hst Hne) as (a & Ha & ->).
  unfold GetAgent. unfold NormalizeAgentID at 3.
  rewrite (normalize_id_stable _ _ (NormalizeAgentID_form _) (Hst a Ha)).
  rewrite registry_lookup by done.
  destruct (last_filter_Some
    (λ b, bool_decide (NormalizeAgentID (ac_ID b) = NormalizeAgentID (ac_ID a)))
    (cfg_Agents cfg) a) as (b & -> & Hb & Heq); [done|by apply bool_decide_eq_true|].
  bool_nums. by exists b.
Qed.

Definition sample_cfg : Config :=
  mk_Config [mk_AgentConfig "Main" true None; mk_AgentConfig "Support" false None]
    [mk_AgentBinding "support" (mk_BindingMatch "telegram" "*" None "" "")] "" [].

Lemma resolved_agent_registered_witness :
  ∃ a, a ∈ cfg_Agents sample_cfg
    ∧ GetAgent (NewAgentRegistry id sample_cfg)
        (rr_AgentID (ResolveRoute sample_cfg (mk_RouteInput "Telegram" "" None None "" "")))
      = Some a.
Proof.
  destruct (resolved_agent_registered id sample_cfg
    (mk_RouteInput "Telegram" "" None None "" "")) as (a & Ha & _ & H).
  - intros a [->|[->|[]%not_elem_of_nil]%elem_of_cons]%elem_of_cons [H _];
      vm_compute in H; discriminate.
  - discriminate.
  - exists a. split; [exact Ha|exact H].
Defined.

(** Without an agent list, a binding can route to an agent that no registry
    built from the same configuration holds. *)
Lemma unregistered_without_list :
  ∃ cfg input, cfg_Agents cfg = []
    ∧ rr_AgentID (ResolveRoute cfg input) = "support"
    ∧ rr_SessionKey (ResolveRoute cfg input) = "agent:support:main"
    ∧ GetAgent (NewAgentRegistry id cfg) (rr_AgentID (ResolveRoute cfg input)) = None.
Proof.
  exists (mk_Config [] (cfg_Bindings sample_cfg) "" []),
    (mk_RouteInput "Telegram" "" None None "" "").
  split_and!; vm_compute; reflexivity.
Qed.

(** ** Identity links *)
Definition link_matches (candidates : list string) (l : string * list string) : bool :=
  negb (bool_decide (trim_space l.1 = ""))
  && existsb (λ id, let normalized := to_lower (trim_space id) in
                    negb (bool_decide (normalized = ""))
                    && bool_decide (normalized ∈ candidates)) l.2.

Lemma linked_name_find cands links :
  linked_name cands links
  = default "" ((λ l, trim_space l.1) <$> find_first (link_matches cands) links).
Proof.
  induction links as [|[canonical ids] links IH]; simpl; [done|].
  unfold link_matches at 1. simpl. case_bool_decide; simpl; [done|].
  by destruct (existsb _ ids).
Qed.

(** The order in which the runtime iterates the identity links does not
    matter as long as the identifiers of one peer are not listed under two
    different names; when they are, it decides which session the message goes
    to, so the same message may get different session keys. *)
Lemma identity_links_order :
  (∀ links links' channel peer,
     links ≡ₚ links' →
     (∀ l1 l2, l1 ∈ links → l2 ∈ links →
        link_matches (link_candidates channel (trim_space peer)) l1 = true →
        link_matches (link_candidates channel (trim_space peer)) l2 = true →
        trim_space l1.1 = trim_space l2.1) →
     resolveLinkedPeerID links channel peer = resolveLinkedPeerID links' channel peer)
  ∧ (∃ links links' p, links ≡ₚ links'
       ∧ BuildAgentPeerSessionKey (mk_SessionKeyParams "main" "telegram" "" (Some p)
            DMScopePerPeer links)
         ≠ BuildAgentPeerSessionKey (mk_SessionKeyParams "main" "telegram" "" (Some p)
            DMScopePerPeer links')).
Proof.
  split.
  - intros links links' ch peer Hp Huniq. unfold resolveLinkedPeerID.
    destruct (decide (links = [])) as [->|Hne].
    { apply Permutation_nil_l in Hp as <-. done. }
    assert (links' ≠ []) as Hne'.
    { intros ->. by apply Permutation_nil_r in Hp. }
    rewrite !(bool_decide_eq_false_2 _ Hne), !(bool_decide_eq_false_2 _ Hne').
    case_bool_decide; [done|]. rewrite !linked_name_find.
    set (cs := link_candidates ch (trim_space peer)) in *.
    destruct (find_first _ links) as [l1|] eqn:E1, (find_first _ links') as [l2|] eqn:E2; simpl.
    + apply find_first_Some in E1 as (a1 & b1 & -> & ? & _).
      apply find_first_Some in E2 as (a2 & b2 & E & ? & _).
      apply Huniq; try done; [set_solver|]. rewrite Hp, E. set_solver.
    + apply find_first_Some in E1 as (a1 & b1 & E & Hm & _).
      apply find_first_None in E2. rewrite Forall_forall in E2.
      rewrite E2 in Hm; [done|]. rewrite <-Hp, E. set_solver.
    + apply find_first_Some in E2 as (a1 & b1 & E & Hm & _).
      apply find_first_None in E1. rewrite Forall_forall in E1.
      rewrite E1 in Hm; [done|]. rewrite Hp, E. set_solver.
    + done.
  - exists [("alice", ["7"]); ("bob", ["7"])], [("bob", ["7"]); ("alice", ["7"])],
      (mk_RoutePeer "direct" "7").
    split; [apply perm_swap|]. vm_compute. discriminate.
Qed.
