(* ===== verification/Bus.v ===== *)
(** * The message bus (pkg/bus/bus.go, pkg/bus/types.go)

    Two channels of capacity 100 behind one read-write lock.  A publisher holds
    the read lock while it waits for room and sends; [Close] needs the write
    lock.  Each transition is one atomic action of a goroutine; the logs of the
    messages sent and received are only there for the theorems. *)
From stdpp Require Import base gmap strings list.
From Stdlib Require Import Ascii ZArith Lia.
From S2P Require Import Prelude GoStrings.

(** ** Messages *)
Record InboundMessage := mk_InboundMessage {
  im_Channel : string;
  im_SenderID : string;
  im_ChatID : string;
  im_Content : string;
  im_Media : list string;
  im_SessionKey : string;
  im_Metadata : gmap string string;
}.
Record OutboundMessage := mk_OutboundMessage {
  om_Channel : string;
  om_ChatID : string;
  om_Content : string;
}.
Definition zero_inbound : InboundMessage := mk_InboundMessage "" "" "" "" [] "" ∅.
Definition zero_outbound : OutboundMessage := mk_OutboundMessage "" "" "".

(** ** A Go channel with a buffer *)
Record channel (M : Type) := mk_channel {
  buffer : list M;
  ch_closed : bool;
}.
Arguments mk_channel {M}. Arguments buffer {M}. Arguments ch_closed {M}.

Definition capacity : nat := 100.

(** [ch <- msg]: blocks ([None]) when full; on a closed channel it panics. *)
Inductive send_result (A : Type) := Sent (a : A) | Blocks | Panics.
Arguments Sent {A}. Arguments Blocks {A}. Arguments Panics {A}.
Definition send {M} (msg : M) (c : channel M) : send_result (channel M) :=
  if ch_closed c then Panics
  else if length (buffer c) <? capacity then Sent (mk_channel (buffer c ++ [msg]) false)
  else Blocks.

(** [<-ch]: the oldest message; the zero value once a closed channel is empty. *)
Definition receive {M} (zero : M) (c : channel M) : option (M * channel M) :=
  match buffer c with
  | m :: b => Some (m, mk_channel b (ch_closed c))
  | [] => if ch_closed c then Some (zero, c) else None
  end.

(** ** The bus *)
Inductive publication := PubIn (m : InboundMessage) | PubOut (m : OutboundMessage).

Section bus.
Context {Handler : Type}.

Record MessageBus := mk_MessageBus {
  inbound : channel InboundMessage;
  outbound : channel OutboundMessage;
  handlers : gmap string Handler;
  closed : bool;
  readers : list publication;       (* publishers holding the read lock *)
}.

Definition NewMessageBus : MessageBus :=
  mk_MessageBus (mk_channel [] false) (mk_channel [] false) ∅ false [].

(** [PublishInbound] and [PublishOutbound] up to the send: the lock is taken,
    or the call returns at once ([None]) on a closed bus. *)
Definition publish_begin (p : publication) (mb : MessageBus) : option MessageBus :=
  if closed mb then None
  else Some (mk_MessageBus (inbound mb) (outbound mb) (handlers mb) (closed mb) (p :: readers mb)).

Definition remove_reader (i : nat) (mb : MessageBus) : list publication :=
  take i (readers mb) ++ drop (S i) (readers mb).

(** The send of the [i]-th publisher, and the release of its lock. *)
Definition publish_send (i : nat) (mb : MessageBus) : send_result MessageBus :=
  match readers mb !! i with
  | Some (PubIn m) =>
      match send m (inbound mb) with
      | Sent c => Sent (mk_MessageBus c (outbound mb) (handlers mb) (closed mb) (remove_reader i mb))
      | Blocks => Blocks
      | Panics => Panics
      end
  | Some (PubOut m) =>
      match send m (outbound mb) with
      | Sent c => Sent (mk_MessageBus (inbound mb) c (handlers mb) (closed mb) (remove_reader i mb))
      | Blocks => Blocks
      | Panics => Panics
      end
  | None => Blocks
  end.

(** A call without contention; [None]: it blocks. *)
Definition publish (p : publication) (mb : MessageBus) : option MessageBus :=
  match publish_begin p mb with
  | None => Some mb
  | Some mb => match publish_send 0 mb with Sent mb => Some mb | _ => None end
  end.
Definition PublishInbound (m : InboundMessage) := publish (PubIn m).
Definition PublishOutbound (m : OutboundMessage) := publish (PubOut m).

(** [ConsumeInbound] and [SubscribeOutbound]: the [select] takes a ready
    channel or, when [ctx_done], may give up; [None]: it blocks. *)
Definition ConsumeInbound (ctx_done : bool) (mb : MessageBus) :
    option ((InboundMessage * bool) * MessageBus) :=
  if ctx_done then Some ((zero_inbound, false), mb)
  else
    match receive zero_inbound (inbound mb) with
    | Some (m, c) =>
        Some ((m, true), mk_MessageBus c (outbound mb) (handlers mb) (closed mb) (readers mb))
    | None => None
    end.
Definition SubscribeOutbound (ctx_done : bool) (mb : MessageBus) :
    option ((OutboundMessage * bool) * MessageBus) :=
  if ctx_done then Some ((zero_outbound, false), mb)
  else
    match receive zero_outbound (outbound mb) with
    | Some (m, c) =>
        Some ((m, true), mk_MessageBus (inbound mb) c (handlers mb) (closed mb) (readers mb))
    | None => None
    end.

Definition RegisterHandler (ch : string) (h : Handler) (mb : MessageBus) : option MessageBus :=
  match readers mb with
  | [] => Some (mk_MessageBus (inbound mb) (outbound mb) (<[ch := h]> (handlers mb)) (closed mb) [])
  | _ => None
  end.
Definition GetHandler (ch : string) (mb : MessageBus) : option Handler := handlers mb !! ch.

(** [Close] waits ([None]) for the write lock while publishers hold theirs. *)
Definition Close (mb : MessageBus) : option MessageBus :=
  match readers mb with
  | [] => if closed mb then Some mb
          else Some (mk_MessageBus (mk_channel (buffer (inbound mb)) true)
                       (mk_channel (buffer (outbound mb)) true) (handlers mb) true [])
  | _ => None
  end.

(** ** Runs, with what was sent and what was received *)
Record run_state := mk_run_state {
  rs_bus : MessageBus;
  sent_in : list InboundMessage;
  got_in : list InboundMessage;
  sent_out : list OutboundMessage;
  got_out : list OutboundMessage;
}.

(** The messages received are all that a consumer is given as received ([true]), the empty
    ones of a closed bus with the others. *)
Inductive bus_step : run_state → run_state → Prop :=
| bs_begin p mb mb' si gi so go :
    publish_begin p mb = Some mb' →
    bus_step (mk_run_state mb si gi so go) (mk_run_state mb' si gi so go)
| bs_send_in i m mb mb' si gi so go :
    readers mb !! i = Some (PubIn m) → publish_send i mb = Sent mb' →
    bus_step (mk_run_state mb si gi so go) (mk_run_state mb' (si ++ [m]) gi so go)
| bs_send_out i m mb mb' si gi so go :
    readers mb !! i = Some (PubOut m) → publish_send i mb = Sent mb' →
    bus_step (mk_run_state mb si gi so go) (mk_run_state mb' si gi (so ++ [m]) go)
| bs_recv_in m mb mb' si gi so go :
    ConsumeInbound false mb = Some ((m, true), mb') →
    bus_step (mk_run_state mb si gi so go) (mk_run_state mb' si (gi ++ [m]) so go)
| bs_recv_out m mb mb' si gi so go :
    SubscribeOutbound false mb = Some ((m, true), mb') →
    bus_step (mk_run_state mb si gi so go) (mk_run_state mb' si gi so (go ++ [m]))
| bs_register ch h mb mb' si gi so go :
    RegisterHandler ch h mb = Some mb' →
    bus_step (mk_run_state mb si gi so go) (mk_run_state mb' si gi so go)
| bs_close mb mb' si gi so go :
    Close mb = Some mb' →
    bus_step (mk_run_state mb si gi so go) (mk_run_state mb' si gi so go).

Definition bus_init : run_state := mk_run_state NewMessageBus [] [] [] [].

(** One direction: what was given to consumers is what was sent, up to what is still
    buffered, and then empty messages, only from a bus that is closed and drained. *)
Definition fifo {M} (zero : M) (sent got buffered : list M) (bus_closed : bool) : Prop :=
  ∃ delivered n, got = delivered ++ replicate n zero ∧ sent = delivered ++ buffered ∧
    (n ≠ 0 → bus_closed = true ∧ buffered = []).

Lemma fifo_send {M} (zero : M) sent got buffered m :
  fifo zero sent got buffered false → fifo zero (sent ++ [m]) got (buffered ++ [m]) false.
Proof.
  intros (d & n & -> & -> & Hn). destruct n; [|by destruct Hn]. exists d, 0.
  split_and!; [done|by rewrite <-app_assoc|done].
Qed.

Lemma fifo_receive {M} (zero : M) sent got m rest bus_closed :
  fifo zero sent got (m :: rest) bus_closed → fifo zero sent (got ++ [m]) rest bus_closed.
Proof.
  intros (d & n & -> & -> & Hn). destruct n; [|by destruct Hn]. exists (d ++ [m]), 0.
  cbn. rewrite !app_nil_r, <-app_assoc. done.
Qed.

Lemma fifo_zero {M} (zero : M) sent got :
  fifo zero sent got [] true → fifo zero sent (got ++ [zero]) [] true.
Proof.
  intros (d & n & -> & -> & Hn). exists d, (S n).
  rewrite <-app_assoc, <-replicate_S_end. done.
Qed.

Lemma fifo_close {M} (zero : M) sent got buffered bus_closed :
  fifo zero sent got buffered bus_closed → fifo zero sent got buffered true.
Proof. intros (d & n & -> & -> & Hn). exists d, n. split_and!; [done..|]. intros H. by destruct (Hn H). Qed.

Record bus_ok (s : run_state) : Prop := {
  ok_in : fifo zero_inbound (sent_in s) (got_in s) (buffer (inbound (rs_bus s))) (closed (rs_bus s));
  ok_out : fifo zero_outbound (sent_out s) (got_out s) (buffer (outbound (rs_bus s))) (closed (rs_bus s));
  ok_capacity : length (buffer (inbound (rs_bus s))) ≤ capacity
                ∧ length (buffer (outbound (rs_bus s))) ≤ capacity;
  ok_flags : ch_closed (inbound (rs_bus s)) = closed (rs_bus s)
             ∧ ch_closed (outbound (rs_bus s)) = closed (rs_bus s);
  ok_readers : closed (rs_bus s) = true → readers (rs_bus s) = [];
}.

Lemma send_Sent {M} (m : M) c c' :
  send m c = Sent c' → ch_closed c = false ∧ c' = mk_channel (buffer c ++ [m]) false
                       ∧ length (buffer c) < capacity.
Proof.
  unfold send. destruct (ch_closed c); [done|].
  destruct (Nat.ltb_spec (length (buffer c)) capacity); [|done]. by intros [= <-].
Qed.

Lemma bus_step_ok s s' : bus_step s s' → bus_ok s → bus_ok s'.
Proof.
  intros Hs [Hi Ho [Hc1 Hc2] [Hf1 Hf2] Hr].
  destruct Hs as [p mb mb' si gi so go H|i m mb mb' si gi so go Hl H|i m mb mb' si gi so go Hl H
    |m mb mb' si gi so go H|m mb mb' si gi so go H|ch h mb mb' si gi so go H
    |mb mb' si gi so go H]; simpl in *.
  - unfold publish_begin in H. destruct (closed mb) eqn:E; simplify_eq. by constructor.
  - unfold publish_send in H. rewrite Hl in H.
    destruct (send m (inbound mb)) as [c| |] eqn:E; simplify_eq.
    apply send_Sent in E as (E1 & -> & Hlt). assert (closed mb = false) as Hcl by congruence.
    rewrite Hcl in Hi, Ho. constructor; simpl; rewrite ?Hcl; try done; try (split; congruence).
    + by apply fifo_send.
    + rewrite length_app. simpl. unfold capacity in *. lia.
  - unfold publish_send in H. rewrite Hl in H.
    destruct (send m (outbound mb)) as [c| |] eqn:E; simplify_eq.
    apply send_Sent in E as (E1 & -> & Hlt). assert (closed mb = false) as Hcl by congruence.
    rewrite Hcl in Hi, Ho. constructor; simpl; rewrite ?Hcl; try done; try (split; congruence).
    + by apply fifo_send.
    + rewrite length_app. simpl. unfold capacity in *. lia.
  - unfold ConsumeInbound, receive in H. destruct (buffer (inbound mb)) as [|x b] eqn:E.
    + destruct (ch_closed (inbound mb)) eqn:Ec; simplify_eq/=. rewrite <-Hf1 in *.
      constructor; simpl; rewrite ?E, ?Ec, <-?Hf1 in *; try done. by apply fifo_zero.
    + simplify_eq/=. constructor; simpl; try done; [by apply fifo_receive|]. simpl in Hc1. lia.
  - unfold SubscribeOutbound, receive in H. destruct (buffer (outbound mb)) as [|x b] eqn:E.
    + destruct (ch_closed (outbound mb)) eqn:Ec; simplify_eq/=. rewrite <-Hf2 in *.
      constructor; simpl; rewrite ?E, ?Ec, <-?Hf2 in *; try done. by apply fifo_zero.
    + simplify_eq/=. constructor; simpl; try done; [by apply fifo_receive|]. simpl in Hc2. lia.
  - unfold RegisterHandler in H. destruct (readers mb); simplify_eq. by constructor.
  - unfold Close in H. destruct (readers mb) eqn:E; [|done].
    destruct (closed mb) eqn:Ec; simplify_eq; constructor; simpl;
      first [done | split; congruence | congruence | by eapply fifo_close].
Qed.

(** C37: the bus is a pair of FIFO queues of at most 100 messages, in every
    interleaving of publishers, consumers and [Close]: what consumers were given
    followed by what is buffered is what was sent, in order, so no message is lost,
    duplicated or reordered, also not by [Close]; the only other messages given to
    them are empty ones, and these only come from a bus that is closed, after
    everything that was sent; and no publisher ever sends on a closed channel, which
    would panic. *)
Theorem bus_fifo (s : run_state) :
  rtc bus_step bus_init s →
  fifo zero_inbound (sent_in s) (got_in s) (buffer (inbound (rs_bus s))) (closed (rs_bus s))
  ∧ fifo zero_outbound (sent_out s) (got_out s) (buffer (outbound (rs_bus s))) (closed (rs_bus s))
  ∧ length (buffer (inbound (rs_bus s))) ≤ 100 ∧ length (buffer (outbound (rs_bus s))) ≤ 100
  ∧ ∀ i, publish_send i (rs_bus s) ≠ Panics.
Proof.
  intros Hr. assert (bus_ok s) as [Hi Ho [Hc1 Hc2] [Hf1 Hf2] Hrd].
  { assert (bus_ok bus_init) as H0.
    { constructor; cbn; unfold capacity; first [by exists [], 0|done|lia]. }
    induction Hr as [s|s1 s2 s3 Hs _ IH]; [done|]. apply IH. by eapply bus_step_ok. }
  split_and!; try done. intros i. unfold publish_send.
  destruct (readers (rs_bus s) !! i) as [p|] eqn:E; [|done].
  assert (closed (rs_bus s) = false) as Hcl.
  { apply not_true_iff_false. intros Hcl. by rewrite (Hrd Hcl) in E. }
  unfold send. rewrite Hf1, Hf2, Hcl. destruct p; case_inner; discriminate.
Qed.

(** Consumers cannot tell a closed bus from a message: once the bus is
    closed and its buffer drained, [ConsumeInbound] and [SubscribeOutbound]
    return at once, without end, an empty message marked as received; and a
    publisher blocked on a full buffer keeps [Close] waiting for ever. *)
Lemma closed_bus_yields_empty_messages (mb mb' : MessageBus) :
  ch_closed (inbound mb) = closed mb → ch_closed (outbound mb) = closed mb →
  Close mb = Some mb' → buffer (inbound mb) = [] → buffer (outbound mb) = [] →
  ConsumeInbound false mb' = Some ((zero_inbound, true), mb')
  ∧ SubscribeOutbound false mb' = Some ((zero_outbound, true), mb')
  ∧ ∀ p mb2, publish_begin p mb = Some mb2 → Close mb2 = None.
Proof.
  intros Hi Ho Hc Hbi Hbo.
  assert (closed mb' = true ∧ inbound mb' = mk_channel [] true ∧ outbound mb' = mk_channel [] true)
    as (Hcl & Hi' & Ho').
  { unfold Close in Hc. destruct (readers mb); [|done].
    destruct (closed mb) eqn:E; injection Hc as <-; simpl; [|by rewrite Hbi, Hbo].
    destruct mb as [[bi ci] [bo co] h cl rd]; simpl in *. by subst. }
  unfold ConsumeInbound, SubscribeOutbound, receive. rewrite Hi', Ho'. simpl.
  split_and!; [by destruct mb'; simpl in *; subst|by destruct mb'; simpl in *; subst|].
  intros p mb2. unfold publish_begin. destruct (closed mb); [done|]. by intros [= <-].
Qed.
End bus.

(** ** Concrete runs *)
Definition sample_msg : InboundMessage := mk_InboundMessage "telegram" "7" "7" "hi" [] "" ∅.
Definition bus_0 : MessageBus (Handler := unit) := NewMessageBus.
Definition bus_1 : MessageBus (Handler := unit) := default bus_0 (publish_begin (PubIn sample_msg) bus_0).
Definition bus_2 : MessageBus (Handler := unit) := default bus_0 (PublishInbound sample_msg bus_0).
Definition bus_3 : MessageBus (Handler := unit) := default bus_0 (Close bus_0).

(** One message is sent, the bus is closed, and the consumer is given the message and then
    an empty one. *)
Definition bus_4 : MessageBus (Handler := unit) := default bus_0 (Close bus_2).
Definition bus_5 : MessageBus (Handler := unit) :=
  match ConsumeInbound false bus_4 with Some (_, mb) => mb | None => bus_0 end.

Lemma bus_fifo_witness :
  rtc bus_step (bus_init (Handler := unit)) (mk_run_state bus_5 [sample_msg] [sample_msg; zero_inbound] [] [])
  ∧ fifo zero_inbound [sample_msg] [sample_msg; zero_inbound] [] true
  ∧ ∀ i, publish_send i bus_5 ≠ Panics.
Proof.
  assert (rtc bus_step (bus_init (Handler := unit))
    (mk_run_state bus_5 [sample_msg] [sample_msg; zero_inbound] [] [])) as H.
  { eapply rtc_l; [apply (bs_begin (PubIn sample_msg) _ bus_1); reflexivity|].
    eapply rtc_l; [apply (bs_send_in 0 sample_msg bus_1 bus_2 []); reflexivity|].
    eapply rtc_l; [apply (bs_close bus_2 bus_4); reflexivity|].
    eapply rtc_l; [apply (bs_recv_in sample_msg bus_4 bus_5); reflexivity|].
    eapply rtc_l; [apply (bs_recv_in zero_inbound bus_5 bus_5); reflexivity|]. apply rtc_refl. }
  split; [exact H|]. destruct (bus_fifo _ H) as (H1 & _ & _ & _ & H5). split; [exact H1|exact H5].
Defined.

Lemma closed_bus_yields_empty_messages_witness :
  ConsumeInbound false bus_3 = Some ((zero_inbound, true), bus_3).
Proof.
  apply (closed_bus_yields_empty_messages bus_0 bus_3); reflexivity.
Defined.
