(* ===== verification/Session.v ===== *)
(** * Sessions (pkg/session/manager.go)

    The conversation histories: the in-memory map with its operations, and the
    storage directory it is saved to and loaded from.  Operations take the
    clock reading [now].  A file of the directory is modelled by what
    [json.Unmarshal] finds in it; the texts are valid UTF-8. *)
From stdpp Require Import base gmap strings list sorting.
From Stdlib Require Import Ascii ZArith Lia.
From S2P Require Import Prelude GoStrings ProviderTypes Paths.

(** ** State *)
Record Session := mk_Session {
  s_Key : string;
  s_Messages : list Message;
  s_Summary : string;
  s_Created : time;
  s_Updated : time;
}.

Record SessionManager := mk_SessionManager {
  sessions : gmap string Session;
  storage : string;
}.

Definition set_sessions (sm : SessionManager) (m : gmap string Session) : SessionManager :=
  mk_SessionManager m (storage sm).

(** ** Operations on the map *)
Definition new_session (now : time) (key : string) : Session := mk_Session key [] "" now now.

Definition GetOrCreate (now : time) (key : string) (sm : SessionManager) :
    Session * SessionManager :=
  match sessions sm !! key with
  | Some session => (session, sm)
  | None => let session := new_session now key in
            (session, set_sessions sm (<[key := session]> (sessions sm)))
  end.

Definition AddFullMessage (now : time) (sessionKey : string) (msg : Message)
    (sm : SessionManager) : SessionManager :=
  let session := default (mk_Session sessionKey [] "" now 0%Z) (sessions sm !! sessionKey) in
  set_sessions sm
    (<[sessionKey := mk_Session (s_Key session) (s_Messages session ++ [msg])
                       (s_Summary session) (s_Created session) now]> (sessions sm)).

Definition AddMessage (now : time) (sessionKey role content : string) (sm : SessionManager) :
    SessionManager :=
  AddFullMessage now sessionKey (text_message role content) sm.

Definition GetHistory (key : string) (sm : SessionManager) : list Message :=
  match sessions sm !! key with Some s => s_Messages s | None => [] end.

Definition GetSummary (key : string) (sm : SessionManager) : string :=
  match sessions sm !! key with Some s => s_Summary s | None => "" end.

Definition SetSummary (now : time) (key summary : string) (sm : SessionManager) :
    SessionManager :=
  match sessions sm !! key with
  | Some s => set_sessions sm
      (<[key := mk_Session (s_Key s) (s_Messages s) summary (s_Created s) now]> (sessions sm))
  | None => sm
  end.

Definition with_messages (now : time) (msgs : list Message) (s : Session) : Session :=
  mk_Session (s_Key s) msgs (s_Summary s) (s_Created s) now.

Definition TruncateHistory (now : time) (key : string) (keepLast : Z) (sm : SessionManager) :
    SessionManager :=
  match sessions sm !! key with
  | None => sm
  | Some s =>
      if (keepLast <=? 0)%Z
      then set_sessions sm (<[key := with_messages now [] s]> (sessions sm))
      else if (Z.of_nat (length (s_Messages s)) <=? keepLast)%Z then sm
      else set_sessions sm
        (<[key := with_messages now
                    (drop (length (s_Messages s) - Z.to_nat keepLast) (s_Messages s)) s]>
           (sessions sm))
  end.

Definition SetHistory (now : time) (key : string) (history : list Message)
    (sm : SessionManager) : SessionManager :=
  match sessions sm !! key with
  | Some s => set_sessions sm (<[key := with_messages now history s]> (sessions sm))
  | None => sm
  end.

(** ** The storage directory *)
Inductive file :=
| Directory
| Unreadable
| NotASession                  (* the decoding fails: a partial write, say *)
| SavedSession (s : Session).

Abbreviation disk := (gmap string file).

(** A session after encoding and decoding. *)
Definition json_Session (s : Session) : Session :=
  mk_Session (s_Key s) (json_Message <$> s_Messages s) (s_Summary s) (s_Created s) (s_Updated s).

Definition sanitizeFilename (key : string) : string := replace_char ":" "_" key.
Definition file_of (key : string) : string := sanitizeFilename key +:+ ".json".

Definition valid_filename (filename : string) : bool :=
  negb (bool_decide (filename = ".") || negb (IsLocal filename) || contains_any filename "/\").

(** The steps of [Save] that can fail, and what the world answers: the random
    part of the temporary file's name, the failure if any, whether the removal
    of the temporary file succeeds. *)
Inductive save_fault := CreateFails | WriteFails | ChmodFails | SyncFails | CloseFails | RenameFails.
Record save_env := mk_save_env {
  tmp_random : string;
  fault : option save_fault;
  remove_ok : bool;
}.
Definition tmp_name (env : save_env) : string := "session-" +:+ tmp_random env +:+ ".tmp".

Inductive save_error := ErrInvalid | ErrIO (f : save_fault).

(** [Save], with the successive states of the directory that it goes through. *)
Definition Save (env : save_env) (key : string) (sm : SessionManager) (d : disk) :
    result save_error unit * list disk :=
  if bool_decide (storage sm = "") then (Ok tt, [])
  else
    let filename := sanitizeFilename key in
    if negb (valid_filename filename) then (Err ErrInvalid, [])
    else
      match sessions sm !! key with
      | None => (Ok tt, [])
      | Some stored =>
          let data := SavedSession (json_Session stored) in
          let sessionPath := filename +:+ ".json" in
          let tmp := tmp_name env in
          let cleanup (d : disk) := if remove_ok env then delete tmp d else d in
          let d1 := <[tmp := NotASession]> d in
          let d2 := <[tmp := data]> d in
          match fault env with
          | Some CreateFails => (Err (ErrIO CreateFails), [])
          | Some WriteFails => (Err (ErrIO WriteFails), [d1; cleanup d1])
          | Some f => (Err (ErrIO f), [d1; d2; cleanup d2])
          | None => (Ok tt, [d1; d2; <[sessionPath := data]> (delete tmp d)])
          end
      end.

(** [os.ReadDir] lists the directory by file name. *)
Definition name_le (a b : string * file) : Prop := String.leb a.1 b.1 = true.
#[export] Instance name_le_dec : RelDecision name_le.
Proof. intros a b. unfold name_le. apply _. Defined.

Definition read_dir (d : disk) : list (string * file) := merge_sort name_le (map_to_list d).

Definition load_file (m : gmap string Session) (nf : string * file) : gmap string Session :=
  match nf.2 with
  | SavedSession s => if bool_decide (Ext nf.1 = ".json") then <[s_Key s := s]> m else m
  | _ => m
  end.

Definition loadSessions (d : disk) : gmap string Session := foldl load_file ∅ (read_dir d).

Definition NewSessionManager (storage : string) (d : disk) : SessionManager :=
  if bool_decide (storage = "") then mk_SessionManager ∅ storage
  else mk_SessionManager (loadSessions d) storage.

(** ** The operations as updates of one history *)

(** Every session is stored under its own key. *)
Definition keyed (sm : SessionManager) : Prop :=
  ∀ k s, sessions sm !! k = Some s → s_Key s = k.

Lemma keyed_insert sm k s :
  keyed sm → s_Key s = k → keyed (set_sessions sm (<[k := s]> (sessions sm))).
Proof.
  intros Hk Hs k' s'. simpl. rewrite lookup_insert. case_decide; [by intros [= <-]; subst|].
  apply Hk.
Qed.
#[export] Hint Resolve keyed_insert : tiny.

Lemma ops_keyed now sm key :
  keyed sm →
  keyed (GetOrCreate now key sm).2
  ∧ (∀ m, keyed (AddFullMessage now key m sm)) ∧ (∀ t, keyed (SetSummary now key t sm))
  ∧ (∀ n, keyed (TruncateHistory now key n sm)) ∧ (∀ h, keyed (SetHistory now key h sm)).
Proof.
  intros Hk. unfold GetOrCreate, AddFullMessage, SetSummary, TruncateHistory, SetHistory.
  destruct (sessions sm !! key) as [s|] eqn:E; simpl;
    [pose proof (Hk _ _ E)|]; split_and!; intros; auto with tiny.
  repeat case_match; auto with tiny.
Qed.

Lemma GetHistory_insert sm k s k' :
  GetHistory k' (set_sessions sm (<[k := s]> (sessions sm)))
  = if decide (k = k') then s_Messages s else GetHistory k' sm.
Proof. unfold GetHistory. simpl. rewrite lookup_insert. by case_decide. Qed.
Lemma GetSummary_insert sm k s k' :
  GetSummary k' (set_sessions sm (<[k := s]> (sessions sm)))
  = if decide (k = k') then s_Summary s else GetSummary k' sm.
Proof. unfold GetSummary. simpl. rewrite lookup_insert. by case_decide. Qed.

(** The last [n] messages. *)
Definition last_n (n : nat) (l : list Message) : list Message := drop (length l - n) l.

(** *** The abstract store: a history and a summary per key *)
Abbreviation store := (gmap string (list Message * string)) (only parsing).

Definition abs (sm : SessionManager) : store := (λ s, (s_Messages s, s_Summary s)) <$> sessions sm.

Inductive session_op :=
| OpGetOrCreate
| OpAdd (m : Message)
| OpSetSummary (t : string)
| OpTruncate (n : Z)
| OpSetHistory (h : list Message).

Definition run_op (o : time * string * session_op) (sm : SessionManager) : SessionManager :=
  let '(now, key, op) := o in
  match op with
  | OpGetOrCreate => (GetOrCreate now key sm).2
  | OpAdd m => AddFullMessage now key m sm
  | OpSetSummary t => SetSummary now key t sm
  | OpTruncate n => TruncateHistory now key n sm
  | OpSetHistory h => SetHistory now key h sm
  end.

Definition spec_op (o : time * string * session_op) (st : store) : store :=
  let '(_, key, op) := o in
  let '(history, summary) := default ([], "") (st !! key) in
  match op with
  | OpGetOrCreate => <[key := (history, summary)]> st
  | OpAdd m => <[key := (history ++ [m], summary)]> st
  | OpSetSummary t => alter (λ hs, (hs.1, t)) key st
  | OpTruncate n => alter (λ hs, (last_n (Z.to_nat n) hs.1, hs.2)) key st
  | OpSetHistory h => alter (λ hs, (h, hs.2)) key st
  end.

Lemma abs_lookup sm k : abs sm !! k = (λ s, (s_Messages s, s_Summary s)) <$> sessions sm !! k.
Proof. unfold abs. by rewrite lookup_fmap. Qed.

Lemma abs_insert sm k s :
  abs (set_sessions sm (<[k := s]> (sessions sm))) = <[k := (s_Messages s, s_Summary s)]> (abs sm).
Proof. unfold abs. simpl. by rewrite fmap_insert. Qed.

Lemma alter_Some (st : store) k hs f : st !! k = Some hs → alter f k st = <[k := f hs]> st.
Proof.
  intros H. apply map_eq. intros j. destruct (decide (k = j)) as [<-|Hn].
  - by rewrite lookup_alter_eq, lookup_insert_eq, H.
  - by rewrite lookup_alter_ne, lookup_insert_ne.
Qed.
Lemma alter_None (st : store) k f : st !! k = None → alter f k st = st.
Proof.
  intros H. apply map_eq. intros j. destruct (decide (k = j)) as [<-|Hn].
  - by rewrite lookup_alter_eq, H.
  - by rewrite lookup_alter_ne.
Qed.

Lemma last_n_all n l : length l ≤ n → last_n n l = l.
Proof. intros H. unfold last_n. by replace (length l - n) with 0 by lia. Qed.

Lemma run_op_refines o sm : abs (run_op o sm) = spec_op o (abs sm).
Proof.
  destruct o as [[now key] op]. cbn [run_op spec_op]. rewrite abs_lookup.
  unfold GetOrCreate, AddFullMessage, SetSummary, TruncateHistory, SetHistory.
  destruct (sessions sm !! key) as [s|] eqn:E; cbn [fmap option_fmap option_map default from_option];
    (assert (abs sm !! key = (λ s, (s_Messages s, s_Summary s)) <$> sessions sm !! key) as Ea
       by apply abs_lookup; rewrite E in Ea; cbn in Ea);
    destruct op as [|m|t|n|h]; cbn [snd id];
    rewrite ?abs_insert, ?(alter_Some _ _ _ _ Ea), ?(alter_None _ _ _ Ea);
    try done; [by rewrite insert_id|].
  repeat case_match; bool_nums; rewrite ?abs_insert; simpl; try done.
  - replace (Z.to_nat n) with 0 by lia. unfold last_n. by rewrite Nat.sub_0_r, drop_all.
  - rewrite last_n_all, insert_id by (done || lia). done.
Qed.

Lemma GetHistory_abs sm k : GetHistory k sm = (default ([], "") (abs sm !! k)).1.
Proof. unfold GetHistory. rewrite abs_lookup. by destruct (sessions sm !! k). Qed.
Lemma GetSummary_abs sm k : GetSummary k sm = (default ([], "") (abs sm !! k)).2.
Proof. unfold GetSummary. rewrite abs_lookup. by destruct (sessions sm !! k). Qed.

Lemma run_op_keyed o sm : keyed sm → keyed (run_op o sm).
Proof.
  destruct o as [[now key] op]. intros Hk. destruct (ops_keyed now sm key Hk) as (?&?&?&?&?).
  destruct op; simpl; auto.
Qed.

Lemma run_op_other now key op sm k : k ≠ key → sessions (run_op (now, key, op) sm) !! k = sessions sm !! k.
Proof.
  intros Hn. destruct op; unfold run_op, GetOrCreate, AddFullMessage, SetSummary, TruncateHistory,
    SetHistory; repeat case_match; simpl; by rewrite ?lookup_insert_ne by done.
Qed.

Lemma run_op_storage o sm : storage (run_op o sm) = storage sm.
Proof.
  destruct o as [[now key] op]. destruct op; unfold run_op, GetOrCreate, AddFullMessage, SetSummary,
    TruncateHistory, SetHistory; by repeat case_match.
Qed.

Lemma GetHistory_add now key m sm :
  GetHistory key (AddFullMessage now key m sm) = GetHistory key sm ++ [m].
Proof.
  unfold AddFullMessage. rewrite GetHistory_insert, decide_True by done. simpl.
  unfold GetHistory. by destruct (sessions sm !! key).
Qed.
Lemma GetHistory_set now key h sm :
  is_Some (sessions sm !! key) → GetHistory key (SetHistory now key h sm) = h.
Proof.
  intros [s E]. unfold SetHistory. by rewrite E, GetHistory_insert, decide_True by done.
Qed.

Lemma GetHistory_truncate now key n sm :
  GetHistory key (TruncateHistory now key n sm) = last_n (Z.to_nat n) (GetHistory key sm).
Proof.
  change (TruncateHistory now key n sm) with (run_op (now, key, OpTruncate n) sm).
  rewrite !GetHistory_abs, run_op_refines. cbn [spec_op].
  destruct (abs sm !! key) as [[h t]|] eqn:E; cbn [default from_option id]; by rewrite lookup_alter_eq, E.
Qed.
Lemma SetSummary_spec now key t sm :
  is_Some (sessions sm !! key) →
  GetHistory key (SetSummary now key t sm) = GetHistory key sm
  ∧ GetSummary key (SetSummary now key t sm) = t.
Proof.
  intros [s E]. unfold SetSummary. rewrite E, GetHistory_insert, GetSummary_insert, !decide_True by done.
  unfold GetHistory. by rewrite E.
Qed.
Lemma GetSummary_truncate now key n sm :
  GetSummary key (TruncateHistory now key n sm) = GetSummary key sm.
Proof.
  change (TruncateHistory now key n sm) with (run_op (now, key, OpTruncate n) sm).
  rewrite !GetSummary_abs, run_op_refines. cbn [spec_op].
  destruct (abs sm !! key) as [[h t]|] eqn:E; cbn [default from_option id]; by rewrite lookup_alter_eq, E.
Qed.

(** C11: the session manager refines a map from keys to a history and a
    summary.  Whatever operations run, at whatever times, the manager stands for
    the abstract store on which adding appends, truncating keeps the last
    messages, setting replaces what a known key has, and nothing else changes;
    and what the manager reads back for a key is what the store has for it.
    Every session stays under its own key. *)
Theorem sessions_refine_store (ops : list (time * string * session_op)) (sm : SessionManager) :
  let sm' := foldl (λ sm o, run_op o sm) sm ops in
  let st' := foldl (λ st o, spec_op o st) (abs sm) ops in
  abs sm' = st'
  ∧ (∀ k, (GetHistory k sm', GetSummary k sm') = default ([], "") (st' !! k))
  ∧ (keyed sm → keyed sm').
Proof.
  intros sm' st'. assert (abs sm' = st') as H.
  { subst sm' st'. revert sm. induction ops as [|o ops IH]; intros sm; [done|]. simpl.
    by rewrite IH, run_op_refines. }
  split_and!; [done|..].
  - intros k. rewrite GetHistory_abs, GetSummary_abs, H. by destruct (default _ _).
  - subst sm'. clear H st'. revert sm. induction ops as [|o ops IH]; intros sm Hk; [done|].
    apply IH. by apply run_op_keyed.
Qed.

(** ** Saving *)
Lemma Ext_append s t : (∀ l, ext_go (reverse (chars t) ++ l) [] = ext_go (reverse (chars t)) []) →
  Ext (s +:+ t) = Ext t.
Proof. intros H. unfold Ext. by rewrite chars_app, reverse_app, H. Qed.

Lemma file_of_ext k : Ext (file_of k) = ".json".
Proof. unfold file_of. rewrite Ext_append by done. reflexivity. Qed.
Lemma tmp_name_ext env : Ext (tmp_name env) = ".tmp".
Proof.
  unfold tmp_name.
  assert ("session-" +:+ tmp_random env +:+ ".tmp" = ("session-" +:+ tmp_random env) +:+ ".tmp") as ->.
  { apply (inj chars). by rewrite !chars_app, app_assoc. }
  rewrite Ext_append by done. reflexivity.
Qed.

Lemma tmp_not_json env f : Ext f = ".json" → f ≠ tmp_name env.
Proof. intros Hf ->. by rewrite tmp_name_ext in Hf. Qed.
#[export] Hint Resolve file_of_ext tmp_not_json : tiny.

Lemma valid_filename_spec f :
  valid_filename f = true → f ≠ "" ∧ f ≠ "." ∧ f ≠ ".." ∧ slash ∉ chars f.
Proof.
  unfold valid_filename. intros H%negb_true_iff.
  apply orb_false_iff in H as [[Hd H1%negb_false_iff]%orb_false_iff H0].
  assert (slash ∉ chars f) as Hs.
  { intros Hin. rewrite <-not_true_iff_false in H0. apply H0.
    unfold contains_any. apply existsb_exists. exists slash.
    rewrite <-list_elem_of_In. split; [done|]. reflexivity. }
  unfold IsLocal in H1. apply IsLocal_spec in H1 as (_ & Hne & Hh).
  split_and!; [by intros ->|by apply bool_decide_eq_false in Hd| |done].
  intros ->. by apply Hh.
Qed.

(** The states of the directory during a save: only the last of a successful
    one differs in a ".json" file, and only in the session's own. *)
Lemma Save_states env key sm d r ds d' f :
  Save env key sm d = (r, ds) → d' ∈ ds → Ext f = ".json" →
  d' !! f = d !! f
  ∨ r = Ok tt ∧ ∃ stored, sessions sm !! key = Some stored
      ∧ d' = <[file_of key := SavedSession (json_Session stored)]> (delete (tmp_name env) d).
Proof.
  unfold Save. case_bool_decide as Hs0; [intros [= <- <-]; by intros ?%not_elem_of_nil|].
  destruct (valid_filename _); simpl; [|intros [= <- <-]; by intros ?%not_elem_of_nil].
  destruct (sessions sm !! key) as [stored|]; [|intros [= <- <-]; by intros ?%not_elem_of_nil].
  intros H Hin Hf. pose proof (tmp_not_json env f Hf) as Ht.
  set (new := SavedSession (json_Session stored)) in *. fold (file_of key) in H.
  assert (d' ∈ [<[tmp_name env := NotASession]> d;
      <[tmp_name env := new]> d; delete (tmp_name env) (<[tmp_name env := NotASession]> d);
      delete (tmp_name env) (<[tmp_name env := new]> d)]
      ∨ (d' = <[file_of key := new]> (delete (tmp_name env) d) ∧ r = Ok tt)) as [Hd|[-> ->]].
  { destruct (fault env) as [[]|], (remove_ok env); simplify_eq; set_solver. }
  - left. rewrite !elem_of_cons in Hd. destruct_or! Hd; subst;
      rewrite ?lookup_delete_ne, ?lookup_insert_ne by congruence; try done.
    by apply not_elem_of_nil in Hd.
  - right. split; [done|]. by exists stored.
Qed.

(** After a save the session's own file is the only ".json" file that may differ. *)
Lemma Save_others env key sm d d' f :
  last (Save env key sm d).2 = Some d' → Ext f = ".json" → f ≠ file_of key → d' !! f = d !! f.
Proof.
  intros Hd' Hf Hne. destruct (Save env key sm d) as [r ds] eqn:E.
  destruct (Save_states _ _ _ _ _ _ d' f E ltac:(by apply last_Some_elem_of) Hf)
    as [?|(_ & stored & _ & ->)]; [done|].
  rewrite lookup_insert_ne, lookup_delete_ne; [done|..|done].
  intros Ht. symmetry in Ht. revert Ht. by apply tmp_not_json.
Qed.

(** The file of a valid key lies directly in the storage directory. *)
Lemma saved_file_norm sm key :
  storage sm ≠ "" → valid_filename (sanitizeFilename key) = true →
  norm (chars (storage sm) ++ slash :: chars (file_of key))
  = clean_go (IsAbs_l (chars (storage sm))) [] (split_l slash (chars (storage sm)))
    ++ [chars (file_of key)].
Proof.
  intros Hst (? & ? & ? & Hsl)%valid_filename_spec.
  assert (slash ∉ chars (file_of key)) as Hsl'.
  { unfold file_of. rewrite chars_app, not_elem_of_app. split; [done|].
    refine (bool_decide_unpack (¬ _) _). by vm_compute. }
  assert (chars (file_of key) ≠ [] ∧ chars (file_of key) ≠ dot_comp
    ∧ chars (file_of key) ≠ dotdot) as (? & ? & ?).
  { unfold file_of. rewrite chars_app. repeat split; intros E;
      apply (f_equal length) in E; rewrite length_app in E; simpl in E; lia. }
  assert (norm (chars (file_of key)) = [chars (file_of key)]) as Hn.
  { unfold norm. rewrite split_l_free by done. simpl.
    by rewrite !bool_decide_eq_false_2 by done. }
  rewrite norm_join, Hn.
  - do 2 f_equal. unfold IsAbs_l. by destruct (chars (storage sm)) eqn:E;
      [apply chars_nil_iff in E|].
  - apply IsLocal_spec. rewrite Hn. split_and!; [|done|simpl; congruence].
    unfold IsAbs_l. apply bool_decide_eq_false. intros Hh%head_elem. done.
Qed.

(** [Save] is atomic and confined.  It accepts only keys whose file name is
    one ordinary component, so the file lies directly in the storage
    directory.  In every state the directory goes through, whatever step
    fails, each ".json" file other than the session's own is untouched, and
    the session's own is either untouched or the complete new session, and it
    is the new one at the end exactly when [Save] reports success. *)
Lemma save_atomic (env : save_env) (key : string) (sm : SessionManager) (d : disk)
    (stored : Session) (r : result save_error unit) (ds : list disk) :
  Save env key sm d = (r, ds) → storage sm ≠ "" → sessions sm !! key = Some stored →
  let new := SavedSession (json_Session stored) in
  (∀ d' f, d' ∈ ds → Ext f = ".json" →
     d' !! f = d !! f ∨ (f = file_of key ∧ d' !! f = Some new))
  ∧ (r = Ok tt → last ds ≠ None ∧
       ∀ d', last ds = Some d' → d' !! file_of key = Some new ∧ dom d' ⊆ {[file_of key]} ∪ dom d)
  ∧ (r ≠ Ok tt → ∀ d' f, last ds = Some d' → Ext f = ".json" → d' !! f = d !! f)
  ∧ (r ≠ Err ErrInvalid →
       norm (chars (storage sm) ++ slash :: chars (file_of key))
       = clean_go (IsAbs_l (chars (storage sm))) [] (split_l slash (chars (storage sm)))
         ++ [chars (file_of key)]).
Proof.
  intros H Hst Hl new.
  assert (∀ d' f, d' ∈ ds → Ext f = ".json" → d' !! f = d !! f
    ∨ r = Ok tt ∧ d' = <[file_of key := new]> (delete (tmp_name env) d)) as Hds.
  { intros d' f Hin Hf. destruct (Save_states _ _ _ _ _ _ d' f H Hin Hf)
      as [?|(? & st & Hst' & ->)]; [by left|right]. by simplify_eq. }
  split_and!.
  - intros d' f Hd' Hf. destruct (Hds d' f Hd' Hf) as [?|[_ ->]]; [by left|].
    destruct (decide (f = file_of key)) as [->|]; [right; by rewrite lookup_insert_eq|left].
    pose proof (tmp_not_json env f Hf).
    by rewrite lookup_insert_ne, lookup_delete_ne by congruence.
  - intros ->. unfold Save in H. rewrite bool_decide_eq_false_2, Hl in H by done.
    destruct (valid_filename _); [|done]. simpl in H. fold (file_of key) new in H.
    destruct (fault env) as [[]|]; simplify_eq/=. split; [done|].
    intros d' [= <-]. rewrite lookup_insert_eq. split; [done|].
    rewrite dom_insert_L, dom_delete_L. set_solver.
  - intros Hr d' f Hd' Hf. destruct (Hds d' f ltac:(by apply last_Some_elem_of) Hf) as [?|[? _]]; done.
  - intros Hr. apply saved_file_norm; [done|]. destruct (valid_filename _) eqn:Hv; [done|].
    exfalso. apply Hr. unfold Save in H. rewrite bool_decide_eq_false_2, Hv in H by done.
    simpl in H. congruence.
Qed.

(** ** Loading *)

(** Every session file is stored under the name of its key. *)
Definition well_keyed (d : disk) : Prop :=
  ∀ f s, d !! f = Some (SavedSession s) → Ext f = ".json" → f = file_of (s_Key s).

(** The session that loading finds under a key. *)
Definition on_disk (d : disk) (k : string) : option Session :=
  match d !! file_of k with
  | Some (SavedSession s) => if bool_decide (s_Key s = k) then Some s else None
  | _ => None
  end.

Lemma load_fold l m k :
  (∀ f s s', (f, SavedSession s) ∈ l → (f, SavedSession s') ∈ l → s = s') →
  (∀ f s, (f, SavedSession s) ∈ l → Ext f = ".json" → f = file_of (s_Key s)) →
  (∀ s, (file_of k, SavedSession s) ∈ l → s_Key s = k → foldl load_file m l !! k = Some s)
  ∧ ((∀ s, (file_of k, SavedSession s) ∈ l → s_Key s ≠ k) → foldl load_file m l !! k = m !! k).
Proof.
  revert m. induction l as [|[f c] l IH] using rev_ind; intros m Huniq Hkey.
  { split; [|done]. intros s H. by apply not_elem_of_nil in H. }
  rewrite foldl_app. cbn [foldl].
  assert (∀ x, x ∈ l → x ∈ l ++ [(f, c)]) as Hin by (intros; apply elem_of_app; by left).
  assert ((f, c) ∈ l ++ [(f, c)]) as Hend by (apply elem_of_app; right; by apply list_elem_of_singleton).
  destruct (IH m) as [IH1 IH2]; [intros; eapply Huniq; by apply Hin|intros; apply Hkey; auto|].
  assert (∀ s, load_file (foldl load_file m l) (f, SavedSession s) !! k
    = if decide (Ext f = ".json" ∧ s_Key s = k) then Some s else foldl load_file m l !! k) as Hload.
  { intros s. unfold load_file. simpl.
    destruct (bool_decide_reflect (Ext f = ".json")) as [He|He].
    - rewrite lookup_insert. destruct (decide (s_Key s = k)).
      + by rewrite decide_True.
      + rewrite decide_False; [done|]. by intros [].
    - rewrite decide_False; [done|]. by intros []. }
  assert (∀ s, c = SavedSession s → Ext f = ".json" → s_Key s = k → f = file_of k) as Hfk.
  { intros s -> He <-. by apply Hkey. }
  split.
  - intros s Hs Hk. apply elem_of_app in Hs as [Hs|Hs%list_elem_of_singleton].
    + destruct c as [| | |s']; try (by apply IH1). rewrite Hload.
      destruct (decide (Ext f = ".json" ∧ s_Key s' = k)) as [[He1 Hk1]|]; [|by apply IH1].
      rewrite (Hfk s' eq_refl He1 Hk1) in Huniq. f_equal.
      eapply Huniq; [apply elem_of_app; right; by apply list_elem_of_singleton|].
      apply elem_of_app; by left.
    + injection Hs as <- <-. rewrite Hload. rewrite decide_True; [done|].
      split; [apply file_of_ext|done].
  - intros Hno. destruct c as [| | |s']; try (apply IH2; intros; apply Hno; by apply Hin).
    rewrite Hload. rewrite decide_False; [apply IH2; intros; apply Hno; by apply Hin|].
    intros [Hf Hk']. apply (Hno s'); [|done]. by rewrite <-(Hfk s' eq_refl Hf Hk').
Qed.

Lemma load_lookup d k : well_keyed d → loadSessions d !! k = on_disk d k.
Proof.
  intros Hw. unfold loadSessions, read_dir.
  set (l := merge_sort _ _).
  assert (∀ x, x ∈ l ↔ d !! x.1 = Some x.2) as Hl.
  { intros [f c]. unfold l. rewrite merge_sort_Permutation, elem_of_map_to_list. done. }
  destruct (load_fold l ∅ k) as [H1 H2].
  - intros f s s' Hs%Hl Hs'%Hl. simpl in *. congruence.
  - intros f s Hs%Hl. by apply Hw.
  - unfold on_disk. destruct (d !! file_of k) as [[| | |s]|] eqn:E.
    4: case_bool_decide; [by apply H1; [apply Hl|]|].
    all: rewrite H2, lookup_empty; [done|]; intros s' Hs'%Hl; simpl in Hs'; congruence.
Qed.

(** C12: saving and loading round trip: after a successful [Save] a new manager
    on the same storage finds the session with its history, summary and times
    (of the tool calls all but the fields that are not serialised), finds every
    session whose file name differs exactly as before, and no longer finds a
    session with another key and the same file name. *)
Theorem save_load_roundtrip (env : save_env) (key : string) (sm : SessionManager) (d d' : disk)
    (ds : list disk) (stored : Session) :
  Save env key sm d = (Ok tt, ds) → last ds = Some d' →
  storage sm ≠ "" → sessions sm !! key = Some stored → s_Key stored = key → well_keyed d →
  let sm' := NewSessionManager (storage sm) d' in
  well_keyed d'
  ∧ sessions sm' !! key = Some (json_Session stored)
  ∧ (∀ k, file_of k ≠ file_of key →
       sessions sm' !! k = sessions (NewSessionManager (storage sm) d) !! k)
  ∧ (∀ k, k ≠ key → file_of k = file_of key → sessions sm' !! k = None).
Proof.
  intros H Hlast Hst Hl Hk Hw sm'.
  assert (d' = <[file_of key := SavedSession (json_Session stored)]> (delete (tmp_name env) d)) as ->.
  { unfold Save in H. rewrite bool_decide_eq_false_2 in H by done.
    destruct (valid_filename _); simpl in H; [|done]. rewrite Hl in H.
    destruct (fault env) as [[]|]; simplify_eq/=. done. }
  assert (well_keyed (<[file_of key:=SavedSession (json_Session stored)]> (delete (tmp_name env) d))) as Hw'.
  { intros f s Hf He. destruct (decide (f = file_of key)) as [->|Hne].
    - rewrite lookup_insert_eq in Hf. simplify_eq/=. done.
    - rewrite lookup_insert_ne in Hf by done. apply lookup_delete_Some in Hf as [_ Hf]. by apply Hw. }
  unfold sm', NewSessionManager. rewrite !bool_decide_eq_false_2 by done. simpl.
  split; [done|]. rewrite !load_lookup by done. unfold on_disk.
  split_and!.
  - rewrite lookup_insert_eq. simpl. by rewrite bool_decide_eq_true_2.
  - intros k Hne. rewrite !load_lookup by done. unfold on_disk.
    rewrite lookup_insert_ne, lookup_delete_ne; [done| |done].
    apply not_eq_sym. apply tmp_not_json, file_of_ext.
  - intros k Hne Hf. rewrite load_lookup by done. unfold on_disk.
    rewrite Hf, lookup_insert_eq. simpl. rewrite bool_decide_eq_false_2; [done|]. congruence.
Qed.

(** ** Concrete runs *)
Definition sample_sm : SessionManager :=
  AddMessage 1%Z "telegram:1_2" "user" "second"
    (AddMessage 1%Z "telegram:1:2" "user" "first" (mk_SessionManager ∅ "/data")).
Definition good_env : save_env := mk_save_env "17" None true.

Definition sample_disk : disk := default ∅ (last (Save good_env "telegram:1:2" sample_sm ∅).2).

Lemma save_atomic_witness :
  sample_disk !! file_of "telegram:1:2"
  = Some (SavedSession (mk_Session "telegram:1:2" [text_message "user" "first"] "" 1%Z 1%Z)).
Proof.
  destruct (save_atomic good_env "telegram:1:2" sample_sm ∅
    (mk_Session "telegram:1:2" [text_message "user" "first"] "" 1%Z 1%Z)
    (Ok tt) (Save good_env "telegram:1:2" sample_sm ∅).2) as (_ & H & _).
  - reflexivity.
  - discriminate.
  - reflexivity.
  - destruct (H eq_refl) as [_ H']. apply H'. reflexivity.
Defined.

Lemma save_load_roundtrip_witness :
  sessions (NewSessionManager "/data" sample_disk) !! "telegram:1:2"
  = Some (mk_Session "telegram:1:2" [text_message "user" "first"] "" 1%Z 1%Z).
Proof.
  apply (save_load_roundtrip good_env "telegram:1:2" sample_sm ∅ sample_disk
    (Save good_env "telegram:1:2" sample_sm ∅).2
    (mk_Session "telegram:1:2" [text_message "user" "first"] "" 1%Z 1%Z)).
  - reflexivity.
  - reflexivity.
  - discriminate.
  - reflexivity.
  - reflexivity.
  - intros f s H. rewrite lookup_empty in H. discriminate.
Defined.

(** The comment on [sanitizeFilename] says that loading always maps a file
    back to the right key, but two keys can share a file: after both sessions
    of a chat "1:2" and of a chat "1_2" were saved successfully, only the one
    saved last is found again, and the other history is lost. *)
Lemma colliding_keys_lose_history :
  let r1 := Save good_env "telegram:1:2" sample_sm ∅ in
  let d1 := default ∅ (last r1.2) in
  let r2 := Save good_env "telegram:1_2" sample_sm d1 in
  let d2 := default ∅ (last r2.2) in
  r1.1 = Ok tt ∧ r2.1 = Ok tt
  ∧ GetHistory "telegram:1:2" sample_sm = [text_message "user" "first"]
  ∧ GetHistory "telegram:1:2" (NewSessionManager "/data" d2) = []
  ∧ GetHistory "telegram:1_2" (NewSessionManager "/data" d2) = [text_message "user" "second"].
Proof. split_and!; vm_compute; reflexivity. Qed.
