(* ===== verification/AgentContext.v ===== *)
(** * Context building (pkg/agent/context.go, memory.go; pkg/providers/toolcall_utils.go)

    The messages of a provider request: the cached system prompt with its
    change detection, the sanitised history, and the normalisation of tool
    calls.  The file system is the record [fsys] of what [os.Stat],
    [os.ReadFile] and the walk over the skills directory see; the summary of
    the skills loader and JSON encoding are parameters. *)
From stdpp Require Import base gmap strings list.
From Stdlib Require Import Ascii ZArith Lia.
From S2P Require Import Prelude GoStrings ProviderTypes Paths.

(** ** The sanitised history *)
Definition has_calls (m : Message) : bool := negb (bool_decide (m_ToolCalls m = [])).

(** The backward walk from a tool result, on the reversed messages. *)
Fixpoint foundAssistant (rev_sanitized : list Message) : bool :=
  match rev_sanitized with
  | [] => false
  | m :: rest =>
      if bool_decide (m_Role m = "tool") then foundAssistant rest
      else bool_decide (m_Role m = "assistant") && has_calls m
  end.

(** Whether the loop appends [msg] to what it has kept so far. *)
Definition keep_message (sanitized : list Message) (msg : Message) : bool :=
  if bool_decide (m_Role msg = "system") then false
  else if bool_decide (m_Role msg = "tool") then foundAssistant (reverse sanitized)
  else if bool_decide (m_Role msg = "assistant") then
    if has_calls msg then
      match last sanitized with
      | None => false
      | Some prev => bool_decide (m_Role prev = "user") || bool_decide (m_Role prev = "tool")
      end
    else true
  else true.

Definition sanitizeHistoryForProvider (history : list Message) : list Message :=
  foldl (λ sanitized msg, if keep_message sanitized msg then sanitized ++ [msg] else sanitized)
    [] history.

(** ** What providers accept *)

(** [m] may follow the messages [before], those after the system messages of a request,
    as far as the order of roles goes (that the identifiers of results are those of
    the calls is not part of it): no system message, a tool result only
    after an assistant's calls with at most other results between them, a turn
    with calls only right after a user or tool message. *)
Record may_follow (before : list Message) (m : Message) : Prop := {
  mf_system : m_Role m ≠ "system";
  mf_tool : m_Role m = "tool" →
    ∃ j a, before !! j = Some a ∧ m_Role a = "assistant" ∧ m_ToolCalls a ≠ []
      ∧ ∀ k b, j < k → before !! k = Some b → m_Role b = "tool";
  mf_calls : m_Role m = "assistant" → m_ToolCalls m ≠ [] →
    ∃ p, last before = Some p ∧ (m_Role p = "user" ∨ m_Role p = "tool");
}.

Definition acceptable (l : list Message) : Prop :=
  ∀ i m, l !! i = Some m → may_follow (take i l) m.

(** A whole request: system messages, and then messages in an acceptable order. *)
Definition acceptable_request (l : list Message) : Prop :=
  ∃ sys base, l = sys ++ base ∧ Forall (λ m, m_Role m = "system") sys ∧ acceptable base.

Lemma has_calls_true m : has_calls m = true ↔ m_ToolCalls m ≠ [].
Proof. unfold has_calls. rewrite negb_true_iff, bool_decide_eq_false. done. Qed.

Lemma foundAssistant_spec l :
  foundAssistant (reverse l) = true ↔
  ∃ j a, l !! j = Some a ∧ m_Role a = "assistant" ∧ m_ToolCalls a ≠ []
    ∧ ∀ k b, j < k → l !! k = Some b → m_Role b = "tool".
Proof.
  induction l as [|m l IH] using rev_ind; [simpl; split; [done|by intros (?&?&?&_)]|].
  rewrite reverse_snoc. cbn [foundAssistant]. case_bool_decide as Ht.
  - rewrite IH. split.
    + intros (j & a & Hj & ? & ? & Hall). exists j, a. split_and!; [|done|done|].
      * by apply lookup_app_l_Some.
      * intros k b Hk Hb. apply lookup_app_Some in Hb as [Hb|[_ Hb]]; [by eapply Hall|].
        apply list_lookup_singleton_Some in Hb as [_ <-]. done.
    + intros (j & a & Hj & Ha & ? & Hall).
      apply lookup_app_Some in Hj as [Hj|[_ Hj]].
      * exists j, a. split_and!; try done. intros k b Hk Hb. eapply Hall; [exact Hk|].
        by apply lookup_app_l_Some.
      * apply list_lookup_singleton_Some in Hj as [_ <-]. congruence.
  - rewrite andb_true_iff, bool_decide_eq_true, has_calls_true. split.
    + intros [? ?]. exists (length l), m. split_and!; [by rewrite list_lookup_middle|done|done|].
      intros k b Hk Hb. apply lookup_lt_Some in Hb. rewrite length_app in Hb. simpl in Hb. lia.
    + intros (j & a & Hj & Ha & ? & Hall).
      apply lookup_app_Some in Hj as [Hj|[_ Hj]].
      * exfalso. apply Ht. apply (Hall (length l) m); [by apply lookup_lt_Some in Hj|].
        by rewrite list_lookup_middle.
      * apply list_lookup_singleton_Some in Hj as [_ <-]. done.
Qed.

Lemma keep_message_spec l m : keep_message l m = true ↔ may_follow l m.
Proof.
  unfold keep_message. case_bool_decide as Hs.
  { split; [done|]. by intros [? _ _]. }
  case_bool_decide as Ht.
  { rewrite foundAssistant_spec. split; [|by intros [_ ? _]; auto].
    intros H. constructor; [done|done|]. congruence. }
  case_bool_decide as Ha.
  2:{ split; [|done]. intros _. by constructor. }
  destruct (has_calls m) eqn:Hc.
  - apply has_calls_true in Hc. destruct (last l) as [p|] eqn:El.
    + rewrite orb_true_iff, !bool_decide_eq_true. split.
      * intros Hp. constructor; [done|done|]. eauto.
      * intros [_ _ Hf]. destruct (Hf Ha Hc) as (p' & Hp & ?). by simplify_eq.
    + split; [done|]. intros [_ _ Hf]. destruct (Hf Ha Hc) as (? & ? & _). congruence.
  - split; [|done]. intros _. constructor; [done|done|].
    intros _ Hc'. apply has_calls_true in Hc'. congruence.
Qed.

Lemma acceptable_snoc l m : acceptable (l ++ [m]) ↔ acceptable l ∧ may_follow l m.
Proof.
  split.
  - intros H. split.
    + intros i x Hi. specialize (H i x ltac:(by apply lookup_app_l_Some)).
      rewrite take_app_le in H; [done|]. apply lookup_lt_Some in Hi. lia.
    + specialize (H (length l) m ltac:(by rewrite list_lookup_middle)).
      by rewrite take_app_length in H.
  - intros [Hl Hm] i x Hi. apply lookup_app_Some in Hi as [Hi|[Hle Hi]].
    + rewrite take_app_le by (apply lookup_lt_Some in Hi; lia). by apply Hl.
    + apply list_lookup_singleton_Some in Hi as [Hi <-].
      replace i with (length l) by lia. by rewrite take_app_length.
Qed.

Lemma sanitize_snoc l m :
  sanitizeHistoryForProvider (l ++ [m]) =
  let s := sanitizeHistoryForProvider l in if keep_message s m then s ++ [m] else s.
Proof. unfold sanitizeHistoryForProvider. by rewrite foldl_app. Qed.

Lemma sanitize_acceptable l : acceptable (sanitizeHistoryForProvider l).
Proof.
  induction l as [|m l IH] using rev_ind; [intros i m H; by destruct i|].
  rewrite sanitize_snoc. simpl. destruct (keep_message _ m) eqn:E; [|done].
  apply acceptable_snoc. split; [done|]. by apply keep_message_spec.
Qed.

Lemma sanitize_sublist l : sanitizeHistoryForProvider l `sublist_of` l.
Proof.
  induction l as [|m l IH] using rev_ind; [done|]. rewrite sanitize_snoc. simpl.
  destruct (keep_message _ m); [by apply sublist_app|by apply sublist_inserts_r].
Qed.

Lemma sanitize_id l : acceptable l ↔ sanitizeHistoryForProvider l = l.
Proof.
  split; [|intros <-; apply sanitize_acceptable].
  induction l as [|m l IH] using rev_ind; [done|].
  intros [Hl Hm]%acceptable_snoc. rewrite sanitize_snoc, (IH Hl). simpl.
  by rewrite (proj2 (keep_message_spec l m) Hm).
Qed.

Definition call_turn (id : string) : Message :=
  mk_Message "assistant" "" "" [] [mk_ToolCall id "function" None "" None "" None] "".

(** The sanitised history can still attach a tool result to the wrong turn:
    when an assistant's call turn is dropped because it follows another one,
    its result is kept as a result of the earlier turn, which never called it. *)
Lemma sanitizer_misattributes_results :
  let history := [text_message "user" "hi"; call_turn "call_1"; call_turn "call_2";
                  tool_message "result" "call_2"] in
  sanitizeHistoryForProvider history
  = [text_message "user" "hi"; call_turn "call_1"; tool_message "result" "call_2"].
Proof. vm_compute. reflexivity. Qed.

(** ** Appending to a conversation *)
Definition AddToolResult (messages : list Message) (toolCallID toolName result : string) :
    list Message :=
  messages ++ [tool_message result toolCallID].

Definition AddAssistantMessage (messages : list Message) (content : string) : list Message :=
  messages ++ [text_message "assistant" content].

(** ** The file system as the context builder sees it

    Files and directories by path, with their modification times.  Symbolic
    links and permissions are not represented. *)
Inductive node := File (mtime : time) (data : string) | Directory (mtime : time).

Abbreviation fsys := (gmap string node) (only parsing).

Definition mtime_of (n : node) : time := match n with File t _ | Directory t => t end.

(** [os.Stat(p)]: the modification time, [None] for an error. *)
Definition stat (fs : fsys) (p : string) : option time := mtime_of <$> fs !! p.

Definition read_file (fs : fsys) (p : string) : option string :=
  match fs !! p with Some (File _ d) => Some d | _ => None end.

(** [os.WriteFile] at time [now]; [None] when the path is a directory.  The parent
    directory is assumed to exist. *)
Definition write_file (fs : fsys) (now : time) (p data : string) : option fsys :=
  match fs !! p with
  | Some (Directory _) => None
  | _ => Some (<[p := File now data]> fs)
  end.

(** What [filepath.WalkDir(root, ...)] visits that is no directory: the
    modification times of those files. *)
Definition walk_files (fs : fsys) (root : string) : list time :=
  if bool_decide (fs !! root = None) then [] else
  omap (λ '(p, n), match n with
                   | File t _ => if bool_decide (p = root) || has_prefix p (root +:+ "/")
                                 then Some t else None
                   | Directory _ => None
                   end) (map_to_list fs).

(** ** Memory (pkg/agent/memory.go) *)
Definition nl : string := String newline_char "".
Definition separator : string := nl +:+ nl +:+ "---" +:+ nl +:+ nl.

Record MemoryStore := mk_MemoryStore {
  ms_workspace : string;
  ms_memoryDir : string;
  ms_memoryFile : string;
}.

Definition NewMemoryStore (workspace : string) : MemoryStore :=
  let memoryDir := Join workspace "memory" in
  mk_MemoryStore workspace memoryDir (Join memoryDir "MEMORY.md").

(** The note of a day given as YYYYMMDD. *)
Definition daily_file (ms : MemoryStore) (day : string) : string :=
  Join (Join (ms_memoryDir ms) (str_take 6 day)) (day +:+ ".md").

Definition ReadLongTerm (fs : fsys) (ms : MemoryStore) : string :=
  default "" (read_file fs (ms_memoryFile ms)).

Definition WriteLongTerm (fs : fsys) (now : time) (ms : MemoryStore) (content : string) :
    option fsys :=
  write_file fs now (ms_memoryFile ms) content.

Definition ReadToday (fs : fsys) (ms : MemoryStore) (today : string) : string :=
  default "" (read_file fs (daily_file ms today)).

(** [header_date]: today's date as YYYY-MM-DD. *)
Definition AppendToday (fs : fsys) (now : time) (ms : MemoryStore)
    (today header_date content : string) : option fsys :=
  let existingContent := ReadToday fs ms today in
  let newContent :=
    if bool_decide (existingContent = "")
    then "# " +:+ header_date +:+ nl +:+ nl +:+ content
    else existingContent +:+ nl +:+ content in
  write_file fs now (daily_file ms today) newContent.

(** [days]: today and the days before it, as YYYYMMDD. *)
Definition GetRecentDailyNotes (fs : fsys) (ms : MemoryStore) (days : list string) : string :=
  join separator (omap (λ day, read_file fs (daily_file ms day)) days).

Definition memory_context (longTerm recentNotes : string) : string :=
  if bool_decide (longTerm = "") && bool_decide (recentNotes = "") then ""
  else
    (if bool_decide (longTerm = "") then "" else "## Long-term Memory" +:+ nl +:+ nl +:+ longTerm)
    +:+ (if bool_decide (recentNotes = "") then ""
         else (if bool_decide (longTerm = "") then "" else separator)
              +:+ "## Recent Daily Notes" +:+ nl +:+ nl +:+ recentNotes).

Definition GetMemoryContext (fs : fsys) (ms : MemoryStore) (days : list string) : string :=
  memory_context (ReadLongTerm fs ms) (GetRecentDailyNotes fs ms days).

(** ** The system prompt *)
Section prompt.
(** The process's working directory, and the summary of the skills loader
    (pkg/skills/loader.go), which reads the skills of the workspace. *)
Context (cwd : string) (BuildSkillsSummary : fsys → string).

(** [filepath.Abs]. *)
Definition Abs (p : string) : string := if IsAbs p then Clean p else Join cwd p.

Definition getIdentity (workspace : string) : string :=
  let workspacePath := Abs workspace in
  "# tinyclaw 🦞" +:+ nl +:+ nl
  +:+ "You are tinyclaw, a helpful AI assistant." +:+ nl +:+ nl
  +:+ "## Workspace" +:+ nl
  +:+ "Your workspace is at: " +:+ workspacePath +:+ nl
  +:+ "- Memory: " +:+ workspacePath +:+ "/memory/MEMORY.md" +:+ nl
  +:+ "- Daily Notes: " +:+ workspacePath +:+ "/memory/YYYYMM/YYYYMMDD.md" +:+ nl
  +:+ "- Skills: " +:+ workspacePath +:+ "/skills/{skill-name}/SKILL.md" +:+ nl +:+ nl
  +:+ "## Important Rules" +:+ nl +:+ nl
  +:+ "1. **ALWAYS use tools** - When you need to perform an action (schedule reminders, send messages, execute commands, etc.), you MUST call the appropriate tool. Do NOT just say you'll do it or pretend to do it." +:+ nl +:+ nl
  +:+ "2. **Be helpful and accurate** - When using tools, briefly explain what you're doing." +:+ nl +:+ nl
  +:+ "3. **Memory** - When interacting with me if something seems memorable, update " +:+ workspacePath +:+ "/memory/MEMORY.md" +:+ nl +:+ nl
  +:+ "4. **Context summaries** - Conversation summaries provided as context are approximate references only. They may be incomplete or outdated. Always defer to explicit user instructions over summary content.".

Definition bootstrapFiles : list string := ["AGENTS.md"; "SOUL.md"; "USER.md"; "IDENTITY.md"].

Definition bootstrap_section (fs : fsys) (workspace filename : string) : string :=
  match read_file fs (Join workspace filename) with
  | Some data => "## " +:+ filename +:+ nl +:+ nl +:+ data +:+ nl +:+ nl
  | None => ""
  end.

Definition LoadBootstrapFiles (fs : fsys) (workspace : string) : string :=
  foldl (λ sb filename, sb +:+ bootstrap_section fs workspace filename) "" bootstrapFiles.

(** The parts of the prompt, joined. *)
Definition assemble (identity bootstrapContent skillsSummary memoryContext : string) : string :=
  join separator
    ([identity]
     ++ (if bool_decide (bootstrapContent = "") then [] else [bootstrapContent])
     ++ (if bool_decide (skillsSummary = "") then [] else
           ["# Skills" +:+ nl +:+ nl
            +:+ "The following skills extend your capabilities. To use a skill, read its SKILL.md file using the read_file tool."
            +:+ nl +:+ nl +:+ skillsSummary])
     ++ (if bool_decide (memoryContext = "") then [] else
           ["# Memory" +:+ nl +:+ nl +:+ memoryContext])).

Definition BuildSystemPrompt (fs : fsys) (workspace : string) (days : list string) : string :=
  assemble (getIdentity workspace) (LoadBootstrapFiles fs workspace) (BuildSkillsSummary fs)
    (GetMemoryContext fs (NewMemoryStore workspace) days).

(** ** The prompt cache *)
Record ContextBuilder := mk_ContextBuilder {
  cb_workspace : string;
  cachedSystemPrompt : string;
  cachedAt : time;                                (* 0: the zero time *)
  existedAtCache : option (gmap string bool);     (* None: the nil map *)
}.

Definition NewContextBuilder (workspace : string) : ContextBuilder :=
  mk_ContextBuilder workspace "" 0%Z None.

Definition sourcePaths (workspace : string) : list string :=
  [Join workspace "AGENTS.md"; Join workspace "SOUL.md"; Join workspace "USER.md";
   Join workspace "IDENTITY.md"; Join (Join workspace "memory") "MEMORY.md"].

Definition skillsDir (workspace : string) : string := Join workspace "skills".

Definition allPaths (workspace : string) : list string :=
  sourcePaths workspace ++ [skillsDir workspace].

Record cacheBaseline := mk_cacheBaseline {
  bl_existed : gmap string bool;
  bl_maxMtime : time;
}.

Definition later (maxMtime t : time) : time := if Z.ltb maxMtime t then t else maxMtime.

(** [time.Unix(1, 0)], counted from the zero time. *)
Definition unix_1 : time := (62135596801 * second)%Z.

Definition buildCacheBaseline (fs : fsys) (workspace : string) : cacheBaseline :=
  let existed := list_to_map ((λ p, (p, bool_decide (is_Some (stat fs p)))) <$> allPaths workspace) in
  let maxMtime := foldl later 0%Z (omap (stat fs) (allPaths workspace)) in
  let maxMtime := foldl later maxMtime (walk_files fs (skillsDir workspace)) in
  mk_cacheBaseline existed (if is_zero_time maxMtime then unix_1 else maxMtime).

Definition fileChangedSince (fs : fsys) (cb : ContextBuilder) (path : string) : bool :=
  match existedAtCache cb with
  | None => true
  | Some existed =>
      let existedBefore := default false (existed !! path) in
      let existsNow := bool_decide (is_Some (stat fs path)) in
      if negb (bool_decide (existedBefore = existsNow)) then true
      else match stat fs path with
           | None => false
           | Some t => Z.ltb (cachedAt cb) t
           end
  end.

Definition skillFilesModifiedSince (fs : fsys) (dir : string) (t : time) : bool :=
  existsb (λ mt, Z.ltb t mt) (walk_files fs dir).

Definition sourceFilesChangedLocked (fs : fsys) (cb : ContextBuilder) : bool :=
  if is_zero_time (cachedAt cb) then true
  else if existsb (fileChangedSince fs cb) (sourcePaths (cb_workspace cb)) then true
  else if fileChangedSince fs cb (skillsDir (cb_workspace cb)) then true
  else skillFilesModifiedSince fs (skillsDir (cb_workspace cb)) (cachedAt cb).

Definition cache_valid (fs : fsys) (cb : ContextBuilder) : bool :=
  negb (bool_decide (cachedSystemPrompt cb = "")) && negb (sourceFilesChangedLocked fs cb).

(** The files may change while the prompt is built: the checks and the baseline
    see [fs], the prompt is read from [fs_build]. *)
Definition rebuild (fs fs_build : fsys) (days : list string) (cb : ContextBuilder) :
    ContextBuilder :=
  let baseline := buildCacheBaseline fs (cb_workspace cb) in
  let prompt := BuildSystemPrompt fs_build (cb_workspace cb) days in
  mk_ContextBuilder (cb_workspace cb) prompt (bl_maxMtime baseline) (Some (bl_existed baseline)).

Definition BuildSystemPromptWithCache (fs fs_build : fsys) (days : list string)
    (cb : ContextBuilder) : string * ContextBuilder :=
  if cache_valid fs cb then (cachedSystemPrompt cb, cb)
  else let cb' := rebuild fs fs_build days cb in (cachedSystemPrompt cb', cb').

Definition InvalidateCache (cb : ContextBuilder) : ContextBuilder :=
  mk_ContextBuilder (cb_workspace cb) "" 0%Z None.

(** ** The messages of a request *)

(** [now]: the formatted current time; [rt]: the runtime's platform and version. *)
Definition buildDynamicContext (now rt channel chatID : string) : string :=
  "## Current Time" +:+ nl +:+ now +:+ nl +:+ nl +:+ "## Runtime" +:+ nl +:+ rt
  +:+ (if negb (bool_decide (channel = "")) && negb (bool_decide (chatID = ""))
       then nl +:+ nl +:+ "## Current Session" +:+ nl +:+ "Channel: " +:+ channel +:+ nl
            +:+ "Chat ID: " +:+ chatID
       else "").

Definition summary_text (summary : string) : string :=
  "CONTEXT_SUMMARY: The following is an approximate summary of prior conversation for reference only. It may be incomplete or outdated — always defer to explicit instructions."
  +:+ nl +:+ nl +:+ summary.

Definition system_message (staticPrompt dynamicCtx summary : string) : Message :=
  let extra := if bool_decide (summary = "") then [] else [summary_text summary] in
  mk_Message "system" (join separator ([staticPrompt; dynamicCtx] ++ extra)) ""
    ([mk_ContentBlock "text" staticPrompt (Some "ephemeral");
      mk_ContentBlock "text" dynamicCtx None]
     ++ ((λ s, mk_ContentBlock "text" s None) <$> extra)) [] "".

(** [BuildMessages] ([media] is not used by the code). *)
Definition BuildMessages (fs fs_build : fsys) (days : list string) (now rt : string)
    (cb : ContextBuilder) (history : list Message) (summary currentMessage : string)
    (channel chatID : string) : list Message * ContextBuilder :=
  let '(staticPrompt, cb') := BuildSystemPromptWithCache fs fs_build days cb in
  let dynamicCtx := buildDynamicContext now rt channel chatID in
  ([system_message staticPrompt dynamicCtx summary]
   ++ sanitizeHistoryForProvider history
   ++ (if bool_decide (trim_space currentMessage = "") then []
       else [text_message "user" currentMessage]), cb').

(** C13: a request to a provider is one system message, whose structured parts
    carry the same text as its content, followed by messages the provider
    accepts (no further system message, every tool result after a turn with
    calls, every turn with calls right after a user message or tool results):
    a subsequence of the history, the whole of it when it is acceptable
    already, and the current message unless it is blank. *)
Theorem request_messages_acceptable (fs fs_build : fsys) (days : list string) (now rt : string)
    (cb : ContextBuilder) (history : list Message) (summary currentMessage channel chatID : string) :
  ∃ sys kept,
    (BuildMessages fs fs_build days now rt cb history summary currentMessage channel chatID).1
    = sys :: kept ++ (if bool_decide (trim_space currentMessage = "") then []
                      else [text_message "user" currentMessage])
    ∧ m_Role sys = "system"
    ∧ m_Content sys = join separator (cb_Text <$> m_SystemParts sys)
    ∧ acceptable (kept ++ (if bool_decide (trim_space currentMessage = "") then []
                           else [text_message "user" currentMessage]))
    ∧ kept `sublist_of` history
    ∧ (acceptable history ↔ kept = history).
Proof.
  unfold BuildMessages. destruct (BuildSystemPromptWithCache _ _ _ _) as [static cb'].
  exists (system_message static (buildDynamicContext now rt channel chatID) summary),
    (sanitizeHistoryForProvider history).
  split_and!; [done|done| | |apply sanitize_sublist|apply sanitize_id].
  - unfold system_message. simpl. by case_bool_decide.
  - case_bool_decide; [rewrite app_nil_r; apply sanitize_acceptable|].
    apply acceptable_snoc. split; [apply sanitize_acceptable|]. by constructor.
Qed.

(** ** What the cache detects *)
Lemma later_spec l m :
  (m <= foldl later m l)%Z ∧ Forall (λ t, (t <= foldl later m l)%Z) l.
Proof.
  revert m. induction l as [|t l IH]; intros m; simpl; [split; [lia|done]|].
  destruct (IH (later m t)) as [Hm Hl]. unfold later in Hm at 1.
  assert (m <= later m t ∧ t <= later m t)%Z as [? ?].
  { unfold later. destruct (Z.ltb_spec m t); lia. }
  split; [|constructor; [|done]]; unfold later in *; destruct (Z.ltb_spec m t); lia.
Qed.

Lemma baseline_nonzero fs ws : is_zero_time (bl_maxMtime (buildCacheBaseline fs ws)) = false.
Proof.
  unfold buildCacheBaseline. cbv zeta. cbn [bl_maxMtime].
  destruct (is_zero_time (foldl later _ _)) eqn:E; [by vm_compute|done].
Qed.

Lemma existed_lookup (f : string → bool) (l : list string) p :
  p ∈ l → (list_to_map ((λ q, (q, f q)) <$> l) : gmap string bool) !! p = Some (f p).
Proof.
  induction l as [|q l IH]; [set_solver|]. intros H. csimpl.
  destruct (decide (p = q)) as [->|Hn]; [by rewrite lookup_insert_eq|].
  rewrite lookup_insert_ne by done. apply IH. set_solver.
Qed.

Lemma fileChangedSince_rebuild fs fs_build fs' days cb p :
  p ∈ allPaths (cb_workspace cb) →
  fileChangedSince fs' (rebuild fs fs_build days cb) p = false ↔
  (is_Some (stat fs p) ↔ is_Some (stat fs' p))
  ∧ ∀ t, stat fs' p = Some t → (t <= cachedAt (rebuild fs fs_build days cb))%Z.
Proof.
  intros Hp. unfold fileChangedSince. cbn [existedAtCache rebuild buildCacheBaseline bl_existed].
  rewrite (existed_lookup _ _ _ Hp). cbn [default].
  destruct (stat fs' p) as [t|] eqn:E'; destruct (stat fs p) as [t0|] eqn:E0;
    rewrite ?(bool_decide_true (is_Some (Some _))), ?(bool_decide_false (is_Some None))
      by (try done; by intros []%is_Some_None); cbn [negb bool_decide decide];
    (split; [|intros [H1 H2]]); cbn -[rebuild].
  - intros H. change (Z.ltb (cachedAt (rebuild fs fs_build days cb)) t = false) in H.
    apply Z.ltb_ge in H. split; [done|]. by intros ? [= <-].
  - apply Z.ltb_ge. by apply H2.
  - done.
  - destruct (proj2 H1 ltac:(done)) as [? [=]].
  - done.
  - destruct (proj1 H1 ltac:(done)) as [? [=]].
  - done.
  - done.
Qed.

Lemma elem_of_allPaths p ws : p ∈ allPaths ws ↔ p ∈ sourcePaths ws ∨ p = skillsDir ws.
Proof. unfold allPaths. by rewrite elem_of_app, list_elem_of_singleton. Qed.

Lemma existsb_false {A} (f : A → bool) (l : list A) :
  existsb f l = false ↔ ∀ x, x ∈ l → f x = false.
Proof.
  induction l as [|y l IH]; simpl; [set_solver|].
  rewrite orb_false_iff, IH. set_solver.
Qed.

(** [fs] and [fs'] agree on which tracked paths exist, and nothing tracked in
    [fs'] is newer than [t]. *)
Definition unchanged_since (fs fs' : fsys) (workspace : string) (t : time) : Prop :=
  (∀ p, p ∈ allPaths workspace →
     (is_Some (stat fs p) ↔ is_Some (stat fs' p))
     ∧ ∀ t', stat fs' p = Some t' → (t' <= t)%Z)
  ∧ ∀ t', t' ∈ walk_files fs' (skillsDir workspace) → (t' <= t)%Z.

Lemma sourceFilesChanged_rebuild fs fs_build fs' days cb :
  sourceFilesChangedLocked fs' (rebuild fs fs_build days cb) = false ↔
  unchanged_since fs fs' (cb_workspace cb) (cachedAt (rebuild fs fs_build days cb)).
Proof.
  unfold sourceFilesChangedLocked.
  change (cachedAt (rebuild fs fs_build days cb)) with (bl_maxMtime (buildCacheBaseline fs (cb_workspace cb))).
  rewrite baseline_nonzero.
  change (cb_workspace (rebuild fs fs_build days cb)) with (cb_workspace cb).
  pose proof (fileChangedSince_rebuild fs fs_build fs' days cb) as Hf.
  change (cachedAt (rebuild fs fs_build days cb)) with (bl_maxMtime (buildCacheBaseline fs (cb_workspace cb))) in Hf.
  transitivity ((∀ p, p ∈ allPaths (cb_workspace cb) →
      fileChangedSince fs' (rebuild fs fs_build days cb) p = false)
    ∧ skillFilesModifiedSince fs' (skillsDir (cb_workspace cb))
        (bl_maxMtime (buildCacheBaseline fs (cb_workspace cb))) = false).
  - destruct (existsb _ (sourcePaths _)) eqn:E.
    { split; [done|]. intros [H _]. rewrite (proj2 (existsb_false _ _)) in E; [done|].
      intros p Hp. apply H, elem_of_allPaths. by left. }
    rewrite existsb_false in E.
    destruct (fileChangedSince _ _ (skillsDir _)) eqn:E2.
    { split; [done|]. intros [H _]. rewrite H in E2; [done|]. apply elem_of_allPaths. by right. }
    split; [|by intros [_ ?]]. intros H. split; [|done].
    intros p [Hp| ->]%elem_of_allPaths; [by apply E|done].
  - unfold unchanged_since. f_equiv.
    + split; intros H p Hp; by apply Hf, H.
    + unfold skillFilesModifiedSince. rewrite existsb_false.
      split; intros H t Ht; apply Z.ltb_ge; by apply H.
Qed.

Lemma LoadBootstrapFiles_ext fs fs' ws :
  (∀ p, p ∈ sourcePaths ws → read_file fs p = read_file fs' p) →
  LoadBootstrapFiles fs ws = LoadBootstrapFiles fs' ws.
Proof.
  intros H. unfold LoadBootstrapFiles, bootstrapFiles, bootstrap_section. simpl.
  rewrite !H by (unfold sourcePaths; repeat constructor). done.
Qed.

Lemma ReadLongTerm_ext fs fs' ws :
  (∀ p, p ∈ sourcePaths ws → read_file fs p = read_file fs' p) →
  ReadLongTerm fs (NewMemoryStore ws) = ReadLongTerm fs' (NewMemoryStore ws).
Proof.
  intros H. unfold ReadLongTerm. f_equal. apply H. unfold sourcePaths, NewMemoryStore.
  cbn [ms_memoryFile]. repeat constructor.
Qed.

Lemma assemble_nonempty c s b k m : assemble (String c s) b k m ≠ "".
Proof.
  unfold assemble.
  generalize ((if bool_decide (b = "") then [] else [b]) ++
    (if bool_decide (k = "") then [] else
       ["# Skills" +:+ nl +:+ nl
            +:+ "The following skills extend your capabilities. To use a skill, read its SKILL.md file using the read_file tool."
            +:+ nl +:+ nl +:+ k])
    ++ (if bool_decide (m = "") then [] else ["# Memory" +:+ nl +:+ nl +:+ m])).
  intros [|x l]; discriminate.
Qed.

Lemma identity_hash ws : ∃ s, getIdentity ws = String "#" s.
Proof. unfold getIdentity. generalize (Abs ws). intros p. eexists. reflexivity. Qed.

Lemma identity_nonempty fs ws days : BuildSystemPrompt fs ws days ≠ "".
Proof.
  unfold BuildSystemPrompt. destruct (identity_hash ws) as [s ->]. apply assemble_nonempty.
Qed.

(** The prompt cache notices every change it claims to track.  After a
    rebuild whose baseline was taken at [fs] and whose text was read at
    [fs_build], a later request at [fs'] rebuilds exactly when a tracked path
    appeared or vanished since [fs] or a tracked path or a file below the skills
    directory is newer than everything tracked at [fs].  So, when an edit of a
    tracked file shows in its existence or its modification time, a prompt
    served from the cache has the current bootstrap files and the current
    long-term memory; only its skills summary and its daily notes can be old. *)
Lemma prompt_cache_fresh (fs fs_build fs' fs'' : fsys) (days days' : list string)
    (cb : ContextBuilder)
    (Hclock : ∀ p, p ∈ sourcePaths (cb_workspace cb) →
       read_file fs' p ≠ read_file fs_build p →
       ¬ (is_Some (stat fs p) ↔ is_Some (stat fs' p))
       ∨ ∃ t, stat fs' p = Some t ∧ (cachedAt (rebuild fs fs_build days cb) < t)%Z) :
  let cb' := rebuild fs fs_build days cb in
  let served := (BuildSystemPromptWithCache fs' fs'' days' cb').1 in
  (cache_valid fs' cb' = true ↔ unchanged_since fs fs' (cb_workspace cb) (cachedAt cb'))
  ∧ (cache_valid fs' cb' = false → served = BuildSystemPrompt fs'' (cb_workspace cb) days')
  ∧ (cache_valid fs' cb' = true →
     served = assemble (getIdentity (cb_workspace cb)) (LoadBootstrapFiles fs' (cb_workspace cb))
       (BuildSkillsSummary fs_build)
       (memory_context (ReadLongTerm fs' (NewMemoryStore (cb_workspace cb)))
          (GetRecentDailyNotes fs_build (NewMemoryStore (cb_workspace cb)) days))).
Proof.
  cbv zeta. assert (cache_valid fs' (rebuild fs fs_build days cb) = true ↔
      unchanged_since fs fs' (cb_workspace cb) (cachedAt (rebuild fs fs_build days cb))) as Hv.
  { rewrite <-sourceFilesChanged_rebuild. unfold cache_valid.
    rewrite bool_decide_false by apply identity_nonempty. simpl. apply negb_true_iff. }
  split_and!; [done| |]; intros H; unfold BuildSystemPromptWithCache; rewrite H; [done|].
  destruct (proj1 Hv H) as [Hu _].
  assert (∀ p, p ∈ sourcePaths (cb_workspace cb) → read_file fs_build p = read_file fs' p) as Hr.
  { intros p Hp. destruct (decide (read_file fs' p = read_file fs_build p)) as [|Hne]; [done|].
    destruct (Hu p) as [He Ht]; [apply elem_of_allPaths; by left|].
    destruct (Hclock p Hp Hne) as [?|(t & Hs & ?)]; [done|]. specialize (Ht t Hs). lia. }
  cbn [fst rebuild cachedSystemPrompt]. unfold BuildSystemPrompt, GetMemoryContext.
  by rewrite (LoadBootstrapFiles_ext _ _ _ Hr), (ReadLongTerm_ext _ _ _ Hr).
Qed.
End prompt.

(** A workspace with one bootstrap file. *)
Definition demo_fs : fsys :=
  {[ "/w" := Directory 5; "/w/SOUL.md" := File 7 "Be kind."; "/w/memory" := Directory 5;
     "/w/memory/202601" := Directory 6 ]}.
Definition edited_fs : fsys := <["/w/SOUL.md" := File 62135596801000000002%Z "Be brief."]> demo_fs.

Lemma prompt_cache_fresh_witness :
  let cb' := rebuild "/" (λ _, "") demo_fs demo_fs ["20260102"] (NewContextBuilder "/w") in
  (BuildSystemPromptWithCache "/" (λ _, "") edited_fs edited_fs ["20260102"] cb').1
  = BuildSystemPrompt "/" (λ _, "") edited_fs "/w" ["20260102"].
Proof.
  pose proof (prompt_cache_fresh "/" (λ _, "") demo_fs demo_fs edited_fs edited_fs ["20260102"]
    ["20260102"] (NewContextBuilder "/w")) as H. cbv zeta in H |- *.
  refine (proj1 (proj2 (H _)) _); [|vm_compute; reflexivity].
  intros p _ Hne. destruct (decide (p = "/w/SOUL.md")) as [->|Hp].
  - right. exists 62135596801000000002%Z. split; vm_compute; reflexivity.
  - exfalso. apply Hne. unfold read_file, edited_fs. by rewrite lookup_insert_ne by done.
Defined.

(** The daily notes are part of the cached prompt but no tracked path, so a
    note appended after the prompt was cached is missing from the prompt until
    another tracked file changes: the cache stays valid although the prompt
    rebuilt from the files differs from the one served. *)
Lemma daily_notes_go_stale :
  let cb' := rebuild "/" (λ _, "") demo_fs demo_fs ["20260102"] (NewContextBuilder "/w") in
  ∃ fs', AppendToday demo_fs 62135596801000000002%Z (NewMemoryStore "/w") "20260102" "2026-01-02"
           "met Ann" = Some fs'
    ∧ cache_valid fs' cb' = true
    ∧ (BuildSystemPromptWithCache "/" (λ _, "") fs' fs' ["20260102"] cb').1
      ≠ BuildSystemPrompt "/" (λ _, "") fs' "/w" ["20260102"].
Proof.
  intros cb'.
  assert (match AppendToday demo_fs 62135596801000000002%Z (NewMemoryStore "/w") "20260102"
            "2026-01-02" "met Ann" with
          | Some fs' => cache_valid fs' cb'
              && negb (bool_decide ((BuildSystemPromptWithCache "/" (λ _, "") fs' fs' ["20260102"] cb').1
                                    = BuildSystemPrompt "/" (λ _, "") fs' "/w" ["20260102"]))
          | None => false
          end = true) as H by (vm_compute; reflexivity).
  destruct (AppendToday _ _ _ _ _ _) as [fs'|]; [|discriminate H].
  exists fs'. apply andb_true_iff in H as [Hv Hn].
  split; [reflexivity|]. split; [exact Hv|].
  apply negb_true_iff in Hn. by apply bool_decide_eq_false in Hn.
Qed.
