(* ===== verification/StateManager.v ===== *)
(** * The state manager (pkg/state/state.go, pkg/constants/constants.go)

    The last active channel, kept in a file that is replaced atomically, with
    the migration of the file from its old place.  A file is modelled by what
    [json.Unmarshal] finds in it. *)
From stdpp Require Import base gmap strings list.
From Stdlib Require Import Ascii ZArith Lia.
From S2P Require Import Prelude GoStrings.

(** ** Internal channels *)
Definition internalChannels : list string := ["cli"; "system"; "subagent"; "api"].
Definition IsInternalChannel (channel : string) : bool := bool_decide (channel ∈ internalChannels).

(** ** State and files *)
Record State := mk_State {
  LastChannel : string;
  LastChatID : string;
  Timestamp : time;
}.
Definition zero_state : State := mk_State "" "" 0%Z.

Inductive content := Absent | Unreadable | NotAState | SavedState (s : State).

(** [state/state.json], [state/state.json.tmp] and the old [state.json]. *)
Record files := mk_files {
  f_state : content;
  f_temp : content;
  f_old : content;
}.

Record Manager := mk_Manager {
  sm_state : State;
  sm_files : files;
}.

(** What stops a save, and whether a removal then succeeds. *)
Inductive fault := WriteFails (partial : content) | RenameFails (removed : bool).

(** The files after [saveAtomic], preceded by the states they go through. *)
Definition saveAtomic (o : option fault) (s : State) (fs : files) : result fault unit * list files :=
  let written := mk_files (f_state fs) (SavedState s) (f_old fs) in
  match o with
  | Some (WriteFails partial) => (Err (WriteFails partial), [mk_files (f_state fs) partial (f_old fs)])
  | Some (RenameFails removed) =>
      (Err (RenameFails removed),
       [written; mk_files (f_state fs) (if removed then Absent else SavedState s) (f_old fs)])
  | None => (Ok tt, [written; mk_files (SavedState s) Absent (f_old fs)])
  end.

Definition after_save (o : option fault) (s : State) (fs : files) : files :=
  default fs (last (saveAtomic o s fs).2).

Definition load (sm : Manager) : Manager :=
  match f_state (sm_files sm) with
  | SavedState s => mk_Manager s (sm_files sm)
  | _ => sm
  end.

Definition NewManager (o : option fault) (fs : files) : Manager :=
  let sm := mk_Manager zero_state fs in
  match f_state fs with
  | Absent =>
      match f_old fs with
      | SavedState s => mk_Manager s (after_save o s fs)
      | _ => sm
      end
  | _ => load sm
  end.

Definition set_state (o : option fault) (s : State) (sm : Manager) : result fault unit * Manager :=
  ((saveAtomic o s (sm_files sm)).1, mk_Manager s (after_save o s (sm_files sm))).

Definition SetLastChannel (now : time) (o : option fault) (channel : string) (sm : Manager) :
    result fault unit * Manager :=
  set_state o (mk_State channel (LastChatID (sm_state sm)) now) sm.

Definition SetLastChatID (now : time) (o : option fault) (chatID : string) (sm : Manager) :
    result fault unit * Manager :=
  set_state o (mk_State (LastChannel (sm_state sm)) chatID now) sm.

Definition GetLastChannel (sm : Manager) : string := LastChannel (sm_state sm).
Definition GetLastChatID (sm : Manager) : string := LastChatID (sm_state sm).
Definition GetTimestamp (sm : Manager) : time := Timestamp (sm_state sm).

(** The key under which the agent loop records a channel and a chat. *)
Definition channel_key (channel chatID : string) : string := channel +:+ ":" +:+ chatID.

(** ** Properties *)

(** A save never leaves the state file partly written: at every moment it holds
    the old content or the whole new state. *)
Lemma saveAtomic_atomic o s fs fs' :
  fs' ∈ (saveAtomic o s fs).2 → f_state fs' = f_state fs ∨ f_state fs' = SavedState s.
Proof.
  destruct o as [[partial|removed]|]; simpl; set_unfold; intros H; naive_solver.
Qed.

Lemma saveAtomic_ok o s fs :
  (saveAtomic o s fs).1 = Ok tt → f_state (after_save o s fs) = SavedState s.
Proof. by destruct o as [[]|]. Qed.

Lemma saveAtomic_err o s fs e :
  (saveAtomic o s fs).1 = Err e → f_state (after_save o s fs) = f_state fs.
Proof. by destruct o as [[]|]. Qed.

(** A state that was set is found again by the next process, and the old file is
    consulted only while there is no new one. *)
Lemma set_state_reload o s sm o' :
  (set_state o s sm).1 = Ok tt →
  sm_state (NewManager o' (sm_files (set_state o s sm).2)) = s.
Proof.
  intros H%saveAtomic_ok. unfold NewManager. simpl. rewrite H. unfold load. simpl. by rewrite H.
Qed.

Lemma migration o fs s :
  f_state fs = Absent → f_old fs = SavedState s → sm_state (NewManager o fs) = s.
Proof. intros H1 H2. unfold NewManager. by rewrite H1, H2. Qed.
