(* ===== verification/SplitMessage.v ===== *)
(** * Splitting and truncating messages (pkg/utils/message.go, pkg/utils/string.go)

    The splitter works on bytes; indices are Go ints ([Z]), [-1] for not found.
    The loop is run with fuel: [OutOfFuel] is a loop that has not ended yet, and
    a slice out of range is a panic. *)
From stdpp Require Import base gmap strings list.
From Stdlib Require Import Ascii ZArith Lia.
From S2P Require Import Prelude GoStrings.
#[local] Open Scope Z_scope.

Abbreviation text := (list ascii) (only parsing).

Definition zlen (l : text) : Z := Z.of_nat (length l).
Definition backtick : ascii := ascii_of_nat 96.
Definition fence : text := [backtick; backtick; backtick].
Definition nl : text := [newline_char].

(** [content[:i]] and [content[i:]]; [None]: the slice panics. *)
Definition upto (i : Z) (l : text) : option text :=
  if (0 <=? i) && (i <=? zlen l) then Some (take (Z.to_nat i) l) else None.
Definition from (i : Z) (l : text) : option text :=
  if (0 <=? i) && (i <=? zlen l) then Some (drop (Z.to_nat i) l) else None.

(** ** The searches *)
Definition find_last (p : ascii → bool) (s : text) (searchWindow : nat) : Z :=
  match list_find p (take searchWindow (reverse s)) with
  | Some (i, _) => zlen s - 1 - Z.of_nat i
  | None => -1
  end.
Definition findLastNewline (s : text) (searchWindow : nat) : Z :=
  find_last (λ c, bool_decide (c = newline_char)) s searchWindow.
Definition findLastSpace (s : text) (searchWindow : nat) : Z :=
  find_last (λ c, bool_decide (c = " "%char) || bool_decide (c = ascii_of_nat 9)) s searchWindow.

Definition is_fence (a b c : ascii) : bool :=
  bool_decide (a = backtick) && bool_decide (b = backtick) && bool_decide (c = backtick).

Fixpoint unclosed_go (l : text) (i : Z) (inCodeBlock : bool) (lastOpenIdx : Z) : Z :=
  match l with
  | [] => if inCodeBlock then lastOpenIdx else -1
  | a :: l' =>
      match l' with
      | b :: c :: rest =>
          if is_fence a b c
          then unclosed_go rest (i + 3) (negb inCodeBlock) (if inCodeBlock then lastOpenIdx else i)
          else unclosed_go l' (i + 1) inCodeBlock lastOpenIdx
      | _ => unclosed_go l' (i + 1) inCodeBlock lastOpenIdx
      end
  end.
Definition findLastUnclosedCodeBlock (l : text) : Z := unclosed_go l 0 false (-1).

Definition findNextClosingCodeBlock (l : text) (startIdx : Z) : Z :=
  match index_l fence (drop (Z.to_nat startIdx) l) with
  | Some k => startIdx + Z.of_nat k + 3
  | None => -1
  end.

(** ** The loop *)
Definition trim (l : text) : text := trim_by is_space l.
Definition in_cutset (c : ascii) : bool :=
  bool_decide (c ∈ [" "%char; ascii_of_nat 9; newline_char; ascii_of_nat 13]).
Definition trim_right (l : text) : text := reverse (drop_while in_cutset (reverse l)).

Inductive step_result :=
| Final (chunk : text)                       (* the last chunk *)
| Next (chunk content : text)                (* a chunk, and what is left *)
| Panic.

Definition of_option (o : option step_result) : step_result := default Panic o.

(** A chunk that ends inside a code block: the fence is closed and reopened. *)
Definition split_inside (content header : text) (msgEnd : Z) : step_result :=
  match upto msgEnd content, from msgEnd content with
  | Some a, Some b => Next (trim_right a ++ nl ++ fence) (trim (header ++ nl ++ b))
  | _, _ => Panic
  end.

Definition split_plain (content : text) (msgEnd : Z) : step_result :=
  match upto msgEnd content, from msgEnd content with
  | Some a, Some b => Next a (trim b)
  | _, _ => Panic
  end.

Definition code_block_buffer (maxLen : Z) : Z :=
  Z.min (Z.max (Z.quot maxLen 10) 50) (Z.quot maxLen 2).
Definition effective_limit (maxLen : Z) : Z :=
  Z.max (maxLen - code_block_buffer maxLen) (Z.quot maxLen 2).

Definition natural_end (limited : text) (effectiveLimit : Z) : Z :=
  let msgEnd := findLastNewline limited 200 in
  let msgEnd := if msgEnd <=? 0 then findLastSpace limited 100 else msgEnd in
  if msgEnd <=? 0 then effectiveLimit else msgEnd.

(** The chunk ends in an incomplete code block that cannot be closed in it. *)
Definition split_block (maxLen : Z) (content : text) (msgEnd unclosedIdx : Z) :
    step_result :=
  of_option (
    tail ← from unclosedIdx content;
    let headerEnd := match index_l nl tail with
                     | None => unclosedIdx + 3
                     | Some k => Z.of_nat k + unclosedIdx
                     end in
    header ← (λ l, trim (drop (Z.to_nat unclosedIdx) l)) <$> upto headerEnd content;
    if headerEnd + 20 <? msgEnd then
      let innerLimit := maxLen - 5 in
      inner ← upto innerLimit content;
      let betterEnd := findLastNewline inner 200 in
      Some (split_inside content header (if headerEnd <? betterEnd then betterEnd else innerLimit))
    else
      before ← upto unclosedIdx content;
      let newEnd := findLastNewline before 200 in
      let newEnd := if newEnd <=? 0 then findLastSpace before 100 else newEnd in
      if 0 <? newEnd then Some (split_plain content newEnd)
      else if 20 <? unclosedIdx then Some (split_plain content unclosedIdx)
      else Some (split_inside content header (maxLen - 5))).

(** One round of the loop, on a content that is not empty. *)
Definition split_step (maxLen : Z) (content : text) : step_result :=
  if zlen content <=? maxLen then Final content
  else
    let effectiveLimit := effective_limit maxLen in
    match upto effectiveLimit content with
    | None => Panic
    | Some limited =>
        let msgEnd := natural_end limited effectiveLimit in
        match upto msgEnd content with
        | None => Panic
        | Some candidate =>
            let unclosedIdx := findLastUnclosedCodeBlock candidate in
            if (0 <=? unclosedIdx) && (msgEnd <? zlen content) then
              let closingIdx := findNextClosingCodeBlock content msgEnd in
              if (0 <? closingIdx) && (closingIdx <=? maxLen) then split_plain content closingIdx
              else split_block maxLen content msgEnd unclosedIdx
            else split_plain content msgEnd
        end
    end.

Inductive split_result := OutOfFuel | Panicked | Chunks (messages : list text).

Fixpoint split_loop (fuel : nat) (maxLen : Z) (messages : list text) (content : text) :
    split_result :=
  match content with
  | [] => Chunks messages
  | _ =>
      match fuel with
      | O => OutOfFuel
      | S n =>
          match split_step maxLen content with
          | Final chunk => Chunks (messages ++ [chunk])
          | Next chunk content => split_loop n maxLen (messages ++ [chunk]) content
          | Panic => Panicked
          end
      end
  end.

Definition SplitMessage (fuel : nat) (content : string) (maxLen : Z) : split_result :=
  split_loop fuel maxLen [] (chars content).

(** ** Truncation *)

(** [string(runes[:n])]. *)
Definition Truncate (s : string) (maxLen : Z) : string :=
  if maxLen <=? 0 then ""
  else
    let rs := runes s in
    if Z.of_nat (length rs) <=? maxLen then s
    else if maxLen <=? 3 then implode (mjoin (take (Z.to_nat maxLen) rs))
    else implode (mjoin (take (Z.to_nat (maxLen - 3)) rs)) +:+ "...".

Definition DerefStr (s : option string) (fallback : string) : string :=
  match s with None => fallback | Some s => s end.

(** ** Ranges *)
Lemma zlen_app a b : zlen (a ++ b) = zlen a + zlen b.
Proof. unfold zlen. rewrite length_app. lia. Qed.

Lemma upto_Some i l : 0 <= i <= zlen l → ∃ a, upto i l = Some a ∧ zlen a = i ∧ a = take (Z.to_nat i) l.
Proof.
  intros Hi. unfold upto. rewrite (proj2 (Z.leb_le 0 i)), (proj2 (Z.leb_le i _)) by lia.
  eexists. split; [done|]. split; [|done]. unfold zlen in *. rewrite length_take. lia.
Qed.
Lemma from_Some i l : 0 <= i <= zlen l → ∃ b, from i l = Some b ∧ zlen b = zlen l - i ∧ b = drop (Z.to_nat i) l.
Proof.
  intros Hi. unfold from. rewrite (proj2 (Z.leb_le 0 i)), (proj2 (Z.leb_le i _)) by lia.
  eexists. split; [done|]. split; [|done]. unfold zlen in *. rewrite length_drop. lia.
Qed.

Lemma find_last_range p s w : -1 <= find_last p s w /\ find_last p s w < Z.max (zlen s) 0.
Proof.
  unfold find_last. destruct (list_find p _) as [[i c]|] eqn:E; [|unfold zlen; lia].
  apply list_find_Some in E as (Hi & _ & _). apply lookup_lt_Some in Hi.
  rewrite length_take, length_reverse in Hi. unfold zlen. lia.
Qed.

Lemma unclosed_go_cons3 x y z rest i b last :
  unclosed_go (x :: y :: z :: rest) i b last =
  if is_fence x y z then unclosed_go rest (i + 3) (negb b) (if b then last else i)
  else unclosed_go (y :: z :: rest) (i + 1) b last.
Proof. reflexivity. Qed.

Lemma unclosed_range l i b last :
  (b = true → 0 <= last <= i - 3) → 0 <= i →
  unclosed_go l i b last = -1 ∨ 0 <= unclosed_go l i b last <= i + zlen l - 3.
Proof.
  remember (length l) as n eqn:Hn. revert l Hn i b last.
  induction n as [n IH] using (well_founded_induction lt_wf). intros l -> i b last Hb Hi.
  destruct l as [|x l]; [simpl; destruct b; [right; specialize (Hb eq_refl); unfold zlen; simpl; lia|by left]|].
  assert (∀ l' j b' last', (length l' < length (x :: l))%nat → (b' = true → 0 <= last' <= j - 3) → 0 <= j →
    unclosed_go l' j b' last' = -1 ∨ 0 <= unclosed_go l' j b' last' <= j + zlen l' - 3) as IH'.
  { intros l' j b' last' Hl. by apply (IH (length l')). }
  destruct l as [|y [|z rest]].
  - destruct b; [right; specialize (Hb eq_refl); unfold zlen; simpl; lia|by left].
  - destruct b; [right; specialize (Hb eq_refl); unfold zlen; simpl; lia|by left].
  - rewrite unclosed_go_cons3. destruct (is_fence x y z).
    + destruct (IH' rest (i + 3) (negb b) (if b then last else i)) as [->|H];
        [simpl; lia|destruct b; [done|lia]|lia|by left|].
      right. unfold zlen in *. simpl length in *. lia.
    + destruct (IH' (y :: z :: rest) (i + 1) b last) as [H|H];
        [simpl; lia|intros ->; specialize (Hb eq_refl); lia|lia|by left|].
      right. unfold zlen in *. cbn [length] in *. lia.
Qed.

Lemma unclosed_block_range l :
  findLastUnclosedCodeBlock l = -1 ∨ 0 <= findLastUnclosedCodeBlock l <= zlen l - 3.
Proof. unfold findLastUnclosedCodeBlock. apply (unclosed_range l 0 false (-1)); [done|lia]. Qed.

Lemma closing_range l i :
  0 <= i <= zlen l → findNextClosingCodeBlock l i = -1 ∨ 0 < findNextClosingCodeBlock l i <= zlen l.
Proof.
  intros Hi. unfold findNextClosingCodeBlock. destruct (index_l _ _) as [k|] eqn:E; [|by left].
  apply index_l_Some in E as (r & Hr & Hk). right. apply (f_equal length) in Hr.
  rewrite !length_app, length_take, !length_drop in Hr. rewrite length_drop in Hk.
  unfold zlen, fence in *. simpl length in Hr. lia.
Qed.

Lemma trim_right_length l : zlen (trim_right l) <= zlen l.
Proof.
  unfold trim_right, zlen. rewrite length_reverse.
  pose proof (drop_while_length in_cutset (reverse l)) as H. rewrite length_reverse in H. lia.
Qed.

Lemma buffer_range maxLen : 1 <= maxLen → 1 <= effective_limit maxLen <= maxLen.
Proof.
  intros H. unfold effective_limit, code_block_buffer.
  pose proof (Z.quot_pos maxLen 10 ltac:(lia) ltac:(lia)).
  pose proof (Z.quot_pos maxLen 2 ltac:(lia) ltac:(lia)).
  pose proof (Z.quot_lt maxLen 2 ltac:(lia) ltac:(lia)). lia.
Qed.

Lemma natural_end_range limited e :
  zlen limited = e → 1 <= e → 1 <= natural_end limited e <= e.
Proof.
  intros Hl He. unfold natural_end.
  pose proof (find_last_range (λ c, bool_decide (c = newline_char)) limited 200) as [_ H1].
  pose proof (find_last_range (λ c, bool_decide (c = " "%char) || bool_decide (c = ascii_of_nat 9)) limited 100) as [_ H2].
  unfold findLastNewline, findLastSpace in *.
  repeat match goal with |- context [Z.leb ?a 0] => destruct (Z.leb_spec a 0) end; lia.
Qed.

(** What a step may answer: no panic, and a chunk within the limit. *)
Definition step_ok (maxLen : Z) (r : step_result) : Prop :=
  match r with
  | Final chunk | Next chunk _ => zlen chunk <= maxLen
  | Panic => False
  end.

Lemma split_plain_ok maxLen content e :
  0 <= e <= zlen content → e <= maxLen → step_ok maxLen (split_plain content e).
Proof.
  intros He Hm. unfold split_plain. destruct (upto_Some e content He) as (a & -> & Ha & _).
  destruct (from_Some e content He) as (b & -> & _). simpl. lia.
Qed.

Lemma split_inside_ok maxLen content header e :
  0 <= e <= zlen content → e <= maxLen - 5 → step_ok maxLen (split_inside content header e).
Proof.
  intros He Hm. unfold split_inside. destruct (upto_Some e content He) as (a & -> & Ha & _).
  destruct (from_Some e content He) as (b & -> & _). simpl. rewrite !zlen_app.
  pose proof (trim_right_length a). change (zlen (newline_char :: fence)) with 4. lia.
Qed.

Lemma split_block_ok maxLen content msgEnd u :
  5 <= maxLen → maxLen < zlen content → msgEnd <= maxLen → 0 <= u → u + 3 <= msgEnd →
  step_ok maxLen (split_block maxLen content msgEnd u).
Proof.
  intros Hm Hl Hme Hu Hue. unfold split_block.
  destruct (from_Some u content ltac:(lia)) as (tail & -> & Htail & _). simpl.
  set (headerEnd := match index_l nl tail with None => _ | Some k => _ end).
  assert (0 <= headerEnd <= zlen content) as Hh.
  { unfold headerEnd. destruct (index_l nl tail) as [k|] eqn:E; [|lia].
    apply index_l_Some in E as (r & Hr & Hk). unfold zlen in *. lia. }
  destruct (upto_Some headerEnd content Hh) as (h & -> & _). simpl.
  destruct (Z.ltb_spec (headerEnd + 20) msgEnd).
  - destruct (upto_Some (maxLen - 5) content ltac:(lia)) as (inner & -> & Hin & _). simpl.
    pose proof (find_last_range (λ c, bool_decide (c = newline_char)) inner 200) as [_ Hr].
    unfold findLastNewline. apply split_inside_ok; destruct (Z.ltb_spec headerEnd (find_last (λ c, bool_decide (c = newline_char)) inner 200)); lia.
  - destruct (upto_Some u content ltac:(lia)) as (before & -> & Hb & _). simpl.
    set (newEnd := if _ <=? 0 then _ else _).
    assert (newEnd <= u) as Hn.
    { unfold newEnd, findLastNewline, findLastSpace.
      pose proof (find_last_range (λ c, bool_decide (c = newline_char)) before 200).
      pose proof (find_last_range (λ c, bool_decide (c = " "%char) || bool_decide (c = ascii_of_nat 9)) before 100).
      case_match; lia. }
    destruct (Z.ltb_spec 0 newEnd); [apply split_plain_ok; lia|].
    destruct (Z.ltb_spec 20 u); [apply split_plain_ok; lia|]. apply split_inside_ok; lia.
Qed.

Lemma split_step_ok maxLen content : 5 <= maxLen → step_ok maxLen (split_step maxLen content).
Proof.
  intros Hm. unfold split_step. destruct (Z.leb_spec (zlen content) maxLen); [simpl; lia|].
  pose proof (buffer_range maxLen ltac:(lia)) as He.
  destruct (upto_Some (effective_limit maxLen) content ltac:(lia)) as (lim & -> & Hlim & _).
  pose proof (natural_end_range _ _ Hlim ltac:(lia)) as Hn.
  destruct (upto_Some (natural_end lim (effective_limit maxLen)) content ltac:(lia)) as (cand & -> & Hc & _).
  pose proof (unclosed_block_range cand) as Hu.
  destruct (_ && _) eqn:Eb; [|apply split_plain_ok; lia]. bool_nums.
  destruct (_ && _) eqn:Ec; bool_nums.
  - apply split_plain_ok; [|lia].
    pose proof (closing_range content (natural_end lim (effective_limit maxLen)) ltac:(lia)). lia.
  - apply split_block_ok; lia.
Qed.

(** Every chunk is within the limit, and the splitter does not panic. *)
Lemma split_bounded_chunks (fuel : nat) (content : string) (maxLen : Z) (Hm : 5 <= maxLen) :
  match SplitMessage fuel content maxLen with
  | Chunks messages => Forall (λ m, zlen m <= maxLen) messages
  | OutOfFuel => True
  | Panicked => False
  end.
Proof.
  unfold SplitMessage. assert (Forall (λ m, zlen m <= maxLen) (@nil text)) as H by constructor.
  revert H. generalize (@nil text). generalize (chars content).
  induction fuel as [|n IH]; intros l messages H; destruct l as [|c l]; simpl; try done.
  pose proof (split_step_ok maxLen (c :: l) Hm) as Hs.
  destruct (split_step maxLen (c :: l)) as [chunk|chunk content'|]; simpl in Hs; [| |done].
  - apply Forall_app. split; [done|by constructor].
  - apply IH. apply Forall_app. split; [done|by constructor].
Qed.

(** No chunk is too long.  With a limit of at least 5 the splitter never
    slices out of range, and every chunk it has produced, also of a loop that is
    still running, fits the limit, closing fences included. *)
Lemma split_chunks_bounded (fuel : nat) (content : string) (maxLen : Z) (Hm : 5 <= maxLen) :
  match SplitMessage fuel content maxLen with
  | Chunks messages => Forall (λ m, zlen m <= maxLen) messages
  | OutOfFuel => True
  | Panicked => False
  end.
Proof. by apply split_bounded_chunks. Qed.

Lemma split_chunks_bounded_witness :
  (5 <= 8) ∧ match SplitMessage 9 "hello big world" 8 with
             | Chunks messages => Forall (λ m, zlen m <= 8) messages
             | OutOfFuel => True
             | Panicked => False
             end.
Proof. split; [lia|]. apply (split_chunks_bounded 9 "hello big world" 8). lia. Defined.

(** ** Text without code fences *)
Definition fence_free (l : text) : Prop := ∀ a b, l ≠ a ++ fence ++ b.

Lemma fence_free_app_l l l' : fence_free (l ++ l') → fence_free l.
Proof. intros H a b ->. apply (H a (b ++ l')). by rewrite <-!app_assoc. Qed.
Lemma fence_free_app_r l l' : fence_free (l ++ l') → fence_free l'.
Proof. intros H a b ->. apply (H (l ++ a) b). by rewrite <-!app_assoc. Qed.

Lemma is_fence_true a b c : is_fence a b c = true → [a; b; c] = fence.
Proof. unfold is_fence. intros H. bool_nums. by subst. Qed.

Lemma unclosed_fence_free l i last : fence_free l → unclosed_go l i false last = -1.
Proof.
  revert i. induction l as [|x l IH]; intros i H; [done|].
  assert (fence_free l) as Hl by (by apply (fence_free_app_r [x])).
  destruct l as [|y [|z rest]]; [done|done|].
  rewrite unclosed_go_cons3. destruct (is_fence x y z) eqn:E; [|by apply IH].
  apply is_fence_true in E. exfalso. apply (H [] rest). rewrite <-E. done.
Qed.

Definition visible (l : text) : text := filter (λ c, is_space c = false) l.

Lemma visible_drop_while l : visible (drop_while is_space l) = visible l.
Proof.
  induction l as [|c l IH]; [done|]. cbn [drop_while]. destruct (is_space c) eqn:E; [|done].
  rewrite IH. unfold visible. rewrite (filter_cons_False _ c l); [done|]. congruence.
Qed.
Lemma visible_reverse l : visible (reverse l) = reverse (visible l).
Proof.
  unfold visible. induction l as [|c l IH]; [done|].
  rewrite reverse_cons, filter_app, IH. destruct (is_space c) eqn:E.
  - rewrite filter_cons_False, (filter_cons_False _ c l) by congruence. by rewrite filter_nil, app_nil_r.
  - rewrite filter_cons_True, (filter_cons_True _ c l) by done. by rewrite filter_nil, reverse_cons.
Qed.
Lemma visible_trim l : visible (trim l) = visible l.
Proof.
  unfold trim, trim_by.
  by rewrite visible_reverse, visible_drop_while, visible_reverse, reverse_involutive, visible_drop_while.
Qed.
Lemma visible_app a b : visible (a ++ b) = visible a ++ visible b.
Proof. apply filter_app. Qed.

Lemma trim_infix l : ∃ a b, l = a ++ trim l ++ b.
Proof.
  unfold trim, trim_by. destruct (drop_while_suffix is_space l) as [a Ha].
  destruct (drop_while_suffix is_space (reverse (drop_while is_space l))) as [b Hb].
  exists a, (reverse b). rewrite Ha at 1. f_equal.
  rewrite <-(reverse_involutive (drop_while is_space l)) at 1. rewrite Hb at 1. by rewrite reverse_app.
Qed.
Lemma trim_length l : zlen (trim l) <= zlen l.
Proof. unfold zlen, trim. pose proof (trim_by_length is_space l). lia. Qed.

(** A step on fence-free text cuts it in two and trims the rest. *)
Lemma split_step_fence_free maxLen l :
  1 <= maxLen → fence_free l → maxLen < zlen l →
  ∃ a b, split_step maxLen l = Next a (trim b) ∧ l = a ++ b ∧ 1 <= zlen a <= maxLen.
Proof.
  intros Hm Hf Hl. unfold split_step. destruct (Z.leb_spec (zlen l) maxLen); [lia|].
  pose proof (buffer_range maxLen ltac:(lia)) as He.
  destruct (upto_Some (effective_limit maxLen) l ltac:(lia)) as (lim & -> & Hlim & _).
  pose proof (natural_end_range _ _ Hlim ltac:(lia)) as Hn.
  set (e := natural_end lim (effective_limit maxLen)) in *.
  destruct (upto_Some e l ltac:(lia)) as (cand & Hup & Hc & ->). rewrite Hup.
  rewrite <-(take_drop (Z.to_nat e) l) in Hf.
  unfold findLastUnclosedCodeBlock.
  rewrite (unclosed_fence_free _ 0 (-1) (fence_free_app_l _ _ Hf)). simpl.
  destruct (from_Some e l ltac:(lia)) as (b & Hb & _ & ->).
  unfold split_plain. rewrite Hup, Hb. eexists _, _. split; [done|].
  split; [by rewrite take_drop|lia].
Qed.

(** Text without code fences is split completely.  Such a message is split
    in at most as many rounds as it has bytes, for every positive limit: the
    chunks are not empty, fit the limit, and together carry every visible byte
    of the message, once and in order. *)
Lemma split_plain_text (content : string) (maxLen : Z)
    (Hm : 1 <= maxLen) (Hf : contains content "```" = false) :
  ∃ messages, SplitMessage (String.length content) content maxLen = Chunks messages
    ∧ Forall (λ m, 1 <= zlen m <= maxLen) messages
    ∧ visible (mjoin messages) = visible (chars content).
Proof.
  assert (fence_free (chars content)) as Hff.
  { unfold contains, index in Hf. apply bool_decide_eq_false in Hf.
    intros a b. apply (index_l_None fence). by apply eq_None_not_Some. }
  clear Hf. unfold SplitMessage. rewrite <-length_chars.
  generalize (le_n (length (chars content))). revert Hff.
  generalize (length (chars content)) at 2 3 as fuel. generalize (chars content) as l.
  intros l fuel Hff.
  assert (∀ acc, (length l <= fuel)%nat → ∃ messages,
    split_loop fuel maxLen acc l = Chunks (acc ++ messages)
    ∧ Forall (λ m, 1 <= zlen m <= maxLen) messages ∧ visible (mjoin messages) = visible l) as H.
  { revert l Hff. induction fuel as [|n IH]; intros l Hff acc Hlen.
    { destruct l; [|simpl in Hlen; lia]. exists []. by rewrite app_nil_r. }
    destruct l as [|c l]; [exists []; by rewrite app_nil_r|]. cbn [split_loop].
    destruct (Z.leb_spec (zlen (c :: l)) maxLen) as [Hle|Hgt].
    - unfold split_step. rewrite (proj2 (Z.leb_le _ _)) by done. exists [c :: l]. csimpl.
      rewrite app_nil_r. split_and!; [done|constructor; [|constructor]|done].
      unfold zlen in *. simpl in *. lia.
    - destruct (split_step_fence_free maxLen (c :: l) Hm Hff Hgt) as (a & b & -> & Hab & Ha).
      destruct (IH (trim b)) with (acc := acc ++ [a]) as (messages & -> & Hall & Hvis).
      + rewrite Hab in Hff. apply fence_free_app_r in Hff. destruct (trim_infix b) as (x & y & Hb).
        rewrite Hb in Hff. by apply fence_free_app_r, fence_free_app_l in Hff.
      + pose proof (trim_length b). rewrite Hab in Hlen. rewrite length_app in Hlen.
        unfold zlen in *. lia.
      + exists (a :: messages). rewrite <-app_assoc. split_and!; [done|by constructor|].
        csimpl. by rewrite Hab, !visible_app, Hvis, visible_trim. }
  intros Hle. destruct (H [] Hle) as (messages & -> & ? & ?). by exists messages.
Qed.

Lemma split_plain_text_witness :
  ∃ messages, SplitMessage 15 "hello big world" 8 = Chunks messages
    ∧ visible (mjoin messages) = chars "hellobigworld".
Proof.
  destruct (split_plain_text "hello big world" 8) as (messages & Hs & _ & Hv);
    [lia|vm_compute; reflexivity|].
  exists messages. split; [exact Hs|]. rewrite Hv. vm_compute. reflexivity.
Defined.

(** ** A code fence with a long first line *)
Lemma trim_keep c P q t :
  is_space c = false → is_space q = false → ∃ t', trim (c :: P ++ q :: t) = c :: P ++ q :: t'.
Proof.
  intros Hc Hq. unfold trim, trim_by. cbn [drop_while]. rewrite Hc.
  rewrite app_comm_cons, reverse_app, (reverse_cons t q), <-app_assoc. cbn [app].
  destruct (drop_while_stop is_space (reverse t) q (reverse (c :: P)) Hq) as [s ->].
  exists (reverse s). rewrite reverse_app, reverse_cons, reverse_involutive, <-app_assoc. done.
Qed.

Lemma index_char c p l : c ∉ p → index_l [c] (p ++ c :: l) = Some (length p).
Proof.
  induction p as [|x p IH]; intros Hn; simpl.
  - by rewrite bool_decide_eq_true_2.
  - rewrite bool_decide_eq_false_2 by set_solver. simpl. by rewrite IH by set_solver.
Qed.

Lemma find_last_none p s w : Forall (λ c, p c = false) s → find_last p s w = -1.
Proof.
  intros H. unfold find_last. destruct (list_find p _) as [[i c]|] eqn:E; [|done].
  apply list_find_Some in E as (Hi & Hp & _).
  apply list_elem_of_lookup_2, elem_of_take in Hi as (j & Hi & _).
  apply list_elem_of_lookup_2 in Hi. rewrite elem_of_reverse in Hi.
  rewrite Forall_forall in H. rewrite (H _ Hi) in Hp. done.
Qed.

Definition letter : ascii := "a".
Definition long_line (n : nat) : text := fence ++ replicate n letter.
(** A fence and a first line of [n] letters, then [r]. *)
Definition long_header (n : nat) (r : text) : text := long_line n ++ nl ++ r.

Lemma long_line_chars n c : c ∈ long_line n → c = backtick ∨ c = letter.
Proof.
  unfold long_line. intros [H|H]%elem_of_app.
  - left. unfold fence in H. set_solver.
  - right. by apply elem_of_replicate in H as [-> _].
Qed.
Lemma long_line_none n (p : ascii → bool) :
  p backtick = false → p letter = false → Forall (λ c, p c = false) (long_line n).
Proof. intros Hb Hl. apply Forall_forall. by intros c [->| ->]%long_line_chars. Qed.
Lemma long_line_length n : length (long_line n) = (n + 3)%nat.
Proof. unfold long_line. rewrite length_app, length_replicate. simpl. lia. Qed.
Lemma long_header_zlen n r : zlen (long_header n r) = Z.of_nat n + 4 + zlen r.
Proof. unfold long_header. rewrite !zlen_app. unfold zlen. rewrite long_line_length. simpl. lia. Qed.

Lemma take_long_header k n r :
  (3 <= k <= n + 3)%nat → take k (long_header n r) = long_line (k - 3).
Proof.
  intros Hk. unfold long_header. rewrite take_app_le by (rewrite long_line_length; lia).
  unfold long_line. rewrite take_app_ge by (simpl; lia). f_equal.
  rewrite take_replicate. f_equal. simpl. lia.
Qed.

Lemma unclosed_letters k i last : unclosed_go (replicate k letter) i true last = last.
Proof.
  revert i. induction k as [|k IH]; intros i; [done|].
  destruct k as [|[|k]]; [done|done|]. cbn [replicate]. rewrite unclosed_go_cons3. simpl is_fence.
  apply (IH (i + 1)).
Qed.

Lemma closing_long_header n r (e : nat) :
  (e <= n + 3)%nat →
  findNextClosingCodeBlock (long_header n r) (Z.of_nat e) = -1
  ∨ Z.of_nat n < findNextClosingCodeBlock (long_header n r) (Z.of_nat e) ∨ (e < 3)%nat.
Proof.
  intros He. destruct (decide (e < 3)%nat); [by right; right|]. unfold findNextClosingCodeBlock.
  rewrite Nat2Z.id. destruct (index_l _ _) as [k|] eqn:E; [|by left]. right; left.
  apply index_l_Some in E as (rest & Hr & Hk).
  destruct (decide (e + k < n + 3)%nat) as [Hlt|]; [|lia]. exfalso.
  assert (long_header n r !! (e + k)%nat = Some backtick) as H1.
  { rewrite <-lookup_drop, Hr, lookup_app_r by (rewrite length_take; lia).
    rewrite length_take, Nat.min_l by lia. by rewrite Nat.sub_diag. }
  assert (long_header n r !! (e + k)%nat = Some letter) as H2.
  { unfold long_header. rewrite lookup_app_l by (rewrite long_line_length; lia).
    unfold long_line. rewrite lookup_app_r by (simpl; lia). apply lookup_replicate_2. simpl. lia. }
  rewrite H1 in H2. discriminate H2.
Qed.

Lemma long_header_tail k n r :
  (k <= n + 2)%nat → (1 <= n)%nat → ∃ x, drop k (long_header n r) = x ++ letter :: nl ++ r.
Proof.
  intros Hk Hn. destruct n as [|n]; [lia|].
  assert (long_header (S n) r = long_line n ++ letter :: nl ++ r) as ->.
  { unfold long_header, long_line. by rewrite replicate_S_end, <-!app_assoc. }
  exists (drop k (long_line n)). apply drop_app_le. rewrite long_line_length. lia.
Qed.

Lemma header_of n r :
  trim (drop 0 (take (n + 3) (long_header n r))) = long_line n.
Proof.
  rewrite drop_0, take_long_header by lia. replace (n + 3 - 3)%nat with n by lia.
  apply trim_by_id. by apply long_line_none.
Qed.

Lemma split_block_long maxLen n r (e : nat) :
  5 <= maxLen <= Z.of_nat n → (e <= n)%nat →
  ∃ chunk r', split_block maxLen (long_header n r) (Z.of_nat e) 0
              = Next chunk (long_header n r').
Proof.
  intros Hm He. pose proof (long_header_zlen n r) as Hl.
  assert (0 <= zlen r) as Hr0 by (unfold zlen; lia).
  assert (index_l nl (long_header n r) = Some (n + 3)%nat) as Hidx.
  { unfold long_header, nl. cbn [app]. rewrite <-long_line_length. apply index_char.
    by intros [?|?]%long_line_chars. }
  unfold split_block. destruct (from_Some 0 (long_header n r) ltac:(lia)) as (t & -> & _ & ->).
  cbn [mbind option_bind]. rewrite drop_0, Hidx.
  destruct (upto_Some (Z.of_nat (n + 3) + 0) (long_header n r) ltac:(lia)) as (h & -> & _ & ->).
  cbn [fmap option_fmap option_map mbind option_bind].
  replace (Z.to_nat (Z.of_nat (n + 3) + 0)) with (n + 3)%nat by lia.
  change (Z.to_nat 0) with 0%nat. rewrite header_of.
  rewrite (proj2 (Z.ltb_ge _ _)) by lia.
  destruct (upto_Some 0 (long_header n r) ltac:(lia)) as (b & -> & _ & ->).
  change (take (Z.to_nat 0) (long_header n r)) with (@nil ascii). cbn -[split_inside Z.sub long_header long_line].
  unfold split_inside.
  destruct (upto_Some (maxLen - 5) (long_header n r) ltac:(lia)) as (x & -> & _ & _).
  destruct (from_Some (maxLen - 5) (long_header n r) ltac:(lia)) as (y & -> & _ & ->).
  destruct (long_header_tail (Z.to_nat (maxLen - 5)) n r ltac:(lia) ltac:(lia)) as [z ->].
  assert (long_line n ++ nl ++ z ++ letter :: nl ++ r
          = backtick :: ([backtick; backtick] ++ replicate n letter ++ nl ++ z) ++ letter :: nl ++ r)
    as Heq by (unfold long_line, fence; by rewrite <-!app_assoc).
  rewrite Heq. destruct (trim_keep backtick
    ([backtick; backtick] ++ replicate n letter ++ nl ++ z) letter (nl ++ r) eq_refl eq_refl) as [t' ->].
  eexists _, (z ++ letter :: t'). f_equal. unfold long_header, long_line, fence.
  by rewrite <-!app_assoc.
Qed.

Lemma split_step_long maxLen n r :
  5 <= maxLen <= Z.of_nat n →
  ∃ chunk r', split_step maxLen (long_header n r) = Next chunk (long_header n r').
Proof.
  intros Hm. pose proof (long_header_zlen n r) as Hl. pose proof (buffer_range maxLen ltac:(lia)) as He.
  assert (0 <= zlen r) as Hr0 by (unfold zlen; lia).
  assert (3 <= effective_limit maxLen) as He3.
  { unfold effective_limit, code_block_buffer. rewrite (Z.quot_div_nonneg maxLen 2) by lia.
    pose proof (Z.div_mod maxLen 2 ltac:(lia)). pose proof (Z.mod_pos_bound maxLen 2 ltac:(lia)). lia. }
  set (e := Z.to_nat (effective_limit maxLen)).
  assert (effective_limit maxLen = Z.of_nat e) as Hee by (unfold e; lia).
  unfold split_step. rewrite (proj2 (Z.leb_gt _ _)) by lia.
  destruct (upto_Some (effective_limit maxLen) (long_header n r) ltac:(lia)) as (lim & Hup & _ & ->).
  rewrite Hup. fold e in Hup |- *. rewrite take_long_header in * by lia.
  assert (natural_end (long_line (e - 3)) (effective_limit maxLen) = effective_limit maxLen) as ->.
  { unfold natural_end, findLastNewline, findLastSpace.
    rewrite !find_last_none by (apply long_line_none; reflexivity). done. }
  rewrite Hup. assert (findLastUnclosedCodeBlock (long_line (e - 3)) = 0) as ->.
  { unfold findLastUnclosedCodeBlock, long_line, fence. cbn [app]. rewrite unclosed_go_cons3.
    simpl is_fence. apply unclosed_letters. }
  rewrite (proj2 (Z.ltb_lt _ _)) by lia. cbn [andb Z.leb]. simpl (0 <=? 0).
  assert (((0 <? findNextClosingCodeBlock (long_header n r) (effective_limit maxLen))
           && (findNextClosingCodeBlock (long_header n r) (effective_limit maxLen) <=? maxLen)) = false) as Hc.
  { rewrite Hee. destruct (closing_long_header n r e ltac:(lia)) as [->|[?|?]]; [done| |lia].
    apply andb_false_iff. right. apply Z.leb_gt. lia. }
  cbv zeta. rewrite Hc.
  pose proof (split_block_long maxLen n r e ltac:(lia) ltac:(lia)) as H. by rewrite <-Hee in H.
Qed.

(** The splitter does not always end.  On a message that starts with a code
    fence whose first line is at least as long as the limit and is followed by
    another line, every round puts the whole first line back in front of what is
    left, so the loop never finishes, whatever the fuel. *)
Lemma split_message_diverges (fuel : nat) (n : nat) (rest : string) (maxLen : Z)
    (Hm : 5 <= maxLen <= Z.of_nat n) :
  SplitMessage fuel ("```" +:+ implode (replicate n letter) +:+ String newline_char rest) maxLen
  = OutOfFuel.
Proof.
  unfold SplitMessage.
  assert (chars ("```" +:+ implode (replicate n letter) +:+ String newline_char rest)
          = long_header n (chars rest)) as ->.
  { rewrite !chars_app, chars_implode. unfold long_header, long_line. by rewrite <-app_assoc. }
  generalize (chars rest) as r. generalize (@nil text) as acc.
  induction fuel as [|k IH]; intros acc r; [done|].
  change (split_loop (S k) maxLen acc (long_header n r)) with
    (match split_step maxLen (long_header n r) with
     | Final chunk => Chunks (acc ++ [chunk])
     | Next chunk content => split_loop k maxLen (acc ++ [chunk]) content
     | Panic => Panicked
     end).
  destruct (split_step_long maxLen n r Hm) as (chunk & r' & ->). apply IH.
Qed.

Lemma split_message_diverges_witness :
  SplitMessage 1000 ("```" +:+ implode (replicate 10 letter) +:+ String newline_char "x") 10 = OutOfFuel.
Proof. apply (split_message_diverges 1000 10 "x" 10). lia. Defined.
