(* ===== verification/Channels.v ===== *)
(** * Channels (pkg/channels/base.go, pkg/channels/manager.go)

    What all channels share: the allowlist in front of the bus, and the manager
    that dispatches outbound messages.  A channel is its operations on a state
    [W] of its own platform; the platforms have files of their own. *)
From stdpp Require Import base gmap strings list.
From Stdlib Require Import Ascii ZArith Lia.
From S2P Require Import Prelude GoStrings Bus StateManager.

(** ** The base channel *)
Record BaseChannel := mk_BaseChannel {
  bc_name : string;
  bc_allowList : list string;
  bc_running : bool;
}.

Definition NewBaseChannel (name : string) (allowList : list string) : BaseChannel :=
  mk_BaseChannel name allowList false.

Definition setRunning (running : bool) (c : BaseChannel) : BaseChannel :=
  mk_BaseChannel (bc_name c) (bc_allowList c) running.

Definition bar : ascii := "|".

(** Splitting at the first bar, unless it comes first. *)
Definition split_bar (s : string) : string * string :=
  match cut s bar with
  | Some (a, b) => if bool_decide (a = "") then (s, "") else (a, b)
  | None => (s, "")
  end.

(** One entry of the allowlist against a sender. *)
Definition entry_admits (senderID allowed : string) : bool :=
  let '(idPart, userPart) := split_bar senderID in
  let trimmed := trim_prefix allowed "@" in
  let '(allowedID, allowedUser) := split_bar trimmed in
  bool_decide (senderID = allowed)
  || bool_decide (idPart = allowed)
  || bool_decide (senderID = trimmed)
  || bool_decide (idPart = trimmed)
  || bool_decide (idPart = allowedID)
  || (negb (bool_decide (allowedUser = "")) && bool_decide (senderID = allowedUser))
  || (negb (bool_decide (userPart = ""))
      && (bool_decide (userPart = allowed) || bool_decide (userPart = trimmed)
          || bool_decide (userPart = allowedUser))).

Definition IsAllowed (c : BaseChannel) (senderID : string) : bool :=
  if bool_decide (bc_allowList c = []) then true
  else existsb (entry_admits senderID) (bc_allowList c).

(** The message that [HandleMessage] publishes, if any. *)
Definition HandleMessage (c : BaseChannel) (senderID chatID content : string)
    (media : list string) (metadata : gmap string string) : option InboundMessage :=
  if negb (IsAllowed c senderID) then None
  else Some (mk_InboundMessage (bc_name c) senderID chatID content media "" metadata).

(** ** Who is admitted *)

(** The names a sender goes by: itself, and the two sides of "id|username". *)
Definition sender_names (senderID : string) : list string :=
  let '(idPart, userPart) := split_bar senderID in
  [senderID; idPart] ++ (if bool_decide (userPart = "") then [] else [userPart]).

(** A plain entry: no bar and no at-sign in front. *)
Definition plain (p : string) : Prop := p ≠ "" ∧ bar ∉ chars p ∧ has_prefix p "@" = false.

Lemma split_bar_free s : bar ∉ chars s → split_bar s = (s, "").
Proof.
  intros H. unfold split_bar. destruct (cut s bar) as [[a b]|] eqn:E; [|done].
  apply cut_Some in E as [-> _]. exfalso. apply H. rewrite chars_app. set_solver.
Qed.

Lemma trim_at p : trim_prefix ("@" +:+ p) "@" = p.
Proof.
  unfold trim_prefix, has_prefix. simpl. unfold drop. apply implode_chars.
Qed.

Lemma trim_plain p : has_prefix p "@" = false → trim_prefix p "@" = p.
Proof. intros H. unfold trim_prefix. by rewrite H. Qed.

Lemma entry_plain p e s :
  plain p → e = p ∨ e = "@" +:+ p → bar ∉ chars e →
  e ∉ sender_names s ∨ e = p →
  entry_admits s e = true ↔ p ∈ sender_names s.
Proof.
  intros (Hp & Hbar & Hat) He Hb Hn.
  assert (trim_prefix e "@" = p) as Ht by (destruct He as [->| ->]; [by apply trim_plain|apply trim_at]).
  unfold entry_admits, sender_names in *. rewrite Ht, (split_bar_free p) by done.
  destruct (split_bar s) as [i u].
  rewrite !orb_true_iff, !andb_true_iff, !orb_true_iff, !negb_true_iff,
    !bool_decide_eq_true, !bool_decide_eq_false.
  destruct (bool_decide_reflect (u = "")) as [Hu|Hu]; set_unfold; naive_solver.
Qed.

(** What the allowlist admits.  With an empty list everyone is admitted;
    otherwise an entry without a bar, with or without a leading "@", admits
    exactly the senders that go by that name, as their whole identifier, as
    their id or as their username; and a message from anyone else is dropped
    before it reaches the bus.  An entry meant as an id thus also admits every
    sender whose username is that id. *)
Lemma allowlist_admits (c : BaseChannel) (entries : list string) (senderID : string)
    (Hc : bc_allowList c = entries)
    (Hplain : Forall (λ e, ∃ p, plain p ∧ (e = p ∨ e = "@" +:+ p)) entries)
    (Hat : Forall (λ n, has_prefix n "@" = false) (sender_names senderID)) :
  (IsAllowed c senderID = true ↔
     entries = [] ∨ ∃ e, e ∈ entries ∧ trim_prefix e "@" ∈ sender_names senderID)
  ∧ (∀ chatID content media metadata,
       HandleMessage c senderID chatID content media metadata = None ↔ IsAllowed c senderID = false).
Proof.
  split.
  2:{ intros. unfold HandleMessage. by destruct (IsAllowed c senderID). }
  unfold IsAllowed. rewrite Hc. case_bool_decide as He; [naive_solver|].
  assert (∀ e, e ∈ entries →
    entry_admits senderID e = true ↔ trim_prefix e "@" ∈ sender_names senderID) as Hentry.
  { intros e Hin. rewrite Forall_forall in Hplain. destruct (Hplain e Hin) as (p & Hp & Hep).
    assert (trim_prefix e "@" = p) as ->.
    { destruct Hp as (_ & _ & ?). destruct Hep as [->| ->]; [by apply trim_plain|apply trim_at]. }
    apply (entry_plain p e senderID); [done|done| |].
    - destruct Hp as (_ & Hb & _). destruct Hep as [->| ->]; [done|].
      rewrite chars_app. simpl. set_solver.
    - destruct Hep as [->| ->]; [by right|]. left. intros Hin'.
      rewrite Forall_forall in Hat. by specialize (Hat _ Hin'). }
  rewrite existsb_exists. split.
  - intros (e & Hin & Ha). rewrite <-list_elem_of_In in Hin. right. exists e.
    split; [done|]. by apply Hentry.
  - intros [?|(e & Hin & Ha)]; [done|]. exists e. rewrite <-list_elem_of_In.
    split; [done|]. by apply Hentry.
Qed.

(** The entry "123456" admits a stranger with that username. *)
Lemma allowlist_admits_witness :
  IsAllowed (mk_BaseChannel "telegram" ["123456"; "@ann"] true) "999|123456" = true.
Proof.
  apply (allowlist_admits (mk_BaseChannel "telegram" ["123456"; "@ann"] true) ["123456"; "@ann"]).
  - reflexivity.
  - repeat constructor; [exists "123456"; split; [|by left]|exists "ann"; split; [|by right]];
      refine (bool_decide_unpack (_ ∧ _ ∧ _) _); vm_compute; exact I.
  - refine (bool_decide_unpack _ _). vm_compute. exact I.
  - right. exists "123456". split; refine (bool_decide_unpack _ _); vm_compute; exact I.
Defined.

(** ** The manager *)
Section manager.
Context {W : Type}.

(** [Channel] as the manager uses it: [None] of a result is success. *)
Record Channel := mk_Channel {
  ch_Start : W → option string * W;
  ch_Stop : W → option string * W;
  ch_Send : OutboundMessage → W → option string * W;
  ch_IsRunning : W → bool;
}.

Record ChannelManager := mk_ChannelManager {
  channels : gmap string Channel;
  dispatching : bool;                 (* dispatchTask is not nil *)
}.

Definition RegisterChannel (name : string) (c : Channel) (m : ChannelManager) : ChannelManager :=
  mk_ChannelManager (<[name := c]> (channels m)) (dispatching m).
Definition UnregisterChannel (name : string) (m : ChannelManager) : ChannelManager :=
  mk_ChannelManager (delete name (channels m)) (dispatching m).
Definition GetChannel (name : string) (m : ChannelManager) : option Channel := channels m !! name.
Definition GetEnabledChannels (m : ChannelManager) : gset string := dom (channels m).
Definition GetStatus (m : ChannelManager) (w : W) : gmap string (bool * bool) :=
  (λ c, (true, ch_IsRunning c w)) <$> channels m.

(** The map is iterated in some [order] of its channels; failures are only logged. *)
Definition StartAll (order : list Channel) (m : ChannelManager) (w : W) : ChannelManager * W :=
  if bool_decide (size (channels m) = 0) then (m, w)
  else (mk_ChannelManager (channels m) true, foldl (λ w c, (ch_Start c w).2) w order).
Definition StopAll (order : list Channel) (m : ChannelManager) (w : W) : ChannelManager * W :=
  (mk_ChannelManager (channels m) false, foldl (λ w c, (ch_Stop c w).2) w order).

(** The channel a message is sent on by the dispatcher. *)
Definition target (m : ChannelManager) (msg : OutboundMessage) : option Channel :=
  if IsInternalChannel (om_Channel msg) then None else channels m !! om_Channel msg.

(** What [dispatchOutbound] does with one message from the bus. *)
Definition dispatch_one (m : ChannelManager) (msg : OutboundMessage) (w : W) : W :=
  match target m msg with
  | None => w
  | Some c => (ch_Send c msg w).2
  end.

(** The dispatcher's loop over the messages it receives before it is canceled. *)
Definition dispatchOutbound (m : ChannelManager) (received : list OutboundMessage) (w : W) : W :=
  foldl (λ w msg, dispatch_one m msg w) w received.

Definition SendToChannel (m : ChannelManager) (channelName chatID content : string) (w : W) :
    option string * W :=
  match channels m !! channelName with
  | None => (Some ("channel " +:+ channelName +:+ " not found"), w)
  | Some c => ch_Send c (mk_OutboundMessage channelName chatID content) w
  end.
End manager.
Arguments Channel : clear implicits.
Arguments ChannelManager : clear implicits.

(** When every channel appends what it is sent to a log under its name, the
    dispatcher delivers each message for a registered external channel to that
    channel, in the order received, and nothing else. *)
Definition logging_channel (name : string) : Channel (list (string * OutboundMessage)) :=
  mk_Channel (λ w, (None, w)) (λ w, (None, w)) (λ msg w, (None, w ++ [(name, msg)])) (λ _, true).

Definition deliverable (m : ChannelManager (list (string * OutboundMessage))) (msg : OutboundMessage) : Prop :=
  IsInternalChannel (om_Channel msg) = false ∧ is_Some (channels m !! om_Channel msg).
#[export] Instance deliverable_dec m msg : Decision (deliverable m msg).
Proof. unfold deliverable. apply _. Defined.

Lemma dispatch_delivers (m : ChannelManager (list (string * OutboundMessage))) received w :
  (∀ name c, channels m !! name = Some c → c = logging_channel name) →
  dispatchOutbound m received w
  = w ++ ((λ msg, (om_Channel msg, msg)) <$> filter (deliverable m) received).
Proof.
  intros Hm. revert w. induction received as [|msg l IH]; intros w; simpl; [by rewrite app_nil_r|].
  rewrite IH. unfold dispatch_one, target.
  destruct (decide (deliverable m msg)) as [[Hi [c Hc]]|Hn].
  - rewrite Hi, Hc, (Hm _ _ Hc). simpl.
    rewrite filter_cons_True by (split; [done|by eexists]). csimpl. by rewrite <-app_assoc.
  - rewrite filter_cons_False by done. destruct (IsInternalChannel (om_Channel msg)) eqn:Hi; [done|].
    destruct (channels m !! om_Channel msg) eqn:Hc; [|done].
    exfalso. apply Hn. split; [done|]. by eexists.
Qed.
