(* ===== verification/ToolBase.v ===== *)
(** * Tools and their registry (pkg/tools/base.go, result.go, registry.go)

    A tool is its name, its schema and its operations on the state [W] its tools
    share (a Go tool is an object the registry points to: running it changes
    that object and what it reaches).  [C] is the type of the callbacks given to
    asynchronous tools. *)
From stdpp Require Import base gmap strings list sorting.
From Stdlib Require Import Ascii ZArith Lia.
From S2P Require Import Prelude GoStrings ProviderTypes.

(** ** Tool results *)
Record ToolResult := mk_ToolResult {
  ForLLM : string;
  ForUser : string;
  Silent : bool;
  IsError : bool;
  Async : bool;
  tr_Err : option string;      (* the text of the underlying error *)
}.

Definition NewToolResult (forLLM : string) : ToolResult :=
  mk_ToolResult forLLM "" false false false None.
Definition SilentResult (forLLM : string) : ToolResult :=
  mk_ToolResult forLLM "" true false false None.
Definition AsyncResult (forLLM : string) : ToolResult :=
  mk_ToolResult forLLM "" false false true None.
Definition ErrorResult (message : string) : ToolResult :=
  mk_ToolResult message "" false true false None.
Definition UserResult (content : string) : ToolResult :=
  mk_ToolResult content content false false false None.
Definition WithError (tr : ToolResult) (err : string) : ToolResult :=
  mk_ToolResult (ForLLM tr) (ForUser tr) (Silent tr) (IsError tr) (Async tr) (Some err).

(** ** Tools *)
Record Tool (W C : Type) := mk_Tool {
  t_Name : string;
  t_Description : string;
  t_Parameters : gmap string json;
  t_Execute : gmap string json → W → ToolResult * W;
  t_SetContext : option (string → string → W → W);   (* [ContextualTool] *)
  t_SetCallback : option (C → W → W);                (* [AsyncTool] *)
}.
Arguments mk_Tool {W C}.
Arguments t_Name {W C}.
Arguments t_Description {W C}.
Arguments t_Parameters {W C}.
Arguments t_Execute {W C}.
Arguments t_SetContext {W C}.
Arguments t_SetCallback {W C}.

(** The schema of string parameters: their names with descriptions, and those
    required. *)
Definition string_parameters (props : list (string * string)) (required : list string) :
    gmap string json :=
  {[ "type" := JStr "object";
     "properties" := JObj ((λ '(n, d), (n, JObj [("type", JStr "string"); ("description", JStr d)])) <$> props);
     "required" := JArr (JStr <$> required) ]}.

(** The texts are ordered as [sort.Strings] orders them, by bytes. *)
Definition str_le (a b : string) : Prop := String.leb a b = true.
#[export] Instance str_le_dec : RelDecision str_le.
Proof. intros a b. unfold str_le. apply _. Defined.

(** [fmt.Sprintf("%q", s)], for a text in ASCII or in printable UTF-8. *)
Definition hex_digit (n : nat) : ascii := default "0"%char (chars "0123456789abcdef" !! n).
Definition quote_char (c : ascii) : list ascii :=
  let b := byte c in
  let bs := ascii_of_nat 92 in
  if (b =? 34) || (b =? 92) then [bs; c]
  else match list_find (λ x, x.1 = b)
               [(7, "a"%char); (8, "b"%char); (9, "t"%char); (10, "n"%char); (11, "v"%char);
                (12, "f"%char); (13, "r"%char)] with
       | Some (_, (_, e)) => [bs; e]
       | None => if (b <? 32) || (b =? 127)
                 then [bs; "x"%char; hex_digit (b / 16); hex_digit (b mod 16)] else [c]
       end.
Definition quoted (s : string) : string :=
  let q := ascii_of_nat 34 in
  String q (implode (mjoin (quote_char <$> chars s)) +:+ String q "").

Section registry.
Context {W C : Type}.
Implicit Types (w : W).

Definition ToolRegistry : Type := gmap string (Tool W C).

Definition NewToolRegistry : ToolRegistry := ∅.

Definition Register (r : ToolRegistry) (tool : Tool W C) : ToolRegistry := <[t_Name tool := tool]> r.

Definition Get (r : ToolRegistry) (name : string) : option (Tool W C) := r !! name.

Definition set_context (tool : Tool W C) (channel chatID : string) w : W :=
  match t_SetContext tool with
  | Some f => if negb (bool_decide (channel = "")) && negb (bool_decide (chatID = ""))
              then f channel chatID w else w
  | None => w
  end.

Definition set_callback (tool : Tool W C) (asyncCallback : option C) w : W :=
  match t_SetCallback tool, asyncCallback with
  | Some f, Some cb => f cb w
  | _, _ => w
  end.

Definition ExecuteWithContext (r : ToolRegistry) (name : string) (args : gmap string json)
    (channel chatID : string) (asyncCallback : option C) w : ToolResult * W :=
  match Get r name with
  | None => (WithError (ErrorResult ("tool " +:+ quoted name +:+ " not found")) "tool not found", w)
  | Some tool =>
      let w := set_context tool channel chatID w in
      let w := set_callback tool asyncCallback w in
      t_Execute tool args w
  end.

Definition Execute (r : ToolRegistry) (name : string) (args : gmap string json) w :
    ToolResult * W :=
  ExecuteWithContext r name args "" "" None w.

Definition sortedToolNames (r : ToolRegistry) : list string :=
  merge_sort str_le (map_to_list r).*1.

Definition ToolToSchema (tool : Tool W C) : gmap string json :=
  {[ "type" := JStr "function";
     "function" := JObj [("name", JStr (t_Name tool));
                         ("description", JStr (t_Description tool));
                         ("parameters", JObj (map_to_list (t_Parameters tool)))] ]}.

Definition GetDefinitions (r : ToolRegistry) : list (gmap string json) :=
  omap (λ name, ToolToSchema <$> r !! name) (sortedToolNames r).

Definition obj_get (kvs : list (string * json)) (k : string) : option json :=
  snd <$> find_first (λ kv, bool_decide (kv.1 = k)) kvs.
Definition obj_string (kvs : list (string * json)) (k : string) : string :=
  match obj_get kvs k with Some (JStr s) => s | _ => "" end.
Definition obj_map (kvs : list (string * json)) (k : string) : option (gmap string json) :=
  match obj_get kvs k with Some (JObj l) => Some (list_to_map l) | _ => None end.

Definition ToProviderDefs (r : ToolRegistry) : list ToolDefinition :=
  omap (λ name,
    match r !! name with
    | None => None
    | Some tool =>
        match ToolToSchema tool !! "function" with
        | Some (JObj fn) => Some (mk_ToolDefinition "function" (obj_string fn "name")
                                    (obj_string fn "description") (obj_map fn "parameters"))
        | _ => None
        end
    end) (sortedToolNames r).

Definition List (r : ToolRegistry) : list string := sortedToolNames r.
Definition Count (r : ToolRegistry) : nat := size r.

Definition GetSummaries (r : ToolRegistry) : list string :=
  omap (λ name, (λ tool, "- `" +:+ t_Name tool +:+ "` - " +:+ t_Description tool) <$> r !! name)
    (sortedToolNames r).

(** ** Properties *)

(** A registry built by registration holds every tool under its own name. *)
Definition registry_ok (r : ToolRegistry) : Prop :=
  map_Forall (λ name tool, t_Name tool = name) r.

Lemma NewToolRegistry_ok : registry_ok NewToolRegistry.
Proof. apply map_Forall_empty. Qed.

Lemma Register_ok r tool : registry_ok r → registry_ok (Register r tool).
Proof. intros H. by apply map_Forall_insert_2. Qed.

Lemma elem_of_sortedToolNames r name : name ∈ sortedToolNames r ↔ is_Some (r !! name).
Proof.
  unfold sortedToolNames. rewrite merge_sort_Permutation.
  split.
  - intros ([n t] & -> & Ht%elem_of_map_to_list)%list_elem_of_fmap. by eexists.
  - intros [t Ht]. apply list_elem_of_fmap. exists (name, t). split; [done|].
    by apply elem_of_map_to_list.
Qed.

Lemma sortedToolNames_NoDup r : NoDup (sortedToolNames r).
Proof.
  unfold sortedToolNames. rewrite merge_sort_Permutation. apply NoDup_fst_map_to_list.
Qed.

Lemma ToProviderDefs_eq r :
  ToProviderDefs r =
  omap (λ name, (λ tool, mk_ToolDefinition "function" (t_Name tool) (t_Description tool)
                           (Some (list_to_map (map_to_list (t_Parameters tool))))) <$> r !! name)
    (sortedToolNames r).
Proof.
  unfold ToProviderDefs. induction (sortedToolNames r) as [|n l IH]; [done|]. csimpl.
  by destruct (r !! n); csimpl; rewrite IH.
Qed.

Lemma ToProviderDefs_names r :
  registry_ok r → td_Name <$> ToProviderDefs r = sortedToolNames r.
Proof.
  intros Hr. rewrite ToProviderDefs_eq.
  assert (∀ n, n ∈ sortedToolNames r → is_Some (r !! n)) as H by (intros; by apply elem_of_sortedToolNames).
  induction (sortedToolNames r) as [|n l IH]; [done|]. csimpl.
  destruct (H n ltac:(set_solver)) as [t Ht]. rewrite Ht. csimpl.
  rewrite IH by set_solver. f_equal. by apply (Hr n t).
Qed.
End registry.
Arguments ToolRegistry : clear implicits.
