(* ===== verification/Hardware.v ===== *)
(** * Tools for buses of hardware (pkg/tools/i2c.go, i2c_linux.go, spi.go, spi_linux.go)

    A use of a tool is a program of requests to the operating system, which may answer
    each as it likes; what is ever asked is proved of the program. *)
From stdpp Require Import base gmap strings list pretty.
From Stdlib Require Import Ascii ZArith Lia.
From S2P Require Import Prelude GoStrings ProviderTypes Encoding Regex RegexReplace ToolBase.
#[local] Open Scope Z_scope.

(** ** Requests *)

(** Opening a device; the functions of an adapter; choosing an address and probing it,
    by a quick write or by reading a byte; bytes written and read; the settings of an SPI
    device, and a transfer. *)
Inductive hw_request :=
| Open (path : string)
| Funcs
| Slave (addr : Z)
| Probe (addr : Z) (quick : bool)
| WriteBytes (data : list Z)
| ReadBytes (n : Z)
| SpiMode (m : Z)
| SpiBits (b : Z)
| SpiSpeed (s : Z)
| SpiMessage (tx : list Z) (speed bits : Z).

(** An error, with whether the device is busy, or numbers: the functions, the bytes
    that were read, the number that was written. *)
Abbreviation hw_reply := (result (bool * string) (list Z)) (only parsing).

Inductive prog :=
| Done (r : ToolResult)
| Call (q : hw_request) (k : hw_reply → prog).

(** The uses of a state [W] of the hardware: the result, the requests and the state. *)
Fixpoint run_prog {W} (ask : hw_request → W → hw_reply * W) (p : prog) (w : W) : ToolResult * list hw_request * W :=
  match p with
  | Done r => (r, [], w)
  | Call q k =>
      let '(reply, w) := ask q w in
      let '(r, log, w) := run_prog ask (k reply) w in
      (r, q :: log, w)
  end.

#[export] Instance hw_request_eq_dec : EqDecision hw_request.
Proof. solve_decision. Defined.

Fixpoint requests_all (P : hw_request → Prop) (p : prog) : Prop :=
  match p with
  | Done _ => True
  | Call q k => P q ∧ ∀ reply, requests_all P (k reply)
  end.

Lemma run_requests {W} (ask : hw_request → W → hw_reply * W) P p w :
  requests_all P p → Forall P (run_prog ask p w).1.2.
Proof.
  revert w. induction p as [r|q k IH]; intros w; cbn; [constructor|]. intros [Hq Hk].
  destruct (ask q w) as [reply w1]. specialize (IH reply w1 (Hk reply)).
  destruct (run_prog ask (k reply) w1) as [[r log] w2]. by constructor.
Qed.

(** Bytes are written at most [n] times. *)
Definition is_write (q : hw_request) : bool := match q with WriteBytes _ => true | _ => false end.
Fixpoint writes_within (n : nat) (p : prog) : Prop :=
  match p with
  | Done _ => True
  | Call q k =>
      if is_write q then match n with O => False | S m => ∀ reply, writes_within m (k reply) end
      else ∀ reply, writes_within n (k reply)
  end.

Lemma run_writes {W} (ask : hw_request → W → hw_reply * W) n p w :
  writes_within n p → (length (filter (λ q, is_write q = true) (run_prog ask p w).1.2) <= n)%nat.
Proof.
  revert n w. induction p as [r|q k IH]; intros n w; cbn; [intros; apply Nat.le_0_l|].
  destruct (ask q w) as [reply w1]. specialize (IH reply). destruct (is_write q) eqn:Eq; intros H.
  - destruct n as [|n]; [done|]. specialize (IH n w1 (H reply)).
    destruct (run_prog ask (k reply) w1) as [[r log] w2]. cbn [fst snd] in *. rewrite filter_cons_True by done. cbn [length]. lia.
  - specialize (IH n w1 (H reply)).
    destruct (run_prog ask (k reply) w1) as [[r log] w2]. cbn [fst snd] in *. rewrite filter_cons_False; [done|congruence].
Qed.

(** ** Shared pieces *)
Definition hex2 (n : Z) : string :=
  "0x" +:+ String (hex_char (Z.to_nat (n / 16))) (String (hex_char (Z.to_nat (n mod 16))) "").

Definition quoted (s : string) : string := String quote s +:+ String quote "".
Definition lines (l : list string) : string := join (String newline "") l.

Definition arg_number (args : gmap string json) (k : string) : option Z :=
  match args !! k with Some (JNum n) => Some n | _ => None end.
Definition confirmed (args : gmap string json) : bool :=
  match args !! "confirm" with Some (JBool b) => b | _ => false end.

(** Bytes out of a list of values, from the [i]-th on. *)
Fixpoint byte_values (i : nat) (l : list json) : string + list Z :=
  match l with
  | [] => inr []
  | JNum b :: l =>
      if (b <? 0) || (255 <? b)
      then inl ("data[" +:+ pretty (Z.of_nat i) +:+ "] = " +:+ pretty b +:+ " is out of byte range (0-255)")
      else match byte_values (S i) l with inl e => inl e | inr bs => inr (b :: bs) end
  | _ :: _ => inl ("data[" +:+ pretty (Z.of_nat i) +:+ "] is not a valid byte value")
  end.

Definition is_byte (b : Z) : Prop := 0 <= b <= 255.

Lemma byte_values_ok i l bs : byte_values i l = inr bs → length bs = length l ∧ Forall is_byte bs.
Proof.
  revert i bs. induction l as [|v l IH]; intros i bs; cbn; [by intros [= <-]|].
  destruct v as [| |b| | |]; try done. destruct ((b <? 0) || (255 <? b)) eqn:Eb; [done|].
  destruct (byte_values (S i) l) as [|bs'] eqn:E; [done|]. intros [= <-]. destruct (IH _ _ E) as [Hl Hf].
  apply orb_false_iff in Eb as [?%Z.ltb_ge ?%Z.ltb_ge]. split; [cbn; lia|by constructor].
Qed.

Section Tools.
Context (render : json → string).

(** The text of received bytes. *)
Definition hex_list (l : list Z) : json := JArr ((λ b, JStr (hex2 b)) <$> l).
Definition num_list (l : list Z) : json := JArr (JNum <$> l).

(** ** I2C *)
Definition bus_pattern : re := seq_of [Bol; plus digit; Eol].
Definition isValidBusID (id : string) : bool := MatchString bus_pattern id.

Definition parseI2CBus (args : gmap string json) : string + string :=
  match arg_string args "bus" with
  | None => inl ("bus is required (e.g. " +:+ quoted "1" +:+ " for /dev/i2c-1)")
  | Some bus =>
      if bool_decide (bus = "") then inl ("bus is required (e.g. " +:+ quoted "1" +:+ " for /dev/i2c-1)")
      else if isValidBusID bus then inr bus
      else inl ("invalid bus identifier: must be a number (e.g. " +:+ quoted "1" +:+ ")")
  end.

Definition parseI2CAddress (args : gmap string json) : string + Z :=
  match arg_number args "address" with
  | None => inl "address is required (e.g. 0x38 for AHT20)"
  | Some addr =>
      if (addr <? 0x03) || (0x77 <? addr) then inl "address must be in valid 7-bit range (0x03-0x77)" else inr addr
  end.

(** [filepath.Glob] gives an error, or the paths that match. *)
Definition i2c_detect (matches : result string (list string)) : ToolResult :=
  match matches with
  | Err e => ErrorResult ("failed to scan for I2C buses: " +:+ e)
  | Ok [] => SilentResult (lines ["No I2C buses found. You may need to:"; "1. Load the i2c-dev module: modprobe i2c-dev";
      "2. Check that I2C is enabled in device tree"; "3. Configure pinmux for your board (see hardware skill)"])
  | Ok paths =>
      let buses := paths ≫= λ m,
        match find_groups [lit "/dev/i2c-"; plus digit] (chars m) with
        | (_ :: n :: _) :: _ => [JObj [("path", JStr m); ("bus", JStr (implode n))]]
        | _ => []
        end in
      SilentResult ("Found " +:+ pretty (Z.of_nat (length buses)) +:+ " I2C bus(es):" +:+ String newline (render (JArr buses)))
  end.

(** Ranges of memories, where a quick write may do harm. *)
Definition eeprom (addr : Z) : bool := ((0x30 <=? addr) && (addr <=? 0x37)) || ((0x50 <=? addr) && (addr <=? 0x5F)).
Definition smbusProbe (addr : Z) (hasQuick : bool) (k : bool → prog) : prog :=
  Call (Probe addr (negb (eeprom addr) && hasQuick)) (λ r, k (is_ok r)).

Definition device_entry (addr : Z) (busy : bool) : json :=
  JObj (("address", JStr (hex2 addr)) :: if busy then [("status", JStr "busy (in use by kernel driver)")] else []).

(** The addresses that are probed, in order; what was found is passed on. *)
Fixpoint scan_addrs (hasQuick : bool) (addrs : list Z) (found : list json) (k : list json → prog) : prog :=
  match addrs with
  | [] => k found
  | addr :: addrs =>
      Call (Slave addr) (λ r,
        match r with
        | Err (busy, _) =>
            scan_addrs hasQuick addrs (if busy : bool then found ++ [device_entry addr true] else found) k
        | Ok _ =>
            smbusProbe addr hasQuick (λ there,
              scan_addrs hasQuick addrs (if there : bool then found ++ [device_entry addr false] else found) k)
        end)
  end.

Definition scan_range : list Z := (λ n, 0x08 + Z.of_nat n) <$> seq 0 112.

Definition i2c_scan (args : gmap string json) : prog :=
  match parseI2CBus args with
  | inl e => Done (ErrorResult e)
  | inr bus =>
      let devPath := "/dev/i2c-" +:+ bus in
      Call (Open devPath) (λ r,
        match r with
        | Err (_, e) => Done (ErrorResult ("failed to open " +:+ devPath +:+ ": " +:+ e +:+ " (check permissions and i2c-dev module)"))
        | Ok _ =>
            Call Funcs (λ r,
              match r with
              | Err (_, e) => Done (ErrorResult ("failed to query I2C adapter capabilities on " +:+ devPath +:+ ": " +:+ e))
              | Ok funcs =>
                  let funcs := default 0 (head funcs) in
                  let hasQuick := negb (Z.land funcs 0x00010000 =? 0) in
                  let hasReadByte := negb (Z.land funcs 0x00020000 =? 0) in
                  if negb hasQuick && negb hasReadByte
                  then Done (ErrorResult ("I2C adapter " +:+ devPath +:+
                         " supports neither SMBus Quick nor Read Byte — cannot probe safely"))
                  else
                    scan_addrs hasQuick scan_range [] (λ found,
                      if bool_decide (found = [])
                      then Done (SilentResult ("No devices found on " +:+ devPath +:+ ". Check wiring and pull-up resistors."))
                      else Done (SilentResult ("Scan of " +:+ devPath +:+ ":" +:+ String newline
                             (render (JObj [("bus", JStr devPath); ("count", JNum (Z.of_nat (length found))); ("devices", JArr found)])))))
              end)
        end)
  end.

Definition i2c_read (args : gmap string json) : prog :=
  match parseI2CBus args, parseI2CAddress args with
  | inl e, _ => Done (ErrorResult e)
  | inr _, inl e => Done (ErrorResult e)
  | inr bus, inr addr =>
      let n := default 1 (arg_number args "length") in
      if (n <? 1) || (256 <? n) then Done (ErrorResult "length must be between 1 and 256")
      else
        let devPath := "/dev/i2c-" +:+ bus in
        let read :=
          Call (ReadBytes n) (λ r,
            match r with
            | Err (_, e) => Done (ErrorResult ("failed to read from device " +:+ hex2 addr +:+ ": " +:+ e))
            | Ok bytes =>
                Done (SilentResult (render
                  (JObj [("address", JStr (hex2 addr)); ("bus", JStr devPath); ("bytes", num_list bytes);
                         ("hex", hex_list bytes); ("length", JNum (Z.of_nat (length bytes)))])))
            end) in
        Call (Open devPath) (λ r,
          match r with
          | Err (_, e) => Done (ErrorResult ("failed to open " +:+ devPath +:+ ": " +:+ e))
          | Ok _ =>
              Call (Slave addr) (λ r,
                match r with
                | Err (_, e) => Done (ErrorResult ("failed to set I2C address " +:+ hex2 addr +:+ ": " +:+ e))
                | Ok _ =>
                    match arg_number args "register" with
                    | None => read
                    | Some reg =>
                        if (reg <? 0) || (255 <? reg) then Done (ErrorResult "register must be between 0x00 and 0xFF")
                        else
                          Call (WriteBytes [reg]) (λ r,
                            match r with
                            | Err (_, e) => Done (ErrorResult ("failed to write register " +:+ hex2 reg +:+ ": " +:+ e))
                            | Ok _ => read
                            end)
                    end
                end)
          end)
  end.

(** The bytes of a write: the register, if there is one, and the data. *)
Definition i2c_data (args : gmap string json) : string + list Z :=
  match args !! "data" with
  | Some (JArr ((_ :: _) as dataRaw)) =>
      if bool_decide (256 < Z.of_nat (length dataRaw)) then inl "data too long: maximum 256 bytes per I2C transaction"
      else
        let put (reg : list Z) := match byte_values 0 dataRaw with inl e => inl e | inr bs => inr (reg ++ bs) end in
        match arg_number args "register" with
        | None => put []
        | Some reg => if (reg <? 0) || (255 <? reg) then inl "register must be between 0x00 and 0xFF" else put [reg]
        end
  | _ => inl "data is required for write (array of byte values 0-255)"
  end.

Definition i2c_write (args : gmap string json) : prog :=
  if negb (confirmed args) then Done (ErrorResult ("write operations require confirm: true. Please confirm with the user before writing to I2C " +:+
         "devices, as incorrect writes can misconfigure hardware."))
  else
    match parseI2CBus args, parseI2CAddress args, i2c_data args with
    | inl e, _, _ => Done (ErrorResult e)
    | inr _, inl e, _ => Done (ErrorResult e)
    | inr _, inr _, inl e => Done (ErrorResult e)
    | inr bus, inr addr, inr data =>
        let devPath := "/dev/i2c-" +:+ bus in
        Call (Open devPath) (λ r,
          match r with
          | Err (_, e) => Done (ErrorResult ("failed to open " +:+ devPath +:+ ": " +:+ e))
          | Ok _ =>
              Call (Slave addr) (λ r,
                match r with
                | Err (_, e) => Done (ErrorResult ("failed to set I2C address " +:+ hex2 addr +:+ ": " +:+ e))
                | Ok _ =>
                    Call (WriteBytes data) (λ r,
                      match r with
                      | Err (_, e) => Done (ErrorResult ("failed to write to device " +:+ hex2 addr +:+ ": " +:+ e))
                      | Ok n =>
                          Done (SilentResult ("Wrote " +:+ pretty (default 0 (head n)) +:+ " byte(s) to device " +:+
                            hex2 addr +:+ " on " +:+ devPath))
                      end)
                end)
          end)
    end.

Definition i2c_Execute (linux : bool) (glob : result string (list string)) (args : gmap string json) : prog :=
  if negb linux then Done (ErrorResult "I2C is only supported on Linux. This tool requires /dev/i2c-* device files.")
  else
    match arg_string args "action" with
    | None => Done (ErrorResult "action is required")
    | Some action =>
        if bool_decide (action = "detect") then Done (i2c_detect glob)
        else if bool_decide (action = "scan") then i2c_scan args
        else if bool_decide (action = "read") then i2c_read args
        else if bool_decide (action = "write") then i2c_write args
        else Done (ErrorResult ("unknown action: " +:+ action +:+ " (valid: detect, scan, read, write)"))
    end.

(** ** SPI *)
Definition device_pattern : re := seq_of [Bol; plus digit; lit "."; plus digit; Eol].

(** Parameters that are not given have defaults. *)
Definition in_range_or (args : gmap string json) (k : string) (dflt lo hi : Z) (e : string) : string + Z :=
  match arg_number args k with
  | None => inr dflt
  | Some n => if (n <? lo) || (hi <? n) then inl e else inr n
  end.

Record spi_args := mk_spi_args { sp_device : string; sp_speed : Z; sp_mode : Z; sp_bits : Z }.

Definition parseSPIArgs (args : gmap string json) : string + spi_args :=
  match arg_string args "device" with
  | None => inl ("device is required (e.g. " +:+ quoted "2.0" +:+ " for /dev/spidev2.0)")
  | Some dev =>
      if bool_decide (dev = "") then inl ("device is required (e.g. " +:+ quoted "2.0" +:+ " for /dev/spidev2.0)")
      else if negb (MatchString device_pattern dev)
      then inl ("invalid device identifier: must be in format " +:+ quoted "X.Y" +:+ " (e.g. " +:+ quoted "2.0" +:+ ")")
      else
        match in_range_or args "speed" 1000000 1 125000000 "speed must be between 1 Hz and 125 MHz",
              in_range_or args "mode" 0 0 3 "mode must be 0-3",
              in_range_or args "bits" 8 1 32 "bits must be between 1 and 32" with
        | inl e, _, _ => inl e
        | inr _, inl e, _ => inl e
        | inr _, inr _, inl e => inl e
        | inr speed, inr mode, inr bits => inr (mk_spi_args dev speed mode bits)
        end
  end.

Definition spi_list (matches : result string (list string)) : ToolResult :=
  match matches with
  | Err e => ErrorResult ("failed to scan for SPI devices: " +:+ e)
  | Ok [] =>
      SilentResult (lines ["No SPI devices found. You may need to:"; "1. Enable SPI in device tree";
        "2. Configure pinmux for your board (see hardware skill)"; "3. Check that spidev module is loaded"])
  | Ok paths =>
      let devices := paths ≫= λ m,
        match find_groups [lit "/dev/spidev"; Cat (plus digit) (Cat (lit ".") (plus digit))] (chars m) with
        | (_ :: d :: _) :: _ => [JObj [("path", JStr m); ("device", JStr (implode d))]]
        | _ => []
        end in
      SilentResult ("Found " +:+ pretty (Z.of_nat (length devices)) +:+ " SPI device(s):" +:+ String newline (render (JArr devices)))
  end.

Definition configureSPI (a : spi_args) (k : prog) : prog :=
  let devPath := "/dev/spidev" +:+ sp_device a in
  Call (Open devPath) (λ r,
    match r with
    | Err (_, e) => Done (ErrorResult ("failed to open " +:+ devPath +:+ ": " +:+ e +:+ " (check permissions and spidev module)"))
    | Ok _ =>
        Call (SpiMode (sp_mode a)) (λ r,
          match r with
          | Err (_, e) => Done (ErrorResult ("failed to set SPI mode " +:+ pretty (sp_mode a) +:+ ": " +:+ e))
          | Ok _ =>
              Call (SpiBits (sp_bits a)) (λ r,
                match r with
                | Err (_, e) => Done (ErrorResult ("failed to set bits per word " +:+ pretty (sp_bits a) +:+ ": " +:+ e))
                | Ok _ =>
                    Call (SpiSpeed (sp_speed a)) (λ r,
                      match r with
                      | Err (_, e) =>
                          Done (ErrorResult ("failed to set SPI speed " +:+ pretty (sp_speed a) +:+ " Hz: " +:+ e))
                      | Ok _ => k
                      end)
                end)
          end)
    end).

Definition spi_data (args : gmap string json) : string + list Z :=
  match args !! "data" with
  | Some (JArr ((_ :: _) as dataRaw)) =>
      if bool_decide (4096 < Z.of_nat (length dataRaw)) then inl "data too long: maximum 4096 bytes per SPI transfer"
      else byte_values 0 dataRaw
  | _ => inl "data is required for transfer (array of byte values 0-255)"
  end.

Definition spi_transfer (args : gmap string json) : prog :=
  if negb (confirmed args)
  then Done (ErrorResult ("transfer operations require confirm: true. Please confirm with the user before sending data " +:+
         "to SPI devices."))
  else
    match parseSPIArgs args, spi_data args with
    | inl e, _ => Done (ErrorResult e)
    | inr _, inl e => Done (ErrorResult e)
    | inr a, inr tx =>
        configureSPI a
          (Call (SpiMessage tx (sp_speed a) (sp_bits a)) (λ r,
            match r with
            | Err (_, e) => Done (ErrorResult ("SPI transfer failed: " +:+ e))
            | Ok rx =>
                Done (SilentResult (render
                  (JObj [("device", JStr ("/dev/spidev" +:+ sp_device a)); ("hex", hex_list rx); ("received", num_list rx);
                         ("sent", JNum (Z.of_nat (length tx)))])))
            end))
    end.

Definition spi_read (args : gmap string json) : prog :=
  match parseSPIArgs args with
  | inl e => Done (ErrorResult e)
  | inr a =>
      let n := default 0 (arg_number args "length") in
      if (n <? 1) || (4096 <? n) then Done (ErrorResult "length is required for read (1-4096)")
      else
        configureSPI a
          (Call (SpiMessage (replicate (Z.to_nat n) 0) (sp_speed a) (sp_bits a)) (λ r,
            match r with
            | Err (_, e) => Done (ErrorResult ("SPI read failed: " +:+ e))
            | Ok rx =>
                Done (SilentResult (render
                  (JObj [("bytes", num_list rx); ("device", JStr ("/dev/spidev" +:+ sp_device a)); ("hex", hex_list rx);
                         ("length", JNum (Z.of_nat (length rx)))])))
            end))
  end.

Definition spi_Execute (linux : bool) (glob : result string (list string)) (args : gmap string json) : prog :=
  if negb linux then Done (ErrorResult "SPI is only supported on Linux. This tool requires /dev/spidev* device files.")
  else
    match arg_string args "action" with
    | None => Done (ErrorResult "action is required")
    | Some action =>
        if bool_decide (action = "list") then Done (spi_list glob)
        else if bool_decide (action = "transfer") then spi_transfer args
        else if bool_decide (action = "read") then spi_read args
        else Done (ErrorResult ("unknown action: " +:+ action +:+ " (valid: list, transfer, read)"))
    end.

(** ** What is asked of the hardware *)

(** A text of one digit or more. *)
Definition digits (s : string) : Prop := s ≠ "" ∧ Forall (λ c, is_digit c = true) (chars s).

(** Requests of the I2C tool: a device by its number, addresses in range, a quick write
    never to an address of a memory, bytes that are bytes: those of a confirmed use,
    or else the one that names the register to read. *)
Definition i2c_ok (args : gmap string json) (q : hw_request) : Prop :=
  match q with
  | Open path => ∃ bus, path = "/dev/i2c-" +:+ bus ∧ digits bus
  | Funcs => True
  | Slave addr => 0x03 <= addr <= 0x77
  | Probe addr quick => 0x08 <= addr <= 0x77 ∧ (quick = true → ¬ (0x30 <= addr <= 0x37) ∧ ¬ (0x50 <= addr <= 0x5F))
  | WriteBytes data =>
      Forall is_byte data ∧ (length data ≤ 257)%nat ∧
      ((confirmed args = true ∧ i2c_data args = inr data)
       ∨ ∃ reg, arg_string args "action" = Some "read" ∧ arg_number args "register" = Some reg ∧ data = [reg])
  | ReadBytes n => 1 <= n <= 256
  | _ => False
  end.

(** Requests of the SPI tool: settings in range; what is sent are the bytes of a
    confirmed use, or zeros. *)
Definition spi_ok (args : gmap string json) (q : hw_request) : Prop :=
  match q with
  | Open path => ∃ a b, path = "/dev/spidev" +:+ a +:+ "." +:+ b ∧ digits a ∧ digits b
  | SpiMode m => 0 <= m <= 3
  | SpiBits b => 1 <= b <= 32
  | SpiSpeed s => 1 <= s <= 125000000
  | SpiMessage tx speed bits =>
      Forall is_byte tx ∧ (1 <= Z.of_nat (length tx) <= 4096) ∧
      ((confirmed args = true ∧ spi_data args = inr tx) ∨ Forall (λ b, b = 0) tx) ∧
      1 <= speed <= 125000000 ∧ 1 <= bits <= 32
  | _ => False
  end.

Lemma bus_digits id : isValidBusID id = true → digits id.
Proof.
  intros (pre & post & c' & Hs & H)%MatchString_iff. unfold bus_pattern in H. cbn [seq_of] in H.
  apply Cat_iff in H as (d & [Hpre ->]%Bol_iff & H). apply last_None in Hpre as ->.
  apply Cat_iff in H as (d1 & (l & El & Hne & Hl)%plus_class_chars & [Hend _]%Eol_iff).
  cbn in Hs, El. subst post. rewrite Hend, app_nil_r in El. split; [intros ->; by subst l|by rewrite El].
Qed.

Lemma device_digits dev :
  MatchString device_pattern dev = true → ∃ a b, dev = a +:+ "." +:+ b ∧ digits a ∧ digits b.
Proof.
  intros (pre & post & c' & Hs & H)%MatchString_iff. unfold device_pattern in H. cbn [seq_of] in H.
  apply Cat_iff in H as (d & [Hpre ->]%Bol_iff & H). apply last_None in Hpre as ->.
  apply Cat_iff in H as (d1 & (a & Ea & Hane & Ha)%plus_class_chars & H).
  apply Cat_iff in H as (d2 & Hdot%lit_chars & H).
  apply Cat_iff in H as (d3 & (b & Eb & Hbne & Hb)%plus_class_chars & [Hend _]%Eol_iff).
  cbn in Hs, Ea. subst post. rewrite Hend, app_nil_r in Eb. rewrite Hdot, Eb in Ea.
  exists (implode a), (implode b). split_and!.
  - rewrite <- (implode_chars dev), Ea. change (chars "." ++ b) with ("."%char :: b). by rewrite implode_app.
  - split; [intros E; apply Hane; by apply (f_equal chars) in E; rewrite chars_implode in E|by rewrite chars_implode].
  - split; [intros E; apply Hbne; by apply (f_equal chars) in E; rewrite chars_implode in E|by rewrite chars_implode].
Qed.

Lemma parseI2CBus_ok args bus : parseI2CBus args = inr bus → digits bus.
Proof.
  unfold parseI2CBus. destruct (arg_string args "bus") as [b|]; [|done]. destruct (bool_decide _); [done|].
  destruct (isValidBusID b) eqn:E; [|done]. intros [= <-]. by apply bus_digits.
Qed.

Lemma parseI2CAddress_ok args addr : parseI2CAddress args = inr addr → 0x03 <= addr <= 0x77.
Proof.
  unfold parseI2CAddress. destruct (arg_number args "address") as [a|]; [|done].
  destruct ((a <? 0x03) || (0x77 <? a)) eqn:E; [done|]. intros [= <-].
  apply orb_false_iff in E as [?%Z.ltb_ge ?%Z.ltb_ge]. lia.
Qed.

Lemma scan_addrs_ok args hasQuick addrs found k :
  Forall (λ a, 0x08 <= a <= 0x77) addrs → (∀ l, requests_all (i2c_ok args) (k l)) →
  requests_all (i2c_ok args) (scan_addrs hasQuick addrs found k).
Proof.
  intros H Hk. revert found. induction H as [|a addrs Ha _ IH]; intros found; cbn [scan_addrs requests_all]; [apply Hk|].
  split; [cbn; lia|]. intros [[]|[busy e]]; cbn [smbusProbe requests_all]; [..|apply IH];
    (split; [|intros r; apply IH]; split; [done|unfold eeprom; intros Hq; lia]).
Qed.

Lemma scan_range_ok : Forall (λ a, 0x08 <= a <= 0x77) scan_range.
Proof. by refine (bool_decide_unpack _ _). Qed.

Lemma i2c_scan_ok args : requests_all (i2c_ok args) (i2c_scan args).
Proof.
  unfold i2c_scan. destruct (parseI2CBus args) as [|bus] eqn:Eb; [done|]. apply parseI2CBus_ok in Eb.
  cbn [requests_all]. split; [by exists bus|]. intros [l|[]]; [|done]. cbn [requests_all]. split; [done|].
  intros [funcs|[]]; [|done]. destruct (_ && _); [done|]. apply scan_addrs_ok; [apply scan_range_ok|].
  intros found. by destruct (bool_decide _).
Qed.

Lemma i2c_read_ok args :
  arg_string args "action" = Some "read" → requests_all (i2c_ok args) (i2c_read args).
Proof.
  intros Hact. unfold i2c_read. destruct (parseI2CBus args) as [|bus] eqn:Eb; [done|]. apply parseI2CBus_ok in Eb.
  destruct (parseI2CAddress args) as [|addr] eqn:Ea; [done|]. apply parseI2CAddress_ok in Ea.
  set (n := default 1 _). destruct ((n <? 1) || (256 <? n)) eqn:En; [done|].
  apply orb_false_iff in En as [?%Z.ltb_ge ?%Z.ltb_ge].
  cbn [requests_all]. split; [by exists bus|]. intros [l|[]]; [|done]. cbn [requests_all]. split; [done|].
  intros [l'|[]]; [|done].
  assert (∀ k, (∀ r, requests_all (i2c_ok args) (k r)) → requests_all (i2c_ok args) (Call (ReadBytes n) k)) as Hread
    by (intros k Hk; split; [cbn; lia|done]).
  destruct (arg_number args "register") as [reg|] eqn:Ereg; [|apply Hread; by intros [|[]]].
  destruct ((reg <? 0) || (255 <? reg)) eqn:Er; [done|]. apply orb_false_iff in Er as [?%Z.ltb_ge ?%Z.ltb_ge].
  split; [split_and!; [by repeat constructor|cbn; lia|right; by exists reg]|].
  intros [|[]]; [|done]. apply Hread. by intros [|[]].
Qed.

Lemma i2c_data_ok args data :
  i2c_data args = inr data → Forall is_byte data ∧ (length data ≤ 257)%nat.
Proof.
  unfold i2c_data. destruct (args !! "data") as [[| | | |[|v raw]|]|]; try done.
  set (l := v :: raw). case_bool_decide as Hl; [done|]. cbv zeta beta.
  destruct (byte_values 0 l) as [|bs] eqn:Eb.
  - destruct (arg_number args "register") as [reg|]; [|done]. by destruct (_ || _).
  - apply byte_values_ok in Eb as [Hlen Hf]. destruct (arg_number args "register") as [reg|].
    + destruct ((reg <? 0) || (255 <? reg)) eqn:Er; [done|]. apply orb_false_iff in Er as [?%Z.ltb_ge ?%Z.ltb_ge].
      intros [= <-]. split; [by constructor|cbn; lia].
    + intros [= <-]. split; [done|cbn; lia].
Qed.

Lemma i2c_write_ok args : requests_all (i2c_ok args) (i2c_write args).
Proof.
  unfold i2c_write. destruct (confirmed args) eqn:Hc; [|done]. cbn [negb].
  destruct (parseI2CBus args) as [|bus] eqn:Eb; [done|]. apply parseI2CBus_ok in Eb.
  destruct (parseI2CAddress args) as [|addr] eqn:Ea; [done|]. apply parseI2CAddress_ok in Ea.
  destruct (i2c_data args) as [|data] eqn:Ed; [done|]. pose proof (i2c_data_ok _ _ Ed) as [Hf Hl].
  cbn [requests_all]. split; [by exists bus|]. intros [l|[]]; [|done]. cbn [requests_all]. split; [done|].
  intros [l'|[]]; [|done]. split; [split_and!; [done..|by left]|]. by intros [|[]].
Qed.

Lemma in_range_or_ok args k dflt lo hi e n :
  in_range_or args k dflt lo hi e = inr n → lo <= dflt <= hi → lo <= n <= hi.
Proof.
  unfold in_range_or. destruct (arg_number args k) as [m|]; [|by intros [= <-]].
  destruct ((m <? lo) || (hi <? m)) eqn:E; [done|]. intros [= <-].
  apply orb_false_iff in E as [?%Z.ltb_ge ?%Z.ltb_ge]. lia.
Qed.

Lemma parseSPIArgs_ok args a :
  parseSPIArgs args = inr a →
  (∃ x y, sp_device a = x +:+ "." +:+ y ∧ digits x ∧ digits y) ∧ 1 <= sp_speed a <= 125000000 ∧
  0 <= sp_mode a <= 3 ∧ 1 <= sp_bits a <= 32.
Proof.
  unfold parseSPIArgs. intros H. revert H. destruct (arg_string args "device") as [dev|]; [|done]. destruct (bool_decide _); [done|].
  destruct (MatchString device_pattern dev) eqn:Em; [|done]. cbn [negb]. apply device_digits in Em.
  destruct (in_range_or _ "speed" _ _ _ _) as [|s] eqn:Es; [done|].
  destruct (in_range_or _ "mode" _ _ _ _) as [|m] eqn:Eo; [done|].
  destruct (in_range_or _ "bits" _ _ _ _) as [|b] eqn:Eb; [done|]. intros [= <-].
  apply in_range_or_ok in Es; [|lia]. apply in_range_or_ok in Eo; [|lia]. apply in_range_or_ok in Eb; [|lia]. cbn. split_and!; [done|lia..].
Qed.

Lemma configureSPI_ok args a k :
  parseSPIArgs args = inr a → requests_all (spi_ok args) k → requests_all (spi_ok args) (configureSPI a k).
Proof.
  intros ((x & y & Hd & Hx & Hy) & Hs & Hm & Hb)%parseSPIArgs_ok Hk. unfold configureSPI. cbn [requests_all].
  split; [exists x, y; by rewrite Hd|]. intros [|[]]; [|done]. cbn [requests_all]. split; [done|].
  intros [|[]]; [|done]. cbn [requests_all]. split; [done|]. intros [|[]]; [|done]. cbn [requests_all].
  split; [done|]. by intros [|[]].
Qed.

Lemma spi_data_ok args tx : spi_data args = inr tx → Forall is_byte tx ∧ 1 <= Z.of_nat (length tx) <= 4096.
Proof.
  unfold spi_data. destruct (args !! "data") as [[| | | |[|v raw]|]|]; try done.
  set (l := v :: raw). case_bool_decide as Hl; [done|]. intros [Hlen Hf]%byte_values_ok. split; [done|].
  rewrite Hlen. subst l. cbn [length] in *. lia.
Qed.

Lemma spi_transfer_ok args : requests_all (spi_ok args) (spi_transfer args).
Proof.
  unfold spi_transfer. destruct (confirmed args) eqn:Hc; [|done]. cbn [negb].
  destruct (parseSPIArgs args) as [|a] eqn:Ea; [done|]. destruct (spi_data args) as [|tx] eqn:Ed; [done|].
  eapply configureSPI_ok; [done|]. apply parseSPIArgs_ok in Ea as (_ & Hs & _ & Hb). pose proof (spi_data_ok _ _ Ed) as [Hf Hl].
  split; [cbn [spi_ok]; split_and!; first [done|lia|by left]|]. by intros [|[]].
Qed.

Lemma spi_read_ok args : requests_all (spi_ok args) (spi_read args).
Proof.
  unfold spi_read. destruct (parseSPIArgs args) as [|a] eqn:Ea; [done|].
  set (n := default 0 _). destruct ((n <? 1) || (4096 <? n)) eqn:En; [done|].
  apply orb_false_iff in En as [?%Z.ltb_ge ?%Z.ltb_ge].
  eapply configureSPI_ok; [done|]. apply parseSPIArgs_ok in Ea as (_ & Hs & _ & Hb).
  split; [|by intros [|[]]]. cbn [spi_ok]. rewrite length_replicate. split_and!; try lia.
  - by apply Forall_replicate.
  - right. by apply Forall_replicate.
Qed.

Lemma scan_addrs_writes hasQuick addrs found k n :
  (∀ l, writes_within n (k l)) → writes_within n (scan_addrs hasQuick addrs found k).
Proof.
  intros Hk. revert found. induction addrs as [|a addrs IH]; intros found; [apply Hk|].
  intros [|[]]; [intros r|]; apply IH.
Qed.

Lemma i2c_writes linux glob args : writes_within 1 (i2c_Execute linux glob args).
Proof.
  unfold i2c_Execute. destruct (negb linux); [done|]. destruct (arg_string args "action") as [a|]; [|done].
  destruct (bool_decide _); [done|]. destruct (bool_decide _).
  { unfold i2c_scan. destruct (parseI2CBus args) as [|bus]; [done|]. intros [|[]]; [|done].
    intros [funcs|[]]; [|done]. destruct (_ && _); [done|]. apply scan_addrs_writes. intros l. by case_bool_decide. }
  destruct (bool_decide _).
  { unfold i2c_read. destruct (parseI2CBus args) as [|bus], (parseI2CAddress args) as [|addr]; try done. cbv zeta.
    destruct (_ || _); [done|]. intros [|[]]; [|done]. intros [|[]]; [|done].
    destruct (arg_number args "register") as [reg|]; [|by intros [|[]]]. destruct (_ || _); [done|].
    intros [|[]]; [|done]. by intros [|[]]. }
  destruct (bool_decide _); [|done].
  unfold i2c_write. destruct (negb _); [done|].
  destruct (parseI2CBus args), (parseI2CAddress args), (i2c_data args); try done.
  intros [|[]]; [|done]. intros [|[]]; [|done]. by intros [|[]].
Qed.

(** C30: Whatever a model asks of the tools and whatever the hardware answers: they open
    only devices named by numbers, use addresses, settings and lengths in range, send
    bytes, never a quick write to the address of a memory.  A confirmed use sends the
    bytes that it was given; without a confirmation the I2C tool writes no other bytes
    than the number of the register it is to read, which is one byte (and this one is
    of the caller's choice), and the SPI tool sends only zeros; and a use of the I2C
    tool writes at most once. *)
Theorem hardware_guarded {W} (ask : hw_request → W → hw_reply * W) linux glob args w :
  let i2c_log := (run_prog ask (i2c_Execute linux glob args) w).1.2 in
  Forall (i2c_ok args) i2c_log ∧ (length (filter (λ q, is_write q = true) i2c_log) <= 1)%nat ∧
  Forall (spi_ok args) (run_prog ask (spi_Execute linux glob args) w).1.2.
Proof.
  cbv zeta. split_and!; [apply run_requests|apply run_writes, i2c_writes|apply run_requests].
  - unfold i2c_Execute. destruct (negb linux); [done|]. destruct (arg_string args "action") as [a|] eqn:Ea; [|done].
    destruct (bool_decide _); [done|]. destruct (bool_decide _); [apply i2c_scan_ok|].
    destruct (bool_decide_reflect (a = "read")) as [->|]; [by apply i2c_read_ok|].
    destruct (bool_decide _); [apply i2c_write_ok|done].
  - unfold spi_Execute. destruct (negb linux); [done|]. destruct (arg_string args "action") as [a|]; [|done].
    destruct (bool_decide _); [done|]. destruct (bool_decide _); [apply spi_transfer_ok|].
    destruct (bool_decide _); [apply spi_read_ok|done].
Qed.

(** ** Where the tools depart from what they say *)

(** Reading a register writes to the device without a confirmation: a device that takes
    one byte as a command is told what to do. *)
Example register_written_unconfirmed :
  let args : gmap string json :=
    {[ "action" := JStr "read"; "bus" := JStr "1"; "address" := JNum 0x40; "register" := JNum 0xF1 ]} in
  (run_prog (W := unit) (λ q w, (Ok [], w)) (i2c_Execute true (Ok []) args) tt).1.2 =
    [Open "/dev/i2c-1"; Slave 0x40; WriteBytes [0xF1]; ReadBytes 1].
Proof. by vm_compute. Qed.

(** An adapter that can do only quick writes is asked to read bytes from memories. *)
Example unsupported_probe :
  let args : gmap string json := {[ "action" := JStr "scan"; "bus" := JStr "1" ]} in
  Probe 0x50 false ∈ (run_prog (W := unit) (λ q w, (Ok [0x00010000], w)) (i2c_Execute true (Ok []) args) tt).1.2.
Proof. apply (bool_decide_eq_true_1 _). by vm_compute. Qed.

(** The address the text speaks of is in range for a use and not for a scan. *)
Example scan_skips_low :
  let args : gmap string json := {[ "action" := JStr "scan"; "bus" := JStr "1" ]} in
  Slave 0x07 ∉ (run_prog (W := unit) (λ q w, (Ok [0x00010000], w)) (i2c_Execute true (Ok []) args) tt).1.2 ∧
  parseI2CAddress {[ "address" := JNum 0x07 ]} = inr 0x07.
Proof. split; [apply (bool_decide_eq_true_1 _)|]; by vm_compute. Qed.
End Tools.
