(* ===== verification/Services.v ===== *)
(** * Small services (pkg/health, pkg/api, pkg/devices, pkg/tailscale, approval_notify.go)

    The servers that say whether the program is well and that take messages over HTTP,
    the notices of devices that are plugged in and out, secrets, and the tool that asks
    for an approval. *)
From stdpp Require Import base gmap strings list fin_maps.
From Stdlib Require Import Ascii ZArith Lia.
From S2P Require Import Prelude GoStrings ProviderTypes Bus StateManager ToolBase.
#[local] Open Scope nat_scope.

Definition eol : string := String newline_char "".

(** ** Health (pkg/health/server.go) *)
Module Health.

Record Check := mk_Check { ck_Name : string; ck_Status : string; ck_Message : string; ck_Timestamp : Z }.
Record Server := mk_Server { sv_ready : bool; sv_checks : gmap string Check; sv_startTime : Z }.
Record StatusResponse := mk_StatusResponse { st_Status : string; st_Uptime : option Z; st_Checks : gmap string Check }.

Definition NewServer (now : Z) : Server := mk_Server false ∅ now.
Definition SetReady (ready : bool) (s : Server) : Server := mk_Server ready (sv_checks s) (sv_startTime s).

(** [Start] and [StartContext] are ready before they listen, [Stop] is not any more. *)
Definition Start (s : Server) : Server := SetReady true s.
Definition Stop (s : Server) : Server := SetReady false s.

Definition statusString (ok : bool) : string := if ok then "ok" else "fail".
(** [result] is what the check says when it is registered. *)
Definition RegisterCheck (name : string) (result : bool * string) (now : Z) (s : Server) : Server :=
  mk_Server (sv_ready s) (<[name := mk_Check name (statusString result.1) result.2 now]> (sv_checks s)) (sv_startTime s).

Definition healthHandler (now : Z) (s : Server) : Z * StatusResponse :=
  (200%Z, mk_StatusResponse "ok" (Some (now - sv_startTime s)%Z) ∅).

(** [order] enumerates the checks as the map is iterated. *)
Definition readyHandler (order : list (string * Check)) (now : Z) (s : Server) : Z * StatusResponse :=
  if negb (sv_ready s) then (503%Z, mk_StatusResponse "not ready" None (sv_checks s))
  else if existsb (λ kc, bool_decide (ck_Status kc.2 = "fail")) order
  then (503%Z, mk_StatusResponse "not ready" None (sv_checks s))
  else (200%Z, mk_StatusResponse "ready" (Some (now - sv_startTime s)%Z) (sv_checks s)).

(** What happens to a server. *)
Inductive op := OpReady (b : bool) | OpCheck (name : string) (result : bool * string) (now : Z).
Definition apply_op (s : Server) (o : op) : Server :=
  match o with OpReady b => SetReady b s | OpCheck name r now => RegisterCheck name r now s end.

(** The last result of a check, and the last word on being ready. *)
Definition last_result (name : string) (ops : list op) : option (bool * string) :=
  last (omap (λ o, match o with OpCheck n r _ => if bool_decide (n = name) then Some r else None | _ => None end) ops).
Definition last_ready (ops : list op) : bool :=
  default false (last (omap (λ o, match o with OpReady b => Some b | _ => None end) ops)).

Lemma checks_last now ops name :
  (λ c, (ck_Status c, ck_Message c)) <$> (sv_checks (foldl apply_op (NewServer now) ops) !! name) =
    (λ r, (statusString r.1, r.2)) <$> last_result name ops.
Proof.
  unfold last_result. induction ops as [|o ops IH] using rev_ind; [done|].
  rewrite foldl_snoc, omap_app, last_app. destruct o as [b|n r t]; cbn; [exact IH|].
  case_bool_decide as Hn; cbn; [subst n; by rewrite lookup_insert_eq|by rewrite lookup_insert_ne].
Qed.

Lemma ready_last now ops : sv_ready (foldl apply_op (NewServer now) ops) = last_ready ops.
Proof.
  unfold last_ready. induction ops as [|o ops IH] using rev_ind; [done|].
  rewrite foldl_snoc, omap_app, last_app. by destruct o.
Qed.

(** The server is ready exactly when that was said last and no check failed when it was
    registered last, whatever the order of the map. *)
Lemma ready_iff start ops order now :
  (∀ kc, kc ∈ order ↔ kc ∈ map_to_list (sv_checks (foldl apply_op (NewServer start) ops))) →
  (readyHandler order now (foldl apply_op (NewServer start) ops)).1 = 200%Z ↔
  last_ready ops = true ∧ ∀ name r, last_result name ops = Some r → r.1 = true.
Proof.
  intros Ho. unfold readyHandler. rewrite ready_last. destruct (last_ready ops); cbn [negb]; [|split; [done|by intros [? _]]].
  destruct (existsb _ order) eqn:Ee; (split; [try done|]).
  - intros [_ Hall]. apply existsb_exists in Ee as ([name c] & Hin & Hc%bool_decide_eq_true).
    apply list_elem_of_In, Ho, elem_of_map_to_list in Hin. pose proof (checks_last start ops name) as Hl.
    rewrite Hin in Hl. cbn in Hl. destruct (last_result name ops) as [r|] eqn:Er; [|done].
    cbn in Hl. injection Hl as Hs _. rewrite (Hall name r Er) in Hs. cbn in Hc. rewrite Hs in Hc. done.
  - intros _. split; [done|]. intros name r Hr. pose proof (checks_last start ops name) as Hl. rewrite Hr in Hl.
    destruct (sv_checks _ !! name) as [c|] eqn:Ec; [|done]. cbn in Hl. injection Hl as Hs _.
    destruct (r.1) eqn:E1; [done|]. exfalso. cbn in Hs. apply not_true_iff_false in Ee. apply Ee, existsb_exists.
    exists (name, c). split; [|by apply bool_decide_eq_true]. apply list_elem_of_In, Ho. by apply elem_of_map_to_list.
  - done.
Qed.

(** A check is asked once: what it would say later changes nothing. *)
Example check_asked_once :
  let s := Start (RegisterCheck "db" (true, "") 5 (NewServer 0)) in
  (readyHandler (map_to_list (sv_checks s)) 1000 s).1 = 200%Z.
Proof. by vm_compute. Qed.
End Health.

(** ** The API (pkg/api/handlers.go) *)
Module Api.
Section Api.
(** The agent loop: a world, what processing a message does to it, and what it tells of
    itself. *)
Context {W I : Type} (process : string → string → string → string → W → result string string * W).
Context (tool_definitions : W → option (list json)) (startup_info : W → option I).

Record dispatchRequest := mk_dispatchRequest { dr_Content : string; dr_SessionKey : string; dr_Channel : string; dr_ChatID : string }.
Record dispatchResponse := mk_dispatchResponse { ds_Content : string; ds_FinishReason : string; ds_Error : string }.

Definition or_default (s dflt : string) : string := if bool_decide (s = "") then dflt else s.

(** [body] is what the body decodes to. *)
Definition handleDispatch (body : result string dispatchRequest) (w : W) : Z * dispatchResponse * W :=
  match body with
  | Err _ => (400%Z, mk_dispatchResponse "" "" "invalid request body", w)
  | Ok req =>
      if bool_decide (dr_Content req = "") then (400%Z, mk_dispatchResponse "" "" "content is required", w)
      else
        let channel := or_default (dr_Channel req) "api" in
        let chatID := or_default (dr_ChatID req) "dispatch" in
        let sessionKey := or_default (dr_SessionKey req) ("api:" +:+ chatID) in
        match process (dr_Content req) sessionKey channel chatID w with
        | (Err e, w) => (500%Z, mk_dispatchResponse "" "error" e, w)
        | (Ok text, w) => (200%Z, mk_dispatchResponse text "stop" "", w)
        end
  end.

Definition handleTools (w : W) : Z * (list json * nat) :=
  let defs := default [] (tool_definitions w) in (200%Z, (defs, length defs)).
Definition handleStatus (empty : I) (w : W) : Z * I := (200%Z, default empty (startup_info w)).

(** Only a message with a content reaches the agent, with a channel, a chat and a
    session; the status says what came of it. *)
Lemma dispatch_status body w status r w' :
  handleDispatch body w = (status, r, w') →
  (status = 400%Z ∧ w' = w) ∨
  ∃ content session channel chat, content ≠ "" ∧ session ≠ "" ∧ channel ≠ "" ∧ chat ≠ "" ∧
    (process content session channel chat w = (Ok (ds_Content r), w') ∧ status = 200%Z ∧ ds_FinishReason r = "stop" ∨
     process content session channel chat w = (Err (ds_Error r), w') ∧ status = 500%Z ∧ ds_FinishReason r = "error").
Proof.
  unfold handleDispatch. destruct body as [req|]; [|intros [= <- <- <-]; by left].
  case_bool_decide as Hc; [intros [= <- <- <-]; by left|].
  assert (∀ s d, d ≠ "" → or_default s d ≠ "") as Hd by (intros s d H; unfold or_default; by case_bool_decide).
  set (channel := or_default _ "api"). set (chat := or_default _ "dispatch"). set (session := or_default _ ("api:" +:+ chat)).
  intros H. right. exists (dr_Content req), session, channel, chat. split_and!; [done|by apply Hd..|].
  destruct (process _ _ _ _ w) as [[text|e] w1]; injection H as <- <- <-; [by left|by right].
Qed.
End Api.
End Api.

(** ** Devices (pkg/devices) *)
Module Devices.

Inductive Action := ActionAdd | ActionRemove | ActionChange.
#[export] Instance Action_eq_dec : EqDecision Action.
Proof. solve_decision. Defined.

Record DeviceEvent := mk_DeviceEvent {
  ev_Action : Action;
  ev_Kind : string;
  ev_DeviceID : string;
  ev_Vendor : string;
  ev_Product : string;
  ev_Serial : string;
  ev_Capabilities : string;
  ev_Raw : gmap string string;
}.

Definition FormatMessage (e : DeviceEvent) : string :=
  "🔌 Device " +:+ (if bool_decide (ev_Action e = ActionRemove) then "Disconnected" else "Connected") +:+ eol +:+ eol +:+
  "Type: " +:+ ev_Kind e +:+ eol +:+ "Device: " +:+ ev_Vendor e +:+ " " +:+ ev_Product e +:+ eol +:+
  (if bool_decide (ev_Capabilities e = "") then "" else "Capabilities: " +:+ ev_Capabilities e +:+ eol) +:+
  (if bool_decide (ev_Serial e = "") then "" else "Serial: " +:+ ev_Serial e +:+ eol).

Definition parseLastChannel (lastChannel : string) : string * string :=
  match cut lastChannel ":" with
  | Some (platform, userID) =>
      if bool_decide (platform = "") || bool_decide (userID = "") then ("", "") else (platform, userID)
  | None => ("", "")
  end.

(** The service: whether it has a bus, and the state. *)
Definition sendNotification (has_bus : bool) (state : Manager) (e : DeviceEvent) : option OutboundMessage :=
  if negb has_bus then None
  else
    let lastChannel := GetLastChannel state in
    if bool_decide (lastChannel = "") then None
    else
      let '(platform, userID) := parseLastChannel lastChannel in
      if bool_decide (platform = "") || bool_decide (userID = "") || IsInternalChannel platform then None
      else Some (mk_OutboundMessage platform userID (FormatMessage e)).
Definition handleEvents (has_bus : bool) (state : Manager) (events : list (option DeviceEvent)) : list OutboundMessage :=
  events ≫= λ e, match e with Some e => option_list (sendNotification has_bus state e) | None => [] end.

(** Notices go to the last channel, and never to an internal one. *)
Lemma notices_go_to_last_channel b st events :
  Forall (λ m, IsInternalChannel (om_Channel m) = false ∧ om_Channel m ≠ "" ∧ om_ChatID m ≠ "" ∧
    GetLastChannel st = om_Channel m +:+ ":" +:+ om_ChatID m) (handleEvents b st events).
Proof.
  unfold handleEvents. induction events as [|e events IH]; cbn [mbind list_bind]; [constructor|].
  apply Forall_app. split; [|exact IH]. destruct e as [e|]; [|constructor].
  destruct (sendNotification b st e) as [m|] eqn:E; cbn; [|constructor]. constructor; [|constructor].
  unfold sendNotification in E. destruct (negb b); [done|]. destruct (bool_decide _); [done|].
  unfold parseLastChannel in E. destruct (cut _ _) as [[p u]|] eqn:Ec; [|done].
  destruct (bool_decide (p = "") || bool_decide (u = "")) eqn:Ep; [done|]. rewrite Ep in E. cbn [orb] in E.
  apply orb_false_iff in Ep as [?%bool_decide_eq_false ?%bool_decide_eq_false].
  destruct (IsInternalChannel p) eqn:Ei; [done|]. injection E as <-. cbn. split_and!; [done..|].
  by apply cut_Some in Ec as [-> _].
Qed.

(** *** The monitor of USB (sources/usb_linux.go) *)
Definition usbClassToCapability : gmap string string := list_to_map
  [("00", "Interface Definition (by interface)");
   ("01", "Audio");
   ("02", "CDC Communication (Network Card/Modem)");
   ("03", "HID (Keyboard/Mouse/Gamepad)");
   ("05", "Physical Interface");
   ("06", "Image (Scanner/Camera)");
   ("07", "Printer");
   ("08", "Mass Storage (USB Flash Drive/Hard Disk)");
   ("09", "USB Hub");
   ("0a", "CDC Data");
   ("0b", "Smart Card");
   ("0e", "Video (Camera)");
   ("dc", "Diagnostic Device");
   ("e0", "Wireless Controller (Bluetooth)");
   ("ef", "Miscellaneous");
   ("fe", "Application Specific");
   ("ff", "Vendor Specific")].

Abbreviation properties := (gmap string string) (only parsing).
Definition prop (k : string) (m : properties) : string := default "" (m !! k).
Fixpoint first_set (l : list string) : string :=
  match l with [] => "" | [s] => s | s :: l => if bool_decide (s = "") then first_set l else s end.

Definition parseUSBEvent (action : string) (props : properties) : option DeviceEvent :=
  if negb (bool_decide (prop "SUBSYSTEM" props = "usb")) then None
  else if negb (bool_decide (prop "DEVTYPE" props = "")) && negb (bool_decide (prop "DEVTYPE" props = "usb_device")) then None
  else
    match (if bool_decide (action = "add") then Some ActionAdd else if bool_decide (action = "remove") then Some ActionRemove else None) with
    | None => None
    | Some a =>
        let bus := prop "BUSNUM" props in
        let dev := prop "DEVNUM" props in
        let class := prop "ID_USB_CLASS" props in
        let capability := if bool_decide (class = "") then "" else default "" (usbClassToCapability !! to_lower class) in
        Some (mk_DeviceEvent a "usb"
          (if bool_decide (bus = "") || bool_decide (dev = "") then prop "DEVPATH" props else bus +:+ ":" +:+ dev)
          (first_set [prop "ID_VENDOR" props; prop "ID_VENDOR_ID" props; "Unknown Vendor"])
          (first_set [prop "ID_MODEL" props; prop "ID_MODEL_ID" props; "Unknown Device"])
          (prop "ID_SERIAL_SHORT" props)
          (first_set [capability; "USB Device"]) props)
    end.

(** What is known of the block that is being read. *)
Record reader := mk_reader { rd_props : option properties; rd_action : string; rd_udev : bool }.
Definition fresh_reader : reader := mk_reader None "" false.

Definition read_line (r : reader) (line : string) : reader * option DeviceEvent :=
  if bool_decide (line = "") then
    (fresh_reader,
     if rd_udev r && (bool_decide (rd_action r = "add") || bool_decide (rd_action r = "remove"))
     then rd_props r ≫= parseUSBEvent (rd_action r) else None)
  else
    match cut line "=" with
    | Some (key, val) =>
        if bool_decide (key = "") then (mk_reader (rd_props r) (rd_action r) (has_prefix (trim_space line) "UDEV"), None)
        else
          (mk_reader (Some (<[key := val]> (default ∅ (rd_props r))))
             (if bool_decide (key = "ACTION") then val else rd_action r) (rd_udev r), None)
    | None => (mk_reader (rd_props r) (rd_action r) (has_prefix (trim_space line) "UDEV"), None)
    end.

Fixpoint monitor (r : reader) (lines : list string) : list DeviceEvent :=
  match lines with
  | [] => []
  | line :: lines => let '(r, e) := read_line r line in option_list e ++ monitor r lines
  end.

(** A block of the output: its first line, and properties. *)
Record block := mk_block { bl_header : string; bl_props : list (string * string) }.
Definition block_lines (b : block) : list string :=
  bl_header b :: ((λ kv, kv.1 +:+ "=" +:+ kv.2) <$> bl_props b) ++ [""].
Definition block_ok (b : block) : Prop :=
  bl_header b ≠ "" ∧ "="%char ∉ chars (bl_header b) ∧
  Forall (λ kv : string * string, kv.1 ≠ "" ∧ "="%char ∉ chars kv.1) (bl_props b).

(** The properties of a block, the last of a name winning, and its event. *)
Definition block_props (b : block) : properties := foldl (λ m kv, <[kv.1 := kv.2]> m) ∅ (bl_props b).
Definition block_event (b : block) : option DeviceEvent :=
  if has_prefix (trim_space (bl_header b)) "UDEV" then parseUSBEvent (prop "ACTION" (block_props b)) (block_props b) else None.

Lemma read_props r (kvs : list (string * string)) lines :
  Forall (λ kv : string * string, kv.1 ≠ "" ∧ "="%char ∉ chars kv.1) kvs →
  monitor r (((λ kv, kv.1 +:+ "=" +:+ kv.2) <$> kvs) ++ lines) =
  monitor (foldl (λ r kv, mk_reader (Some (<[kv.1 := kv.2]> (default ∅ (rd_props r))))
                            (if bool_decide (kv.1 = "ACTION") then kv.2 else rd_action r) (rd_udev r)) r kvs) lines.
Proof.
  intros H. revert r. induction H as [|[k v] kvs [Hk Hn] _ IH]; intros r; [done|].
  cbn [fmap list_fmap app monitor foldl fst snd] in *. unfold read_line at 1.
  rewrite bool_decide_eq_false_2 by (intros E; by destruct k).
  change (k +:+ "=" +:+ v) with (k +:+ String "=" v). rewrite cut_app by done.
  rewrite bool_decide_eq_false_2 by done. cbn [option_list app]. apply IH.
Qed.

Lemma props_read u (kvs : list (string * string)) r :
  rd_action r = prop "ACTION" (default ∅ (rd_props r)) → rd_udev r = u →
  let r' := foldl (λ r kv, mk_reader (Some (<[kv.1 := kv.2]> (default ∅ (rd_props r))))
                            (if bool_decide (kv.1 = "ACTION") then kv.2 else rd_action r) (rd_udev r)) r kvs in
  let m := foldl (λ m kv, <[kv.1 := kv.2]> m) (default ∅ (rd_props r)) kvs in
  default ∅ (rd_props r') = m ∧ rd_action r' = prop "ACTION" m ∧ rd_udev r' = u ∧
  (kvs ≠ [] → rd_props r' = Some m).
Proof.
  revert r. induction kvs as [|[k v] kvs IH]; intros r Ha Hu; [done|]. cbn [foldl fst snd].
  set (r1 := mk_reader _ _ _).
  destruct (IH r1) as (H1 & H2 & H3 & H4).
  { subst r1. cbn. unfold prop. case_bool_decide as Hk; [subst k; by rewrite lookup_insert_eq|].
    rewrite lookup_insert_ne by done. exact Ha. }
  { done. }
  split_and!; [done..|]. intros _. destruct kvs as [|kv kvs]; [done|]. by apply H4.
Qed.

(** The events of the output are those of its blocks, in order. *)
Lemma monitor_blocks blocks :
  Forall block_ok blocks → monitor fresh_reader (blocks ≫= block_lines) = omap block_event blocks.
Proof.
  intros H. induction H as [|b blocks (Hh & Hn & Hp) _ IH]; [done|]. cbn [mbind list_bind omap list_omap].
  unfold block_lines at 1. cbn [app monitor]. unfold read_line at 1.
  rewrite bool_decide_eq_false_2 by done.
  assert (cut (bl_header b) "=" = None) as -> by (unfold cut; by rewrite (proj2 (cut_l_None _ _))).
  cbn [option_list app rd_props rd_action fresh_reader]. set (u := has_prefix _ "UDEV").
  rewrite <- (assoc_L (++)), read_props by done.
  destruct (props_read u (bl_props b) (mk_reader None "" u)) as (H1 & H2 & H3 & H4); [done|done|].
  set (r' := foldl _ _ (bl_props b)) in *. cbn [default rd_props] in *. fold (block_props b) in *.
  cbn [app monitor]. unfold read_line at 1. rewrite bool_decide_eq_true_2 by done. rewrite IH.
  unfold block_event. fold u. rewrite H3, H2. destruct u; [|done]. cbn [andb].
  assert ((if bool_decide (prop "ACTION" (block_props b) = "add") || bool_decide (prop "ACTION" (block_props b) = "remove")
           then rd_props r' ≫= parseUSBEvent (prop "ACTION" (block_props b)) else None) =
          parseUSBEvent (prop "ACTION" (block_props b)) (block_props b)) as ->; [|by destruct (parseUSBEvent _ _)].
  destruct (decide (bl_props b = [])) as [E|E].
  - assert (block_props b = ∅) as -> by (unfold block_props; by rewrite E). done.
  - rewrite (H4 E). cbn [mbind option_bind]. unfold parseUSBEvent.
    destruct (bool_decide (_ = "add")), (bool_decide (_ = "remove")); cbn [orb]; try done.
    destruct (negb _); [done|]. by destruct (_ && _).
Qed.

(** A block that the output breaks off in is dropped. *)
Example unfinished_block_dropped :
  monitor fresh_reader ["UDEV  [1.0] add"; "ACTION=add"; "SUBSYSTEM=usb"] = [].
Proof. by vm_compute. Qed.
End Devices.

(** ** Secrets (pkg/tailscale/setec.go) and the node of the network (tsnet.go) *)
Module Setec.
Record SetecClient := mk_SetecClient { se_Enabled : bool; se_Prefix : string; se_cache : gmap string string }.

Definition NewSetecClient (enabled : bool) (prefix : string) : SetecClient :=
  mk_SetecClient enabled (if bool_decide (prefix = "") then "tinyclaw/" else prefix) ∅.
Definition not_connected (what fullName why : string) : string := "setec client not connected: " +:+ what +:+ fullName +:+ why.

Definition Get (name : string) (c : SetecClient) : result string string :=
  if negb (se_Enabled c) then Err "setec not enabled"
  else
    match se_cache c !! (se_Prefix c +:+ name) with
    | Some val => Ok val
    | None => Err (not_connected "secret " (se_Prefix c +:+ name) " unavailable (requires tailscale.com/setec dependency)")
    end.
Definition Put (name value : string) (c : SetecClient) : option string * SetecClient :=
  if negb (se_Enabled c) then (Some "setec not enabled", c)
  else
    (Some (not_connected "cannot store " (se_Prefix c +:+ name) " (requires tailscale.com/setec dependency)"),
     mk_SetecClient (se_Enabled c) (se_Prefix c) (<[se_Prefix c +:+ name := value]> (se_cache c))).
Definition Invalidate (name : string) (c : SetecClient) : SetecClient :=
  mk_SetecClient (se_Enabled c) (se_Prefix c) (delete (se_Prefix c +:+ name) (se_cache c)).

(** A store that reports a failure is read back all the same, until it is invalidated. *)
Lemma failed_store_read_back name value c :
  se_Enabled c = true → let '(e, c') := Put name value c in is_Some e ∧ Get name c' = Ok value ∧ is_ok (Get name (Invalidate name c')) = false.
Proof.
  intros He. unfold Put, Get, Invalidate. rewrite He. cbn [negb se_Enabled se_cache se_Prefix].
  rewrite lookup_insert_eq, lookup_delete_eq. by split_and!.
Qed.

(** The node: [mkdir] is the error of making its directory. *)
Definition Start_node (enabled : bool) (mkdir : option string) (running : bool) : option string * bool :=
  if running then (Some "tsnet server already running", running)
  else if negb enabled then (None, running)
  else match mkdir with Some e => (Some ("creating tsnet state dir: " +:+ e), running) | None => (None, true) end.
Definition Stop_node (running : bool) : bool := false.
End Setec.

(** ** Asking for an approval (pkg/tools/approval_notify.go) *)
Module Approval.
Section Approval.
Context {B : Type}.

Record ApprovalNotifyTool := mk_ApprovalNotifyTool {
  an_sendCallback : option (string → string → string → B → option string * B);
  an_channel : string;
  an_chatID : string;
}.
Definition NewApprovalNotifyTool : ApprovalNotifyTool := mk_ApprovalNotifyTool None "" "".
Definition SetContext (channel chatID : string) (t : ApprovalNotifyTool) : ApprovalNotifyTool :=
  mk_ApprovalNotifyTool (an_sendCallback t) channel chatID.
Definition SetSendCallback callback (t : ApprovalNotifyTool) : ApprovalNotifyTool :=
  mk_ApprovalNotifyTool (Some callback) (an_channel t) (an_chatID t).

Definition approval_text (agent tool argsSummary approvalID : string) : string :=
  "Approval needed: " +:+ agent +:+ " wants to " +:+ tool +:+
  (if bool_decide (argsSummary = "") then "" else " with: " +:+ argsSummary) +:+ eol +:+ eol +:+
  "Reply /approve " +:+ approvalID +:+ " or /reject " +:+ approvalID +:+ " <reason>".

Definition Execute_approval (args : gmap string json) (t : ApprovalNotifyTool) (b : B) : ToolResult * B :=
  let arg k := default "" (arg_string args k) in
  let or_else (s d : string) := if bool_decide (s = "") then d else s in
  if bool_decide (arg "approval_id" = "") then (ErrorResult "approval_id is required", b)
  else if bool_decide (arg "agent" = "") then (ErrorResult "agent is required", b)
  else if bool_decide (arg "tool" = "") then (ErrorResult "tool is required", b)
  else
    let channel := or_else (arg "channel") (an_channel t) in
    let chatID := or_else (arg "chat_id") (an_chatID t) in
    match an_sendCallback t with
    | None => (ErrorResult "notification delivery not configured", b)
    | Some send =>
        if bool_decide (channel = "") || bool_decide (chatID = "")
        then (ErrorResult "notification channel and chat_id are required", b)
        else
          match send channel chatID (approval_text (arg "agent") (arg "tool") (arg "args_summary") (arg "approval_id")) b with
          | (Some e, b) => (ErrorResult ("failed to send notification: " +:+ e), b)
          | (None, b) =>
              (SilentResult ("Approval notification sent for " +:+ arg "tool" +:+ " (ID: " +:+ arg "approval_id" +:+ ")"), b)
          end
    end.

(** The tool succeeds only when a notice that names the agent, the tool and the request
    was sent, to a channel and a chat that are not empty. *)
Lemma approval_sent args t b r b' :
  Execute_approval args t b = (r, b') → IsError r = false →
  ∃ send channel chat agent tool id summary,
    an_sendCallback t = Some send ∧ channel ≠ "" ∧ chat ≠ "" ∧
    arg_string args "agent" = Some agent ∧ arg_string args "tool" = Some tool ∧ arg_string args "approval_id" = Some id ∧
    send channel chat (approval_text agent tool summary id) b = (None, b').
Proof.
  unfold Execute_approval. case_bool_decide as H1; [by intros [= <- <-]|]. case_bool_decide as H2; [by intros [= <- <-]|].
  case_bool_decide as H3; [by intros [= <- <-]|].
  destruct (an_sendCallback t) as [send|]; [|by intros [= <- <-]].
  set (channel := if bool_decide _ then _ else _). set (chat := if bool_decide (default "" (arg_string args "chat_id") = "") then _ else _).
  destruct (bool_decide (channel = "") || bool_decide (chat = "")) eqn:Ec; [by intros [= <- <-]|].
  apply orb_false_iff in Ec as [?%bool_decide_eq_false ?%bool_decide_eq_false].
  destruct (send channel chat _ b) as [[e|] b1] eqn:Es; [by intros [= <- <-]|]. intros [= <- <-] _.
  destruct (arg_string args "approval_id") as [id|]; [|done]. destruct (arg_string args "agent") as [agent|]; [|done].
  destruct (arg_string args "tool") as [tool|]; [|done].
  exists send, channel, chat, agent, tool, id, (default "" (arg_string args "args_summary")). by split_and!.
Qed.
End Approval.
End Approval.
