(* ===== verification/MCP.v ===== *)
(** * Servers of the model context protocol (pkg/tools/mcp_client.go, mcp_registry.go)

    A client writes requests to the standard input of a process and takes the next
    line of its standard output for the answer; the tools of the server are
    registered as tools of the agent, which share the client.  That answers belong
    to their requests is a refinement: a client over the pipe of a server that
    writes one line for every request is a client that asks the server directly. *)
From stdpp Require Import base gmap strings list pretty.
From Stdlib Require Import Ascii ZArith Lia.
From S2P Require Import Prelude GoStrings ProviderTypes ToolBase.
#[local] Open Scope go_scope.
#[local] Open Scope nat_scope.

Definition mcp_nl : string := String newline_char "".

Record MCPToolInfo := mk_MCPToolInfo {
  mi_Name : string;
  mi_Description : string;
  (** [None]: the schema is null or absent. *)
  mi_InputSchema : option (gmap string json);
}.

(** What is written to the server, a line of JSON each: [jsonRPCRequest] with its
    identifier, or the notification of [notify].  A nil [Params] is left out. *)
Inductive message :=
| Request (id : Z) (method : string) (params : option json)
| Notification (method : string) (params : option json).

Record jsonRPCError := mk_jsonRPCError { re_Code : Z; re_Message : string }.

(** An answer; its result is the text of a JSON value. *)
Record jsonRPCResponse := mk_jsonRPCResponse {
  rs_ID : Z;
  rs_Result : string;
  rs_Error : option jsonRPCError;
}.

(** ** Server processes *)

(** A process in a state: a line is written to its standard input, which can fail,
    or a line is read from its standard output, which ends or fails. *)
Record process (S : Type) := mk_process {
  write_line : message → S → option string * S;
  read_line : S → result string string * S;
}.
Arguments mk_process {S}.
Arguments write_line {S}.
Arguments read_line {S}.

(** The outcome of [StdinPipe], [StdoutPipe] and [Start] for a command. *)
Inductive spawned (S : Type) :=
| StdinFailed (e : string)
| StdoutFailed (e : string)
| StartFailed (e : string)
| Started (s : S).
Arguments StdinFailed {S}.
Arguments StdoutFailed {S}.
Arguments StartFailed {S}.
Arguments Started {S}.

(** [proc]: the process while [stdin] and [stdout] are not nil. *)
Record MCPClientTool (S : Type) := mk_MCPClientTool {
  mc_name : string;
  mc_description : string;
  mc_proc : option S;
  mc_nextID : Z;
  mc_mcpTools : gmap string MCPToolInfo;
}.
Arguments mk_MCPClientTool {S}.
Arguments mc_name {S}.
Arguments mc_description {S}.
Arguments mc_proc {S}.
Arguments mc_nextID {S}.
Arguments mc_mcpTools {S}.

Definition NewMCPClientTool {S} (name description : string) : MCPClientTool S :=
  mk_MCPClientTool name description None 0 ∅.

(** The parameters of the tool that selects a tool of the server by its name. *)
Definition client_parameters : gmap string json :=
  {[ "type" := JStr "object";
     "properties" := JObj
       [("tool_name", JObj [("type", JStr "string"); ("description", JStr "Name of the MCP tool to call")]);
        ("arguments", JObj [("type", JStr "object"); ("description", JStr "Arguments for the MCP tool")])];
     "required" := JArr [JStr "tool_name"] ]}.

Section client.
Context {S : Type}.
Context (proc : process S).
(** Decoding of an answer, of the result of [tools/list] and of a tool's result: its
    blocks, each a type and a text, and whether it is an error. *)
Context (response_of_json : string → result string jsonRPCResponse).
Context (tools_of_json : string → result string (list MCPToolInfo)).
Context (result_of_json : string → option (list (string * string) * bool)).
(** The order in which a map of tools is iterated. *)
Context (order : gmap string MCPToolInfo → list (string * MCPToolInfo)).
Implicit Types (t : MCPClientTool S).

Definition set_proc (p : option S) t : MCPClientTool S :=
  mk_MCPClientTool (mc_name t) (mc_description t) p (mc_nextID t) (mc_mcpTools t).
Definition set_tools (tools : gmap string MCPToolInfo) t : MCPClientTool S :=
  mk_MCPClientTool (mc_name t) (mc_description t) (mc_proc t) (mc_nextID t) tools.

(** [stop]: the process is killed. *)
Definition stop t : MCPClientTool S := set_proc None t.

(** What the line that was read says. *)
Definition answer_of_line (line : string) : result string string :=
  match response_of_json line with
  | Err e => Err ("parse response: " +:+ e)
  | Ok resp =>
      match rs_Error resp with
      | Some e => Err ("JSON-RPC error " +:+ pretty (re_Code e) +:+ ": " +:+ re_Message e)
      | None => Ok (rs_Result resp)
      end
  end.

Definition call (method : string) (params : option json) t : result string string * MCPClientTool S :=
  match mc_proc t with
  | None => (Err "MCP server not running", t)
  | Some s =>
      let id := wrap64 (mc_nextID t + 1) in
      let t := mk_MCPClientTool (mc_name t) (mc_description t) (mc_proc t) id (mc_mcpTools t) in
      match write_line proc (Request id method params) s with
      | (Some e, s) => (Err ("write request: " +:+ e), set_proc (Some s) t)
      | (None, s) =>
          match read_line proc s with
          | (Err e, s) => (Err ("read response: " +:+ e), set_proc (Some s) t)
          | (Ok line, s) => (answer_of_line line, set_proc (Some s) t)
          end
      end
  end.

Definition notify (method : string) (params : option json) t : option string * MCPClientTool S :=
  match mc_proc t with
  | None => (Some "MCP server not running", t)
  | Some s => let '(e, s) := write_line proc (Notification method params) s in (e, set_proc (Some s) t)
  end.

Definition tools_map (tools : list MCPToolInfo) : gmap string MCPToolInfo :=
  foldl (λ m tool, <[mi_Name tool := tool]> m) ∅ tools.

Definition discoverTools t : option string * MCPClientTool S :=
  let '(r, t) := call "tools/list" None t in
  match r with
  | Err e => (Some e, t)
  | Ok text =>
      match tools_of_json text with
      | Err e => (Some ("parse tools/list: " +:+ e), t)
      | Ok tools => (None, set_tools (tools_map tools) t)
      end
  end.

Definition initialize_params : json :=
  JObj [("protocolVersion", JStr "2024-11-05"); ("capabilities", JObj []);
        ("clientInfo", JObj [("name", JStr "tinyclaw"); ("version", JStr "1.0.0")])].

Definition Start (spawn : string → list string → spawned S) (command : string) (args : list string) t :
    option string * MCPClientTool S :=
  match spawn command args with
  | StdinFailed e => (Some ("mcp stdin pipe: " +:+ e), t)
  | StdoutFailed e => (Some ("mcp stdout pipe: " +:+ e), t)
  | StartFailed e => (Some ("mcp start: " +:+ e), t)
  | Started s =>
      let '(r, t) := call "initialize" (Some initialize_params) (set_proc (Some s) t) in
      match r with
      | Err e => (Some ("mcp initialize: " +:+ e), stop t)
      | Ok _ =>
          let '(_, t) := notify "notifications/initialized" None t in
          let '(e, t) := discoverTools t in
          match e with
          | Some e => (Some ("mcp discover tools: " +:+ e), stop t)
          | None => (None, t)
          end
      end
  end.

(** The copy of the map of tools that is handed out. *)
Definition DiscoveredTools t : gmap string MCPToolInfo := mc_mcpTools t.

Definition listToolNames t : list string := (order (mc_mcpTools t)).*1.

(** The blocks of text, with line breaks between them. *)
Definition text_of_blocks (blocks : list (string * string)) : string :=
  foldl (λ sb block,
    if bool_decide (block.1 = "text")
    then (if bool_decide (sb = "") then sb else sb +:+ mcp_nl) +:+ block.2
    else sb) "" blocks.

(** The result of the tool from the text of the result of the call. *)
Definition tool_result (text : string) : ToolResult :=
  match result_of_json text with
  | None => NewToolResult text
  | Some (blocks, isError) =>
      let shown := text_of_blocks blocks in
      let shown := if bool_decide (shown = "") then text else shown in
      if isError : bool then ErrorResult shown else NewToolResult shown
  end.

Definition called_result (toolName : string) (r : result string string) : ToolResult :=
  match r with
  | Err e => ErrorResult ("MCP call " +:+ quoted toolName +:+ " failed: " +:+ e)
  | Ok text => tool_result text
  end.

(** The parameters of [tools/call]: arguments that are not an object are null. *)
Definition call_params (toolName : string) (arguments : option json) : json :=
  JObj [("name", JStr toolName);
        ("arguments", match arguments with Some (JObj kvs) => JObj kvs | _ => JNull end)].

Definition Execute (args : gmap string json) t : ToolResult * MCPClientTool S :=
  let toolName := arg_string_or_empty args "tool_name" in
  if bool_decide (toolName = "") then
    (ErrorResult "tool_name is required and must be a non-empty string", t)
  else if negb (bool_decide (is_Some (mc_mcpTools t !! toolName))) then
    (ErrorResult ("MCP tool " +:+ quoted toolName +:+ " not found. Available: " +:+ join ", " (listToolNames t)), t)
  else
    let '(r, t) := call "tools/call" (Some (call_params toolName (args !! "arguments"))) t in
    (called_result toolName r, t).

(** ** Tools of a server in the registry of an agent *)

(** The place of a client in the state [W] that tools share. *)
Class Slot (W : Type) := {
  get : W → MCPClientTool S;
  put : MCPClientTool S → W → W;
  get_put : ∀ t w, get (put t w) = t;
}.

Section registry.
Context {W C : Type} `{Slot W}.

(** The client as a tool of its own. *)
Definition client_tool (t : MCPClientTool S) : Tool W C :=
  mk_Tool (mc_name t) (mc_description t) client_parameters
    (λ args w, let '(r, t) := Execute args (get w) in (r, put t w)) None None.

(** The arguments are a map, not nil. *)
Definition proxy_execute (info : MCPToolInfo) (args : gmap string json) (w : W) : ToolResult * W :=
  let '(r, t) := Execute {[ "tool_name" := JStr (mi_Name info); "arguments" := JObj (map_to_list args) ]} (get w) in
  (r, put t w).

Definition MCPProxyTool (info : MCPToolInfo) : Tool W C :=
  mk_Tool (mi_Name info) (mi_Description info)
    (default {[ "type" := JStr "object"; "properties" := JObj [] ]} (mi_InputSchema info))
    (proxy_execute info) None None.

Definition prefixed (prefix : string) (info : MCPToolInfo) : MCPToolInfo :=
  mk_MCPToolInfo (if bool_decide (prefix = "") then mi_Name info else prefix +:+ mi_Name info)
    (mi_Description info) (mi_InputSchema info).

Definition register_all (prefix : string) (infos : list MCPToolInfo) (registry : ToolRegistry W C) :
    ToolRegistry W C :=
  foldl (λ r info, Register r (MCPProxyTool (prefixed prefix info))) registry infos.

(** The number of tools or an error, the registry, and the state with the new client. *)
Definition RegisterMCPServer (spawn : string → list string → spawned S) (registry : ToolRegistry W C)
    (name command : string) (args : list string) (prefix : string) (w : W) :
    result string nat * ToolRegistry W C * W :=
  match Start spawn command args (NewMCPClientTool name ("MCP server: " +:+ name)) with
  | (Some e, t) => (Err ("start MCP server " +:+ quoted name +:+ ": " +:+ e), registry, put t w)
  | (None, t) =>
      let discovered := (order (DiscoveredTools t)).*2 in
      (Ok (length discovered), register_all prefix discovered registry, put t w)
  end.
End registry.
End client.

(** ** Servers over a pipe *)

(** A server reacts to a message with the lines it writes, which wait in the pipe. *)
Section pipe.
Context {S : Type}.
Context (react : S → message → S * list string).

Definition piped : process (S * list string) :=
  mk_process
    (λ m '(s, q), let '(s', out) := react s m in (None, (s', q ++ out)))
    (λ '(s, q), match q with [] => (Err "EOF", (s, q)) | l :: q => (Ok l, (s, q)) end).

(** Every request is answered with one line, a notification with none. *)
Record answers_once : Prop := {
  request_answered : ∀ s id method params, ∃ s' l, react s (Request id method params) = (s', [l]);
  notification_silent : ∀ s method params, ∃ s', react s (Notification method params) = (s', []);
}.

(** The lines that answer requests made in order, the first after identifier [id]. *)
Fixpoint answer_lines (s : S) (id : Z) (reqs : list (string * option json)) : list string :=
  match reqs with
  | [] => []
  | (method, params) :: reqs =>
      let id := wrap64 (id + 1) in
      let '(s, out) := react s (Request id method params) in
      out ++ answer_lines s id reqs
  end.
End pipe.

Section pipe_properties.
Context {S : Type} (react : S → message → S * list string) (Honce : answers_once react).
Context (response_of_json : string → result string jsonRPCResponse).
Implicit Types (t : MCPClientTool (S * list string)).

#[local] Abbreviation call := (call (piped react) response_of_json).
#[local] Abbreviation answer_of_line := (answer_of_line response_of_json).

(** The results of calls made in order. *)
Fixpoint calls (reqs : list (string * option json)) t : list (result string string) :=
  match reqs with
  | [] => []
  | (method, params) :: reqs => let '(r, t) := call method params t in r :: calls reqs t
  end.

(** A call over a pipe that holds [q] takes the first line of [q], or the answer to
    its own request when [q] is empty; the pipe keeps its length. *)
Lemma call_piped method params t s q :
  mc_proc t = Some (s, q) →
  ∃ s' l, react s (Request (wrap64 (mc_nextID t + 1)) method params) = (s', [l]) ∧
    call method params t =
      (answer_of_line (hd l q),
       mk_MCPClientTool (mc_name t) (mc_description t) (Some (s', tl (q ++ [l])))
         (wrap64 (mc_nextID t + 1)) (mc_mcpTools t)).
Proof using Honce.
  intros Ht. destruct (request_answered _ Honce s (wrap64 (mc_nextID t + 1)) method params) as (s' & l & E).
  exists s', l. split; [done|]. unfold MCP.call. rewrite Ht. cbn -[wrap64]. rewrite E.
  by destruct q.
Qed.

(** Answers are taken in the order of the lines, whatever their identifiers. *)
Lemma calls_take_lines_in_order reqs : ∀ t s q,
  mc_proc t = Some (s, q) →
  calls reqs t = answer_of_line <$> take (length reqs) (q ++ answer_lines react s (mc_nextID t) reqs).
Proof using Honce.
  induction reqs as [|[method params] reqs IH]; intros t s q Ht; [done|].
  destruct (call_piped method params t s q Ht) as (s' & l & E & Ec).
  cbn [calls answer_lines length]. rewrite Ec, E.
  erewrite IH by reflexivity. cbn [mc_nextID].
  destruct q as [|x q]; [done|]. cbn. by rewrite <- (assoc_L (++)).
Qed.

(** One line that nobody asked for, such as a notification of progress: from then on
    every call gets the answer to the call before it. *)
Lemma unsolicited_line_shifts_answers reqs t s stale :
  mc_proc t = Some (s, [stale]) →
  calls reqs t = answer_of_line <$> take (length reqs) (stale :: answer_lines react s (mc_nextID t) reqs).
Proof using Honce. apply calls_take_lines_in_order. Qed.
End pipe_properties.

(** ** Properties of registration *)
Lemma tools_map_names tools : map_Forall (λ n info, mi_Name info = n) (tools_map tools).
Proof.
  unfold tools_map. assert (map_Forall (λ n info, mi_Name info = n) (∅ : gmap string MCPToolInfo)) as H
    by apply map_Forall_empty.
  revert H. generalize (∅ : gmap string MCPToolInfo).
  induction tools as [|tool tools IH]; intros m Hm; [done|]. by apply IH, map_Forall_insert_2.
Qed.

Lemma prefixed_name prefix info : mi_Name (prefixed prefix info) = prefix +:+ mi_Name info.
Proof. unfold prefixed. cbn [mi_Name]. by case_bool_decide; subst. Qed.

#[export] Instance prefix_inj (prefix : string) : Inj (=) (=) (λ name, prefix +:+ name).
Proof. intros a b H. induction prefix as [|c p IH]; [done|]. injection H as H. auto. Qed.

Section registration.
Context {S W C : Type}.
Context (proc : process S).
Context (response_of_json : string → result string jsonRPCResponse).
Context (tools_of_json : string → result string (list MCPToolInfo)).
Context (result_of_json : string → option (list (string * string) * bool)).
Context (order : gmap string MCPToolInfo → list (string * MCPToolInfo)).
Hypothesis order_perm : ∀ m, order m ≡ₚ map_to_list m.
Context `{!Slot (S := S) W}.

#[local] Abbreviation Tools := (gmap string (Tool W C)).
#[local] Abbreviation proxy := (MCPProxyTool (C := C) proc response_of_json result_of_json order).
#[local] Abbreviation Start := (Start proc response_of_json tools_of_json).
#[local] Abbreviation register_all := (register_all (C := C) proc response_of_json result_of_json order).
#[local] Abbreviation RegisterMCPServer :=
  (RegisterMCPServer (C := C) proc response_of_json tools_of_json result_of_json order).

(** Registration is an update of the registry by the tools under their names. *)
Lemma register_all_map prefix infos (r : Tools) :
  NoDup (mi_Name <$> infos) →
  register_all prefix infos r =
  list_to_map ((λ info, (prefix +:+ mi_Name info, proxy (prefixed prefix info))) <$> infos) ∪ r.
Proof using Type.
  revert r. induction infos as [|info infos IH]; intros r Hnd; csimpl in *.
  - by rewrite (left_id_L ∅ (∪)).
  - apply NoDup_cons in Hnd as [Hni Hnd].
    etrans; [by apply IH|]. unfold Register, ToolRegistry. cbn [t_Name MCPProxyTool]. rewrite prefixed_name.
    rewrite <- insert_union_r, insert_union_l; [done|].
    apply not_elem_of_list_to_map_1. rewrite <- list_fmap_compose. intros H.
    apply list_elem_of_fmap in H as (i & Hi & Hin). cbn in Hi. apply prefix_inj in Hi.
    apply Hni, list_elem_of_fmap. eauto.
Qed.

Definition names_ok (tools : gmap string MCPToolInfo) : Prop := map_Forall (λ n info, mi_Name info = n) tools.

Lemma order_names tools : names_ok tools → mi_Name <$> (order tools).*2 ≡ₚ (map_to_list tools).*1.
Proof using order_perm.
  intros Hok. rewrite order_perm. unfold names_ok in Hok.
  assert (∀ p, p ∈ map_to_list tools → mi_Name p.2 = p.1) as H.
  { intros [n info] Hin%elem_of_map_to_list. by apply (Hok n info). }
  induction (map_to_list tools) as [|p l IH]; [done|]. cbn.
  rewrite (H p) by apply elem_of_cons, or_introl, eq_refl. constructor. apply IH. set_solver.
Qed.

(** The call for the tools is the last thing that starts a server. *)
Lemma Start_names_ok spawn command args t t' :
  names_ok (mc_mcpTools t) → Start spawn command args t = (None, t') → names_ok (mc_mcpTools t').
Proof using Type.
  intros Hok. unfold MCP.Start, discoverTools. intros H. repeat case_match; simplify_eq/=; apply tools_map_names.
Qed.

Lemma registered_tools prefix tools (r : Tools) :
  names_ok tools →
  (∀ n info, tools !! n = Some info →
    register_all prefix (order tools).*2 r !! (prefix +:+ n) = Some (proxy (prefixed prefix info))) ∧
  (∀ other, (∀ n, is_Some (tools !! n) → other ≠ prefix +:+ n) →
    register_all prefix (order tools).*2 r !! other = r !! other).
Proof using order_perm.
  intros Hok. pose proof (order_names tools Hok) as Hp.
  rewrite register_all_map by (rewrite Hp; apply NoDup_fst_map_to_list).
  set (f := λ info, (prefix +:+ mi_Name info, proxy (prefixed prefix info))).
  assert (∀ name v, list_to_map (M := Tools) (f <$> (order tools).*2) !! name = Some v ↔
    ∃ n info, name = prefix +:+ n ∧ v = proxy (prefixed prefix info) ∧ tools !! n = Some info) as Hl.
  { intros name v. rewrite <- elem_of_list_to_map.
    - rewrite list_elem_of_fmap. setoid_rewrite list_elem_of_fmap. unfold f. split.
      + intros (info & [= -> ->] & [n i] & -> & Hin). rewrite order_perm in Hin.
        apply elem_of_map_to_list in Hin as Ht. pose proof (Hok n i Ht) as En. cbn in En. exists n, i. cbn. by rewrite En.
      + intros (n & info & -> & -> & Ht). exists info. rewrite (Hok n info Ht). split; [done|].
        exists (n, info). split; [done|]. rewrite order_perm. by apply elem_of_map_to_list.
    - rewrite <- list_fmap_compose.
      replace (fst ∘ f) with ((λ n, prefix +:+ n) ∘ mi_Name) by done.
      rewrite list_fmap_compose. apply NoDup_fmap_2; [apply _|]. rewrite Hp. apply NoDup_fst_map_to_list. }
  split.
  - intros n info Ht. apply (lookup_union_Some_l (M := gmap string)), Hl. by exists n, info.
  - intros other Hne. apply (lookup_union_r (M := gmap string)), eq_None_not_Some. intros [v (n & info & -> & _ & Ht)%Hl].
    by eapply Hne.
Qed.
End registration.

(** ** Using the tools of a server that answers once *)

(** What a server answers that is asked directly, without a pipe. *)
Section direct.
Context {S : Type}.
Context (react : S → message → S * list string).
Context (response_of_json : string → result string jsonRPCResponse).
Context (result_of_json : string → option (list (string * string) * bool)).

Fixpoint direct_results (s : S) (id : Z) (uses : list (string * gmap string json)) : list ToolResult :=
  match uses with
  | [] => []
  | (name, args) :: uses =>
      let id := wrap64 (id + 1) in
      let '(s, out) := react s (Request id "tools/call"
                                  (Some (call_params name (Some (JObj (map_to_list args)))))) in
      called_result result_of_json name (answer_of_line response_of_json (hd "" out))
      :: direct_results s id uses
  end.
End direct.

(** The results of tools used in order. *)
Fixpoint used_results {W C} (r : ToolRegistry W C) (channel chatID : string) (callback : option C)
    (uses : list (string * gmap string json)) (w : W) : list ToolResult :=
  match uses with
  | [] => []
  | (name, args) :: uses =>
      let '(res, w) := ExecuteWithContext r name args channel chatID callback w in
      res :: used_results r channel chatID callback uses w
  end.

Section use.
Context {S W C : Type}.
Context (react : S → message → S * list string).
Context (response_of_json : string → result string jsonRPCResponse).
Context (tools_of_json : string → result string (list MCPToolInfo)).
Context (result_of_json : string → option (list (string * string) * bool)).
Context (order : gmap string MCPToolInfo → list (string * MCPToolInfo)).
Context `{!Slot (S := S * list string) W}.

#[local] Abbreviation proc := (piped react).
#[local] Abbreviation proxy := (MCPProxyTool (C := C) proc response_of_json result_of_json order).
#[local] Abbreviation Execute := (Execute proc response_of_json result_of_json order).
#[local] Abbreviation RegisterMCPServer :=
  (RegisterMCPServer (C := C) proc response_of_json tools_of_json result_of_json order).

(** Nothing waits in the pipe of a server that has started. *)
Lemma Start_piped spawn command args t t' s0 :
  answers_once react → spawn command args = Started (s0, []) →
  Start proc response_of_json tools_of_json spawn command args t = (None, t') →
  ∃ s, mc_proc t' = Some (s, []).
Proof using Type.
  intros Honce Hs. unfold Start. rewrite Hs.
  destruct (call_piped react Honce response_of_json "initialize" (Some initialize_params)
              (set_proc (Some (s0, [])) t) s0 [] eq_refl) as (s1 & l1 & _ & ->).
  cbn -[discoverTools]. destruct (answer_of_line _ _); [|done].
  unfold notify; cbn -[discoverTools].
  destruct (notification_silent _ Honce s1 "notifications/initialized" None) as [s2 ->]. cbn -[discoverTools].
  unfold discoverTools.
  match goal with |- context [call _ _ _ _ ?t2] =>
    destruct (call_piped react Honce response_of_json "tools/list" None t2 s2 [] eq_refl) as (s3 & l3 & _ & ->)
  end.
  cbn. destruct (answer_of_line _ _); [|done]. destruct (tools_of_json _); [|done]. intros [= <-]. by eexists.
Qed.

(** One use of a tool that the server has, with nothing in the pipe. *)
Lemma Execute_known name args t s :
  answers_once react → mc_proc t = Some (s, []) → name ≠ "" → is_Some (mc_mcpTools t !! name) →
  ∃ s' l t',
    react s (Request (wrap64 (mc_nextID t + 1)) "tools/call"
               (Some (call_params name (Some (JObj (map_to_list args)))))) = (s', [l]) ∧
    Execute {[ "tool_name" := JStr name; "arguments" := JObj (map_to_list args) ]} t =
      (called_result result_of_json name (answer_of_line response_of_json l), t') ∧
    mc_proc t' = Some (s', []) ∧ mc_nextID t' = wrap64 (mc_nextID t + 1) ∧ mc_mcpTools t' = mc_mcpTools t.
Proof using Type.
  intros Honce Hp Hn Hk. unfold MCP.Execute, arg_string_or_empty, arg_string.
  rewrite lookup_insert_eq. rewrite lookup_insert_ne, lookup_singleton_eq by done. cbn [from_option id].
  rewrite !bool_decide_eq_false_2, bool_decide_eq_true_2 by done. cbn [negb].
  destruct (call_piped react Honce response_of_json "tools/call"
              (Some (call_params name (Some (JObj (map_to_list args))))) t s [] Hp) as (s' & l & E & ->).
  by exists s', l; eexists.
Qed.

(** What registration gives, when it succeeds. *)
Lemma RegisterMCPServer_ok spawn registry name command args prefix w n r w' :
  (∀ m, order m ≡ₚ map_to_list m) →
  RegisterMCPServer spawn registry name command args prefix w = (Ok n, r, w') →
  let tools := mc_mcpTools (get w') in
  Start proc response_of_json tools_of_json spawn command args
    (NewMCPClientTool name ("MCP server: " +:+ name)) = (None, get w') ∧
  n = size tools ∧
  (∀ tool info, tools !! tool = Some info → r !! (prefix +:+ tool) = Some (proxy (prefixed prefix info))) ∧
  (∀ other, (∀ tool, is_Some (tools !! tool) → other ≠ prefix +:+ tool) → r !! other = registry !! other) ∧
  names_ok tools.
Proof using Type.
  intros Ho. unfold MCP.RegisterMCPServer.
  destruct (Start _ _ _ _ _ _ _) as [[e|] t] eqn:Es; [done|]. intros [= <- <- <-].
  rewrite get_put.
  assert (names_ok (mc_mcpTools t)) as Hok by (eapply Start_names_ok; [|exact Es]; apply map_Forall_empty).
  destruct (registered_tools (C := C) proc response_of_json result_of_json order Ho prefix _ registry Hok)
    as (Hin & Hout).
  split_and!; [done| |done..].
  by rewrite length_fmap, (Permutation_length (Ho _)), length_map_to_list.
Qed.

(** A use of a registered tool is a use of the client under the registered name. *)
Lemma use_registered (r : ToolRegistry W C) info channel chatID callback args w :
  r !! mi_Name info = Some (proxy info) →
  ExecuteWithContext r (mi_Name info) args channel chatID callback w =
  (let '(res, t) := Execute {[ "tool_name" := JStr (mi_Name info); "arguments" := JObj (map_to_list args) ]} (get w)
   in (res, put t w)).
Proof using Type. intros Hr. unfold ExecuteWithContext, Get. by rewrite Hr. Qed.

Lemma uses_direct (r : ToolRegistry W C) channel chatID callback uses : ∀ w s,
  answers_once react → mc_proc (get w) = Some (s, []) →
  (∀ tool info, mc_mcpTools (get w) !! tool = Some info → mi_Name info = tool ∧ r !! tool = Some (proxy info)) →
  Forall (λ use, use.1 ≠ "" ∧ is_Some (mc_mcpTools (get w) !! use.1)) uses →
  used_results r channel chatID callback uses w =
  direct_results react response_of_json result_of_json s (mc_nextID (get w)) uses.
Proof using Type.
  induction uses as [|[name args] uses IH]; intros w s Honce Hp Hr Hu; [done|].
  apply Forall_cons in Hu as [[Hn [info Hi]] Hu]. cbn in Hn, Hi.
  destruct (Hr name info Hi) as [Hname Hreg].
  destruct (Execute_known name args (get w) s Honce Hp Hn (mk_is_Some _ _ Hi))
    as (s' & l & t' & E & Ee & Hp' & Hid & Htools).
  cbn [used_results direct_results]. rewrite E.
  rewrite <- Hname in Hreg, Ee |- *. rewrite (use_registered r info) by done. rewrite Ee.
  cbn [hd]. f_equal. rewrite (IH (put t' w) s'); rewrite ?get_put, ?Hid, ?Htools; done.
Qed.

Lemma prefixed_empty info : prefixed "" info = info.
Proof using Type. by destruct info. Qed.

(** C10: Tools of a server reach it and bring its answers back: for a server that writes
    one line for every request, once its tools are registered under their own names,
    any sequence of uses of them through the registry gives the results of asking the
    server directly, each its own answer; and nothing is left in the pipe between uses. *)
Theorem server_tools_answer spawn registry name command args w n r w' s0 channel chatID callback :
  (∀ m, order m ≡ₚ map_to_list m) → answers_once react →
  spawn command args = Started (s0, []) →
  RegisterMCPServer spawn registry name command args "" w = (Ok n, r, w') →
  ∃ s, mc_proc (get w') = Some (s, []) ∧
    ∀ uses, Forall (λ use, use.1 ≠ "" ∧ is_Some (mc_mcpTools (get w') !! use.1)) uses →
      used_results r channel chatID callback uses w' =
      direct_results react response_of_json result_of_json s (mc_nextID (get w')) uses.
Proof using Type.
  intros Ho Honce Hs HR. destruct (RegisterMCPServer_ok _ _ _ _ _ _ _ _ _ _ Ho HR) as (Es & _ & Hin & _ & Hok).
  destruct (Start_piped _ _ _ _ _ _ Honce Hs Es) as [s Hp]. exists s. split; [done|].
  intros uses Hu. apply uses_direct; [done..| |done].
  intros tool info Hi. split; [by apply (Hok tool info)|].
  rewrite <- (prefixed_empty info). by apply Hin.
Qed.

(** Under a prefix, the proxies ask the client for the prefixed name, which the server
    does not have: every use of a tool fails without asking the server. *)
Lemma prefix_makes_tools_unknown spawn registry name command args prefix w n r w' tool info channel chatID
    callback targs :
  (∀ m, order m ≡ₚ map_to_list m) →
  RegisterMCPServer spawn registry name command args prefix w = (Ok n, r, w') →
  mc_mcpTools (get w') !! tool = Some info → mc_mcpTools (get w') !! (prefix +:+ tool) = None →
  let '(res, w2) := ExecuteWithContext r (prefix +:+ tool) targs channel chatID callback w' in
  IsError res = true ∧ get w2 = get w'.
Proof using Type.
  intros Ho HR Ht Hp. destruct (RegisterMCPServer_ok _ _ _ _ _ _ _ _ _ _ Ho HR) as (_ & _ & Hin & _ & Hok).
  pose proof (Hin tool info Ht) as Hr.
  assert (mi_Name (prefixed prefix info) = prefix +:+ tool) as En
    by (rewrite prefixed_name; f_equal; by apply (Hok tool info)).
  rewrite <- En in Hr |- *. rewrite (use_registered r) by done. rewrite En.
  unfold MCP.Execute, arg_string_or_empty, arg_string.
  rewrite lookup_insert_eq. cbn [from_option id]. rewrite Hp.
  rewrite (bool_decide_eq_false_2 (is_Some None)) by by intros [? ?].
  case_bool_decide; cbn [negb]; by rewrite get_put.
Qed.
End use.

(** A server with one tool, which answers every request with its identifier. *)
Module EchoServer.
#[export] Instance client_slot : Slot (S := nat * list string) (MCPClientTool (nat * list string)) :=
  {| get := id; put t _ := t; get_put _ _ := eq_refl |}.

Definition react (s : nat) (m : message) : nat * list string :=
  match m with
  | Request id _ _ => (s + 1, ["answer " +:+ pretty id])
  | Notification _ _ => (s, [])
  end.
Definition response (line : string) : result string jsonRPCResponse := Ok (mk_jsonRPCResponse 0 line None).
Definition tools (_ : string) : result string (list MCPToolInfo) := Ok [mk_MCPToolInfo "echo" "echoes" None].
Definition blocks (text : string) : option (list (string * string) * bool) := Some ([("text", text)], false).

Definition connected (prefix : string) :
    result string nat * ToolRegistry (MCPClientTool (nat * list string)) unit * MCPClientTool (nat * list string) :=
  RegisterMCPServer (piped react) response tools blocks map_to_list (λ _ _, Started (0, []))
    NewToolRegistry "server" "echo-server" [] prefix (NewMCPClientTool "" "").

Lemma react_answers_once : answers_once react.
Proof. split; intros; repeat eexists. Qed.

Lemma server_tools_answer_witness :
  used_results (connected "").1.2 "" "" None [("echo", ∅); ("echo", ∅)] (connected "").2 =
  [NewToolResult "answer 3"; NewToolResult "answer 4"].
Proof.
  destruct (server_tools_answer react response tools blocks map_to_list (λ _ _, Started (0, []))
    NewToolRegistry "server" "echo-server" [] (NewMCPClientTool "" "") 1 (connected "").1.2 (connected "").2 0
    "" "" None) as (s & Hs & Hu).
  - intros m. reflexivity.
  - apply react_answers_once.
  - reflexivity.
  - assert ((connected "").1.1 = Ok 1) as H by (vm_compute; reflexivity).
    change (connected "" = (Ok 1, (connected "").1.2, (connected "").2)).
    revert H. generalize (connected ""). intros [[res r] w']. cbn. by intros ->.
  - rewrite Hu.
    + vm_compute in Hs. injection Hs as <-. vm_compute. reflexivity.
    + repeat constructor; cbn; try discriminate; vm_compute; eexists; reflexivity.
Defined.

(** The same server under a prefix: its tool is not found. *)
Example prefixed_echo_fails :
  ForLLM <$> used_results (connected "mcp_").1.2 "" "" None [("mcp_echo", ∅)] (connected "mcp_").2 =
  ["MCP tool " +:+ quoted "mcp_echo" +:+ " not found. Available: echo"].
Proof. vm_compute. reflexivity. Qed.
End EchoServer.
