(* ===== verification/WebText.v ===== *)
(** * Texts of web pages (pkg/tools/web.go)

    Pages are made readable by removing scripts, styles and tags and by tidying white
    space; queries are escaped for addresses.  No tag is left in what is shown of a
    page, whatever the page is, and a query is read back from its escaped form. *)
From stdpp Require Import base gmap strings list.
From Stdlib Require Import Ascii ZArith Lia.
From S2P Require Import Prelude GoStrings Paths Regex RegexReplace.
#[local] Open Scope nat_scope.

(** ** Pages *)

(** [<[^>]+>], [<script[\s\S]*?</script>] and the same for styles. *)
Definition reTag : list re := [lit "<"; plus (none_of ">"); lit ">"].
Definition reScript : list re := [lit "<script"; Lazy any_char; lit "</script>"].
Definition reStyle : list re := [lit "<style"; Lazy any_char; lit "</style>"].
(** [[^\S\n]+] and [\n{3,}]. *)
Definition blank (c : ascii) : bool := ws_class c && negb (bool_decide (c = newline)).
Definition reBlanks : list re := [plus (Cls blank)].
Definition reLines : list re := [rep 3 (Cls (λ x, bool_decide (x = newline))); Star (Cls (λ x, bool_decide (x = newline)))].

Definition removed (rs : list re) (l : list ascii) : list ascii := replace_l rs (λ _, []) l.

Definition stripTags (content : string) : string := implode (removed reTag (chars content)).

(** The lines that are not empty, without the spaces around them. *)
Definition clean_lines (result : string) : list string :=
  filter (λ line, line ≠ "") ((λ l, trim_space (implode l)) <$> split_l newline (chars result)).

Definition extractText (htmlContent : string) : string :=
  let result := removed reScript (chars htmlContent) in
  let result := removed reStyle result in
  let result := removed reTag result in
  let result := chars (trim_space (implode result)) in
  let result := replace_l reBlanks (λ _, [" "%char]) result in
  let result := replace_l reLines (λ _, [newline; newline]) result in
  join (String newline "") (clean_lines (implode result)).

Example extracts :
  extractText ("<p>A  b</p><script>if (a<b) {}</script>" +:+ String newline " <i>c</i> ") =
  "A b" +:+ String newline "c".
Proof. vm_compute. reflexivity. Qed.

(** ** Queries: [url.QueryEscape] and [url.QueryUnescape] *)
Definition unreserved (c : ascii) : bool :=
  is_lower c || is_upper c || is_digit c || bool_decide (c ∈ ["-"%char; "_"%char; "."%char; "~"%char]).
Definition hex_upper (n : nat) : ascii := default "0"%char (chars "0123456789ABCDEF" !! n).
Definition query_char (c : ascii) : list ascii :=
  if bool_decide (c = " "%char) then ["+"%char]
  else if unreserved c then [c]
  else ["%"%char; hex_upper (byte c / 16); hex_upper (byte c mod 16)].
Definition QueryEscape (s : string) : string := implode (chars s ≫= query_char).

Definition unhex (c : ascii) : option nat :=
  if is_digit c then Some (byte c - 48)
  else if in_range "a" "f" c then Some (byte c - 87)
  else if in_range "A" "F" c then Some (byte c - 55) else None.
(** [None]: an error. *)
Fixpoint query_unescape_l (l : list ascii) : option (list ascii) :=
  match l with
  | [] => Some []
  | c :: r =>
      if bool_decide (c = "%"%char) then
        match r with
        | a :: b :: r' =>
            h ← unhex a; k ← unhex b; cons (ascii_of_nat (16 * h + k)) <$> query_unescape_l r'
        | _ => None
        end
      else cons (if bool_decide (c = "+"%char) then " "%char else c) <$> query_unescape_l r
  end.
Definition QueryUnescape (s : string) : option string := implode <$> query_unescape_l (chars s).

Lemma query_char_unescaped c r :
  query_unescape_l (query_char c ++ r) = cons c <$> query_unescape_l r.
Proof.
  unfold query_char. destruct (bool_decide_reflect (c = " "%char)) as [->|Hs]; [done|].
  destruct (unreserved c) eqn:E.
  - cbn [app query_unescape_l]. rewrite !bool_decide_eq_false_2; [done| |].
    + intros ->. discriminate.
    + intros ->. discriminate.
  - assert (∀ n, n < 16 → unhex (hex_upper n) = Some n) as Hx.
    { intros n Hn. do 16 (destruct n as [|n]; [reflexivity|]). lia. }
    pose proof (nat_ascii_bounded c : byte c < 256) as Hb.
    cbn [app query_unescape_l]. rewrite (bool_decide_eq_true_2 ("%"%char = "%"%char)) by done.
    rewrite !Hx by (first [apply Nat.mod_upper_bound; lia|apply Nat.Div0.div_lt_upper_bound; lia]).
    cbn [mbind option_bind]. rewrite <- Nat.div_mod_eq. unfold byte. by rewrite ascii_nat_embedding.
Qed.

(** What a service reads back from the escaped form is the query. *)
Lemma query_round_trip s : QueryUnescape (QueryEscape s) = Some s.
Proof.
  unfold QueryUnescape, QueryEscape. rewrite chars_implode.
  assert (query_unescape_l (chars s ≫= query_char) = Some (chars s)) as ->.
  { induction (chars s) as [|c l IH]; [done|]. csimpl. by rewrite query_char_unescaped, IH. }
  cbn. by rewrite implode_chars.
Qed.

(** ** No tag is left *)

(** Every opening bracket is followed by a closing one at once, or by none. *)
Definition no_tag (l : list ascii) : Prop :=
  ∀ pre mid post, l = pre ++ "<"%char :: mid ++ ">"%char :: post → ">"%char ∉ mid → mid = [].

Lemma no_tag_infix a l b : no_tag (a ++ l ++ b) → no_tag l.
Proof.
  intros H pre mid post -> Hm. apply (H (a ++ pre) mid (post ++ b)); [|done].
  by rewrite <- !(assoc_L (++)), <- app_comm_cons, <- (assoc_L (++)).
Qed.

Lemma no_tag_cons x l : x ≠ "<"%char → no_tag l → no_tag (x :: l).
Proof.
  intros Hx H [|y pre] mid post E Hm; [by injection E as -> _|]. injection E as -> E. by apply (H pre mid post).
Qed.

Lemma tag_consumes : consumes reTag.
Proof.
  intros c ps e (c1 & ps1 & -> & E & (p & c2 & ps2 & -> & _ & E1 & (c3 & ps3 & -> & E2 & H)%parts_lit_inv)%parts_cons_inv)%parts_lit_inv.
  inversion H; subst. rewrite E, E1, E2. rewrite !length_app. cbn. lia.
Qed.

(** A tag is a match. *)
Lemma tag_matches prev mid post :
  mid ≠ [] → ">"%char ∉ mid → ∃ ps e, parts_match reTag (prev, "<"%char :: mid ++ ">"%char :: post) ps e.
Proof.
  intros Hne Hm.
  assert (Forall (λ x, negb (bool_decide (x ∈ chars ">")) = true) mid) as Hall.
  { apply list.Forall_forall. intros x Hx. apply negb_true_iff, bool_decide_eq_false.
    by intros ->%list_elem_of_singleton. }
  exists ["<"%char :: []; mid; ">"%char :: []]. eexists.
  eapply parts_cons; [exact (lit_match ["<"%char] prev _)|done|].
  eapply parts_cons; [exact (plus_class_match _ mid _ (">"%char :: post) Hne Hall)|done|].
  eapply parts_cons; [exact (lit_match [">"%char] _ post)|done|]. constructor.
Qed.

Lemma stripped_no_tag l : no_tag (removed reTag l).
Proof.
  unfold removed, replace_l. set (out := λ ts, ts ≫= replaced (λ _, [])).
  cut (no_tag (out (tokens reTag l)) ∧ (∀ x, x ∈ out (tokens reTag l) → x ∈ l) ∧
       ∀ k, l = ">"%char :: k → ∃ o, out (tokens reTag l) = ">"%char :: o); [by intros [? _]|].
  apply (tokens_ind reTag (λ c ts, no_tag (out ts) ∧ (∀ x, x ∈ out ts → x ∈ c.2) ∧
       ∀ k, c.2 = ">"%char :: k → ∃ o, out ts = ">"%char :: o)); cbn [snd].
  - intros _. split_and!; [|done|done]. intros pre mid post E. by destruct pre.
  - intros prev x k ts Hno (IH & Hin & Hhd). change (out (Plain x :: ts)) with (x :: out ts).
    split_and!; [|set_solver|intros k' [= -> _]; by eexists].
    destruct (decide (x = "<"%char)) as [->|Hx]; [|by apply no_tag_cons].
    intros [|y pre] mid post E Hm; [|injection E as <- E; exact (IH pre mid post E Hm)]. injection E as E.
    destruct (decide (">"%char ∈ k)) as [Hk|Hk]; 
      [|destruct Hk; apply Hin; rewrite E; apply elem_of_app; right; by left].
    apply list_elem_of_split_l in Hk as (m & p & -> & Hp).
    destruct (decide (m = [])) as [->|Hne].
    + destruct (Hhd p eq_refl) as [o Ho]. rewrite E in Ho. destruct mid as [|z mid]; [done|].
      injection Ho as -> _. by destruct Hm; left.
    + destruct (tag_matches prev m p Hne Hp) as (ps & e & Hps). by destruct (Hno tag_consumes ps e).
  - intros c ps e ts Hp Hlt (IH & Hin & Hhd). change (out (Matched ps :: ts)) with (out ts).
    pose proof (parts_text _ _ _ _ Hp) as Et. split_and!; [done| |].
    + intros x Hx. rewrite Et. apply elem_of_app. right. by apply Hin.
    + intros k Ek. apply parts_lit_inv in Hp as (c1 & ps1 & _ & E & _). rewrite Ek in E. done.
Qed.

(** ** Tidying white space adds no tag *)

(** A text whose white space has been replaced by other white space. *)
Definition space_only (l : list ascii) : Prop := Forall (λ x, is_space x = true) l.
Inductive squeezed : list ascii → list ascii → Prop :=
| sq_nil : squeezed [] []
| sq_keep x l k : squeezed l k → squeezed (x :: l) (x :: k)
| sq_space w v l k : w ≠ [] → space_only w → space_only v → squeezed l k → squeezed (w ++ l) (v ++ k).

#[local] Hint Constructors squeezed : tiny.

Lemma squeezed_refl l : squeezed l l.
Proof. induction l; auto with tiny. Qed.

Lemma squeezed_app l1 k1 l2 k2 : squeezed l1 k1 → squeezed l2 k2 → squeezed (l1 ++ l2) (k1 ++ k2).
Proof.
  intros H1 H2. induction H1; [done|by constructor|]. rewrite <- !(assoc_L (++)). by constructor.
Qed.

Lemma squeezed_spaces w v : w ≠ [] → space_only w → space_only v → squeezed w v.
Proof. intros. rewrite <- (app_nil_r w), <- (app_nil_r v). by constructor; [..|constructor]. Qed.

Lemma squeezed_away w : space_only w → squeezed w [].
Proof. intros H. destruct w as [|x w]; [constructor|]. by apply squeezed_spaces; [..|constructor]. Qed.

Lemma squeezed_split l k pre x post :
  squeezed l k → k = pre ++ x :: post → is_space x = false →
  ∃ pre' post', l = pre' ++ x :: post' ∧ squeezed pre' pre ∧ squeezed post' post.
Proof.
  intros H. revert pre. induction H as [|y l k H IH|w v l k Hw Hsw Hsv H IH]; intros pre E Hx.
  - by destruct pre.
  - destruct pre as [|z pre]; injection E as -> E.
    + subst k. exists [], l. auto with tiny.
    + destruct (IH pre E Hx) as (p & q & -> & Hp & Hq). exists (z :: p), q. auto with tiny.
  - apply app_eq_inv in E as [(z & -> & E)|(z & -> & E)].
    + destruct z as [|y z].
      * destruct (IH [] (eq_sym E) Hx) as (p & q & -> & Hp & Hq). exists (w ++ p), q.
        rewrite (assoc_L (++)). split_and!; [done| |done]. rewrite !app_nil_r in *.
        rewrite <- (app_nil_r pre). by constructor.
      * injection E as <- E. apply Forall_app in Hsv as [_ [Hsx _]%Forall_cons]. congruence.
    + destruct (IH z E Hx) as (p & q & -> & Hp & Hq). exists (w ++ p), q.
      rewrite (assoc_L (++)). split_and!; [done|by constructor|done].
Qed.

Lemma squeezed_elem l k x : squeezed l k → is_space x = false → x ∈ l → x ∈ k.
Proof.
  intros H Hx. induction H as [|y l k H IH|w v l k Hw Hsw Hsv H IH]; [done|set_solver|].
  intros [Hin|Hin]%elem_of_app; apply elem_of_app; [|by right; apply IH].
  unfold space_only in Hsw. rewrite list.Forall_forall in Hsw. rewrite (Hsw x Hin) in Hx. done.
Qed.

Lemma squeezed_nil k : squeezed [] k → k = [].
Proof. inversion 1 as [| |w v l' k' Hw]; subst; [done|]. by destruct w. Qed.

Lemma squeezed_no_tag l k : squeezed l k → no_tag l → no_tag k.
Proof.
  intros H Hl pre mid post E Hm.
  destruct (squeezed_split _ _ _ _ _ H E eq_refl) as (pre' & r & -> & _ & Hr).
  destruct (squeezed_split _ _ _ _ _ Hr eq_refl eq_refl) as (mid' & post' & -> & Hmid & _).
  assert (mid' = []) as ->.
  { apply (Hl pre' mid' post' eq_refl). intros Hin. by apply Hm, (squeezed_elem mid'). }
  by apply squeezed_nil.
Qed.

Lemma ws_is_space c : ws_class c = true → is_space c = true.
Proof.
  unfold ws_class, is_space. intros H%bool_decide_eq_true. revert H.
  rewrite !elem_of_cons, elem_of_nil. by intros [H|[H|[H|[H|[H|[]]]]]]; rewrite H.
Qed.

Lemma replace_squeezed rs v l :
  (∀ c ps e, parts_match rs c ps e → space_only (mjoin ps)) → space_only v →
  squeezed l (replace_l rs (λ _, v) l).
Proof.
  intros Hrs Hv. unfold replace_l.
  apply (tokens_ind rs (λ c ts, squeezed c.2 (ts ≫= replaced (λ _, v)))); cbn [snd].
  - constructor.
  - intros prev x k ts _ IH. csimpl. by constructor.
  - intros c ps e ts Hp Hlt IH. csimpl. pose proof (parts_text _ _ _ _ Hp) as E. rewrite E.
    constructor; [|by eapply Hrs|done|done]. intros Hnil. rewrite Hnil in E. rewrite E in Hlt. cbn in Hlt. lia.
Qed.

Lemma class_spaces (p : ascii → bool) l :
  (∀ x, p x = true → is_space x = true) → Forall (λ x, p x = true) l → space_only l.
Proof. intros Hp H. eapply Forall_impl; [exact H|]. exact Hp. Qed.

Lemma blanks_squeezed l : squeezed l (replace_l reBlanks (λ _, [" "%char]) l).
Proof.
  apply replace_squeezed; [|by repeat constructor].
  intros c ps e (p & c1 & ps1 & -> & (k & Ek & _ & Hk)%plus_class_chars & E & H)%parts_cons_inv.
  inversion H; subst. cbn. rewrite app_nil_r. rewrite Ek in E. apply app_inv_tail in E as <-.
  eapply class_spaces; [|exact Hk]. unfold blank. intros x [Hx _]%andb_true_iff. by apply ws_is_space.
Qed.

Lemma lines_squeezed l : squeezed l (replace_l reLines (λ _, [newline; newline]) l).
Proof.
  apply replace_squeezed; [|by repeat constructor].
  intros c ps e (p & c1 & ps1 & -> & (k & Ek & _ & Hk)%rep_class_chars & E & H)%parts_cons_inv.
  apply parts_cons_inv in H as (p2 & c2 & ps2 & -> & (k2 & Ek2 & Hk2)%star_class_chars & E2 & H).
  inversion H; subst. cbn. rewrite app_nil_r.
  rewrite Ek in E. apply app_inv_tail in E as <-. rewrite Ek2 in E2. apply app_inv_tail in E2 as <-.
  apply Forall_app. split; [eapply class_spaces; [|exact Hk]|eapply class_spaces; [|exact Hk2]];
    by intros x ->%bool_decide_eq_true.
Qed.

Lemma drop_while_split (p : ascii → bool) l :
  ∃ w, l = w ++ drop_while p l ∧ Forall (λ x, p x = true) w.
Proof.
  induction l as [|x l (w & E & Hw)]; [by exists []|]. cbn. destruct (p x) eqn:Hx.
  - exists (x :: w). split; [by rewrite E at 1|by constructor].
  - exists []. split; [done|constructor].
Qed.

Lemma trim_squeezed l : squeezed l (trim_by is_space l).
Proof.
  unfold trim_by. destruct (drop_while_split is_space l) as (w & E & Hw). rewrite E at 1.
  change (squeezed (w ++ drop_while is_space l) ([] ++ reverse (drop_while is_space (reverse (drop_while is_space l))))).
  apply squeezed_app; [by apply squeezed_away|]. set (k := drop_while is_space l).
  destruct (drop_while_split is_space (reverse k)) as (v & Ev & Hv).
  rewrite <- (reverse_involutive k) at 1. rewrite Ev at 1. rewrite reverse_app.
  rewrite <- (app_nil_r (reverse (drop_while is_space (reverse k)))) at 2.
  apply squeezed_app; [apply squeezed_refl|]. apply squeezed_away. by apply Forall_reverse.
Qed.

Lemma join_split c l : join_l c (split_l c l) = l.
Proof.
  induction l as [|x l IH]; [done|]. cbn [split_l]. pose proof (split_l_ne c l) as Hne.
  destruct (bool_decide_reflect (x = c)) as [->|Hx].
  - destruct (split_l c l) as [|p ps] eqn:E; [done|]. cbn. f_equal. exact IH.
  - destruct (split_l c l) as [|p ps] eqn:E; [done|]. rewrite <- IH. by destruct ps.
Qed.

(** Cleaning lines and joining them again. *)
Lemma cleaned_squeezed ls :
  squeezed (join_l newline ls)
    (chars (join (String newline "") (filter (λ line, line ≠ "") ((λ l, trim_space (implode l)) <$> ls)))).
Proof.
  induction ls as [|p ls IH]; [constructor|].
  assert (squeezed p (chars (trim_space (implode p)))) as Hp
    by (rewrite chars_trim_space, chars_implode; apply trim_squeezed).
  rewrite fmap_cons, filter_cons. destruct ls as [|q ls].
  { case_decide as Ht; [exact Hp|]. by rewrite Ht in Hp. }
  remember (filter (λ line, line ≠ "") ((λ l, trim_space (implode l)) <$> q :: ls)) as rest eqn:Hrest. clear Hrest.
  change (join_l newline (p :: q :: ls)) with (p ++ [newline] ++ join_l newline (q :: ls)).
  assert (space_only [newline]) as Hn by by repeat constructor.
  case_decide as Ht.
  - destruct rest as [|r rest'].
    + cbn [join]. rewrite <- (app_nil_r (chars (trim_space (implode p)))).
      apply squeezed_app; [done|]. change [] with ([] ++ @nil ascii). apply squeezed_app; [by apply squeezed_away|done].
    + change (join (String newline "") (trim_space (implode p) :: r :: rest')) with
        (trim_space (implode p) +:+ String newline "" +:+ join (String newline "") (r :: rest')).
      rewrite !chars_app. apply squeezed_app; [done|]. cbn [chars]. by apply squeezed_app; [apply squeezed_refl|].
  - rewrite Ht in Hp.
    change (chars (join (String newline "") rest)) with ([] ++ [] ++ chars (join (String newline "") rest)).
    apply squeezed_app; [done|]. apply squeezed_app; [by apply squeezed_away|done].
Qed.

(** C27: The text of a page holds no tag: whatever the page is, in what [extractText] gives
    no opening bracket is followed by a closing one with something between them. *)
Theorem extracted_text_no_tags (htmlContent : string) (pre mid post : list ascii) :
  chars (extractText htmlContent) = pre ++ "<"%char :: mid ++ ">"%char :: post → ">"%char ∉ mid → mid = [].
Proof.
  assert (no_tag (chars (extractText htmlContent))) as H; [|by apply H].
  unfold extractText, clean_lines. rewrite !chars_implode.
  eapply squeezed_no_tag; [apply cleaned_squeezed|]. rewrite join_split.
  eapply squeezed_no_tag; [apply lines_squeezed|]. eapply squeezed_no_tag; [apply blanks_squeezed|].
  rewrite chars_trim_space, chars_implode. eapply squeezed_no_tag; [apply trim_squeezed|].
  apply stripped_no_tag.
Qed.

Lemma extracted_text_no_tags_witness :
  extractText "a <> b<c >" = "a <> b" ∧ @nil ascii = [].
Proof.
  assert (extractText "a <> b<c >" = "a <> b") as E by (vm_compute; reflexivity).
  split; [exact E|]. apply (extracted_text_no_tags "a <> b<c >" (chars "a ") [] (chars " b")).
  - rewrite E. reflexivity.
  - apply not_elem_of_nil.
Defined.
