(* ===== verification/WebTools.v ===== *)
(** * Searching and fetching the web (pkg/tools/web.go)

    The services that are searched, the tool that searches with one of them, and the
    tool that fetches a page.  Requests over HTTP, parsing of addresses and the
    encoding and decoding of JSON are parameters. *)
From stdpp Require Import base gmap strings list pretty.
From Stdlib Require Import Ascii ZArith Lia.
From S2P Require Import Prelude GoStrings ProviderTypes Regex RegexReplace ToolBase WebText.
#[local] Open Scope go_scope.
#[local] Open Scope nat_scope.

Definition wnl : string := String newline "".
Definition in_quotes (s : string) : string := String quote (s +:+ String quote "").

Definition userAgent : string :=
  "Mozilla/5.0 (Windows NT 10.0; Win64; x64) AppleWebKit/537.36 (KHTML, like Gecko) Chrome/120.0.0.0 Safari/537.36".

(** ** Requests *)

(** [url.URL], as far as it is read. *)
Record URL := mk_URL { u_Scheme : string; u_Host : string }.

Inductive proxy_of := ProxyFromEnvironment | ProxyURL (proxy : string).

(** [hc_CheckRedirect]: the error for a number of redirects so far; [None] for the
    default policy. *)
Record http_client := mk_http_client {
  hc_Timeout : duration;
  hc_Proxy : proxy_of;
  hc_CheckRedirect : option (nat → option string);
}.

Record request := mk_request {
  rq_Method : string;
  rq_URL : string;
  rq_Headers : list (string * string);
  rq_Body : string;
}.

(** A body is read, or reading fails. *)
Record response := mk_response {
  rp_StatusCode : Z;
  rp_ContentType : string;
  rp_Body : result string string;
}.

Record search_result := mk_search_result { sr_Title : string; sr_URL : string; sr_Text : string }.

(** What the tools use of other packages: parsing addresses, making a request (an
    error or not), performing it, and JSON. *)
Record web_env := mk_web_env {
  we_Parse : string → result string URL;
  we_NewRequest : request → option string;
  we_Do : http_client → request → result string response;
  we_Marshal : json → string;
  we_MarshalIndent : list (string * json) → result string string;
  we_indented : string → option string;
  we_brave_results : string → result string (list search_result);
  we_tavily_results : string → result string (list search_result);
  we_perplexity_choices : string → result string (list string);
}.

Section web.
Context (E : web_env).

Definition createHTTPClient (proxyURL : string) (timeout : duration) : result string http_client :=
  if bool_decide (proxyURL = "") then Ok (mk_http_client timeout ProxyFromEnvironment None)
  else
    match we_Parse E proxyURL with
    | Err e => Err ("invalid proxy URL: " +:+ e)
    | Ok proxy =>
        if negb (bool_decide (to_lower (u_Scheme proxy) ∈ ["http"; "https"; "socks5"; "socks5h"]))
        then Err ("unsupported proxy scheme " +:+ quoted (u_Scheme proxy) +:+ " (supported: http, https, socks5, socks5h)")
        else if bool_decide (u_Host proxy = "") then Err "invalid proxy URL: missing host"
        else Ok (mk_http_client timeout (ProxyURL proxyURL) None)
    end.

(** What all searches do with their request: the status and the body. *)
Definition perform (proxy : string) (timeout : duration) (req : request) : result string (Z * string) :=
  match we_NewRequest E req with
  | Some e => Err ("failed to create request: " +:+ e)
  | None =>
      match createHTTPClient proxy timeout with
      | Err e => Err ("failed to create HTTP client: " +:+ e)
      | Ok client =>
          match we_Do E client req with
          | Err e => Err ("request failed: " +:+ e)
          | Ok resp =>
              match rp_Body resp with
              | Err e => Err ("failed to read response: " +:+ e)
              | Ok body => Ok (rp_StatusCode resp, body)
              end
          end
      end
  end.

(** ** Results as text *)

(** The loop over the results, which stops at [count]; [i] is the index of the next. *)
Fixpoint result_lines (count : Z) (i : nat) (items : list search_result) : list string :=
  match items with
  | [] => []
  | item :: items =>
      if (count <=? Z.of_nat i)%Z then []
      else (pretty (S i) +:+ ". " +:+ sr_Title item +:+ wnl +:+ "   " +:+ sr_URL item)
           :: (if bool_decide (sr_Text item = "") then [] else ["   " +:+ sr_Text item])
           ++ result_lines count (S i) items
  end.

Definition shown_results (query via : string) (count : Z) (results : list search_result) : string :=
  if bool_decide (results = []) then "No results for: " +:+ query
  else join wnl (("Results for: " +:+ query +:+ via) :: result_lines count 0 results).

Definition decoded (results : result string (list search_result)) (show : list search_result → string) :
    result string string :=
  match results with
  | Err e => Err ("failed to parse response: " +:+ e)
  | Ok results => Ok (show results)
  end.

(** ** Brave and Tavily *)
Definition brave_Search (apiKey proxy query : string) (count : Z) : result string string :=
  let searchURL := "https://api.search.brave.com/res/v1/web/search?q=" +:+ QueryEscape query +:+ "&count=" +:+ pretty count in
  let? (_, body) := perform proxy (10 * second)%Z
    (mk_request "GET" searchURL [("Accept", "application/json"); ("X-Subscription-Token", apiKey)] "") in
  decoded (we_brave_results E body) (shown_results query "" count).

Definition tavily_Search (apiKey baseURL proxy query : string) (count : Z) : result string string :=
  let searchURL := if bool_decide (baseURL = "") then "https://api.tavily.com/search" else baseURL in
  let payload := JObj [("api_key", JStr apiKey); ("query", JStr query); ("search_depth", JStr "advanced");
                       ("include_answer", JBool false); ("include_images", JBool false);
                       ("include_raw_content", JBool false); ("max_results", JNum count)] in
  let? (status, body) := perform proxy (10 * second)%Z
    (mk_request "POST" searchURL [("Content-Type", "application/json"); ("User-Agent", userAgent)] (we_Marshal E payload)) in
  if negb (status =? 200)%Z then Err ("tavily api error (status " +:+ pretty status +:+ "): " +:+ body)
  else decoded (we_tavily_results E body) (shown_results query " (via Tavily)" count).

(** ** DuckDuckGo: results are taken from the HTML *)

(** A link of class [result__a]: its address is part 9, its title part 13. *)
Definition in_value : re := Star (Cls (λ x, negb (bool_decide (x = quote)))).
Definition in_tag : re := Star (none_of ">").
Definition reLinkDDG : list re :=
  [lit "<a"; in_tag; lit ("class=" +:+ String quote ""); in_value; lit "result__a"; in_value; lit (String quote "");
   in_tag; lit ("href=" +:+ String quote ""); plus (Cls (λ x, negb (bool_decide (x = quote)))); lit (String quote "");
   in_tag; lit ">"; Lazy any_char; lit "</a>"].
(** A snippet: its text is part 5. *)
Definition reSnippet : list re :=
  [lit ("<a class=" +:+ String quote "result__snippet"); in_value; lit (String quote ""); Lazy dot; lit ">";
   Lazy any_char; lit "</a>"].

(** [FindAllStringSubmatch(html, n)]: at most [n], all when it is negative. *)
Definition at_most {A} (n : Z) (l : list A) : list A := if (n <? 0)%Z then l else take (Z.to_nat n) l.

Definition shown_text (group : list ascii) : string := trim_space (stripTags (implode group)).

(** The address behind [uddg=], when the link is one of the service itself. *)
Definition target_url (urlStr : string) : string :=
  if contains urlStr "uddg=" then
    match QueryUnescape urlStr with
    | Some u => match index u "uddg=" with Some i => str_drop (i + 5) u | None => urlStr end
    | None => urlStr
    end
  else urlStr.

(** The items, each a link with its title and the snippet at the same place. *)
Definition ddg_items (html : string) (count : Z) : list search_result :=
  let links := at_most (count + 5) (find_groups reLinkDDG (chars html)) in
  let snippets := at_most (count + 5) (find_groups reSnippet (chars html)) in
  imap (λ i ps, mk_search_result (shown_text (part 13 ps)) (target_url (implode (part 9 ps)))
          (match snippets !! i with Some sn => shown_text (part 5 sn) | None => "" end))
    (take (Z.to_nat count) links).

Definition extractResults (html : string) (count : Z) (query : string) : string :=
  if bool_decide (at_most (count + 5) (find_groups reLinkDDG (chars html)) = [])
  then "No results found or extraction failed. Query: " +:+ query
  else join wnl (("Results for: " +:+ query +:+ " (via DuckDuckGo)") :: result_lines count 0 (ddg_items html count)).

Definition ddg_Search (proxy query : string) (count : Z) : result string string :=
  let? (_, body) := perform proxy (10 * second)%Z
    (mk_request "GET" ("https://html.duckduckgo.com/html/?q=" +:+ QueryEscape query) [("User-Agent", userAgent)] "") in
  Ok (extractResults body count query).

(** ** Perplexity *)
Definition perplexity_system : string :=
  "You are a search assistant. Provide concise search results with titles, URLs, and brief descriptions in the following format:"
  +:+ wnl +:+ "1. Title" +:+ wnl +:+ "   URL" +:+ wnl +:+ "   Description" +:+ wnl +:+ wnl
  +:+ "Do not add extra commentary.".
Definition chat_message (role content : string) : json := JObj [("role", JStr role); ("content", JStr content)].

Definition perplexity_Search (apiKey proxy query : string) (count : Z) : result string string :=
  let payload := JObj [("model", JStr "sonar");
    ("messages", JArr [chat_message "system" perplexity_system;
       chat_message "user" ("Search for: " +:+ query +:+ ". Provide up to " +:+ pretty count +:+ " relevant results.")]);
    ("max_tokens", JNum 1000)] in
  let? (status, body) := perform proxy (30 * second)%Z
    (mk_request "POST" "https://api.perplexity.ai/chat/completions"
       [("Content-Type", "application/json"); ("Authorization", "Bearer " +:+ apiKey); ("User-Agent", userAgent)]
       (we_Marshal E payload)) in
  if negb (status =? 200)%Z then Err ("perplexity API error: " +:+ body)
  else
    match we_perplexity_choices E body with
    | Err e => Err ("failed to parse response: " +:+ e)
    | Ok [] => Ok ("No results for: " +:+ query)
    | Ok (content :: _) => Ok ("Results for: " +:+ query +:+ " (via Perplexity)" +:+ wnl +:+ content)
    end.

(** ** The tool web_search *)
Inductive SearchProvider :=
| BraveSearchProvider (apiKey proxy : string)
| TavilySearchProvider (apiKey baseURL proxy : string)
| DuckDuckGoSearchProvider (proxy : string)
| PerplexitySearchProvider (apiKey proxy : string).

Definition Search (p : SearchProvider) (query : string) (count : Z) : result string string :=
  match p with
  | BraveSearchProvider apiKey proxy => brave_Search apiKey proxy query count
  | TavilySearchProvider apiKey baseURL proxy => tavily_Search apiKey baseURL proxy query count
  | DuckDuckGoSearchProvider proxy => ddg_Search proxy query count
  | PerplexitySearchProvider apiKey proxy => perplexity_Search apiKey proxy query count
  end.

Record WebSearchToolOptions := mk_WebSearchToolOptions {
  wo_BraveAPIKey : string;
  wo_BraveMaxResults : Z;
  wo_BraveEnabled : bool;
  wo_TavilyAPIKey : string;
  wo_TavilyBaseURL : string;
  wo_TavilyMaxResults : Z;
  wo_TavilyEnabled : bool;
  wo_DuckDuckGoMaxResults : Z;
  wo_DuckDuckGoEnabled : bool;
  wo_PerplexityAPIKey : string;
  wo_PerplexityMaxResults : Z;
  wo_PerplexityEnabled : bool;
  wo_Proxy : string;
}.

Record WebSearchTool := mk_WebSearchTool { ws_provider : SearchProvider; ws_maxResults : Z }.

Definition max_results (n : Z) : Z := if (0 <? n)%Z then n else 5%Z.
Definition has_key (enabled : bool) (key : string) : bool := enabled && negb (bool_decide (key = "")).

Definition NewWebSearchTool (o : WebSearchToolOptions) : option WebSearchTool :=
  let proxy := wo_Proxy o in
  if has_key (wo_PerplexityEnabled o) (wo_PerplexityAPIKey o) then
    Some (mk_WebSearchTool (PerplexitySearchProvider (wo_PerplexityAPIKey o) proxy) (max_results (wo_PerplexityMaxResults o)))
  else if has_key (wo_BraveEnabled o) (wo_BraveAPIKey o) then
    Some (mk_WebSearchTool (BraveSearchProvider (wo_BraveAPIKey o) proxy) (max_results (wo_BraveMaxResults o)))
  else if has_key (wo_TavilyEnabled o) (wo_TavilyAPIKey o) then
    Some (mk_WebSearchTool (TavilySearchProvider (wo_TavilyAPIKey o) (wo_TavilyBaseURL o) proxy)
            (max_results (wo_TavilyMaxResults o)))
  else if wo_DuckDuckGoEnabled o then
    Some (mk_WebSearchTool (DuckDuckGoSearchProvider proxy) (max_results (wo_DuckDuckGoMaxResults o)))
  else None.

(** The count that is asked for, when it is from 1 to 10. *)
Definition search_count (t : WebSearchTool) (args : gmap string json) : Z :=
  match args !! "count" with
  | Some (JNum c) => if (0 <? c)%Z && (c <=? 10)%Z then c else ws_maxResults t
  | _ => ws_maxResults t
  end.

Definition search_Execute (t : WebSearchTool) (args : gmap string json) : ToolResult :=
  match arg_string args "query" with
  | None => ErrorResult "query is required"
  | Some query =>
      match Search (ws_provider t) query (search_count t args) with
      | Err e => ErrorResult ("search failed: " +:+ e)
      | Ok text => UserResult text
      end
  end.

Definition search_parameters : gmap string json :=
  {[ "type" := JStr "object";
     "properties" := JObj
       [("query", JObj [("type", JStr "string"); ("description", JStr "Search query")]);
        ("count", JObj [("type", JStr "integer"); ("description", JStr "Number of results (1-10)");
                        ("minimum", JNum 1); ("maximum", JNum 10)])];
     "required" := JArr [JStr "query"] ]}.

(** The tool does not change the state that tools share. *)
Definition web_search {W C : Type} (t : WebSearchTool) : Tool W C :=
  mk_Tool "web_search"
    "Search the web for current information. Returns titles, URLs, and snippets from search results."
    search_parameters (λ args w, (search_Execute t args, w)) None None.

(** ** The tool web_fetch *)
Record WebFetchTool := mk_WebFetchTool { wf_maxChars : Z; wf_proxy : string }.

(** [NewWebFetchTool] is the case of an empty proxy. *)
Definition NewWebFetchToolWithProxy (maxChars : Z) (proxy : string) : WebFetchTool :=
  mk_WebFetchTool (if (maxChars <=? 0)%Z then 50000 else maxChars)%Z proxy.
Definition NewWebFetchTool (maxChars : Z) : WebFetchTool := NewWebFetchToolWithProxy maxChars "".

Definition fetch_limit (t : WebFetchTool) (args : gmap string json) : Z :=
  match args !! "maxChars" with
  | Some (JNum mc) => if (100 <? mc)%Z then mc else wf_maxChars t
  | _ => wf_maxChars t
  end.

Definition stop_redirects (via : nat) : option string :=
  if 5 <=? via then Some "stopped after 5 redirects" else None.

(** The address that may be fetched; an error otherwise. *)
Definition checked_url (urlStr : string) : result string string :=
  match we_Parse E urlStr with
  | Err e => Err ("invalid URL: " +:+ e)
  | Ok u =>
      if negb (bool_decide (u_Scheme u = "http")) && negb (bool_decide (u_Scheme u = "https"))
      then Err "only http/https URLs are allowed"
      else if bool_decide (u_Host u = "") then Err "missing domain in URL"
      else Ok urlStr
  end.

Definition fetch_page (t : WebFetchTool) (urlStr : string) : result string (Z * string * string) :=
  let req := mk_request "GET" urlStr [("User-Agent", userAgent)] "" in
  match we_NewRequest E req with
  | Some e => Err ("failed to create request: " +:+ e)
  | None =>
      match createHTTPClient (wf_proxy t) (60 * second)%Z with
      | Err e => Err ("failed to create HTTP client: " +:+ e)
      | Ok client =>
          match we_Do E (mk_http_client (hc_Timeout client) (hc_Proxy client) (Some stop_redirects)) req with
          | Err e => Err ("request failed: " +:+ e)
          | Ok resp =>
              match rp_Body resp with
              | Err e => Err ("failed to read response: " +:+ e)
              | Ok body => Ok (rp_StatusCode resp, rp_ContentType resp, body)
              end
          end
      end
  end.

(** The text of a body and how it was had. *)
Definition page_text (contentType body : string) : string * string :=
  if contains contentType "application/json" then
    match we_indented E body with Some text => (text, "json") | None => (body, "raw") end
  else if contains contentType "text/html"
          || negb (bool_decide (body = ""))
             && (has_prefix body "<!DOCTYPE" || has_prefix (to_lower body) "<html")
  then (extractText body, "text")
  else (body, "raw").

Definition truncate (limit : Z) (text : string) : string * bool :=
  if (limit <? Z.of_nat (String.length text))%Z then (str_take (Z.to_nat limit) text, true) else (text, false).

Definition bool_text (b : bool) : string := if b then "true" else "false".

Definition fetched_result (urlStr : string) (status : Z) (extractor text : string) (truncated : bool) : ToolResult :=
  let n := Z.of_nat (String.length text) in
  match we_MarshalIndent E
          [("url", JStr urlStr); ("status", JNum status); ("extractor", JStr extractor); ("truncated", JBool truncated);
           ("length", JNum n); ("text", JStr text)] with
  | Err e => ErrorResult ("failed to marshal fetch result: " +:+ e)
  | Ok resultJSON =>
      mk_ToolResult ("Fetched " +:+ pretty n +:+ " bytes from " +:+ urlStr +:+ " (extractor: " +:+ extractor
                       +:+ ", truncated: " +:+ bool_text truncated +:+ ")")
        resultJSON false false false None
  end.

Definition fetch_Execute (t : WebFetchTool) (args : gmap string json) : ToolResult :=
  match arg_string args "url" with
  | None => ErrorResult "url is required"
  | Some urlStr =>
      match checked_url urlStr with
      | Err e => ErrorResult e
      | Ok urlStr =>
          match fetch_page t urlStr with
          | Err e => ErrorResult e
          | Ok (status, contentType, body) =>
              let '(text, extractor) := page_text contentType body in
              let '(text, truncated) := truncate (fetch_limit t args) text in
              fetched_result urlStr status extractor text truncated
          end
      end
  end.

Definition fetch_parameters : gmap string json :=
  {[ "type" := JStr "object";
     "properties" := JObj
       [("url", JObj [("type", JStr "string"); ("description", JStr "URL to fetch")]);
        ("maxChars", JObj [("type", JStr "integer"); ("description", JStr "Maximum characters to extract");
                           ("minimum", JNum 100)])];
     "required" := JArr [JStr "url"] ]}.

Definition web_fetch {W C : Type} (t : WebFetchTool) : Tool W C :=
  mk_Tool "web_fetch"
    "Fetch a URL and extract readable content (HTML to text). Use this to get weather info, news, articles, or any web content."
    fetch_parameters (λ args w, (fetch_Execute t args, w)) None None.
End web.

(** ** What the tools do *)
Section web_properties.
Context (E : web_env).

(** The lines of results are those of the first [count]. *)
Lemma result_lines_take count i items :
  result_lines count i items = result_lines count i (take (Z.to_nat (count - Z.of_nat i)) items).
Proof.
  revert i. induction items as [|item items IH]; intros i; [by rewrite take_nil|].
  cbn [result_lines]. destruct (Z.leb_spec count (Z.of_nat i)) as [Hle|Hlt].
  - replace (Z.to_nat (count - Z.of_nat i)) with 0 by lia. done.
  - replace (Z.to_nat (count - Z.of_nat i)) with (S (Z.to_nat (count - Z.of_nat (S i)))) by lia.
    cbn [take result_lines]. rewrite (proj2 (Z.leb_gt _ _)) by done. by rewrite <- IH.
Qed.

(** At most [count] results are shown, each in one line or two. *)
Lemma result_lines_bound count i items :
  length (result_lines count i items) ≤ 2 * Z.to_nat (count - Z.of_nat i).
Proof.
  revert i. induction items as [|item items IH]; intros i; cbn [result_lines]; [cbn; lia|].
  destruct (Z.leb_spec count (Z.of_nat i)) as [Hle|Hlt]; [cbn; lia|].
  cbn [length]. rewrite length_app. specialize (IH (S i)). case_bool_decide; cbn [length]; lia.
Qed.

Lemma search_count_bounds t args : (0 < ws_maxResults t)%Z → (0 < search_count t args ≤ Z.max 10 (ws_maxResults t))%Z.
Proof.
  unfold search_count. intros H. destruct (args !! "count") as [[]|]; try lia.
  destruct (_ && _) eqn:E1; bool_nums; lia.
Qed.

(** The count of a tool that is made is positive. *)
Lemma NewWebSearchTool_max o t : NewWebSearchTool o = Some t → (0 < ws_maxResults t)%Z.
Proof.
  unfold NewWebSearchTool, max_results. intros H.
  repeat (case_match; simplify_eq/=; bool_nums; try lia).
Qed.

(** A page that is fetched is the answer to one request, for an address of http or https
    with a host, and what is kept of its text is a prefix within the limit. *)
Lemma fetch_Execute_ok t args :
  IsError (fetch_Execute E t args) = false →
  ∃ urlStr u status contentType body text,
    arg_string args "url" = Some urlStr ∧ we_Parse E urlStr = Ok u ∧
    (u_Scheme u = "http" ∨ u_Scheme u = "https") ∧ u_Host u ≠ "" ∧
    fetch_page E t urlStr = Ok (status, contentType, body) ∧
    text = (truncate (fetch_limit t args) (page_text E contentType body).1).1 ∧
    fetch_Execute E t args =
      fetched_result E urlStr status (page_text E contentType body).2 text
        (truncate (fetch_limit t args) (page_text E contentType body).1).2.
Proof.
  unfold fetch_Execute. destruct (arg_string args "url") as [urlStr|]; [|done]. unfold checked_url.
  destruct (we_Parse E urlStr) as [u|] eqn:Ep; [|done].
  destruct (bool_decide_reflect (u_Scheme u = "http")) as [H1|H1];
    destruct (bool_decide_reflect (u_Scheme u = "https")) as [H2|H2]; cbn [negb andb]; try done.
  all: destruct (bool_decide_reflect (u_Host u = "")) as [H3|H3]; [done|].
  all: destruct (fetch_page E t urlStr) as [[[status ct] body]|] eqn:Ef; [|done].
  all: destruct (page_text E ct body) as [text0 ext] eqn:Ex; destruct (truncate _ _) as [text tr] eqn:Et.
  all: intros _; exists urlStr, u, status, ct, body, text; rewrite Ex; cbn [fst snd]; rewrite Et; cbn [fst snd].
  all: split_and!; auto.
Qed.

Lemma truncate_spec limit text :
  (0 < limit)%Z → (Z.of_nat (String.length (truncate limit text).1) ≤ limit)%Z ∧
  chars (truncate limit text).1 `prefix_of` chars text ∧
  ((truncate limit text).2 = false → (truncate limit text).1 = text).
Proof.
  intros Hl. unfold truncate. destruct (Z.ltb_spec limit (Z.of_nat (String.length text))); cbn [fst snd].
  - split_and!; [|unfold str_take; rewrite chars_implode; apply prefix_take|done].
    rewrite <- length_chars. unfold str_take. rewrite chars_implode, length_take. lia.
  - split_and!; [done|done|done].
Qed.

(** The limit is positive for a tool that was made, and one that is asked for is used
    when it is more than 100. *)
Lemma fetch_limit_pos n proxy args : (0 < fetch_limit (NewWebFetchToolWithProxy n proxy) args)%Z.
Proof.
  unfold fetch_limit, NewWebFetchToolWithProxy. cbn [wf_maxChars].
  destruct (args !! "maxChars") as [[]|]; destruct (Z.leb_spec n 0); try lia.
  all: match goal with |- context [Z.ltb 100 ?m] => destruct (Z.ltb_spec 100 m); lia end.
Qed.

(** ** Where the tools depart from what they mean to do *)

(** The model is told the length of a page, not its text. *)
Lemma page_not_for_model urlStr status extractor text1 text2 truncated :
  String.length text1 = String.length text2 →
  is_ok (we_MarshalIndent E
    [("url", JStr urlStr); ("status", JNum status); ("extractor", JStr extractor); ("truncated", JBool truncated);
     ("length", JNum (Z.of_nat (String.length text1))); ("text", JStr text1)]) = true →
  is_ok (we_MarshalIndent E
    [("url", JStr urlStr); ("status", JNum status); ("extractor", JStr extractor); ("truncated", JBool truncated);
     ("length", JNum (Z.of_nat (String.length text2))); ("text", JStr text2)]) = true →
  ForLLM (fetched_result E urlStr status extractor text1 truncated) =
  ForLLM (fetched_result E urlStr status extractor text2 truncated).
Proof.
  intros Hl. unfold fetched_result. rewrite Hl.
  destruct (we_MarshalIndent E _); [|done]. by destruct (we_MarshalIndent E _).
Qed.

(** The status of an answer of Brave plays no part. *)
Lemma brave_ignores_status apiKey proxy query count status body :
  perform E proxy (10 * second)%Z
    (mk_request "GET" ("https://api.search.brave.com/res/v1/web/search?q=" +:+ QueryEscape query +:+ "&count=" +:+ pretty count)
       [("Accept", "application/json"); ("X-Subscription-Token", apiKey)] "") = Ok (status, body) →
  we_brave_results E body = Ok [] →
  brave_Search E apiKey proxy query count = Ok ("No results for: " +:+ query).
Proof. intros Hp Hb. unfold brave_Search. rewrite Hp. cbn. by rewrite Hb. Qed.
End web_properties.

(** Tags in capitals are not recognised as scripts. *)
Example capital_scripts_shown : extractText "<SCRIPT>steal()</SCRIPT>" = "steal()".
Proof. vm_compute. reflexivity. Qed.

Definition ddg_link (href title : string) : string :=
  "<a class=" +:+ in_quotes "result__a" +:+ " href=" +:+ in_quotes href +:+ ">" +:+ title +:+ "</a>".
Definition ddg_snippet (text : string) : string :=
  "<a class=" +:+ in_quotes "result__snippet" +:+ ">" +:+ text +:+ "</a>".

(** Without a snippet of its own, a result is shown with that of the next. *)
Example snippets_misaligned :
  ddg_items (ddg_link "http://a" "A" +:+ ddg_link "http://b" "B" +:+ ddg_snippet "about B") 5 =
  [mk_search_result "A" "http://a" "about B"; mk_search_result "B" "http://b" ""].
Proof. vm_compute. reflexivity. Qed.

(** What follows the address in a link of the service stays with it. *)
Example tracking_kept : target_url "//duckduckgo.com/l/?uddg=http%3A%2F%2Fa%2F&rut=0" = "http://a/&rut=0".
Proof. vm_compute. reflexivity. Qed.
