(* ===== verification/FileTools.v ===== *)
(** * File tools (pkg/tools/filesystem.go, edit.go)

    The sandboxed file system of the agent's file tools, over a tree of files,
    directories and symbolic links; reading, writing, listing, editing and
    appending; the path checks of restricted tools.  [os.Root] follows links
    but never leaves its root; [os.Rename] replaces the name it is given.
    Permissions are not represented. *)
From stdpp Require Import base gmap strings list sorting pretty.
From Stdlib Require Import Ascii ZArith Lia.
From S2P Require Import Prelude GoStrings ProviderTypes Paths ToolBase.

(** ** The file system *)
Inductive entry := EFile (data : string) | EDir | ELink (target : string).

(** Entries by the components of their absolute path; the root exists always. *)
Abbreviation fsys := (gmap (list comp) entry) (only parsing).

Definition entry_at (fs : fsys) (p : list comp) : option entry :=
  if bool_decide (p = []) then Some EDir else fs !! p.

Definition is_dir (e : option entry) : bool :=
  match e with Some EDir => true | _ => false end.

Inductive errno := ENOENT | ENOTDIR | EISDIR | EEXIST | ELOOP | EINVAL | EESCAPE.

#[export] Instance errno_eq_dec : EqDecision errno.
Proof. solve_decision. Defined.

Definition errno_text (e : errno) : string :=
  match e with
  | ENOENT => "no such file or directory"
  | ENOTDIR => "not a directory"
  | EISDIR => "is a directory"
  | EEXIST => "file exists"
  | ELOOP => "too many levels of symbolic links"
  | EINVAL => "invalid argument"
  | EESCAPE => "path escapes from parent"
  end.

(** Go errors of the file tools: a text, and the system error [%w] wraps.  The
    path that a [PathError] repeats in its text is left out. *)
Record ferror := mk_ferror { fe_text : string; fe_sys : option errno }.
Definition fnew (text : string) : ferror := mk_ferror text None.
Definition fsyserr (e : errno) : ferror := mk_ferror (errno_text e) (Some e).
Definition fwrap (prefix : string) (e : ferror) : ferror :=
  mk_ferror (prefix +:+ ": " +:+ fe_text e) (fe_sys e).
(** [os.IsNotExist(err)], [errors.Is(err, fs.ErrNotExist)]. *)
Definition IsNotExist (e : ferror) : bool := bool_decide (fe_sys e = Some ENOENT).

Definition skip_comp (p : comp) : bool := bool_decide (p = []) || bool_decide (p = dot_comp).

(** Following a path from the root directory, links included: the real path.
    [links] bounds the links followed ([filepath.EvalSymlinks]: 255). *)
Fixpoint resolve (links : nat) (fs : fsys) : list comp → list comp → result errno (list comp) :=
  fix go cur todo :=
    match todo with
    | [] => Ok cur
    | p :: rest =>
        if skip_comp p then go cur rest
        else if bool_decide (p = dotdot) then go (removelast cur) rest
        else
          match fs !! (cur ++ [p]) with
          | Some EDir => go (cur ++ [p]) rest
          | Some (EFile _) => if bool_decide (rest = []) then Ok (cur ++ [p]) else Err ENOTDIR
          | Some (ELink t) =>
              match links with
              | O => Err ELOOP
              | S l => resolve l fs (if IsAbs t then [] else cur) (split_l slash (chars t) ++ rest)
              end
          | None => Err ENOENT
          end
    end.

Definition EvalSymlinks (fs : fsys) (path : string) : result errno (list comp) :=
  resolve 255 fs [] (split_l slash (chars path)).

(** ** The operating system's view and [os.Root]

    A view of the tree: the program's own ([confined] false: paths start at the
    root or at the working directory, links may lead anywhere), or an [os.Root]
    ([confined]: paths are below [v_root], and neither [..] nor an absolute
    link leaves it). *)
Record view := mk_view {
  v_confined : bool;
  v_links : nat;            (* the links followed before [ELOOP] *)
  v_root : list comp;
  v_start : list comp;      (* where a relative path starts, below [v_root] *)
}.

(** Linux follows 40 links, [os.Root] 8. *)
Definition host_view (cwd : list comp) : view := mk_view false 40 [] cwd.
Definition root_view (root : list comp) : view := mk_view true 8 root [].

(** The path from [cur] along [todo], components below the root; the entry it
    ends at may be absent.  [follow]: whether a link there is followed. *)
Fixpoint walk (confined follow : bool) (links : nat) (fs : fsys) (root : list comp) :
    list comp → list comp → result errno (list comp) :=
  fix go cur todo :=
    match todo with
    | [] => Ok cur
    | p :: rest =>
        if skip_comp p then go cur rest
        else if bool_decide (p = dotdot) then
          if confined && bool_decide (cur = []) then Err EESCAPE else go (removelast cur) rest
        else
          match fs !! (root ++ cur ++ [p]) with
          | Some EDir => go (cur ++ [p]) rest
          | Some (EFile _) => if bool_decide (rest = []) then Ok (cur ++ [p]) else Err ENOTDIR
          | Some (ELink t) =>
              if negb follow && bool_decide (rest = []) then Ok (cur ++ [p])
              else match links with
                   | O => Err ELOOP
                   | S l =>
                       if confined && IsAbs t then Err EESCAPE
                       else walk confined follow l fs root (if IsAbs t then [] else cur)
                              (split_l slash (chars t) ++ rest)
                   end
          | None => if bool_decide (rest = []) then Ok (cur ++ [p]) else Err ENOENT
          end
    end.

Definition start_of (v : view) (path : string) : list comp :=
  if negb (v_confined v) && IsAbs path then [] else v_start v.

Definition view_path (follow : bool) (fs : fsys) (v : view) (path : string) :
    result errno (list comp) :=
  match walk (v_confined v) follow (v_links v) fs (v_root v) (start_of v path)
          (split_l slash (chars path)) with
  | Ok q => Ok (v_root v ++ q)
  | Err e => Err e
  end.

Definition sys_ReadFile (fs : fsys) (v : view) (path : string) : result errno string :=
  match view_path true fs v path with
  | Err e => Err e
  | Ok p => match entry_at fs p with
            | Some (EFile d) => Ok d
            | Some EDir => Err EISDIR
            | _ => Err ENOENT
            end
  end.

(** [os.Stat] succeeds. *)
Definition sys_Stat (fs : fsys) (v : view) (path : string) : bool :=
  match view_path true fs v path with
  | Ok p => bool_decide (is_Some (entry_at fs p))
  | Err _ => false
  end.

(** Opened with [O_CREATE|O_TRUNC]. *)
Definition sys_WriteFile (fs : fsys) (v : view) (path data : string) : fsys * option errno :=
  match view_path true fs v path with
  | Err e => (fs, Some e)
  | Ok p => if is_dir (entry_at fs p) then (fs, Some EISDIR) else (<[p := EFile data]> fs, None)
  end.

(** Of a file or link. *)
Definition sys_Remove (fs : fsys) (v : view) (path : string) : fsys :=
  match view_path false fs v path with
  | Err _ => fs
  | Ok p => if is_dir (entry_at fs p) then fs else delete p fs
  end.

(** Of a file, over a file, a link or an absent name. *)
Definition sys_Rename (fs : fsys) (v : view) (old_path new_path : string) :
    fsys * option errno :=
  match view_path false fs v old_path, view_path false fs v new_path with
  | Err e, _ | _, Err e => (fs, Some e)
  | Ok p, Ok q =>
      match fs !! p with
      | None => (fs, Some ENOENT)
      | Some n => if is_dir (entry_at fs q) then (fs, Some EEXIST)
                  else (<[q := n]> (delete p fs), None)
      end
  end.

(** [MkdirAll].  [os.Root] creates the missing directories behind a link inside
    the path; [os.MkdirAll] wants every link to lead to a directory. *)
Fixpoint mkdirs (confined : bool) (links : nat) (root : list comp) :
    fsys → list comp → list comp → fsys * option errno :=
  fix go fs cur todo :=
    match todo with
    | [] => (fs, None)
    | p :: rest =>
        if skip_comp p then go fs cur rest
        else if bool_decide (p = dotdot) then
          if confined && bool_decide (cur = []) then (fs, Some EESCAPE)
          else go fs (removelast cur) rest
        else
          match fs !! (root ++ cur ++ [p]) with
          | Some EDir => go fs (cur ++ [p]) rest
          | Some (EFile _) => (fs, Some ENOTDIR)
          | Some (ELink t) =>
              if negb confined || bool_decide (rest = []) then
                match walk confined true links fs root cur [p] with
                | Err e => (fs, Some e)
                | Ok q => if is_dir (entry_at fs (root ++ q)) then go fs q rest
                          else (fs, Some EEXIST)
                end
              else match links with
                   | O => (fs, Some ELOOP)
                   | S l => if IsAbs t then (fs, Some EESCAPE)
                            else mkdirs confined l root fs cur (split_l slash (chars t) ++ rest)
                   end
          | None => go (<[root ++ cur ++ [p] := EDir]> fs) (cur ++ [p]) rest
          end
    end.

Definition sys_MkdirAll (fs : fsys) (v : view) (path : string) : fsys * option errno :=
  mkdirs (v_confined v) (v_links v) (v_root v) fs (start_of v path) (split_l slash (chars path)).

(** [fs.ReadDir]: the entries directly below [p], each with whether it is a
    directory, sorted by name. *)
Definition name_le (a b : string * bool) : Prop := String.leb a.1 b.1 = true.
#[export] Instance name_le_dec : RelDecision name_le.
Proof. intros a b. unfold name_le. apply _. Defined.

Definition dir_entries (fs : fsys) (p : list comp) : list (string * bool) :=
  merge_sort name_le
    (omap (λ '(q, e), if negb (bool_decide (q = [])) && bool_decide (removelast q = p)
                     then Some (implode (default [] (last q)), is_dir (Some e)) else None)
      (map_to_list fs)).

Definition sys_ReadDir (fs : fsys) (v : view) (path : string) :
    result errno (list (string * bool)) :=
  match view_path true fs v path with
  | Err e => Err e
  | Ok p => match entry_at fs p with
            | Some EDir => Ok (dir_entries fs p)
            | Some _ => Err ENOTDIR
            | None => Err ENOENT
            end
  end.

(** ** Path checks *)
Definition Abs (cwd p : string) : string := if IsAbs p then Clean p else Join cwd p.

(** [isWithinWorkspace]. *)
Definition isWithinWorkspace (candidate workspace : string) : bool :=
  match Rel (Clean workspace) (Clean candidate) with
  | Some rel => IsLocal rel
  | None => false
  end.

(** The path given by components from the root. *)
Definition abs_path (q : list comp) : string := implode (render true q).

(** [resolveExistingAncestor]: from a path's components to those of its nearest
    ancestor that resolves. *)
Fixpoint resolve_ancestor (fs : fsys) (rev_path : list comp) : result errno string :=
  match EvalSymlinks fs (abs_path (reverse rev_path)) with
  | Ok q => Ok (abs_path q)
  | Err ENOENT => match rev_path with
                  | [] => Err ENOENT
                  | _ :: rest => resolve_ancestor fs rest
                  end
  | Err e => Err e
  end.
Definition resolveExistingAncestor (fs : fsys) (path : string) : result errno string :=
  resolve_ancestor fs (reverse (norm (chars path))).

Definition denied_link : ferror := fnew "access denied: symlink resolves outside workspace".

Definition validatePath (fs : fsys) (cwd path workspace : string) (restrict : bool) :
    result ferror string :=
  if bool_decide (workspace = "") then Err (fnew "workspace is not defined")
  else
    let absWorkspace := Abs cwd workspace in
    let absPath := if IsAbs path then Clean path else Abs cwd (Join absWorkspace path) in
    if negb restrict then Ok absPath
    else if negb (isWithinWorkspace absPath absWorkspace)
    then Err (fnew "access denied: path is outside the workspace")
    else
      let workspaceReal := match EvalSymlinks fs absWorkspace with
                           | Ok q => abs_path q | Err _ => absWorkspace end in
      match EvalSymlinks fs absPath with
      | Ok q => if isWithinWorkspace (abs_path q) workspaceReal then Ok absPath
                else Err denied_link
      | Err ENOENT =>
          match resolveExistingAncestor fs (Dir absPath) with
          | Ok parent => if isWithinWorkspace parent workspaceReal then Ok absPath
                         else Err denied_link
          | Err ENOENT => Ok absPath
          | Err e => Err (fwrap "failed to resolve path" (fsyserr e))
          end
      | Err e => Err (fwrap "failed to resolve path" (fsyserr e))
      end.

Definition getSafeRelPath (workspace path : string) : result ferror string :=
  if bool_decide (workspace = "") then Err (fnew "workspace is not defined")
  else
    let check rel := if IsLocal rel then Ok rel
                     else Err (fnew ("path escapes workspace: " +:+ path)) in
    let rel := Clean path in
    if IsAbs rel then
      match Rel workspace rel with
      | Some r => check r
      | None => Err (fnew ("failed to calculate relative path: Rel: can't make " +:+ rel
                           +:+ " relative to " +:+ workspace))
      end
    else check rel.

(** ** The file systems of the tools

    The interface [fileSystem] of the tools; a file system's state [S] holds
    the tree and the clock that names temporary files. *)
Class fileSystem (S : Type) := {
  ReadFile : S → string → result ferror string;
  WriteFile : S → string → string → S * option ferror;
  ReadDir : S → string → result ferror (list (string * bool));
}.

(** [fmt.Sprintf("%s.%d.tmp", path, nanos)]. *)
Definition tmp_name (path : string) (nanos : Z) : string := path +:+ "." +:+ pretty nanos +:+ ".tmp".

(** Write to the temporary name, then rename it over the target; the temporary
    file is removed when either fails. *)
Definition write_then_rename (write_msg rename_msg : string) (fs : fsys) (v : view) (nanos : Z)
    (path data : string) : fsys * option ferror :=
  let tmpPath := tmp_name path nanos in
  match sys_WriteFile fs v tmpPath data with
  | (fs, Some e) => (sys_Remove fs v tmpPath, Some (fwrap write_msg (fsyserr e)))
  | (fs, None) =>
      match sys_Rename fs v tmpPath path with
      | (fs, Some e) => (sys_Remove fs v tmpPath, Some (fwrap rename_msg (fsyserr e)))
      | (fs, None) => (fs, None)
      end
  end.

Definition read_error (e : errno) : ferror :=
  if bool_decide (e = ENOENT) then fwrap "failed to read file: file not found" (fsyserr e)
  else if contains (errno_text e) "escapes from parent"
  then fwrap "failed to read file: access denied" (fsyserr e)
  else fwrap "failed to read file" (fsyserr e).

Record hostFs := mk_hostFs { h_fs : fsys; h_nanos : Z; h_cwd : list comp }.

Definition host_ReadFile (h : hostFs) (path : string) : result ferror string :=
  match sys_ReadFile (h_fs h) (host_view (h_cwd h)) path with
  | Ok d => Ok d
  | Err e => Err (read_error e)
  end.

Definition host_WriteFile (h : hostFs) (path data : string) : hostFs * option ferror :=
  let v := host_view (h_cwd h) in
  let '(fs, err) :=
    match sys_MkdirAll (h_fs h) v (Dir path) with
    | (fs, Some e) => (fs, Some (fwrap "failed to create parent directories" (fsyserr e)))
    | (fs, None) => write_then_rename "failed to write temp file" "failed to replace original file"
                      fs v (h_nanos h) path data
    end in
  (mk_hostFs fs (h_nanos h) (h_cwd h), err).

Definition host_ReadDir (h : hostFs) (path : string) : result ferror (list (string * bool)) :=
  match sys_ReadDir (h_fs h) (host_view (h_cwd h)) path with
  | Ok l => Ok l
  | Err e => Err (fsyserr e)
  end.

#[export] Instance host_fileSystem : fileSystem hostFs :=
  {| ReadFile := host_ReadFile; WriteFile := host_WriteFile; ReadDir := host_ReadDir |}.

Record sandboxFs := mk_sandboxFs {
  s_fs : fsys;
  s_nanos : Z;
  s_cwd : list comp;
  s_workspace : string;
}.

(** [os.OpenRoot]: the directory the workspace leads to. *)
Definition OpenRoot (fs : fsys) (cwd : list comp) (workspace : string) :
    result errno (list comp) :=
  match view_path true fs (host_view cwd) workspace with
  | Err e => Err e
  | Ok p => match entry_at fs p with
            | Some EDir => Ok p
            | Some _ => Err ENOTDIR
            | None => Err ENOENT
            end
  end.

(** [execute]: the root and the safe relative path, or why there is none. *)
Definition execute (s : sandboxFs) (path : string) : result ferror (list comp * string) :=
  if bool_decide (s_workspace s = "") then Err (fnew "workspace is not defined")
  else
    match OpenRoot (s_fs s) (s_cwd s) (s_workspace s) with
    | Err e => Err (fwrap "failed to open workspace" (fsyserr e))
    | Ok root =>
        match getSafeRelPath (s_workspace s) path with
        | Err e => Err e
        | Ok relPath => Ok (root, relPath)
        end
    end.

Definition sandbox_ReadFile (s : sandboxFs) (path : string) : result ferror string :=
  match execute s path with
  | Err e => Err e
  | Ok (root, relPath) =>
      match sys_ReadFile (s_fs s) (root_view root) relPath with
      | Ok d => Ok d
      | Err e => Err (read_error e)
      end
  end.

Definition sandbox_WriteFile (s : sandboxFs) (path data : string) : sandboxFs * option ferror :=
  match execute s path with
  | Err e => (s, Some e)
  | Ok (root, relPath) =>
      let v := root_view root in
      let dir := Dir relPath in
      let '(fs, err) :=
        match (if negb (bool_decide (dir = ".")) && negb (bool_decide (dir = "/"))
               then sys_MkdirAll (s_fs s) v dir else (s_fs s, None)) with
        | (fs, Some e) => (fs, Some (fwrap "failed to create parent directories" (fsyserr e)))
        | (fs, None) =>
            write_then_rename "failed to write to temp file"
              "failed to rename temp file over target" fs v (s_nanos s) relPath data
        end in
      (mk_sandboxFs fs (s_nanos s) (s_cwd s) (s_workspace s), err)
  end.

Definition sandbox_ReadDir (s : sandboxFs) (path : string) :
    result ferror (list (string * bool)) :=
  match execute s path with
  | Err e => Err e
  | Ok (root, relPath) =>
      match sys_ReadDir (s_fs s) (root_view root) relPath with
      | Ok l => Ok l
      | Err e => Err (fsyserr e)
      end
  end.

#[export] Instance sandbox_fileSystem : fileSystem sandboxFs :=
  {| ReadFile := sandbox_ReadFile; WriteFile := sandbox_WriteFile; ReadDir := sandbox_ReadDir |}.

(** What the constructors of the tools pick: the sandbox or the host. *)
Inductive tool_fs := Sandboxed (s : sandboxFs) | Hosted (h : hostFs).

Definition select_fs (fs : fsys) (nanos : Z) (cwd : list comp) (workspace : string)
    (restrict : bool) : tool_fs :=
  if restrict then Sandboxed (mk_sandboxFs fs nanos cwd workspace)
  else Hosted (mk_hostFs fs nanos cwd).

#[export] Instance tool_fileSystem : fileSystem tool_fs :=
  {| ReadFile t path := match t with Sandboxed s => ReadFile s path | Hosted h => ReadFile h path end;
     WriteFile t path data :=
       match t with
       | Sandboxed s => let '(s, e) := WriteFile s path data in (Sandboxed s, e)
       | Hosted h => let '(h, e) := WriteFile h path data in (Hosted h, e)
       end;
     ReadDir t path := match t with Sandboxed s => ReadDir s path | Hosted h => ReadDir h path end |}.

(** ** The tools, over any file system *)
Section tools.
Context {S : Type} `{!fileSystem S}.
Implicit Types (s : S) (args : gmap string json).

(** An operation that writes, and its result. *)
Abbreviation edits := (S * ToolResult)%type.

Definition ReadFileTool_Execute s args : ToolResult :=
  match arg_string args "path" with
  | None => ErrorResult "path is required"
  | Some path => match ReadFile s path with
                 | Err e => ErrorResult (fe_text e)
                 | Ok content => NewToolResult content
                 end
  end.

Definition finish (done_text : string) (r : S * option ferror) : edits :=
  match r with
  | (s, Some e) => (s, ErrorResult (fe_text e))
  | (s, None) => (s, SilentResult done_text)
  end.

Definition WriteFileTool_Execute s args : edits :=
  match arg_string args "path", arg_string args "content" with
  | None, _ => (s, ErrorResult "path is required")
  | _, None => (s, ErrorResult "content is required")
  | Some path, Some content => finish ("File written: " +:+ path) (WriteFile s path content)
  end.

Definition formatDirEntries (entries : list (string * bool)) : ToolResult :=
  NewToolResult (foldl (λ acc '(name, dir),
    acc +:+ (if (dir : bool) then "DIR:  " else "FILE: ") +:+ name +:+ String newline_char "")
    "" entries).

Definition ListDirTool_Execute s args : ToolResult :=
  let path := default "." (arg_string args "path") in
  match ReadDir s path with
  | Err e => ErrorResult ("failed to read directory: " +:+ fe_text e)
  | Ok entries => formatDirEntries entries
  end.

(** [strings.Count] for a non-empty text: occurrences that do not overlap. *)
Fixpoint count_l (fuel : nat) (p l : list ascii) : nat :=
  match fuel with
  | O => 0
  | Datatypes.S n => match index_l p l with
             | None => 0
             | Some i => 1 + count_l n p (drop (i + length p) l)
             end
  end.
Definition str_count (text sub : string) : nat :=
  if bool_decide (sub = "") then Datatypes.S (rune_count text)
  else count_l (Datatypes.S (String.length text)) (chars sub) (chars text).

(** [strings.Replace(s, old, new, 1)] when [old] occurs. *)
Definition replace_first (text old new : string) : string :=
  match index text old with
  | None => text
  | Some i => str_take i text +:+ new +:+ str_drop (i + String.length old) text
  end.

Definition replaceEditContent (content oldText newText : string) : result ferror string :=
  if negb (contains content oldText)
  then Err (fnew "old_text not found in file. Make sure it matches exactly")
  else
    let count := str_count content oldText in
    if 1 <? count
    then Err (fnew ("old_text appears " +:+ pretty count
                    +:+ " times. Please provide more context to make it unique"))
    else Ok (replace_first content oldText newText).

Definition editFile s (path oldText newText : string) : S * option ferror :=
  match ReadFile s path with
  | Err e => (s, Some e)
  | Ok content =>
      match replaceEditContent content oldText newText with
      | Err e => (s, Some e)
      | Ok newContent => WriteFile s path newContent
      end
  end.

Definition appendFile s (path appendContent : string) : S * option ferror :=
  match ReadFile s path with
  | Ok content => WriteFile s path (content +:+ appendContent)
  | Err e => if IsNotExist e then WriteFile s path appendContent else (s, Some e)
  end.

Definition EditFileTool_Execute s args : edits :=
  match arg_string args "path", arg_string args "old_text", arg_string args "new_text" with
  | None, _, _ => (s, ErrorResult "path is required")
  | _, None, _ => (s, ErrorResult "old_text is required")
  | _, _, None => (s, ErrorResult "new_text is required")
  | Some path, Some oldText, Some newText =>
      finish ("File edited: " +:+ path) (editFile s path oldText newText)
  end.

Definition AppendFileTool_Execute s args : edits :=
  match arg_string args "path", arg_string args "content" with
  | None, _ => (s, ErrorResult "path is required")
  | _, None => (s, ErrorResult "content is required")
  | Some path, Some content => finish ("Appended to " +:+ path) (appendFile s path content)
  end.

(** The tools as the registry holds them; [C] is the type of callbacks. *)
Context {C : Type}.

Definition reads (f : S → gmap string json → ToolResult) args s : ToolResult * S := (f s args, s).
Definition writes (f : S → gmap string json → edits) args s : ToolResult * S :=
  let '(s', r) := f s args in (r, s').

Definition ReadFileTool : Tool S C :=
  mk_Tool "read_file" "Read the contents of a file"
    (string_parameters [("path", "Path to the file to read")] ["path"])
    (reads ReadFileTool_Execute) None None.

Definition WriteFileTool : Tool S C :=
  mk_Tool "write_file" "Write content to a file"
    (string_parameters [("path", "Path to the file to write");
                        ("content", "Content to write to the file")] ["path"; "content"])
    (writes WriteFileTool_Execute) None None.

Definition ListDirTool : Tool S C :=
  mk_Tool "list_dir" "List files and directories in a path"
    (string_parameters [("path", "Path to list")] ["path"])
    (reads ListDirTool_Execute) None None.

Definition EditFileTool : Tool S C :=
  mk_Tool "edit_file"
    "Edit a file by replacing old_text with new_text. The old_text must exist exactly in the file."
    (string_parameters [("path", "The file path to edit");
                        ("old_text", "The exact text to find and replace");
                        ("new_text", "The text to replace with")] ["path"; "old_text"; "new_text"])
    (writes EditFileTool_Execute) None None.

Definition AppendFileTool : Tool S C :=
  mk_Tool "append_file" "Append content to the end of a file"
    (string_parameters [("path", "The file path to append to");
                        ("content", "The content to append")] ["path"; "content"])
    (writes AppendFileTool_Execute) None None.
End tools.

(** ** The path checks *)
Lemma isWithin_spec a b :
  IsAbs a = true → IsAbs b = true →
  isWithinWorkspace a b = true ↔ norm (chars b) `prefix_of` norm (chars a).
Proof.
  intros Ha Hb. unfold isWithinWorkspace, Rel, Clean, IsLocal, IsAbs in *. rewrite !chars_implode.
  rewrite <-(norm_Clean (chars a)), <-(norm_Clean (chars b)).
  rewrite <-Rel_local by (by rewrite IsAbs_Clean).
  destruct (Rel_l _ _); simpl; [by rewrite chars_implode|done].
Qed.

Lemma IsAbs_Clean_s p : IsAbs (Clean p) = IsAbs p.
Proof. unfold IsAbs, Clean. rewrite chars_implode. apply IsAbs_Clean. Qed.

Lemma norm_Clean_s p : norm (chars (Clean p)) = norm (chars p).
Proof. unfold Clean. rewrite chars_implode. apply norm_Clean. Qed.

(** Where a path of a tool leads, lexically: from the root of the tree. *)
Definition lexical_target (workspace path : string) : list comp :=
  norm (chars (if IsAbs path then path else workspace +:+ "/" +:+ path)).

Lemma norm_under ws rel :
  IsAbs ws = true → IsAbs rel = false → head (norm (chars rel)) ≠ Some dotdot →
  norm (chars (ws +:+ "/" +:+ rel)) = norm (chars ws) ++ norm (chars rel).
Proof.
  intros Hw Ha Hh. rewrite !chars_app. change (chars "/" ++ chars rel) with (slash :: chars rel).
  rewrite norm_join_rel by done. f_equal. unfold norm. f_equal.
  unfold IsAbs, IsAbs_l in *. apply bool_decide_eq_true in Hw. rewrite Hw.
  destruct (chars ws); [done|]. simpl in *. by rewrite Hw.
Qed.

Lemma Rel_target ws p r :
  IsAbs ws = true → IsAbs p = true → Rel ws p = Some r → IsLocal r = true →
  norm (chars ws) ++ norm (chars r) = norm (chars p).
Proof.
  intros Hw Hp Hr Hl. unfold Rel in Hr. apply fmap_Some in Hr as (r' & Hr & ->).
  unfold IsLocal in Hl. rewrite chars_implode in *. unfold IsAbs in *.
  pose proof (proj1 (Rel_local (chars ws) (chars p) Hw Hp)) as Hpre. rewrite Hr in Hpre.
  destruct (Hpre Hl) as [m Hm]. clear Hpre.
  unfold Rel_l in Hr. destruct (bool_decide_reflect (Clean_l (chars p) = Clean_l (chars ws))) as [E|E].
  { simplify_eq. apply Clean_eq_iff in E; [|congruence]. rewrite E. apply app_nil_r. }
  rewrite Hw, Hp in Hr. simpl in Hr.
  rewrite (bool_decide_eq_false_2 (Clean_l (chars p) = dot_comp)) in Hr.
  2:{ intros Hd. pose proof (IsAbs_Clean (chars p)) as H. rewrite Hd, Hp in H. done. }
  destruct (strip_common _ _) as [b t] eqn:Es.
  apply strip_common_spec in Es as (k & Hnb & Hnt & Hdiff).
  case_bool_decide as Hbd; [done|]. simplify_eq.
  rewrite Hnb, Hnt, <-app_assoc in Hm. apply app_inv_head in Hm. subst t.
  destruct b as [|x b]; [|by destruct (Hdiff x x)].
  rewrite app_nil_r in Hnb. simpl in Hnt |- *. rewrite Hnt, Hnb. f_equal.
  assert (Forall ordinary m) as Hom.
  { pose proof (rooted_ordinary _ Hp) as H. rewrite Hnt in H. by apply Forall_app in H as [_ H]. }
  assert (m ≠ []) as Hm0.
  { intros ->. apply E, Clean_eq_iff; [congruence|]. by rewrite Hnt, Hnb, app_nil_r. }
  assert (cleaned false m) as Hc by (by exists 0, m).
  rewrite <-(norm_render false m Hc) at 2. unfold render. by rewrite bool_decide_eq_false_2.
Qed.

Lemma IsLocal_Clean p :
  IsAbs p = false → IsLocal (Clean p) = true ↔ head (norm (chars p)) ≠ Some dotdot.
Proof.
  intros Ha. unfold IsLocal, Clean, IsAbs in *. rewrite chars_implode, IsLocal_spec.
  rewrite norm_Clean, IsAbs_Clean, Ha. split; [by intros (_&_&?)|]. intros H.
  split_and!; [done| |done]. unfold Clean_l. rewrite Ha. unfold render.
  case_bool_decide as E; [done|].
  pose proof (cleaned_free _ _ (norm_cleaned (chars p))) as Hf.
  destruct (norm (chars p)); [done|]. inversion_clear Hf as [|? ? [? _] _]. by apply join_l_ne.
Qed.

Lemma getSafeRelPath_abs ws path :
  IsAbs ws = true → IsAbs path = true →
  is_ok (getSafeRelPath ws path) = true ↔ norm (chars ws) `prefix_of` norm (chars path).
Proof.
  intros Hw Hp. unfold getSafeRelPath. rewrite bool_decide_false by (by intros ->).
  pose proof (IsAbs_Clean_s path) as Hc. rewrite Hp in Hc. rewrite Hc. unfold Rel, IsLocal.
  rewrite <-(norm_Clean_s path), <-(Rel_local _ _ Hw Hc).
  destruct (Rel_l _ _) as [r|]; simpl; [|done]. rewrite chars_implode. by destruct (IsLocal_l r).
Qed.

Lemma getSafeRelPath_rel ws path :
  IsAbs ws = true → IsAbs path = false →
  is_ok (getSafeRelPath ws path) = true ↔ head (norm (chars path)) ≠ Some dotdot.
Proof.
  intros Hw Hp. unfold getSafeRelPath. rewrite bool_decide_false by (by intros ->).
  rewrite IsAbs_Clean_s, Hp, <-IsLocal_Clean by done. by destruct (IsLocal (Clean path)).
Qed.

Lemma getSafeRelPath_target ws path rel :
  IsAbs ws = true → getSafeRelPath ws path = Ok rel →
  IsLocal rel = true ∧ lexical_target ws path = norm (chars ws) ++ norm (chars rel).
Proof.
  intros Hw. unfold getSafeRelPath. rewrite bool_decide_false by (by intros ->).
  rewrite IsAbs_Clean_s. unfold lexical_target. destruct (IsAbs path) eqn:Hp.
  - destruct (Rel ws (Clean path)) as [r|] eqn:Er; [|done].
    destruct (IsLocal r) eqn:El; [|done]. intros [= <-]. split; [done|].
    rewrite (Rel_target _ _ _ Hw ltac:(by rewrite IsAbs_Clean_s) Er El).
    by rewrite norm_Clean_s.
  - destruct (IsLocal (Clean path)) eqn:El; [|done]. intros [= <-]. split; [done|].
    rewrite norm_Clean_s. apply norm_under; [done|done|]. by apply IsLocal_Clean.
Qed.

(** A sandboxed path names what it says and stays below the workspace.  For
    an absolute workspace, a path is accepted exactly when it is absolute and
    its components extend the workspace's, or relative and does not climb out
    lexically; the relative path handed to [os.Root] is local, and from the
    workspace leads to the same place as the given path. *)
Lemma safe_rel_path_correct (workspace path : string) (Hw : IsAbs workspace = true) :
  (is_ok (getSafeRelPath workspace path) = true ↔
     if IsAbs path then norm (chars workspace) `prefix_of` norm (chars path)
     else head (norm (chars path)) ≠ Some dotdot)
  ∧ ∀ rel, getSafeRelPath workspace path = Ok rel →
      IsLocal rel = true
      ∧ lexical_target workspace path = norm (chars workspace) ++ norm (chars rel).
Proof.
  split; [|intros rel; by apply getSafeRelPath_target].
  destruct (IsAbs path) eqn:Hp; [by apply getSafeRelPath_abs|by apply getSafeRelPath_rel].
Qed.

Lemma safe_rel_path_correct_witness :
  getSafeRelPath "/home/a" "/home/a/../a/x/./y" = Ok "x/y" ∧
  is_ok (getSafeRelPath "/home/a" "../b") = false ∧
  lexical_target "/home/a" "/home/a/../a/x/./y" = norm (chars "/home/a") ++ norm (chars "x/y").
Proof.
  split; [vm_compute; reflexivity|]. split; [vm_compute; reflexivity|].
  refine (proj2 (proj2 (safe_rel_path_correct "/home/a" "/home/a/../a/x/./y" _) "x/y" _));
    vm_compute; reflexivity.
Defined.

Lemma IsAbs_Abs cwd p : IsAbs cwd = true → IsAbs (Abs cwd p) = true.
Proof.
  intros Hc. unfold Abs. destruct (IsAbs p) eqn:E; [by rewrite IsAbs_Clean_s|].
  unfold Join. rewrite bool_decide_false by (by intros ->). rewrite IsAbs_Clean_s.
  unfold IsAbs, IsAbs_l in *. rewrite chars_app. by destruct (chars cwd).
Qed.

Lemma validatePath_abs fs cwd path workspace restrict p :
  IsAbs cwd = true → validatePath fs cwd path workspace restrict = Ok p → IsAbs p = true.
Proof.
  intros Hc. unfold validatePath. case_bool_decide; [done|]. cbv zeta.
  set (absPath := if IsAbs path then _ else _). intros H'.
  assert (p = absPath) as -> by (repeat case_match; by simplify_eq).
  unfold absPath. destruct (IsAbs path) eqn:E; [by rewrite IsAbs_Clean_s|by apply IsAbs_Abs].
Qed.

(** What a restricted [validatePath] accepts is lexically below the workspace,
    and where its links lead, if it exists, is below where the workspace's lead. *)
Lemma validatePath_contained fs cwd path workspace p :
  IsAbs cwd = true → validatePath fs cwd path workspace true = Ok p →
  norm (chars (Abs cwd workspace)) `prefix_of` norm (chars p)
  ∧ ∀ q, EvalSymlinks fs p = Ok q →
      isWithinWorkspace (abs_path q)
        (match EvalSymlinks fs (Abs cwd workspace) with
         | Ok w => abs_path w | Err _ => Abs cwd workspace end) = true.
Proof.
  intros Hc. unfold validatePath. case_bool_decide; [done|]. cbv zeta. cbn [negb].
  set (absPath := if IsAbs path then _ else _).
  assert (IsAbs absPath = true) as Hp.
  { unfold absPath. destruct (IsAbs path) eqn:E; [by rewrite IsAbs_Clean_s|by apply IsAbs_Abs]. }
  destruct (isWithinWorkspace absPath _) eqn:Hw; [|done]. cbn [negb].
  apply isWithin_spec in Hw; [|done|by apply IsAbs_Abs].
  destruct (EvalSymlinks fs absPath) as [q|e] eqn:Eq.
  - destruct (isWithinWorkspace (abs_path q) _) eqn:E; [|done]. intros [= <-].
    split; [done|]. intros q' Hq'. congruence.
  - intros H'. assert (p = absPath) as -> by (repeat case_match; by simplify_eq).
    split; [done|]. intros q' Hq'. congruence.
Qed.

(** ** Confinement *)

(** The trees [fs] and [fs'] agree on every entry below [root]. *)
Definition agree_below (root : list comp) (fs fs' : fsys) : Prop :=
  ∀ q, fs !! (root ++ q) = fs' !! (root ++ q).
(** They agree on every entry that is not below [root]. *)
Definition agree_outside (root : list comp) (fs fs' : fsys) : Prop :=
  ∀ p, ¬ root `prefix_of` p → fs !! p = fs' !! p.

#[export] Instance agree_outside_equiv root : Equivalence (agree_outside root).
Proof.
  split; [by intros fs p|by intros fs fs' H p Hp; symmetry; apply H|].
  intros f g h H1 H2 p Hp. by rewrite H1, H2.
Qed.

Lemma agree_outside_insert root q e fs : agree_outside root fs (<[root ++ q := e]> fs).
Proof. intros p Hp. rewrite lookup_insert_ne; [done|]. intros <-. apply Hp. by exists q. Qed.
Lemma agree_outside_delete root q fs : agree_outside root fs (delete (root ++ q) fs).
Proof. intros p Hp. rewrite lookup_delete_ne; [done|]. intros <-. apply Hp. by exists q. Qed.

Lemma walk_agree c follow links root fs fs' cur todo :
  agree_below root fs fs' →
  walk c follow links fs root cur todo = walk c follow links fs' root cur todo.
Proof.
  intros H. revert cur todo. induction links as [|l IHl]; intros cur todo; revert cur;
    induction todo as [|p rest IH]; intros cur; simpl; try done;
    destruct (skip_comp p); auto; case_bool_decide; [by case_match| |by case_match|];
    rewrite H; repeat case_match; auto.
Qed.

Lemma view_path_below follow fs v path p :
  view_path follow fs v path = Ok p → ∃ q, p = v_root v ++ q.
Proof. unfold view_path. destruct (walk _ _ _ _ _ _ _); intros [= <-]. eauto. Qed.

Lemma sys_WriteFile_outside fs v path d : agree_outside (v_root v) fs (sys_WriteFile fs v path d).1.
Proof.
  unfold sys_WriteFile. destruct (view_path _ _ _ _) eqn:E; [|done].
  apply view_path_below in E as [q ->]. case_match; [done|]. apply agree_outside_insert.
Qed.
Lemma sys_Remove_outside fs v path : agree_outside (v_root v) fs (sys_Remove fs v path).
Proof.
  unfold sys_Remove. destruct (view_path _ _ _ _) eqn:E; [|done].
  apply view_path_below in E as [q ->]. case_match; [done|]. apply agree_outside_delete.
Qed.
Lemma sys_Rename_outside fs v p p' : agree_outside (v_root v) fs (sys_Rename fs v p p').1.
Proof.
  unfold sys_Rename. destruct (view_path _ _ _ p) eqn:E; [|done].
  destruct (view_path _ _ _ p') eqn:E'; [|done].
  apply view_path_below in E as [q ->], E' as [q' ->].
  destruct (fs !! _); [|done]. case_match; [done|]. simpl.
  etrans; [apply agree_outside_delete|apply agree_outside_insert].
Qed.

Lemma mkdirs_outside c links root fs cur todo :
  agree_outside root fs (mkdirs c links root fs cur todo).1.
Proof.
  revert fs cur todo. induction links as [|l IHl]; intros fs cur todo; revert fs cur;
    induction todo as [|p rest IH]; intros fs cur; simpl; try done;
    destruct (skip_comp p); auto; case_bool_decide;
    repeat case_match; simpl; auto; try done;
    (etrans; [apply agree_outside_insert|apply IH]).
Qed.

Lemma write_then_rename_outside wm rm fs v n path d :
  agree_outside (v_root v) fs (write_then_rename wm rm fs v n path d).1.
Proof.
  unfold write_then_rename.
  pose proof (sys_WriteFile_outside fs v (tmp_name path n) d) as H1.
  destruct (sys_WriteFile _ _ _ _) as [fs1 [e|]]; simpl in *.
  { etrans; [exact H1|apply sys_Remove_outside]. }
  pose proof (sys_Rename_outside fs1 v (tmp_name path n) path) as H2.
  destruct (sys_Rename _ _ _ _) as [fs2 [e|]]; simpl in *; [|by etrans].
  etrans; [exact H1|]. etrans; [exact H2|apply sys_Remove_outside].
Qed.

Lemma sandbox_WriteFile_outside (s : sandboxFs) path data root rel :
  execute s path = Ok (root, rel) → agree_outside root (s_fs s) (s_fs (WriteFile s path data).1).
Proof.
  intros E. simpl. unfold sandbox_WriteFile. rewrite E.
  set (mk := if _ && _ then sys_MkdirAll _ _ _ else _).
  assert (agree_outside root (s_fs s) mk.1) as H1.
  { unfold mk. case_match; [apply mkdirs_outside|done]. }
  destruct mk as [fs [e|]]; simpl in *; [done|].
  pose proof (write_then_rename_outside "failed to write to temp file"
    "failed to rename temp file over target" fs (root_view root) (s_nanos s) rel data) as H2.
  destruct (write_then_rename _ _ _ _ _ _ _) as [fs' err]. simpl in *. by etrans.
Qed.
Lemma sandbox_WriteFile_err (s : sandboxFs) path data e :
  execute s path = Err e → WriteFile s path data = (s, Some e).
Proof. intros E. simpl. unfold sandbox_WriteFile. by rewrite E. Qed.

(** The directory the workspace is, its links followed one by one from where its path
    starts. *)
Definition workspace_dir (s : sandboxFs) : result errno (list comp) :=
  resolve 255 (s_fs s) (if IsAbs (s_workspace s) then [] else s_cwd s)
    (split_l slash (chars (s_workspace s))).

(** A path the system opens resolves to the same place. *)
Lemma walk_resolve links links' fs cur todo p :
  walk false true links fs [] cur todo = Ok p → is_Some (entry_at fs p) → links ≤ links' →
  resolve links' fs cur todo = Ok p.
Proof.
  revert links' cur todo. induction links as [|l IHl]; intros links' cur todo Hw Hp Hl; revert cur Hw;
    induction todo as [|c rest IH]; intros cur; (destruct links' as [|l']; [try lia|]); simpl; try done;
    destruct (skip_comp c); auto; case_bool_decide as Hdd; auto; simpl;
    (destruct (fs !! (cur ++ [c])) as [[d| |t]|] eqn:E; auto);
    try (case_bool_decide; [|done]; intros [= <-];
         unfold entry_at in Hp; rewrite bool_decide_eq_false_2, E in Hp by (by destruct cur);
         by destruct Hp).
  all: try done.
  intros Hw. apply (IHl l' _ _ Hw); [done|lia].
Qed.

Lemma OpenRoot_workspace s root :
  OpenRoot (s_fs s) (s_cwd s) (s_workspace s) = Ok root → workspace_dir s = Ok root.
Proof.
  unfold OpenRoot, view_path, workspace_dir, start_of. cbn [host_view v_confined v_links v_root v_start negb].
  destruct (walk _ _ _ _ _ _ _) as [q|e] eqn:E; [|done]. cbn [app].
  destruct (entry_at (s_fs s) q) as [[]|] eqn:Eq; try done. intros [= <-].
  eapply walk_resolve; [exact E|by rewrite Eq|lia].
Qed.

Lemma execute_workspace s path root rel : execute s path = Ok (root, rel) → workspace_dir s = Ok root.
Proof.
  unfold execute. case_bool_decide; [done|]. destruct (OpenRoot _ _ _) as [r|] eqn:E; [|done].
  destruct (getSafeRelPath _ _); [|done]. intros [= <- <-]. by apply OpenRoot_workspace.
Qed.

(** C4: the sandbox holds even against symbolic links.  The directory of the sandbox is
    the one the configured workspace leads to, its links followed.  Whatever the path, a
    sandboxed write changes no entry outside that directory, and none at all when it
    does not exist or the path is refused; and what a sandboxed read returns depends on
    nothing but the entries below that directory, as long as the workspace leads there. *)
Theorem sandbox_confined (s : sandboxFs) (path data : string) :
  match workspace_dir s with
  | Ok root =>
      agree_outside root (s_fs s) (s_fs (WriteFile s path data).1)
      ∧ ∀ s', workspace_dir s' = Ok root → s_workspace s' = s_workspace s →
          is_ok (execute s path) = true → is_ok (execute s' path) = true →
          agree_below root (s_fs s) (s_fs s') → ReadFile s path = ReadFile s' path
  | Err _ => s_fs (WriteFile s path data).1 = s_fs s ∧ is_ok (ReadFile s path) = false
  end
  ∧ (is_ok (execute s path) = false → (WriteFile s path data).1 = s ∧ is_ok (ReadFile s path) = false).
Proof.
  split.
  - destruct (execute s path) as [[root rel]|e] eqn:E.
    + rewrite (execute_workspace _ _ _ _ E). split; [by eapply sandbox_WriteFile_outside|].
      intros s' Hw' Hws _ Hok H. destruct (execute s' path) as [[root' rel']|] eqn:E'; [|done].
      pose proof (execute_workspace _ _ _ _ E') as Hr. rewrite Hw' in Hr. injection Hr as <-.
      assert (rel' = rel) as ->.
      { revert E E'. unfold execute. rewrite Hws. case_bool_decide; [done|].
        destruct (OpenRoot _ _ _); [|done]. destruct (getSafeRelPath _ _); [|done]. intros [= _ <-].
        destruct (OpenRoot _ _ _); [|done]. by intros [= _ <-]. }
      simpl. unfold sandbox_ReadFile. rewrite E, E'.
      unfold sys_ReadFile, view_path. change (v_root (root_view root)) with root.
      rewrite (walk_agree _ _ _ _ _ _ _ _ H). destruct (walk _ _ _ _ _ _ _) as [q|]; [|done].
      unfold entry_at. by rewrite H.
    + assert (is_ok (ReadFile s path) = false) as Hr by (simpl; unfold sandbox_ReadFile; by rewrite E).
      rewrite (sandbox_WriteFile_err _ _ _ _ E). by destruct (workspace_dir s).
  - intros E. destruct (execute s path) as [[]|e] eqn:Ee; [done|].
    rewrite (sandbox_WriteFile_err _ _ _ _ Ee). split; [done|]. simpl. unfold sandbox_ReadFile. by rewrite Ee.
Qed.

Definition demo_tree : fsys :=
  {[ [chars "w"] := EDir; [chars "w"; chars "a"] := EFile "old";
     [chars "w"; chars "out"] := ELink "/etc"; [chars "etc"] := EDir;
     [chars "etc"; chars "passwd"] := EFile "root"; [chars "home"] := ELink "w" ]}.
Definition demo_sandbox : sandboxFs := mk_sandboxFs demo_tree 7 [] "/home".

Lemma sandbox_confined_witness :
  workspace_dir demo_sandbox = Ok [chars "w"] ∧
  s_fs (WriteFile demo_sandbox "out/passwd" "x").1 !! [chars "etc"; chars "passwd"]
  = Some (EFile "root").
Proof.
  split; [vm_compute; reflexivity|].
  destruct (sandbox_confined demo_sandbox "out/passwd" "x") as [H _].
  assert (workspace_dir demo_sandbox = Ok [chars "w"]) as E by (vm_compute; reflexivity).
  rewrite E in H. destruct H as [H _]. rewrite <-H.
  - vm_compute. reflexivity.
  - intros [k Hk]. discriminate Hk.
Defined.

(** ** Writes are atomic *)
Lemma walk_follow c links fs root cur todo q :
  walk c false links fs root cur todo = Ok q → fs !! (root ++ q) = None →
  walk c true links fs root cur todo = Ok q.
Proof.
  revert cur todo. induction links as [|l IHl]; intros cur todo; revert cur;
    induction todo as [|p rest IH]; intros cur; simpl; try done;
    destruct (skip_comp p); auto; case_bool_decide; try (by case_match; auto);
    destruct (fs !! (root ++ cur ++ [p])) as [[d| |t]|] eqn:E; auto;
    case_bool_decide; simpl; try done; try (by intros [= <-]; congruence).
  case_match; [done|]. auto.
Qed.

Lemma walk_follow_err c links fs root cur todo q :
  walk c true links fs root cur todo = Ok q →
  ∃ q', walk c false links fs root cur todo = Ok q'.
Proof.
  revert cur todo. induction links as [|l IHl]; intros cur todo; revert cur;
    induction todo as [|p rest IH]; intros cur; simpl; eauto;
    destruct (skip_comp p); auto; case_bool_decide; try (by case_match; eauto);
    destruct (fs !! (root ++ cur ++ [p])) as [[d| |t]|] eqn:E; eauto;
    case_bool_decide; simpl; eauto.
  case_match; [done|]. auto.
Qed.

Lemma walk_insert_absent c follow links fs root cur todo q e :
  walk c follow links fs root cur todo = Ok q → fs !! (root ++ q) = None →
  walk c follow links (<[root ++ q := EFile e]> fs) root cur todo = Ok q.
Proof.
  intros Hw Hq. revert cur todo Hw. induction links as [|l IHl]; intros cur todo; revert cur;
    induction todo as [|p rest IH]; intros cur; simpl; try done;
    destruct (skip_comp p); auto; case_bool_decide; try (by case_match; auto);
    (destruct (decide (root ++ q = root ++ cur ++ [p])) as [Heq|Hne];
      [rewrite <-Heq, Hq, lookup_insert_eq; apply app_inv_head in Heq as ->; by case_bool_decide
      |rewrite lookup_insert_ne by done]);
    repeat case_match; auto.
Qed.

Lemma entry_at_None fs p : entry_at fs p = None → fs !! p = None.
Proof. unfold entry_at. by case_bool_decide. Qed.

Lemma view_path_follow fs v path p :
  view_path false fs v path = Ok p → fs !! p = None → view_path true fs v path = Ok p.
Proof.
  unfold view_path. destruct (walk _ false _ _ _ _ _) as [q|] eqn:E; intros [= <-] Hq.
  by rewrite (walk_follow _ _ _ _ _ _ _ E Hq).
Qed.

Lemma view_path_follow_err fs v path p :
  view_path true fs v path = Ok p → ∃ q, view_path false fs v path = Ok q.
Proof.
  unfold view_path. destruct (walk _ true _ _ _ _ _) as [q|] eqn:E; intros [= <-].
  apply walk_follow_err in E as [q' ->]. eauto.
Qed.

Lemma view_path_insert fs v path p d :
  view_path false fs v path = Ok p → fs !! p = None →
  view_path false (<[p := EFile d]> fs) v path = Ok p.
Proof.
  unfold view_path. destruct (walk _ false _ _ _ _ _) as [q|] eqn:E; intros [= <-] Hq.
  by rewrite (walk_insert_absent _ _ _ _ _ _ _ _ d E Hq).
Qed.

(** Writing is atomic.  When the temporary name is not in use, a write that
    fails leaves the tree exactly as it was, and one that succeeds changes one
    entry, the name the path ends at (a link there is replaced, not followed),
    to a file with the data; no temporary file is left in either case. *)
Lemma write_then_rename_atomic (write_msg rename_msg : string) (fs : fsys) (v : view)
    (nanos : Z) (path data : string)
    (Hfresh : ∀ p, view_path false fs v (tmp_name path nanos) = Ok p → entry_at fs p = None) :
  match write_then_rename write_msg rename_msg fs v nanos path data with
  | (fs', Some _) => fs' = fs
  | (fs', None) =>
      ∃ tmp q, view_path false fs v (tmp_name path nanos) = Ok tmp
        ∧ view_path false (<[tmp := EFile data]> fs) v path = Ok q
        ∧ entry_at fs q ≠ Some EDir
        ∧ fs' = <[q := EFile data]> fs
  end.
Proof.
  unfold write_then_rename, sys_WriteFile.
  destruct (view_path false fs v (tmp_name path nanos)) as [pt|e] eqn:Et.
  - pose proof (Hfresh pt eq_refl) as Hp. pose proof (entry_at_None _ _ Hp) as Hp'.
    rewrite (view_path_follow _ _ _ _ Et Hp'), Hp. cbn [is_dir].
    pose proof (view_path_insert _ _ _ _ data Et Hp') as Et'.
    assert (sys_Remove (<[pt := EFile data]> fs) v (tmp_name path nanos) = fs) as Hrem.
    { unfold sys_Remove. rewrite Et'. unfold entry_at in *. case_bool_decide; [done|].
      rewrite lookup_insert_eq. simpl. by apply delete_insert_id. }
    unfold sys_Rename. rewrite Et', lookup_insert_eq.
    destruct (view_path false _ v path) as [q|] eqn:Eq; [|done].
    destruct (is_dir (entry_at (<[pt := EFile data]> fs) q)) eqn:Ed; [done|].
    exists pt, q. rewrite delete_insert_id by done. split_and!; try done.
    intros Hd. unfold entry_at in *. case_bool_decide; [done|].
    destruct (decide (q = pt)) as [->|]; [congruence|].
    rewrite lookup_insert_ne, Hd in Ed by done. done.
  - destruct (view_path true fs v _) as [p|] eqn:Et'.
    + apply view_path_follow_err in Et' as [? ?]. congruence.
    + unfold sys_Remove. by rewrite Et.
Qed.

Lemma write_then_rename_atomic_witness :
  (write_then_rename "w" "r" demo_tree (root_view [chars "w"]) 7 "a" "new").1
  = <[[chars "w"; chars "a"] := EFile "new"]> demo_tree.
Proof.
  pose proof (write_then_rename_atomic "w" "r" demo_tree (root_view [chars "w"]) 7 "a" "new") as H.
  assert (view_path false demo_tree (root_view [chars "w"]) (tmp_name "a" 7)
          = Ok [chars "w"; chars "a.7.tmp"]) as Ht by (vm_compute; reflexivity).
  assert (view_path false (<[[chars "w"; chars "a.7.tmp"] := EFile "new"]> demo_tree)
            (root_view [chars "w"]) "a" = Ok [chars "w"; chars "a"]) as Hq by (vm_compute; reflexivity).
  assert ((write_then_rename "w" "r" demo_tree (root_view [chars "w"]) 7 "a" "new").2 = None)
    as Hn by (vm_compute; reflexivity).
  destruct (write_then_rename _ _ _ _ _ _ _) as [fs' [e|]]; [discriminate Hn|].
  destruct H as (tmp & q & H1 & H2 & _ & ->).
  - intros p Hp. rewrite Ht in Hp. injection Hp as <-. vm_compute. reflexivity.
  - assert (tmp = [chars "w"; chars "a.7.tmp"]) as -> by congruence.
    assert (q = [chars "w"; chars "a"]) as -> by congruence. reflexivity.
Defined.

(** ** Editing *)
Lemma count_l_zero n p l : index_l p l = None → count_l n p l = 0.
Proof. intros H. destruct n; simpl; [done|]. by rewrite H. Qed.

Lemma contains_app s p : contains s p = true ↔ ∃ a b, s = a +:+ p +:+ b.
Proof.
  unfold contains, index. rewrite bool_decide_eq_true. split.
  - intros [i Hi]. apply index_l_Some in Hi as (k & Hk & _).
    exists (implode (take i (chars s))), (implode k).
    by rewrite <-(implode_chars s), Hk at 1; rewrite !implode_app, implode_chars.
  - intros (a & b & ->). destruct (index_l _ _) eqn:E; [by eexists|].
    exfalso. apply (index_l_None _ _ E (chars a) (chars b)). by rewrite !chars_app.
Qed.

Lemma rune_count_pos s : s ≠ "" → 1 ≤ rune_count s.
Proof.
  destruct s as [|c s]; [done|]. intros _. unfold rune_count, runes.
  change (String.length (String c s)) with (Datatypes.S (String.length s)).
  change (chars (String c s)) with (c :: chars s). cbn [runes_go].
  destruct (rune_width _); cbn [length]; lia.
Qed.

(** The text around an occurrence. *)
Lemma split_at_index content old i :
  index content old = Some i →
  content = str_take i content +:+ old +:+ str_drop (i + String.length old) content
  ∧ String.length (str_take i content) = i.
Proof.
  intros Hi. unfold index in Hi. apply index_l_Some in Hi as (k & Hk & Hle).
  unfold str_take, str_drop. rewrite <-!length_chars.
  split; [|rewrite chars_implode, length_take; lia].
  apply (inj chars). rewrite !chars_app, !chars_implode.
  rewrite Hk at 1. do 2 f_equal. rewrite Hk at 1. rewrite app_assoc.
  rewrite drop_app_length'; [done|]. rewrite length_app, length_take. lia.
Qed.

Lemma split_at_unique a b a' b' old :
  a +:+ old +:+ b = a' +:+ old +:+ b' → String.length a = String.length a' → a = a' ∧ b = b'.
Proof.
  intros E Hl. apply (f_equal chars) in E. rewrite !chars_app in E. rewrite <-!length_chars in Hl.
  apply app_inj_1 in E as [Ha Hb]; [|done]. apply app_inv_head in Hb. by simplify_eq.
Qed.

Lemma count_once content old i :
  old ≠ "" → index content old = Some i →
  (1 <? str_count content old) = false ↔
  contains (str_drop (i + String.length old) content) old = false.
Proof.
  intros Ho Hi. unfold str_count. rewrite bool_decide_false by done. unfold index in Hi.
  cbn [count_l]. rewrite Hi. unfold contains, index, str_drop. rewrite chars_implode, length_chars.
  set (l := drop _ _). rewrite Nat.ltb_ge, bool_decide_eq_false.
  destruct content as [|c s]; [by destruct old|].
  change (String.length (String c s)) with (Datatypes.S (String.length s)). cbn [count_l].
  destruct (index_l (chars old) l); [|split; [intros _ []%is_Some_None|lia]].
  split; [lia|]. intros H. by destruct H.
Qed.

(** An edit replaces the one occurrence of the old text.  The edit succeeds
    with [r] exactly when the content is [a], the old text and [b], with the old
    text first occurring there and not again in [b], and [r] is [a], the new text
    and [b]; with an empty old text, exactly when the content is empty. *)
Lemma replaceEditContent_spec (content oldText newText r : string) :
  replaceEditContent content oldText newText = Ok r ↔
  if bool_decide (oldText = "") then content = "" ∧ r = newText
  else ∃ a b, content = a +:+ oldText +:+ b ∧ r = a +:+ newText +:+ b
         ∧ index content oldText = Some (String.length a)
         ∧ contains b oldText = false.
Proof.
  unfold replaceEditContent, str_count. case_bool_decide as Ho.
  { subst. assert (contains content "" = true) as -> by (apply contains_app; by exists "", content).
    destruct content as [|c s].
    - change (Ok (newText +:+ "") = (Ok r : result ferror string) ↔ "" = "" ∧ r = newText).
      assert (newText +:+ "" = newText) as ->.
      { apply (inj chars). by rewrite chars_app, app_nil_r. }
      split; [by intros [= <-]|by intros [_ ->]].
    - pose proof (rune_count_pos (String c s) ltac:(done)).
      rewrite (proj2 (Nat.ltb_lt _ _)) by lia. simpl. split; [done|]. by intros [? _]. }
  change (contains content oldText) with (bool_decide (is_Some (index content oldText))).
  fold (str_count content oldText). unfold replace_first.
  destruct (index content oldText) as [i|] eqn:Ei.
  2:{ simpl. split; [done|]. by intros (a & b & _ & _ & ? & _). }
  destruct (split_at_index _ _ _ Ei) as [Hc Hlen]. pose proof (count_once _ _ _ Ho Ei) as Hone.
  unfold str_count in Hone. rewrite bool_decide_false in Hone by done.
  rewrite bool_decide_true by done. cbn [negb].
  destruct (1 <? _) eqn:E1; (split; [|intros (a & b & Hab & -> & Ha & Hb)]).
  - done.
  - injection Ha as Ha. rewrite Hc in Hab. apply split_at_unique in Hab as [_ <-]; [|congruence].
    apply Hone in Hb. congruence.
  - intros [= <-]. eexists _, _. split_and!; [exact Hc|done|by rewrite Hlen|by apply Hone].
  - injection Ha as Ha. rewrite Hc in Hab. apply split_at_unique in Hab as [<- <-]; [done|congruence].
Qed.

(** Overlapping occurrences count once: the edit below is accepted although the
    old text occurs at two positions. *)
Lemma overlapping_edit_accepted :
  replaceEditContent "aaa" "aa" "b" = Ok "ba" ∧ contains (str_drop 1 "aaa") "aa" = true.
Proof. split; vm_compute; reflexivity. Qed.
