(* ===== verification/ShellTool.v ===== *)
(** * The shell tool (pkg/tools/shell.go)

    Running a command for the model: the guard that refuses commands (the
    patterns of dangerous commands, the allowlist, the check that a restricted
    command names no path outside its directory), the directory the command
    runs in, and the text made of what it printed.  The process itself is an
    argument: what it printed and how it ended, given the command and its
    directory. *)
From stdpp Require Import base gmap strings list pretty.
From Stdlib Require Import Ascii ZArith Lia.
From S2P Require Import Prelude GoStrings ProviderTypes Paths Regex ToolBase FileTools.

(** ** Patterns *)
Definition backslash : ascii := ascii_of_nat 92.
Definition apostrophe : ascii := ascii_of_nat 39.
Definition word (s : string) : re := seq_of [Wb; lit s; Wb].
Definition sp : re := plus ws.        (* \s+ *)
Definition osp : re := Star ws.       (* \s* *)

Definition defaultDenyPatterns : list re := [
  seq_of [Wb; lit "rm"; sp; lit "-"; rep_range 1 1 (any_of "rf"); Wb];
  seq_of [Wb; lit "del"; sp; lit "/"; any_of "fq"; Wb];
  seq_of [Wb; lit "rmdir"; sp; lit "/s"; Wb];
  seq_of [Wb; one_of [lit "format"; lit "mkfs"; lit "diskpart"]; Wb; ws];
  seq_of [Wb; lit "dd"; sp; lit "if="];
  seq_of [lit ">"; osp; lit "/dev/sd"; Cls is_lower; Wb];
  seq_of [Wb; one_of [lit "shutdown"; lit "reboot"; lit "poweroff"]; Wb];
  seq_of [lit ":()"; osp; lit "{"; Star dot; lit "};"; osp; lit ":"];
  seq_of [lit "$("; plus (none_of ")"); lit ")"];
  seq_of [lit "${"; plus (none_of "}"); lit "}"];
  seq_of [lit "`"; plus (none_of "`"); lit "`"];
  seq_of [lit "|"; osp; lit "sh"; Wb];
  seq_of [lit "|"; osp; lit "bash"; Wb];
  seq_of [lit ";"; osp; lit "rm"; sp; lit "-"; any_of "rf"];
  seq_of [lit "&&"; osp; lit "rm"; sp; lit "-"; any_of "rf"];
  seq_of [lit "||"; osp; lit "rm"; sp; lit "-"; any_of "rf"];
  seq_of [lit ">"; osp; lit "/dev/null"; osp; lit ">"; opt (lit "&"); osp; opt digit];
  seq_of [lit "<<"; osp; lit "EOF"];
  seq_of [lit "$("; osp; lit "cat"; sp];
  seq_of [lit "$("; osp; lit "curl"; sp];
  seq_of [lit "$("; osp; lit "wget"; sp];
  seq_of [lit "$("; osp; lit "which"; sp];
  word "sudo";
  seq_of [Wb; lit "chmod"; sp; rep_range 3 1 (any_of "01234567"); Wb];
  word "chown";
  word "pkill";
  word "killall";
  seq_of [Wb; lit "kill"; sp; lit "-"; any_of "9"; Wb];
  seq_of [word "curl"; Star dot; lit "|"; osp; one_of [lit "sh"; lit "bash"]];
  seq_of [word "wget"; Star dot; lit "|"; osp; one_of [lit "sh"; lit "bash"]];
  seq_of [Wb; lit "npm"; sp; lit "install"; sp; lit "-g"; Wb];
  seq_of [Wb; lit "pip"; sp; lit "install"; sp; lit "--user"; Wb];
  seq_of [Wb; lit "apt"; sp; one_of [lit "install"; lit "remove"; lit "purge"]; Wb];
  seq_of [Wb; lit "yum"; sp; one_of [lit "install"; lit "remove"]; Wb];
  seq_of [Wb; lit "dnf"; sp; one_of [lit "install"; lit "remove"]; Wb];
  seq_of [Wb; lit "docker"; sp; lit "run"; Wb];
  seq_of [Wb; lit "docker"; sp; lit "exec"; Wb];
  seq_of [Wb; lit "git"; sp; lit "push"; Wb];
  seq_of [Wb; lit "git"; sp; lit "force"; Wb];
  seq_of [word "ssh"; Star dot; lit "@"];
  word "eval";
  seq_of [Wb; lit "source"; sp; Star dot; lit ".sh"; Wb] ].

(** The paths of a command: a drive letter and what follows its backslash, or
    a slash and the characters up to a space or quotation mark. *)
Definition path_char (c : ascii) : bool :=
  negb (ws_class c) && negb (bool_decide (c = quote)) && negb (bool_decide (c = apostrophe)).
Definition drive_path : re :=
  seq_of [Cls (λ c, is_lower c || is_upper c); lit ":"; Cls (λ c, bool_decide (c = backslash));
          plus (Cls (λ c, negb (bool_decide (c = backslash)) && negb (bool_decide (c = quote))
                          && negb (bool_decide (c = apostrophe))))].
Definition slash_path : re := Cat (Cls (λ c, bool_decide (c = slash))) (plus (Cls path_char)).
Definition pathPattern : re := Alt drive_path slash_path.

(** ** The tool *)
Record ExecTool := mk_ExecTool {
  workingDir : string;
  timeout : duration;
  denyPatterns : list re;
  allowPatterns : list re;
  restrictToWorkspace : bool;
}.

(** [config.ExecConfig]. *)
Record ExecConfig := mk_ExecConfig {
  EnableDenyPatterns : bool;
  CustomDenyPatterns : list string;
}.

(** [regexp.Compile] is given: the expression of a pattern, or the error. *)
Definition NewExecToolWithConfig (Compile : string → result string re) (workingDir : string)
    (restrict : bool) (config : option ExecConfig) : ExecTool :=
  let denyPatterns :=
    match config with
    | Some execConfig =>
        if EnableDenyPatterns execConfig then
          defaultDenyPatterns
            ++ omap (λ pattern, match Compile pattern with Ok r => Some r | Err _ => None end)
                 (CustomDenyPatterns execConfig)
        else []
    | None => defaultDenyPatterns
    end in
  mk_ExecTool workingDir (60 * second) denyPatterns [] restrict.

Definition NewExecTool (workingDir : string) (restrict : bool) : ExecTool :=
  NewExecToolWithConfig (λ _, Err "") workingDir restrict None.

Definition SetTimeout (t : ExecTool) (timeout : duration) : ExecTool :=
  mk_ExecTool (workingDir t) timeout (denyPatterns t) (allowPatterns t) (restrictToWorkspace t).
Definition SetRestrictToWorkspace (t : ExecTool) (restrict : bool) : ExecTool :=
  mk_ExecTool (workingDir t) (timeout t) (denyPatterns t) (allowPatterns t) restrict.
Definition with_allow (t : ExecTool) (rs : list re) : ExecTool :=
  mk_ExecTool (workingDir t) (timeout t) (denyPatterns t) rs (restrictToWorkspace t).

(** The patterns compiled before the first that does not compile, and its error. *)
Fixpoint compile_all (Compile : string → result string re) (patterns : list string) :
    list re * option string :=
  match patterns with
  | [] => ([], None)
  | p :: ps =>
      match Compile p with
      | Err err => ([], Some ("invalid allow pattern " +:+ quoted p +:+ ": " +:+ err))
      | Ok r => let '(rs, err) := compile_all Compile ps in (r :: rs, err)
      end
  end.
Definition SetAllowPatterns (Compile : string → result string re) (t : ExecTool)
    (patterns : list string) : ExecTool * option string :=
  let '(rs, err) := compile_all Compile patterns in (with_allow t rs, err).

(** ** The guard *)

(** [filepath.Abs] where [os.Getwd] may fail. *)
Definition Abs_err (getwd : result string string) (p : string) : result string string :=
  if IsAbs p then Ok (Clean p)
  else match getwd with Ok wd => Ok (Join wd p) | Err e => Err e end.

Definition blocked (why : string) : string :=
  "Command blocked by safety guard (" +:+ why +:+ ")".

Fixpoint check_paths (getwd : result string string) (cwdPath : string) (raws : list string) :
    string :=
  match raws with
  | [] => ""
  | raw :: raws' =>
      match Abs_err getwd raw with
      | Err _ => check_paths getwd cwdPath raws'
      | Ok p =>
          match Rel cwdPath p with
          | None => check_paths getwd cwdPath raws'
          | Some rel =>
              if has_prefix rel ".." then blocked "path outside working dir"
              else check_paths getwd cwdPath raws'
          end
      end
  end.

(** The empty text: the command may run. *)
Definition guardCommand (getwd : result string string) (t : ExecTool) (command cwd : string) :
    string :=
  let cmd := trim_space command in
  let lower := to_lower cmd in
  if existsb (λ r, MatchString r lower) (denyPatterns t)
  then blocked "dangerous pattern detected"
  else if negb (bool_decide (allowPatterns t = []))
          && negb (existsb (λ r, MatchString r lower) (allowPatterns t))
  then blocked "not in allowlist"
  else if restrictToWorkspace t then
    if contains cmd (String "." (String "." (String backslash ""))) || contains cmd "../"
    then blocked "path traversal detected"
    else match Abs_err getwd cwd with
         | Err _ => ""
         | Ok cwdPath => check_paths getwd cwdPath (FindAllString pathPattern cmd)
         end
  else "".

(** ** Running a command *)

(** How a process ended: [cmd.Start] failed; or what it printed, the error of
    [cmd.Wait] and whether the deadline of the context had passed. *)
Inductive proc :=
| NotStarted (err : string)
| Finished (stdout stderr : string) (err : option string) (deadline : bool).

(** [time.Duration.String]. *)
Definition frac_text (prec : nat) (v : Z) : string :=
  let ds := chars (pretty (v mod 10 ^ Z.of_nat prec)%Z) in
  let ds := if prec =? 0 then [] else replicate (prec - length ds) "0"%char ++ ds in
  match reverse (drop_while (λ c, bool_decide (c = "0"%char)) (reverse ds)) with
  | [] => ""
  | ds => "." +:+ implode ds
  end.
Definition unit_text (prec : nat) (unit : string) (v : Z) : string :=
  pretty (v / 10 ^ Z.of_nat prec)%Z +:+ frac_text prec v +:+ unit.
Definition duration_string (d : duration) : string :=
  (let u := Z.abs d in
   (if d <? 0 then "-" else "") +:+
   if u =? 0 then "0s"
   else if u <? 1_000 then unit_text 0 "ns" u
   else if u <? 1_000_000 then unit_text 3 (String (ascii_of_nat 194) (String (ascii_of_nat 181) "s")) u
   else if u <? second then unit_text 6 "ms" u
   else
     let secs := u / second in
     (if secs <? 60 then ""
      else (if secs / 60 <? 60 then "" else pretty (secs / 3600) +:+ "h")
           +:+ pretty (secs / 60 mod 60) +:+ "m")
     +:+ pretty (secs mod 60) +:+ frac_text 9 u +:+ "s")%Z.

Definition maxLen : nat := Z.to_nat 10000.
Definition truncate_output (output : string) : string :=
  if maxLen <? String.length output
  then str_take maxLen output
       +:+ (String newline "... (truncated, " +:+ pretty (String.length output - maxLen)
            +:+ " more chars)")
  else output.

Definition both (text : string) (is_error : bool) : ToolResult :=
  mk_ToolResult text text false is_error false None.

Definition line (s : string) : string := String newline s.

(** The result made of how the process ended. *)
Definition command_result (timeout : duration) (p : proc) : ToolResult :=
  match p with
  | NotStarted err => ErrorResult ("failed to start command: " +:+ err)
  | Finished stdout stderr err deadline =>
      let output := stdout +:+ (if bool_decide (stderr = "") then ""
                                else line ("STDERR:" +:+ line stderr)) in
      match err with
      | Some e =>
          if deadline then both ("Command timed out after " +:+ duration_string timeout) true
          else
            let output := output +:+ line ("Exit code: " +:+ e) in
            both (truncate_output (if bool_decide (output = "") then "(no output)" else output)) true
      | None =>
          both (truncate_output (if bool_decide (output = "") then "(no output)" else output)) false
      end
  end.

Section exec.
Context {W : Type}.
Variable fs_of : W → fsys.                          (* the tree of files *)
Variable getwd : result string string.              (* [os.Getwd] *)
(** [sh -c command] in a directory (none: ""), under a deadline (none: 0). *)
Variable sh : duration → string → string → W → proc * W.

(** [validatePath(wd, workspace, true)] for a workspace that is not empty. *)
Definition validate_dir (fs : fsys) (wd workspace : string) : result string string :=
  match getwd with
  | Ok cwd =>
      match validatePath fs cwd wd workspace true with Ok p => Ok p | Err e => Err (fe_text e) end
  | Err e =>
      if IsAbs workspace then
        match validatePath fs "/" wd workspace true with Ok p => Ok p | Err e => Err (fe_text e) end
      else Err ("failed to resolve workspace path: " +:+ e)
  end.

(** The command to run and its directory, or the text of the refusal. *)
Definition admit_command (t : ExecTool) (args : gmap string json) (fs : fsys) :
    result string (string * string) :=
  match args !! "command" with
  | Some (JStr command) =>
      let dir :=
        match args !! "working_dir" with
        | Some (JStr wd) =>
            if bool_decide (wd = "") then Ok (workingDir t)
            else if restrictToWorkspace t && negb (bool_decide (workingDir t = "")) then
              match validate_dir fs wd (workingDir t) with
              | Ok p => Ok p
              | Err e => Err (blocked e)
              end
            else Ok wd
        | _ => Ok (workingDir t)
        end in
      match dir with
      | Err e => Err e
      | Ok cwd =>
          let cwd := if bool_decide (cwd = "")
                     then match getwd with Ok wd => wd | Err _ => "" end else cwd in
          let guardError := guardCommand getwd t command cwd in
          if bool_decide (guardError = "") then Ok (command, cwd) else Err guardError
      end
  | _ => Err "command is required"
  end.

Definition Execute (t : ExecTool) (args : gmap string json) (w : W) : ToolResult * W :=
  match admit_command t args (fs_of w) with
  | Err e => (ErrorResult e, w)
  | Ok (command, cwd) =>
      let '(p, w) := sh (Z.max 0 (timeout t)) command cwd w in
      (command_result (timeout t) p, w)
  end.

Definition exec_tool {C : Type} (t : ExecTool) : Tool W C :=
  mk_Tool "exec" "Execute a shell command and return its output. Use with caution."
    (string_parameters [("command", "The shell command to execute");
                        ("working_dir", "Optional working directory for the command")] ["command"])
    (Execute t) None None.
End exec.

(** ** The paths of a command *)

(** The words of a text: what lies between spaces and quotation marks. *)
Fixpoint words_l (p : ascii → bool) (l : list ascii) : list (list ascii) :=
  match l with
  | [] => [[]]
  | x :: l' =>
      if p x then match words_l p l' with [] => [[x]] | w :: ws => (x :: w) :: ws end
      else [] :: words_l p l'
  end.
(** What a word has from its first slash on. *)
Definition slash_part (w : list ascii) : option (list ascii) :=
  match drop_while (λ c, negb (bool_decide (c = slash))) w with [] => None | p => Some p end.
Definition slash_paths (l : list ascii) : list (list ascii) :=
  omap slash_part (words_l path_char l).

(** What the pattern of the guard finds of it: not a slash alone, since the pattern wants
    another character after the slash. *)
Definition slash_suffix (w : list ascii) : option (list ascii) :=
  match drop_while (λ c, negb (bool_decide (c = slash))) w with
  | x :: y :: l => Some (x :: y :: l)
  | _ => None
  end.
Definition slash_words (l : list ascii) : list (list ascii) :=
  omap slash_suffix (words_l path_char l).

Lemma slash_paths_words l s : s ∈ slash_paths l → s = [slash] ∨ s ∈ slash_words l.
Proof.
  unfold slash_paths, slash_words. intros (w & Hw & Hs)%list_elem_of_omap. unfold slash_part in Hs.
  destruct (drop_while _ w) as [|x [|y r]] eqn:E; simplify_eq.
  - left. apply drop_while_hd in E. by bool_nums; subst.
  - right. apply list_elem_of_omap. exists w. split; [done|]. unfold slash_suffix. by rewrite E.
Qed.

Lemma words_l_ne p l : words_l p l ≠ [].
Proof. destruct l as [|x l]; simpl; [done|]. destruct (p x); [|done]. by destruct (words_l p l). Qed.

(** The first word is the longest run of word characters. *)
Lemma words_l_run p l :
  ∃ ws, words_l p l = take (length l - length (drop_while p l)) l :: ws
    ∧ words_l p (drop_while p l) = [] :: ws.
Proof.
  induction l as [|x l (ws & IH1 & IH2)]; simpl; [by exists []|].
  destruct (p x) eqn:E.
  - exists ws. rewrite IH1. split; [|done].
    rewrite Nat.sub_succ_l by apply drop_while_length. done.
  - exists (words_l p l). rewrite Nat.sub_diag. simpl. by rewrite E.
Qed.

Lemma slash_words_skip x l : x ≠ slash → slash_words (x :: l) = slash_words l.
Proof.
  intros Hx. unfold slash_words. cbn [words_l].
  destruct (path_char x); [|done]. pose proof (words_l_ne path_char l).
  destruct (words_l path_char l) as [|w ws]; [done|]. csimpl.
  assert (slash_suffix (x :: w) = slash_suffix w) as ->; [|done].
  unfold slash_suffix. cbn [drop_while]. by rewrite (bool_decide_eq_false_2 (x = slash)).
Qed.

Lemma slash_words_slash l :
  slash_words (slash :: l) =
  let w := take (length l - length (drop_while path_char l)) l in
  (if bool_decide (w = []) then [] else [slash :: w]) ++ slash_words (drop_while path_char l).
Proof.
  unfold slash_words. cbn [words_l].
  destruct (words_l_run path_char l) as (ws & -> & ->).
  assert (path_char slash = true) as -> by reflexivity. csimpl.
  set (w := take _ _). unfold slash_suffix. cbn [drop_while].
  rewrite (bool_decide_eq_true_2 (slash = slash)) by done. cbn [negb].
  destruct w; [by rewrite bool_decide_eq_true_2|by rewrite bool_decide_eq_false_2].
Qed.

Lemma drive_path_needs c c' : matches drive_path c c' → backslash ∈ c.2.
Proof.
  intros (d1 & (x1 & l1 & E1 & _ & ->)%Cls_iff & H)%Cat_iff.
  apply Cat_iff in H as (d2 & (x2 & l2 & E2 & _ & ->)%Cls_iff & H).
  apply Cat_iff in H as (d3 & (x3 & l3 & E3 & P3 & ->)%Cls_iff & _).
  bool_nums. simplify_eq/=. rewrite E1. set_solver.
Qed.

Lemma no_drive c : backslash ∉ c.2 → run drive_path c = [].
Proof.
  intros Hc. destruct (run drive_path c) as [|c' l] eqn:E; [done|]. exfalso.
  apply Hc, (drive_path_needs c c'), run_spec. rewrite E. set_solver.
Qed.

Lemma pathPattern_not_empty c : ¬ matches pathPattern c c.
Proof. inversion 1; subst; by eapply Cls_Cat_not_empty. Qed.

(** Without a backslash, the paths [FindAllString] finds are the slash suffixes
    of the words. *)
Lemma find_all_words l prev n e :
  backslash ∉ l → length l < n → find_all n pathPattern e (prev, l) = slash_words l.
Proof.
  remember (length l) as k eqn:Hk. revert l prev n e Hk.
  induction (lt_wf k) as [k _ IH]; intros l prev n e -> Hb Hn.
  destruct l as [|x l]; [by destruct n|].
  apply not_elem_of_cons in Hb as [Hx Hb].
  assert (run drive_path (prev, x :: l) = []) as Hd by (apply no_drive; set_solver).
  assert (∀ ms, ms = run slash_path (prev, x :: l) → run pathPattern (prev, x :: l) = ms) as Hrun.
  { intros ms ->. unfold pathPattern. cbn [run]. fold (run drive_path). by rewrite Hd. }
  destruct (decide (x = slash)) as [->|Hs].
  2:{ rewrite slash_words_skip by done.
      rewrite (find_all_skip _ n (S (length l))); [| lia | simpl in Hn; lia | | apply pathPattern_not_empty].
      - apply (IH (length l)); simpl; auto; lia.
      - apply Hrun. cbn. by rewrite bool_decide_eq_false_2. }
  rewrite slash_words_slash. cbv zeta.
  destruct l as [|y l].
  { rewrite (find_all_skip _ n 1); [done|simpl; lia|simpl in *; lia| |apply pathPattern_not_empty].
    by apply Hrun. }
  destruct (path_char y) eqn:Hy.
  - destruct (star_class_longest path_char (length l) (Some y) l) as [ends Hends]; [done|].
    set (c' := (_, drop_while path_char l)) in Hends.
    assert (run pathPattern (prev, slash :: y :: l) = c' :: ends) as Hr.
    { apply Hrun. symmetry. unfold slash_path, plus. cbn [run snd].
      rewrite (bool_decide_eq_true_2 (slash = slash)) by done. cbn [mbind list_bind app].
      cbn [snd]. rewrite Hy. cbn [mbind list_bind app]. rewrite !app_nil_r. exact Hends. }
    assert (length (drop_while path_char l) ≤ length l) as Hle by apply drop_while_length.
    rewrite (find_all_take _ n (S (length c'.2)) _ _ c' ends);
      [|done|lia|change (length (drop_while path_char l) < S (S (length l))); lia|done].
    cbn [drop_while]. rewrite Hy. cbn [length]. rewrite Nat.sub_succ_l by done. cbn [take].
    rewrite bool_decide_eq_false_2 by done. cbn [app]. f_equal.
    + change (take (S (S (length l)) - length (drop_while path_char l)) (slash :: y :: l)
              = slash :: y :: take (length l - length (drop_while path_char l)) l).
      rewrite Nat.sub_succ_l, Nat.sub_succ_l by lia. done.
    + apply (IH (length (drop_while path_char l))); [simpl; lia|done| |simpl; lia].
      intros H. apply Hb. right. destruct (drop_while_suffix path_char l) as [k ->]. set_solver.
  - assert (drop_while path_char (y :: l) = y :: l) as -> by (cbn; by rewrite Hy).
    rewrite Nat.sub_diag. cbn [take]. rewrite bool_decide_eq_true_2 by done. cbn [app].
    rewrite (find_all_skip _ n (S (length (y :: l)))); [|lia|simpl in *; lia| |apply pathPattern_not_empty].
    + apply (IH (length (y :: l))); simpl; auto; lia.
    + apply Hrun. unfold slash_path, plus. cbn [run snd].
      rewrite (bool_decide_eq_true_2 (slash = slash)) by done. cbn [mbind list_bind app snd].
      by rewrite Hy.
Qed.

Lemma FindAllString_words s :
  backslash ∉ chars s → FindAllString pathPattern s = implode <$> slash_words (chars s).
Proof. intros Hb. unfold FindAllString. rewrite find_all_words by (done || lia). done. Qed.

(** ** What the guard accepts *)

(** A path below a directory, through a name that does not start with "..". *)
Definition below (dir p : string) : Prop :=
  ∃ rest, norm (chars p) = norm (chars dir) ++ rest
    ∧ match head rest with Some n => has_prefix_l dotdot n = false | None => True end.

Definition getwd_ok (getwd : result string string) : Prop :=
  ∀ wd, getwd = Ok wd → IsAbs wd = true.

Lemma Abs_err_abs getwd p q : getwd_ok getwd → Abs_err getwd p = Ok q → IsAbs q = true.
Proof.
  intros Hw. unfold Abs_err. destruct (IsAbs p) eqn:Hp; [intros [= <-]; by rewrite IsAbs_Clean_s|].
  destruct getwd as [wd|]; [|done]. intros [= <-].
  pose proof (IsAbs_Abs wd p (Hw _ eq_refl)) as H. unfold Abs in H. by rewrite Hp in H.
Qed.

Lemma Rel_below dir p :
  IsAbs dir = true → IsAbs p = true →
  ∃ rel, Rel dir p = Some rel ∧ (has_prefix rel ".." = false ↔ below dir p).
Proof.
  intros Hd Hp. destruct (Rel_inside _ _ Hd Hp) as (r & Hr & Hiff).
  exists (implode r). unfold Rel. rewrite Hr. split; [done|].
  unfold has_prefix. rewrite chars_implode. exact Hiff.
Qed.

Lemma check_paths_iff getwd dir raws :
  getwd_ok getwd → IsAbs dir = true →
  check_paths getwd dir raws = "" ↔
  ∀ raw p, raw ∈ raws → Abs_err getwd raw = Ok p → below dir p.
Proof.
  intros Hw Hd. induction raws as [|raw raws IH]; cbn [check_paths]; [set_solver|].
  destruct (Abs_err getwd raw) as [p|e] eqn:Ep.
  - destruct (Rel_below dir p Hd (Abs_err_abs _ _ _ Hw Ep)) as (rel & -> & Hrel).
    destruct (has_prefix rel "..").
    + split; [done|]. intros H. exfalso.
      assert (true = false) by (apply Hrel; eapply H; [apply list_elem_of_here|done]). done.
    + rewrite IH. split; [|set_solver].
      intros H raw' p' [->|Hin]%elem_of_cons He; [|by eapply H].
      rewrite Ep in He. simplify_eq. by apply Hrel.
  - rewrite IH. split; [|set_solver].
    intros H raw' p' [->|Hin]%elem_of_cons He; [congruence|by eapply H].
Qed.

(** The expression occurs in the text. *)
Definition occurs (r : re) (s : string) : Prop :=
  ∃ pre post c', chars s = pre ++ post ∧ matches r (last pre, post) c'.

Lemma existsb_match rs s :
  existsb (λ r, MatchString r s) rs = true ↔ ∃ r, r ∈ rs ∧ occurs r s.
Proof.
  rewrite existsb_exists. unfold occurs.
  split; intros (r & Hr & H); exists r; (split; [by apply list_elem_of_In|]); by apply MatchString_iff.
Qed.

Definition dotdot_backslash : string := String "." (String "." (String backslash "")).

(** The guard lets a command run exactly when no refused pattern occurs in
    its lower-cased text, the allowlist is empty or one of its patterns occurs,
    and, for a restricted tool, it has no "../" or "..\" and every path found
    in it lies below the directory (through a name not starting with ".."). *)
Lemma guard_accepts_iff getwd t command cwd :
  getwd_ok getwd →
  guardCommand getwd t command cwd = "" ↔
    (∀ r, r ∈ denyPatterns t → ¬ occurs r (to_lower (trim_space command)))
    ∧ (allowPatterns t = [] ∨ ∃ r, r ∈ allowPatterns t ∧ occurs r (to_lower (trim_space command)))
    ∧ (restrictToWorkspace t = true →
       contains (trim_space command) dotdot_backslash = false
       ∧ contains (trim_space command) "../" = false
       ∧ ∀ dir raw p, Abs_err getwd cwd = Ok dir →
           raw ∈ FindAllString pathPattern (trim_space command) →
           Abs_err getwd raw = Ok p → below dir p).
Proof.
  intros Hw. unfold guardCommand. cbv zeta. fold dotdot_backslash.
  set (lower := to_lower _). set (cmd := trim_space command).
  destruct (existsb _ (denyPatterns t)) eqn:Hd.
  { split; [done|]. intros [Hn _]. exfalso.
    apply existsb_match in Hd as (r & Hr & Ho). by apply (Hn r). }
  assert (∀ r, r ∈ denyPatterns t → ¬ occurs r lower) as Hdeny.
  { intros r Hr Ho. rewrite <-not_true_iff_false in Hd. apply Hd, existsb_match. eauto. }
  destruct (negb (bool_decide (allowPatterns t = [])) && negb (existsb _ (allowPatterns t))) eqn:Ha.
  { split; [done|]. intros (_ & [H|H] & _); exfalso; bool_nums; [done|].
    apply existsb_match in H. congruence. }
  assert (allowPatterns t = [] ∨ ∃ r, r ∈ allowPatterns t ∧ occurs r lower) as Hallow.
  { bool_nums. destruct Ha as [Ha|Ha]; bool_nums.
    - left. destruct (decide (allowPatterns t = [])); [done|]. by destruct (allowPatterns t).
    - right. by apply existsb_match. }
  destruct (restrictToWorkspace t); [|by split].
  destruct (contains cmd dotdot_backslash), (contains cmd "../"); cbn [orb];
    try (split; [done|]; intros (_ & _ & H); by destruct (H eq_refl) as (? & ? & _)).
  destruct (Abs_err getwd cwd) as [dir|e] eqn:Ec.
  - rewrite check_paths_iff by (done || by eapply Abs_err_abs). split.
    + intros H. split_and!; [done..|]. intros _. split_and!; [done..|].
      intros d raw p [= <-]. apply H.
    + intros (_ & _ & H). destruct (H eq_refl) as (_ & _ & H'). intros raw p. by apply H'.
  - split; [|done]. intros _. split_and!; [done..|]. intros _. by split_and!.
Qed.

Lemma guard_accepts_iff_witness :
  getwd_ok (Ok "/w") ∧
  ((∀ r, r ∈ defaultDenyPatterns → ¬ occurs r "cat /w/notes.txt")
   ∧ (restrictToWorkspace (NewExecTool "/w" true) = true)).
Proof.
  assert (getwd_ok (Ok "/w")) as Hw by (intros wd [= <-]; reflexivity).
  split; [exact Hw|]. split; [|reflexivity].
  apply (proj1 (proj1 (guard_accepts_iff (Ok "/w") (NewExecTool "/w" true) "cat /w/notes.txt" "/w" Hw)
                  ltac:(vm_compute; reflexivity))).
Defined.

(** ** Restricted commands *)
Section confined.
Context {W : Type} (fs_of : W → fsys) (getwd : result string string).
Implicit Types (t : ExecTool) (fs : fsys).

(** Without a directory in the arguments the command runs in the tool's own. *)
Lemma admit_default_dir t c fs command dir :
  admit_command getwd t {[ "command" := JStr c ]} fs = Ok (command, dir) →
  command = c ∧ (workingDir t ≠ "" → dir = workingDir t).
Proof.
  unfold admit_command. rewrite lookup_singleton_eq, lookup_singleton_ne by done. cbv zeta.
  match goal with |- context [bool_decide (guardCommand ?g ?t ?c ?d = "")] =>
    destruct (bool_decide (guardCommand g t c d = "")); [|done] end.
  intros [= <- <-]. split; [done|]. intros H. by rewrite bool_decide_eq_false_2.
Qed.

Lemma validate_dir_below fs wd ws dir :
  getwd_ok getwd → IsAbs ws = true → validate_dir getwd fs wd ws = Ok dir →
  IsAbs dir = true ∧ norm (chars ws) `prefix_of` norm (chars dir).
Proof.
  intros Hw Hws. unfold validate_dir.
  assert (∀ cwd, IsAbs cwd = true →
    match validatePath fs cwd wd ws true with Ok p => Ok p | Err e => Err (fe_text e) end = Ok dir →
    IsAbs dir = true ∧ norm (chars ws) `prefix_of` norm (chars dir)) as Hc.
  { intros cwd Hcwd. destruct (validatePath _ _ _ _ _) as [p|] eqn:E; [|done]. intros [= ->].
    pose proof (validatePath_contained _ _ _ _ _ Hcwd E) as [Hp _]. unfold Abs in Hp.
    rewrite Hws in Hp. unfold Clean in Hp. rewrite chars_implode, norm_Clean in Hp.
    split; [|done]. by eapply validatePath_abs. }
  destruct getwd as [cwd|]; [apply Hc; by apply Hw|]. rewrite Hws. by apply Hc.
Qed.

(** C5: a restricted tool runs a command only in a directory below its
    workspace, and, when the command has no backslash, only if everything a word
    of it has from its first slash on is a path below that directory, or is a slash
    alone; whatever the arguments, with any of the configured patterns.  Words are what
    lies between spaces and quotation marks.  The guard lets a slash alone pass (the
    root directory), and it does not see where a command goes by [cd ..]. *)
Theorem restricted_exec_confined t args fs command dir :
  getwd_ok getwd → restrictToWorkspace t = true → IsAbs (workingDir t) = true →
  admit_command getwd t args fs = Ok (command, dir) →
  norm (chars (workingDir t)) `prefix_of` norm (chars dir)
  ∧ (backslash ∉ chars command → ∀ s, s ∈ slash_paths (chars (trim_space command)) →
       s = [slash] ∨ norm (chars dir) `prefix_of` norm s).
Proof.
  intros Hw Hr Habs. unfold admit_command. destruct (args !! "command") as [[]|]; try done.
  set (d := match args !! "working_dir" with Some (JStr _) => _ | _ => _ end).
  assert (workingDir t ≠ "") as Hne by (intros E; by rewrite E in Habs).
  assert (∀ cwd, d = Ok cwd → IsAbs cwd = true
            ∧ norm (chars (workingDir t)) `prefix_of` norm (chars cwd)) as Hd.
  { intros cwd. unfold d. rewrite Hr, (bool_decide_eq_false_2 _ Hne). cbn [andb negb].
    destruct (args !! "working_dir") as [[| | |wd| |]|]; try (by intros [= <-]).
    case_bool_decide; [by intros [= <-]|].
    destruct (validate_dir _ _ _ _) eqn:E; [|done]. intros [= <-]. by eapply validate_dir_below. }
  destruct d as [cwd|]; [|done]. destruct (Hd cwd eq_refl) as [Hc Hpre].
  rewrite (bool_decide_eq_false_2 (cwd = "")) by (intros ->; done).
  case_bool_decide as Hg; [|done]. intros [= -> ->]. split; [done|].
  intros Hb s' [->|Hs']%slash_paths_words; [by left|right]. apply guard_accepts_iff in Hg as (_ & _ & Hg); [|done].
  destruct (Hg Hr) as (_ & _ & Hin).
  assert (backslash ∉ chars (trim_space command)) as Hb'.
  { rewrite chars_trim_space. intros Hin'.
    assert (Forall (λ c, c ≠ backslash) (trim_by is_space (chars command))) as Hf
      by (apply Forall_trim_by, Forall_forall; set_solver).
    rewrite Forall_forall in Hf. by apply (Hf backslash). }
  rewrite FindAllString_words in Hin by done.
  assert (∃ l, s' = slash :: l) as [l ->].
  { unfold slash_words in Hs'. apply list_elem_of_omap in Hs' as (w & _ & Hs').
    unfold slash_suffix in Hs'. destruct (drop_while _ w) as [|x [|y r]] eqn:E; simplify_eq.
    apply drop_while_hd in E. bool_nums. subst. eauto. }
  assert (Abs_err getwd dir = Ok (Clean dir)) as Hdir by (unfold Abs_err; by rewrite Hc).
  assert (Abs_err getwd (implode (slash :: l)) = Ok (Clean (implode (slash :: l)))) as Hp by done.
  destruct (Hin _ _ _ Hdir (list_elem_of_fmap_2 _ _ _ Hs') Hp) as (rest & Hrest & _).
  unfold Clean in Hrest. rewrite !chars_implode, !norm_Clean in Hrest. rewrite Hrest.
  by exists rest.
Qed.
End confined.

Lemma restricted_exec_confined_witness :
  norm (chars "/w") `prefix_of` norm (chars "/w/src")
  ∧ (backslash ∉ chars "cat /w/src/a.go" →
     ∀ s, s ∈ slash_paths (chars "cat /w/src/a.go") → s = [slash] ∨ norm (chars "/w/src") `prefix_of` norm s).
Proof.
  apply (restricted_exec_confined (Ok "/") (NewExecTool "/w" true)
           {[ "command" := JStr "cat /w/src/a.go"; "working_dir" := JStr "src" ]}
           {[ [chars "w"] := EDir; [chars "w"; chars "src"] := EDir ]}
           "cat /w/src/a.go" "/w/src");
    [by intros wd [= <-]|reflexivity|reflexivity|vm_compute; reflexivity].
Defined.

(** ** Dangerous commands *)

(** The edge of a word: no letter, digit or underscore there. *)
Definition edge (c : option ascii) : Prop :=
  match c with Some x => is_word x = false | None => True end.

Definition dangerous_words : list string :=
  ["sudo"; "shutdown"; "reboot"; "poweroff"; "chown"; "pkill"; "killall"; "eval"].

(** A dangerous word; or [rm], white space, and a flag of one or two of the
    letters r and f. *)
Inductive dangerous : list ascii → Prop :=
| dangerous_word w : w ∈ dangerous_words → dangerous (chars w)
| dangerous_rm sps flags :
    sps ≠ [] → Forall (λ c, ws_class c = true) sps →
    flags ≠ [] → length flags ≤ 2 → Forall (λ c, c ∈ chars "rf") flags →
    dangerous (chars "rm" ++ sps ++ "-"%char :: flags).

Lemma wb_left pre x l : edge (last pre) → is_word x = true → word_boundary (last pre, x :: l) = true.
Proof.
  unfold word_boundary, edge. cbn [fst snd]. intros H ->.
  by destruct (last pre); [rewrite H|].
Qed.

Lemma wb_right prev x post :
  edge (head post) → is_word x = true → word_boundary (after prev [x], post) = true.
Proof.
  unfold word_boundary, edge. cbn [fst snd after last]. intros H ->.
  by destruct post; [|rewrite H].
Qed.

Lemma word_occurs w pre post s :
  w ∈ dangerous_words → chars s = pre ++ chars w ++ post →
  edge (last pre) → edge (head post) → occurs (word w) s.
Proof.
  intros Hw Hs Hpre Hpost. exists pre, (chars w ++ post), (after (last pre) (chars w), post).
  split; [done|]. unfold word. cbn [seq_of].
  assert (∃ x l y, chars w = x :: l ∧ last (chars w) = Some y ∧ is_word x = true
            ∧ is_word y = true) as (x & l & y & Hx & Hy & Hwx & Hwy).
  { revert Hw. apply (Forall_forall (λ w, ∃ x l y, chars w = x :: l ∧ last (chars w) = Some y
      ∧ is_word x = true ∧ is_word y = true)).
    repeat constructor; do 3 eexists; by split_and!. }
  eapply m_cat; [apply m_wb; rewrite Hx; by apply wb_left|].
  eapply m_cat; [apply lit_match|]. apply m_wb.
  pose proof (wb_right None y post Hpost Hwy) as H. unfold after in *. by rewrite Hy.
Qed.

Lemma flags_match flags prev post :
  flags ≠ [] → length flags ≤ 2 → Forall (λ c, c ∈ chars "rf") flags →
  matches (rep_range 1 1 (any_of "rf")) (prev, flags ++ post) (after prev flags, post).
Proof.
  intros Hne Hlen Hf.
  assert (∀ c, c ∈ chars "rf" → bool_decide (c ∈ chars "rf") = true) as Hb
    by (intros; by apply bool_decide_eq_true).
  destruct flags as [|a [|b [|c l]]]; [done| | |simpl in Hlen; lia];
    [inversion Hf as [|? ? Ha _]; subst|inversion Hf as [|? ? Ha Hf']; inversion Hf'; subst];
    (eapply m_cat; [eapply m_cat; [apply m_cls; by apply Hb|apply m_eps]|]).
  - apply m_alt_r, m_eps.
  - apply m_alt_l. eapply m_cat; [apply m_cls; by apply Hb|apply m_eps].
Qed.

Lemma rm_occurs sps flags pre post s :
  sps ≠ [] → Forall (λ c, ws_class c = true) sps →
  flags ≠ [] → length flags ≤ 2 → Forall (λ c, c ∈ chars "rf") flags →
  chars s = pre ++ (chars "rm" ++ sps ++ "-"%char :: flags) ++ post →
  edge (last pre) → edge (head post) →
  occurs (seq_of [Wb; lit "rm"; sp; lit "-"; rep_range 1 1 (any_of "rf"); Wb]) s.
Proof.
  intros Hs1 Hs2 Hf1 Hf2 Hf3 Hs Hpre Hpost.
  rewrite <-!app_assoc in Hs. cbn [app] in Hs.
  exists pre, (chars "rm" ++ sps ++ ["-"%char] ++ flags ++ post).
  eexists. split; [exact Hs|]. cbn [seq_of].
  eapply m_cat; [apply m_wb; by apply wb_left|].
  eapply m_cat; [apply (lit_match (chars "rm"))|].
  eapply m_cat; [by apply plus_class_match|].
  eapply m_cat; [apply (lit_match ["-"%char])|].
  eapply m_cat; [by apply flags_match|]. apply m_wb.
  destruct (last flags) as [y|] eqn:Hy; [|by apply last_None in Hy].
  assert (is_word y = true) as Hwy.
  { rewrite Forall_forall in Hf3. specialize (Hf3 y (last_Some_elem_of _ _ Hy)).
    repeat (apply elem_of_cons in Hf3 as [->|Hf3]; [done|]). by apply not_elem_of_nil in Hf3. }
  pose proof (wb_right None y post Hpost Hwy) as H. unfold after in *. by rewrite Hy.
Qed.

(** A word of a choice between words occurs where the word does. *)
Lemma word_occurs_alt w r s :
  occurs (word w) s → (∀ c c', matches (lit w) c c' → matches r c c') → occurs (seq_of [Wb; r; Wb]) s.
Proof.
  intros (pre & post & c' & Hs & (d & Hd & (e & He & Hw)%Cat_iff)%Cat_iff) Hr.
  exists pre, post, c'. split; [done|]. eapply m_cat; [exact Hd|]. eapply m_cat; [by apply Hr|done].
Qed.

Lemma denied_word w s :
  w ∈ dangerous_words → occurs (word w) s → ∃ r, r ∈ defaultDenyPatterns ∧ occurs r s.
Proof.
  assert (∀ i r, defaultDenyPatterns !! i = Some r → occurs r s →
            ∃ r, r ∈ defaultDenyPatterns ∧ occurs r s) as Hi
    by (intros i r Hr Ho; exists r; split; [by eapply list_elem_of_lookup_2|done]).
  intros Hw Ho. revert Hw. unfold dangerous_words. rewrite !elem_of_cons, elem_of_nil.
  intros [->|[->|[->|[->|[->|[->|[->|[->|[]]]]]]]]].
  - by eapply (Hi 22).
  - eapply (Hi 6); [done|]. eapply word_occurs_alt; [done|]. intros. by apply m_alt_l.
  - eapply (Hi 6); [done|]. eapply word_occurs_alt; [done|]. intros. by apply m_alt_r, m_alt_l.
  - eapply (Hi 6); [done|]. eapply word_occurs_alt; [done|]. intros. by apply m_alt_r, m_alt_r.
  - by eapply (Hi 24).
  - by eapply (Hi 25).
  - by eapply (Hi 26).
  - by eapply (Hi 40).
Qed.

(** A tool with the default patterns refuses every command whose
    lower-cased text has a dangerous word or a removal with the flags r and f,
    set off from letters and digits around it, wherever it stands in the text. *)
Lemma dangerous_commands_blocked getwd wd restrict command cwd pre d post :
  dangerous d → chars (to_lower (trim_space command)) = pre ++ d ++ post →
  edge (last pre) → edge (head post) →
  guardCommand getwd (NewExecTool wd restrict) command cwd = blocked "dangerous pattern detected".
Proof.
  intros Hd Hs Hpre Hpost. unfold guardCommand.
  assert (existsb (λ r, MatchString r (to_lower (trim_space command)))
            (denyPatterns (NewExecTool wd restrict)) = true) as ->; [|done].
  apply existsb_match. change (denyPatterns (NewExecTool wd restrict)) with defaultDenyPatterns.
  destruct Hd as [w Hw|sps flags].
  - eapply denied_word; [done|by apply (word_occurs w pre post)].
  - eexists. split; [apply list_elem_of_here|by apply (rm_occurs sps flags pre post)].
Qed.

Lemma dangerous_commands_blocked_witness :
  dangerous (chars "rm" ++ [" "%char] ++ "-"%char :: chars "rf")
  ∧ guardCommand (Ok "/w") (NewExecTool "" false) "cd x && RM -rf /" "/w"
    = blocked "dangerous pattern detected".
Proof.
  assert (dangerous (chars "rm" ++ [" "%char] ++ "-"%char :: chars "rf")) as Hd.
  { apply dangerous_rm; [done|by repeat constructor|done|simpl; lia|]. repeat constructor; set_solver. }
  split; [exact Hd|].
  apply (dangerous_commands_blocked _ _ _ _ _ (chars "cd x && ") _ (chars " /") Hd); reflexivity.
Defined.

(** ** What the guard misses and what it refuses *)

(** Removals it lets through: more than two flag letters, and long flags. *)
Lemma removals_not_blocked :
  guardCommand (Ok "/w") (NewExecTool "/w" false) "rm -rfv data" "/w" = ""
  ∧ guardCommand (Ok "/w") (NewExecTool "/w" false) "rm --recursive --force data" "/w" = ""
  ∧ guardCommand (Ok "/w") (NewExecTool "/w" false) "echo x > /dev/sda1" "/w" = "".
Proof. split_and!; vm_compute; reflexivity. Qed.

(** A restricted tool leaves the workspace: with [cd ..], with a bare slash, or
    behind a drive letter, which takes the absolute path that follows with it. *)
Lemma restriction_escapes :
  guardCommand (Ok "/w") (NewExecTool "/w" true) "cd .. && cat secret" "/w" = ""
  ∧ guardCommand (Ok "/w") (NewExecTool "/w" true) "ls -R /" "/w" = ""
  ∧ guardCommand (Ok "/w") (NewExecTool "/w" true) "cat a:\b /etc/passwd" "/w" = "".
Proof. split_and!; vm_compute; reflexivity. Qed.

(** And it may not name a file of its own workspace by a relative path with a
    slash, because the path is taken from the slash on. *)
Lemma relative_paths_blocked :
  guardCommand (Ok "/w") (NewExecTool "/w" true) "cat src/main.go" "/w"
  = blocked "path outside working dir".
Proof. vm_compute. reflexivity. Qed.

(** When the first pattern of a new allowlist does not compile, the tool is left
    with no allowlist, which allows every command. *)
Lemma invalid_allowlist_allows_all Compile t p ps e getwd command cwd :
  Compile p = Err e → denyPatterns t = [] → restrictToWorkspace t = false →
  (SetAllowPatterns Compile t (p :: ps)).2 ≠ None
  ∧ guardCommand getwd (SetAllowPatterns Compile t (p :: ps)).1 command cwd = "".
Proof.
  intros Hc Hd Hr. unfold SetAllowPatterns. cbn [compile_all]. rewrite Hc. split; [done|].
  unfold guardCommand, with_allow. cbn. by rewrite Hd, Hr.
Qed.

(** ** The result *)

(** A refused command runs nothing; an admitted one runs once, in its directory. *)
Lemma Execute_runs_admitted {W} (fs_of : W → fsys) getwd sh sh' t args w :
  (∀ command dir, admit_command getwd t args (fs_of w) = Ok (command, dir) →
     sh (Z.max 0 (timeout t)) command dir w = sh' (Z.max 0 (timeout t)) command dir w) →
  Execute fs_of getwd sh t args w = Execute fs_of getwd sh' t args w.
Proof.
  intros H. unfold Execute. destruct (admit_command _ _ _ _) as [[command dir]|]; [|done].
  by rewrite (H command dir).
Qed.

(** The exit status comes last in the output, so a failed command that printed
    ten thousand bytes shows the model none of it. *)
Lemma exit_status_cut_off d stdout stderr e :
  maxLen ≤ String.length stdout →
  ∃ n, ForLLM (command_result d (Finished stdout stderr (Some e) false))
       = str_take maxLen stdout
         +:+ (String newline "... (truncated, " +:+ pretty (n : nat) +:+ " more chars)").
Proof.
  intros Hlen. unfold command_result. cbn [ForLLM both].
  set (rest := if bool_decide (stderr = "") then _ else _).
  set (full := (stdout +:+ rest) +:+ line ("Exit code: " +:+ e)).
  assert (chars full = chars stdout ++ chars (rest +:+ line ("Exit code: " +:+ e))) as Hf.
  { unfold full. by rewrite !chars_app, app_assoc. }
  assert (maxLen < String.length full) as Hlt.
  { rewrite <-length_chars, Hf, length_app, length_chars. unfold line. rewrite chars_app.
    cbn [chars]. rewrite length_app. cbn [length]. lia. }
  rewrite bool_decide_eq_false_2 by (intros E; rewrite E in Hlt; simpl in Hlt; lia).
  unfold truncate_output. rewrite (proj2 (Nat.ltb_lt _ _) Hlt). eexists. f_equal.
  unfold str_take. rewrite Hf, take_app_le; [done|]. by rewrite length_chars.
Qed.
