(* ===== verification/Skills.v ===== *)
(** * Skills on disk (pkg/skills/loader.go)

    A skill is a directory with a file SKILL.md, whose frontmatter names and
    describes it.  The loader looks in the workspace, then in the global, then
    in the builtin directory.  Directories and files are those of [FileTools];
    decoding a frontmatter as JSON is an argument. *)
From stdpp Require Import base gmap strings list.
From Stdlib Require Import Ascii ZArith Lia.
From S2P Require Import Prelude GoStrings Paths Regex ProviderTypes ToolBase FileTools.

(** ** Frontmatter *)
Definition cr : ascii := ascii_of_nat 13.
Definition lf : ascii := ascii_of_nat 10.

(** [(?:\r\n|\n|\r)] *)
Definition line_end : re := one_of [lit_l [cr; lf]; lit_l [lf]; lit_l [cr]].
Definition fm_open : re := seq_of [Bol; lit "---"; line_end].
Definition fm_close : re := seq_of [line_end; lit "---"].

(** [^---(?:\r\n|\n|\r)(.*?)(?:\r\n|\n|\r)---] with the flag s, at the start of
    the text: the group, and where the match ends.  The lazy group takes the
    nearest end for the first way to match what stands before it. *)
Definition frontmatter_match (l : list ascii) : option (list ascii * pos) :=
  head (run fm_open (None, l) ≫= λ c,
          positions c.1 c.2 ≫= λ c',
            (λ e, (between c c', e)) <$> run fm_close c').

Definition extractFrontmatter (content : string) : string :=
  match frontmatter_match (chars content) with
  | Some (group, _) => implode group
  | None => ""
  end.

(** The same match with the line ends behind it, replaced by nothing. *)
Definition stripFrontmatter (content : string) : string :=
  match frontmatter_match (chars content) with
  | Some (_, e) =>
      match run (Star line_end) e with
      | e' :: _ => implode e'.2
      | [] => implode e.2
      end
  | None => content
  end.

(** ** Simple YAML *)
Fixpoint normalize_l (l : list ascii) : list ascii :=
  match l with
  | [] => []
  | x :: l' =>
      if bool_decide (x = cr) then
        match l' with
        | y :: l'' => if bool_decide (y = lf) then lf :: normalize_l l'' else lf :: normalize_l l'
        | [] => [lf]
        end
      else x :: normalize_l l'
  end.

Definition is_quote (c : ascii) : bool := bool_decide (c = quote) || bool_decide (c = "'"%char).

Definition yaml_line (line : list ascii) : option (string * string) :=
  let line := trim_by is_space line in
  if bool_decide (line = []) || bool_decide (head line = Some "#"%char) then None
  else
    match cut_l ":" line with
    | Some (key, value) =>
        Some (implode (trim_by is_space key), implode (trim_by is_quote (trim_by is_space value)))
    | None => None
    end.

Definition parseSimpleYAML (content : string) : gmap string string :=
  foldl (λ result line, match yaml_line line with Some (k, v) => <[k := v]> result | None => result end)
    ∅ (split_l lf (normalize_l (chars content))).

(** ** Skills *)
Record SkillMetadata := mk_SkillMetadata { md_Name : string; md_Description : string }.

Record SkillInfo := mk_SkillInfo {
  si_Name : string;
  si_Path : string;
  si_Source : string;
  si_Description : string;
}.

Definition MaxNameLength : nat := 64.
Definition MaxDescriptionLength : nat := 1024.

Definition alnum (c : ascii) : bool := is_lower c || is_upper c || is_digit c.
Definition namePattern : re :=
  seq_of [Bol; plus (Cls alnum); Star (Cat (lit "-") (plus (Cls alnum))); Eol].

(** The errors that [validate] joins. *)
Definition validate (info : SkillInfo) : list string :=
  (if bool_decide (si_Name info = "") then ["name is required"]
   else (if MaxNameLength <? String.length (si_Name info) then ["name exceeds 64 characters"] else [])
        ++ (if MatchString namePattern (si_Name info) then []
            else ["name must be alphanumeric with hyphens"]))
  ++ (if bool_decide (si_Description info = "") then ["description is required"]
      else if MaxDescriptionLength <? String.length (si_Description info)
      then ["description exceeds 1024 character"] else []).
Definition valid (info : SkillInfo) : bool := bool_decide (validate info = []).

Record SkillsLoader := mk_SkillsLoader {
  sl_workspaceSkills : string;
  sl_globalSkills : string;
  sl_builtinSkills : string;
}.

Definition NewSkillsLoader (workspace globalSkills builtinSkills : string) : SkillsLoader :=
  mk_SkillsLoader (Join workspace "skills") globalSkills builtinSkills.

(** [filepath.Join(dir, name, "SKILL.md")]. *)
Definition skill_file (dir name : string) : string := Join (Join dir name) "SKILL.md".

(** [filepath.Base]. *)
Definition Base (p : string) : string :=
  if bool_decide (p = "") then "."
  else match drop_while (λ c, bool_decide (c = slash)) (reverse (chars p)) with
       | [] => "/"
       | l => implode (default [] (last (split_l slash (reverse l))))
       end.

(** ** XML *)
(** [strings.ReplaceAll] of one character. *)
Definition replace_all (c : ascii) (r : string) (s : string) : string :=
  implode (mjoin ((λ x, if bool_decide (x = c) then chars r else [x]) <$> chars s)).
Definition escapeXML (s : string) : string :=
  replace_all ">" "&gt;" (replace_all "<" "&lt;" (replace_all "&" "&amp;" s)).

Section loader.
(** [json.Unmarshal] of a frontmatter: its name and description; [None]: an error. *)
Context (Unmarshal : string → option SkillMetadata).
Context (fs : fsys) (cwd : list comp).
Implicit Types (sl : SkillsLoader).

Definition read_file (path : string) : option string :=
  match sys_ReadFile fs (host_view cwd) path with Ok d => Some d | Err _ => None end.

Definition getSkillMetadata (skillPath : string) : option SkillMetadata :=
  match read_file skillPath with
  | None => None
  | Some content =>
      let frontmatter := extractFrontmatter content in
      if bool_decide (frontmatter = "") then Some (mk_SkillMetadata (Base (Dir skillPath)) "")
      else match Unmarshal frontmatter with
           | Some meta => Some meta
           | None =>
               let yamlMeta := parseSimpleYAML frontmatter in
               Some (mk_SkillMetadata (default "" (yamlMeta !! "name"))
                       (default "" (yamlMeta !! "description")))
           end
  end.

(** The skill of a directory entry, before it is validated. *)
Definition skill_of (dir source : string) (d : string * bool) : option SkillInfo :=
  let skillFile := skill_file dir d.1 in
  if negb d.2 then None
  else if negb (sys_Stat fs (host_view cwd) skillFile) then None
  else
    Some (match getSkillMetadata skillFile with
          | Some m => mk_SkillInfo (md_Name m) skillFile source (md_Description m)
          | None => mk_SkillInfo d.1 skillFile source ""
          end).

Definition add_skill (skills : list SkillInfo) (info : SkillInfo) : list SkillInfo :=
  if negb (valid info) then skills
  else if bool_decide (si_Name info ∈ si_Name <$> skills) then skills
  else skills ++ [info].

Definition dir_skills (dir source : string) : list SkillInfo :=
  if bool_decide (dir = "") then []
  else match sys_ReadDir fs (host_view cwd) dir with
       | Err _ => []
       | Ok dirs => omap (skill_of dir source) dirs
       end.

Definition addSkills (dir source : string) (skills : list SkillInfo) : list SkillInfo :=
  foldl add_skill skills (dir_skills dir source).

Definition ListSkills sl : list SkillInfo :=
  addSkills (sl_builtinSkills sl) "builtin"
    (addSkills (sl_globalSkills sl) "global"
       (addSkills (sl_workspaceSkills sl) "workspace" [])).

Definition load_from (dir name : string) : option string :=
  if bool_decide (dir = "") then None else stripFrontmatter <$> read_file (skill_file dir name).

Definition LoadSkill sl (name : string) : option string :=
  match load_from (sl_workspaceSkills sl) name with
  | Some content => Some content
  | None =>
      match load_from (sl_globalSkills sl) name with
      | Some content => Some content
      | None => load_from (sl_builtinSkills sl) name
      end
  end.

Definition nl : string := String lf "".

Definition LoadSkillsForContext sl (skillNames : list string) : string :=
  join (nl +:+ nl +:+ "---" +:+ nl +:+ nl)
    (omap (λ name, (λ content, "### Skill: " +:+ name +:+ nl +:+ nl +:+ content) <$> LoadSkill sl name)
       skillNames).

Definition skill_lines (s : SkillInfo) : list string :=
  ["  <skill>";
   "    <name>" +:+ escapeXML (si_Name s) +:+ "</name>";
   "    <description>" +:+ escapeXML (si_Description s) +:+ "</description>";
   "    <location>" +:+ escapeXML (si_Path s) +:+ "</location>";
   "    <source>" +:+ si_Source s +:+ "</source>";
   "  </skill>"].

Definition BuildSkillsSummary sl : string :=
  match ListSkills sl with
  | [] => ""
  | allSkills => join nl (["<skills>"] ++ mjoin (skill_lines <$> allSkills) ++ ["</skills>"])
  end.
End loader.

(** ** Listing *)

(** The characters of the names of skills: letters, digits and hyphens. *)
Definition name_char (c : ascii) : bool := alnum c || bool_decide (c = "-"%char).

Lemma alnum_name_chars l : Forall (λ x, alnum x = true) l → Forall (λ x, name_char x = true) l.
Proof. intros H. eapply Forall_impl; [exact H|]. intros x Hx. unfold name_char. by rewrite Hx. Qed.

Lemma name_groups_chars c c' :
  matches (Star (Cat (lit "-") (plus (Cls alnum)))) c c' →
  ∃ l, c.2 = l ++ c'.2 ∧ Forall (λ x, name_char x = true) l.
Proof.
  remember (Star (Cat _ _)) as r eqn:Hr.
  induction 1 as [| | | | | |r0 c1 c2 c3 H1 _ _ IH| | | |]; simplify_eq; [by exists []|].
  apply Cat_iff in H1 as (d & (x & l & E & Hx & ->)%Cls_iff & (m & Em & _ & Hm)%plus_class_chars).
  destruct (IH eq_refl) as (l3 & E3 & H3). bool_nums. subst x. cbn in Em.
  exists ("-"%char :: m ++ l3). rewrite E, Em, E3. cbn [app]. rewrite <-app_assoc. split; [done|].
  constructor; [done|]. apply Forall_app. split; [by apply alnum_name_chars|done].
Qed.

Lemma name_chars s :
  MatchString namePattern s = true → s ≠ "" ∧ Forall (λ x, name_char x = true) (chars s).
Proof.
  intros (pre & post & c' & Hs & H)%MatchString_iff. unfold namePattern in H. cbn [seq_of] in H.
  apply Cat_iff in H as (d & [Hpre ->]%Bol_iff & H). apply last_None in Hpre as ->.
  apply Cat_iff in H as (d1 & (l & El & Hne & Hl)%plus_class_chars & H).
  apply Cat_iff in H as (d2 & (m & Em & Hm)%name_groups_chars & [Hend _]%Eol_iff).
  cbn in Hs, El. subst post. rewrite Em, Hend, app_nil_r in El. split.
  - intros ->. cbn in El. by destruct l.
  - rewrite El. apply Forall_app. split; [by apply alnum_name_chars|done].
Qed.

Lemma valid_form info :
  valid info = true →
  si_Name info ≠ "" ∧ String.length (si_Name info) ≤ MaxNameLength
  ∧ Forall (λ x, name_char x = true) (chars (si_Name info))
  ∧ si_Description info ≠ "" ∧ String.length (si_Description info) ≤ MaxDescriptionLength.
Proof.
  unfold valid, validate. rewrite bool_decide_eq_true. intros [H1 H2]%app_nil.
  destruct (bool_decide_reflect (si_Name info = "")) as [Hn|Hn]; [done|].
  apply app_nil in H1 as [Hl Hp].
  destruct (Nat.ltb_spec MaxNameLength (String.length (si_Name info))); [done|].
  destruct (MatchString _ _) eqn:E; [|done]. apply name_chars in E as [_ E].
  case_bool_decide as Hd; [done|].
  destruct (Nat.ltb_spec MaxDescriptionLength (String.length (si_Description info))); [done|].
  by split_and!.
Qed.

Lemma add_skill_NoDup skills info :
  NoDup (si_Name <$> skills) → NoDup (si_Name <$> add_skill skills info).
Proof.
  intros H. unfold add_skill. destruct (valid info); [|done]. cbn [negb]. case_bool_decide; [done|].
  rewrite fmap_app. apply NoDup_app. split_and!; [done| |apply NoDup_singleton].
  by intros n Hn ->%list_elem_of_singleton.
Qed.

Lemma add_skills_names l n :
  n ∈ si_Name <$> foldl add_skill [] l ↔ ∃ i, i ∈ l ∧ valid i = true ∧ si_Name i = n.
Proof.
  revert n. induction l as [|x l IH] using rev_ind; intros n.
  { cbn. rewrite elem_of_nil. split; [done|]. by intros (i & ?%elem_of_nil & _). }
  assert ((∃ i, i ∈ l ++ [x] ∧ valid i = true ∧ si_Name i = n)
          ↔ n ∈ si_Name <$> foldl add_skill [] l ∨ (valid x = true ∧ si_Name x = n)) as ->.
  { rewrite IH. setoid_rewrite elem_of_app. setoid_rewrite list_elem_of_singleton. naive_solver. }
  rewrite foldl_app. cbn [foldl]. unfold add_skill at 1.
  destruct (valid x) eqn:Hv; cbn [negb]; [|naive_solver].
  case_bool_decide as Hin; [naive_solver|].
  rewrite fmap_app, elem_of_app. csimpl. rewrite list_elem_of_singleton. naive_solver.
Qed.

(** Adding a sequence of skills keeps the first valid one of each name. *)
Lemma add_skills_spec l :
  NoDup (si_Name <$> foldl add_skill [] l)
  ∧ ∀ info, info ∈ foldl add_skill [] l ↔
      ∃ pre post, l = pre ++ info :: post ∧ valid info = true
        ∧ ∀ i, i ∈ pre → valid i = true → si_Name i ≠ si_Name info.
Proof.
  induction l as [|x l [IHn IH]] using rev_ind.
  { split; [constructor|]. intros info. cbn. rewrite elem_of_nil. split; [done|].
    by intros ([] & ? & ? & _). }
  rewrite foldl_app. cbn [foldl]. split; [by apply add_skill_NoDup|]. intros info.
  assert ((∃ pre post, l ++ [x] = pre ++ info :: post ∧ valid info = true
             ∧ ∀ i, i ∈ pre → valid i = true → si_Name i ≠ si_Name info)
          ↔ info ∈ foldl add_skill [] l
            ∨ (info = x ∧ valid x = true ∧ si_Name x ∉ si_Name <$> foldl add_skill [] l)) as ->.
  { rewrite IH, add_skills_names. split.
    - intros (pre & post & E & Hv & Hpre). destruct post as [|y post _] using rev_ind.
      + apply app_inj_tail in E as [-> ->]. right. split_and!; [done|done|]. naive_solver.
      + rewrite app_comm_cons, app_assoc in E. apply app_inj_tail in E as [-> ->]. left. eauto.
    - intros [(pre & post & -> & Hv & Hpre)|(-> & Hv & Hn)].
      + exists pre, (post ++ [x]). by rewrite <-app_assoc.
      + exists l, []. split_and!; [done|done|]. naive_solver. }
  unfold add_skill at 1. destruct (valid x) eqn:Hv; cbn [negb].
  - case_bool_decide as Hin; [naive_solver|]. rewrite elem_of_app, list_elem_of_singleton. naive_solver.
  - naive_solver.
Qed.

(** What is listed: of the skills found in the workspace, then the global,
    then the builtin directory, exactly the first valid one of each name; and a
    listed name is not empty, of at most 64 letters, digits and hyphens (so it
    is no path), with a description of at most 1024 bytes. *)
Lemma skills_listed Unmarshal fs cwd sl :
  let candidates := dir_skills Unmarshal fs cwd (sl_workspaceSkills sl) "workspace"
                    ++ dir_skills Unmarshal fs cwd (sl_globalSkills sl) "global"
                    ++ dir_skills Unmarshal fs cwd (sl_builtinSkills sl) "builtin" in
  let skills := ListSkills Unmarshal fs cwd sl in
  NoDup (si_Name <$> skills)
  ∧ ∀ info,
      (info ∈ skills ↔ ∃ pre post, candidates = pre ++ info :: post ∧ valid info = true
         ∧ ∀ i, i ∈ pre → valid i = true → si_Name i ≠ si_Name info)
      ∧ (info ∈ skills →
         si_Name info ≠ "" ∧ String.length (si_Name info) ≤ MaxNameLength
         ∧ Forall (λ x, name_char x = true) (chars (si_Name info))
         ∧ si_Description info ≠ "" ∧ String.length (si_Description info) ≤ MaxDescriptionLength).
Proof.
  cbv zeta.
  assert (ListSkills Unmarshal fs cwd sl
    = foldl add_skill [] (dir_skills Unmarshal fs cwd (sl_workspaceSkills sl) "workspace"
                          ++ dir_skills Unmarshal fs cwd (sl_globalSkills sl) "global"
                          ++ dir_skills Unmarshal fs cwd (sl_builtinSkills sl) "builtin")) as ->.
  { unfold ListSkills, addSkills. by rewrite !foldl_app. }
  destruct (add_skills_spec (dir_skills Unmarshal fs cwd (sl_workspaceSkills sl) "workspace"
    ++ dir_skills Unmarshal fs cwd (sl_globalSkills sl) "global"
    ++ dir_skills Unmarshal fs cwd (sl_builtinSkills sl) "builtin")) as [Hn Hin].
  split; [done|]. intros info. split; [apply Hin|].
  intros (pre & post & _ & Hv & _)%Hin. by apply valid_form.
Qed.

(** ** Frontmatter *)
Definition is_line_end (c : ascii) : bool := bool_decide (c = cr) || bool_decide (c = lf).
Definition dashes : list ascii := chars "---".

Lemma run_fm_open l : run fm_open (None, dashes ++ lf :: l) = [(Some lf, l)].
Proof. reflexivity. Qed.
Lemma run_fm_close p l : run fm_close (p, lf :: dashes ++ l) = [(Some "-"%char, l)].
Proof. reflexivity. Qed.

Lemma run_no_close p x l :
  x ≠ cr → (x = lf → head l ≠ Some "-"%char) → run fm_close (p, x :: l) = [].
Proof.
  intros Hcr Hlf. destruct (run fm_close (p, x :: l)) as [|c' cs] eqn:E; [done|]. exfalso.
  assert (matches fm_close (p, x :: l) c') as H by (apply run_spec; rewrite E; set_solver).
  clear E. unfold fm_close in H. cbn [seq_of] in H.
  apply Cat_iff in H as (d & H & (e & (y & m & Ed & Hy & ->)%Cls_iff & _)%Cat_iff).
  unfold line_end in H. cbn [one_of] in H.
  inversion H as [| | |? ? ? ? H1|? ? ? ? H1| | | | | |]; subst.
  - apply Cat_iff in H1 as (d' & (z & k & Ek & Hz & ->)%Cls_iff & _). cbn in Ek. bool_nums. by simplify_eq.
  - inversion H1 as [| | |? ? ? ? H2|? ? ? ? H2| | | | | |]; subst;
      apply Cls_iff in H2 as (z & k & Ek & Hz & ->); cbn in Ek, Ed; bool_nums; simplify_eq.
    by apply Hlf.
Qed.

(** No line of the text starts with a hyphen, the first apart. *)
Definition no_dash_line (l : list ascii) : Prop := ∀ a b, l ≠ a ++ lf :: "-"%char :: b.

Lemma no_dash_line_cons x l :
  no_dash_line (x :: l) → no_dash_line l ∧ (x = lf → head l ≠ Some "-"%char).
Proof.
  intros H. split.
  - intros a b ->. by apply (H (x :: a) b).
  - intros -> Hh. destruct l as [|y l]; [done|]. simplify_eq/=. by apply (H [] l).
Qed.

Lemma first_close {A} (f : pos → pos → A) fm prev t :
  cr ∉ fm → no_dash_line fm →
  head (positions prev (fm ++ lf :: dashes ++ t) ≫= λ c', f c' <$> run fm_close c')
  = Some (f (after prev fm, lf :: dashes ++ t) (Some "-"%char, t)).
Proof.
  revert prev. induction fm as [|x fm IH]; intros prev Hcr Hd.
  - cbn [app positions mbind list_bind]. by rewrite run_fm_close.
  - apply not_elem_of_cons in Hcr as [Hx Hcr]. apply no_dash_line_cons in Hd as [Hd Hh].
    cbn [app positions mbind list_bind]. rewrite run_no_close.
    + rewrite after_cons. cbn [fmap list_fmap app]. by apply IH.
    + congruence.
    + intros Hl. specialize (Hh Hl). by destruct fm.
Qed.

Lemma line_ends_longest n prev l :
  length l ≤ n → ∃ p ends, star_go (run line_end) n (prev, l) = (p, drop_while is_line_end l) :: ends.
Proof.
  revert prev l. induction n as [|n IH]; intros prev l Hn.
  { destruct l; [|simpl in Hn; lia]. by eexists _, _. }
  destruct l as [|x l]; [cbn; by eexists _, _|]. cbn [length] in Hn. cbn [star_go].
  destruct (decide (x = cr)) as [->|Hcr].
  - destruct l as [|y l]; [cbn; destruct n; by eexists _, _|].
    destruct (decide (y = lf)) as [->|Hlf].
    + change (run line_end (prev, cr :: lf :: l)) with [(Some lf, l); (Some cr, lf :: l)].
      cbn [mbind list_bind snd length]. rewrite (proj2 (Nat.ltb_lt _ _)) by lia.
      destruct (IH (Some lf) l ltac:(simpl in Hn; lia)) as (p & ends & ->). by eexists _, _.
    + assert (run line_end (prev, cr :: y :: l) = [(Some cr, y :: l)]) as ->.
      { unfold line_end. cbn [one_of lit_l run snd mbind list_bind app].
        rewrite (bool_decide_eq_true_2 (cr = cr)), (bool_decide_eq_false_2 (cr = lf)) by done.
        cbn [mbind list_bind snd]. by rewrite (bool_decide_eq_false_2 (y = lf)). }
      cbn [mbind list_bind snd]. rewrite (proj2 (Nat.ltb_lt _ _)) by (simpl; lia).
      destruct (IH (Some cr) (y :: l) ltac:(simpl in *; lia)) as (p & ends & ->). by eexists _, _.
  - destruct (decide (x = lf)) as [->|Hlf].
    + change (run line_end (prev, lf :: l)) with [(Some lf, l)].
      cbn [mbind list_bind snd length]. rewrite (proj2 (Nat.ltb_lt _ _)) by lia.
      destruct (IH (Some lf) l ltac:(lia)) as (p & ends & ->). by eexists _, _.
    + assert (run line_end (prev, x :: l) = []) as ->.
      { unfold line_end. cbn [one_of lit_l run snd mbind list_bind app].
        by rewrite (bool_decide_eq_false_2 (x = cr)), (bool_decide_eq_false_2 (x = lf)). }
      cbn [mbind list_bind app drop_while]. unfold is_line_end at 1.
      rewrite !bool_decide_eq_false_2 by done. by eexists _, _.
Qed.

(** A frontmatter is found again: of a text made of a frontmatter between
    lines of three hyphens and a body, the loader extracts the frontmatter and
    what is left after stripping is the body without its leading line ends, for
    a frontmatter without carriage returns and without a later line that starts
    with a hyphen. *)
Lemma frontmatter_roundtrip (fm body : string) :
  cr ∉ chars fm → no_dash_line (chars fm) →
  let content := "---" +:+ String lf (fm +:+ String lf ("---" +:+ String lf body)) in
  extractFrontmatter content = fm
  ∧ stripFrontmatter content = implode (drop_while is_line_end (chars body)).
Proof.
  intros Hcr Hd content.
  assert (chars content = dashes ++ lf :: chars fm ++ lf :: dashes ++ lf :: chars body) as Hc.
  { unfold content. rewrite chars_app. cbn [chars]. rewrite chars_app. cbn [chars]. by rewrite chars_app. }
  assert (frontmatter_match (chars content) = Some (chars fm, (Some "-"%char, lf :: chars body))) as Hm.
  { unfold frontmatter_match. rewrite Hc, run_fm_open. cbn [mbind list_bind fst snd]. rewrite app_nil_r.
    rewrite (first_close (λ c' e, (between _ c', e))) by done. f_equal. f_equal. unfold between.
    cbn [snd]. rewrite length_app.
    replace (length (chars fm) + _ - _) with (length (chars fm)) by lia. by rewrite take_app_length. }
  unfold extractFrontmatter, stripFrontmatter. rewrite Hm. split; [by rewrite implode_chars|].
  cbn [run snd]. destruct (line_ends_longest (length (lf :: chars body)) (Some "-"%char) (lf :: chars body))
    as (p & ends & Hs); [done|].
  by rewrite Hs.
Qed.

Lemma frontmatter_roundtrip_witness :
  extractFrontmatter ("---" +:+ String lf ("name: gh" +:+ String lf ("---" +:+ String lf "body"))) = "name: gh".
Proof.
  refine (proj1 (frontmatter_roundtrip "name: gh" "body" _ _)).
  - refine (bool_decide_unpack (¬ _) _). by vm_compute.
  - intros a b. do 9 (destruct a as [|? a]; [intros H; discriminate H|]). intros H. discriminate H.
Defined.

(** ** The summary *)
Definition xml_char (c : ascii) : list ascii :=
  if bool_decide (c = "&"%char) then chars "&amp;"
  else if bool_decide (c = "<"%char) then chars "&lt;"
  else if bool_decide (c = ">"%char) then chars "&gt;"
  else [c].

Lemma chars_replace_all c r s :
  chars (replace_all c r s) = mjoin ((λ x, if bool_decide (x = c) then chars r else [x]) <$> chars s).
Proof. unfold replace_all. by rewrite chars_implode. Qed.

Lemma mjoin_fmap_cons (f : ascii → list ascii) x l :
  mjoin (f <$> x :: l) = f x ++ mjoin (f <$> l).
Proof. done. Qed.
Lemma mjoin_fmap_app (f : ascii → list ascii) l1 l2 :
  mjoin (f <$> l1 ++ l2) = mjoin (f <$> l1) ++ mjoin (f <$> l2).
Proof.
  induction l1 as [|x l1 IH]; [done|]. cbn [app]. by rewrite !mjoin_fmap_cons, IH, app_assoc.
Qed.

(** The three replacements, the ampersand first, are one pass over the text. *)
Lemma escapeXML_pass s : chars (escapeXML s) = mjoin (xml_char <$> chars s).
Proof.
  unfold escapeXML. rewrite !chars_replace_all. induction (chars s) as [|x l IH]; [done|].
  rewrite (mjoin_fmap_cons xml_char), <-IH, mjoin_fmap_cons, !mjoin_fmap_app. f_equal. unfold xml_char.
  destruct (decide (x = "&"%char)) as [->|H1]; [reflexivity|].
  destruct (decide (x = "<"%char)) as [->|H2]; [reflexivity|].
  destruct (decide (x = ">"%char)) as [->|H3]; [reflexivity|].
  by repeat (rewrite !bool_decide_eq_false_2 by done; cbn).
Qed.

(** A name, description or path cannot add an element to the summary, and two
    texts are told apart. *)
Lemma escapeXML_safe s : "<"%char ∉ chars (escapeXML s) ∧ ">"%char ∉ chars (escapeXML s).
Proof.
  rewrite escapeXML_pass.
  assert (∀ c x, c ∈ xml_char x → c ≠ "<"%char ∧ c ≠ ">"%char) as H.
  { intros c x. unfold xml_char. repeat case_bool_decide; set_solver. }
  split; intros (l & Hin & (x & -> & _)%list_elem_of_fmap)%list_elem_of_join; by apply H in Hin as [? ?].
Qed.

(** ** What the loader does with unusual skills *)

(** A skill is listed under the name of its frontmatter but loaded by the name
    of its directory. *)
Definition renamed_skill : fsys :=
  {[ [chars "w"] := EDir; [chars "w"; chars "skills"] := EDir;
     [chars "w"; chars "skills"; chars "gh"] := EDir;
     [chars "w"; chars "skills"; chars "gh"; chars "SKILL.md"] :=
       EFile ("---" +:+ nl +:+ "name: github" +:+ nl +:+ "description: d" +:+ nl +:+ "---" +:+ nl +:+ "x") ]}.
Lemma listed_name_not_loadable :
  let sl := NewSkillsLoader "/w" "" "" in
  si_Name <$> ListSkills (λ _, None) renamed_skill [] sl = ["github"]
  ∧ LoadSkill renamed_skill [] sl "github" = None
  ∧ LoadSkill renamed_skill [] sl "gh" = Some "x".
Proof. split_and!; vm_compute; reflexivity. Qed.

(** A skill without a frontmatter has no description and is never listed. *)
Lemma no_frontmatter_not_listed Unmarshal fs cwd dir source d info :
  (∀ content, read_file fs cwd (skill_file dir d.1) = Some content → extractFrontmatter content = "") →
  skill_of Unmarshal fs cwd dir source d = Some info → valid info = false.
Proof.
  intros Hfm. unfold skill_of. destruct (negb d.2); [done|]. destruct (negb (sys_Stat _ _ _)); [done|].
  unfold getSkillMetadata. intros [= <-].
  destruct (read_file fs cwd (skill_file dir d.1)) as [content|] eqn:E.
  - rewrite (Hfm _ eq_refl), bool_decide_eq_true_2 by done.
    apply bool_decide_eq_false. unfold validate. cbn. by intros [_ ?]%app_nil.
  - apply bool_decide_eq_false. unfold validate. cbn. by intros [_ ?]%app_nil.
Qed.

(** An empty frontmatter is recognised with the line ends of Windows, not with
    those of Unix. *)
Lemma empty_frontmatter_by_line_end :
  stripFrontmatter ("---" +:+ String cr (String lf ("---" +:+ String lf "body"))) = "body"
  ∧ stripFrontmatter ("---" +:+ String lf ("---" +:+ String lf "body"))
    = "---" +:+ String lf ("---" +:+ String lf "body").
Proof. split; vm_compute; reflexivity. Qed.
