(* ===== verification/HostFiles.v ===== *)
(** * The program's own files on paths without links

    [os.RemoveAll], and what the operations of [FileTools] on the host's tree
    change when no symbolic link lies on the path or below the target: only
    entries below the target, and missing directories on the way to it. *)
From stdpp Require Import base gmap strings list.
From Stdlib Require Import Ascii ZArith Lia.
From S2P Require Import Prelude GoStrings Paths FileTools.

(** ** RemoveAll *)
Definition sys_RemoveAll (fs : fsys) (v : view) (path : string) : fsys * option errno :=
  match view_path false fs v path with
  | Err ENOENT => (fs, None)
  | Err e => (fs, Some e)
  | Ok p => (filter (λ q, ¬ p `prefix_of` q.1) fs, None)
  end.

(** ** Paths without links *)
Definition no_link (fs : fsys) (p : list comp) : Prop :=
  ∀ k t, k `prefix_of` p → fs !! k ≠ Some (ELink t).

(** No link on the way to [T], at it, or below it. *)
Definition links_ok (T : list comp) (fs : fsys) : Prop := ∀ r, no_link fs (T ++ r).

(** [fs'] differs from [fs] only below [T] and by directories made on the way. *)
Definition grows_below (T : list comp) (fs fs' : fsys) : Prop :=
  ∀ p, ¬ T `prefix_of` p →
    fs' !! p = fs !! p ∨ (p `prefix_of` T ∧ fs !! p = None ∧ fs' !! p = Some EDir).

#[export] Instance grows_below_preorder T : PreOrder (grows_below T).
Proof.
  split; [by left|]. intros f g h H1 H2 p Hp.
  destruct (H1 p Hp) as [E1|(? & ? & E1)], (H2 p Hp) as [E2|(? & E2' & E2)];
    [left; congruence|right|right|right]; (split_and!; [done|congruence|congruence]).
Qed.

(** One step of an operation below [T]. *)
Definition step_below (T : list comp) (fs fs' : fsys) : Prop :=
  links_ok T fs → grows_below T fs fs' ∧ links_ok T fs'.

#[export] Instance step_below_preorder T : PreOrder (step_below T).
Proof.
  split; [by intros f Hf|]. intros f g h H1 H2 Hf.
  destruct (H1 Hf) as [G1 Hg]. destruct (H2 Hg) as [G2 Hh]. split; [by etrans|done].
Qed.

Lemma ordinary_skip p : ordinary p → skip_comp p = false ∧ p ≠ dotdot.
Proof.
  intros (H1 & H2 & H3 & _). unfold skip_comp. by rewrite !bool_decide_eq_false_2.
Qed.

Lemma no_link_head fs cur p todo t : no_link fs (cur ++ p :: todo) → fs !! (cur ++ [p]) ≠ Some (ELink t).
Proof. intros H. apply H. exists todo. by rewrite <-app_assoc. Qed.

Lemma walk_no_link follow links fs cur todo q :
  Forall ordinary todo → no_link fs (cur ++ todo) →
  walk false follow links fs [] cur todo = Ok q → q = cur ++ todo.
Proof.
  intros Ho. revert cur. induction Ho as [|p todo Hp Ho IH]; intros cur Hn Hw.
  { destruct links; simpl in Hw; simplify_eq; by rewrite app_nil_r. }
  destruct (ordinary_skip p Hp) as [Hs Hd].
  assert (walk false follow links fs [] (cur ++ [p]) todo = Ok q → q = cur ++ p :: todo) as IH'.
  { intros H. apply IH in H; [by rewrite H, <-app_assoc|]. by rewrite <-app_assoc. }
  destruct links; simpl in Hw; rewrite Hs in Hw; rewrite bool_decide_eq_false_2 in Hw by done;
    destruct (fs !! (cur ++ [p])) as [[]|] eqn:E;
    try (by apply IH'); try (by apply (no_link_head _ _ _ _ _ Hn) in E);
    case_bool_decide; simplify_eq; done.
Qed.

(** An absolute path as [filepath.Clean] writes it. *)
Definition clean_abs (path : string) : Prop := IsAbs path = true ∧ Clean path = path.

Lemma clean_abs_Clean path : IsAbs path = true → clean_abs (Clean path).
Proof.
  intros H. split; [by rewrite IsAbs_Clean_s|]. unfold Clean. by rewrite chars_implode, Clean_idemp.
Qed.

Lemma clean_abs_split path :
  clean_abs path →
  split_l slash (chars path)
  = [] :: (if bool_decide (norm (chars path) = []) then [[]] else norm (chars path)).
Proof.
  intros [Ha Hc]. rewrite <-Hc at 1. unfold Clean. rewrite chars_implode. unfold Clean_l.
  pose proof (norm_cleaned (chars path)) as Hn. unfold IsAbs in Ha. rewrite Ha in *.
  by rewrite split_render.
Qed.

Lemma clean_abs_walk follow fs cwd path :
  clean_abs path →
  view_path follow fs (host_view cwd) path
  = match walk false follow 40 fs [] [] (norm (chars path)) with Ok q => Ok q | Err e => Err e end.
Proof.
  intros Hc. unfold view_path, start_of, host_view. cbn [v_confined v_links v_root v_start negb andb].
  rewrite (proj1 Hc), clean_abs_split by done.
  assert (∀ todo, walk false follow 40 fs [] [] ([] :: todo) = walk false follow 40 fs [] [] todo) as Hsk.
  { intros todo. reflexivity. }
  rewrite Hsk. case_bool_decide as E; [rewrite Hsk, E|]; by destruct (walk _ _ _ _ _ _ _).
Qed.

Lemma view_no_link follow fs cwd path q :
  clean_abs path → no_link fs (norm (chars path)) →
  view_path follow fs (host_view cwd) path = Ok q → q = norm (chars path).
Proof.
  intros Hc Hn. rewrite clean_abs_walk by done.
  destruct (walk _ _ _ _ _ _ _) as [q'|] eqn:E; [|done]. intros [= <-].
  apply walk_no_link in E; [done| |done]. apply rooted_ordinary, Hc.
Qed.

(** ** The operations *)
Section below.
Context (T : list comp) (cwd : list comp).
Implicit Types (fs : fsys) (path : string).

(** The path lies at or below [T]. *)
Definition target path : Prop := clean_abs path ∧ T `prefix_of` norm (chars path).

Lemma links_ok_target fs path : links_ok T fs → target path → no_link fs (norm (chars path)).
Proof. intros Hl [_ [r ->]]. apply Hl. Qed.

Lemma links_ok_ext fs fs' :
  links_ok T fs → (∀ p t, fs' !! p = Some (ELink t) → fs !! p = Some (ELink t)) → links_ok T fs'.
Proof. intros H Hext r k t Hk E. by eapply (H r k t Hk), Hext. Qed.

Lemma view_target follow fs path q :
  links_ok T fs → target path → view_path follow fs (host_view cwd) path = Ok q → T `prefix_of` q.
Proof.
  intros Hl Ht Hv. apply view_no_link in Hv as ->; [apply Ht|apply Ht|by apply links_ok_target].
Qed.

Lemma insert_below fs p d : T `prefix_of` p → step_below T fs (<[p := EFile d]> fs).
Proof.
  intros Hp Hl. split.
  - intros q Hq. left. apply lookup_insert_ne. by intros ->.
  - apply (links_ok_ext fs); [done|]. intros q t. rewrite lookup_insert_Some. naive_solver.
Qed.

Lemma sys_WriteFile_below fs path d :
  target path → step_below T fs (sys_WriteFile fs (host_view cwd) path d).1.
Proof.
  intros Ht Hl. unfold sys_WriteFile. destruct (view_path _ _ _ _) as [p|] eqn:E; [|done].
  destruct (is_dir _); [done|]. cbn [fst]. apply insert_below; [by eapply view_target|done].
Qed.

Lemma sys_Remove_below fs path : target path → step_below T fs (sys_Remove fs (host_view cwd) path).
Proof.
  intros Ht Hl. unfold sys_Remove. destruct (view_path _ _ _ _) as [p|] eqn:E; [|done].
  destruct (is_dir _); [done|]. apply view_target in E; [|done|done]. split.
  - intros q Hq. left. apply lookup_delete_ne. by intros ->.
  - apply (links_ok_ext fs); [done|]. intros q t. rewrite lookup_delete_Some. naive_solver.
Qed.

Lemma sys_RemoveAll_below fs path :
  target path → step_below T fs (sys_RemoveAll fs (host_view cwd) path).1.
Proof.
  intros Ht Hl. unfold sys_RemoveAll.
  destruct (view_path _ _ _ _) as [p|e] eqn:E; [|by destruct e]. apply view_target in E; [|done|done].
  split.
  - intros q Hq. left. cbn [fst]. destruct (fs !! q) as [x|] eqn:Eq.
    + apply map_lookup_filter_Some. split; [done|]. intros Hpq. apply Hq. by etrans.
    + apply map_lookup_filter_None. by left.
  - apply (links_ok_ext fs); [done|]. intros q t (? & _)%map_lookup_filter_Some. done.
Qed.

Lemma mkdirs_below links fs cur todo :
  Forall ordinary todo → T `prefix_of` (cur ++ todo) ∨ (cur ++ todo) `prefix_of` T →
  step_below T fs (mkdirs false links [] fs cur todo).1.
Proof.
  intros Ho. revert fs cur. induction Ho as [|p todo Hp Ho IH]; intros fs cur Hpre.
  { by destruct links. }
  destruct (ordinary_skip p Hp) as [Hs Hd].
  assert (T `prefix_of` (cur ++ p :: todo) ∨ cur ++ p :: todo `prefix_of` T) as Hpre' by done.
  replace (cur ++ p :: todo) with ((cur ++ [p]) ++ todo) in Hpre by by rewrite <-app_assoc.
  intros Hl.
  assert (∀ t, fs !! (cur ++ [p]) ≠ Some (ELink t)) as Hnl.
  { intros t. destruct Hpre as [[r Hr]|[r Hr]].
    - destruct (prefix_weak_total T (cur ++ [p]) ((cur ++ [p]) ++ todo)) as [[k ->]|[k ->]];
        [by exists r|by exists todo|by apply (Hl k)|].
      apply (Hl []). rewrite app_nil_r. by exists k.
    - apply (Hl []). rewrite app_nil_r, Hr. exists (todo ++ r). by rewrite !app_assoc. }
  assert (fs !! (cur ++ [p]) = None → step_below T fs (<[cur ++ [p] := EDir]> fs)) as Hins.
  { intros Hnone _. split.
    - intros q Hq. destruct (decide (q = cur ++ [p])) as [->|Hne]; [|left; by apply lookup_insert_ne].
      right. split_and!; [|done|apply lookup_insert_eq].
      destruct Hpre as [Hpre|Hpre]; [|etrans; [|exact Hpre]; by exists todo].
      by destruct (prefix_weak_total T (cur ++ [p]) _ Hpre (prefix_app_r _ _ todo (reflexivity _))).
    - apply (links_ok_ext fs); [done|]. intros q t. rewrite lookup_insert_Some. naive_solver. }
  assert (∀ fs', step_below T fs' (mkdirs false links [] fs' (cur ++ [p]) todo).1) as IH'
    by (intros fs'; by apply IH).
  destruct links; simpl in *; rewrite Hs, bool_decide_eq_false_2 by done;
    destruct (fs !! (cur ++ [p])) as [[]|] eqn:E;
    try (by apply IH'); try done; try (by destruct (Hnl _ eq_refl));
    by refine (transitivity (Hins eq_refl) (IH' _) Hl).
Qed.

Lemma sys_MkdirAll_below fs path :
  clean_abs path → T `prefix_of` norm (chars path) ∨ norm (chars path) `prefix_of` T →
  step_below T fs (sys_MkdirAll fs (host_view cwd) path).1.
Proof.
  intros Hc Hpre. unfold sys_MkdirAll, start_of, host_view.
  cbn [v_confined v_links v_root v_start negb andb]. rewrite (proj1 Hc), clean_abs_split by done.
  assert (∀ todo, mkdirs false 40 [] fs [] ([] :: todo) = mkdirs false 40 [] fs [] todo) as Hsk by done.
  rewrite Hsk. case_bool_decide as E; [rewrite Hsk; apply (mkdirs_below 40 fs [] [])|apply mkdirs_below].
  - done.
  - right. apply prefix_nil.
  - apply rooted_ordinary, Hc.
  - done.
Qed.
End below.

(** ** Joined paths *)
Lemma Join_abs a b : IsAbs a = true → b ≠ "" → clean_abs (Join a b).
Proof.
  intros Ha Hb. unfold Join. rewrite bool_decide_eq_false_2 by (by intros ->).
  apply clean_abs_Clean. unfold IsAbs, IsAbs_l in *. rewrite chars_app. by destruct (chars a).
Qed.

(** The parent of a clean absolute path is clean, and loses the last component. *)
Lemma Dir_clean_abs p :
  clean_abs p → clean_abs (Dir p) ∧ norm (chars (Dir p)) = removelast (norm (chars p)).
Proof.
  intros Hc. pose proof Hc as [Ha _].
  assert (slash ∈ chars p) as (a & b & Hp & Hb)%list_elem_of_split_r.
  { unfold IsAbs, IsAbs_l in Ha. apply bool_decide_eq_true in Ha. by apply head_elem. }
  assert (reverse (drop_while (λ c, negb (bool_decide (c = slash))) (reverse (chars p))) = a ++ [slash]) as Hd.
  { rewrite Hp, reverse_app, reverse_cons, <-app_assoc.
    assert (∀ k l, slash ∉ k → drop_while (λ c, negb (bool_decide (c = slash))) (k ++ slash :: l) = slash :: l) as Hk.
    { induction k as [|x k IH]; intros l Hk; cbn [app drop_while].
      - by rewrite bool_decide_eq_true_2.
      - apply not_elem_of_cons in Hk as [Hx Hk]. rewrite bool_decide_eq_false_2 by congruence. by apply IH. }
    cbn [app]. rewrite Hk by (by rewrite elem_of_reverse). by rewrite reverse_cons, reverse_involutive. }
  assert (IsAbs_l (a ++ [slash]) = true) as Habs.
  { unfold IsAbs, IsAbs_l in *. rewrite Hp in Ha. by destruct a. }
  assert (Dir p = Clean (implode (a ++ [slash]))) as ->.
  { unfold Dir, Dir_l, Clean. by rewrite Hd, chars_implode. }
  split; [apply clean_abs_Clean; unfold IsAbs; by rewrite chars_implode|].
  unfold Clean. rewrite !chars_implode, norm_Clean. pose proof (clean_abs_split _ Hc) as Hs.
  pose proof (rooted_ordinary _ Ha) as Ho.
  rewrite Hp in Hs at 1. rewrite split_l_app', (split_l_free slash b) in Hs by done.
  unfold norm at 1. rewrite Habs, split_l_app'.
  change (split_l slash []) with [@nil ascii].
  rewrite clean_go_app. cbn [clean_go]. rewrite bool_decide_eq_true_2 by done. cbn [orb].
  rewrite reverse_involutive.
  assert (split_l slash a = [] :: removelast (norm (chars p))) as ->.
  { assert (∀ X, split_l slash a ++ [b] = [] :: X → X ≠ [] → split_l slash a = [] :: removelast X) as HX.
    { intros X E HX. destruct X as [|x X _] using rev_ind; [done|].
      rewrite removelast_last. rewrite app_comm_cons in E. by apply app_inj_tail in E as [-> _]. }
    case_bool_decide as E; [|by apply HX]. rewrite E. by apply (HX [[]]). }
  cbn [clean_go]. rewrite bool_decide_eq_true_2 by done. cbn [orb].
  rewrite clean_go_ordinary; [done|].
  destruct (norm (chars p)) as [|x X _] using rev_ind; [done|].
  rewrite removelast_last. by apply Forall_app in Ho as [? _].
Qed.

(** A local name joined to an absolute directory is below it. *)
Lemma norm_Join_local a b :
  IsAbs a = true → IsAbs b = false → head (norm (chars b)) ≠ Some dotdot →
  norm (chars (Join a b)) = norm (chars a) ++ norm (chars b).
Proof.
  intros Ha Hb Hh. unfold Join. rewrite bool_decide_eq_false_2 by (by intros ->).
  unfold Clean. rewrite chars_implode, norm_Clean, !chars_app. cbn [chars app].
  rewrite norm_join_rel by done. f_equal. unfold norm. f_equal.
  unfold IsAbs, IsAbs_l in *. by destruct (chars a).
Qed.

(** A name that is one ordinary component. *)
Lemma norm_name s : ordinary (chars s) → norm (chars s) = [chars s] ∧ IsAbs s = false.
Proof.
  intros (Hne & Hd & Hdd & Hs).
  assert (IsAbs s = false) as Ha.
  { unfold IsAbs, IsAbs_l. apply bool_decide_eq_false. intros Hh%head_elem. done. }
  split; [|done]. unfold norm, IsAbs in *. rewrite Ha, split_l_free by done. cbn [clean_go].
  by rewrite !bool_decide_eq_false_2.
Qed.

Lemma norm_Join_name a s :
  IsAbs a = true → ordinary (chars s) →
  clean_abs (Join a s) ∧ norm (chars (Join a s)) = norm (chars a) ++ [chars s].
Proof.
  intros Ha Ho. pose proof Ho as (Hne & _ & Hdd & _). destruct (norm_name s Ho) as [Hn Hs].
  split; [apply Join_abs; [done|by intros ->]|].
  rewrite norm_Join_local, Hn; [done..|]. rewrite Hn. intros [= E]. done.
Qed.

(** A tree without any link. *)
Definition linkless (fs : fsys) : bool :=
  forallb (λ '(_, e), match e with ELink _ => false | _ => true end) (map_to_list fs).

Lemma linkless_ok T fs : linkless fs = true → links_ok T fs.
Proof.
  intros H r k t _ E. unfold linkless in H. rewrite forallb_forall in H.
  apply elem_of_map_to_list, list_elem_of_In in E. by apply H in E.
Qed.
