(* ===== verification/SkillRegistry.v ===== *)
(** * Skill registries (pkg/skills/registry.go, clawhub_registry.go, pkg/utils/zip.go,
    download.go, skills.go)

    The registries skills are installed from: the interface [SkillRegistry],
    the manager that searches all of them, the client of ClawHub, and the
    extraction of a downloaded archive.  The HTTP transport, the encoding of
    URLs, JSON and the ZIP format are arguments; a temporary file is the bytes
    downloaded into it. *)
From stdpp Require Import base gmap strings list pretty sorting.
From Stdlib Require Import Ascii ZArith QArith Lia.
From S2P Require Import Prelude GoStrings ProviderTypes Paths ToolBase SplitMessage FileTools HostFiles.
#[local] Open Scope nat_scope.

(** ** Identifiers *)
Definition ValidateSkillIdentifier (identifier : string) : option string :=
  let trimmed := trim_space identifier in
  if bool_decide (trimmed = "") then Some "identifier is required and must be a non-empty string"
  else if contains_any trimmed (String slash (String (ascii_of_nat 92) "")) || contains trimmed ".."
  then Some "identifier must not contain path separators or '..' to prevent directory traversal"
  else None.

(** ** Search results *)
Record SearchResult := mk_SearchResult {
  sr_Score : Q;
  sr_Slug : string;
  sr_DisplayName : string;
  sr_Summary : string;
  sr_Version : string;
  sr_RegistryName : string;
}.

Record SkillMeta := mk_SkillMeta {
  sm_Slug : string;
  sm_DisplayName : string;
  sm_Summary : string;
  sm_LatestVersion : string;
  sm_IsMalwareBlocked : bool;
  sm_IsSuspicious : bool;
  sm_RegistryName : string;
}.

Record InstallResult := mk_InstallResult {
  ir_Version : string;
  ir_IsMalwareBlocked : bool;
  ir_IsSuspicious : bool;
  ir_Summary : string;
}.

(** The interface; installing works on the tree of files. *)
Record SkillRegistry := mk_SkillRegistry {
  r_Name : string;
  r_Search : string → Z → result string (list SearchResult);
  r_GetSkillMeta : string → result string SkillMeta;
  r_DownloadAndInstall : string → string → string → fsys → result string InstallResult * fsys;
}.

(** What the callers of the interface rely on: installing into a directory
    changes nothing outside it, as long as no link leads out of it. *)
Class RegistryOk (r : SkillRegistry) : Prop := install_below :
  ∀ slug version targetDir fs, clean_abs targetDir →
    step_below (norm (chars targetDir)) fs (r_DownloadAndInstall r slug version targetDir fs).2.

(** ** The manager *)
Record RegistryManager := mk_RegistryManager {
  rm_registries : list SkillRegistry;
  rm_maxConcurrent : Z;
}.
Definition NewRegistryManager : RegistryManager := mk_RegistryManager [] 2.
Definition AddRegistry (r : SkillRegistry) (rm : RegistryManager) : RegistryManager :=
  mk_RegistryManager (rm_registries rm ++ [r]) (rm_maxConcurrent rm).
Definition GetRegistry (name : string) (rm : RegistryManager) : option SkillRegistry :=
  find_first (λ r, bool_decide (r_Name r = name)) (rm_registries rm).

(** Insertion into what is sorted so far, from its right end. *)
Definition score_lt (a b : SearchResult) : bool := negb (Qle_bool (sr_Score b) (sr_Score a)).
Fixpoint shift_in (key : SearchResult) (rev_sorted : list SearchResult) : list SearchResult :=
  match rev_sorted with
  | x :: rest => if score_lt x key then x :: shift_in key rest else key :: rev_sorted
  | [] => [key]
  end.
Definition sortByScoreDesc (results : list SearchResult) : list SearchResult :=
  reverse (foldl (λ rev_sorted key, shift_in key rev_sorted) [] results).

(** [SearchAll]: the registries answer in the order of [arrived], a permutation
    of their outcomes. *)
Definition SearchAll (arrived : list (result string (list SearchResult))) (limit : Z)
    (rm : RegistryManager) : result string (list SearchResult) :=
  if bool_decide (rm_registries rm = []) then Err "no registries configured"
  else
    let oks := omap (λ o, match o with Ok l => Some l | Err _ => None end) arrived in
    let errs := omap (λ o, match o with Err e => Some e | Ok _ => None end) arrived in
    match oks, last errs with
    | [], Some lastErr => Err ("all registries failed: " +:+ lastErr)
    | _, _ =>
        let merged := sortByScoreDesc (mjoin oks) in
        Ok (if (0 <? limit)%Z && (Z.to_nat limit <? length merged) then take (Z.to_nat limit) merged
            else merged)
    end.

(** ** Archives *)
Record zip_entry := mk_zip_entry {
  z_Name : string;
  z_symlink : bool;
  z_dir : bool;
  z_size : Z;                    (* the size its header declares *)
  z_open_error : option string;
  z_data : string;               (* the bytes it inflates to, up to the error *)
  z_read_error : option string;
}.

Definition maxFileSize : Z := (5 * 1024 * 1024)%Z.

Section host.
Context (cwd : list comp).

Definition extractSingleFile (f : zip_entry) (destPath : string) (fs : fsys) : fsys * option string :=
  let v := host_view cwd in
  if (maxFileSize <? z_size f)%Z
  then (fs, Some ("zip entry " +:+ quoted (z_Name f) +:+ " is too large (" +:+ pretty (z_size f) +:+ " bytes)"))
  else
    match z_open_error f with
    | Some e => (fs, Some ("failed to open zip entry " +:+ quoted (z_Name f) +:+ ": " +:+ e))
    | None =>
        match sys_WriteFile fs v destPath "" with
        | (fs, Some e) =>
            (fs, Some ("failed to create file " +:+ quoted destPath +:+ ": " +:+ errno_text e))
        | (fs, None) =>
            let too_long := (maxFileSize <? Z.of_nat (String.length (z_data f)))%Z in
            let data := if too_long then str_take (Z.to_nat (maxFileSize + 1)) (z_data f) else z_data f in
            let fs := (sys_WriteFile fs v destPath data).1 in
            if too_long then
              (sys_Remove fs v destPath,
               Some ("zip entry " +:+ quoted (z_Name f) +:+ " exceeds max size ("
                     +:+ pretty (maxFileSize + 1)%Z +:+ " bytes)"))
            else
              match z_read_error f with
              | Some e => (sys_Remove fs v destPath, Some ("failed to extract " +:+ quoted (z_Name f) +:+ ": " +:+ e))
              | None => (fs, None)
              end
        end
    end.

Fixpoint extract_entries (targetDir : string) (entries : list zip_entry) (fs : fsys) :
    fsys * option string :=
  match entries with
  | [] => (fs, None)
  | f :: entries' =>
      let v := host_view cwd in
      let cleanName := Clean (z_Name f) in
      if has_prefix cleanName ".." || IsAbs cleanName
      then (fs, Some ("zip entry has unsafe path: " +:+ quoted (z_Name f)))
      else
        let destPath := Join targetDir cleanName in
        let targetDirClean := Clean targetDir in
        if negb (has_prefix (Clean destPath) (targetDirClean +:+ "/"))
           && negb (bool_decide (Clean destPath = targetDirClean))
        then (fs, Some ("zip entry escapes target dir: " +:+ quoted (z_Name f)))
        else if z_symlink f
        then (fs, Some ("zip contains symlink " +:+ quoted (z_Name f) +:+ "; symlinks are not allowed"))
        else if z_dir f then
          match sys_MkdirAll fs v destPath with
          | (fs, Some e) => (fs, Some (errno_text e))
          | (fs, None) => extract_entries targetDir entries' fs
          end
        else
          match sys_MkdirAll fs v (Dir destPath) with
          | (fs, Some e) => (fs, Some (errno_text e))
          | (fs, None) =>
              match extractSingleFile f destPath fs with
              | (fs, Some e) => (fs, Some e)
              | (fs, None) => extract_entries targetDir entries' fs
              end
          end
  end.

(** [archive]: the entries, or the error of [zip.OpenReader]. *)
Definition ExtractZipFile (archive : result string (list zip_entry)) (targetDir : string) (fs : fsys) :
    fsys * option string :=
  match archive with
  | Err e => (fs, Some ("invalid ZIP: " +:+ e))
  | Ok entries =>
      match sys_MkdirAll fs (host_view cwd) targetDir with
      | (fs, Some e) => (fs, Some ("failed to create target dir: " +:+ errno_text e))
      | (fs, None) => extract_entries targetDir entries fs
      end
  end.

(** ** Downloads *)

(** A response: status, body, and an error of reading it to its end. *)
Record response := mk_response { rs_status : Z; rs_body : string; rs_error : option string }.

Definition status_ok (r : response) : bool := ((200 <=? rs_status r) && (rs_status r <? 300))%Z.

(** [DownloadToFile]: the bytes of the temporary file. *)
Definition DownloadToFile (resp : result string response) (maxBytes : Z) : result string string :=
  match resp with
  | Err e => Err ("request failed: " +:+ e)
  | Ok r =>
      if negb (status_ok r)
      then Err ("HTTP " +:+ pretty (rs_status r) +:+ ": " +:+ str_take 512 (rs_body r))
      else
        let len := Z.of_nat (String.length (rs_body r)) in
        let cut := ((0 <? maxBytes) && (maxBytes <? len))%Z in
        match (if cut then None else rs_error r) with
        | Some e => Err ("download write failed: " +:+ e)
        | None =>
            if cut then Err ("download too large: " +:+ pretty (maxBytes + 1)%Z
                             +:+ " bytes (max " +:+ pretty maxBytes +:+ ")")
            else Ok (rs_body r)
        end
  end.

(** ** ClawHub *)
Record ClawHubConfig := mk_ClawHubConfig {
  cc_Enabled : bool;
  cc_BaseURL : string;
  cc_AuthToken : string;
  cc_SearchPath : string;
  cc_SkillsPath : string;
  cc_DownloadPath : string;
  cc_Timeout : Z;
  cc_MaxZipSize : Z;
  cc_MaxResponseSize : Z;
}.

Record ClawHubRegistry := mk_ClawHubRegistry {
  ch_baseURL : string;
  ch_authToken : string;
  ch_searchPath : string;
  ch_skillsPath : string;
  ch_downloadPath : string;
  ch_maxZipSize : Z;
  ch_maxResponseSize : Z;
  ch_timeout : duration;        (* of its HTTP client *)
}.

Definition or_default (s d : string) : string := if bool_decide (s = "") then d else s.
Definition positive_or (n d : Z) : Z := if (0 <? n)%Z then n else d.

Definition NewClawHubRegistry (cfg : ClawHubConfig) : ClawHubRegistry :=
  mk_ClawHubRegistry (or_default (cc_BaseURL cfg) "https://clawhub.ai") (cc_AuthToken cfg)
    (or_default (cc_SearchPath cfg) "/api/v1/search") (or_default (cc_SkillsPath cfg) "/api/v1/skills")
    (or_default (cc_DownloadPath cfg) "/api/v1/download")
    (positive_or (cc_MaxZipSize cfg) (50 * 1024 * 1024))
    (positive_or (cc_MaxResponseSize cfg) (2 * 1024 * 1024))
    (if (0 <? cc_Timeout cfg)%Z then (cc_Timeout cfg * second)%Z else (30 * second)%Z).

(** The answers of the service, as JSON decoding gives them. *)
Record clawhubSearchResult := mk_clawhubSearchResult {
  cs_Score : Q;
  cs_Slug : option string;
  cs_DisplayName : option string;
  cs_Summary : option string;
  cs_Version : option string;
}.
Record clawhubSkillResponse := mk_clawhubSkillResponse {
  ck_Slug : string;
  ck_DisplayName : string;
  ck_Summary : string;
  ck_LatestVersion : option string;
  ck_Moderation : option (bool * bool);     (* malware blocked, suspicious *)
}.

(** [http.Client.Do] with the authorization header (none: ""); URL building,
    JSON and ZIP decoding. *)
Record services := mk_services {
  http_do : string → string → result string response;
  url_with_query : string → list (string * string) → result string string;
  path_escape : string → string;
  decode_search : string → result string (list clawhubSearchResult);
  decode_skill : string → result string clawhubSkillResponse;
  open_zip : string → result string (list zip_entry);
}.

Context (S : services).
Implicit Types (c : ClawHubRegistry).

Definition authorization c : string :=
  if bool_decide (ch_authToken c = "") then "" else "Bearer " +:+ ch_authToken c.

Definition doGet c (url : string) : result string string :=
  match http_do S url (authorization c) with
  | Err e => Err e
  | Ok r =>
      let cut := (ch_maxResponseSize c <=? Z.of_nat (String.length (rs_body r)))%Z in
      let body := if cut then str_take (Z.to_nat (ch_maxResponseSize c)) (rs_body r) else rs_body r in
      match (if cut then None else rs_error r) with
      | Some e => Err ("failed to read response: " +:+ e)
      | None => if status_ok r then Ok body
                else Err ("HTTP " +:+ pretty (rs_status r) +:+ ": " +:+ body)
      end
  end.

Definition search_result (r : clawhubSearchResult) : option SearchResult :=
  let slug := DerefStr (cs_Slug r) "" in
  let summary := DerefStr (cs_Summary r) "" in
  if bool_decide (slug = "") || bool_decide (summary = "") then None
  else Some (mk_SearchResult (cs_Score r) slug (or_default (DerefStr (cs_DisplayName r) "") slug)
               summary (DerefStr (cs_Version r) "") "clawhub").

Definition Search c (query : string) (limit : Z) : result string (list SearchResult) :=
  match url_with_query S (ch_baseURL c +:+ ch_searchPath c)
          ([("q", query)] ++ if (0 <? limit)%Z then [("limit", pretty limit)] else []) with
  | Err e => Err ("invalid base URL: " +:+ e)
  | Ok u =>
      match doGet c u with
      | Err e => Err ("search request failed: " +:+ e)
      | Ok body =>
          match decode_search S body with
          | Err e => Err ("failed to parse search response: " +:+ e)
          | Ok rs => Ok (omap search_result rs)
          end
      end
  end.

Definition invalid_slug (slug e : string) : string := "invalid slug " +:+ quoted slug +:+ ": error: " +:+ e.

Definition GetSkillMeta c (slug : string) : result string SkillMeta :=
  match ValidateSkillIdentifier slug with
  | Some e => Err (invalid_slug slug e)
  | None =>
      match doGet c (ch_baseURL c +:+ ch_skillsPath c +:+ "/" +:+ path_escape S slug) with
      | Err e => Err ("skill metadata request failed: " +:+ e)
      | Ok body =>
          match decode_skill S body with
          | Err e => Err ("failed to parse skill metadata: " +:+ e)
          | Ok r => Ok (mk_SkillMeta (ck_Slug r) (ck_DisplayName r) (ck_Summary r)
                          (default "" (ck_LatestVersion r)) (default false (fst <$> ck_Moderation r))
                          (default false (snd <$> ck_Moderation r)) "clawhub")
          end
      end
  end.

Definition DownloadAndInstall c (slug version targetDir : string) (fs : fsys) :
    result string InstallResult * fsys :=
  match ValidateSkillIdentifier slug with
  | Some e => (Err (invalid_slug slug e), fs)
  | None =>
      let meta := match GetSkillMeta c slug with Ok m => Some m | Err _ => None end in
      let installVersion := or_default version (default "" (sm_LatestVersion <$> meta)) in
      let installVersion := or_default installVersion "latest" in
      let res := mk_InstallResult installVersion (default false (sm_IsMalwareBlocked <$> meta))
                   (default false (sm_IsSuspicious <$> meta)) (default "" (sm_Summary <$> meta)) in
      match url_with_query S (ch_baseURL c +:+ ch_downloadPath c)
              ([("slug", slug)] ++ if bool_decide (installVersion = "latest") then []
                                   else [("version", installVersion)]) with
      | Err e => (Err ("invalid base URL: " +:+ e), fs)
      | Ok u =>
          match DownloadToFile (http_do S u (authorization c)) (ch_maxZipSize c) with
          | Err e => (Err ("download failed: " +:+ e), fs)
          | Ok bytes =>
              match ExtractZipFile (open_zip S bytes) targetDir fs with
              | (fs, Some e) => (Err e, fs)
              | (fs, None) => (Ok res, fs)
              end
          end
      end
  end.

Definition clawhub c : SkillRegistry :=
  mk_SkillRegistry "clawhub" (Search c) (GetSkillMeta c) (DownloadAndInstall c).

Record RegistryConfig := mk_RegistryConfig { rc_ClawHub : ClawHubConfig; rc_MaxConcurrentSearches : Z }.

Definition NewRegistryManagerFromConfig (cfg : RegistryConfig) : RegistryManager :=
  let rm := mk_RegistryManager [] (positive_or (rc_MaxConcurrentSearches cfg) 2) in
  if cc_Enabled (rc_ClawHub cfg) then AddRegistry (clawhub (NewClawHubRegistry (rc_ClawHub cfg))) rm
  else rm.
End host.

(** ** Sorting *)
Definition score_is (s : Q) (r : SearchResult) : bool := Qeq_bool (sr_Score r) s.

Lemma score_lt_spec a b : score_lt a b = true ↔ (sr_Score a < sr_Score b)%Q.
Proof.
  unfold score_lt. rewrite negb_true_iff, <-not_true_iff_false, Qle_bool_iff.
  split; [apply Qnot_le_lt|apply Qlt_not_le].
Qed.

Lemma shift_in_perm key l : shift_in key l ≡ₚ key :: l.
Proof.
  induction l as [|x l IH]; cbn [shift_in]; [done|]. destruct (score_lt x key); [|done].
  rewrite IH. apply Permutation_swap.
Qed.

Lemma shift_in_filter s key l :
  List.filter (score_is s) (shift_in key l)
  = (if score_is s key then [key] else []) ++ List.filter (score_is s) l.
Proof.
  induction l as [|x l IH]; cbn [shift_in List.filter]; [by destruct (score_is s key)|].
  destruct (score_lt x key) eqn:E; cbn [List.filter]; [|by destruct (score_is s key), (score_is s x)].
  rewrite IH. destruct (score_is s key) eqn:Ek, (score_is s x) eqn:Ex; try done.
  exfalso. apply score_lt_spec in E. apply Qeq_bool_iff in Ek, Ex. rewrite Ek, Ex in E.
  by apply Qlt_irrefl in E.
Qed.

Definition not_above (a b : SearchResult) : Prop := (sr_Score a <= sr_Score b)%Q.

Lemma shift_in_sorted key l : StronglySorted not_above l → StronglySorted not_above (shift_in key l).
Proof.
  induction 1 as [|x l Hs IH Hx]; cbn [shift_in]; [by repeat constructor|].
  destruct (score_lt x key) eqn:E.
  - constructor; [done|]. rewrite shift_in_perm. constructor; [|done].
    apply score_lt_spec in E. unfold not_above. by apply Qlt_le_weak.
  - assert (not_above key x) as Hk.
    { apply not_true_iff_false in E. rewrite score_lt_spec in E. by apply Qnot_lt_le. }
    constructor; [by constructor|]. constructor; [done|].
    eapply Forall_impl; [exact Hx|]. intros y Hy. unfold not_above in *. by eapply Qle_trans.
Qed.

Lemma insertion_spec l acc :
  StronglySorted not_above acc →
  let r := foldl (λ rev_sorted key, shift_in key rev_sorted) acc l in
  StronglySorted not_above r ∧ r ≡ₚ reverse l ++ acc
  ∧ ∀ s, List.filter (score_is s) r = reverse (List.filter (score_is s) l) ++ List.filter (score_is s) acc.
Proof.
  revert acc. induction l as [|x l IH]; intros acc Hs; cbn [foldl]; [by split_and!|].
  destruct (IH (shift_in x acc) (shift_in_sorted x acc Hs)) as (H1 & H2 & H3).
  split_and!; [done| |].
  - rewrite H2, shift_in_perm, reverse_cons, <-app_assoc. done.
  - intros s. rewrite H3, shift_in_filter. cbn [List.filter].
    destruct (score_is s x); [by rewrite reverse_cons, <-app_assoc|done].
Qed.

Lemma StronglySorted_reverse {A} (R : A → A → Prop) l :
  StronglySorted R l → StronglySorted (flip R) (reverse l).
Proof.
  induction 1 as [|x l Hs IH Hx]; [constructor|]. rewrite reverse_cons. clear Hs.
  assert (Forall (λ y, flip R y x) (reverse l)) as Hf by (by apply Forall_reverse).
  induction (reverse l) as [|y k IHk]; cbn [app]; [by repeat constructor|].
  inversion IH; subst. inversion Hf; subst. constructor; [by apply IHk|].
  apply Forall_app. split; [done|]. by constructor.
Qed.

Lemma filter_reverse {A} (p : A → bool) l : List.filter p (reverse l) = reverse (List.filter p l).
Proof.
  induction l as [|x l IH]; [done|]. rewrite reverse_cons, List.filter_app, IH. cbn [List.filter].
  destruct (p x); [by rewrite reverse_cons|by rewrite app_nil_r].
Qed.

(** The results of a search over all registries: the sort is a stable sort
    by descending score (a permutation, each score at most the one before it,
    and results of one score in the order they came); a search fails exactly
    when there is no registry or every registry failed (with one at least
    answering), and otherwise gives the best results of the registries that
    answered, as many as the limit allows. *)
Lemma search_results_sorted (rs : list SearchResult) arrived limit rm :
  let best := sortByScoreDesc rs in
  best ≡ₚ rs ∧ StronglySorted (flip not_above) best
  ∧ (∀ s, List.filter (score_is s) best = List.filter (score_is s) rs)
  ∧ match SearchAll arrived limit rm with
    | Err _ => rm_registries rm = [] ∨ (∃ e, Err e ∈ arrived) ∧ ∀ l, Ok l ∉ arrived
    | Ok found =>
        ∃ answers, (∀ l, l ∈ answers ↔ Ok l ∈ arrived)
          ∧ found `prefix_of` sortByScoreDesc (mjoin answers)
          ∧ ((0 < limit)%Z → (Z.of_nat (length found) <= limit)%Z)
          ∧ (found = sortByScoreDesc (mjoin answers) ∨ Z.of_nat (length found) = limit)
    end.
Proof.
  cbv zeta. destruct (insertion_spec rs [] (SSorted_nil _)) as (H1 & H2 & H3).
  rewrite app_nil_r in H2. unfold sortByScoreDesc. split_and!.
  - by rewrite reverse_Permutation, H2, reverse_Permutation.
  - by apply StronglySorted_reverse.
  - intros s. rewrite filter_reverse, H3, app_nil_r. apply reverse_involutive.
  - unfold SearchAll. case_bool_decide as Hr; [by left|].
    set (oks := omap _ arrived). set (errs := omap _ arrived).
    assert (∀ l, l ∈ oks ↔ Ok l ∈ arrived) as Hok.
    { intros l. unfold oks. rewrite list_elem_of_omap. split; [intros ([] & ? & ?); by simplify_eq|eauto]. }
    assert (∀ e, e ∈ errs → Err e ∈ arrived) as Herr.
    { intros e. unfold errs. rewrite list_elem_of_omap. intros ([] & ? & ?); by simplify_eq. }
    destruct oks as [|o oks'] eqn:Eo; [destruct (last errs) as [e|] eqn:El|].
    + right. split; [exists e; by apply Herr, last_Some_elem_of|]. intros l Hl%Hok. by apply not_elem_of_nil in Hl.
    + exists []. split; [done|]. cbn. destruct (0 <? limit)%Z, (Z.to_nat limit); cbn; split_and!; try done; lia || by left.
    + exists (o :: oks'). split; [done|]. set (m := sortByScoreDesc _). fold m.
      destruct (Z.ltb_spec 0 limit), (Nat.ltb_spec (Z.to_nat limit) (length m)); cbn [andb];
        (split_and!; [by apply prefix_take || done|rewrite ?length_take; lia|]);
        try (by left); right; rewrite length_take; lia.
Qed.

Lemma search_results_sorted_witness :
  let r s n := mk_SearchResult s n n "x" "" "clawhub" in
  StronglySorted (flip not_above) (sortByScoreDesc [r 1%Q "a"; r 2%Q "b"; r 1%Q "c"]).
Proof. exact (proj1 (proj2 (search_results_sorted _ [] 5 NewRegistryManager))). Defined.

(** ** Extraction stays below its target *)
Lemma no_dotdot_prefix name :
  has_prefix (Clean name) ".." = false → IsAbs (Clean name) = false →
  IsAbs (Clean name) = false ∧ head (norm (chars (Clean name))) ≠ Some dotdot.
Proof.
  intros Hp Ha. split; [done|]. unfold Clean in *. rewrite chars_implode, norm_Clean.
  unfold IsAbs, has_prefix in *. rewrite chars_implode in *. rewrite IsAbs_Clean in Ha.
  intros Hh. destruct (norm (chars name)) as [|x ps] eqn:E; [done|]. injection Hh as ->.
  unfold Clean_l in Hp. rewrite Ha, E in Hp. unfold render in Hp.
  rewrite bool_decide_eq_false_2 in Hp by done.
  change (chars "..") with dotdot in Hp. by rewrite has_prefix_dotdot_join in Hp.
Qed.

Section extraction.
Context (cwd : list comp).

Lemma extract_entry_target targetDir name :
  clean_abs targetDir → has_prefix (Clean name) ".." = false → IsAbs (Clean name) = false →
  target (norm (chars targetDir)) (Join targetDir (Clean name)).
Proof.
  intros [Ha _] Hp Hn. destruct (no_dotdot_prefix name Hp Hn) as [_ Hh].
  split; [|rewrite norm_Join_local by done; by eexists].
  apply Join_abs; [done|]. intros E. unfold Clean in E. apply (f_equal chars) in E.
  rewrite chars_implode in E. unfold Clean_l, render in E. 
  destruct (IsAbs_l _) eqn:E1; [done|]. case_bool_decide; [done|].
  pose proof (cleaned_free _ _ (norm_cleaned (chars name))) as Hf.
  destruct (norm (chars name)) as [|x ps]; [done|]. inversion_clear Hf as [|? ? [? _] _].
  by apply join_l_ne in E.
Qed.

Lemma prefix_removelast (T p : list comp) : T `prefix_of` p → T `prefix_of` removelast p ∨ removelast p `prefix_of` T.
Proof.
  intros [r ->]. destruct r as [|x r _] using rev_ind.
  - right. rewrite app_nil_r. destruct T as [|y T _] using rev_ind; [done|].
    rewrite removelast_last. by eexists.
  - left. rewrite app_assoc, removelast_last. by eexists.
Qed.

Lemma extractSingleFile_below T f dest fs :
  target T dest → step_below T fs (extractSingleFile cwd f dest fs).1.
Proof.
  intros Ht. unfold extractSingleFile. destruct (_ <? z_size f)%Z; [done|].
  destruct (z_open_error f); [done|].
  pose proof (sys_WriteFile_below T cwd fs dest "" Ht) as H1.
  destruct (sys_WriteFile fs _ _ _) as [fs1 [e|]]; [exact H1|]. cbn [fst] in H1. cbv zeta.
  pose proof (λ data, sys_WriteFile_below T cwd fs1 dest data Ht) as H2.
  assert (∀ fs2, step_below T fs2 (sys_Remove fs2 (host_view cwd) dest)) as H3
    by (intros; by apply sys_Remove_below).
  destruct (_ <? Z.of_nat _)%Z; [|destruct (z_read_error f)]; cbn [fst];
    (etrans; [exact H1|]); [etrans; [apply H2|apply H3]..|apply H2].
Qed.

Lemma extract_entries_below targetDir entries fs :
  clean_abs targetDir →
  step_below (norm (chars targetDir)) fs (extract_entries cwd targetDir entries fs).1.
Proof.
  intros Hc. revert fs. induction entries as [|f entries IH]; intros fs; cbn [extract_entries]; [done|].
  destruct (has_prefix (Clean (z_Name f)) "..") eqn:Hp; [done|].
  destruct (IsAbs (Clean (z_Name f))) eqn:Ha; [done|]. cbn [orb]. cbv zeta.
  pose proof (extract_entry_target targetDir (z_Name f) Hc Hp Ha) as Ht.
  set (dest := Join targetDir (Clean (z_Name f))) in *.
  destruct (negb _ && negb _); [done|]. destruct (z_symlink f); [done|].
  destruct (z_dir f).
  - pose proof (sys_MkdirAll_below _ cwd fs dest (proj1 Ht) (or_introl (proj2 Ht))) as H1.
    destruct (sys_MkdirAll fs _ dest) as [fs1 [e|]]; [exact H1|]. by etrans.
  - destruct (Dir_clean_abs dest (proj1 Ht)) as [Hd Hn].
    pose proof (sys_MkdirAll_below (norm (chars targetDir)) cwd fs (Dir dest) Hd
      ltac:(rewrite Hn; apply prefix_removelast, Ht)) as H1.
    destruct (sys_MkdirAll fs _ (Dir dest)) as [fs1 [e|]]; [exact H1|].
    pose proof (extractSingleFile_below _ f dest fs1 Ht) as H2.
    destruct (extractSingleFile cwd f dest fs1) as [fs2 [e|]]; cbn [fst] in *;
      [by etrans|]. etrans; [exact H1|]. by etrans.
Qed.

Lemma ExtractZipFile_below archive targetDir fs :
  clean_abs targetDir →
  step_below (norm (chars targetDir)) fs (ExtractZipFile cwd archive targetDir fs).1.
Proof.
  intros Hc. unfold ExtractZipFile. destruct archive as [entries|e]; [|done].
  pose proof (sys_MkdirAll_below _ cwd fs targetDir Hc
    (or_introl (reflexivity (norm (chars targetDir))))) as H1.
  destruct (sys_MkdirAll fs _ targetDir) as [fs1 [e|]]; [exact H1|].
  etrans; [exact H1|]. by apply extract_entries_below.
Qed.

(** The client of ClawHub keeps the promise of the interface, whatever the
    service answers. *)
#[export] Instance clawhub_ok S c : RegistryOk (clawhub cwd S c).
Proof.
  intros slug version targetDir fs Hc. cbn [clawhub r_DownloadAndInstall]. unfold DownloadAndInstall.
  destruct (ValidateSkillIdentifier slug); [done|]. destruct (url_with_query _ _ _); [|done].
  destruct (DownloadToFile _ _); [|done].
  pose proof (ExtractZipFile_below (open_zip S a0) targetDir fs Hc) as H.
  by destruct (ExtractZipFile _ _ _ _) as [fs1 [e|]].
Qed.
End extraction.

(** Extracting an archive: whatever the archive holds (names with "..",
    absolute names, links, files that lie about their size, errors anywhere),
    when no link lies on the way to the target or below it, the tree changes
    only below the target and by directories made on the way to it, and still
    has no link there. *)
Lemma zip_extraction_confined cwd archive targetDir fs :
  clean_abs targetDir → links_ok (norm (chars targetDir)) fs →
  grows_below (norm (chars targetDir)) fs (ExtractZipFile cwd archive targetDir fs).1
  ∧ links_ok (norm (chars targetDir)) (ExtractZipFile cwd archive targetDir fs).1.
Proof. intros Hc. by apply ExtractZipFile_below. Qed.

Definition demo_tree : fsys :=
  {[ [chars "w"] := EDir; [chars "w"; chars "skills"] := EDir;
     [chars "w"; chars "secret"] := EFile "s" ]}.
Definition demo_archive : list zip_entry :=
  [mk_zip_entry "SKILL.md" false false 3 None "doc" None;
   mk_zip_entry "lib/a" false false 1 None "a" None;
   mk_zip_entry "../../secret" false false 1 None "x" None].

Lemma zip_extraction_confined_witness :
  clean_abs "/w/skills/gh" ∧ links_ok (norm (chars "/w/skills/gh")) demo_tree
  ∧ grows_below (norm (chars "/w/skills/gh")) demo_tree
      (ExtractZipFile [] (Ok demo_archive) "/w/skills/gh" demo_tree).1.
Proof.
  assert (clean_abs "/w/skills/gh") as Hc by (split; vm_compute; reflexivity).
  assert (links_ok (norm (chars "/w/skills/gh")) demo_tree) as Hl
    by (apply linkless_ok; vm_compute; reflexivity).
  split; [exact Hc|]. split; [exact Hl|].
  exact (proj1 (zip_extraction_confined [] (Ok demo_archive) "/w/skills/gh" demo_tree Hc Hl)).
Defined.

(** When the metadata cannot be fetched, the archive is installed all the same,
    as neither malware nor suspicious. *)
Lemma install_without_metadata cwd S c slug version targetDir fs e res fs' :
  GetSkillMeta S c slug = Err e →
  DownloadAndInstall cwd S c slug version targetDir fs = (Ok res, fs') →
  ir_IsMalwareBlocked res = false ∧ ir_IsSuspicious res = false.
Proof.
  intros Hm. unfold DownloadAndInstall. rewrite Hm.
  destruct (ValidateSkillIdentifier slug); [done|]. destruct (url_with_query _ _ _); [|done].
  destruct (DownloadToFile _ _); [|done].
  destruct (ExtractZipFile _ _ _ _) as [fs1 [?|]]; [done|]. by intros [= <- _].
Qed.
