(* ===== verification/ToolLoop.v ===== *)
(** * The tool loop (pkg/tools/toolloop.go, message.go; pkg/providers/toolcall_utils.go)

    The loop of model calls and tool executions that subagents run, the
    normalisation of tool calls, and the message tool.  JSON encoding of
    argument maps is a parameter: [Marshal] is total, since the arguments of a
    call are decoded JSON; [Unmarshal] gives [None] for an error and
    [Some None] for [null]. *)
From stdpp Require Import base gmap strings list.
From Stdlib Require Import Ascii ZArith Lia.
From S2P Require Import Prelude GoStrings ProviderTypes Paths ToolBase AgentContext.

Section normalize.
Context (Marshal : gmap string json → string)
        (Unmarshal : string → option (option (gmap string json))).

(** The arguments of a call: those set, or else those parsed from its function. *)
Definition call_arguments (tc : ToolCall) : gmap string json :=
  let arguments := default ∅ (tc_Arguments tc) in
  match tc_Function tc with
  | Some f =>
      if bool_decide (size arguments = 0) && negb (bool_decide (fc_Arguments f = ""))
      then match Unmarshal (fc_Arguments f) with
           | Some (Some parsed) => parsed
           | _ => arguments
           end
      else arguments
  | None => arguments
  end.

(** The name of a call: its own, or else that of its function. *)
Definition call_name (tc : ToolCall) : string :=
  if bool_decide (tc_Name tc = "") then match tc_Function tc with Some f => fc_Name f | None => "" end
  else tc_Name tc.

(** The function of the call is updated in place, so the call it is given shares it. *)
Definition NormalizeToolCall (tc : ToolCall) : ToolCall :=
  let name := match tc_Function tc with
              | Some f => if bool_decide (tc_Name tc = "") then fc_Name f else tc_Name tc
              | None => tc_Name tc
              end in
  let arguments := call_arguments tc in
  let argsJSON := Marshal arguments in
  let '(fn, name) :=
    match tc_Function tc with
    | None => (mk_FunctionCall name argsJSON "", name)
    | Some f =>
        let fname := if bool_decide (fc_Name f = "") then name else fc_Name f in
        let name := if bool_decide (name = "") then fname else name in
        let fargs := if bool_decide (fc_Arguments f = "") then argsJSON else fc_Arguments f in
        (mk_FunctionCall fname fargs (fc_ThoughtSignature f), name)
    end in
  mk_ToolCall (tc_ID tc) (tc_Type tc) (Some fn) name (Some arguments) (tc_ThoughtSignature tc)
    (tc_ExtraContent tc).

Lemma NormalizeToolCall_ID tc : tc_ID (NormalizeToolCall tc) = tc_ID tc.
Proof. unfold NormalizeToolCall. by destruct (tc_Function tc). Qed.

Lemma NormalizeToolCall_Name tc : tc_Name (NormalizeToolCall tc) = call_name tc.
Proof.
  unfold NormalizeToolCall, call_name. destruct (tc_Function tc) as [f|]; simpl; repeat case_bool_decide; congruence.
Qed.

(** A normalised call has its arguments and its function, and both names as soon
    as one was given. *)
Lemma NormalizeToolCall_populated tc :
  tc_Arguments (NormalizeToolCall tc) = Some (call_arguments tc)
  ∧ ∃ f, tc_Function (NormalizeToolCall tc) = Some f
      ∧ (tc_Name (NormalizeToolCall tc) = "" ↔ fc_Name f = "")
      ∧ (tc_Name tc ≠ "" → tc_Name (NormalizeToolCall tc) = tc_Name tc)
      ∧ (fc_Arguments f = "" → Marshal (call_arguments tc) = "").
Proof.
  unfold NormalizeToolCall. destruct (tc_Function tc) as [f|]; simpl; (split; [done|]);
    eexists; (split; [done|]); simpl; [|done].
  repeat case_bool_decide; split_and!; try done; congruence.
Qed.

(** Normalising twice is normalising once, when the empty map survives encoding. *)
Lemma NormalizeToolCall_idemp tc :
  Unmarshal (Marshal ∅) = Some (Some ∅) →
  NormalizeToolCall (NormalizeToolCall tc) = NormalizeToolCall tc.
Proof.
  intros Hrt.
  assert (∀ f, tc_Function (NormalizeToolCall tc) = Some f →
    call_arguments (NormalizeToolCall tc) = call_arguments tc) as Ha.
  { intros f Hf. pose proof (NormalizeToolCall_populated tc) as [Hp _].
    unfold call_arguments at 1. rewrite Hf, Hp. simpl.
    case_bool_decide as Hs; [|done]. case_bool_decide as Hfa; [done|]. simpl.
    unfold NormalizeToolCall in Hf. destruct (tc_Function tc) as [f0|] eqn:E; simplify_eq/=.
    - case_bool_decide as H0.
      + apply map_size_empty_inv in Hs. by rewrite Hs, Hrt.
      + destruct (Unmarshal (fc_Arguments f0)) as [[parsed|]|] eqn:Eu; [|done..].
        unfold call_arguments in Hs |- *. rewrite E in Hs |- *.
        destruct (bool_decide_reflect (size (default ∅ (tc_Arguments tc)) = 0)) as [Hz|Hz];
          [|by destruct (Hz Hs)].
        rewrite bool_decide_false by done. simpl. by rewrite Eu.
    - apply map_size_empty_inv in Hs. by rewrite Hs, Hrt. }
  pose proof (NormalizeToolCall_populated tc) as [Hp (f & Hf & Hn & _ & Hj)].
  specialize (Ha f Hf). revert Ha Hp Hf Hn Hj.
  generalize (NormalizeToolCall tc), (call_arguments tc). intros n args Ha Hp Hf Hn Hj.
  unfold NormalizeToolCall. rewrite Ha, Hf. clear Ha.
  destruct n as [id ty fn nm ar ts ex], f as [fnm far fts]. simpl in *. subst.
  assert ((if bool_decide (far = "") then Marshal args else far) = far) as ->.
  { case_bool_decide; [|done]. subst. by apply Hj. }
  destruct (decide (nm = "")) as [->|Hnm].
  - rewrite (proj1 Hn eq_refl). done.
  - rewrite !(bool_decide_false (nm = "")), (bool_decide_false (fnm = "")) by tauto. done.
Qed.
End normalize.

(** ** RunToolLoop *)
Record ToolLoopConfig (W C : Type) := mk_ToolLoopConfig {
  tl_Model : string;
  tl_Tools : option (ToolRegistry W C);      (* None: nil *)
  tl_MaxIterations : Z;
}.
Arguments mk_ToolLoopConfig {W C}.
Arguments tl_Model {W C}.
Arguments tl_Tools {W C}.
Arguments tl_MaxIterations {W C}.

Record ToolLoopResult := mk_ToolLoopResult { tlr_Content : string; tlr_Iterations : nat }.

Section loop.
Context {P W C : Type} `{!LLMProvider P}.
Context (Marshal : gmap string json → string)
        (Unmarshal : string → option (option (gmap string json))).
Context (config : ToolLoopConfig W C) (channel chatID : string).
Implicit Types (w : W) (p : P) (messages : list Message).

(** The call as the assistant message records it. *)
Definition recorded_call (tc : ToolCall) : ToolCall :=
  mk_ToolCall (tc_ID tc) "function"
    (Some (mk_FunctionCall (tc_Name tc) (Marshal (default ∅ (tc_Arguments tc))) ""))
    (tc_Name tc) (tc_Arguments tc) "" None.

Definition assistant_message (response : LLMResponse) (calls : list ToolCall) : Message :=
  mk_Message "assistant" (lr_Content response) "" [] (recorded_call <$> calls) "".

Definition content_for_llm (r : ToolResult) : string :=
  if bool_decide (ForLLM r = "") then default "" (tr_Err r) else ForLLM r.

Definition execute_call (tc : ToolCall) w : ToolResult * W :=
  match tl_Tools config with
  | Some r => ExecuteWithContext r (tc_Name tc) (default ∅ (tc_Arguments tc)) channel chatID None w
  | None => (ErrorResult "No tools available", w)
  end.

Fixpoint execute_calls (calls : list ToolCall) messages w : list Message * W :=
  match calls with
  | [] => (messages, w)
  | tc :: rest =>
      let '(toolResult, w) := execute_call tc w in
      execute_calls rest (messages ++ [tool_message (content_for_llm toolResult) (tc_ID tc)]) w
  end.

Definition tool_defs : list ToolDefinition :=
  match tl_Tools config with Some r => ToProviderDefs r | None => [] end.

(** The result, with the messages exchanged and the states the loop ends in.
    [fuel]: the iterations left. *)
Fixpoint tool_loop (fuel iteration : nat) p messages w :
    result error ToolLoopResult * (list Message * P * W) :=
  match fuel with
  | O => (Ok (mk_ToolLoopResult "" iteration), (messages, p, w))
  | S n =>
      let iteration := S iteration in
      let '(answer, p) := chat p messages tool_defs (tl_Model config) in
      match answer with
      | Err e => (Err (wrap_error "LLM call failed: " e), (messages, p, w))
      | Ok response =>
          match lr_ToolCalls response with
          | [] => (Ok (mk_ToolLoopResult (lr_Content response) iteration), (messages, p, w))
          | toolCalls =>
              let normalizedToolCalls := NormalizeToolCall Marshal Unmarshal <$> toolCalls in
              let messages := messages ++ [assistant_message response normalizedToolCalls] in
              let '(messages, w) := execute_calls normalizedToolCalls messages w in
              tool_loop n iteration p messages w
          end
      end
  end.

Definition RunToolLoop p messages w : result error ToolLoopResult * (list Message * P * W) :=
  tool_loop (Z.to_nat (tl_MaxIterations config)) 0 p messages w.

(** ** The transcript *)

(** A turn of the loop: the assistant's calls, then their results in order. *)
Definition round_ok (round : list Message) : Prop :=
  ∃ a results, round = a :: results
    ∧ m_Role a = "assistant" ∧ m_ToolCalls a ≠ []
    ∧ Forall (λ m, m_Role m = "tool") results
    ∧ m_ToolCallID <$> results = tc_ID <$> m_ToolCalls a.

(** ** The dialogue: what the model asked for and what the tools answered *)

(** The tools of the loop answer a call of the model, under its own name and
    arguments. *)
Definition tool_answer (tc : ToolCall) w : ToolResult * W :=
  match tl_Tools config with
  | Some r => ExecuteWithContext r (call_name tc) (call_arguments Unmarshal tc) channel chatID None w
  | None => (ErrorResult "No tools available", w)
  end.

(** The calls of a response are made once each, in their order, each in the state the
    one before it left. *)
Inductive answered : list ToolCall → W → list ToolResult → W → Prop :=
| answered_none w : answered [] w [] w
| answered_call tc tcs r rs w w1 w2 :
    tool_answer tc w = (r, w1) → answered tcs w1 rs w2 → answered (tc :: tcs) w (r :: rs) w2.

(** The call of a message is a call of the model: its identifier, name and arguments,
    these also in the function that providers are sent. *)
Definition restates (said tc : ToolCall) : Prop :=
  tc_ID said = tc_ID tc ∧ tc_Type said = "function" ∧ tc_Name said = call_name tc
  ∧ tc_Arguments said = Some (call_arguments Unmarshal tc)
  ∧ tc_Function said
    = Some (mk_FunctionCall (call_name tc) (Marshal (call_arguments Unmarshal tc)) "").

(** The message of a result answers a call with what a tool returned. *)
Definition reports (m : Message) (tc : ToolCall) (r : ToolResult) : Prop :=
  m_Role m = "tool" ∧ m_ToolCallID m = tc_ID tc ∧ m_Content m = content_for_llm r
  ∧ m_ToolCalls m = [].

(** The messages of a round: the text of the response with all its calls, then the
    results, one for each call. *)
Definition round_of (response : LLMResponse) (results : list ToolResult) (round : list Message) : Prop :=
  ∃ a rs, round = a :: rs
    ∧ m_Role a = "assistant" ∧ m_Content a = lr_Content response
    ∧ Forall2 restates (m_ToolCalls a) (lr_ToolCalls response)
    ∧ Forall3 reports rs (lr_ToolCalls response) results.

(** [dialogue p messages w said messages' p' w']: asked again and again, each time with
    all the messages so far, the model gives the responses of [said], each with
    calls; each is answered by the tools and becomes a round of the messages. *)
Inductive dialogue : P → list Message → W → list (LLMResponse * list ToolResult) →
    P → list Message → W → Prop :=
| dialogue_end p messages w : dialogue p messages w [] p messages w
| dialogue_round p messages w response p1 results w1 round said p' messages' w' :
    chat p messages tool_defs (tl_Model config) = (Ok response, p1) →
    lr_ToolCalls response ≠ [] →
    answered (lr_ToolCalls response) w results w1 →
    round_of response results round →
    dialogue p1 (messages ++ round) w1 said p' messages' w' →
    dialogue p messages w ((response, results) :: said) p' messages' w'.

Lemma recorded_restates tc :
  restates (recorded_call (NormalizeToolCall Marshal Unmarshal tc)) tc.
Proof.
  destruct (NormalizeToolCall_populated Marshal Unmarshal tc) as [Ha _].
  unfold restates, recorded_call. simpl.
  by rewrite NormalizeToolCall_ID, NormalizeToolCall_Name, Ha.
Qed.

Lemma execute_call_answer tc w :
  execute_call (NormalizeToolCall Marshal Unmarshal tc) w = tool_answer tc w.
Proof.
  destruct (NormalizeToolCall_populated Marshal Unmarshal tc) as [Ha _].
  unfold execute_call, tool_answer. by rewrite NormalizeToolCall_Name, Ha.
Qed.

Lemma execute_calls_spec tcs messages w :
  ∃ results rs w', execute_calls (NormalizeToolCall Marshal Unmarshal <$> tcs) messages w
                   = (messages ++ rs, w')
    ∧ answered tcs w results w' ∧ Forall3 reports rs tcs results.
Proof.
  revert messages w. induction tcs as [|tc tcs IH]; intros messages w; csimpl.
  { exists [], [], w. rewrite app_nil_r. repeat constructor. }
  rewrite execute_call_answer. destruct (tool_answer tc w) as [r w1] eqn:Er.
  rewrite NormalizeToolCall_ID.
  destruct (IH (messages ++ [tool_message (content_for_llm r) (tc_ID tc)]) w1)
    as (results & rs & w' & -> & Ha & Hr).
  exists (r :: results), (tool_message (content_for_llm r) (tc_ID tc) :: rs), w'.
  rewrite <-app_assoc. split_and!; [done|by econstructor|by constructor].
Qed.

Lemma one_round response messages w :
  let calls := NormalizeToolCall Marshal Unmarshal <$> lr_ToolCalls response in
  ∃ results round w',
    execute_calls calls (messages ++ [assistant_message response calls]) w = (messages ++ round, w')
    ∧ answered (lr_ToolCalls response) w results w' ∧ round_of response results round.
Proof.
  intros calls.
  destruct (execute_calls_spec (lr_ToolCalls response) (messages ++ [assistant_message response calls]) w)
    as (results & rs & w' & E & Ha & Hr).
  exists results, (assistant_message response calls :: rs), w'.
  fold calls in E. split_and!; [by rewrite E, <-app_assoc|done|]. eexists _, _. split_and!; [done..| |done].
  simpl. subst calls. rewrite <-list_fmap_compose. apply Forall2_fmap_l, Forall_Forall2_diag, Forall_forall.
  intros tc _. apply recorded_restates.
Qed.

(** A round of the dialogue is a round. *)
Lemma round_of_ok response results round :
  lr_ToolCalls response ≠ [] → round_of response results round → round_ok round.
Proof.
  intros Hne (a & rs & -> & Ha & _ & Hc & Hr). exists a, rs. split_and!; [done|done| | |].
  - intros E. rewrite E in Hc. inversion Hc. congruence.
  - clear -Hr. induction Hr as [|m tc r rs tcs results Hm Hr IH]; constructor; [apply Hm|done].
  - trans (tc_ID <$> lr_ToolCalls response).
    + clear -Hr. induction Hr as [|m tc r rs tcs results Hm Hr IH]; csimpl; [done|]. f_equal; [apply Hm|done].
    + clear -Hc. induction Hc as [|x y l k Hx Hc IH]; csimpl; [done|]. f_equal; [symmetry; apply Hx|done].
Qed.

(** The messages at the end are those at the start and the rounds. *)
Lemma dialogue_rounds p messages w said p' messages' w' :
  dialogue p messages w said p' messages' w' →
  ∃ rounds, messages' = messages ++ mjoin rounds ∧ Forall round_ok rounds
    ∧ Forall2 (λ x round, round_of x.1 x.2 round) said rounds.
Proof.
  induction 1 as [|p messages w response p1 results w1 round said p' messages' w' Hc Hne Ha Hr _ IH].
  { exists []. csimpl. by rewrite app_nil_r. }
  destruct IH as (rounds & -> & Hok & Hs). exists (round :: rounds). csimpl.
  rewrite app_assoc. split_and!; [done| |by constructor]. constructor; [by eapply round_of_ok|done].
Qed.

(** How the loop ended after [k] rounds, with the model in [p] and the messages it was
    last asked with. *)
Definition loop_outcome (res : result error ToolLoopResult) (k : nat) p messages p' : Prop :=
  match res with
  | Ok r =>
      (k = Z.to_nat (tl_MaxIterations config) ∧ r = mk_ToolLoopResult "" k ∧ p' = p)
      ∨ (k < Z.to_nat (tl_MaxIterations config) ∧ ∃ response,
           chat p messages tool_defs (tl_Model config) = (Ok response, p')
           ∧ lr_ToolCalls response = []
           ∧ r = mk_ToolLoopResult (lr_Content response) (S k))
  | Err e =>
      k < Z.to_nat (tl_MaxIterations config) ∧ ∃ e',
        chat p messages tool_defs (tl_Model config) = (Err e', p')
        ∧ e = wrap_error "LLM call failed: " e'
  end.

Lemma tool_loop_spec fuel k p messages w :
  fuel + k = Z.to_nat (tl_MaxIterations config) →
  let '(res, (messages', p', w')) := tool_loop fuel k p messages w in
  ∃ said p1, dialogue p messages w said p1 messages' w'
    ∧ loop_outcome res (k + length said) p1 messages' p'.
Proof.
  revert k p messages w. induction fuel as [|n IH]; intros k p messages w Hk; cbn [tool_loop].
  { exists [], p. csimpl. rewrite Nat.add_0_r.
    split; [constructor|]. left. split; [lia|done]. }
  destruct (chat p messages tool_defs (tl_Model config)) as [[response|e] p1] eqn:Ec.
  2:{ exists [], p. csimpl. rewrite Nat.add_0_r.
      split; [constructor|]. split; [lia|]. by exists e. }
  destruct (lr_ToolCalls response) as [|tc tcs] eqn:Et.
  { exists [], p. csimpl. rewrite Nat.add_0_r.
    split; [constructor|]. right. split; [lia|]. by exists response. }
  rewrite <-Et.
  destruct (one_round response messages w) as (results & round & w1 & -> & Ha & Hround).
  specialize (IH (S k) p1 (messages ++ round) w1 ltac:(lia)).
  destruct (tool_loop n _ _ _ _) as [res [[messages' p'] w']].
  destruct IH as (said & p2 & Hsaid & Hout).
  exists ((response, results) :: said), p2. split; [|by cbn [length]; rewrite <-plus_n_Sm].
  econstructor; [done|congruence|done..].
Qed.

Definition ready messages : Prop :=
  ∃ m, last messages = Some m ∧ (m_Role m = "user" ∨ m_Role m = "tool").

Lemma acceptable_results base a results :
  acceptable (base ++ [a]) → m_Role a = "assistant" → m_ToolCalls a ≠ [] →
  Forall (λ m, m_Role m = "tool") results → acceptable (base ++ a :: results).
Proof.
  intros Hb Ha Hc. induction results as [|r rs IH] using rev_ind; [done|].
  intros [Hrs Hr]%Forall_app. rewrite app_comm_cons, app_assoc. apply acceptable_snoc.
  split; [by apply IH|]. inversion_clear Hr as [|? ? Ht _]. constructor; try congruence.
  intros _. exists (length base), a. split_and!; [by rewrite list_lookup_middle|done|done|].
  intros k b Hk Hlook. rewrite Forall_lookup in Hrs.
  rewrite lookup_app_r in Hlook by lia. destruct (k - length base) as [|k'] eqn:E; [lia|].
  by apply (Hrs k').
Qed.

Lemma acceptable_round base round :
  acceptable base → ready base → round_ok round →
  acceptable (base ++ round) ∧ ready (base ++ round).
Proof.
  intros Hb (p & Hp & Hrole) (a & results & -> & Ha & Hc & Ht & Hid). split.
  - apply acceptable_results; [|done..]. apply acceptable_snoc. split; [done|].
    constructor; [congruence|congruence|]. intros _ _. by exists p.
  - destruct results as [|r rs] using rev_ind.
    { csimpl in Hid. destruct (m_ToolCalls a); done. }
    apply Forall_app in Ht as [_ Ht]. inversion_clear Ht as [|? ? Hr _].
    exists r. rewrite app_comm_cons, app_assoc, last_snoc. auto.
Qed.

Lemma acceptable_rounds base rounds :
  acceptable base → ready base → Forall round_ok rounds → acceptable (base ++ mjoin rounds).
Proof.
  intros Hb Hr H. revert base Hb Hr. induction H as [|round rounds Hround _ IH]; intros base Hb Hr;
    csimpl; [by rewrite app_nil_r|].
  rewrite app_assoc. destruct (acceptable_round base round Hb Hr Hround). by apply IH.
Qed.

Lemma acceptable_request_rounds base rounds :
  acceptable_request base → ready base → Forall round_ok rounds →
  acceptable_request (base ++ mjoin rounds).
Proof.
  intros (sys & rest & -> & Hsys & Hrest) (m & Hm & Hrole) Hr. exists sys, (rest ++ mjoin rounds).
  rewrite app_assoc. split_and!; [done|done|]. apply acceptable_rounds; [done| |done].
  exists m. split; [|done]. destruct rest as [|x rest _] using rev_ind.
  - rewrite app_nil_r in Hm. apply last_Some_elem_of in Hm. rewrite Forall_forall in Hsys.
    apply Hsys in Hm. destruct Hrole; congruence.
  - by rewrite app_assoc, !last_snoc in *.
Qed.

(** C2: the tool loop keeps the transcript in step with the model.  Whatever the
    provider and the tools do, the loop is a dialogue: each time the model is asked
    with all the messages so far; the response becomes an assistant message with its
    text and all its calls, each with its identifier, its name and its arguments; each
    call is made once, in order, with that name and these arguments; and what the
    tool returned follows, one message for each call, in the order of the calls and
    with their identifiers.  The loop asks at most [MaxIterations] times and ends in
    one of three ways: the model, asked with the messages at the end, answered without
    calls, and that answer is the result; it failed, and the error says so; or all
    iterations were used, and the result is the empty text without an error.  So
    messages that start as a request in order (system messages, then messages
    acceptable to a provider, ending in a user message or a result; the subagents pass
    a system and a user message) are one at the end. *)
Theorem tool_loop_transcript p messages w :
  let '(res, (messages', p', w')) := RunToolLoop p messages w in
  ∃ said p1 rounds,
    dialogue p messages w said p1 messages' w'
    ∧ messages' = messages ++ mjoin rounds
    ∧ Forall2 (λ x round, round_of x.1 x.2 round) said rounds
    ∧ loop_outcome res (length said) p1 messages' p'
    ∧ (acceptable_request messages → ready messages → acceptable_request messages').
Proof.
  unfold RunToolLoop.
  pose proof (tool_loop_spec (Z.to_nat (tl_MaxIterations config)) 0 p messages w (Nat.add_0_r _)) as H.
  destruct (tool_loop _ _ _ _ _) as [res [[messages' p'] w']].
  destruct H as (said & p1 & Hd & Hout).
  destruct (dialogue_rounds _ _ _ _ _ _ _ Hd) as (rounds & -> & Hok & Hs).
  exists said, p1, rounds. split_and!; [done..|]. intros. by apply acceptable_request_rounds.
Qed.
End loop.

(** A provider that asks for one tool and then answers: its state is what it says next. *)
Definition scripted_chat (script : list (result error LLMResponse)) (messages : list Message)
    (defs : list ToolDefinition) (model : string) :
    result error LLMResponse * list (result error LLMResponse) :=
  match script with
  | [] => (Err (errors_New "no more answers"), [])
  | r :: rest => (r, rest)
  end.
#[export] Instance scripted_provider : LLMProvider (list (result error LLMResponse)) :=
  {| chat := scripted_chat |}.

Definition demo_config : ToolLoopConfig unit unit := mk_ToolLoopConfig "m" None 5.
Definition demo_call : ToolCall := mk_ToolCall "c1" "function" None "read_file" None "" None.
Definition demo_script : list (result error LLMResponse) :=
  [Ok (mk_LLMResponse "" "" [demo_call] "tool_calls" None); Ok (mk_LLMResponse "done" "" [] "stop" None)].

(** A tool that notes its argument and gives it back, and a model that calls it twice in
    one response. *)
Definition note_tool : Tool (list string) unit :=
  mk_Tool "note" "Notes a text." (string_parameters [("text", "The text")] ["text"])
    (λ args log, (SilentResult (arg_string_or_empty args "text"), log ++ [arg_string_or_empty args "text"]))
    None None.
Definition note_config : ToolLoopConfig (list string) unit :=
  mk_ToolLoopConfig "m" (Some (Register NewToolRegistry note_tool)) 5.
Definition note_json (args : gmap string json) : string := "{" +:+ arg_string_or_empty args "text" +:+ "}".
Definition note_call (id text : string) : ToolCall :=
  mk_ToolCall id "" None "note" (Some {[ "text" := JStr text ]}) "" None.
Definition note_script : list (result error LLMResponse) :=
  [Ok (mk_LLMResponse "Noting." "" [note_call "c1" "one"; note_call "c2" "two"] "tool_calls" None);
   Ok (mk_LLMResponse "done" "" [] "stop" None)].
Definition note_request : list Message := [text_message "system" "You are a subagent."; text_message "user" "go"].

Lemma tool_loop_transcript_witness :
  let '(res, (messages', p', w')) :=
    RunToolLoop note_json (λ _, None) note_config "cli" "direct" note_script note_request [] in
  res = Ok (mk_ToolLoopResult "done" 2) ∧ w' = ["one"; "two"]
  ∧ (m_Content <$> messages') = ["You are a subagent."; "go"; "Noting."; "one"; "two"]
  ∧ acceptable_request messages'.
Proof.
  pose proof (tool_loop_transcript note_json (λ _, None) note_config "cli" "direct" note_script
    note_request []) as H.
  destruct (RunToolLoop _ _ _ _ _ _ _ _) as [res [[messages' p'] w']] eqn:E.
  vm_compute in E. injection E as <- <- <- <-.
  destruct H as (said & p1 & rounds & _ & _ & _ & _ & Hacc).
  split_and!; [reflexivity..|]. apply Hacc.
  - exists [text_message "system" "You are a subagent."], [text_message "user" "go"].
    split_and!; [done|by repeat constructor|].
    apply (acceptable_snoc [] (text_message "user" "go")). split; [intros i m Hi; by destruct i|by constructor].
  - exists (text_message "user" "go"). auto.
Defined.

(** ** The message tool (pkg/tools/message.go) *)
Section message.
(** [B]: what the send callback acts on (the bus). *)
Context {B C : Type}.

Record MessageTool := mk_MessageTool {
  sendCallback : option (string → string → string → B → option string * B);
  defaultChannel : string;
  defaultChatID : string;
  sentInRound : bool;
}.

Definition NewMessageTool : MessageTool := mk_MessageTool None "" "" false.

Definition SetContext (channel chatID : string) (t : MessageTool) : MessageTool :=
  mk_MessageTool (sendCallback t) channel chatID false.

Definition HasSentInRound (t : MessageTool) : bool := sentInRound t.

Definition SetSendCallback callback (t : MessageTool) : MessageTool :=
  mk_MessageTool (Some callback) (defaultChannel t) (defaultChatID t) (sentInRound t).

Definition message_Execute (args : gmap string json) (tb : MessageTool * B) :
    ToolResult * (MessageTool * B) :=
  let '(t, b) := tb in
  match arg_string args "content" with
  | None => (ErrorResult "content is required", tb)
  | Some content =>
      let channel := arg_string_or_empty args "channel" in
      let chatID := arg_string_or_empty args "chat_id" in
      let channel := if bool_decide (channel = "") then defaultChannel t else channel in
      let chatID := if bool_decide (chatID = "") then defaultChatID t else chatID in
      if bool_decide (channel = "") || bool_decide (chatID = "")
      then (ErrorResult "No target channel/chat specified", tb)
      else
        match sendCallback t with
        | None => (ErrorResult "Message sending not configured", tb)
        | Some send =>
            match send channel chatID content b with
            | (Some err, b) => (WithError (ErrorResult ("sending message: " +:+ err)) err, (t, b))
            | (None, b) =>
                (SilentResult ("Message sent to " +:+ channel +:+ ":" +:+ chatID),
                 (mk_MessageTool (sendCallback t) (defaultChannel t) (defaultChatID t) true, b))
            end
        end
  end.

Definition message_tool : Tool (MessageTool * B) C :=
  mk_Tool "message"
    "Send a message to user on a chat channel. Use this when you want to communicate something."
    (string_parameters [("content", "The message content to send");
                        ("channel", "Optional: target channel (telegram, whatsapp, etc.)");
                        ("chat_id", "Optional: target chat/user ID")] ["content"])
    message_Execute
    (Some (λ channel chatID '(t, b), (SetContext channel chatID t, b))) None.
End message.
Arguments MessageTool : clear implicits.

(** The registry sets the context, and with it resets the flag, before every
    call: a message that was sent in the round is forgotten when a later call of
    the tool in the same round fails. *)
Lemma sent_message_forgotten :
  let send channel chatID content (b : list string) := (@None string, b ++ [content]) in
  let r : ToolRegistry _ unit := Register NewToolRegistry message_tool in
  let w0 := (SetSendCallback send NewMessageTool, @nil string) in
  let w1 := (ExecuteWithContext r "message" {[ "content" := JStr "hello" ]} "cli" "u1" None w0).2 in
  let w2 := (ExecuteWithContext r "message" ∅ "cli" "u1" None w1).2 in
  w1.2 = ["hello"] ∧ HasSentInRound w1.1 = true ∧ w2.2 = ["hello"] ∧ HasSentInRound w2.1 = false.
Proof. vm_compute. auto. Qed.
