(* ===== verification/Wire.v ===== *)
(** * What the clients of model providers share

    The options of a request, the lines of a stream, and the texts, calls and results
    of a transcript, by which a request in the format of a provider is compared with
    the messages it is made from, and these with what the model and the tools said. *)
From stdpp Require Import base gmap strings list.
From Stdlib Require Import Ascii ZArith QArith Lia.
From S2P Require Import Prelude GoStrings ProviderTypes Paths ToolBase AgentContext ToolLoop.
#[local] Open Scope nat_scope.

(** ** Options: the dynamic types the clients look for *)
Inductive option_value :=
| VInt (n : Z)
| VInt64 (n : Z)
| VFloat64 (q : Q)
| VFloat32 (q : Q)
| VString (s : string)
| VOther.

Abbreviation Options := (gmap string option_value) (only parsing).

(** Conversion of a float to an int truncates. *)
Definition int_of_float (q : Q) : Z := Z.quot (Qnum q) (Z.pos (Qden q)).

Definition asInt (v : option option_value) : option Z :=
  match v with
  | Some (VInt n) => Some n
  | Some (VInt64 n) => Some n
  | Some (VFloat64 q) => Some (int_of_float q)
  | Some (VFloat32 q) => Some (int_of_float q)
  | _ => None
  end.

Definition asFloat (v : option option_value) : option Q :=
  match v with
  | Some (VFloat64 q) => Some q
  | Some (VFloat32 q) => Some q
  | Some (VInt n) => Some (inject_Z n)
  | Some (VInt64 n) => Some (inject_Z n)
  | _ => None
  end.

(** ** [bufio.Scanner] over lines: a line of 65536 bytes or more ends the scan *)
Definition max_token : Z := 65536.
Definition carriage_return : ascii := ascii_of_nat 13.

Definition drop_cr (l : list ascii) : list ascii :=
  if bool_decide (last l = Some carriage_return) then take (length l - 1) l else l.

Fixpoint scan_pieces (pieces : list (list ascii)) : list string :=
  match pieces with
  | [] => []
  | l :: rest =>
      if (max_token <=? Z.of_nat (length l))%Z then []
      else match rest with
           | [] => if bool_decide (l = []) then [] else [implode (drop_cr l)]
           | _ => implode (drop_cr l) :: scan_pieces rest
           end
  end.

Definition scan_lines (text : string) : list string := scan_pieces (split_l newline_char (chars text)).

(** ** What a transcript says *)
(** A text, a call with its arguments as they are written, and the result of a call. *)
Inductive wire_event :=
| EvText (role text : string)
| EvCall (id name arguments : string)
| EvResult (id content : string).

Definition named (tc : ToolCall) : bool := negb (bool_decide (call_name tc = "")).

(** An empty text says nothing. *)
Definition text_event (role text : string) : list wire_event :=
  if bool_decide (text = "") then [] else [EvText role text].

(** The arguments of a recorded call are the text in its function. *)
Definition recorded_arguments (tc : ToolCall) : string :=
  match tc_Function tc with Some f => fc_Arguments f | None => "" end.

Definition call_event (tc : ToolCall) : wire_event := EvCall (tc_ID tc) (call_name tc) (recorded_arguments tc).

(** A user message with the identifier of a call is a result, too; system messages
    are told apart from the conversation (below). *)
Definition message_events (m : Message) : list wire_event :=
  if bool_decide (m_Role m = "assistant")
  then text_event "assistant" (m_Content m) ++ (call_event <$> m_ToolCalls m)
  else if bool_decide (m_Role m = "tool") then [EvResult (m_ToolCallID m) (m_Content m)]
  else if bool_decide (m_Role m = "user")
  then if bool_decide (m_ToolCallID m = "") then text_event "user" (m_Content m)
       else [EvResult (m_ToolCallID m) (m_Content m)]
  else [].

Lemma message_events_user m :
  m_Role m = "user" →
  message_events m = if bool_decide (m_ToolCallID m = "") then text_event "user" (m_Content m)
                     else [EvResult (m_ToolCallID m) (m_Content m)].
Proof. intros H. unfold message_events. by rewrite H. Qed.

Lemma message_events_assistant m :
  m_Role m = "assistant" →
  message_events m = text_event "assistant" (m_Content m) ++ (call_event <$> m_ToolCalls m).
Proof. intros H. unfold message_events. by rewrite H. Qed.

Lemma message_events_tool m :
  m_Role m = "tool" → message_events m = [EvResult (m_ToolCallID m) (m_Content m)].
Proof. intros H. unfold message_events. by rewrite H. Qed.

Lemma message_events_other m :
  m_Role m ≠ "assistant" → m_Role m ≠ "tool" → m_Role m ≠ "user" → message_events m = [].
Proof. intros. unfold message_events. by rewrite !bool_decide_eq_false_2. Qed.

Definition transcript_events (ms : list Message) : list wire_event := ms ≫= message_events.

Definition system_messages (ms : list Message) : list Message := filter (λ m, m_Role m = "system") ms.

(** Every call of a transcript has a name. *)
Definition calls_named (ms : list Message) : Prop :=
  Forall (λ m, m_Role m = "assistant" → Forall (λ tc, named tc = true) (m_ToolCalls m)) ms.

Lemma transcript_events_app l k :
  transcript_events (l ++ k) = transcript_events l ++ transcript_events k.
Proof. unfold transcript_events. by rewrite bind_app. Qed.

Lemma transcript_events_cons m l :
  transcript_events (m :: l) = message_events m ++ transcript_events l.
Proof. done. Qed.

Lemma transcript_events_snoc l m :
  transcript_events (l ++ [m]) = transcript_events l ++ message_events m.
Proof. rewrite transcript_events_app, transcript_events_cons. by rewrite app_nil_r. Qed.

Lemma calls_named_snoc l m :
  calls_named (l ++ [m]) ↔
  calls_named l ∧ (m_Role m = "assistant" → Forall (λ tc, named tc = true) (m_ToolCalls m)).
Proof. unfold calls_named. by rewrite Forall_app, Forall_singleton. Qed.

(** A call is recorded when its function carries its name and its arguments, which
    are those of its map, where that has any; the loops record their calls so. *)
Definition recorded (Marshal : gmap string json → result string string) (tc : ToolCall) : Prop :=
  ∃ f, tc_Function tc = Some f ∧ fc_Name f = call_name tc ∧ fc_Arguments f ≠ "" ∧
    (size (default ∅ (tc_Arguments tc)) ≠ 0 →
     Marshal (default ∅ (tc_Arguments tc)) = Ok (fc_Arguments f)).

Definition calls_recorded (Marshal : gmap string json → result string string) (ms : list Message) : Prop :=
  Forall (λ m, m_Role m = "assistant" → Forall (recorded Marshal) (m_ToolCalls m)) ms.

(** ** The interface of the clients: what a format promises about its requests

    [build] makes a request from the messages, [said] reads the conversation of it
    and [told] what it tells the model besides, which is made by [system] from the
    system messages; [admits] are the transcripts the format can express. *)
Class RequestFormat {R S : Type} (build : list Message → result error R) (said : R → list wire_event)
    (told : R → S) (system : list Message → S) (admits : list Message → Prop) : Prop := {
  format_total : ∀ ms, is_ok (build ms) = true;
  format_faithful : ∀ ms r, admits ms → build ms = Ok r → said r = transcript_events ms;
  format_told : ∀ ms r, build ms = Ok r → told r = system (system_messages ms);
}.

(** ** What a dialogue says: the text of a response, its calls, and the result of each *)
Section dialogue.
Context (Marshal : gmap string json → string).
Context (Unmarshal : string → option (option (gmap string json))).

Definition made_call (tc : ToolCall) : wire_event :=
  EvCall (tc_ID tc) (call_name tc) (Marshal (call_arguments Unmarshal tc)).

Definition exchange_events (x : LLMResponse * list ToolResult) : list wire_event :=
  text_event "assistant" (lr_Content x.1) ++ (made_call <$> lr_ToolCalls x.1)
  ++ zip_with (λ tc r, EvResult (tc_ID tc) (content_for_llm r)) (lr_ToolCalls x.1) x.2.

Lemma restates_name said tc : restates Marshal Unmarshal said tc → call_name said = call_name tc.
Proof.
  intros (_ & _ & Hn & _ & Hf). unfold call_name at 1. rewrite Hn, Hf. cbn. by case_bool_decide.
Qed.

Lemma restates_event said tc : restates Marshal Unmarshal said tc → call_event said = made_call tc.
Proof.
  intros H. unfold call_event, made_call, recorded_arguments. rewrite (restates_name _ _ H).
  destruct H as (-> & _ & _ & _ & ->). done.
Qed.

Lemma restates_recorded said tc :
  (∀ args, Marshal args ≠ "") → restates Marshal Unmarshal said tc →
  recorded (λ args, Ok (Marshal args)) said.
Proof.
  intros HM H. unfold recorded. rewrite (restates_name _ _ H). destruct H as (_ & _ & _ & -> & ->).
  eexists. split; [reflexivity|]. cbn. split; [done|]. by split.
Qed.

Lemma round_says response results round :
  round_of Marshal Unmarshal response results round →
  transcript_events round = exchange_events (response, results).
Proof.
  intros (a & rs & -> & Ha & Ht & Hc & Hr). rewrite transcript_events_cons, (message_events_assistant a Ha).
  unfold exchange_events. cbn [fst snd]. rewrite Ht, <-app_assoc. f_equal. f_equal.
  - clear -Hc. induction Hc as [|x y l k Hx Hc IH]; csimpl; [done|]. f_equal; [|done]. by apply restates_event.
  - clear -Hr. induction Hr as [|m tc r rs tcs results (Hm & Hid & Hcont & _) Hr IH]; [done|].
    rewrite transcript_events_cons, (message_events_tool m Hm), Hid, Hcont. cbn. by f_equal.
Qed.

Lemma round_no_system response results round :
  round_of Marshal Unmarshal response results round → system_messages round = [].
Proof.
  intros (a & rs & -> & Ha & _ & _ & Hr). unfold system_messages. rewrite filter_cons_False by congruence.
  clear -Hr. induction Hr as [|m tc r rs tcs results (Hm & _) Hr IH]; [done|].
  by rewrite filter_cons_False by congruence.
Qed.

Lemma round_recorded response results round :
  (∀ args, Marshal args ≠ "") → round_of Marshal Unmarshal response results round →
  calls_recorded (λ args, Ok (Marshal args)) round.
Proof.
  intros HM (a & rs & -> & Ha & _ & Hc & Hr). constructor.
  - intros _. clear -Hc HM. induction Hc; constructor; [by eapply restates_recorded|done].
  - clear -Hr. induction Hr as [|m tc r rs tcs results (Hm & _) Hr IH]; constructor; [congruence|done].
Qed.

(** What the rounds of a dialogue say, and that they tell the model nothing besides. *)
Lemma rounds_say said rounds :
  (∀ args, Marshal args ≠ "") →
  Forall2 (λ x round, round_of Marshal Unmarshal x.1 x.2 round) said rounds →
  transcript_events (mjoin rounds) = said ≫= exchange_events ∧ system_messages (mjoin rounds) = [] ∧
  calls_recorded (λ args, Ok (Marshal args)) (mjoin rounds).
Proof.
  intros HM. induction 1 as [|[response results] round said rounds Hr _ (IH1 & IH2 & IH3)];
    [split_and!; [done|done|constructor]|]. csimpl.
  split_and!.
  - by rewrite transcript_events_app, IH1, (round_says _ _ _ Hr).
  - pose proof (round_no_system _ _ _ Hr) as Hs. unfold system_messages in *. by rewrite filter_app, IH2, Hs.
  - apply Forall_app. split; [by eapply round_recorded|done].
Qed.
End dialogue.

(** ** Lines *)
Definition short (l : list ascii) : Prop := (Z.of_nat (length l) < max_token)%Z.

Lemma drop_cr_id l : last l ≠ Some carriage_return → drop_cr l = l.
Proof. intros H. unfold drop_cr. by rewrite bool_decide_eq_false_2. Qed.

Lemma scan_line l text :
  newline_char ∉ l → short l →
  scan_lines (implode (l ++ newline_char :: chars text)) = implode (drop_cr l) :: scan_lines text.
Proof.
  intros Hl Hs. unfold scan_lines. rewrite chars_implode, split_l_app by done.
  pose proof (split_l_ne newline_char (chars text)) as Hne. cbn [scan_pieces].
  unfold short in Hs. rewrite (proj2 (Z.leb_gt _ _)) by lia.
  by destruct (split_l newline_char (chars text)).
Qed.

(** The scan of a stream stops at a line that is too long; what follows is lost. *)
Lemma scan_stops l text : newline_char ∉ l → ¬ short l → scan_lines (implode (l ++ newline_char :: text)) = [].
Proof.
  intros Hl Hs. unfold scan_lines. rewrite chars_implode, split_l_app by done. cbn [scan_pieces].
  unfold short in Hs. by rewrite (proj2 (Z.leb_le _ _)) by lia.
Qed.
