(* ===== verification/OpenAICompat.v ===== *)
(** * The client of OpenAI-compatible servers (pkg/providers/openai_compat)

    The body of a request, the answer of the server, and the errors, which the
    failover reads back.  Sending a request and decoding JSON are parameters. *)
From stdpp Require Import base gmap strings list pretty.
From Stdlib Require Import Ascii ZArith QArith Lia.
From S2P Require Import Prelude GoStrings ProviderTypes Paths Regex ErrorClass ToolLoop Wire.
#[local] Open Scope go_scope.
#[local] Open Scope nat_scope.

(** ** The client *)
Record Provider := mk_Provider {
  op_apiKey : string;
  op_apiBase : string;
  op_maxTokensField : string;
}.

(** The proxy only decides how requests are sent. *)
Definition NewProviderWithMaxTokensField (apiKey apiBase proxy maxTokensField : string) : Provider :=
  mk_Provider apiKey (trim_right_char "/"%char apiBase) maxTokensField.
Definition NewProvider (apiKey apiBase proxy : string) : Provider :=
  NewProviderWithMaxTokensField apiKey apiBase proxy "".

(** ** The request *)
Record openaiMessage := mk_openaiMessage {
  om_Role : string;
  om_Content : string;
  om_ToolCalls : list ToolCall;
  om_ToolCallID : string;
}.

Definition stripSystemParts (messages : list Message) : list openaiMessage :=
  (λ m, mk_openaiMessage (m_Role m) (m_Content m) (m_ToolCalls m) (m_ToolCallID m)) <$> messages.

Definition normalizeModel (model apiBase : string) : string :=
  match cut model "/"%char with
  | None => model
  | Some (before, after) =>
      if contains (to_lower apiBase) "openrouter.ai" then model
      else if bool_decide (to_lower before ∈ ["moonshot"; "nvidia"; "groq"; "ollama"; "deepseek"; "google";
                                              "openrouter"; "zhipu"; "mistral"])
      then after else model
  end.

(** What the values of [requestBody] are. *)
Inductive body_value :=
| BString (s : string)
| BMessages (ms : list openaiMessage)
| BTools (ts : list ToolDefinition)
| BInt (n : Z)
| BFloat (q : Q).

Definition max_tokens_field (p : Provider) (model : string) : string :=
  if negb (bool_decide (op_maxTokensField p = "")) then op_maxTokensField p
  else
    let lowerModel := to_lower model in
    if contains lowerModel "glm" || contains lowerModel "o1" || contains lowerModel "gpt-5"
    then "max_completion_tokens" else "max_tokens".

Definition set_if {A} (o : option A) (k : A → string * body_value) (body : gmap string body_value) :
    gmap string body_value :=
  match o with Some a => <[(k a).1 := (k a).2]> body | None => body end.

Definition cache_key (options : Options) : option string :=
  match options !! "prompt_cache_key" with
  | Some (VString s) => if bool_decide (s = "") then None else Some s
  | _ => None
  end.

(** [model] has been normalised. *)
Definition request_body (p : Provider) (messages : list Message) (tools : list ToolDefinition)
    (model : string) (options : Options) : gmap string body_value :=
  let body : gmap string body_value :=
    {[ "model" := BString model; "messages" := BMessages (stripSystemParts messages) ]} in
  let body := if bool_decide (tools = []) then body
              else <["tool_choice" := BString "auto"]> (<["tools" := BTools tools]> body) in
  let body := set_if (asInt (options !! "max_tokens")) (λ n, (max_tokens_field p model, BInt n)) body in
  let body := set_if (asFloat (options !! "temperature"))
                (λ q, ("temperature",
                       BFloat (if contains (to_lower model) "kimi" && contains (to_lower model) "k2"
                               then 1%Q else q))) body in
  set_if (cache_key options) (λ s, ("prompt_cache_key", BString s)) body.

(** ** The answer *)
Record api_function := mk_api_function {
  af_Name : string;
  af_Arguments : string;
}.
Record api_tool_call := mk_api_tool_call {
  at_ID : string;
  at_Type : string;
  at_Function : option api_function;
  at_ExtraContent : option (option string);    (* its google object, with the signature *)
}.
Record api_choice := mk_api_choice {
  ac_Content : string;
  ac_ReasoningContent : string;
  ac_ToolCalls : list api_tool_call;
  ac_FinishReason : string;
}.
Record api_response := mk_api_response {
  ar_Choices : list api_choice;
  ar_Usage : option UsageInfo;
}.

Section client.
Context (response_of_json : string → result string api_response).
(** [json.Unmarshal] of arguments into an empty map: [None] for an error, which
    leaves the map empty, and [Some None] for null, which makes it nil. *)
Context (Unmarshal : string → option (option (gmap string json))).

Definition parse_tool_call (tc : api_tool_call) : ToolCall :=
  let signature := match at_ExtraContent tc with Some (Some s) => s | _ => "" end in
  let '(name, arguments) :=
    match at_Function tc with
    | None => ("", Some ∅)
    | Some f =>
        (af_Name f,
         if bool_decide (af_Arguments f = "") then Some ∅
         else match Unmarshal (af_Arguments f) with
              | Some args => args
              | None => Some {[ "raw" := JStr (af_Arguments f) ]}
              end)
    end in
  mk_ToolCall (at_ID tc) "" None name arguments signature
    (if bool_decide (signature = "") then None else Some (Some signature)).

Definition parseResponse (body : string) : result error LLMResponse :=
  match response_of_json body with
  | Err e => Err (errors_New ("failed to unmarshal response: " +:+ e))
  | Ok apiResponse =>
      match ar_Choices apiResponse with
      | [] => Ok (mk_LLMResponse "" "" [] "stop" None)
      | choice :: _ =>
          Ok (mk_LLMResponse (ac_Content choice) (ac_ReasoningContent choice)
                (parse_tool_call <$> ac_ToolCalls choice) (ac_FinishReason choice) (ar_Usage apiResponse))
      end
  end.

(** What [NewRequest], [Do] and [ReadAll] come to. *)
Inductive http_outcome :=
| NotCreated (e : error)
| NotSent (e : error)
| NotRead (e : error)
| Answered (status : Z) (body : string).

(** [Do] takes the address, the value of the Authorization header and the body. *)
Context (Do : string → option string → gmap string body_value → http_outcome).

Definition status_error (status : Z) (body : string) : error :=
  errors_New ("API request failed:" +:+ String newline_char "  Status: " +:+ pretty status
              +:+ String newline_char "  Body:   " +:+ body).

Definition Chat (p : Provider) (messages : list Message) (tools : list ToolDefinition) (model : string)
    (options : Options) : result error LLMResponse :=
  if bool_decide (op_apiBase p = "") then Err (errors_New "API base not configured")
  else
    let model := normalizeModel model (op_apiBase p) in
    let authorization := if bool_decide (op_apiKey p = "") then None else Some ("Bearer " +:+ op_apiKey p) in
    match Do (op_apiBase p +:+ "/chat/completions") authorization
             (request_body p messages tools model options) with
    | NotCreated e => Err (wrap_error "failed to create request: " e)
    | NotSent e => Err (wrap_error "failed to send request: " e)
    | NotRead e => Err (wrap_error "failed to read response: " e)
    | Answered status body =>
        if negb (status =? 200)%Z then Err (status_error status body) else parseResponse body
    end.
End client.

(** ** Failures reach the failover with their status *)
(** The decimal digits of a three-digit number. *)
Definition three_digits (n : Z) : bool :=
  let ds := chars (pretty n) in
  Nat.eqb (length ds) 3 && forallb is_digit ds && (parseDigits (implode ds) =? n)%Z
  && bool_decide (lower_char <$> ds = ds).

Lemma three_digits_ok n : (100 <= n <= 999)%Z → three_digits n = true.
Proof.
  intros Hn. assert (forallb three_digits (seqZ 100 900) = true) as H by (vm_compute; reflexivity).
  rewrite forallb_forall in H. apply H. apply list_elem_of_In, elem_of_seqZ. lia.
Qed.

(** What stands before the code in the text of the error, lowered. *)
Definition status_head : list ascii := chars ("api request failed:" +:+ String newline_char "  ").

Lemma status_error_lower status body :
  (100 <= status <= 999)%Z →
  chars (to_lower (err_text (status_error status body))) =
  status_head ++ chars "status" ++ [":"%char; " "%char] ++ chars (pretty status)
  ++ chars (to_lower (String newline_char "  Body:   " +:+ body)).
Proof.
  intros Hs. apply three_digits_ok in Hs. unfold three_digits in Hs.
  apply andb_true_iff in Hs as [_ Hd%bool_decide_eq_true].
  cbn [status_error err_text errors_New].
  rewrite !chars_to_lower, !chars_app, !fmap_app, Hd. reflexivity.
Qed.

Lemma status_head_no_status k tail :
  k < length status_head →
  has_prefix_l (chars "status") (drop k (status_head ++ chars "status" ++ tail)) = false.
Proof.
  intros Hk. assert (Forall (λ k, has_prefix_l (chars "status") (drop k (status_head ++ chars "status" ++ tail)) = false)
    (seq 0 (length status_head))) as H.
  { change (seq 0 (length status_head)) with (seq 0 22). repeat (apply Forall_cons; split; [reflexivity|]).
    apply Forall_nil_2. }
  rewrite Forall_forall in H. apply H, elem_of_seq. lia.
Qed.

Lemma status_error_code status body :
  (100 <= status <= 999)%Z → extractHTTPStatus (to_lower (err_text (status_error status body))) = status.
Proof.
  intros Hs. pose proof (three_digits_ok status Hs) as H3. unfold three_digits in H3.
  apply andb_true_iff in H3 as [[[H1%Nat.eqb_eq H2]%andb_true_iff H3%Z.eqb_eq]%andb_true_iff _].
  rewrite <-H3 at 2. eapply status_code_extracted.
  - by apply status_error_lower.
  - done.
  - by repeat constructor.
  - rewrite forallb_forall in H2. apply Forall_forall. intros x Hx. apply H2. by apply list_elem_of_In.
  - done.
  - intros k Hk. rewrite status_error_lower by done. by apply status_head_no_status.
Qed.

(** C17: when a server answers a request with a failure, the client returns the
    error that says its status and body, and this is how the failover classifies
    it.  If the text of the error complains of the size of an image, the reason is
    the format and no status is kept, so that the chain stops.  Otherwise the status read back is
    that of the answer, whatever number the body mentions; a status the failover
    knows decides the reason whatever the body says; with another one (404 and 504
    among them) the text decides, and the classified failure keeps no status. *)
Theorem failure_status_classified response_of_json Unmarshal Do p messages tools model options
    status body provider :
  op_apiBase p ≠ "" →
  (∀ url auth b, Do url auth b = Answered status body) →
  (100 <= status <= 999)%Z → status ≠ 200%Z →
  let e := status_error status body in
  let msg := to_lower (err_text e) in
  Chat response_of_json Unmarshal Do p messages tools model options = Err e
  ∧ extractHTTPStatus msg = status
  ∧ ClassifyError (Some e) provider model =
    if IsImageDimensionError msg || IsImageSizeError msg
    then Some (mk_FailoverError FailoverFormat provider model 0 e)
    else match classifyByStatus status with
         | Some reason => Some (mk_FailoverError reason provider model status e)
         | None => (λ reason, mk_FailoverError reason provider model 0 e) <$> classifyByMessage msg
         end.
Proof.
  intros Hb Hdo Hs Hne e msg. subst e msg. split_and!; [|by apply status_error_code|].
  - unfold Chat. rewrite bool_decide_eq_false_2 by done. cbv zeta. rewrite Hdo.
    by rewrite (proj2 (Z.eqb_neq status 200) Hne).
  - unfold ClassifyError. change (err_canceled (status_error status body)) with false.
    change (err_deadline (status_error status body)) with false. cbv zeta.
    destruct (_ || _); [done|]. rewrite (status_error_code status body Hs).
    rewrite (proj2 (Z.ltb_lt 0 status)) by lia.
    destruct (classifyByStatus status); [done|]. by destruct (classifyByMessage _).
Qed.

Definition demo_provider : Provider := NewProvider "k" "https://api.example.com/v1/" "".

(** A rate limit whose body mentions another status, and a page that is not found. *)
Lemma failure_status_classified_witness :
  let answer status body := Chat (λ _, Err "") (λ _, None) (λ _ _ _, Answered status body) demo_provider
    [text_message "user" "hi"] [] "m" ∅ in
  let limit := "status: 500, slow down" in
  let missing := "no such model" in
  answer 429%Z limit = Err (status_error 429 limit)
  ∧ fe_Reason <$> ClassifyError (Some (status_error 429 limit)) "example" "m" = Some FailoverRateLimit
  ∧ ClassifyError (Some (status_error 404 missing)) "example" "m" = None.
Proof.
  destruct (failure_status_classified (λ _, Err "") (λ _, None)
    (λ _ _ _, Answered 429 "status: 500, slow down")
    demo_provider [text_message "user" "hi"] [] "m" ∅ 429 "status: 500, slow down" "example")
    as (He & _ & Hc); [done|done|lia|done|].
  destruct (failure_status_classified (λ _, Err "") (λ _, None) (λ _ _ _, Answered 404 "no such model")
    demo_provider [text_message "user" "hi"] [] "m" ∅ 404 "no such model" "example")
    as (_ & _ & Hc'); [done|done|lia|done|].
  split_and!; [exact He|rewrite Hc|rewrite Hc']; vm_compute; reflexivity.
Defined.

(** ** What a request says *)
Definition openai_events (m : openaiMessage) : list wire_event :=
  message_events (mk_Message (om_Role m) (om_Content m) "" []
    ((λ tc, mk_ToolCall (tc_ID tc) (tc_Type tc) (tc_Function tc) "" None "" (tc_ExtraContent tc)) <$> om_ToolCalls m)
    (om_ToolCallID m)).

(** Only the function of a call is sent, so it has to carry the name and the arguments. *)
#[export] Instance openai_format Marshal :
  RequestFormat (λ ms, Ok (stripSystemParts ms)) (λ oms, oms ≫= openai_events)
    (λ oms, om_Content <$> filter (λ m, om_Role m = "system") oms) (λ ms, m_Content <$> ms)
    (calls_recorded Marshal).
Proof.
  split; [done| |].
  - intros ms r Hr [= <-]. induction Hr as [|m ms Hm _ IH]; [done|].
    rewrite transcript_events_cons, <-IH. unfold stripSystemParts. csimpl. f_equal.
    unfold openai_events, message_events. cbn. repeat case_bool_decide; try done. f_equal.
    rewrite <-list_fmap_compose. apply Forall_fmap_ext. eapply Forall_impl; [by apply Hm|].
    intros tc (f & Hf & Hn & _). unfold call_event, recorded_arguments. cbn.
    unfold call_name at 1. cbn. by rewrite Hf, Hn.
  - intros ms r [= <-]. induction ms as [|m ms IH]; [done|]. unfold stripSystemParts, system_messages in *. csimpl.
    rewrite !filter_cons. cbn [om_Role]. case_decide; csimpl; by rewrite IH.
Qed.
