(* ===== verification/AgentState.v ===== *)
(** * The state of the agent loop (pkg/agent/loop.go)

    What a turn of an agent works on, and the operations it is made of.  The
    code is a state monad over [turn], the agent and what the loop shares
    between agents, the directories of sessions on disk and the requests sent to
    providers among it; the readings from outside are the record [environment],
    indexed by counters of the state so that consecutive readings are free to
    differ.  At the end, the rules for relations that computations preserve. *)
From stdpp Require Import base gmap strings list pretty.
From Stdlib Require Import Ascii ZArith Lia.
From S2P Require Import Prelude GoStrings ProviderTypes Paths Cooldown Fallback Bus Session.
From S2P Require Import AgentContext StateManager ToolBase ToolLoop.

(** ** State *)
Record processOptions := mk_processOptions {
  SessionKey : string;
  o_Channel : string;
  o_ChatID : string;
  UserMessage : string;
  DefaultResponse : string;
  EnableSummary : bool;
  SendResponse : bool;
  NoHistory : bool;
}.

Section turn.
(** [TW]: what the tools share.  A tool also publishes on the bus. *)
Context {TW : Type}.
Definition tool_state : Type := TW * list OutboundMessage.

(** [AgentInstance] without the fields the loop does not read.  Its [ID] is its
    key in the registry; its options for the model are part of the provider. *)
Record AgentInstance := mk_AgentInstance {
  ag_ID : string;
  ag_Model : string;
  ag_MaxIterations : Z;
  ag_ContextWindow : Z;
  ag_Sessions : SessionManager;
  ag_ContextBuilder : ContextBuilder;
  ag_Tools : ToolRegistry tool_state unit;
  ag_Candidates : list FallbackCandidate;
}.

(** A summarisation that was started: agent, session, channel and chat. *)
Record summary_job := mk_summary_job {
  j_agent : string;
  j_session : string;
  j_channel : string;
  j_chat : string;
}.

(** A request that was sent to a provider, with the sessions as they were then. *)
Record model_request := mk_model_request {
  rq_model : string;
  rq_messages : list Message;
  rq_sessions : SessionManager;
}.

(** What the loop shares between agents.  The bus is a log of what was
    published: publishing waits for room, which the dispatcher makes.  The
    directories of the sessions are part of the workspaces, so tools reach them, too. *)
Record shared := mk_shared {
  tools : TW;
  tracker : CooldownTracker;
  recorded : option Manager;                  (* al.state; None: nil *)
  outbox : list OutboundMessage;
  summarizing : gset string;
  goroutines : list summary_job;
  session_dirs : gmap string disk;            (* of each agent, by its identifier *)
  calls : nat;                                (* calls of callLLM made *)
  requests : list model_request;              (* the requests these sent *)
  ticks : nat;                                (* other readings made *)
}.

Record turn := mk_turn { agent : AgentInstance; sh : shared }.

(** [tool_writes n]: what a tool that is called at the reading [n] does to the
    directories of the sessions.
    [Chat k i messages tools model]: the answer of the [i]-th request of the
    [k]-th call; [attempt k i]: the contexts and the clock around it. *)
Record environment := mk_environment {
  clock : nat → time;
  save_envs : nat → save_env;
  state_faults : nat → option StateManager.fault;
  file_system : TW → gmap string node;
  tool_writes : nat → gmap string disk → gmap string disk;
  cwd : string;
  skills_summary : gmap string node → string;
  recent_days : nat → list string;
  now_text : nat → string;
  runtime_text : string;
  duration_text : Z → string;
  marshal : gmap string json → string;
  unmarshal : string → option (option (gmap string json));
  Chat : nat → nat → list Message → list ToolDefinition → string → result error LLMResponse;
  attempt : nat → nat → iteration;
}.

(** ** The monad *)
Definition M (A : Type) : Type := turn → A * turn.
#[export] Instance M_ret : MRet M := λ A a s, (a, s).
#[export] Instance M_bind : MBind M := λ A B f m s, f (m s).1 (m s).2.


Lemma bind_eq {A B} (m : M A) (f : A → M B) (s : turn) : (m ≫= f) s = f (m s).1 (m s).2.
Proof. done. Qed.

Definition gets {A} (f : turn → A) : M A := λ s, (f s, s).
Definition modify (f : turn → turn) : M unit := λ s, (tt, f s).
Definition when (b : bool) (m : M unit) : M unit := if b then m else mret tt.

Definition on_shared (f : shared → shared) (s : turn) : turn := mk_turn (agent s) (f (sh s)).
Definition on_agent (f : AgentInstance → AgentInstance) (s : turn) : turn := mk_turn (f (agent s)) (sh s).

Definition set_tools (t : tool_state) (x : shared) : shared :=
  mk_shared t.1 (tracker x) (recorded x) t.2 (summarizing x) (goroutines x)
    (session_dirs x) (calls x) (requests x) (ticks x).
Definition set_tracker (ct : CooldownTracker) (x : shared) : shared :=
  mk_shared (tools x) ct (recorded x) (outbox x) (summarizing x) (goroutines x)
    (session_dirs x) (calls x) (requests x) (ticks x).
Definition set_recorded (m : option Manager) (x : shared) : shared :=
  mk_shared (tools x) (tracker x) m (outbox x) (summarizing x) (goroutines x)
    (session_dirs x) (calls x) (requests x) (ticks x).
Definition publish (m : OutboundMessage) (x : shared) : shared :=
  mk_shared (tools x) (tracker x) (recorded x) (outbox x ++ [m]) (summarizing x) (goroutines x)
    (session_dirs x) (calls x) (requests x) (ticks x).
Definition set_summaries (keys : gset string) (l : list summary_job) (x : shared) : shared :=
  mk_shared (tools x) (tracker x) (recorded x) (outbox x) keys l
    (session_dirs x) (calls x) (requests x) (ticks x).
Definition set_dirs (dirs : gmap string disk) (x : shared) : shared :=
  mk_shared (tools x) (tracker x) (recorded x) (outbox x) (summarizing x) (goroutines x)
    dirs (calls x) (requests x) (ticks x).
Definition count_call (x : shared) : shared :=
  mk_shared (tools x) (tracker x) (recorded x) (outbox x) (summarizing x) (goroutines x)
    (session_dirs x) (S (calls x)) (requests x) (ticks x).
Definition log_requests (l : list model_request) (x : shared) : shared :=
  mk_shared (tools x) (tracker x) (recorded x) (outbox x) (summarizing x) (goroutines x)
    (session_dirs x) (calls x) (requests x ++ l) (ticks x).
Definition count_tick (x : shared) : shared :=
  mk_shared (tools x) (tracker x) (recorded x) (outbox x) (summarizing x) (goroutines x)
    (session_dirs x) (calls x) (requests x) (S (ticks x)).

(** The directory of the sessions of an agent. *)
Definition dir_of (id : string) (dirs : gmap string disk) : disk := default ∅ (dirs !! id).

(** The number of a reading, and of a call of [callLLM], which may send several requests. *)
Definition tick : M nat := λ s, (ticks (sh s), on_shared count_tick s).
Definition next_call : M nat := λ s, (calls (sh s), on_shared count_call s).

Definition PublishOutbound (m : OutboundMessage) : M unit := modify (on_shared (publish m)).

Definition with_sessions (f : SessionManager → SessionManager) (a : AgentInstance) : AgentInstance :=
  mk_AgentInstance (ag_ID a) (ag_Model a) (ag_MaxIterations a) (ag_ContextWindow a)
    (f (ag_Sessions a)) (ag_ContextBuilder a) (ag_Tools a) (ag_Candidates a).
Definition with_builder (cb : ContextBuilder) (a : AgentInstance) : AgentInstance :=
  mk_AgentInstance (ag_ID a) (ag_Model a) (ag_MaxIterations a) (ag_ContextWindow a)
    (ag_Sessions a) cb (ag_Tools a) (ag_Candidates a).
Definition with_model (model : string) (a : AgentInstance) : AgentInstance :=
  mk_AgentInstance (ag_ID a) model (ag_MaxIterations a) (ag_ContextWindow a)
    (ag_Sessions a) (ag_ContextBuilder a) (ag_Tools a) (ag_Candidates a).

Definition history_of (key : string) (s : turn) : list Message := GetHistory key (ag_Sessions (agent s)).
Definition summary_of (key : string) (s : turn) : string := GetSummary key (ag_Sessions (agent s)).

Context (E : environment).
Implicit Types (s : turn) (key : string) (opts : processOptions) (messages : list Message).

(** *** Operations on the agent's sessions *)
Definition update_sessions (f : time → SessionManager → SessionManager) : M unit :=
  t ← tick; modify (on_agent (with_sessions (f (clock E t)))).
Definition add_message key (m : Message) : M unit := update_sessions (λ now, AddFullMessage now key m).
Definition save_session key : M unit :=
  t ← tick;
  a ← gets agent;
  modify (on_shared (λ x,
    let d := dir_of (ag_ID a) (session_dirs x) in
    set_dirs (<[ag_ID a := default d (last (Save (save_envs E t) key (ag_Sessions a) d).2)]> (session_dirs x)) x)).

(** [agent.ContextBuilder.BuildMessages]. *)
Definition build_messages (history : list Message) (summary current channel chatID : string) :
    M (list Message) :=
  t ← tick;
  fs ← gets (λ s, file_system E (tools (sh s)));
  cb ← gets (λ s, ag_ContextBuilder (agent s));
  let built := BuildMessages (cwd E) (skills_summary E) fs fs (recent_days E t) (now_text E t)
                 (runtime_text E) cb history summary current channel chatID in
  _ ← modify (on_agent (with_builder built.2));
  mret built.1.

(** [RecordLastChannel]; a failure is only logged. *)
Definition RecordLastChannel (channel : string) : M unit :=
  t ← tick;
  modify (on_shared (λ x, set_recorded
    ((λ sm, (SetLastChannel (clock E t) (state_faults E t) channel sm).2) <$> recorded x) x)).

Definition run_tool {A} (f : tool_state → A * tool_state) : M A := λ s,
  let '(r, t) := f (tools (sh s), outbox (sh s)) in (r, on_shared (set_tools t) s).

(** What a tool did to the directories of the sessions. *)
Definition tool_files : M unit :=
  t ← tick; modify (on_shared (λ x, set_dirs (tool_writes E t (session_dirs x)) x)).

(** [updateToolContexts], which also passes empty channels on. *)
Definition contextual_tools : list string := ["message"; "spawn"; "subagent"].
Definition updateToolContexts (channel chatID : string) : M unit := λ s,
  foldl (λ r name,
    match Get (ag_Tools (agent s)) name ≫= t_SetContext with
    | Some set => run_tool (λ t, (tt, set channel chatID t)) r.2
    | None => r
    end) (tt, s) contextual_tools.

(** ** Relations preserved by a computation *)
Definition preserves (R : relation turn) {A} (m : M A) : Prop := ∀ s, R s (m s).2.

Section preserves.
Context (R : relation turn) `{!PreOrder R}.

Lemma preserves_ret {A} (a : A) : preserves R (mret a).
Proof. intros s. done. Qed.
Lemma preserves_gets {A} (f : turn → A) : preserves R (gets f).
Proof. intros s. done. Qed.
Lemma preserves_bind {A B} (m : M A) (f : A → M B) :
  preserves R m → (∀ a, preserves R (f a)) → preserves R (m ≫= f).
Proof. intros Hm Hf s. etrans; [apply Hm|]. apply Hf. Qed.
Lemma preserves_modify f : (∀ s, R s (f s)) → preserves R (modify f).
Proof. intros H s. apply H. Qed.
Lemma preserves_when b m : preserves R m → preserves R (when b m).
Proof. intros H. destruct b; [done|]. apply preserves_ret. Qed.
End preserves.

(** A computation that touches only what is shared leaves the agent alone. *)
Definition same_agent (s s' : turn) : Prop := agent s' = agent s.
#[export] Instance same_agent_preorder : PreOrder same_agent.
Proof. split; [done|]. intros s1 s2 s3 H1 H2. unfold same_agent in *. congruence. Qed.

Lemma next_call_agent : preserves same_agent next_call.
Proof. done. Qed.
Lemma on_shared_agent f : preserves same_agent (modify (on_shared f)).
Proof. done. Qed.

Lemma run_tool_agent {A} (f : tool_state → A * tool_state) : preserves same_agent (run_tool f).
Proof. intros s. unfold run_tool. by destruct (f _). Qed.

Lemma updateToolContexts_agent channel chatID : preserves same_agent (updateToolContexts channel chatID).
Proof.
  intros s. unfold updateToolContexts.
  assert (same_agent s (tt, s).2) as H by done. revert H. generalize (tt, s) as r.
  induction contextual_tools as [|name l IH]; intros r Hr; [done|]. simpl. apply IH.
  destruct (_ ≫= _); [|done]. etrans; [exact Hr|]. apply run_tool_agent.
Qed.

(** What no operation but the calls of the model and the start of a summarisation
    changes of the shared state. *)
Class Stable {B} (f : shared → B) : Prop := {
  stable_tools : ∀ t x, f (set_tools t x) = f x;
  stable_recorded : ∀ m x, f (set_recorded m x) = f x;
  stable_publish : ∀ m x, f (publish m x) = f x;
  stable_tick : ∀ x, f (count_tick x) = f x;
}.
#[export] Instance requests_stable : Stable requests.
Proof. by split. Qed.
#[export] Instance dirs_stable : Stable session_dirs.
Proof. by split. Qed.
#[export] Instance jobs_stable : Stable (λ x, (summarizing x, goroutines x)).
Proof. by split. Qed.

(** It is not part of the directories of the sessions. *)
Class NoDirs {B} (f : shared → B) : Prop := { stable_dirs : ∀ dirs x, f (set_dirs dirs x) = f x }.
#[export] Instance requests_nodirs : NoDirs requests.
Proof. by split. Qed.
#[export] Instance jobs_nodirs : NoDirs (λ x, (summarizing x, goroutines x)).
Proof. by split. Qed.

Definition keeps {B} (f : shared → B) (s s' : turn) : Prop := f (sh s') = f (sh s).
#[export] Instance keeps_preorder {B} (f : shared → B) : PreOrder (keeps f).
Proof. split; [done|]. intros s1 s2 s3 H1 H2. unfold keeps in *. congruence. Qed.

Section keeps.
Context {B : Type} (f : shared → B) `{!Stable f}.
Lemma run_tool_keeps {A} (g : tool_state → A * tool_state) : preserves (keeps f) (run_tool g).
Proof. intros s. unfold run_tool. destruct (g _). apply stable_tools. Qed.
Lemma updateToolContexts_keeps channel chatID : preserves (keeps f) (updateToolContexts channel chatID).
Proof.
  intros s. unfold updateToolContexts.
  assert (keeps f s (tt, s).2) as H by done. revert H. generalize (tt, s) as r.
  induction contextual_tools as [|name l IH]; intros r Hr; [done|]. simpl. apply IH.
  destruct (_ ≫= _); [|done]. etrans; [exact Hr|]. apply run_tool_keeps.
Qed.
Lemma update_sessions_keeps g : preserves (keeps f) (update_sessions g).
Proof. intros s. apply stable_tick. Qed.
Lemma save_session_keeps key `{!NoDirs f} : preserves (keeps f) (save_session key).
Proof. intros s. unfold keeps, save_session. rewrite bind_eq. simpl. by rewrite stable_dirs, stable_tick. Qed.
Lemma tool_files_keeps `{!NoDirs f} : preserves (keeps f) tool_files.
Proof. intros s. unfold keeps, tool_files. rewrite bind_eq. simpl. by rewrite stable_dirs, stable_tick. Qed.
Lemma build_messages_keeps h sum cur c i : preserves (keeps f) (build_messages h sum cur c i).
Proof. intros s. apply stable_tick. Qed.
Lemma PublishOutbound_keeps m : preserves (keeps f) (PublishOutbound m).
Proof. intros s. apply stable_publish. Qed.
Lemma RecordLastChannel_keeps c : preserves (keeps f) (RecordLastChannel c).
Proof.
  intros s. unfold keeps, RecordLastChannel. rewrite bind_eq. simpl.
  by rewrite stable_recorded, stable_tick.
Qed.
Lemma add_message_keeps key m : preserves (keeps f) (add_message key m).
Proof. apply update_sessions_keeps. Qed.
End keeps.

(** *** What an operation on one session may change *)

(** The tools leave a file of the sessions of an agent alone. *)
Definition tools_spare (id file : string) : Prop :=
  ∀ n dirs, dir_of id (tool_writes E n dirs) !! file = dir_of id dirs !! file.

(** In memory only the session [key] of the agent changes, and nothing of its
    configuration; in the directories of the sessions only its file, and what tools
    change. *)
Record only_session (key : string) (s s' : turn) : Prop := {
  os_config : ag_ID (agent s') = ag_ID (agent s) ∧ ag_Model (agent s') = ag_Model (agent s)
    ∧ ag_MaxIterations (agent s') = ag_MaxIterations (agent s)
    ∧ ag_ContextWindow (agent s') = ag_ContextWindow (agent s)
    ∧ ag_Tools (agent s') = ag_Tools (agent s) ∧ ag_Candidates (agent s') = ag_Candidates (agent s)
    ∧ storage (ag_Sessions (agent s')) = storage (ag_Sessions (agent s));
  os_sessions : ∀ k, k ≠ key →
    sessions (ag_Sessions (agent s')) !! k = sessions (ag_Sessions (agent s)) !! k;
  os_files : ∀ id f, Ext f = ".json" → id ≠ ag_ID (agent s) ∨ f ≠ file_of key → tools_spare id f →
    dir_of id (session_dirs (sh s')) !! f = dir_of id (session_dirs (sh s)) !! f;
}.

#[export] Instance only_session_preorder key : PreOrder (only_session key).
Proof.
  split; [by split|]. intros s1 s2 s3 [C1 S1 F1] [C2 S2 F2]. split.
  - destruct C1 as (?&?&?&?&?&?&?), C2 as (?&?&?&?&?&?&?). split_and!; congruence.
  - intros k Hk. rewrite S2, S1; done.
  - intros id f Hf Hn Ht. destruct C1 as (Hid & _). rewrite F2, F1; [done..| |done]. by rewrite Hid.
Qed.

Lemma only_session_agent key {A} (m : M A) :
  preserves same_agent m → preserves (keeps session_dirs) m → preserves (only_session key) m.
Proof. intros H Hd s. split; rewrite ?(H s), ?(Hd s); done. Qed.

Lemma update_sessions_only key f :
  (∀ now, ∃ op, f now = run_op (now, key, op)) → preserves (only_session key) (update_sessions f).
Proof.
  intros Hf s. destruct (Hf (clock E (ticks (sh s)))) as [op Hop].
  change (only_session key s (on_agent (with_sessions (f (clock E (ticks (sh s))))) (on_shared count_tick s))).
  rewrite Hop.
  split; [|intros k Hk; by apply run_op_other|done].
  split_and!; try done. apply run_op_storage.
Qed.

Lemma add_message_only key m : preserves (only_session key) (add_message key m).
Proof. apply update_sessions_only. intros now. by exists (OpAdd m). Qed.
Lemma set_history_only key h :
  preserves (only_session key) (update_sessions (λ now, Session.SetHistory now key h)).
Proof. apply update_sessions_only. intros now. by exists (OpSetHistory h). Qed.
Lemma set_summary_only key t :
  preserves (only_session key) (update_sessions (λ now, Session.SetSummary now key t)).
Proof. apply update_sessions_only. intros now. by exists (OpSetSummary t). Qed.
Lemma truncate_only key n :
  preserves (only_session key) (update_sessions (λ now, TruncateHistory now key n)).
Proof. apply update_sessions_only. intros now. by exists (OpTruncate n). Qed.

Lemma save_session_only key : preserves (only_session key) (save_session key).
Proof.
  intros s. split; [done..|]. intros id f Hf Hn _. simpl. unfold dir_of at 1.
  destruct (decide (id = ag_ID (agent s))) as [->|Hid]; [|by rewrite lookup_insert_ne].
  destruct Hn as [?|Hn]; [done|]. rewrite lookup_insert_eq. cbn [default from_option id].
  destruct (last (Save _ key _ _).2) as [d'|] eqn:El; [|done]. by eapply Save_others.
Qed.

Lemma tool_files_only key : preserves (only_session key) tool_files.
Proof. intros s. split; [done..|]. intros id f _ _ Ht. apply Ht. Qed.

Lemma build_messages_only key h sum cur c i :
  preserves (only_session key) (build_messages h sum cur c i).
Proof. intros s. done. Qed.
End turn.
Arguments AgentInstance : clear implicits.
Arguments shared : clear implicits.
Arguments turn : clear implicits.
Arguments environment : clear implicits.
Arguments M : clear implicits.

Create HintDb turn.
#[export] Hint Resolve tool_files_keeps tool_files_only next_call_agent on_shared_agent run_tool_agent updateToolContexts_agent
  only_session_agent add_message_only set_history_only set_summary_only truncate_only
  save_session_only build_messages_only run_tool_keeps updateToolContexts_keeps
  update_sessions_keeps save_session_keeps build_messages_keeps PublishOutbound_keeps
  RecordLastChannel_keeps add_message_keeps requests_stable dirs_stable jobs_stable requests_nodirs jobs_nodirs : turn.

(** Walk through a computation, proving the relation of each of its operations. *)
Ltac walk :=
  repeat first
    [ solve [eauto with turn]
    | apply preserves_bind; [apply _| |intros ?]
    | apply preserves_ret; apply _
    | apply preserves_gets; apply _
    | apply preserves_when; [apply _|]
    | case_match ].
