(* ===== verification/AgentTurn.v ===== *)
(** * The turn of an agent (pkg/agent/loop.go)

    From the user message to the reply: the request, the model calls with their
    retries and the compression of the history, the tool calls, the recorded
    session.  A computation of the monad of [AgentState] each. *)
From stdpp Require Import base gmap strings list pretty.
From Stdlib Require Import Ascii ZArith Lia.
From S2P Require Import Prelude GoStrings ProviderTypes Paths ErrorClass Cooldown Fallback Bus.
From S2P Require Import Session AgentContext StateManager ToolBase ToolLoop AgentState.

(** ** Texts of errors *)
Definition failover_text (fe : FailoverError) : string :=
  "failover(" +:+ reason_string (Some (fe_Reason fe)) +:+ "): provider=" +:+ fe_Provider fe
  +:+ " model=" +:+ fe_Model fe +:+ " status=" +:+ pretty (fe_Status fe)
  +:+ ": " +:+ err_text (fe_Wrapped fe).

Definition attempt_text (duration_text : Z → string) (i : nat) (a : FallbackAttempt) : string :=
  nl +:+ "  [" +:+ pretty (S i) +:+ "] " +:+ a_Provider a +:+ "/" +:+ a_Model a +:+ ": "
  +:+ (if a_Skipped a then "skipped (cooldown)"
       else
         (match a_Error a with
          | Classified fe => failover_text fe
          | Plain e => err_text e
          | InCooldown _ => ""
          end)
         +:+ " (reason=" +:+ reason_string (a_Reason a) +:+ ", " +:+ duration_text (a_Duration a) +:+ ")").

(** [err.Error()] of what the fallback chain returns. *)
Definition fallback_error (duration_text : Z → string) (e : FallbackError) : error :=
  match e with
  | NoCandidates => errors_New "fallback: no candidates configured"
  | Canceled => context_Canceled
  | Unclassified p m e => wrap_error ("fallback: unclassified error from " +:+ p +:+ "/" +:+ m +:+ ": ") e
  | NonRetriable fe =>
      mk_error (failover_text fe) (err_canceled (fe_Wrapped fe)) (err_deadline (fe_Wrapped fe))
  | Exhausted attempts =>
      errors_New ("fallback: all " +:+ pretty (length attempts) +:+ " candidates failed:"
                  +:+ join "" (imap (attempt_text duration_text) attempts))
  end.

(** The test for a context window error. *)
Definition isContextError (e : error) : bool :=
  let errMsg := to_lower (err_text e) in
  contains errMsg "token" || contains errMsg "context" || contains errMsg "invalidparameter"
  || contains errMsg "length".

(** ** Compression of a history *)
Definition compression_note (droppedCount : nat) : string :=
  nl +:+ nl +:+ "[System Note: Emergency compression dropped " +:+ pretty droppedCount
  +:+ " oldest messages due to context limit]".

Definition append_content (note : string) (m : Message) : Message :=
  mk_Message (m_Role m) (m_Content m +:+ note) (m_ReasoningContent m) (m_SystemParts m)
    (m_ToolCalls m) (m_ToolCallID m).

(** The history after compression; [None]: it is too short and is left alone. *)
Definition compress (history : list Message) : option (list Message) :=
  match history with
  | first :: rest =>
      if length history <=? 4 then None
      else
        let conversation := take (length rest - 1) rest in
        let mid := length conversation / 2 in
        Some (append_content (compression_note mid) first :: drop mid conversation
              ++ drop (length rest - 1) rest)
  | [] => None
  end.

(** ** The calls of an assistant message, as the loop records them *)
Section turn.
Context {TW : Type} (E : environment TW).
Implicit Types (opts : processOptions) (messages : list Message).

Definition recorded_tool_call (tc : ToolCall) : ToolCall :=
  let thoughtSignature := match tc_Function tc with Some f => fc_ThoughtSignature f | None => "" end in
  mk_ToolCall (tc_ID tc) "function"
    (Some (mk_FunctionCall (tc_Name tc) (marshal E (default ∅ (tc_Arguments tc))) thoughtSignature))
    (tc_Name tc) None thoughtSignature (tc_ExtraContent tc).

Definition assistantMsg (response : LLMResponse) (calls : list ToolCall) : Message :=
  mk_Message "assistant" (lr_Content response) (lr_ReasoningContent response) []
    (recorded_tool_call <$> calls) "".

(** ** Calling the model *)

(** The request of a candidate goes to the agent's provider, whatever provider
    the candidate names. *)
Definition with_call (it : iteration) (call : string → result error LLMResponse) : iteration :=
  mk_iteration (canceled_before it) (at_check it) (at_remaining it) (λ _ model, call model)
    (elapsed it) (canceled_after it) (at_mark it).

Definition sends messages (a : AgentInstance TW) (models : list string) : M TW unit :=
  modify (on_shared (log_requests
    ((λ model, mk_model_request model messages (ag_Sessions a)) <$> models))).

Definition callLLM messages : M TW (result error LLMResponse) :=
  k ← next_call;
  a ← gets agent;
  let defs := ToProviderDefs (ag_Tools a) in
  if 1 <? length (ag_Candidates a) then
    ct ← gets (λ s, tracker (sh s));
    let r := Fallback.ExecuteLog (λ i, with_call (attempt E k i) (Chat E k i messages defs)) (ag_Candidates a) ct in
    _ ← modify (on_shared (set_tracker r.1.2));
    _ ← sends messages a (c_Model <$> r.2);
    mret (match r.1.1 with
          | Ok res => Ok (f_Response res)
          | Err e => Err (fallback_error (duration_text E) e)
          end)
  else
    _ ← sends messages a [ag_Model a];
    mret (Chat E k 0 messages defs (ag_Model a)).

Definition forceCompression (key : string) : M TW unit :=
  history ← gets (history_of key);
  match compress history with
  | None => mret tt
  | Some newHistory =>
      _ ← update_sessions E (λ now, Session.SetHistory now key newHistory);
      save_session E key
  end.

Definition compressing_notice opts : OutboundMessage :=
  mk_OutboundMessage (o_Channel opts) (o_ChatID opts)
    "Context window exceeded. Compressing history and retrying...".

(** The retry loop; [left]: the retries left, [first]: this is the first attempt.
    The messages are rebuilt from the session after a compression. *)
Fixpoint retry_llm (left : nat) (first : bool) opts messages :
    M TW (result error LLMResponse * list Message) :=
  r ← callLLM messages;
  match r, left with
  | Err e, S left' =>
      if isContextError e then
        _ ← when (first && negb (IsInternalChannel (o_Channel opts)))
              (PublishOutbound (compressing_notice opts));
        _ ← forceCompression (SessionKey opts);
        newHistory ← gets (history_of (SessionKey opts));
        newSummary ← gets (summary_of (SessionKey opts));
        messages' ← build_messages E newHistory newSummary "" (o_Channel opts) (o_ChatID opts);
        retry_llm left' false opts messages'
      else mret (r, messages)
  | _, _ => mret (r, messages)
  end.
Definition maxRetries : nat := 2.

(** ** Tool calls *)
Definition execute_tool_call opts (tc : ToolCall) : M TW Message :=
  a ← gets agent;
  toolResult ← run_tool (ExecuteWithContext (ag_Tools a) (tc_Name tc)
                           (default ∅ (tc_Arguments tc)) (o_Channel opts) (o_ChatID opts) (Some tt));
  _ ← tool_files E;
  _ ← when (negb (Silent toolResult) && negb (bool_decide (ForUser toolResult = ""))
            && SendResponse opts)
        (PublishOutbound (mk_OutboundMessage (o_Channel opts) (o_ChatID opts) (ForUser toolResult)));
  let toolResultMsg := tool_message (content_for_llm toolResult) (tc_ID tc) in
  _ ← add_message E (SessionKey opts) toolResultMsg;
  mret toolResultMsg.

Fixpoint execute_tool_calls opts (tcs : list ToolCall) messages : M TW (list Message) :=
  match tcs with
  | [] => mret messages
  | tc :: rest =>
      m ← execute_tool_call opts tc;
      execute_tool_calls opts rest (messages ++ [m])
  end.

(** ** The iterations

    [fuel]: the iterations left.  Besides the final content and the number of
    iterations, the messages exchanged are returned. *)
Definition llm_result : Type := result error string * nat * list Message.

Fixpoint llm_iterations (fuel iteration : nat) opts messages : M TW llm_result :=
  match fuel with
  | O => mret (Ok "", iteration, messages)
  | S n =>
      let iteration := S iteration in
      r ← retry_llm maxRetries true opts messages;
      let '(answer, messages) := r in
      match answer with
      | Err e => mret (Err (wrap_error "LLM call failed after retries: " e), iteration, messages)
      | Ok response =>
          match lr_ToolCalls response with
          | [] => mret (Ok (lr_Content response), iteration, messages)
          | toolCalls =>
              let normalizedToolCalls := NormalizeToolCall (marshal E) (unmarshal E) <$> toolCalls in
              let am := assistantMsg response normalizedToolCalls in
              _ ← add_message E (SessionKey opts) am;
              messages ← execute_tool_calls opts normalizedToolCalls (messages ++ [am]);
              llm_iterations n iteration opts messages
          end
      end
  end.

Definition runLLMIteration opts messages : M TW llm_result :=
  maxIterations ← gets (λ s, ag_MaxIterations (agent s));
  llm_iterations (Z.to_nat maxIterations) 0 opts messages.

(** ** Starting a summarisation *)
Definition estimateTokens messages : Z :=
  let totalChars := sum_list ((λ m, rune_count (m_Content m)) <$> messages) in
  Z.quot (Z.of_nat totalChars * 2) 5.

Definition maybeSummarize opts : M TW unit :=
  a ← gets agent;
  let newHistory := GetHistory (SessionKey opts) (ag_Sessions a) in
  let threshold := Z.quot (wrap64 (ag_ContextWindow a * 75)) 100 in
  if (20 <? length newHistory) || (threshold <? estimateTokens newHistory)%Z then
    let summarizeKey := ag_ID a +:+ ":" +:+ SessionKey opts in
    loading ← gets (λ s, bool_decide (summarizeKey ∈ summarizing (sh s)));
    if (loading : bool) then mret tt
    else modify (on_shared (λ x : shared TW, set_summaries ({[summarizeKey]} ∪ summarizing x)
                   (goroutines x ++ [mk_summary_job (ag_ID a) (SessionKey opts) (o_Channel opts)
                                       (o_ChatID opts)]) x))
  else mret tt.

(** ** runAgentLoop *)
(** Up to the first call of the model: the request, with the user's message saved. *)
Definition begin_turn opts : M TW (list Message) :=
  _ ← when (negb (bool_decide (o_Channel opts = "")) && negb (bool_decide (o_ChatID opts = ""))
            && negb (IsInternalChannel (o_Channel opts)))
        (RecordLastChannel E (channel_key (o_Channel opts) (o_ChatID opts)));
  _ ← updateToolContexts (o_Channel opts) (o_ChatID opts);
  history ← gets (λ s, if NoHistory opts then [] else history_of (SessionKey opts) s);
  summary ← gets (λ s, if NoHistory opts then "" else summary_of (SessionKey opts) s);
  messages ← build_messages E history summary (UserMessage opts) (o_Channel opts) (o_ChatID opts);
  _ ← add_message E (SessionKey opts) (text_message "user" (UserMessage opts));
  mret messages.

(** From the final content on. *)
Definition end_turn opts (content : string) : M TW string :=
  let finalContent := if bool_decide (content = "") then DefaultResponse opts else content in
  _ ← add_message E (SessionKey opts) (text_message "assistant" finalContent);
  _ ← save_session E (SessionKey opts);
  _ ← when (EnableSummary opts) (maybeSummarize opts);
  _ ← when (SendResponse opts)
        (PublishOutbound (mk_OutboundMessage (o_Channel opts) (o_ChatID opts) finalContent));
  mret finalContent.

Definition runAgentLoop opts : M TW (result error string) :=
  messages ← begin_turn opts;
  r ← runLLMIteration opts messages;
  match r.1.1 with
  | Err e => mret (Err e)
  | Ok content => finalContent ← end_turn opts content; mret (Ok finalContent)
  end.

(** ** What the operations do to the session *)
Implicit Types (s : turn TW) (key : string).

Lemma sends_agent messages a models : preserves same_agent (sends messages a models).
Proof. done. Qed.

Lemma callLLM_agent messages : preserves same_agent (callLLM messages).
Proof. pose proof sends_agent. unfold callLLM. walk. Qed.

Lemma callLLM_dirs messages : preserves (keeps session_dirs) (callLLM messages).
Proof. intros s. unfold callLLM, keeps. rewrite !bind_eq. cbn [gets fst snd]. by case_match. Qed.

Lemma add_message_history key m s :
  history_of key (add_message E key m s).2 = history_of key s ++ [m].
Proof. apply GetHistory_add. Qed.

Lemma compress_exists key s h :
  compress (history_of key s) = Some h → is_Some (sessions (ag_Sessions (agent s)) !! key).
Proof.
  unfold history_of, GetHistory. destruct (sessions _ !! key); [by eexists|done].
Qed.

Lemma forceCompression_history key s :
  history_of key (forceCompression key s).2
  = default (history_of key s) (compress (history_of key s)).
Proof.
  unfold forceCompression. rewrite bind_eq. simpl.
  destruct (compress (history_of key s)) as [h|] eqn:Ec; [|done].
  apply compress_exists in Ec. by apply GetHistory_set.
Qed.

Lemma forceCompression_only key : preserves (only_session E key) (forceCompression key).
Proof. unfold forceCompression. walk. Qed.

(** The request that is built: a system message, the sanitised history, the
    current message unless it is blank. *)
Definition current_part (current : string) : list Message :=
  if bool_decide (trim_space current = "") then [] else [text_message "user" current].

Lemma build_messages_spec history summary current channel chatID s :
  ∃ sys, m_Role sys = "system"
    ∧ (build_messages E history summary current channel chatID s).1
      = sys :: sanitizeHistoryForProvider history ++ current_part current
    ∧ ∀ key, history_of key (build_messages E history summary current channel chatID s).2
             = history_of key s.
Proof.
  unfold build_messages, BuildMessages. rewrite !bind_eq. simpl.
  destruct (BuildSystemPromptWithCache _ _ _ _ _ _). by eexists (system_message _ _ _).
Qed.

Lemma execute_tool_call_spec opts tc s :
  ∃ c, (execute_tool_call opts tc s).1 = tool_message c (tc_ID tc)
    ∧ history_of (SessionKey opts) (execute_tool_call opts tc s).2
      = history_of (SessionKey opts) s ++ [tool_message c (tc_ID tc)].
Proof.
  unfold execute_tool_call. rewrite !bind_eq. cbn [fst snd].
  set (r := run_tool _ _). exists (content_for_llm r.1). split; [done|].
  cbn [mret M_ret snd]. rewrite add_message_history. f_equal. unfold history_of. do 2 f_equal.
  transitivity (agent (tool_files E r.2).2); [|apply run_tool_agent].
  exact (preserves_when same_agent _ _ (on_shared_agent _) (tool_files E r.2).2).
Qed.

Lemma execute_tool_calls_spec opts tcs messages s :
  ∃ results, (execute_tool_calls opts tcs messages s).1 = messages ++ results
    ∧ history_of (SessionKey opts) (execute_tool_calls opts tcs messages s).2
      = history_of (SessionKey opts) s ++ results
    ∧ Forall (λ m, m_Role m = "tool") results ∧ m_ToolCallID <$> results = tc_ID <$> tcs.
Proof.
  revert messages s. induction tcs as [|tc tcs IH]; intros messages s; cbn [execute_tool_calls].
  { exists []. by rewrite !app_nil_r. }
  rewrite bind_eq. destruct (execute_tool_call_spec opts tc s) as (c & -> & Hh).
  destruct (IH (messages ++ [tool_message c (tc_ID tc)]) (execute_tool_call opts tc s).2)
    as (results & -> & -> & Hr & Hid).
  exists (tool_message c (tc_ID tc) :: results). rewrite Hh, <-!app_assoc.
  split_and!; [done|done|by constructor|]. csimpl. by f_equal.
Qed.

(** ** The steps of the loops *)
Lemma forceCompression_requests key : preserves (keeps requests) (forceCompression key).
Proof. unfold forceCompression. walk. Qed.
Lemma execute_tool_call_requests opts tc : preserves (keeps requests) (execute_tool_call opts tc).
Proof. unfold execute_tool_call. walk. Qed.
Lemma execute_tool_calls_requests opts tcs ms : preserves (keeps requests) (execute_tool_calls opts tcs ms).
Proof.
  pose proof execute_tool_call_requests. revert ms.
  induction tcs as [|tc tcs IH]; intros ms; cbn [execute_tool_calls]; walk.
Qed.

(** What lies between two calls of [callLLM] in the retry loop. *)
Definition before_retry (first : bool) opts : M TW (list Message) :=
  _ ← when (first && negb (IsInternalChannel (o_Channel opts))) (PublishOutbound (compressing_notice opts));
  _ ← forceCompression (SessionKey opts);
  newHistory ← gets (history_of (SessionKey opts));
  newSummary ← gets (summary_of (SessionKey opts));
  build_messages E newHistory newSummary "" (o_Channel opts) (o_ChatID opts).

Lemma before_retry_requests first opts : preserves (keeps requests) (before_retry first opts).
Proof.
  apply preserves_bind; [apply _|apply preserves_when; [apply _|apply PublishOutbound_keeps, _]|intros _].
  apply preserves_bind; [apply _|apply forceCompression_requests|intros _].
  do 2 (apply preserves_bind; [apply _|apply preserves_gets, _|intros ?]). apply build_messages_keeps, _.
Qed.
Lemma retry_llm_unfold left first opts ms s :
  retry_llm (S left) first opts ms s =
  match callLLM ms s with
  | (Err e, s1) =>
      if isContextError e then
        let '(ms', s2) := before_retry first opts s1 in retry_llm left false opts ms' s2
      else ((Err e, ms), s1)
  | (Ok resp, s1) => ((Ok resp, ms), s1)
  end.
Proof.
  cbn [retry_llm]. rewrite bind_eq. destruct (callLLM ms s) as [[resp|e] s1]; [done|]. cbn [fst snd].
  destruct (isContextError e); [|done]. unfold before_retry. rewrite !bind_eq. cbn [gets fst snd].
  by destruct (build_messages _ _ _ _ _ _ _).
Qed.

(** The assistant message and the tool calls of an iteration. *)
Definition record_round opts (am : Message) (tcs : list ToolCall) messages : M TW (list Message) :=
  _ ← add_message E (SessionKey opts) am; execute_tool_calls opts tcs messages.

Lemma record_round_requests opts am tcs ms : preserves (keeps requests) (record_round opts am tcs ms).
Proof. apply preserves_bind; [apply _|apply add_message_keeps, _|intros _; apply execute_tool_calls_requests]. Qed.
Lemma llm_iterations_unfold n iteration opts ms s :
  llm_iterations (S n) iteration opts ms s =
  match retry_llm maxRetries true opts ms s with
  | ((Err e, ms1), s1) => ((Err (wrap_error "LLM call failed after retries: " e), S iteration, ms1), s1)
  | ((Ok response, ms1), s1) =>
      match lr_ToolCalls response with
      | [] => ((Ok (lr_Content response), S iteration, ms1), s1)
      | toolCalls =>
          let calls := NormalizeToolCall (marshal E) (unmarshal E) <$> toolCalls in
          let am := assistantMsg response calls in
          let '(ms2, s2) := record_round opts am calls (ms1 ++ [am]) s1 in
          llm_iterations n (S iteration) opts ms2 s2
      end
  end.
Proof.
  cbn [llm_iterations]. rewrite bind_eq. destruct (retry_llm _ _ _ _ _) as [[[response|e] ms1] s1]; [|done].
  cbn [fst snd]. destruct (lr_ToolCalls response); [done|]. cbv zeta. unfold record_round. rewrite !bind_eq.
  by destruct (execute_tool_calls _ _ _ _).
Qed.

(** ** The rule of the loop

    [I] relates the messages of the request and the history of the session. *)
Section rule.
Context (I : list Message → list Message → Prop) (opts : processOptions).
#[local] Notation hist s := (history_of (SessionKey opts) s).
Hypothesis I_round : ∀ ms h round, round_ok round → I ms h → I (ms ++ round) (h ++ round).
Hypothesis I_compress : ∀ ms h sys, I ms h → m_Role sys = "system" →
  I (sys :: sanitizeHistoryForProvider (default h (compress h))) (default h (compress h)).

(** Every request sent on the way was so related to the session as it was then. *)
Definition shown (s s' : turn TW) : Prop :=
  ∃ sent, requests (sh s') = requests (sh s) ++ sent
    ∧ Forall (λ rq, I (rq_messages rq) (GetHistory (SessionKey opts) (rq_sessions rq))) sent.

Lemma shown_keeps s s' : keeps requests s s' → shown s s'.
Proof using Type. intros H. exists []. rewrite H, app_nil_r. by split. Qed.

Lemma shown_trans s1 s2 s3 : shown s1 s2 → shown s2 s3 → shown s1 s3.
Proof using Type.
  intros (l & E1 & H1) (k & E2 & H2). exists (l ++ k). rewrite E2, E1, app_assoc.
  split; [done|by apply Forall_app].
Qed.

Lemma callLLM_shown ms s : I ms (hist s) → shown s (callLLM ms s).2.
Proof using Type.
  intros HI. unfold callLLM. rewrite !bind_eq. cbn [gets next_call fst snd on_shared agent sh].
  destruct (1 <? _); eexists; (split; [reflexivity|]); apply Forall_fmap, Forall_true; done.
Qed.

Lemma before_retry_inv first ms s :
  I ms (hist s) → let '(ms', s') := before_retry first opts s in I ms' (hist s').
Proof using All.
  intros HI. unfold before_retry. rewrite !bind_eq. cbn [gets fst snd].
  set (s2 := (when _ _ s).2). assert (hist s2 = hist s) as Hh2.
  { unfold history_of. do 2 f_equal. exact (preserves_when same_agent _ _ (on_shared_agent _) s). }
  set (s3 := (forceCompression _ s2).2). assert (hist s3 = default (hist s) (compress (hist s))) as Hh3.
  { rewrite <-Hh2. apply forceCompression_history. }
  destruct (build_messages_spec (hist s3) (summary_of (SessionKey opts) s3) ""
              (o_Channel opts) (o_ChatID opts) s3) as (sys & Hsys & Hm & Hs).
  destruct (build_messages _ _ _ _ _ _ _) as [ms' s']. cbn [fst snd] in *. subst ms'.
  rewrite Hs, Hh3. unfold current_part. simpl. rewrite app_nil_r. eauto.
Qed.

Lemma retry_llm_inv left first ms s :
  I ms (hist s) →
  I (retry_llm left first opts ms s).1.2 (hist (retry_llm left first opts ms s).2)
  ∧ shown s (retry_llm left first opts ms s).2.
Proof using All.
  revert first ms s. induction left as [|left IH]; intros first ms s HI;
    pose proof (callLLM_agent ms s) as Ha; pose proof (callLLM_shown ms s HI) as Hs.
  - cbn [retry_llm]. rewrite bind_eq. destruct (callLLM ms s) as [r s1]; simpl in Ha.
    assert (hist s1 = hist s) as Hh by (unfold history_of; by rewrite Ha).
    destruct r; simpl; by rewrite Hh.
  - rewrite retry_llm_unfold. destruct (callLLM ms s) as [r s1]; simpl in Ha.
    assert (hist s1 = hist s) as Hh by (unfold history_of; by rewrite Ha).
    destruct r as [resp|e]; [simpl; by rewrite Hh|]. destruct (isContextError e); [|simpl; by rewrite Hh].
    rewrite <-Hh in HI. pose proof (before_retry_inv first ms s1 HI) as HI2.
    pose proof (before_retry_requests first opts s1) as Hk.
    destruct (before_retry first opts s1) as [ms' s2]. destruct (IH false ms' s2 HI2) as [H1 H2].
    split; [done|]. eapply shown_trans; [exact Hs|]. eapply shown_trans; [by apply shown_keeps|done].
Qed.

Lemma llm_iterations_inv fuel iteration ms s :
  I ms (hist s) →
  I (llm_iterations fuel iteration opts ms s).1.2 (hist (llm_iterations fuel iteration opts ms s).2)
  ∧ shown s (llm_iterations fuel iteration opts ms s).2.
Proof using All.
  revert iteration ms s. induction fuel as [|n IH]; intros iteration ms s HI.
  { cbn [llm_iterations]. split; [done|by apply shown_keeps]. }
  rewrite llm_iterations_unfold. pose proof (retry_llm_inv maxRetries true ms s HI) as [HI1 Hs1].
  destruct (retry_llm maxRetries true opts ms s) as [[answer ms1] s1]. cbn [fst snd] in *.
  destruct answer as [response|e]; [|done]. destruct (lr_ToolCalls response) as [|tc tcs] eqn:Et; [done|].
  cbv zeta. set (calls := NormalizeToolCall _ _ <$> tc :: tcs). set (am := assistantMsg response calls).
  pose proof (record_round_requests opts am calls (ms1 ++ [am]) s1) as Hk.
  assert (let '(ms2, s2) := record_round opts am calls (ms1 ++ [am]) s1 in I ms2 (hist s2)) as HI2.
  { unfold record_round. rewrite bind_eq. set (s2 := (add_message _ _ _ s1).2).
    destruct (execute_tool_calls_spec opts calls (ms1 ++ [am]) s2) as (results & Hm & Hh & Hr & Hid).
    destruct (execute_tool_calls _ _ _ _) as [ms2 s3]. cbn [fst snd] in *. subst ms2.
    rewrite Hh. unfold s2. rewrite add_message_history, <-!app_assoc.
    apply I_round; [|done]. exists am, results. split_and!; try done.
    rewrite Hid. unfold am, assistantMsg. simpl. rewrite <-!list_fmap_compose. done. }
  destruct (record_round _ _ _ _ _) as [ms2 s2]. destruct (IH (S iteration) ms2 s2 HI2) as [H1 H2].
  split; [done|]. eapply shown_trans; [exact Hs1|]. eapply shown_trans; [by apply shown_keeps|done].
Qed.
End rule.

(** ** How a session's history evolves during a turn *)
Inductive evolves : list Message → list Message → Prop :=
| ev_refl h : evolves h h
| ev_round h h' round : evolves h h' → round_ok round → evolves h (h' ++ round)
| ev_compress h h' h'' : evolves h h' → compress h' = Some h'' → evolves h h''.

Lemma evolves_default h h' : evolves h h' → evolves h (default h' (compress h')).
Proof. intros H. destruct (compress h') eqn:E'; [by eapply ev_compress|done]. Qed.

(** The messages of the request are a system message, the sanitised history up
    to some point, and the rounds since then; the history has the same rounds. *)
Definition in_sync (h0 ms h : list Message) : Prop :=
  ∃ sys base rounds, m_Role sys = "system" ∧ Forall round_ok rounds ∧ evolves h0 base
    ∧ ms = sys :: sanitizeHistoryForProvider base ++ mjoin rounds ∧ h = base ++ mjoin rounds.

Lemma evolves_rounds h h' rounds : evolves h h' → Forall round_ok rounds → evolves h (h' ++ mjoin rounds).
Proof.
  intros H Hr. revert h' H. induction Hr as [|r rs Hr _ IH]; intros h' H; csimpl; [by rewrite app_nil_r|].
  rewrite app_assoc. apply IH. by constructor.
Qed.

Lemma in_sync_round h0 ms h round : round_ok round → in_sync h0 ms h → in_sync h0 (ms ++ round) (h ++ round).
Proof.
  intros Hr (sys & base & rounds & Hsys & Hrs & Hev & -> & ->).
  exists sys, base, (rounds ++ [round]). rewrite join_app. csimpl. rewrite app_nil_r, <-!app_assoc.
  split_and!; try done. apply Forall_app. auto.
Qed.

Lemma in_sync_compress h0 ms h sys :
  in_sync h0 ms h → m_Role sys = "system" →
  in_sync h0 (sys :: sanitizeHistoryForProvider (default h (compress h))) (default h (compress h)).
Proof.
  intros (_ & base & rounds & _ & Hrs & Hev & _ & ->) Hsys.
  pose proof (evolves_rounds _ _ _ Hev Hrs) as Hev'.
  exists sys, (default (base ++ mjoin rounds) (compress (base ++ mjoin rounds))), [].
  csimpl. rewrite !app_nil_r. split_and!; try done. by apply evolves_default.
Qed.

Lemma sanitize_user l c :
  sanitizeHistoryForProvider (l ++ [text_message "user" c])
  = sanitizeHistoryForProvider l ++ [text_message "user" c].
Proof. by rewrite sanitize_snoc. Qed.

Lemma in_sync_acceptable h0 ms c rounds sys :
  ms = sys :: sanitizeHistoryForProvider (h0 ++ [text_message "user" c]) ++ mjoin rounds →
  Forall round_ok rounds → ∃ l, ms = sys :: l ∧ acceptable l.
Proof.
  intros -> Hr. eexists. split; [done|]. apply acceptable_rounds; [apply sanitize_acceptable| |done].
  rewrite sanitize_user. exists (text_message "user" c). rewrite last_snoc. auto.
Qed.

(** ** The start of a turn *)
Lemma begin_turn_spec opts s :
  let '(ms, s1) := begin_turn opts s in
  (∃ sys, m_Role sys = "system"
     ∧ ms = sys :: sanitizeHistoryForProvider (if NoHistory opts then [] else history_of (SessionKey opts) s)
            ++ current_part (UserMessage opts))
  ∧ history_of (SessionKey opts) s1
    = history_of (SessionKey opts) s ++ [text_message "user" (UserMessage opts)].
Proof.
  unfold begin_turn. rewrite !bind_eq. cbn [gets fst snd].
  set (s1 := (when _ _ s).2). set (s2 := (updateToolContexts _ _ s1).2).
  assert (agent s2 = agent s) as Ha.
  { transitivity (agent s1); [apply updateToolContexts_agent|].
    unfold s1. apply (preserves_when same_agent). intros s0. done. }
  assert (history_of (SessionKey opts) s2 = history_of (SessionKey opts) s) as Hh
    by (unfold history_of; by rewrite Ha).
  rewrite Hh. set (h := if NoHistory opts then _ else _). set (sum := if NoHistory opts then _ else _).
  destruct (build_messages_spec h sum (UserMessage opts) (o_Channel opts) (o_ChatID opts) s2)
    as (sys & Hsys & Hm & Hs).
  cbn [mret M_ret fst snd]. rewrite add_message_history, Hs, Hh, Hm. split; [by exists sys|done].
Qed.

Lemma begin_turn_requests opts : preserves (keeps requests) (begin_turn opts).
Proof. unfold begin_turn. walk. Qed.

(** The messages [ms] and the history [h] of a session with [h0] at the start of the turn:
    a system message and the sanitised history as of the start or of the last
    compression, and the same whole rounds since; acceptable to the provider as long as
    nothing was compressed. *)
Definition in_step (h0 ms h : list Message) : Prop :=
  ∃ sys base rounds, m_Role sys = "system" ∧ Forall round_ok rounds ∧ evolves h0 base
    ∧ ms = sys :: sanitizeHistoryForProvider base ++ mjoin rounds ∧ h = base ++ mjoin rounds
    ∧ (base = h0 → acceptable (drop 1 ms)).

Lemma in_sync_step h c ms h' :
  in_sync (h ++ [text_message "user" c]) ms h' → in_step (h ++ [text_message "user" c]) ms h'.
Proof.
  intros (sys & base & rounds & Hsys & Hrs & Hev & Hms & Hh). exists sys, base, rounds. split_and!; try done.
  intros ->. destruct (in_sync_acceptable _ _ _ _ _ Hms Hrs) as (l & -> & Hl). done.
Qed.


(** ** What a turn leaves behind *)
Lemma execute_tool_call_only opts tc : preserves (only_session E (SessionKey opts)) (execute_tool_call opts tc).
Proof. unfold execute_tool_call. walk. Qed.

Lemma execute_tool_calls_only opts tcs ms :
  preserves (only_session E (SessionKey opts)) (execute_tool_calls opts tcs ms).
Proof.
  revert ms. induction tcs as [|tc tcs IH]; intros ms; cbn [execute_tool_calls]; [walk|].
  apply preserves_bind; [apply _|apply execute_tool_call_only|]. intros m. apply IH.
Qed.

Lemma retry_llm_only left first opts ms :
  preserves (only_session E (SessionKey opts)) (retry_llm left first opts ms).
Proof.
  revert first ms. induction left as [|left IH]; intros first ms; cbn [retry_llm];
    (apply preserves_bind; [apply _|apply only_session_agent; [apply callLLM_agent|apply callLLM_dirs]|]); intros [r|e]; walk.
Qed.

Lemma llm_iterations_only fuel iteration opts ms :
  preserves (only_session E (SessionKey opts)) (llm_iterations fuel iteration opts ms).
Proof.
  revert iteration ms. induction fuel as [|n IH]; intros iteration ms; cbn [llm_iterations]; [walk|].
  apply preserves_bind; [apply _|apply retry_llm_only|]. intros [[response|e] ms1]; [|walk].
  destruct (lr_ToolCalls response); [walk|].
  apply preserves_bind; [apply _|apply add_message_only|]. intros _.
  apply preserves_bind; [apply _|apply execute_tool_calls_only|]. intros ms2. apply IH.
Qed.

Lemma RecordLastChannel_agent channel : preserves same_agent (RecordLastChannel E channel).
Proof. intros s. done. Qed.
Lemma updateToolContexts_dirs c i : preserves (keeps session_dirs) (updateToolContexts (TW := TW) c i).
Proof. apply updateToolContexts_keeps. apply _. Qed.

Lemma maybeSummarize_agent opts : preserves same_agent (maybeSummarize opts).
Proof. unfold maybeSummarize. walk. Qed.
Lemma maybeSummarize_dirs opts : preserves (keeps session_dirs) (maybeSummarize opts).
Proof. unfold maybeSummarize. walk. all: by intros ?. Qed.

Lemma begin_turn_only opts : preserves (only_session E (SessionKey opts)) (begin_turn opts).
Proof.
  pose proof RecordLastChannel_agent. pose proof updateToolContexts_dirs. unfold begin_turn. walk.
Qed.

Lemma end_turn_only opts content : preserves (only_session E (SessionKey opts)) (end_turn opts content).
Proof. pose proof maybeSummarize_agent. pose proof maybeSummarize_dirs. unfold end_turn. walk. Qed.

Lemma runAgentLoop_only opts : preserves (only_session E (SessionKey opts)) (runAgentLoop opts).
Proof.
  unfold runAgentLoop. apply preserves_bind; [apply _|apply begin_turn_only|]. intros ms.
  apply preserves_bind; [apply _| |intros [[[content|e] k] ms']].
  - unfold runLLMIteration. apply preserves_bind; [apply _|walk|]. intros. apply llm_iterations_only.
  - apply preserves_bind; [apply _|apply end_turn_only|]. intros. walk.
  - walk.
Qed.

Lemma end_turn_spec opts content s :
  let '(c, s') := end_turn opts content s in
  c = (if bool_decide (content = "") then DefaultResponse opts else content)
  ∧ history_of (SessionKey opts) s' = history_of (SessionKey opts) s ++ [text_message "assistant" c].
Proof.
  unfold end_turn. cbv zeta. set (c := if bool_decide _ then _ else _). rewrite !bind_eq.
  set (s1 := (add_message E _ _ s).2). set (s2 := (save_session E _ s1).2).
  assert (agent (when (SendResponse opts) (PublishOutbound (mk_OutboundMessage (o_Channel opts)
      (o_ChatID opts) c)) (when (EnableSummary opts) (maybeSummarize opts) s2).2).2 = agent s2) as Ha.
  { etransitivity; [exact (preserves_when same_agent _ _ (on_shared_agent _) _)|].
    exact (preserves_when same_agent _ _ (maybeSummarize_agent opts) s2). }
  cbn [mret M_ret]. split; [done|]. unfold history_of at 1. rewrite Ha. apply add_message_history.
Qed.

(** A turn leaves a well-formed record.  Whatever the model and the tools do,
    the history of the turn's session becomes the old one and the user's message,
    changed only by appending whole rounds of calls with all their results and by
    compressions; a turn that replies ends it with the reply, as an assistant
    message, which is empty only when the default response is; a turn that fails
    leaves it without a reply.  No other session of the agent is touched in memory,
    nor on disk, but for what the tools do there. *)
Lemma turn_record opts s :
  let '(r, s') := runAgentLoop opts s in
  (∃ h, evolves (history_of (SessionKey opts) s ++ [text_message "user" (UserMessage opts)]) h
    ∧ match r with
      | Ok c => history_of (SessionKey opts) s' = h ++ [text_message "assistant" c]
                ∧ (c = "" → DefaultResponse opts = "")
      | Err _ => history_of (SessionKey opts) s' = h
      end)
  ∧ only_session E (SessionKey opts) s s'.
Proof.
  pose proof (runAgentLoop_only opts s) as Honly. revert Honly. unfold runAgentLoop. rewrite !bind_eq.
  pose proof (begin_turn_spec opts s) as Hb. destruct (begin_turn opts s) as [ms s1]. destruct Hb as [_ Hh].
  cbn [fst snd]. set (h0 := history_of (SessionKey opts) s ++ _) in *.
  unfold runLLMIteration. rewrite !bind_eq. cbn [gets fst snd].
  pose proof (llm_iterations_inv (λ _ h, evolves h0 h) opts
    (λ _ h round Hr H, ev_round _ _ _ H Hr) (λ _ h _ H _, evolves_default _ _ H)
    (Z.to_nat (ag_MaxIterations (agent s1))) 0 ms s1) as Hinv.
  rewrite Hh in Hinv. specialize (Hinv (ev_refl h0)). destruct Hinv as [Hinv _].
  destruct (llm_iterations _ _ _ _ _) as [[[answer k] ms'] s2]. cbn [fst snd] in *.
  destruct answer as [content|e]; [|intros Honly; split; [by eexists|done]].
  rewrite bind_eq. pose proof (end_turn_spec opts content s2) as He.
  destruct (end_turn opts content s2) as [c s3]. destruct He as [-> Hh3]. cbn [mret M_ret fst snd].
  intros Honly. split; [|done]. exists (history_of (SessionKey opts) s2). split_and!; [done|done|].
  by case_bool_decide.
Qed.

(** ** How often providers are asked *)

(** The requests a call of [callLLM] may send: one for each candidate, or one. *)
Definition per_call (a : AgentInstance TW) : nat := Nat.max 1 (length (ag_Candidates a)).

Definition asked_at_most (n : nat) (s s' : turn TW) : Prop :=
  length (requests (sh s')) ≤ length (requests (sh s)) + n ∧ per_call (agent s') = per_call (agent s).

Lemma asked_trans n m s1 s2 s3 : asked_at_most n s1 s2 → asked_at_most m s2 s3 → asked_at_most (n + m) s1 s3.
Proof. intros [H1 P1] [H2 P2]. split; [lia|congruence]. Qed.

Lemma asked_le n m s s' : n ≤ m → asked_at_most n s s' → asked_at_most m s s'.
Proof. intros Hn [H P]. split; [lia|done]. Qed.

Lemma asked_none key s s' : only_session E key s s' → keeps requests s s' → asked_at_most 0 s s'.
Proof.
  intros [(_&_&_&_&_&Hc&_) _ _] Hk. unfold asked_at_most, per_call. rewrite Hc, Hk. split; [lia|done].
Qed.

Lemma callLLM_asks messages s : asked_at_most (per_call (agent s)) s (callLLM messages s).2.
Proof.
  split; [|unfold per_call; by rewrite (callLLM_agent messages s)].
  unfold callLLM. rewrite !bind_eq. cbn [gets next_call fst snd on_shared agent sh].
  destruct (Nat.ltb_spec 1 (length (ag_Candidates (agent s)))) as [Hc|Hc].
  - rewrite !bind_eq. cbn [gets fst snd]. set (r := ExecuteLog _ _ _).
    change (length (requests (sh s) ++ ((λ model, mk_model_request model messages (ag_Sessions (agent s)))
              <$> (c_Model <$> r.2))) ≤ length (requests (sh s)) + per_call (agent s)).
    rewrite length_app, !length_fmap.
    pose proof (sublist_length _ _ (ExecuteLog_called
      (λ i, with_call (attempt E (calls (sh s)) i) (Chat E (calls (sh s)) i messages (ToProviderDefs (ag_Tools (agent s)))))
      (ag_Candidates (agent s)) (tracker (sh s)))) as Hl.
    change (length r.2 ≤ length (ag_Candidates (agent s))) in Hl. unfold per_call. lia.
  - change (length (requests (sh s) ++ [mk_model_request (ag_Model (agent s)) messages (ag_Sessions (agent s))])
            ≤ length (requests (sh s)) + per_call (agent s)).
    rewrite length_app. unfold per_call. cbn [length]. lia.
Qed.

Lemma before_retry_only first opts : preserves (only_session E (SessionKey opts)) (before_retry first opts).
Proof.
  apply preserves_bind; [apply _|apply preserves_when; [apply _|by apply only_session_agent]|intros _].
  apply preserves_bind; [apply _|apply forceCompression_only|intros _].
  do 2 (apply preserves_bind; [apply _|apply preserves_gets, _|intros ?]). apply build_messages_only.
Qed.

Lemma record_round_only opts am tcs ms :
  preserves (only_session E (SessionKey opts)) (record_round opts am tcs ms).
Proof. apply preserves_bind; [apply _|apply add_message_only|intros _; apply execute_tool_calls_only]. Qed.

Lemma retry_llm_asks left first opts ms s :
  asked_at_most (S left * per_call (agent s)) s (retry_llm left first opts ms s).2.
Proof.
  revert first ms s. induction left as [|left IH]; intros first ms s.
  - cbn [retry_llm]. rewrite bind_eq. pose proof (callLLM_asks ms s) as H.
    destruct (callLLM ms s) as [[resp|e] s1]; cbn [fst snd mret M_ret] in *; (eapply asked_le; [|exact H]; lia).
  - rewrite retry_llm_unfold. pose proof (callLLM_asks ms s) as H.
    destruct (callLLM ms s) as [[resp|e] s1]; cbn [fst snd] in *; [eapply asked_le; [|exact H]; lia|].
    destruct (isContextError e); [|eapply asked_le; [|exact H]; lia].
    pose proof (asked_none _ _ _ (before_retry_only first opts s1) (before_retry_requests first opts s1)) as H2.
    destruct (before_retry first opts s1) as [ms' s2]. cbn [snd] in H2.
    pose proof (asked_trans _ _ _ _ _ (asked_trans _ _ _ _ _ H H2) (IH false ms' s2)) as H3.
    assert (per_call (agent s2) = per_call (agent s)) as E2 by (by rewrite (proj2 H2), (proj2 H)).
    rewrite E2 in H3. eapply asked_le; [|exact H3]. lia.
Qed.

Lemma llm_iterations_asks fuel iteration opts ms s :
  asked_at_most (fuel * (3 * per_call (agent s))) s (llm_iterations fuel iteration opts ms s).2.
Proof.
  revert iteration ms s. induction fuel as [|n IH]; intros iteration ms s.
  { cbn [llm_iterations mret M_ret snd]. split; [lia|done]. }
  rewrite llm_iterations_unfold. pose proof (retry_llm_asks maxRetries true opts ms s) as H.
  unfold maxRetries in *.
  destruct (retry_llm _ _ _ _ _) as [[[response|e] ms1] s1]; cbn [fst snd] in *;
    [|eapply asked_le; [|exact H]; lia].
  destruct (lr_ToolCalls response) as [|tc tcs]; [eapply asked_le; [|exact H]; lia|]. cbv zeta.
  set (cs := _ <$> _). set (am := assistantMsg _ _).
  pose proof (asked_none _ _ _ (record_round_only opts am cs (ms1 ++ [am]) s1)
    (record_round_requests opts am cs (ms1 ++ [am]) s1)) as H2.
  destruct (record_round _ _ _ _ _) as [ms2 s2]. cbn [snd] in H2.
  pose proof (asked_trans _ _ _ _ _ (asked_trans _ _ _ _ _ H H2) (IH (S iteration) ms2 s2)) as H3.
  assert (per_call (agent s2) = per_call (agent s)) as E2 by (by rewrite (proj2 H2), (proj2 H)).
  rewrite E2 in H3. eapply asked_le; [|exact H3]. lia.
Qed.

Lemma end_turn_requests opts content : preserves (keeps requests) (end_turn opts content).
Proof.
  unfold end_turn, maybeSummarize. walk. all: by intros ?.
Qed.

(** C39: a turn sends a bounded number of requests to providers, whatever these answer
    and the tools do: at most [MaxIterations] iterations, three calls of the model in
    each (the first and two retries), and in each call one request for each candidate
    of the agent, or one when it has no fallbacks.  (What tools ask of models on their
    own, as a subagent does, and the summarisation that a turn may start are no part of
    it.) *)
Theorem model_calls_bounded opts s :
  length (requests (sh (runAgentLoop opts s).2)) ≤
  length (requests (sh s))
  + Z.to_nat (ag_MaxIterations (agent s)) * (3 * Nat.max 1 (length (ag_Candidates (agent s)))).
Proof.
  unfold runAgentLoop. rewrite !bind_eq.
  pose proof (begin_turn_requests opts s) as Hc.
  pose proof (begin_turn_only opts s) as [(_ & _ & Hm & _ & _ & Hcand & _) _ _].
  destruct (begin_turn opts s) as [ms s1]. cbn [fst snd] in *. unfold keeps in Hc.
  unfold runLLMIteration. rewrite !bind_eq. cbn [gets fst snd]. rewrite <-Hm, <-Hcand, <-Hc.
  pose proof (llm_iterations_asks (Z.to_nat (ag_MaxIterations (agent s1))) 0 opts ms s1) as [H _].
  destruct (llm_iterations _ _ _ _ _) as [[[content k] ms'] s2]. cbn [fst snd] in *.
  unfold per_call in H.
  destruct content as [content|e]; [|exact H].
  rewrite bind_eq. cbn [mret M_ret snd]. by rewrite (end_turn_requests _ _ _).
Qed.

(** ** Which summarisations a turn starts *)
Abbreviation jobs := (λ x : shared TW, (summarizing x, goroutines x)) (only parsing).

Lemma callLLM_jobs ms : preserves (keeps jobs) (callLLM ms).
Proof.
  intros s. unfold callLLM, keeps. rewrite !bind_eq. cbn [gets fst snd]. by case_match.
Qed.
Lemma execute_tool_calls_jobs opts tcs ms : preserves (keeps jobs) (execute_tool_calls opts tcs ms).
Proof.
  revert ms. induction tcs as [|tc tcs IH]; intros ms; cbn [execute_tool_calls]; unfold execute_tool_call; walk.
Qed.
Lemma retry_llm_jobs left first opts ms : preserves (keeps jobs) (retry_llm left first opts ms).
Proof.
  pose proof callLLM_jobs. revert first ms.
  induction left as [|left IH]; intros first ms; cbn [retry_llm]; unfold forceCompression; walk.
Qed.
Lemma llm_iterations_jobs fuel iteration opts ms : preserves (keeps jobs) (llm_iterations fuel iteration opts ms).
Proof.
  pose proof retry_llm_jobs. pose proof execute_tool_calls_jobs. revert iteration ms.
  induction fuel as [|n IH]; intros iteration ms; cbn [llm_iterations]; walk.
Qed.
Lemma begin_turn_jobs opts : preserves (keeps jobs) (begin_turn opts).
Proof. unfold begin_turn. walk. Qed.

Definition job_key (j : summary_job) : string := j_agent j +:+ ":" +:+ j_session j.

(** At most one is started, for the turn's session, when none is under way. *)
Definition starts_job opts (s s' : turn TW) : Prop :=
  jobs (sh s') = jobs (sh s)
  ∨ ∃ j, j_agent j = ag_ID (agent s) ∧ j_session j = SessionKey opts
      ∧ job_key j ∉ summarizing (sh s)
      ∧ jobs (sh s') = ({[job_key j]} ∪ summarizing (sh s), goroutines (sh s) ++ [j]).

Lemma maybeSummarize_jobs opts s : starts_job opts s (maybeSummarize opts s).2.
Proof.
  unfold maybeSummarize. rewrite bind_eq. cbn [gets fst snd]. cbv zeta.
  destruct (_ || _); [|by left]. rewrite bind_eq. cbn [gets fst snd].
  case_bool_decide as Hin; [by left|]. right.
  by exists (mk_summary_job (ag_ID (agent s)) (SessionKey opts) (o_Channel opts) (o_ChatID opts)).
Qed.

Lemma end_turn_jobs opts content s : starts_job opts s (end_turn opts content s).2.
Proof.
  unfold end_turn. cbv zeta. rewrite !bind_eq. cbn [fst snd mret M_ret].
  set (s1 := (add_message E _ _ s).2). set (s2 := (save_session E _ s1).2).
  set (s3 := (when (EnableSummary opts) _ s2).2).
  assert (starts_job opts s s3) as H.
  { unfold s3. destruct (EnableSummary opts); [|by left].
    exact (maybeSummarize_jobs opts s2). }
  by destruct (SendResponse opts).
Qed.

Lemma runAgentLoop_jobs opts s : starts_job opts s (runAgentLoop opts s).2.
Proof.
  unfold runAgentLoop. rewrite !bind_eq.
  pose proof (begin_turn_jobs opts s) as Hb. pose proof (begin_turn_only opts s) as [(Hid & _) _ _].
  destruct (begin_turn opts s) as [ms s1]. cbn [fst snd] in *.
  unfold runLLMIteration. rewrite !bind_eq. cbn [gets fst snd].
  pose proof (llm_iterations_jobs (Z.to_nat (ag_MaxIterations (agent s1))) 0 opts ms s1) as Hl.
  pose proof (llm_iterations_only (Z.to_nat (ag_MaxIterations (agent s1))) 0 opts ms s1) as [(Hid2 & _) _ _].
  destruct (llm_iterations _ _ _ _ _) as [[[content k] ms'] s2]. cbn [fst snd] in *.
  unfold keeps in *. assert (jobs (sh s2) = jobs (sh s)) as Hj by congruence.
  destruct content as [content|e]; [|by left]. rewrite bind_eq. cbn [mret M_ret snd].
  destruct (end_turn_jobs opts content s2) as [H|(j & H1 & H2 & H3 & H4)]; [left; congruence|right].
  injection Hj as Hs Hg. exists j. rewrite Hs, Hg in *. split_and!; congruence.
Qed.

(** ** The model of the agent and its fallback candidates *)

(** With more than one candidate the agent's model is not used: switching it has
    no effect on the calls. *)
Lemma switched_model_ignored messages model s :
  1 < length (ag_Candidates (agent s)) →
  (callLLM messages (on_agent (with_model model) s)).1 = (callLLM messages s).1.
Proof.
  intros H%Nat.ltb_lt. destruct s as [a x]. unfold callLLM. rewrite !bind_eq.
  cbn [gets next_call fst snd on_agent with_model on_shared agent ag_Candidates ag_Tools] in *.
  by rewrite H.
Qed.
End turn.

(** ** Compression *)

(** What is dropped is the oldest half of what lies between the first message
    and the last; the first one gets the note. *)
Lemma compress_spec h h' :
  compress h = Some h' ↔
  ∃ first dropped kept l, h = first :: dropped ++ kept ++ [l] ∧ 4 < length h
    ∧ length dropped = (length h - 2) / 2
    ∧ h' = append_content (compression_note (length dropped)) first :: kept ++ [l].
Proof.
  unfold compress. destruct h as [|first rest]; [split; [done|by intros (?&?&?&?&?&_)]|].
  destruct (Nat.leb_spec (length (first :: rest)) 4) as [Hle|Hgt].
  { split; [done|]. intros (?&?&?&?&_&?&_). simpl in *. lia. }
  destruct rest as [|l rest _] using rev_ind; [simpl in Hgt; lia|].
  rewrite !length_cons, !length_app in *. cbn [length] in *.
  rewrite Nat.add_sub, take_app_length, drop_app_length.
  split.
  - intros [= <-]. set (mid := length rest / 2).
    exists first, (take mid rest), (drop mid rest), l.
    assert (length (take mid rest) = mid) as Hlen.
    { rewrite length_take. subst mid. pose proof (Nat.div_le_upper_bound (length rest) 2 (length rest)). lia. }
    rewrite Hlen, app_assoc, take_drop. split_and!; [done|lia| |done].
    subst mid. f_equal. lia.
  - intros (first' & dropped & kept & l' & Heq & _ & Hd & ->). injection Heq as -> Heq.
    rewrite app_assoc in Heq. apply app_inj_2 in Heq as [-> [= ->]]; [|done].
    assert (length (dropped ++ kept) / 2 = length dropped) as ->.
    { rewrite Hd. f_equal. lia. }
    rewrite drop_app_length. by rewrite <-?app_assoc.
Qed.

Lemma compress_shorter h h' : compress h = Some h' → length h' < length h ∧ last h' = last h.
Proof.
  intros (first & dropped & kept & l & -> & Hl & Hd & ->)%compress_spec.
  assert (1 ≤ length dropped) by (rewrite Hd; apply Nat.div_le_lower_bound; lia).
  split; [simpl; rewrite !length_app; simpl; lia|].
  by rewrite (app_assoc dropped), !app_comm_cons, !last_snoc.
Qed.

(** Timeouts and token rate limits are taken for context window errors. *)
Lemma context_errors_misjudged :
  isContextError (mk_error "context deadline exceeded" false true) = true
  ∧ isContextError (errors_New "429: rate limit reached: 30000 tokens per min") = true
  ∧ ClassifyError (Some (mk_error "context deadline exceeded" false true)) "openai" "gpt-4o"
    = Some (mk_FailoverError FailoverTimeout "openai" "gpt-4o" 0 (mk_error "context deadline exceeded" false true)).
Proof. vm_compute. auto. Qed.

(** ** An agent to compute with *)
Definition demo_agent (history : list Message) : AgentInstance unit :=
  mk_AgentInstance "main" "gpt-4o" 5 8192
    (mk_SessionManager {["agent:main:main" := mk_Session "agent:main:main" history "" 1%Z 1%Z]} "")
    (NewContextBuilder "/ws") ∅ [].
Definition demo_shared : shared unit :=
  mk_shared tt NewCooldownTracker None [] ∅ [] ∅ 0 [] 0.
Definition demo_turn (history : list Message) : turn unit := mk_turn (demo_agent history) demo_shared.

(** An environment whose model answers the [k]-th call by [script k]. *)
Definition demo_env (script : nat → list Message → result error LLMResponse) : environment unit :=
  mk_environment (λ n, Z.of_nat n) (λ _, mk_save_env "1" None true) (λ _, None) (λ _, ∅) (λ _ dirs, dirs) "/"
    (λ _, "") (λ _, []) (λ _, "now") "linux" (λ _, "1s") (λ _, "{}") (λ _, None)
    (λ k _ ms _ _, script k ms)
    (λ _ _, mk_iteration false 1 1 (λ _ _, Err context_Canceled) 1 false 1).

Definition answer (c : string) : result error LLMResponse := Ok (mk_LLMResponse c "" [] "stop" None).
Definition demo_calls : result error LLMResponse :=
  Ok (mk_LLMResponse "" "" [mk_ToolCall "c1" "function" None "lookup" None "" None] "tool_calls" None).
Definition demo_script (k : nat) (_ : list Message) : result error LLMResponse :=
  match k with 0 => demo_calls | _ => answer "done" end.
Definition demo_opts (no_history : bool) : processOptions :=
  mk_processOptions "agent:main:main" "telegram" "7" "hello" "nothing to say" true false no_history.


(** A heartbeat is to run without history, but after a context error its request
    is rebuilt from the whole session. *)
Definition overflow_script (k : nat) (ms : list Message) : result error LLMResponse :=
  match k with 0 => Err (errors_New "context length exceeded") | _ => answer (pretty (length ms)) end.

Lemma heartbeat_sees_history :
  let old := [text_message "user" "check"; text_message "assistant" "ok"] in
  let run script := (runAgentLoop (demo_env script) (demo_opts true) (demo_turn old)).1 in
  run (λ _ ms, answer (pretty (length ms))) = Ok "2" ∧ run overflow_script = Ok "4".
Proof. vm_compute. auto. Qed.
