(* ===== verification/AgentSummary.v ===== *)
(** * Summarising a session (pkg/agent/loop.go: summarizeSession, summarizeBatch)

    The goroutine that replaces all but the last messages of a long history by a
    summary.  It runs next to further turns of the same session: what it reads
    and asks the model is [summarize_compute], what it writes back is
    [summarize_commit]. *)
From stdpp Require Import base gmap strings list pretty.
From Stdlib Require Import Ascii ZArith Lia.
From S2P Require Import Prelude GoStrings ProviderTypes Paths Cooldown Fallback Bus Session.
From S2P Require Import AgentContext StateManager ToolBase ToolLoop AgentState AgentTurn.

Definition keptMessages : nat := 4.

(** The messages that go into the prompts: those of the user and the assistant
    that are not too long. *)
Definition in_conversation (m : Message) : bool :=
  bool_decide (m_Role m = "user") || bool_decide (m_Role m = "assistant").
Definition oversized (maxMessageTokens : Z) (m : Message) : bool :=
  (maxMessageTokens <? Z.of_nat (String.length (m_Content m)) `div` 2)%Z.
Definition validMessages (maxMessageTokens : Z) (toSummarize : list Message) : list Message :=
  List.filter (λ m, in_conversation m && negb (oversized maxMessageTokens m)) toSummarize.
Definition omitted (maxMessageTokens : Z) (toSummarize : list Message) : bool :=
  existsb (λ m, in_conversation m && oversized maxMessageTokens m) toSummarize.

Definition batch_prompt (batch : list Message) (existingSummary : string) : string :=
  "Provide a concise summary of this conversation segment, preserving core context and key points." +:+ nl
  +:+ (if bool_decide (existingSummary = "") then ""
       else "Existing context: " +:+ existingSummary +:+ nl)
  +:+ nl +:+ "CONVERSATION:" +:+ nl
  +:+ join "" ((λ m, m_Role m +:+ ": " +:+ m_Content m +:+ nl) <$> batch).

Definition merge_prompt (s1 s2 : string) : string :=
  "Merge these two conversation summaries into one cohesive summary:" +:+ nl +:+ nl +:+ "1: " +:+ s1
  +:+ nl +:+ nl +:+ "2: " +:+ s2.

Definition omission_note : string :=
  nl +:+ "[Note: Some oversized messages were omitted from this summary for efficiency.]".

Section summary.
Context {TW : Type} (E : environment TW).
Implicit Types (key : string) (s : turn TW).

(** One request without tools; the content of the answer. *)
Definition ask (prompt : string) : M TW (result error string) :=
  k ← next_call;
  a ← gets agent;
  _ ← sends [text_message "user" prompt] a [ag_Model a];
  mret (match Chat E k 0 [text_message "user" prompt] [] (ag_Model a) with
        | Ok response => Ok (lr_Content response)
        | Err e => Err e
        end).

Definition summarizeBatch (batch : list Message) (existingSummary : string) : M TW (result error string) :=
  ask (batch_prompt batch existingSummary).

(** [s, _ := ...]: the empty string for an error. *)
Definition or_empty (r : result error string) : string := match r with Ok c => c | Err _ => "" end.

(** Up to the final summary; [None]: the function returned before. *)
Definition summarize_compute key : M TW (option string) :=
  history ← gets (history_of key);
  summary ← gets (summary_of key);
  window ← gets (λ s, ag_ContextWindow (agent s));
  if length history <=? keptMessages then mret None
  else
    let toSummarize := take (length history - keptMessages) history in
    let maxMessageTokens := Z.quot window 2 in
    let valid := validMessages maxMessageTokens toSummarize in
    if bool_decide (valid = []) then mret None
    else
      finalSummary ←
        (if 10 <? length valid then
           let mid := length valid / 2 in
           r1 ← summarizeBatch (take mid valid) "";
           r2 ← summarizeBatch (drop mid valid) "";
           resp ← ask (merge_prompt (or_empty r1) (or_empty r2));
           mret (match resp with
                 | Ok c => c
                 | Err _ => or_empty r1 +:+ " " +:+ or_empty r2
                 end)
         else
           r ← summarizeBatch valid summary;
           mret (or_empty r));
      mret (Some (if omitted maxMessageTokens toSummarize && negb (bool_decide (finalSummary = ""))
                  then finalSummary +:+ omission_note else finalSummary)).

Definition summarize_commit key (finalSummary : string) : M TW unit :=
  if bool_decide (finalSummary = "") then mret tt
  else
    _ ← update_sessions E (λ now, Session.SetSummary now key finalSummary);
    _ ← update_sessions E (λ now, TruncateHistory now key (Z.of_nat keptMessages));
    save_session E key.

Definition summarizeSession key : M TW unit :=
  o ← summarize_compute key;
  match o with
  | None => mret tt
  | Some finalSummary => summarize_commit key finalSummary
  end.

(** ** What it does *)
Lemma ask_agent prompt : preserves same_agent (ask prompt).
Proof. pose proof (@sends_agent TW). unfold ask. walk. Qed.

Lemma ask_dirs prompt : preserves (keeps session_dirs) (ask prompt).
Proof. done. Qed.

Lemma summarize_compute_dirs key : preserves (keeps session_dirs) (summarize_compute key).
Proof. pose proof ask_dirs. unfold summarize_compute, summarizeBatch. cbv zeta. walk. Qed.

Lemma summarize_compute_agent key : preserves same_agent (summarize_compute key).
Proof. pose proof ask_agent. unfold summarize_compute, summarizeBatch. cbv zeta. walk. Qed.

Lemma summarize_compute_jobs key : preserves (keeps (λ x, (summarizing x, goroutines x))) (summarize_compute key).
Proof.
  assert (∀ p, preserves (keeps (λ x : shared TW, (summarizing x, goroutines x))) (ask p)) by done.
  unfold summarize_compute, summarizeBatch. cbv zeta. walk.
Qed.
Lemma summarize_commit_jobs key c :
  preserves (keeps (λ x, (summarizing x, goroutines x))) (summarize_commit key c).
Proof. unfold summarize_commit. walk. Qed.

Lemma summarize_commit_only key c : preserves (only_session E key) (summarize_commit key c).
Proof. unfold summarize_commit. walk. Qed.

Lemma summarizeSession_only key : preserves (only_session E key) (summarizeSession key).
Proof.
  unfold summarizeSession. apply preserves_bind; [apply _|apply only_session_agent; [apply summarize_compute_agent|apply summarize_compute_dirs]|].
  intros [c|]; [apply summarize_commit_only|walk].
Qed.

Lemma history_exists key s : history_of key s ≠ [] → is_Some (sessions (ag_Sessions (agent s)) !! key).
Proof. unfold history_of, GetHistory. destruct (sessions _ !! key); [by eexists|done]. Qed.

(** What is written back, also over a history that has grown meanwhile. *)
Lemma summarize_commit_spec key c s :
  history_of key s ≠ [] → c ≠ "" →
  history_of key (summarize_commit key c s).2 = last_n keptMessages (history_of key s)
  ∧ summary_of key (summarize_commit key c s).2 = c.
Proof.
  intros Hh Hc.
  assert (ag_Sessions (agent (summarize_commit key c s).2)
          = TruncateHistory (clock E (S (ticks (sh s)))) key (Z.of_nat keptMessages)
              (Session.SetSummary (clock E (ticks (sh s))) key c (ag_Sessions (agent s)))) as Hs.
  { unfold summarize_commit. by rewrite bool_decide_false by done. }
  destruct (SetSummary_spec (clock E (ticks (sh s))) key c (ag_Sessions (agent s)))
    as [H1 H2]; [by apply history_exists|].
  unfold history_of, summary_of. rewrite Hs, GetHistory_truncate, GetSummary_truncate, H1, H2. done.
Qed.

Lemma summarize_compute_Some key s c :
  (summarize_compute key s).1 = Some c →
  keptMessages < length (history_of key s)
  ∧ validMessages (Z.quot (ag_ContextWindow (agent s)) 2)
      (take (length (history_of key s) - keptMessages) (history_of key s)) ≠ [].
Proof.
  unfold summarize_compute. rewrite !bind_eq. cbn [gets fst snd].
  destruct (Nat.leb_spec (length (history_of key s)) keptMessages); [done|].
  cbv zeta. case_bool_decide; done.
Qed.

(** What a summarisation does.  It leaves the session as it is, when the
    history is short, when nothing in it can be summarised or when the model
    fails, or it sets a non-empty summary and keeps exactly the last four
    messages; other sessions are not touched.  The summary is computed before it
    is written back: if the session has grown by then, the last four of the
    grown history are kept, so with more than four new messages the oldest of
    them end up neither in the history nor in what the model was shown. *)
Lemma summarization_keeps_last key s :
  (let s' := (summarizeSession key s).2 in
   only_session E key s s'
   ∧ (ag_Sessions (agent s') = ag_Sessions (agent s)
      ∨ keptMessages < length (history_of key s) ∧ summary_of key s' ≠ ""
        ∧ history_of key s' = last_n keptMessages (history_of key s)))
  ∧ (∀ c s2 new, (summarize_compute key s).1 = Some c → c ≠ "" →
       history_of key s2 = history_of key s ++ new → keptMessages ≤ length new →
       history_of key (summarize_commit key c s2).2 = last_n keptMessages new).
Proof.
  split.
  - split; [apply summarizeSession_only|]. unfold summarizeSession. rewrite bind_eq.
    pose proof (summarize_compute_agent key s) as Ha. unfold same_agent in Ha.
    destruct (summarize_compute key s) as [[c|] s1] eqn:Ec; cbn [fst snd mret M_ret] in *;
      [|left; by rewrite Ha].
    destruct (summarize_compute_Some key s c) as [Hl _]; [by rewrite Ec|].
    assert (history_of key s1 = history_of key s) as Hh by (unfold history_of; by rewrite Ha).
    destruct (decide (c = "")) as [->|Hc]; [left; simpl; by rewrite Ha|right].
    destruct (summarize_commit_spec key c s1) as [-> ->]; [|done|by rewrite Hh].
    rewrite Hh. intros E0. by rewrite E0 in Hl; simpl in Hl; lia.
  - intros c s2 new Hs Hc Hh2 Hn. unfold keptMessages in *.
    destruct (summarize_commit_spec key c s2) as [-> _]; [|done|].
    { rewrite Hh2. intros [_ ->]%app_nil. simpl in Hn. lia. }
    rewrite Hh2. unfold last_n, keptMessages. rewrite length_app, drop_app_ge by lia. f_equal. lia.
Qed.

(** With more than ten messages to summarise the old summary is not part of any
    request, yet the new one replaces it. *)
Lemma summary_forgotten key s s2 :
  ag_Model (agent s2) = ag_Model (agent s) → ag_ContextWindow (agent s2) = ag_ContextWindow (agent s) →
  calls (sh s2) = calls (sh s) → history_of key s2 = history_of key s →
  10 < length (validMessages (Z.quot (ag_ContextWindow (agent s)) 2)
                 (take (length (history_of key s) - keptMessages) (history_of key s))) →
  (summarize_compute key s2).1 = (summarize_compute key s).1.
Proof.
  intros Hm Hw Hc Hh Hv. unfold summarize_compute. rewrite !bind_eq. cbn [gets fst snd]. rewrite Hh, Hw.
  destruct (length (history_of key s) <=? keptMessages); [done|].
  cbv zeta. case_bool_decide; [done|]. rewrite !bind_eq, (proj2 (Nat.ltb_lt _ _) Hv).
  unfold summarizeBatch, ask. rewrite !bind_eq.
  cbn [gets next_call sends modify log_requests fst snd mret M_ret on_shared agent sh count_call calls]. by rewrite Hm, Hc.
Qed.
End summary.
