(* ===== verification/AgentLoop.v ===== *)
(** * The agent loop (pkg/agent/loop.go)

    From an inbound message to the reply: commands, system messages, routing to
    an agent and a session, the turn, the publication of the reply; and the
    summarisations that run next to it, as a step relation. *)
From stdpp Require Import base gmap strings list.
From Stdlib Require Import Ascii ZArith Lia.
From S2P Require Import Prelude GoStrings ProviderTypes Paths Routing Bus Session StateManager.
From S2P Require Import ToolBase AgentState AgentTurn AgentSummary.

Definition noReply : string := "I've completed processing but have no response to give.".

(** ** Routing information in the metadata of a message *)
Definition metadata (msg : InboundMessage) (k : string) : string := default "" (im_Metadata msg !! k).

Definition extractPeer (msg : InboundMessage) : option RoutePeer :=
  let peerKind := metadata msg "peer_kind" in
  if bool_decide (peerKind = "") then None
  else
    let peerID := metadata msg "peer_id" in
    Some (mk_RoutePeer peerKind
            (if bool_decide (peerID = "")
             then (if bool_decide (peerKind = "direct") then im_SenderID msg else im_ChatID msg)
             else peerID)).

Definition extractParentPeer (msg : InboundMessage) : option RoutePeer :=
  let parentKind := metadata msg "parent_peer_kind" in
  let parentID := metadata msg "parent_peer_id" in
  if bool_decide (parentKind = "") || bool_decide (parentID = "") then None
  else Some (mk_RoutePeer parentKind parentID).

Definition route_input (msg : InboundMessage) : RouteInput :=
  mk_RouteInput (im_Channel msg) (metadata msg "account_id") (extractPeer msg) (extractParentPeer msg)
    (metadata msg "guild_id") (metadata msg "team_id").

(** The origin of a system message, from its chat: "channel:chat". *)
Definition origin_of (chatID : string) : string * string :=
  match cut chatID ":" with
  | Some (channel, chat) => if bool_decide (channel = "") then ("cli", chatID) else (channel, chat)
  | None => ("cli", chatID)
  end.

Section agentloop.
Context {TW : Type} (E : environment TW).

(** What the loop is configured with.  Maps are iterated in any order:
    [first_id] chooses an agent, [listed] lists them; [channel_names]: the
    enabled channels, [None] without a channel manager; [HasSentInRound]: the
    flag of an agent's message tool, false when it has none. *)
Record loop_config := mk_loop_config {
  route_config : Config;
  first_id : gset string → option string;
  listed : gset string → list string;
  channel_names : option (list string);
  HasSentInRound : AgentInstance TW → TW → bool;
}.
Context (L : loop_config).

Record world := mk_world {
  agents : gmap string (AgentInstance TW);
  common : shared TW;
  computing : list (summary_job * option string);  (* summaries not yet written back *)
}.
Implicit Types (w : world) (id : string) (msg : InboundMessage).

(** The pointer to an agent is its key: a computation runs on the agent in place. *)
Definition with_agent {A} id (m : M TW A) (w : world) : option A * world :=
  match agents w !! id with
  | None => (None, w)
  | Some a =>
      let '(r, s) := m (mk_turn a (common w)) in
      (Some r, mk_world (<[id := agent s]> (agents w)) (sh s) (computing w))
  end.

Definition default_agent w : option string :=
  if bool_decide (is_Some (agents w !! "main")) then Some "main" else first_id L (dom (agents w)).

(** ** Commands *)
Definition list_agents w : string := "Registered agents: " +:+ join ", " (listed L (dom (agents w))).

Definition show_command (args : list string) msg w : string :=
  match args with
  | [] => "Usage: /show [model|channel|agents]"
  | arg :: _ =>
      if bool_decide (arg = "model") then
        match default_agent w ≫= λ id, agents w !! id with
        | None => "No default agent configured"
        | Some a => "Current model: " +:+ ag_Model a
        end
      else if bool_decide (arg = "channel") then "Current channel: " +:+ im_Channel msg
      else if bool_decide (arg = "agents") then list_agents w
      else "Unknown show target: " +:+ arg
  end.

Definition list_command (args : list string) w : string :=
  match args with
  | [] => "Usage: /list [models|channels|agents]"
  | arg :: _ =>
      if bool_decide (arg = "models") then "Available models: configured in config.json per agent"
      else if bool_decide (arg = "channels") then
        match channel_names L with
        | None => "Channel manager not initialized"
        | Some [] => "No channels enabled"
        | Some channels => "Enabled channels: " +:+ join ", " channels
        end
      else if bool_decide (arg = "agents") then list_agents w
      else "Unknown list target: " +:+ arg
  end.

Definition switch_model value w : string * world :=
  match default_agent w with
  | None => ("No default agent configured", w)
  | Some id =>
      match agents w !! id with
      | None => ("No default agent configured", w)
      | Some a =>
          ("Switched model from " +:+ ag_Model a +:+ " to " +:+ value,
           mk_world (<[id := with_model value a]> (agents w)) (common w) (computing w))
      end
  end.

Definition switch_channel value : string :=
  match channel_names L with
  | None => "Channel manager not initialized"
  | Some channels =>
      if negb (bool_decide (value ∈ channels)) && negb (bool_decide (value = "cli"))
      then "Channel '" +:+ value +:+ "' not found or not enabled"
      else "Switched target channel to " +:+ value
  end.

Definition switch_command (args : list string) w : string * world :=
  match args with
  | target :: to :: value :: _ =>
      if negb (bool_decide (to = "to")) then ("Usage: /switch [model|channel] to <name>", w)
      else if bool_decide (target = "model") then switch_model value w
      else if bool_decide (target = "channel") then (switch_channel value, w)
      else ("Unknown switch target: " +:+ target, w)
  | _ => ("Usage: /switch [model|channel] to <name>", w)
  end.

(** [None]: not a command. *)
Definition handleCommand msg w : option string * world :=
  let content := trim_space (im_Content msg) in
  if negb (has_prefix content "/") then (None, w)
  else
    match fields content with
    | [] => (None, w)
    | cmd :: args =>
        if bool_decide (cmd = "/show") then (Some (show_command args msg w), w)
        else if bool_decide (cmd = "/list") then (Some (list_command args w), w)
        else if bool_decide (cmd = "/switch") then
          let '(r, w) := switch_command args w in (Some r, w)
        else (None, w)
    end.

(** ** Messages *)

(** What processing a message ends in; [NilAgent]: a nil agent is dereferenced. *)
Inductive outcome := Reply (c : string) | Failure (e : error) | NilAgent.

Definition run_turn id opts w : outcome * world :=
  match with_agent id (runAgentLoop E opts) w with
  | (Some (Ok c), w) => (Reply c, w)
  | (Some (Err e), w) => (Failure e, w)
  | (None, w) => (NilAgent, w)
  end.

Definition system_opts id msg : processOptions :=
  let '(channel, chat) := origin_of (im_ChatID msg) in
  mk_processOptions (BuildAgentMainSessionKey id) channel chat
    ("[System: " +:+ im_SenderID msg +:+ "] " +:+ im_Content msg)
    "Background task completed." false true false.

Definition processSystemMessage msg w : outcome * world :=
  if negb (bool_decide (im_Channel msg = "system")) then
    (Failure (errors_New ("processSystemMessage called with non-system message channel: "
                          +:+ im_Channel msg)), w)
  else if IsInternalChannel (origin_of (im_ChatID msg)).1 then (Reply "", w)
  else
    match default_agent w with
    | None => (NilAgent, w)
    | Some id => run_turn id (system_opts id msg) w
    end.

(** The agent and the session a message is routed to. *)
Definition route_of msg w : option string * string :=
  let route := ResolveRoute (route_config L) (route_input msg) in
  let id := NormalizeAgentID (rr_AgentID route) in
  (if bool_decide (is_Some (agents w !! id)) then Some id else default_agent w,
   if negb (bool_decide (im_SessionKey msg = "")) && has_prefix (im_SessionKey msg) "agent:"
   then im_SessionKey msg else rr_SessionKey route).

Definition message_opts (key : string) msg : processOptions :=
  mk_processOptions key (im_Channel msg) (im_ChatID msg) (im_Content msg) noReply true false false.

Definition processMessage msg w : outcome * world :=
  if bool_decide (im_Channel msg = "system") then processSystemMessage msg w
  else
    match handleCommand msg w with
    | (Some response, w) => (Reply response, w)
    | (None, w) =>
        match route_of msg w with
        | (None, _) => (NilAgent, w)
        | (Some id, key) => run_turn id (message_opts key msg) w
        end
    end.

Definition ProcessDirectWithChannel (content sessionKey channel chatID : string) w : outcome * world :=
  processMessage (mk_InboundMessage channel "cron" chatID content [] sessionKey ∅) w.
Definition ProcessDirect (content sessionKey : string) w : outcome * world :=
  ProcessDirectWithChannel content sessionKey "cli" "direct" w.

Definition heartbeat_opts (content channel chatID : string) : processOptions :=
  mk_processOptions "heartbeat" channel chatID content noReply false false true.
Definition ProcessHeartbeat (content channel chatID : string) w : outcome * world :=
  match default_agent w with
  | None => (NilAgent, w)
  | Some id => run_turn id (heartbeat_opts content channel chatID) w
  end.

(** ** Run *)
Definition already_sent w : bool :=
  match default_agent w ≫= λ id, agents w !! id with
  | Some a => HasSentInRound L a (tools (common w))
  | None => false
  end.

Definition publish_reply msg (response : string) w : world :=
  mk_world (agents w)
    (publish (mk_OutboundMessage (im_Channel msg) (im_ChatID msg) response) (common w)) (computing w).

(** What is published, [None] when the process has crashed. *)
Definition response_of (o : outcome) : option string :=
  match o with
  | Reply c => Some c
  | Failure e => Some ("Error processing message: " +:+ err_text e)
  | NilAgent => None
  end.

(** One message of the loop. *)
Definition run_message msg w : option world :=
  let '(o, w) := processMessage msg w in
  match response_of o with
  | None => None
  | Some response =>
      Some (if bool_decide (response = "") || already_sent w then w else publish_reply msg response w)
  end.

(** ** The summarisations next to the loop *)
Definition remove_at {A} (i : nat) (l : list A) : list A := take i l ++ drop (S i) l.

Definition summary_notice (j : summary_job) (x : shared TW) : shared TW :=
  if IsInternalChannel (j_channel j) then x
  else publish (mk_OutboundMessage (j_channel j) (j_chat j)
                  "Memory threshold reached. Optimizing conversation history...") x.

(** The goroutine starts, reads the history and asks the model. *)
Definition begin_summary (i : nat) (j : summary_job) w : world :=
  let x := set_summaries (summarizing (common w)) (remove_at i (goroutines (common w)))
             (summary_notice j (common w)) in
  let '(r, w) := with_agent (j_agent j) (summarize_compute E (j_session j))
                   (mk_world (agents w) x (computing w)) in
  mk_world (agents w) (common w) (computing w ++ [(j, mjoin r)]).

(** It writes the summary back and is no longer under way. *)
Definition commit_summary (i : nat) (j : summary_job) (o : option string) w : world :=
  let '(_, w) := match o with
                 | Some c => with_agent (j_agent j) (summarize_commit E (j_session j) c) w
                 | None => (None, w)
                 end in
  mk_world (agents w)
    (set_summaries (summarizing (common w) ∖ {[job_key j]}) (goroutines (common w)) (common w))
    (remove_at i (computing w)).

Inductive loop_step : world → world → Prop :=
| step_message msg w w' : run_message msg w = Some w' → loop_step w w'
| step_direct content key channel chat w :
    loop_step w (ProcessDirectWithChannel content key channel chat w).2
| step_heartbeat content channel chat w : loop_step w (ProcessHeartbeat content channel chat w).2
| step_begin i j w : goroutines (common w) !! i = Some j → loop_step w (begin_summary i j w)
| step_commit i j o w : computing w !! i = Some (j, o) → loop_step w (commit_summary i j o w).

(** ** Running on an agent in place *)
Lemma with_agent_Some {A} id (m : M TW A) w a :
  agents w !! id = Some a →
  with_agent id m w
  = (Some (m (mk_turn a (common w))).1,
     mk_world (<[id := agent (m (mk_turn a (common w))).2]> (agents w))
       (sh (m (mk_turn a (common w))).2) (computing w)).
Proof. intros H. unfold with_agent. rewrite H. by destruct (m _). Qed.

(** The agent and the session a message is for; [None]: none, it is a command,
    or a message for an internal channel. *)
Definition target msg w : option (string * string) :=
  if bool_decide (im_Channel msg = "system") then
    if IsInternalChannel (origin_of (im_ChatID msg)).1 then None
    else (λ id, (id, BuildAgentMainSessionKey id)) <$> default_agent w
  else
    match (handleCommand msg w).1 with
    | Some _ => None
    | None => match route_of msg w with (Some id, key) => Some (id, key) | _ => None end
    end.

Lemma handleCommand_world msg w :
  (handleCommand msg w).2 = w
  ∨ ∃ id a model, agents w !! id = Some a ∧ (handleCommand msg w).1 ≠ None
      ∧ (handleCommand msg w).2 = mk_world (<[id := with_model model a]> (agents w)) (common w) (computing w).
Proof.
  unfold handleCommand. destruct (negb _); [by left|]. destruct (fields _) as [|cmd args]; [by left|].
  case_bool_decide; [by left|]. case_bool_decide; [by left|]. case_bool_decide; [|by left].
  unfold switch_command, switch_model. repeat case_match; simplify_eq/=; try by left.
  right. eexists _, _, _. split_and!; [done|done|done].
Qed.

Lemma handleCommand_None msg w : (handleCommand msg w).1 = None → (handleCommand msg w).2 = w.
Proof. destruct (handleCommand_world msg w) as [?|(?&?&?&_&?&_)]; [done|]. done. Qed.

(** What a turn with the message [user] makes of an agent and of what is shared. *)
Definition turn_result (key user : string) (o : outcome) (s s' : turn TW) : Prop :=
  only_session E key s s'
  ∧ ∃ h, evolves (history_of key s ++ [text_message "user" user]) h
    ∧ match o with
      | Reply c => history_of key s' = h ++ [text_message "assistant" c] ∧ c ≠ ""
      | Failure _ => history_of key s' = h
      | NilAgent => False
      end.

Lemma run_turn_spec id opts w a :
  agents w !! id = Some a → DefaultResponse opts ≠ "" →
  ∃ a', agents (run_turn id opts w).2 = <[id := a']> (agents w)
    ∧ computing (run_turn id opts w).2 = computing w
    ∧ turn_result (SessionKey opts) (UserMessage opts) (run_turn id opts w).1
        (mk_turn a (common w)) (mk_turn a' (common (run_turn id opts w).2))
    ∧ starts_job opts (mk_turn a (common w)) (mk_turn a' (common (run_turn id opts w).2)).
Proof.
  intros Ha Hd. unfold run_turn. rewrite (with_agent_Some _ _ _ _ Ha).
  set (s := mk_turn a (common w)). pose proof (turn_record E opts s) as Hrec.
  pose proof (runAgentLoop_jobs E opts s) as Hjobs.
  destruct (runAgentLoop E opts s) as [r s']. destruct Hrec as [(h & Hev & Hr) Honly].
  exists (agent s'). cbn [fst snd] in *. split_and!.
  1-2: by destruct r.
  - destruct s' as [a' x']. destruct r as [c|e]; (split; [exact Honly|]); exists h; (split; [exact Hev|]);
      [|exact Hr].
    destruct Hr as [Hr Hc]. split; [exact Hr|]. intros ->. by apply Hd, Hc.
  - by destruct r, s'.
Qed.

(** The message that the agent sees of an inbound one. *)
Definition user_text msg : string :=
  if bool_decide (im_Channel msg = "system")
  then "[System: " +:+ im_SenderID msg +:+ "] " +:+ im_Content msg else im_Content msg.

(** *** The registry: every agent is under its identifier, the choice is among them *)
Record registry_ok w : Prop := {
  rg_ids : ∀ id a, agents w !! id = Some a → ag_ID a = id;
  rg_first : ∀ s id, first_id L s = Some id → id ∈ s;
}.

Lemma default_agent_Some w id :
  registry_ok w → default_agent w = Some id → is_Some (agents w !! id).
Proof.
  intros [_ Hf]. unfold default_agent. case_bool_decide as Hm; [by intros [= <-]|].
  intros H%Hf. by apply elem_of_dom.
Qed.

Lemma route_of_Some msg w id key :
  registry_ok w → route_of msg w = (Some id, key) → is_Some (agents w !! id).
Proof.
  intros Hw. unfold route_of. case_bool_decide as Hm; [by intros [= <- _]|].
  intros [= H _]. by apply default_agent_Some.
Qed.

Lemma processMessage_target msg w :
  processMessage msg w =
  match target msg w with
  | Some (id, key) =>
      run_turn id (if bool_decide (im_Channel msg = "system") then system_opts id msg
                   else message_opts key msg) w
  | None =>
      if bool_decide (im_Channel msg = "system") then
        (if IsInternalChannel (origin_of (im_ChatID msg)).1 then Reply "" else NilAgent, w)
      else match handleCommand msg w with
           | (Some r, w) => (Reply r, w)
           | (None, w) => (NilAgent, w)
           end
  end.
Proof.
  unfold processMessage, target, processSystemMessage. case_bool_decide as Hs.
  - cbn [negb]. destruct (IsInternalChannel _); [done|]. by destruct (default_agent w).
  - pose proof (handleCommand_None msg w) as Hn.
    destruct (handleCommand msg w) as [[r|] w']; cbn [fst snd] in *; [done|]. rewrite Hn by done.
    by destruct (route_of msg w) as [[id|] key].
Qed.

(** C3: a message touches one session of one agent.  Whatever the models do, a message
    that is routed to an agent changes nothing of the other agents in memory, and of this
    one only the routed session; that session gets the user's message, whole rounds of
    calls and results, possibly compressed, and at the end the reply, which is not
    empty.  On disk the loop writes only the file of that session: of all files of
    sessions, in the directories of all agents, each other one stays as it was if the
    tools that are called leave it alone (the directories are part of the workspaces, so
    a tool that writes files or runs commands can reach them).  Commands and results for
    internal channels run no agent: they change at most the model of the default agent,
    and send nothing. *)
Theorem message_touches_one_session msg w (Hw : registry_ok w) :
  let '(o, w') := processMessage msg w in
  match target msg w with
  | Some (id, key) =>
      ∃ a a', agents w !! id = Some a ∧ agents w' = <[id := a']> (agents w)
        ∧ turn_result key (user_text msg) o (mk_turn a (common w)) (mk_turn a' (common w'))
  | None =>
      common w' = common w ∧ computing w' = computing w
      ∧ (agents w' = agents w
         ∨ ∃ id a model, agents w !! id = Some a ∧ agents w' = <[id := with_model model a]> (agents w))
  end.
Proof.
  rewrite processMessage_target. destruct (target msg w) as [[id key]|] eqn:Et.
  - assert (is_Some (agents w !! id)
      ∧ SessionKey (if bool_decide (im_Channel msg = "system") then system_opts id msg
                    else message_opts key msg) = key
      ∧ UserMessage (if bool_decide (im_Channel msg = "system") then system_opts id msg
                     else message_opts key msg) = user_text msg
      ∧ DefaultResponse (if bool_decide (im_Channel msg = "system") then system_opts id msg
                         else message_opts key msg) ≠ "") as ([a Ha] & Hk & Hu & Hd).
    { revert Et. unfold target, user_text, system_opts. case_bool_decide as Hs.
      - destruct (IsInternalChannel _); [done|].
        intros (i & Hi & [= <- <-])%fmap_Some. destruct (origin_of _).
        split; [by apply default_agent_Some|]. done.
      - destruct (handleCommand msg w) as [[r|] w']; [done|]. cbn [fst].
        destruct (route_of msg w) as [[i|] k] eqn:Er; [|done]. intros [= -> ->].
        split; [by eapply route_of_Some|]. done. }
    destruct (run_turn_spec id _ w a Ha Hd) as (a' & Hag & _ & Hres & _).
    rewrite Hk, Hu in Hres. destruct (run_turn _ _ _) as [o w']. exists a, a'. cbn [fst snd] in *. auto.
  - case_bool_decide; [by split_and!; [..|left]|].
    destruct (handleCommand_world msg w) as [Hh|(id & a & model & Ha & Hne & Hh)];
      destruct (handleCommand msg w) as [[r|] w']; cbn [fst snd] in *; subst; split_and!; eauto 6.
Qed.

(** *** When no reply is published *)

(** The flag of the default agent's message tool stays set until that agent's
    next turn: until then commands get no reply at all. *)
Lemma stale_flag_swallows_commands msg w r :
  im_Channel msg ≠ "system" → handleCommand msg w = (Some r, w) → already_sent w = true →
  run_message msg w = Some w.
Proof.
  intros Hs Hc Ha. unfold run_message, processMessage. rewrite bool_decide_false, Hc by done.
  cbn [response_of]. by rewrite Ha, orb_true_r.
Qed.

(** Otherwise a reply goes to the chat the message came from, once. *)
Lemma reply_published msg w o w1 response :
  processMessage msg w = (o, w1) → response_of o = Some response → response ≠ "" →
  already_sent w1 = false →
  ∃ w', run_message msg w = Some w'
    ∧ outbox (common w')
      = outbox (common w1) ++ [mk_OutboundMessage (im_Channel msg) (im_ChatID msg) response].
Proof.
  intros Hp Hr Hne Ha. unfold run_message. rewrite Hp, Hr, Ha, bool_decide_false by done. by eexists.
Qed.

(** ** The invariant of the loop and its summarisations *)
Definition under_way w : list summary_job := goroutines (common w) ++ (computing w).*1.

Record loop_ok w : Prop := {
  lo_registry : registry_ok w;
  lo_once : NoDup (job_key <$> under_way w);
  lo_keys : ∀ k, k ∈ summarizing (common w) ↔ k ∈ job_key <$> under_way w;
}.

Lemma remove_at_perm {A} (l : list A) i x : l !! i = Some x → l ≡ₚ x :: remove_at i l.
Proof.
  intros H. unfold remove_at. rewrite <-(take_drop_middle l i x H) at 1.
  symmetry. apply Permutation_middle.
Qed.

Lemma registry_ok_update w w' id a a' :
  registry_ok w → agents w !! id = Some a → ag_ID a' = ag_ID a →
  agents w' = <[id := a']> (agents w) → registry_ok w'.
Proof.
  intros [Hids Hf] Ha Hid Hw. split; [|done]. intros i b. rewrite Hw.
  destruct (decide (id = i)) as [<-|Hn]; [|rewrite lookup_insert_ne by done; apply Hids].
  rewrite lookup_insert_eq. intros [= <-]. rewrite Hid. by apply Hids.
Qed.

Lemma loop_ok_jobs w w' :
  loop_ok w → registry_ok w' → computing w' = computing w →
  (summarizing (common w'), goroutines (common w')) = (summarizing (common w), goroutines (common w)) →
  loop_ok w'.
Proof.
  intros [_ Ho Hk] Hr Hc [= Hs Hg]. split; [done|..]; unfold under_way in *; by rewrite ?Hs, ?Hg, Hc.
Qed.

Lemma run_turn_ok id opts w : DefaultResponse opts ≠ "" → loop_ok w → loop_ok (run_turn id opts w).2.
Proof.
  intros Hd Hw. destruct (agents w !! id) as [a|] eqn:Ha.
  2:{ unfold run_turn, with_agent. by rewrite Ha. }
  destruct (run_turn_spec id opts w a Ha Hd) as (a' & Hag & Hc & [[(Hid & _) _ _] _] & Hj).
  set (w' := (run_turn id opts w).2) in *. destruct Hw as [Hreg Ho Hk].
  assert (registry_ok w') by (by eapply registry_ok_update).
  destruct Hj as [Hj|(j & _ & _ & Hnew & [= Hs Hg])]; [by eapply (loop_ok_jobs w)|]. cbn [sh] in *.
  assert (under_way w' ≡ₚ j :: under_way w) as Hp.
  { unfold under_way. rewrite Hg, Hc, <-app_assoc. symmetry. apply Permutation_middle. }
  split; [done|..].
  - rewrite Hp. csimpl. constructor; [|done]. by rewrite <-Hk.
  - intros k. rewrite Hs, Hp. csimpl. rewrite elem_of_union, elem_of_singleton, elem_of_cons, Hk. done.
Qed.

Lemma processMessage_ok msg w : loop_ok w → loop_ok (processMessage msg w).2.
Proof.
  intros Hw. rewrite processMessage_target. destruct (target msg w) as [[id key]|].
  - apply run_turn_ok; [|done]. unfold system_opts. case_bool_decide as Hs; [by destruct (origin_of _)|done].
  - case_bool_decide as Hs; [done|].
    assert (loop_ok (handleCommand msg w).2) as H.
    { destruct (handleCommand_world msg w) as [->|(id & a & model & Ha & _ & ->)]; [done|].
      eapply (loop_ok_jobs w); [done| |done|done]. by apply (registry_ok_update w _ id a (with_model model a)); [apply Hw|..]. }
    by destruct (handleCommand msg w) as [[r|] w'].
Qed.

Lemma begin_summary_ok i j w :
  goroutines (common w) !! i = Some j → loop_ok w → loop_ok (begin_summary i j w).
Proof.
  intros Hi [Hreg Ho Hk].
  assert (registry_ok (begin_summary i j w)
    ∧ summarizing (common (begin_summary i j w)) = summarizing (common w)
    ∧ goroutines (common (begin_summary i j w)) = remove_at i (goroutines (common w))
    ∧ (computing (begin_summary i j w)).*1 = (computing w).*1 ++ [j]) as (Hr & Hs & Hg & Hc).
  { unfold begin_summary. set (w1 := mk_world _ _ _).
    destruct (agents w !! j_agent j) as [a|] eqn:Ha.
    - rewrite (with_agent_Some _ _ w1 a Ha).
      pose proof (summarize_compute_jobs E (j_session j) (mk_turn a (common w1))) as [= Hs Hg].
      pose proof (summarize_compute_agent E (j_session j) (mk_turn a (common w1))) as Hag.
      destruct (summarize_compute _ _ _) as [o s]. cbn [fst snd] in *. split_and!.
      + eapply registry_ok_update; [exact Hreg|exact Ha| |done]. by rewrite Hag.
      + cbn [common]. rewrite Hs. done.
      + cbn [common]. by rewrite Hg.
      + cbn [computing]. by rewrite fmap_app.
    - unfold with_agent. change (agents w1) with (agents w). rewrite Ha. split_and!; [..|done|].
      + by destruct Hreg.
      + done.
      + cbn [computing]. by rewrite fmap_app. }
  assert (under_way (begin_summary i j w) ≡ₚ under_way w) as Hp.
  { unfold under_way. rewrite Hg, Hc, app_assoc, (comm app _ [j]). csimpl. rewrite app_comm_cons.
    apply Permutation_app; [|done]. symmetry. by apply remove_at_perm. }
  split; [done|by rewrite Hp|]. intros k. by rewrite Hs, Hp, Hk.
Qed.

Lemma commit_summary_ok i j o w :
  computing w !! i = Some (j, o) → loop_ok w → loop_ok (commit_summary i j o w).
Proof.
  intros Hi [Hreg Ho Hk]. unfold commit_summary.
  set (r := match o with Some c => with_agent _ _ w | None => (None, w) end).
  assert (registry_ok r.2 ∧ computing r.2 = computing w
    ∧ (summarizing (common r.2), goroutines (common r.2)) = (summarizing (common w), goroutines (common w)))
    as (Hr & Hc & [= Hs Hg]).
  { subst r. destruct o as [c|]; [|done]. destruct (agents w !! j_agent j) as [a|] eqn:Ha.
    - rewrite (with_agent_Some _ _ w a Ha). cbn [snd].
      pose proof (summarize_commit_jobs E (j_session j) c (mk_turn a (common w))) as Hj.
      pose proof (summarize_commit_only E (j_session j) c (mk_turn a (common w))) as [(Hid & _) _ _].
      split_and!; [|done|exact Hj]. by eapply registry_ok_update.
    - unfold with_agent. by rewrite Ha. }
  destruct r as [x w1]. cbn [snd] in *.
  assert (under_way w ≡ₚ j :: goroutines (common w1) ++ (remove_at i (computing w1)).*1) as Hp.
  { unfold under_way. rewrite Hg, Hc. change j with (j, o).1. rewrite Permutation_middle, <-fmap_cons.
    by rewrite <-(remove_at_perm _ _ _ Hi). }
  rewrite Hp in Ho. csimpl in Ho. apply NoDup_cons in Ho as [Hnin Ho]. split; [by destruct Hr|done|].
  intros k. unfold under_way. cbn [common summarizing set_summaries goroutines computing].
  rewrite elem_of_difference, elem_of_singleton, Hs, Hk, Hp. csimpl. rewrite elem_of_cons.
  split; [tauto|]. intros Hin. split; [by right|]. intros ->. done.
Qed.

Lemma loop_step_ok w w' : loop_step w w' → loop_ok w → loop_ok w'.
Proof.
  intros H Hw. destruct H as [msg w w' Hm|?????|????|i j w Hi|i j o w Hi].
  - revert Hm. unfold run_message. pose proof (processMessage_ok msg w Hw) as H1.
    destruct (processMessage msg w) as [o w1]. cbn [snd] in H1. destruct (response_of o); [|done].
    intros [= <-]. case_match; [done|]. eapply (loop_ok_jobs w1); [done| |done|done]. by destruct H1 as [[]].
  - by apply processMessage_ok.
  - unfold ProcessHeartbeat. destruct (default_agent w); [|done]. by apply run_turn_ok.
  - by apply begin_summary_ok.
  - by eapply commit_summary_ok.
Qed.

(** One summary at a time.  However messages, direct requests, heartbeats and
    the summarisations started by them interleave, every agent stays registered
    under its identifier, at most one summarisation is under way per agent and
    session, and the keys marked as being summarised are exactly those of the
    summarisations under way, so no session stays marked without one. *)
Lemma one_summary_per_session w0 w (Hreg : registry_ok w0)
    (Hidle : goroutines (common w0) = [] ∧ computing w0 = [] ∧ summarizing (common w0) = ∅)
    (Hsteps : rtc loop_step w0 w) :
  registry_ok w
  ∧ NoDup ((λ j, (j_agent j, j_session j)) <$> under_way w)
  ∧ (∀ k, k ∈ summarizing (common w) ↔ ∃ j, j ∈ under_way w ∧ job_key j = k).
Proof.
  assert (loop_ok w0) as Hw0.
  { destruct Hidle as (Hg & Hc & Hs). split; [done|..]; unfold under_way;
      rewrite Hg, Hc; csimpl; [constructor|]. intros k. rewrite Hs. set_solver. }
  assert (loop_ok w) as [Hr Ho Hk].
  { clear Hidle Hreg. induction Hsteps as [|w w1 w2 Hstep _ IH]; [done|].
    apply IH. by eapply loop_step_ok. }
  split_and!; [done| |].
  - apply (NoDup_fmap_1 (λ p : string * string, p.1 +:+ ":" +:+ p.2)).
    by rewrite <-list_fmap_compose.
  - intros k. rewrite Hk, list_elem_of_fmap. naive_solver.
Qed.
End agentloop.

(** ** A loop to compute with *)
Definition demo_cfg : Config := mk_Config [] [] "" [].
Definition demo_loop (sent : bool) : @loop_config unit :=
  mk_loop_config demo_cfg (λ s, head (elements s)) elements (Some ["telegram"]) (λ _ _, sent).
Definition demo_world : @world unit := mk_world {["main" := demo_agent []]} demo_shared [].
Definition demo_message (content : string) : InboundMessage :=
  mk_InboundMessage "telegram" "7" "7" content [] "" ∅.
Definition echo_env : environment unit := demo_env demo_script.

Lemma demo_registry sent : registry_ok (demo_loop sent) demo_world.
Proof.
  split.
  - intros id a H. cbn [agents demo_world] in H. apply lookup_singleton_Some in H as [<- <-]. done.
  - intros s id H. simpl in H. apply head_Some_elem_of in H. by apply elem_of_elements.
Qed.

Lemma message_touches_one_session_witness :
  target (demo_loop false) (demo_message "hi") demo_world = Some ("main", "agent:main:main")
  ∧ (outbox ∘ common) <$> run_message echo_env (demo_loop false) (demo_message "hi") demo_world
    = Some [mk_OutboundMessage "telegram" "7" "done"]
  ∧ ∃ a' x', agents (processMessage echo_env (demo_loop false) (demo_message "hi") demo_world).2
          = <["main" := a']> (agents demo_world)
        ∧ turn_result echo_env "agent:main:main" "hi" (Reply "done")
            (mk_turn (demo_agent []) demo_shared) (mk_turn a' x').
Proof.
  assert (target (demo_loop false) (demo_message "hi") demo_world = Some ("main", "agent:main:main")) as Ht
    by (vm_compute; reflexivity).
  assert ((processMessage echo_env (demo_loop false) (demo_message "hi") demo_world).1 = Reply "done") as Ho
    by (vm_compute; reflexivity).
  split; [exact Ht|]. split; [vm_compute; reflexivity|].
  pose proof (message_touches_one_session echo_env (demo_loop false) (demo_message "hi") demo_world
    (demo_registry false)) as H.
  rewrite Ht in H. destruct (processMessage _ _ _ _) as [o w']. destruct H as (a & a' & Ha & Hw & Hr).
  cbn [fst snd] in *. subst o. exists a', (common w'). split; [exact Hw|].
  assert (a = demo_agent []) as -> by (apply (f_equal (default (demo_agent []))) in Ha; exact (eq_sym Ha)).
  exact Hr.
Defined.

(** A command is answered without a turn; after a turn in which the message tool
    has sent something it is not answered at all. *)
Lemma command_reply :
  (outbox ∘ common) <$> run_message echo_env (demo_loop false) (demo_message "/show model") demo_world
  = Some [mk_OutboundMessage "telegram" "7" "Current model: gpt-4o"]
  ∧ (outbox ∘ common) <$> run_message echo_env (demo_loop true) (demo_message "/show model") demo_world
    = Some [].
Proof. split; vm_compute; reflexivity. Qed.

(** A session with 21 messages: the next turn starts a summarisation, once. *)
Definition busy_world : @world unit :=
  mk_world {["main" := demo_agent (replicate 21 (text_message "user" "x"))]} demo_shared [].
Definition after_turns : @world unit :=
  let turn w := (ProcessDirectWithChannel echo_env (demo_loop false) "hi" "" "telegram" "7" w).2 in
  turn (turn busy_world).

Lemma one_summary_per_session_witness :
  under_way after_turns = [mk_summary_job "main" "agent:main:main" "telegram" "7"]
  ∧ NoDup ((λ j, (j_agent j, j_session j)) <$> under_way after_turns).
Proof.
  split; [vm_compute; reflexivity|].
  apply (one_summary_per_session echo_env (demo_loop false) busy_world after_turns).
  - split.
    + intros id a H. cbn [agents busy_world] in H. apply lookup_singleton_Some in H as [<- <-]. done.
    + apply (demo_registry false).
  - split_and!; reflexivity.
  - eapply rtc_l; [apply step_direct|]. eapply rtc_l; [apply step_direct|]. apply rtc_refl.
Defined.
