(* ===== verification/Subagent.v ===== *)
(** * Subagents (pkg/tools/subagent.go, spawn.go)

    The manager of background tasks and the two tools in front of it.  A
    spawned task runs in a goroutine of its own: the step relation interleaves
    the goroutines' critical sections under the manager's lock, which is held
    while the completion is announced on the bus and released before the
    callback is called. *)
From stdpp Require Import base gmap strings list pretty.
From Stdlib Require Import Ascii ZArith Lia.
From S2P Require Import Prelude GoStrings ProviderTypes Bus ToolBase ToolLoop.

(** ** The manager *)
Record SubagentTask := mk_SubagentTask {
  st_ID : string;
  st_Task : string;
  st_Label : string;
  st_AgentID : string;
  st_OriginChannel : string;
  st_OriginChatID : string;
  st_Status : string;
  st_Result : string;
  st_Created : Z;
}.

Record SubagentManager := mk_SubagentManager {
  tasks : gmap string SubagentTask;
  maxIterations : Z;
  maxTokens : option Z;          (* with hasMaxTokens *)
  temperature : option Z;        (* with hasTemperature; in thousandths *)
  nextID : nat;
}.

Definition NewSubagentManager : SubagentManager := mk_SubagentManager ∅ 10 None None 1.

Definition SetLLMOptions (max_tokens temp : Z) (m : SubagentManager) : SubagentManager :=
  mk_SubagentManager (tasks m) (maxIterations m) (Some max_tokens) (Some temp) (nextID m).

(** The options of the model calls; [None]: the nil map. *)
Definition llm_options (m : SubagentManager) : option (list (string * Z)) :=
  match maxTokens m, temperature m with
  | None, None => None
  | mt, te => Some (match mt with Some v => [("max_tokens", v)] | None => [] end
                    ++ match te with Some v => [("temperature", v)] | None => [] end)
  end.

Definition task_id (n : nat) : string := "subagent-" +:+ pretty n.

Definition set_tasks (ts : gmap string SubagentTask) (m : SubagentManager) : SubagentManager :=
  mk_SubagentManager ts (maxIterations m) (maxTokens m) (temperature m) (nextID m).

(** [Spawn] up to the start of the goroutine: the new manager, the task and the
    answer for the model. *)
Definition Spawn (task label agentID originChannel originChatID : string) (now : Z)
    (m : SubagentManager) : SubagentManager * SubagentTask * string :=
  let taskID := task_id (nextID m) in
  let t := mk_SubagentTask taskID task label agentID originChannel originChatID "running" "" now in
  (mk_SubagentManager (<[taskID := t]> (tasks m)) (maxIterations m) (maxTokens m) (temperature m)
     (S (nextID m)),
   t,
   if negb (bool_decide (label = ""))
   then "Spawned subagent '" +:+ label +:+ "' for task: " +:+ task
   else "Spawned subagent for task: " +:+ task).

Definition GetTask (taskID : string) (m : SubagentManager) : option SubagentTask := tasks m !! taskID.
Definition ListTasks (m : SubagentManager) : list SubagentTask := (map_to_list (tasks m)).*2.

(** ** A task's run *)
Definition nl : string := String newline_char "".

Definition subagent_prompt : string :=
  "You are a subagent. Complete the given task independently and report the result." +:+ nl
  +:+ "You have access to tools - use them as needed to complete your task." +:+ nl
  +:+ "After completing the task, provide a clear summary of what was done.".

Definition task_messages (t : SubagentTask) : list Message :=
  [text_message "system" subagent_prompt; text_message "user" (st_Task t)].

Definition with_status (t : SubagentTask) (status res : string) : SubagentTask :=
  mk_SubagentTask (st_ID t) (st_Task t) (st_Label t) (st_AgentID t) (st_OriginChannel t)
    (st_OriginChatID t) status res (st_Created t).

(** [runTask] before the loop: the task is marked as running again. *)
Definition restarted (now : Z) (t : SubagentTask) : SubagentTask :=
  mk_SubagentTask (st_ID t) (st_Task t) (st_Label t) (st_AgentID t) (st_OriginChannel t)
    (st_OriginChatID t) "running" (st_Result t) now.

Definition canceled_before (t : SubagentTask) : SubagentTask :=
  with_status t "canceled" "Task canceled before execution".

(** The task and the tool result after the loop; [ctx_err]: the context is done. *)
Definition finished (t : SubagentTask) (outcome : result error ToolLoopResult) (ctx_err : bool) :
    SubagentTask * ToolResult :=
  match outcome with
  | Err err =>
      let t := with_status t "failed" ("Error: " +:+ err_text err) in
      let t := if ctx_err then with_status t "canceled" "Task canceled during execution" else t in
      (t, mk_ToolResult (st_Result t) "" false true false (Some (err_text err)))
  | Ok r =>
      (with_status t "completed" (tlr_Content r),
       mk_ToolResult ("Subagent '" +:+ st_Label t +:+ "' completed (iterations: "
                        +:+ pretty (tlr_Iterations r) +:+ "): " +:+ tlr_Content r)
         (tlr_Content r) false false false None)
  end.

(** What is announced to the main agent. *)
Definition announcement (t : SubagentTask) : InboundMessage :=
  mk_InboundMessage "system" ("subagent:" +:+ st_ID t)
    (st_OriginChannel t +:+ ":" +:+ st_OriginChatID t)
    ("Task '" +:+ st_Label t +:+ "' completed." +:+ nl +:+ nl +:+ "Result:" +:+ nl +:+ st_Result t)
    [] "" ∅.

(** ** The goroutines *)
Inductive phase :=
| Started                          (* before the cancellation check *)
| Looping                          (* in [RunToolLoop] *)
| Announcing (r : ToolResult)      (* holds the lock, before [PublishInbound] *)
| Publishing (r : ToolResult)      (* holds the lock, in [PublishInbound] past its check *)
| CallingBack (r : ToolResult)     (* has released the lock, before the callback *)
| Finished.

Record world := mk_world {
  manager : SubagentManager;
  lock : option string;            (* the task whose goroutine holds it *)
  goroutines : gmap string phase;
  with_callback : gset string;     (* tasks spawned with a callback *)
  bus_inbound : option (channel InboundMessage);   (* [None]: a manager without a bus *)
  (* for the theorems: *)
  accepted : list (option string * InboundMessage);  (* what the bus took, with the task
                                                        that announced it *)
  taken : list InboundMessage;     (* what was taken from the bus *)
  dropped : gset string;           (* tasks whose announcement no bus took *)
  callbacks : list (string * ToolResult);
}.

Definition new_bus : channel InboundMessage := mk_channel [] false.

Definition init_world (bus : option (channel InboundMessage)) : world :=
  mk_world NewSubagentManager None ∅ ∅ bus [] [] ∅ [].

Definition set_task (id : string) (t : SubagentTask) (m : SubagentManager) : SubagentManager :=
  set_tasks (<[id := t]> (tasks m)) m.

(** The parts of a step. *)
Definition set_manager (m : SubagentManager) (w : world) : world :=
  mk_world m (lock w) (goroutines w) (with_callback w) (bus_inbound w) (accepted w) (taken w)
    (dropped w) (callbacks w).
Definition goto (id : string) (ph : phase) (w : world) : world :=
  mk_world (manager w) (lock w) (<[id := ph]> (goroutines w)) (with_callback w) (bus_inbound w)
    (accepted w) (taken w) (dropped w) (callbacks w).
Definition set_lock (l : option string) (w : world) : world :=
  mk_world (manager w) l (goroutines w) (with_callback w) (bus_inbound w) (accepted w) (taken w)
    (dropped w) (callbacks w).
Definition expect_callback (id : string) (w : world) : world :=
  mk_world (manager w) (lock w) (goroutines w) ({[id]} ∪ with_callback w) (bus_inbound w)
    (accepted w) (taken w) (dropped w) (callbacks w).
Definition set_bus (c : channel InboundMessage) (log : list (option string * InboundMessage))
    (got : list InboundMessage) (w : world) : world :=
  mk_world (manager w) (lock w) (goroutines w) (with_callback w) (Some c) log got (dropped w)
    (callbacks w).
Definition drop_announcement (id : string) (w : world) : world :=
  mk_world (manager w) (lock w) (goroutines w) (with_callback w) (bus_inbound w) (accepted w)
    (taken w) ({[id]} ∪ dropped w) (callbacks w).
Definition call_back (id : string) (r : ToolResult) (w : world) : world :=
  mk_world (manager w) (lock w) (goroutines w) (with_callback w) (bus_inbound w) (accepted w)
    (taken w) (dropped w)
    (if bool_decide (id ∈ with_callback w) then callbacks w ++ [(id, r)] else callbacks w).

(** [sm.bus != nil] and the check of [PublishInbound]: there is a bus, and it is open. *)
Definition bus_open (w : world) : Prop :=
  match bus_inbound w with Some c => ch_closed c = false | None => False end.
Definition bus_gone (w : world) : Prop :=
  match bus_inbound w with Some c => ch_closed c = true | None => True end.

(** One critical section or blocking point of a goroutine.  [step_drop]: there
    is no bus, or [PublishInbound] finds it closed; [step_enter]: it finds it open
    and keeps the bus's lock, so that the bus is not closed before [step_send].
    The callback comes after the manager's lock is released.  [step_publish] is
    any other sender, [step_consume] the agent loop taking a message, [step_close]
    the closing of the bus. *)
Inductive step : world → world → Prop :=
| step_spawn w task label agentID channel chatID now (callback : bool) m t answer :
    lock w = None →
    Spawn task label agentID channel chatID now (manager w) = (m, t, answer) →
    step w (goto (st_ID t) Started
              (set_manager m (if callback then expect_callback (st_ID t) w else w)))
| step_cancel w id t now :
    lock w = None → goroutines w !! id = Some Started → tasks (manager w) !! id = Some t →
    step w (goto id Finished
              (set_manager (set_task id (canceled_before (restarted now t)) (manager w)) w))
| step_run w id t now :
    goroutines w !! id = Some Started → tasks (manager w) !! id = Some t →
    step w (goto id Looping (set_manager (set_task id (restarted now t) (manager w)) w))
| step_finish w id t outcome ctx_err t' r :
    lock w = None → goroutines w !! id = Some Looping → tasks (manager w) !! id = Some t →
    finished t outcome ctx_err = (t', r) →
    step w (set_lock (Some id)
              (goto id (Announcing r) (set_manager (set_task id t' (manager w)) w)))
| step_drop w id r :
    goroutines w !! id = Some (Announcing r) → bus_gone w →
    step w (set_lock None (goto id (CallingBack r) (drop_announcement id w)))
| step_enter w id r :
    goroutines w !! id = Some (Announcing r) → bus_open w →
    step w (goto id (Publishing r) w)
| step_send w id t r c c' :
    goroutines w !! id = Some (Publishing r) → tasks (manager w) !! id = Some t →
    bus_inbound w = Some c → send (announcement t) c = Sent c' →
    step w (set_lock None (goto id (CallingBack r)
              (set_bus c' (accepted w ++ [(Some id, announcement t)]) (taken w) w)))
| step_call_back w id r :
    goroutines w !! id = Some (CallingBack r) →
    step w (goto id Finished (call_back id r w))
| step_publish w msg c c' :
    bus_inbound w = Some c → send msg c = Sent c' →
    step w (set_bus c' (accepted w ++ [(None, msg)]) (taken w) w)
| step_consume w msg c c' :
    bus_inbound w = Some c → receive zero_inbound c = Some (msg, c') →
    step w (set_bus c' (accepted w)
              (match buffer c with [] => taken w | _ :: _ => taken w ++ [msg] end) w)
| step_close w c :
    bus_inbound w = Some c → (∀ id r, goroutines w !! id ≠ Some (Publishing r)) →
    step w (set_bus (mk_channel (buffer c) true) (accepted w) (taken w) w).

Inductive reachable : world → Prop :=
| reachable_no_bus : reachable (init_world None)
| reachable_init : reachable (init_world (Some new_bus))
| reachable_step w w' : reachable w → step w w' → reachable w'.

(** ** The life of a task *)
Definition final_status (t : SubagentTask) : Prop :=
  st_Status t = "completed" ∨ st_Status t = "failed" ∨ st_Status t = "canceled".

(** The announcements of a task the bus took, and the calls of its callback. *)
Definition announcements (w : world) (id : string) : list InboundMessage :=
  (filter (λ a, a.1 = Some id) (accepted w)).*2.
Definition callbacks_of (w : world) (id : string) : list ToolResult :=
  (filter (λ c, c.1 = id) (callbacks w)).*2.

Definition unreported (w : world) (id : string) : Prop :=
  announcements w id = [] ∧ id ∉ dropped w ∧ callbacks_of w id = [].

(** The final task [t] and its result [r] come from one outcome of its loop. *)
Definition result_of (t : SubagentTask) (r : ToolResult) : Prop :=
  final_status t ∧ ∃ t0 outcome ctx_err, st_Status t0 = "running" ∧ finished t0 outcome ctx_err = (t, r).

(** Its announcement was taken by the bus once, or dropped, which only a bus
    that is closed (or not there) does. *)
Definition announced_once (w : world) (id : string) (t : SubagentTask) : Prop :=
  (announcements w id = [announcement t] ∧ id ∉ dropped w)
  ∨ (announcements w id = [] ∧ id ∈ dropped w ∧ bus_gone w).

(** What has happened to a task whose goroutine is at [ph]. *)
Definition account (w : world) (id : string) (t : SubagentTask) (ph : phase) : Prop :=
  match ph with
  | Started | Looping => st_Status t = "running" ∧ unreported w id ∧ lock w ≠ Some id
  | Announcing r => result_of t r ∧ unreported w id ∧ lock w = Some id
  | Publishing r => result_of t r ∧ unreported w id ∧ lock w = Some id ∧ bus_open w
  | CallingBack r =>
      result_of t r ∧ announced_once w id t ∧ callbacks_of w id = [] ∧ lock w ≠ Some id
  | Finished =>
      lock w ≠ Some id
      ∧ ((st_Status t = "canceled" ∧ st_Result t = "Task canceled before execution"
          ∧ unreported w id)
         ∨ ∃ r, result_of t r ∧ announced_once w id t
             ∧ callbacks_of w id = if bool_decide (id ∈ with_callback w) then [r] else [])
  end.

(** The bus hands out what it took, in order. *)
Definition bus_kept (w : world) : Prop :=
  (accepted w).*2 = taken w ++ match bus_inbound w with Some c => buffer c | None => [] end.

Record inv (w : world) : Prop := {
  inv_tasks : ∀ id, is_Some (goroutines w !! id) ↔ is_Some (tasks (manager w) !! id);
  inv_ids : ∀ id t, tasks (manager w) !! id = Some t →
    st_ID t = id ∧ ∃ n, n < nextID (manager w) ∧ id = task_id n;
  inv_account : ∀ id t ph, tasks (manager w) !! id = Some t → goroutines w !! id = Some ph →
    account w id t ph;
  inv_fresh : ∀ id, goroutines w !! id = None →
    unreported w id ∧ id ∉ with_callback w ∧ lock w ≠ Some id;
  inv_bus : bus_kept w;
}.

#[export] Instance task_id_inj : Inj (=) (=) task_id.
Proof.
  intros a b H. unfold task_id in H. apply (inj (String.append "subagent-")) in H.
  by apply (inj pretty) in H.
Qed.

Lemma inv_init bus : bus = None ∨ bus = Some new_bus → inv (init_world bus).
Proof.
  intros Hb. constructor; simpl.
  - intros id. by rewrite !lookup_empty.
  - intros id t. by rewrite lookup_empty.
  - intros id t ph. by rewrite lookup_empty.
  - intros id _. split_and!; [split_and!; [done|set_solver|done]|set_solver|done].
  - unfold bus_kept. by destruct Hb as [-> | ->].
Qed.

Lemma fresh_task w : inv w →
  tasks (manager w) !! task_id (nextID (manager w)) = None
  ∧ goroutines w !! task_id (nextID (manager w)) = None.
Proof.
  intros Hi. assert (tasks (manager w) !! task_id (nextID (manager w)) = None) as Ht.
  { destruct (tasks (manager w) !! _) as [t|] eqn:E; [|done].
    destruct (inv_ids w Hi _ _ E) as (_ & n & Hn & Heq). apply (inj task_id) in Heq. lia. }
  split; [done|]. destruct (goroutines w !! _) eqn:E; [|done].
  destruct (proj1 (inv_tasks w Hi _) (ex_intro _ _ E)) as [? ?]. congruence.
Qed.

Lemma finished_final t outcome ctx_err t' r :
  finished t outcome ctx_err = (t', r) → final_status t' ∧ st_ID t' = st_ID t.
Proof.
  unfold finished, final_status. destruct outcome as [res|err]; [|destruct ctx_err];
    intros [= <- <-]; simpl; auto.
Qed.

Lemma running_not_final t : st_Status t = "running" → ¬ final_status t.
Proof. unfold final_status. intros ->. naive_solver. Qed.

(** A task stays accounted for when a step leaves what concerns it as it was. *)
Record spares (w w' : world) (id : string) : Prop := {
  spares_announcements : announcements w' id = announcements w id;
  spares_dropped : id ∈ dropped w' ↔ id ∈ dropped w;
  spares_callbacks : callbacks_of w' id = callbacks_of w id;
  spares_with_callback : id ∈ with_callback w' ↔ id ∈ with_callback w;
  spares_lock : lock w' = Some id ↔ lock w = Some id;
}.

Lemma spares_refl w id : spares w w id.
Proof. by constructor. Qed.

Lemma spares_unreported w w' id : spares w w' id → unreported w id → unreported w' id.
Proof. intros [Ha Hd Hc _ _]. unfold unreported. by rewrite Ha, Hd, Hc. Qed.

Lemma spares_announced w w' id t :
  spares w w' id → (bus_gone w → bus_gone w') → announced_once w id t → announced_once w' id t.
Proof. intros [Ha Hd _ _ _]. unfold announced_once. rewrite Ha, Hd. naive_solver. Qed.

Lemma spares_account w w' id t ph :
  spares w w' id → (bus_gone w → bus_gone w') →
  (∀ r, ph = Publishing r → bus_open w → bus_open w') →
  account w id t ph → account w' id t ph.
Proof.
  intros Hs Hg Ho. pose proof (spares_lock _ _ _ Hs) as Hl.
  pose proof (spares_unreported _ _ _ Hs) as Hu. pose proof (spares_announced _ _ _ t Hs Hg) as Ha.
  pose proof (spares_callbacks _ _ _ Hs) as Hc. pose proof (spares_with_callback _ _ _ Hs) as Hw.
  destruct ph; simpl; rewrite ?Hl, ?Hc, ?(bool_decide_ext _ _ Hw); naive_solver.
Qed.

(** A step of the goroutine of [id]. *)
Lemma inv_goto w w' id t' ph' :
  inv w → is_Some (tasks (manager w) !! id) →
  manager w' = set_task id t' (manager w) → goroutines w' = <[id := ph']> (goroutines w) →
  st_ID t' = id → (∀ i, i ≠ id → spares w w' i) →
  (bus_gone w → bus_gone w') → (bus_open w → bus_open w') → bus_kept w' →
  account w' id t' ph' → inv w'.
Proof.
  intros Hi [t Ht] Hm Hg Hid Hsp Hgone Hopen Hbus Hacc. constructor; rewrite ?Hm, ?Hg;
    cbn [set_task set_tasks tasks nextID]; [| | | |done].
  - intros i. destruct (decide (i = id)) as [->|]; [by rewrite !lookup_insert_eq|].
    rewrite !lookup_insert_ne by done. apply (inv_tasks w Hi).
  - intros i u. destruct (decide (i = id)) as [->|].
    + rewrite lookup_insert_eq. intros [= <-]. split; [done|]. by apply (inv_ids w Hi _ _ Ht).
    + rewrite lookup_insert_ne by done. apply (inv_ids w Hi).
  - intros i u ph. destruct (decide (i = id)) as [->|Hne].
    + rewrite !lookup_insert_eq. by intros [= <-] [= <-].
    + rewrite !lookup_insert_ne by done. intros Hu Hp.
      apply (spares_account w); auto. by apply (inv_account w Hi).
  - intros i. destruct (decide (i = id)) as [->|Hne]; [by rewrite lookup_insert_eq|].
    rewrite lookup_insert_ne by done. intros Hn. destruct (inv_fresh w Hi i Hn) as (Hu & Hw & Hl).
    rewrite (spares_with_callback _ _ _ (Hsp i Hne)), (spares_lock _ _ _ (Hsp i Hne)).
    split_and!; [by eapply spares_unreported; eauto|done|done].
Qed.

(** A step of the bus alone. *)
Lemma inv_bus_step w c log got :
  inv w → (∀ id, announcements (set_bus c log got w) id = announcements w id) →
  (bus_gone w → ch_closed c = true) →
  (∀ id r, goroutines w !! id = Some (Publishing r) → bus_open w → ch_closed c = false) →
  bus_kept (set_bus c log got w) → inv (set_bus c log got w).
Proof.
  intros Hi Ha Hgone Hopen Hbus.
  assert (∀ i, spares w (set_bus c log got w) i) as Hsp by (intros i; by constructor).
  constructor; [apply (inv_tasks w Hi)|apply (inv_ids w Hi)| | |done].
  - intros i t ph Ht Hg. apply (spares_account w); [done|done| |by apply (inv_account w Hi)].
    intros r ->. by apply Hopen with (1 := Hg).
  - intros i Hn. destruct (inv_fresh w Hi i Hn) as (Hu & Hw & Hl).
    split_and!; [by eapply spares_unreported; eauto|done|done].
Qed.

Lemma set_task_id id t m : tasks m !! id = Some t → m = set_task id t m.
Proof. intros H. unfold set_task, set_tasks. rewrite insert_id by done. by destruct m. Qed.

Lemma announcements_app w id i m :
  (filter (λ a : option string * InboundMessage, a.1 = Some id) (accepted w ++ [(i, m)])).*2
  = announcements w id ++ if bool_decide (i = Some id) then [m] else [].
Proof.
  unfold announcements. rewrite filter_app, fmap_app, filter_cons. simpl.
  by case_bool_decide; case_decide.
Qed.

Lemma callbacks_app w id i r :
  (filter (λ c : string * ToolResult, c.1 = id) (callbacks w ++ [(i, r)])).*2
  = callbacks_of w id ++ if bool_decide (i = id) then [r] else [].
Proof.
  unfold callbacks_of. rewrite filter_app, fmap_app, filter_cons. simpl.
  by case_bool_decide; case_decide.
Qed.

Lemma send_sent {M} (m : M) (c c' : channel M) :
  send m c = Sent c' → ch_closed c = false ∧ c' = mk_channel (buffer c ++ [m]) false.
Proof. unfold send. destruct (ch_closed c); [done|]. destruct (_ <? _); [|done]. by intros [= <-]. Qed.

(** [spares] for a step that touches only what concerns the task [id]. *)
Ltac spare_others :=
  let i := fresh "i" in
  intros i ?; constructor; simpl;
  rewrite ?elem_of_union, ?elem_of_singleton;
  try (unfold announcements; simpl; rewrite announcements_app;
       rewrite bool_decide_false by congruence; by rewrite app_nil_r);
  try (unfold callbacks_of, call_back; simpl; case_bool_decide; [rewrite callbacks_app|done];
       rewrite bool_decide_false by congruence; by rewrite app_nil_r);
  naive_solver congruence.

Lemma inv_spawn w task label agentID channel chatID now (callback : bool) m t answer :
  inv w → lock w = None → Spawn task label agentID channel chatID now (manager w) = (m, t, answer) →
  inv (goto (st_ID t) Started (set_manager m (if callback then expect_callback (st_ID t) w else w))).
Proof.
  intros Hi Hl Hsp. destruct (fresh_task w Hi) as [Ht Hg]. unfold Spawn in Hsp. simplify_eq.
  cbn [st_ID]. set (id := task_id (nextID (manager w))) in *.
  destruct (inv_fresh w Hi id Hg) as (Hun & _ & Hnl).
  set (w0 := if callback then expect_callback id w else w).
  assert (goroutines w0 = goroutines w) as Hg0 by by destruct callback.
  assert (∀ i, i ≠ id → spares w (goto id Started (set_manager (mk_SubagentManager
    (<[id:=mk_SubagentTask id task label agentID channel chatID "running" "" now]>
       (tasks (manager w))) (maxIterations (manager w)) (maxTokens (manager w))
       (temperature (manager w)) (S (nextID (manager w)))) w0)) i) as Hs
    by (destruct callback; spare_others).
  constructor; simpl; rewrite ?Hg0.
  - intros i. destruct (decide (i = id)) as [->|]; [by rewrite !lookup_insert_eq|].
    rewrite !lookup_insert_ne by done. apply (inv_tasks w Hi).
  - intros i u. destruct (decide (i = id)) as [->|].
    + rewrite lookup_insert_eq. intros [= <-]. split; [done|]. eexists. split; [|done]. lia.
    + rewrite lookup_insert_ne by done. intros Hu.
      destruct (inv_ids w Hi _ _ Hu) as (? & k & ? & ?). split; [done|]. exists k. split; [lia|done].
  - intros i u ph. destruct (decide (i = id)) as [->|Hne].
    + rewrite !lookup_insert_eq. intros [= <-] [= <-]. split_and!; [done| |by destruct callback].
      by destruct callback.
    + rewrite !lookup_insert_ne by done. intros Hu Hp.
      apply (spares_account w); [by apply Hs|by destruct callback|by destruct callback|].
      by apply (inv_account w Hi).
  - intros i. destruct (decide (i = id)) as [->|Hne]; [by rewrite lookup_insert_eq|].
    rewrite lookup_insert_ne by done. intros Hn. destruct (inv_fresh w Hi i Hn) as (Hu & Hw & Hk).
    rewrite (spares_with_callback _ _ _ (Hs i Hne)), (spares_lock _ _ _ (Hs i Hne)).
    split_and!; [by eapply spares_unreported; eauto|done|done].
  - pose proof (inv_bus w Hi). by destruct callback.
Qed.

(** The announcement is taken by the bus. *)
Lemma inv_send w id t r c c' :
  inv w → goroutines w !! id = Some (Publishing r) → tasks (manager w) !! id = Some t →
  bus_inbound w = Some c → send (announcement t) c = Sent c' →
  inv (set_lock None (goto id (CallingBack r)
         (set_bus c' (accepted w ++ [(Some id, announcement t)]) (taken w) w))).
Proof.
  intros Hi Hg Ht Hb Hs. apply send_sent in Hs as [Ho ->].
  destruct (inv_account w Hi _ _ _ Ht Hg) as (Hr & (Ha & Hd & Hc) & Hl & _).
  apply (inv_goto w _ id t (CallingBack r)); simpl; try done.
  - by apply set_task_id.
  - by apply (inv_ids w Hi).
  - spare_others.
  - unfold bus_gone. rewrite Hb. simpl. congruence.
  - pose proof (inv_bus w Hi) as Hk. unfold bus_kept in *. rewrite Hb in Hk. simpl.
    by rewrite fmap_app, Hk, <-app_assoc.
  - split_and!; [done| |done|done]. left. split; [|done].
    unfold announcements at 1. simpl. rewrite announcements_app, Ha.
    by rewrite bool_decide_true.
Qed.

Lemma inv_step w w' : inv w → step w w' → inv w'.
Proof.
  intros Hi Hs. pose proof (inv_bus w Hi) as Hk. destruct Hs.
  - by eapply inv_spawn.
  - destruct (inv_account w Hi _ _ _ H1 H0) as (Hrun & Hu & Hl).
    eapply inv_goto; simpl; try done; [exact (proj1 (inv_ids w Hi _ _ H1))|].
    split; [done|]. by left.
  - destruct (inv_account w Hi _ _ _ H0 H) as (Hrun & Hu & Hl).
    eapply inv_goto; simpl; try done. exact (proj1 (inv_ids w Hi _ _ H0)).
  - destruct (inv_account w Hi _ _ _ H1 H0) as (Hrun & Hu & Hl).
    destruct (finished_final _ _ _ _ _ H2) as [Hf Hid].
    eapply inv_goto; simpl; try done; [rewrite Hid; by apply (inv_ids w Hi)|spare_others|].
    split_and!; [|done|done]. split; [done|]. by exists t, outcome, ctx_err.
  - destruct (proj1 (inv_tasks w Hi id) (ex_intro _ _ H)) as [t Ht].
    destruct (inv_account w Hi _ _ _ Ht H) as (Hr & (Ha & Hd & Hc) & Hl).
    apply (inv_goto w _ id t (CallingBack r)); simpl; try done;
      [by apply set_task_id|by apply (inv_ids w Hi)|spare_others|].
    split_and!; [done| |done|done]. right. split_and!; [done|set_solver|done].
  - destruct (proj1 (inv_tasks w Hi id) (ex_intro _ _ H)) as [t Ht].
    destruct (inv_account w Hi _ _ _ Ht H) as (Hr & Hu & Hl).
    apply (inv_goto w _ id t (Publishing r)); simpl; try done;
      [by apply set_task_id|by apply (inv_ids w Hi)].
  - by eapply inv_send.
  - destruct (proj1 (inv_tasks w Hi id) (ex_intro _ _ H)) as [t Ht].
    destruct (inv_account w Hi _ _ _ Ht H) as (Hr & Ha & Hc & Hl).
    apply (inv_goto w _ id t Finished); simpl; try done;
      [by apply set_task_id|by apply (inv_ids w Hi)|spare_others|].
    split; [done|]. right. exists r. split_and!; [done|done|]. unfold callbacks_of. simpl.
    case_bool_decide; [|done]. rewrite callbacks_app, Hc. by rewrite bool_decide_true.
  - apply send_sent in H0 as [Ho ->]. apply inv_bus_step; try done.
    + intros i. unfold announcements. simpl. rewrite announcements_app.
      by rewrite bool_decide_false, app_nil_r.
    + unfold bus_gone. rewrite H. congruence.
    + unfold bus_kept in *. rewrite H in Hk. simpl. by rewrite fmap_app, Hk, <-app_assoc.
  - unfold bus_kept in Hk. rewrite H in Hk. unfold receive in H0.
    destruct (buffer c) as [|m b] eqn:E; [destruct (ch_closed c) eqn:E2; [|done]|];
      simplify_eq; apply inv_bus_step; try done.
    + unfold bus_open. rewrite H. congruence.
    + unfold bus_kept. simpl. by rewrite E.
    + unfold bus_gone. by rewrite H.
    + unfold bus_open. by rewrite H.
    + unfold bus_kept. simpl. by rewrite Hk, <-app_assoc.
  - apply inv_bus_step; try done; [naive_solver|]. unfold bus_kept in *. by rewrite H in Hk.
Qed.

Lemma reachable_inv w : reachable w → inv w.
Proof. induction 1; [apply inv_init; auto..|by eapply inv_step]. Qed.

(** C9: every task is carried to one end.  In every reachable state every task
    has an identifier and a goroutine of its own and is accounted for by where
    that goroutine is: before its end nothing of it is announced or reported;
    once ended it is completed, failed or canceled, and while it is announced
    the goroutine has the manager's lock and an open bus to send to.  The bus
    takes its announcement, which says its final result, exactly once, unless
    the bus was closed or there is none, when it is dropped; after that,
    and with the lock released, its callback is called, exactly once and with
    the result of the same outcome.  A task canceled before it ran is
    neither announced nor reported.  At most one task announces at a time, the
    bus hands out exactly what it took and in order, and no later step changes a
    task that has ended. *)
Theorem subagent_lifecycle (w : world) (Hr : reachable w) :
  (∀ id t, tasks (manager w) !! id = Some t →
     st_ID t = id ∧ ∃ ph, goroutines w !! id = Some ph ∧ account w id t ph)
  ∧ (∀ id1 r1 id2 r2,
       (goroutines w !! id1 = Some (Announcing r1) ∨ goroutines w !! id1 = Some (Publishing r1)) →
       (goroutines w !! id2 = Some (Announcing r2) ∨ goroutines w !! id2 = Some (Publishing r2)) →
       id1 = id2)
  ∧ bus_kept w
  ∧ (∀ w' id t, step w w' → tasks (manager w) !! id = Some t → final_status t →
       tasks (manager w') !! id = Some t).
Proof.
  apply reachable_inv in Hr as Hi. split_and!; [| |by apply (inv_bus w Hi)|].
  - intros id t Ht. split; [by apply (inv_ids w Hi)|].
    destruct (proj2 (inv_tasks w Hi id) (ex_intro _ _ Ht)) as [ph Hg].
    exists ph. split; [done|]. by apply (inv_account w Hi).
  - assert (∀ id r, goroutines w !! id = Some (Announcing r) ∨ goroutines w !! id = Some (Publishing r) →
      lock w = Some id) as Hl.
    { intros id r Hg. assert (is_Some (goroutines w !! id)) as [t Ht]%(inv_tasks w Hi)
        by (destruct Hg; eauto).
      destruct Hg as [Hg|Hg]; pose proof (inv_account w Hi _ _ _ Ht Hg); simpl in *; tauto. }
    intros id1 r1 id2 r2 H1%Hl H2%Hl. congruence.
  - intros w' id t Hs Ht Hf.
    assert (∀ i u ph, goroutines w !! i = Some ph → ph = Started ∨ ph = Looping →
      tasks (manager w) !! i = Some u → id ≠ i) as Hne.
    { intros i u ph Hg Hph Hu <-. pose proof (inv_account w Hi _ _ _ Hu Hg) as Ha.
      simplify_eq. apply (running_not_final t); [|done]. by destruct Hph as [-> | ->]; destruct Ha. }
    destruct Hs; simpl; try done; try (rewrite lookup_insert_ne; [done|]; apply not_eq_sym; eapply Hne; eauto).
    unfold Spawn in *. simplify_eq. simpl. rewrite lookup_insert_ne; [done|].
    intros <-. pose proof (fresh_task w Hi). naive_solver congruence.
Qed.

(** A finishing task can block the agent.  While a goroutine holds the
    manager's lock to announce its task and the bus is full, no step but taking
    a message from the bus makes progress: the lock stays with it, no task can
    be spawned and the bus cannot be closed.  The one consumer of the bus is the
    agent loop, which itself needs the lock to spawn a task. *)
Lemma announcing_blocks_spawn (w : world) (id : string) (r : ToolResult) (c : channel InboundMessage)
    (Hr : reachable w) (Hg : goroutines w !! id = Some (Publishing r))
    (Hb : bus_inbound w = Some c) (Hfull : capacity ≤ length (buffer c)) :
  lock w = Some id
  ∧ ∀ w', step w w' →
      lock w' = Some id
      ∧ (∀ i, is_Some (tasks (manager w') !! i) ↔ is_Some (tasks (manager w) !! i))
      ∧ (bus_inbound w' = bus_inbound w
         ∨ ∃ msg c', receive zero_inbound c = Some (msg, c') ∧ bus_inbound w' = Some c').
Proof.
  apply reachable_inv in Hr as Hi.
  destruct (proj1 (inv_tasks w Hi id) (ex_intro _ _ Hg)) as [t Ht].
  destruct (inv_account w Hi _ _ _ Ht Hg) as (_ & _ & Hl & _). split; [done|].
  assert (∀ i r', goroutines w !! i = Some (Announcing r') → i = id) as Hone.
  { intros i r' Hg'. destruct (proj1 (inv_tasks w Hi i) (ex_intro _ _ Hg')) as [u Hu].
    destruct (inv_account w Hi _ _ _ Hu Hg') as (_ & _ & ?). congruence. }
  assert (∀ m c', send m c ≠ Sent c') as Hsend.
  { intros m c'. unfold send. destruct (ch_closed c); [done|].
    by rewrite (proj2 (Nat.ltb_ge _ _)) by lia. }
  intros w' Hs. destruct Hs; simpl; try congruence;
    try (pose proof (Hone _ _ H); congruence); try (exfalso; simplify_eq; by eapply Hsend).
  - split_and!; [done| |by left]. intros i.
    destruct (decide (i = id0)) as [->|]; [rewrite lookup_insert_eq, H0; by split|].
    by rewrite lookup_insert_ne.
  - by split_and!; [done|done|left].
  - simplify_eq. split_and!; [done|done|]. right. by exists msg, c'.
  - exfalso. by eapply H0.
Qed.

(** A task runs, is announced and reported; with a full bus it blocks. *)
Definition demo_task : SubagentTask :=
  mk_SubagentTask "subagent-1" "count" "" "" "cli" "direct" "completed" "3" 2.
Definition demo_result : ToolResult := (finished demo_task (Ok (mk_ToolLoopResult "3" 1)) false).2.
Definition demo_world (ph : phase) (l : option string) (queued : nat) (sent : bool)
    (cbs : list (string * ToolResult)) : world :=
  mk_world (mk_SubagentManager {[ "subagent-1" := demo_task ]} 10 None None 2) l
    {[ "subagent-1" := ph ]} {["subagent-1"]}
    (Some (mk_channel (replicate queued zero_inbound ++ if sent then [announcement demo_task] else [])
             false))
    (replicate queued (None, zero_inbound)
     ++ if sent then [(Some "subagent-1", announcement demo_task)] else [])
    [] ∅ cbs.

Lemma reachable_to w w1 w2 : reachable w → step w w1 → w1 = w2 → reachable w2.
Proof. intros Hr Hs <-. by eapply reachable_step. Qed.

Lemma demo_announcing :
  reachable (demo_world (Announcing demo_result) (Some "subagent-1") 0 false []).
Proof.
  set (t1 := mk_SubagentTask "subagent-1" "count" "" "" "cli" "direct" "running" "" 1).
  assert (reachable (mk_world (mk_SubagentManager {[ "subagent-1" := t1 ]} 10 None None 2) None
    {[ "subagent-1" := Started ]} {["subagent-1"]} (Some new_bus) [] [] ∅ [])) as H1.
  { eapply reachable_to; [exact reachable_init|
      eapply (step_spawn (init_world (Some new_bus)) "count" "" "" "cli" "direct" 1 true); reflexivity|
      vm_compute; reflexivity]. }
  eapply reachable_to in H1; [|eapply (step_run _ "subagent-1" t1 2); reflexivity|reflexivity].
  eapply reachable_to; [exact H1| |].
  - eapply (step_finish _ "subagent-1" _ (Ok (mk_ToolLoopResult "3" 1)) false); reflexivity.
  - reflexivity.
Qed.

Lemma demo_filled n : n ≤ capacity →
  reachable (demo_world (Publishing demo_result) (Some "subagent-1") n false []).
Proof.
  induction n as [|n IH]; intros Hn.
  { eapply reachable_to; [exact demo_announcing|apply (step_enter _ "subagent-1" demo_result); reflexivity|reflexivity]. }
  eapply reachable_to; [apply IH; lia| |].
  - eapply (step_publish (demo_world (Publishing demo_result) (Some "subagent-1") n false [])
      zero_inbound); [reflexivity|].
    unfold send. cbn [ch_closed buffer]. rewrite app_nil_r, length_replicate.
    rewrite (proj2 (Nat.ltb_lt _ _)) by lia. reflexivity.
  - unfold demo_world. rewrite <-(Nat.add_1_r n), !replicate_add. unfold set_bus. simpl.
    by rewrite !app_nil_r.
Qed.

Lemma demo_reported :
  reachable (demo_world Finished None 0 true [("subagent-1", demo_result)]).
Proof.
  eapply reachable_to; [eapply reachable_to; [apply (demo_filled 0); lia| |reflexivity]| |].
  - eapply (step_send _ "subagent-1" demo_task demo_result); reflexivity.
  - eapply (step_call_back _ "subagent-1" demo_result). reflexivity.
  - vm_compute. reflexivity.
Qed.

Lemma subagent_lifecycle_witness :
  let w := demo_world Finished None 0 true [("subagent-1", demo_result)] in
  announcements w "subagent-1" = [announcement demo_task]
  ∧ callbacks_of w "subagent-1" = [demo_result].
Proof.
  pose proof (subagent_lifecycle _ demo_reported) as (Hacc & _).
  destruct (Hacc "subagent-1" demo_task eq_refl) as (_ & ph & Hg & Ha).
  vm_compute in Hg. injection Hg as <-.
  destruct Ha as (_ & [(Hs & _)|(r & _ & [[Ha _]|(_ & Hd & _)] & Hc)]).
  - discriminate Hs.
  - split; [exact Ha|reflexivity].
  - exfalso. by apply (not_elem_of_empty (C:=gset string) "subagent-1").
Defined.

Lemma announcing_blocks_spawn_witness :
  ∀ w', step (demo_world (Publishing demo_result) (Some "subagent-1") 100 false []) w' →
    lock w' = Some "subagent-1".
Proof.
  intros w' Hs.
  refine (proj1 (proj2 (announcing_blocks_spawn
    (demo_world (Publishing demo_result) (Some "subagent-1") 100 false []) "subagent-1" demo_result _
    (demo_filled 100 _) eq_refl eq_refl _) w' Hs)); by apply Nat.leb_le.
Defined.

(** ** The tools *)
Record SpawnTool := mk_SpawnTool {
  originChannel : string;
  originChatID : string;
  allowlistCheck : option (string → bool);
}.
Definition NewSpawnTool : SpawnTool := mk_SpawnTool "cli" "direct" None.
Definition SpawnTool_SetContext (channel chatID : string) (t : SpawnTool) : SpawnTool :=
  mk_SpawnTool channel chatID (allowlistCheck t).
Definition SetAllowlistChecker (check : string → bool) (t : SpawnTool) : SpawnTool :=
  mk_SpawnTool (originChannel t) (originChatID t) (Some check).

(** The result, and the manager with the spawned task, if any ([manager]: [None]
    for nil; [Spawn] itself never fails). *)
Definition SpawnTool_Execute (args : gmap string json) (now : Z) (t : SpawnTool)
    (manager : option SubagentManager) : ToolResult * option (SubagentManager * SubagentTask) :=
  match arg_string args "task" with
  | None => (ErrorResult "task is required and must be a non-empty string", None)
  | Some task =>
      if bool_decide (trim_space task = "")
      then (ErrorResult "task is required and must be a non-empty string", None)
      else
        let label := arg_string_or_empty args "label" in
        let agentID := arg_string_or_empty args "agent_id" in
        if negb (bool_decide (agentID = ""))
           && match allowlistCheck t with Some check => negb (check agentID) | None => false end
        then (ErrorResult ("not allowed to spawn agent '" +:+ agentID +:+ "'"), None)
        else
          match manager with
          | None => (ErrorResult "Subagent manager not configured", None)
          | Some m =>
              let '(m, st, answer) :=
                Spawn task label agentID (originChannel t) (originChatID t) now m in
              (AsyncResult answer, Some (m, st))
          end
  end.

Definition SpawnTool_Parameters : gmap string json :=
  string_parameters [("task", "The task for subagent to complete");
                     ("label", "Optional short label for the task (for display)");
                     ("agent_id", "Optional target agent ID to delegate the task to")] ["task"].

(** A spawn happens only for a named task and an agent the allowlist admits, and
    its task goes back to the channel and chat of the tool's context. *)
Lemma SpawnTool_Execute_allowed args now t m r m' st :
  SpawnTool_Execute args now t m = (r, Some (m', st)) →
  Async r = true ∧ tasks m' !! st_ID st = Some st
  ∧ st_OriginChannel st = originChannel t ∧ st_OriginChatID st = originChatID t
  ∧ trim_space (st_Task st) ≠ ""
  ∧ (st_AgentID st ≠ "" → ∀ check, allowlistCheck t = Some check → check (st_AgentID st) = true).
Proof.
  unfold SpawnTool_Execute. destruct (arg_string args "task") as [task|]; [|done].
  case_bool_decide; [done|]. destruct (_ && _) eqn:Ha; [done|].
  destruct m as [m|]; [|done]. unfold Spawn. intros [= <- <- <-]. simpl.
  rewrite lookup_insert_eq. split_and!; try done.
  intros Hn check Hc. rewrite Hc in Ha. rewrite bool_decide_false in Ha by done. simpl in Ha.
  by apply negb_false_iff in Ha.
Qed.

Section subagent_tool.
Context {P W C : Type} `{!LLMProvider P}.
Context (Marshal : gmap string json → string)
        (Unmarshal : string → option (option (gmap string json))).
Context (defaultModel : string) (tools : option (ToolRegistry W C)).

Definition loop_config (m : SubagentManager) : ToolLoopConfig W C :=
  mk_ToolLoopConfig defaultModel tools (maxIterations m).

(** What the goroutine of a task runs. *)
Definition task_outcome (m : SubagentManager) (t : SubagentTask) (p : P) (w : W) :
    result error ToolLoopResult :=
  (RunToolLoop Marshal Unmarshal (loop_config m) (st_OriginChannel t) (st_OriginChatID t) p
     (task_messages t) w).1.

(** [SubagentTool]: the same loop, waited for. *)
Definition SubagentTool_Execute (args : gmap string json) (originChannel originChatID : string)
    (manager : option SubagentManager) (p : P) (w : W) : ToolResult * (P * W) :=
  match arg_string args "task" with
  | None => (WithError (ErrorResult "task is required") "task parameter is required", (p, w))
  | Some task =>
      let label := arg_string_or_empty args "label" in
      match manager with
      | None => (WithError (ErrorResult "Subagent manager not configured") "manager is nil", (p, w))
      | Some m =>
          let messages := [text_message "system" "You are a subagent. Complete the given task independently and provide a clear, concise result.";
                           text_message "user" task] in
          let '(res, (_, p, w)) :=
            RunToolLoop Marshal Unmarshal (loop_config m) originChannel originChatID p messages w in
          match res with
          | Err err => (WithError (ErrorResult ("Subagent execution failed: " +:+ err_text err))
                          (err_text err), (p, w))
          | Ok r =>
              let content := tlr_Content r in
              let userContent := if 500 <? String.length content
                                 then str_take 500 content +:+ "..." else content in
              let labelStr := if bool_decide (label = "") then "(unnamed)" else label in
              (mk_ToolResult
                 ("Subagent task completed:" +:+ nl +:+ "Label: " +:+ labelStr +:+ nl
                  +:+ "Iterations: " +:+ pretty (tlr_Iterations r) +:+ nl
                  +:+ "Result: " +:+ content)
                 userContent false false false None, (p, w))
          end
      end
  end.
End subagent_tool.
