(* ===== verification/Heartbeat.v ===== *)
(** * The heartbeat service (pkg/heartbeat/service.go)

    The periodic check: its start and stop, the prompt it builds from
    HEARTBEAT.md, and where the result goes.  The ticker that calls
    [executeHeartbeat] and the log file are not modelled. *)
From stdpp Require Import base gmap strings list.
From Stdlib Require Import Ascii ZArith Lia.
From S2P Require Import Prelude GoStrings Bus StateManager ToolBase.
#[local] Open Scope Z_scope.

Definition minIntervalMinutes : Z := 5.
Definition defaultIntervalMinutes : Z := 30.

(** The content of HEARTBEAT.md, as reading it finds it. *)
Inductive heartbeat_file := Missing | ReadError | Contains (data : string).

Record HeartbeatService := mk_HeartbeatService {
  hs_interval : duration;
  hs_enabled : bool;
  hs_running : bool;                  (* stopChan is not nil *)
  hs_has_bus : bool;
  hs_file : heartbeat_file;
  hs_state : Manager;
}.

(** A handler of heartbeats: [None] for a nil result. *)
Definition handler : Type := string → string → string → option ToolResult.

Definition NewHeartbeatService (intervalMinutes : Z) (enabled : bool) (file : heartbeat_file)
    (o : option fault) (fs : files) : HeartbeatService :=
  let minutes := if (intervalMinutes <? minIntervalMinutes) && negb (intervalMinutes =? 0)
                 then minIntervalMinutes else intervalMinutes in
  let minutes := if minutes =? 0 then defaultIntervalMinutes else minutes in
  mk_HeartbeatService (wrap64 (minutes * minute)) enabled false false file (NewManager o fs).

Definition SetBus (hs : HeartbeatService) : HeartbeatService :=
  mk_HeartbeatService (hs_interval hs) (hs_enabled hs) (hs_running hs) true (hs_file hs) (hs_state hs).

Definition set_running (r : bool) (hs : HeartbeatService) : HeartbeatService :=
  mk_HeartbeatService (hs_interval hs) (hs_enabled hs) r (hs_has_bus hs) (hs_file hs) (hs_state hs).

Definition Start (hs : HeartbeatService) : HeartbeatService :=
  if hs_running hs then hs else if hs_enabled hs then set_running true hs else hs.
Definition Stop (hs : HeartbeatService) : HeartbeatService :=
  if hs_running hs then set_running false hs else hs.
Definition IsRunning (hs : HeartbeatService) : bool := hs_running hs.

Definition nl : string := String newline_char "".

(** [createDefaultHeartbeatTemplate]'s text. *)
Definition defaultContent : string :=
  "# Heartbeat Check List" +:+ nl +:+ nl
  +:+ "This file contains tasks for the heartbeat service to check periodically." +:+ nl +:+ nl
  +:+ "## Examples" +:+ nl +:+ nl
  +:+ "- Check for unread messages" +:+ nl
  +:+ "- Review upcoming calendar events" +:+ nl
  +:+ "- Check device status (e.g., MaixCam)" +:+ nl +:+ nl
  +:+ "## Instructions" +:+ nl +:+ nl
  +:+ "- Execute ALL tasks listed below. Do NOT skip any task." +:+ nl
  +:+ "- For simple tasks (e.g., report current time), respond directly." +:+ nl
  +:+ "- For complex tasks that may take time, use the spawn tool to create a subagent." +:+ nl
  +:+ "- The spawn tool is async - subagent results will be sent to the user automatically." +:+ nl
  +:+ "- After spawning a subagent, CONTINUE to process remaining tasks." +:+ nl
  +:+ "- Only respond with HEARTBEAT_OK when ALL tasks are done AND nothing needs attention." +:+ nl +:+ nl
  +:+ "---" +:+ nl +:+ nl
  +:+ "Add your heartbeat tasks below this line:" +:+ nl.

Definition heartbeat_prompt (now content : string) : string :=
  "# Heartbeat Check" +:+ nl +:+ nl
  +:+ "Current time: " +:+ now +:+ nl +:+ nl
  +:+ "You are a proactive AI assistant. This is a scheduled heartbeat check." +:+ nl
  +:+ "Review the following tasks and execute any necessary actions using available skills." +:+ nl
  +:+ "If there is nothing that requires attention, respond ONLY with: HEARTBEAT_OK" +:+ nl +:+ nl
  +:+ content +:+ nl.

(** [buildPrompt]; [created]: whether the template could be written. *)
Definition buildPrompt (now : string) (created : bool) (hs : HeartbeatService) :
    string * HeartbeatService :=
  match hs_file hs with
  | Missing =>
      ("", if created
           then mk_HeartbeatService (hs_interval hs) (hs_enabled hs) (hs_running hs)
                  (hs_has_bus hs) (Contains defaultContent) (hs_state hs)
           else hs)
  | ReadError => ("", hs)
  | Contains data => if bool_decide (data = "") then ("", hs) else (heartbeat_prompt now data, hs)
  end.

(** [parseLastChannel]: empty strings for an invalid or internal channel. *)
Definition parseLastChannel (lastChannel : string) : string * string :=
  if bool_decide (lastChannel = "") then ("", "")
  else
    match cut lastChannel ":" with
    | None => ("", "")
    | Some (platform, userID) =>
        if bool_decide (platform = "") || bool_decide (userID = "") then ("", "")
        else if IsInternalChannel platform then ("", "")
        else (platform, userID)
    end.

(** What is published, if anything. *)
Definition sendResponse (response : string) (hs : HeartbeatService) : option OutboundMessage :=
  if negb (hs_has_bus hs) then None
  else
    let lastChannel := GetLastChannel (hs_state hs) in
    if bool_decide (lastChannel = "") then None
    else
      let '(platform, userID) := parseLastChannel lastChannel in
      if bool_decide (platform = "") || bool_decide (userID = "") then None
      else Some (mk_OutboundMessage platform userID response).

(** One heartbeat: the message published, if any, and the service after it. *)
Definition executeHeartbeat (now : string) (created : bool) (h : option handler)
    (hs : HeartbeatService) : option OutboundMessage * HeartbeatService :=
  if negb (hs_enabled hs) || negb (hs_running hs) then (None, hs)
  else
    let '(prompt, hs) := buildPrompt now created hs in
    if bool_decide (prompt = "") then (None, hs)
    else
      match h with
      | None => (None, hs)
      | Some h =>
          let '(channel, chatID) := parseLastChannel (GetLastChannel (hs_state hs)) in
          match h prompt channel chatID with
          | None => (None, hs)
          | Some result =>
              if IsError result then (None, hs)
              else if Async result then (None, hs)
              else if Silent result then (None, hs)
              else if negb (bool_decide (ForUser result = "")) then (sendResponse (ForUser result) hs, hs)
              else if negb (bool_decide (ForLLM result = "")) then (sendResponse (ForLLM result) hs, hs)
              else (None, hs)
          end
      end.

(** ** Where a heartbeat goes *)

Lemma parse_channel_key channel chatID :
  ":"%char ∉ chars channel → channel ≠ "" → chatID ≠ "" → IsInternalChannel channel = false →
  parseLastChannel (channel_key channel chatID) = (channel, chatID).
Proof.
  intros Hc H1 H2 Hi. unfold parseLastChannel, channel_key.
  rewrite bool_decide_false by (by destruct channel).
  change (":" +:+ chatID) with (String ":" chatID). rewrite cut_app by done.
  by rewrite !bool_decide_false, Hi by done.
Qed.

Lemma parseLastChannel_external lastChannel platform userID :
  parseLastChannel lastChannel = (platform, userID) → platform ≠ "" →
  IsInternalChannel platform = false ∧ userID ≠ "" ∧ lastChannel = channel_key platform userID.
Proof.
  unfold parseLastChannel, channel_key. case_bool_decide; [by intros [= <- <-]|].
  destruct (cut lastChannel ":") as [[p u]|] eqn:Ec; [|by intros [= <- <-]].
  case_bool_decide; [by intros [= <- <-]|]. case_bool_decide; simpl; [by intros [= <- <-]|].
  destruct (IsInternalChannel p) eqn:Ei; [by intros [= <- <-]|].
  intros [= <- <-] _. split_and!; [done|done|]. by apply cut_Some in Ec as [-> _].
Qed.

(** A heartbeat publishes at most one message, only while the service runs and
    for a result meant for the user, and always to the external channel and
    chat that are recorded as the last active ones. *)
Lemma heartbeat_target now created h hs m hs' :
  executeHeartbeat now created h hs = (Some m, hs') →
  hs_enabled hs = true ∧ hs_running hs = true
  ∧ IsInternalChannel (om_Channel m) = false
  ∧ GetLastChannel (hs_state hs) = channel_key (om_Channel m) (om_ChatID m)
  ∧ om_Content m ≠ "".
Proof.
  unfold executeHeartbeat. destruct (hs_enabled hs) eqn:He; [|done].
  destruct (hs_running hs) eqn:Hr; [|done]. cbn [negb orb].
  destruct (buildPrompt now created hs) as [prompt hs1] eqn:Eb.
  assert (hs_state hs1 = hs_state hs) as Hst.
  { unfold buildPrompt in Eb. destruct (hs_file hs) as [| |data].
    - destruct created; by simplify_eq.
    - by simplify_eq.
    - case_bool_decide; by simplify_eq. }
  assert (∀ r, r ≠ "" → (sendResponse r hs1, hs1) = (Some m, hs') →
    IsInternalChannel (om_Channel m) = false
    ∧ GetLastChannel (hs_state hs) = channel_key (om_Channel m) (om_ChatID m)
    ∧ om_Content m ≠ "") as Hsend.
  { intros r Hne [= Hs _]. unfold sendResponse in Hs. destruct (hs_has_bus hs1); [|done].
    cbn [negb] in Hs. case_bool_decide; [done|].
    destruct (parseLastChannel _) as [p u] eqn:Ep. case_bool_decide; [done|].
    case_bool_decide; [done|]. simpl in Hs. simplify_eq. rewrite Hst in Ep.
    destruct (parseLastChannel_external _ _ _ Ep ltac:(done)) as (? & _ & ?). by simpl. }
  case_bool_decide; [done|]. destruct h as [h|]; [|done].
  destruct (parseLastChannel _) as [c i]. destruct (h prompt c i) as [r|]; [|done].
  destruct (IsError r); [done|]. destruct (Async r); [done|]. destruct (Silent r); [done|].
  case_bool_decide; simpl; [case_bool_decide; [done|]|]; intros H'; by apply Hsend in H'.
Qed.
