(* ===== verification/SearchCache.v ===== *)
(** * The search cache (pkg/skills/search_cache.go)

    A cache with expiry, eviction of the least recently used entry, and lookup
    by trigram similarity.  Operations take the clock reading [now]; the
    iteration over the map of entries visits them in an order [visit] that the
    runtime chooses.  A similarity is the exact fraction of two counts: the
    comparisons of the rounded quotients agree with it on counts below 2^50. *)
From stdpp Require Import base gmap strings list sorting fin_sets.
From Stdlib Require Import Ascii ZArith Lia.
From S2P Require Import Prelude GoStrings.

Section cache.
(** The results of a search, which the cache only stores. *)
Context {SearchResult : Type}.

(** ** State *)
Record cacheEntry := mk_cacheEntry {
  ce_query : string;
  ce_trigrams : list Z;
  ce_results : list SearchResult;
  ce_createdAt : time;
}.

Record SearchCache := mk_SearchCache {
  sc_entries : gmap string cacheEntry;
  sc_order : list string;       (* oldest first *)
  sc_maxEntries : Z;
  sc_ttl : duration;
}.

Definition NewSearchCache (maxEntries : Z) (ttl : duration) : SearchCache :=
  let maxEntries := if (maxEntries <=? 0)%Z then 50%Z else maxEntries in
  let ttl := if (ttl <=? 0)%Z then (5 * minute)%Z else ttl in
  mk_SearchCache ∅ [] maxEntries ttl.

(** ** Trigrams *)
Definition normalizeQuery (q : string) : string := to_lower (trim_space q).

Definition byte_z (c : ascii) : Z := Z.of_nat (byte c).

Fixpoint trigrams_l (l : list ascii) : list Z :=
  match l with
  | a :: ((b :: c :: _) as l') =>
      Z.lor (Z.lor (Z.shiftl (byte_z a) 16) (Z.shiftl (byte_z b) 8)) (byte_z c) :: trigrams_l l'
  | _ => []
  end.

(** The compaction loop: each element that differs from the one before it. *)
Fixpoint compact (prev : Z) (l : list Z) : list Z :=
  match l with
  | [] => []
  | x :: l' => if (x =? prev)%Z then compact x l' else x :: compact x l'
  end.

Definition buildTrigrams (s : string) : list Z :=
  if (String.length s <? 3)%nat then []
  else
    match merge_sort Z.le (trigrams_l (chars s)) with
    | [] => []
    | x :: l => x :: compact x l
    end.

(** ** Similarity *)
Fixpoint intersection_count (a : list Z) : list Z → Z :=
  fix go (b : list Z) : Z :=
    match a, b with
    | x :: a', y :: b' =>
        if (x =? y)%Z then (1 + intersection_count a' b')%Z
        else if (x <? y)%Z then intersection_count a' b
        else go b'
    | _, _ => 0%Z
    end.

(** A fraction: numerator and denominator. *)
Definition jaccardSimilarity (a b : list Z) : Z * Z :=
  if bool_decide (a = []) && bool_decide (b = []) then (1, 1)%Z
  else
    let intersection := intersection_count a b in
    (intersection, Z.of_nat (length a) + Z.of_nat (length b) - intersection)%Z.

Definition frac_gt (f g : Z * Z) : bool := (g.1 * f.2 <? f.1 * g.2)%Z.
(** [sim >= similarityThreshold], that is 0.7. *)
Definition above_threshold (f : Z * Z) : bool := (7 * f.2 <=? 10 * f.1)%Z.

(** ** The order of use *)
Fixpoint remove_first (key : string) (l : list string) : list string :=
  match l with
  | [] => []
  | k :: l' => if bool_decide (k = key) then l' else k :: remove_first key l'
  end.

Definition moveToEndLocked (key : string) (sc : SearchCache) : SearchCache :=
  mk_SearchCache (sc_entries sc) (remove_first key (sc_order sc) ++ [key])
    (sc_maxEntries sc) (sc_ttl sc).

Definition expired (now : time) (sc : SearchCache) (e : cacheEntry) : bool :=
  (sc_ttl sc <=? time_sub now (ce_createdAt e))%Z.

Definition evictExpiredLocked (now : time) (sc : SearchCache) : SearchCache :=
  let '(m, newOrder) :=
    foldl (λ (acc : gmap string cacheEntry * list string) key,
             let '(m, o) := acc in
             match m !! key with
             | Some entry => if expired now sc entry then (delete key m, o) else (m, o ++ [key])
             | None => (delete key m, o)
             end) (sc_entries sc, []) (sc_order sc) in
  mk_SearchCache m newOrder (sc_maxEntries sc) (sc_ttl sc).

Fixpoint evict_lru (maxEntries : Z) (m : gmap string cacheEntry) (order : list string) :
    gmap string cacheEntry * list string :=
  match order with
  | [] => (m, [])
  | oldest :: order' =>
      if (maxEntries <=? Z.of_nat (size m))%Z then evict_lru maxEntries (delete oldest m) order'
      else (m, order)
  end.

(** ** Get, Put, Len *)

(** The best fresh entry, scanning in the order of [l]; a tie keeps the first. *)
Definition best_entry (now : time) (sc : SearchCache) (queryTrigrams : list Z)
    (l : list (string * cacheEntry)) : option cacheEntry * (Z * Z) :=
  foldl (λ (acc : option cacheEntry * (Z * Z)) (ke : string * cacheEntry),
           let entry := ke.2 in
           if expired now sc entry then acc
           else
             let sim := jaccardSimilarity queryTrigrams (ce_trigrams entry) in
             if frac_gt sim acc.2 then (Some entry, sim) else acc)
    (None, (0, 1)%Z) l.

Definition Get (now : time)
    (visit : list (string * cacheEntry) → list (string * cacheEntry))
    (query : string) (sc : SearchCache) : option (list SearchResult) * SearchCache :=
  let normalized := normalizeQuery query in
  if bool_decide (normalized = "") then (None, sc)
  else
    let similar :=
      let '(bestEntry, bestSim) :=
        best_entry now sc (buildTrigrams normalized) (visit (map_to_list (sc_entries sc))) in
      match bestEntry with
      | Some e => if above_threshold bestSim
                  then (Some (ce_results e), moveToEndLocked (ce_query e) sc)
                  else (None, sc)
      | None => (None, sc)
      end in
    match sc_entries sc !! normalized with
    | Some entry =>
        if negb (expired now sc entry)
        then (Some (ce_results entry), moveToEndLocked normalized sc)
        else similar
    | None => similar
    end.

Definition Put (now : time) (query : string) (results : list SearchResult) (sc : SearchCache) :
    SearchCache :=
  let normalized := normalizeQuery query in
  if bool_decide (normalized = "") then sc
  else
    let sc := evictExpiredLocked now sc in
    let entry := mk_cacheEntry normalized (buildTrigrams normalized) results now in
    if bool_decide (is_Some (sc_entries sc !! normalized)) then
      moveToEndLocked normalized
        (mk_SearchCache (<[normalized := entry]> (sc_entries sc)) (sc_order sc)
           (sc_maxEntries sc) (sc_ttl sc))
    else
      let '(m, order) := evict_lru (sc_maxEntries sc) (sc_entries sc) (sc_order sc) in
      mk_SearchCache (<[normalized := entry]> m) (order ++ [normalized])
        (sc_maxEntries sc) (sc_ttl sc).

Definition Len (sc : SearchCache) : Z := Z.of_nat (size (sc_entries sc)).

(** ** The invariant *)
Record cache_ok (sc : SearchCache) : Prop := {
  ok_nodup : NoDup (sc_order sc);
  ok_dom : list_to_set (sc_order sc) = dom (sc_entries sc);
  ok_size : (0 < sc_maxEntries sc)%Z ∧ (Len sc <= sc_maxEntries sc)%Z;
  ok_entry k e : sc_entries sc !! k = Some e →
    ce_query e = k ∧ ce_trigrams e = buildTrigrams k;
}.

(** Calls on one cache, in the order of its lock. *)
Inductive call :=
| CallGet (now : time) (visit : list (string * cacheEntry) → list (string * cacheEntry)) (q : string)
| CallPut (now : time) (q : string) (r : list SearchResult).
Definition do_call (sc : SearchCache) (c : call) : SearchCache :=
  match c with
  | CallGet now visit q => (Get now visit q sc).2
  | CallPut now q r => Put now q r sc
  end.
(** The iteration visits entries of the map. *)
Definition call_ok (c : call) : Prop :=
  match c with CallGet _ visit _ => ∀ l, visit l ⊆ l | CallPut _ _ _ => True end.

Lemma remove_first_perm key l : key ∈ l → remove_first key l ++ [key] ≡ₚ l.
Proof.
  induction l as [|k l IH]; intros H; [by apply not_elem_of_nil in H|]. simpl.
  case_bool_decide as E; [subst; by rewrite (comm (++))|].
  simpl. rewrite IH; [done|]. apply elem_of_cons in H as [->|]; done.
Qed.

Lemma moveToEnd_ok key sc : cache_ok sc → key ∈ sc_order sc → cache_ok (moveToEndLocked key sc).
Proof.
  intros [Hn Hd Hs He] Hin. pose proof (remove_first_perm key (sc_order sc) Hin) as Hp.
  constructor; simpl; try done.
  - by rewrite Hp.
  - rewrite <-Hd. apply set_eq. intros x. by rewrite !elem_of_list_to_set, Hp.
Qed.

Lemma order_dom sc k : cache_ok sc → k ∈ sc_order sc ↔ is_Some (sc_entries sc !! k).
Proof. intros [_ Hd _ _]. rewrite <-elem_of_dom, <-Hd. by rewrite elem_of_list_to_set. Qed.

Lemma order_length sc : cache_ok sc → length (sc_order sc) = size (sc_entries sc).
Proof.
  intros [Hn Hd _ _]. rewrite <-(size_list_to_set (C := gset string)) by done.
  by rewrite Hd, size_dom.
Qed.

Lemma sublist_full {A} (l1 l2 : list A) : l1 `sublist_of` l2 → length l2 ≤ length l1 → l1 = l2.
Proof.
  induction 1 as [|x l1 l2 _ IH|x l1 l2 Hs IH]; simpl; intros Hlen; [done| |].
  - f_equal. apply IH. lia.
  - apply sublist_length in Hs. lia.
Qed.

Lemma evictExpired_fold now sc l :
  ∀ (m : gmap string cacheEntry) o,
  let r := foldl (λ (acc : gmap string cacheEntry * list string) key,
             let '(m, o) := acc in
             match m !! key with
             | Some entry => if expired now sc entry then (delete key m, o) else (m, o ++ [key])
             | None => (delete key m, o)
             end) (m, o) l in
  NoDup l →
  (∀ k, r.1 !! k = match m !! k with
                   | Some e => if bool_decide (k ∈ l) && expired now sc e then None else Some e
                   | None => None end)
  ∧ (∃ o', r.2 = o ++ o' ∧ o' `sublist_of` l
      ∧ ∀ k, k ∈ o' ↔ k ∈ l ∧ ∃ e, m !! k = Some e ∧ expired now sc e = false).
Proof.
  induction l as [|x l IH]; intros m o r Hnd; subst r; cbn [foldl].
  - split.
    + intros k. simpl. by destruct (m !! k).
    + exists []. rewrite app_nil_r. split_and!; [done|done|]. intros k.
      split; [by intros ?%not_elem_of_nil|]. intros [H _]. by apply not_elem_of_nil in H.
  - apply NoDup_cons in Hnd as [Hx Hnd].
    assert (m !! x = None → delete x m = m) as Hdel by apply delete_id.
    destruct (m !! x) as [e|] eqn:Ex; [destruct (expired now sc e) eqn:Ee|].
    + destruct (IH (delete x m) o Hnd) as [H1 (o' & H2 & Hsub & H3)]. split.
      * intros k. rewrite H1. destruct (decide (k = x)) as [->|Hk].
        { rewrite lookup_delete_eq, Ex, Ee, bool_decide_eq_true_2; [done|]. by left. }
        rewrite lookup_delete_ne by done. destruct (m !! k); [|done].
        by rewrite (bool_decide_ext (k ∈ x :: l) (k ∈ l)) by (rewrite elem_of_cons; naive_solver).
      * exists o'. split_and!; [done|by apply sublist_cons|]. intros k. rewrite H3.
        destruct (decide (k = x)) as [->|Hk].
        { rewrite lookup_delete_eq, Ex. split; [naive_solver|].
          intros (_ & e' & ? & ?). simplify_eq. congruence. }
        rewrite lookup_delete_ne, elem_of_cons by done. naive_solver.
    + destruct (IH m (o ++ [x]) Hnd) as [H1 (o' & H2 & Hsub & H3)]. split.
      * intros k. rewrite H1. destruct (m !! k) as [e'|] eqn:Ek; [|done].
        destruct (decide (k = x)) as [->|Hk].
        { simplify_eq. by rewrite Ee, !andb_false_r. }
        by rewrite (bool_decide_ext (k ∈ x :: l) (k ∈ l)) by (rewrite elem_of_cons; naive_solver).
      * exists (x :: o'). rewrite H2, <-app_assoc. split_and!; [done|by apply sublist_skip|].
        intros k. rewrite !elem_of_cons, H3. naive_solver.
    + rewrite Hdel by done. destruct (IH m o Hnd) as [H1 (o' & H2 & Hsub & H3)]. split.
      * intros k. rewrite H1. destruct (m !! k) as [e'|] eqn:Ek; [|done].
        assert (k ≠ x) by congruence.
        by rewrite (bool_decide_ext (k ∈ x :: l) (k ∈ l)) by (rewrite elem_of_cons; naive_solver).
      * exists o'. split_and!; [done|by apply sublist_cons|]. intros k. rewrite H3, elem_of_cons.
        naive_solver.
Qed.

Lemma evictExpired_spec now sc :
  cache_ok sc →
  let sc' := evictExpiredLocked now sc in
  cache_ok sc'
  ∧ (∀ k, sc_entries sc' !! k = match sc_entries sc !! k with
           | Some e => if expired now sc e then None else Some e | None => None end)
  ∧ sc_order sc' `sublist_of` sc_order sc
  ∧ sc_maxEntries sc' = sc_maxEntries sc ∧ sc_ttl sc' = sc_ttl sc.
Proof.
  intros Hok. unfold evictExpiredLocked.
  destruct (evictExpired_fold now sc (sc_order sc) (sc_entries sc) [] (ok_nodup _ Hok))
    as [H1 (o' & H2 & Hsub & H3)].
  destruct (foldl _ _ _) as [m o]. simpl in *. subst o.
  assert (∀ k, m !! k = match sc_entries sc !! k with
           | Some e => if expired now sc e then None else Some e | None => None end) as Hm.
  { intros k. rewrite H1. destruct (sc_entries sc !! k) eqn:E; [|done].
    rewrite bool_decide_eq_true_2; [done|]. apply (order_dom sc); eauto. }
  split_and!; try done.
  destruct Hok as [Hn Hd Hs He]. constructor; simpl.
  - by eapply sublist_NoDup.
  - apply set_eq. intros k. rewrite elem_of_list_to_set, H3, elem_of_dom, Hm.
    assert (k ∈ sc_order sc ↔ is_Some (sc_entries sc !! k)) as Hk.
    { rewrite <-elem_of_dom, <-Hd. by rewrite elem_of_list_to_set. }
    rewrite Hk. clear -Hk. destruct (sc_entries sc !! k) as [e|].
    + destruct (expired now sc e) eqn:Ee; split; eauto; try by intros [].
      intros [_ (e' & [= <-] & ?)]. congruence.
    + split; by intros [[] ?].
  - split; [apply Hs|]. unfold Len in *. simpl.
    assert (m ⊆ sc_entries sc) as Hsm.
    { apply map_subseteq_spec. intros k e. rewrite Hm. by repeat case_match. }
    apply map_subseteq_size in Hsm. lia.
  - intros k e. rewrite Hm. repeat case_match; try done. intros [= <-]. by apply He.
Qed.

Lemma evict_lru_spec maxEntries m order :
  (0 < maxEntries)%Z → NoDup order → list_to_set order = dom m →
  let '(m', order') := evict_lru maxEntries m order in
  ∃ pre, order = pre ++ order' ∧ list_to_set order' = dom m' ∧ (Z.of_nat (size m') < maxEntries)%Z
    ∧ m' ⊆ m ∧ (∀ k, k ∈ order' → m' !! k = m !! k)
    ∧ length pre = (size m - Z.to_nat (maxEntries - 1)).
Proof.
  intros Hmax Hn. revert m. induction order as [|x order IH]; intros m Hd; cbn [evict_lru].
  - simpl in Hd. symmetry in Hd. apply dom_empty_inv_L in Hd as ->. exists [].
    rewrite map_size_empty. split_and!; try done; simpl; lia.
  - apply NoDup_cons in Hn as [Hx Hn]. destruct (Z.leb_spec maxEntries (Z.of_nat (size m))).
    + assert (is_Some (m !! x)) as Hmx by (apply elem_of_dom; rewrite <-Hd; set_solver).
      assert (size (delete x m) = size m - 1) as Hsz.
      { destruct Hmx as [e He]. rewrite map_size_delete_Some by eauto. lia. }
      specialize (IH Hn (delete x m)).
      destruct (evict_lru maxEntries (delete x m) order) as [m' order'].
      destruct IH as (pre & -> & ? & ? & Hsub & Hl & Hlen).
      { rewrite dom_delete_L, <-Hd. simpl. set_solver. }
      exists (x :: pre). split_and!; try done.
      * etrans; [done|]. apply delete_subseteq.
      * intros k Hk. rewrite Hl by done. apply lookup_delete_ne. intros ->. set_solver.
      * simpl. rewrite Hlen, Hsz. lia.
    + exists []. split_and!; try done; simpl; lia.
Qed.

Lemma best_entry_in now sc t l e sim :
  best_entry now sc t l = (Some e, sim) →
  (∃ k, (k, e) ∈ l) ∧ expired now sc e = false ∧ sim = jaccardSimilarity t (ce_trigrams e).
Proof.
  unfold best_entry.
  assert (∀ acc, (∀ e0, acc.1 = Some e0 → expired now sc e0 = false
      ∧ acc.2 = jaccardSimilarity t (ce_trigrams e0)) →
    foldl (λ (acc : option cacheEntry * (Z * Z)) (ke : string * cacheEntry),
      if expired now sc ke.2 then acc
      else if frac_gt (jaccardSimilarity t (ce_trigrams ke.2)) acc.2
           then (Some ke.2, jaccardSimilarity t (ce_trigrams ke.2)) else acc) acc l = (Some e, sim) →
    (acc.1 = Some e ∨ ∃ k, (k, e) ∈ l) ∧ expired now sc e = false
    ∧ sim = jaccardSimilarity t (ce_trigrams e)) as Hgen.
  { induction l as [|[k e0] l IH]; intros acc Hacc; cbn [foldl].
    - intros ->. destruct (Hacc e eq_refl). auto.
    - assert ((∃ k', (k', e) ∈ l) → ∃ k', (k', e) ∈ (k, e0) :: l) as Hlift.
      { intros [k' ?]. exists k'. by right. }
      cbn [snd]. destruct (expired now sc e0) eqn:Ee; [|destruct (frac_gt _ _)]; intros Hf.
      + destruct (IH acc Hacc Hf) as ([?|?] & ? & ?); auto.
      + destruct (IH (Some e0, jaccardSimilarity t (ce_trigrams e0))) as ([?|?] & ? & ?); auto.
        { by intros ? [= <-]. }
        simplify_eq/=. split_and!; auto. right. exists k. by left.
      + destruct (IH acc Hacc Hf) as ([?|?] & ? & ?); auto. }
  intros H. destruct (Hgen (None, (0, 1)%Z)) as ([?|?] & ? & ?); auto; done.
Qed.

Lemma Get_ok now visit q sc :
  (∀ l, visit l ⊆ l) → cache_ok sc → cache_ok (Get now visit q sc).2.
Proof.
  intros Hv Hok. unfold Get. case_bool_decide; [done|].
  assert (cache_ok (let '(bestEntry, bestSim) :=
      best_entry now sc (buildTrigrams (normalizeQuery q)) (visit (map_to_list (sc_entries sc))) in
    match bestEntry with
    | Some e => if above_threshold bestSim
                then (Some (ce_results e), moveToEndLocked (ce_query e) sc) else (None, sc)
    | None => (None, sc) end).2) as Hsim.
  { destruct (best_entry _ _ _ _) as [[e|] sim] eqn:E; [|done].
    destruct (above_threshold sim); [|done]. simpl.
    apply best_entry_in in E as ((k & Hk%Hv) & _ & _).
    apply elem_of_map_to_list in Hk. apply moveToEnd_ok; [done|].
    destruct (ok_entry _ Hok _ _ Hk) as [-> _]. apply order_dom; eauto. }
  destruct (sc_entries sc !! normalizeQuery q) as [e|] eqn:E; [|done].
  destruct (expired now sc e); cbn [negb]; [done|].
  apply moveToEnd_ok; [done|]. apply order_dom; eauto.
Qed.

Lemma Put_ok now q r sc : cache_ok sc → cache_ok (Put now q r sc).
Proof.
  intros Hok0. unfold Put. case_bool_decide; [done|].
  destruct (evictExpired_spec now sc Hok0) as (Hok & _). clear Hok0.
  generalize dependent (evictExpiredLocked now sc). clear sc. intros sc Hok.
  set (k := normalizeQuery q). destruct Hok as [Hn Hd [Hs1 Hs2] He].
  case_bool_decide as Hk.
  - apply moveToEnd_ok.
    + constructor; simpl; try done.
      * rewrite dom_insert_L, Hd. apply elem_of_dom in Hk. set_solver.
      * split; [done|]. unfold Len in *. simpl. by rewrite map_size_insert_Some.
      * intros k' e'. rewrite lookup_insert. case_decide; [intros [= <-]; by subst|apply He].
    + simpl. apply elem_of_dom in Hk. rewrite <-Hd in Hk. by apply elem_of_list_to_set in Hk.
  - pose proof (evict_lru_spec _ _ _ Hs1 Hn Hd) as Hev.
    destruct (evict_lru _ _ _) as [m' order'].
    destruct Hev as (pre & Ho & Hd' & Hsz & Hsub & Hl & _).
    assert (m' !! k = None) as Hmk.
    { apply eq_None_not_Some. intros Hm. apply Hk. destruct Hm as [e Hm].
      exists e. eapply lookup_weaken; done. }
    rewrite Ho in Hn. apply NoDup_app in Hn as (_ & _ & Hn').
    constructor; simpl.
    + apply NoDup_app. split_and!; [done| |apply NoDup_singleton].
      intros x Hx ->%list_elem_of_singleton.
      apply (elem_of_list_to_set (C := gset string)) in Hx. rewrite Hd' in Hx.
      apply elem_of_dom in Hx as [? Hx]. fold k in Hx. congruence.
    + rewrite list_to_set_app_L, Hd', dom_insert_L. simpl. fold k. set_solver.
    + split; [done|]. unfold Len. simpl. rewrite map_size_insert_None by done. lia.
    + intros k' e'. rewrite lookup_insert. case_decide; [intros [= <-]; by subst|].
      intros Hm. apply He. eapply lookup_weaken; done.
Qed.

(** However calls to a new cache follow each other, the order of use lists
    each cached query exactly once, the cache never holds more than its maximum
    number of entries, and every entry is stored under its own query with that
    query's trigrams. *)
Lemma cache_invariant (maxEntries : Z) (ttl : duration) (calls : list call) :
  Forall call_ok calls → cache_ok (foldl do_call (NewSearchCache maxEntries ttl) calls).
Proof.
  intros Hc.
  assert (cache_ok (NewSearchCache maxEntries ttl)) as H0.
  { unfold NewSearchCache. constructor; simpl.
    - constructor.
    - by rewrite dom_empty_L.
    - unfold Len. simpl. rewrite map_size_empty. destruct (Z.leb_spec maxEntries 0); lia.
    - intros k e. by rewrite lookup_empty. }
  revert H0. generalize (NewSearchCache maxEntries ttl).
  induction Hc as [|c calls Hc _ IH]; intros sc Hok; simpl; [done|]. apply IH.
  destruct c; simpl in *; [by apply Get_ok|by apply Put_ok].
Qed.

(** ** Hits *)
Lemma Put_lookup now q r sc :
  normalizeQuery q ≠ "" →
  sc_entries (Put now q r sc) !! normalizeQuery q
  = Some (mk_cacheEntry (normalizeQuery q) (buildTrigrams (normalizeQuery q)) r now)
  ∧ sc_ttl (Put now q r sc) = sc_ttl sc.
Proof.
  intros Hq. unfold Put. rewrite bool_decide_eq_false_2 by done.
  assert (sc_ttl (evictExpiredLocked now sc) = sc_ttl sc) as Ht.
  { unfold evictExpiredLocked. by destruct (foldl _ _ _). }
  case_bool_decide; simpl; [by rewrite lookup_insert_eq|].
  destruct (evict_lru _ _ _) as [m o]. simpl. by rewrite lookup_insert_eq.
Qed.

(** What is put is found: until the entry expires, a lookup of the same
    query up to case and surrounding white space returns the stored results;
    and every hit is an unexpired entry of the cache, for the query itself or
    for one whose trigram similarity to it reaches 0.7. *)
Lemma cache_hits (now now' : time) (q q' : string) (r : list SearchResult)
    (visit : list (string * cacheEntry) → list (string * cacheEntry)) (sc : SearchCache) :
  cache_ok sc → (∀ l, visit l ⊆ l) →
  (normalizeQuery q ≠ "" → normalizeQuery q' = normalizeQuery q →
   (time_sub now' now < sc_ttl sc)%Z → (Get now' visit q' (Put now q r sc)).1 = Some r)
  ∧ (∀ rs, (Get now visit q sc).1 = Some rs →
       ∃ k e, sc_entries sc !! k = Some e ∧ ce_results e = rs ∧ expired now sc e = false
         ∧ (k = normalizeQuery q
            ∨ above_threshold
                (jaccardSimilarity (buildTrigrams (normalizeQuery q)) (buildTrigrams k)) = true)).
Proof.
  intros Hok Hv. split.
  - intros Hq Heq Ht. destruct (Put_lookup now q r sc Hq) as [Hl Httl].
    unfold Get. rewrite Heq, bool_decide_eq_false_2 by done. rewrite Hl.
    unfold expired. rewrite Httl. simpl. by rewrite (proj2 (Z.leb_gt _ _)) by lia.
  - intros rs. unfold Get. case_bool_decide; [done|].
    destruct (best_entry _ _ _ _) as [[e|] sim] eqn:E.
    + apply best_entry_in in E as ((k & Hk%Hv) & He & ->).
      apply elem_of_map_to_list in Hk. pose proof (ok_entry _ Hok _ _ Hk) as [_ Htri].
      destruct (sc_entries sc !! normalizeQuery q) as [e'|] eqn:El;
        [destruct (expired now sc e') eqn:Ee|]; cbn [negb];
        try (destruct (above_threshold _) eqn:Ea); intros [= <-];
        try (exists k, e; rewrite Htri in Ea; by auto); by exists (normalizeQuery q), e'; auto.
    + destruct (sc_entries sc !! normalizeQuery q) as [e'|] eqn:El; [|done].
      destruct (expired now sc e') eqn:Ee; cbn [negb]; [done|]. intros [= <-].
      exists (normalizeQuery q), e'. auto.
Qed.

(** A full cache evicts the least recently used entries: putting a new query
    into a cache with no expired entry keeps exactly the entries after the
    first [n] in the order of use, where [n] is the excess over the maximum,
    and a successful lookup makes its entry the last to be evicted. *)
Lemma put_evicts_lru (now : time) (q : string) (r : list SearchResult) (sc : SearchCache) :
  cache_ok sc → normalizeQuery q ≠ "" → sc_entries sc !! normalizeQuery q = None →
  (∀ k e, sc_entries sc !! k = Some e → expired now sc e = false) →
  let n := (size (sc_entries sc) - Z.to_nat (sc_maxEntries sc - 1)) in
  n <= 1
  ∧ sc_order (Put now q r sc) = drop n (sc_order sc) ++ [normalizeQuery q]
  ∧ (∀ k, k ∈ drop n (sc_order sc) → sc_entries (Put now q r sc) !! k = sc_entries sc !! k)
  ∧ (∀ k, k ∈ take n (sc_order sc) → sc_entries (Put now q r sc) !! k = None).
Proof.
  intros Hok Hq Hnew Hfresh n.
  destruct (evictExpired_spec now sc Hok) as (Hok' & Hl & Hsub & Hmax & _).
  assert (sc_entries (evictExpiredLocked now sc) = sc_entries sc) as Hent.
  { apply map_eq. intros k. rewrite Hl. destruct (sc_entries sc !! k) as [e|] eqn:E; [|done].
    by rewrite (Hfresh k e E). }
  assert (sc_order (evictExpiredLocked now sc) = sc_order sc) as Hord.
  { apply sublist_full; [done|]. pose proof (order_length _ Hok) as H1.
    pose proof (order_length _ Hok') as H2. rewrite Hent in H2. lia. }
  pose proof (ok_size _ Hok) as [Hs1 Hs2]. unfold Len in Hs2.
  unfold Put. rewrite bool_decide_eq_false_2 by done. rewrite Hent, Hord, Hmax, Hnew.
  rewrite bool_decide_eq_false_2 by by intros [].
  pose proof (evict_lru_spec (sc_maxEntries sc) (sc_entries sc) (sc_order sc) Hs1
    (ok_nodup _ Hok) (ok_dom _ Hok)) as Hev.
  destruct (evict_lru _ _ _) as [m order]. simpl.
  destruct Hev as (pre & Ho & Hd & _ & Hsub' & Hkeep & Hlen).
  assert (drop n (sc_order sc) = order) as Hdrop by (rewrite Ho; by apply drop_app_length').
  assert (take n (sc_order sc) = pre) as Htake by (rewrite Ho; by apply take_app_length').
  rewrite Hdrop, Htake. split_and!; [lia|done| |].
  - intros k Hk. rewrite lookup_insert_ne; [by apply Hkeep|]. intros <-.
    assert (normalizeQuery q ∈ sc_order sc) as Hin by (rewrite Ho; set_solver).
    apply order_dom in Hin as [? Hin]; [|done]. congruence.
  - intros k Hk. assert (k ∈ sc_order sc) as Hin by (rewrite Ho; set_solver).
    rewrite lookup_insert_ne.
    2:{ intros <-. apply order_dom in Hin as [? Hin]; [|done]. congruence. }
    apply not_elem_of_dom. rewrite <-Hd. rewrite elem_of_list_to_set.
    pose proof (ok_nodup _ Hok) as Hnd. rewrite Ho in Hnd. apply NoDup_app in Hnd as (_ & Hn & _).
    by apply Hn.
Qed.
End cache.

(** ** Trigram similarity *)
#[local] Open Scope Z_scope.

Lemma compact_spec prev l :
  StronglySorted Z.le (prev :: l) →
  StronglySorted Z.lt (prev :: compact prev l)
  ∧ ∀ x, x ∈ prev :: compact prev l ↔ x ∈ prev :: l.
Proof.
  revert prev. induction l as [|y l IH]; intros prev H; [split; [by repeat constructor|done]|].
  apply StronglySorted_inv in H as [Hs Hle]. inversion_clear Hle as [|? ? Hy Hl].
  destruct (IH y Hs) as [IHs IHe]. simpl. destruct (Z.eqb_spec y prev) as [->|Hne].
  - split; [done|]. intros x. rewrite IHe, !elem_of_cons. tauto.
  - split.
    + constructor; [done|]. apply Forall_forall. intros x Hx. apply IHe in Hx.
      apply StronglySorted_inv in Hs as [_ Hs].
      apply elem_of_cons in Hx as [->|Hx]; [lia|].
      pose proof (proj1 (Forall_forall _ _) Hs x Hx). lia.
    + intros x. rewrite (elem_of_cons (y :: compact y l)), IHe, !elem_of_cons. tauto.
Qed.

(** The set of trigram codes of a text. *)
Definition trigram_set (s : string) : gset Z := list_to_set (trigrams_l (chars s)).

Lemma trigrams_short l : (length l < 3)%nat → trigrams_l l = [].
Proof. destruct l as [|a [|b [|c l]]]; simpl; try done. lia. Qed.

Lemma buildTrigrams_spec s :
  StronglySorted Z.lt (buildTrigrams s) ∧ list_to_set (buildTrigrams s) = trigram_set s.
Proof.
  unfold buildTrigrams, trigram_set.
  destruct (Nat.ltb_spec (String.length s) 3) as [H|H].
  { rewrite <-length_chars in H. rewrite trigrams_short by done. split; [constructor|done]. }
  set (l := trigrams_l (chars s)).
  assert (StronglySorted Z.le (merge_sort Z.le l)) as Hs by apply (StronglySorted_merge_sort _).
  assert (∀ x, x ∈ merge_sort Z.le l ↔ x ∈ l) as Hp by (intros; by rewrite merge_sort_Permutation).
  destruct (merge_sort Z.le l) as [|x m] eqn:E.
  - split; [constructor|]. apply set_eq. intros x. rewrite !elem_of_list_to_set. apply Hp.
  - destruct (compact_spec x m Hs) as [? He]. split; [done|].
    apply set_eq. intros y. rewrite !elem_of_list_to_set, He. apply Hp.
Qed.

Lemma sorted_lt_not_in x y (b : list Z) : x < y → StronglySorted Z.lt (y :: b) → x ∉ y :: b.
Proof.
  intros Hxy [_ Hb]%StronglySorted_inv [->|Hin]%elem_of_cons; [lia|].
  pose proof (proj1 (Forall_forall _ _) Hb x Hin). lia.
Qed.

Lemma intersection_count_spec a b :
  StronglySorted Z.lt a → StronglySorted Z.lt b →
  intersection_count a b = Z.of_nat (size (list_to_set a ∩ list_to_set b : gset Z)).
Proof.
  revert b. induction a as [|x a IHa]; intros b Ha Hb.
  { transitivity 0; [by destruct b|].
    by rewrite list_to_set_nil, intersection_empty_l_L, size_empty. }
  pose proof (StronglySorted_inv Ha) as [Ha' Hxa].
  induction b as [|y b IHb]; [by rewrite list_to_set_nil, intersection_empty_r_L, size_empty|].
  pose proof (StronglySorted_inv Hb) as [Hb' Hyb].
  assert (intersection_count (x :: a) (y :: b)
    = if x =? y then 1 + intersection_count a b
      else if x <? y then intersection_count a (y :: b) else intersection_count (x :: a) b) as ->
    by done.
  destruct (Z.eqb_spec x y) as [->|Hne];
    [|destruct (Z.ltb_spec x y) as [Hlt|Hge]].
  - rewrite IHa by done. simpl.
    assert (({[y]} ∪ list_to_set a) ∩ ({[y]} ∪ list_to_set b) =@{gset Z}
      {[y]} ∪ (list_to_set a ∩ list_to_set b)) as -> by set_solver.
    rewrite (size_union {[y]} (list_to_set a ∩ list_to_set b)).
    + rewrite size_singleton. lia.
    + apply disjoint_singleton_l. rewrite elem_of_intersection, !elem_of_list_to_set.
      intros [Hin _]. pose proof (proj1 (Forall_forall _ _) Hxa y Hin). lia.
  - rewrite IHa by done. do 2 f_equal. simpl list_to_set at 3.
    pose proof (sorted_lt_not_in x y b Hlt Hb) as Hn.
    rewrite <-(elem_of_list_to_set (C := gset Z)) in Hn. set_solver.
  - rewrite IHb by done. do 2 f_equal. simpl list_to_set at 4.
    pose proof (sorted_lt_not_in y x a ltac:(lia) Ha) as Hn.
    rewrite <-(elem_of_list_to_set (C := gset Z)) in Hn. set_solver.
Qed.

Lemma sorted_lt_NoDup (l : list Z) : StronglySorted Z.lt l → NoDup l.
Proof.
  induction 1 as [|x l _ IH Hx]; constructor; [|done].
  intros Hin. pose proof (proj1 (Forall_forall _ _) Hx x Hin). lia.
Qed.

Lemma sorted_size (l : list Z) (X : gset Z) :
  StronglySorted Z.lt l → list_to_set l = X → length l = size X.
Proof. intros Hs <-. by rewrite size_list_to_set by by apply sorted_lt_NoDup. Qed.

(** The similarity the cache computes by merging two sorted arrays is the
    Jaccard index of the two sets of trigrams: the number of common trigrams
    over the number of all trigrams (1/1 when neither text has any); so it is
    symmetric, and 1 exactly when the two sets are equal. *)
Lemma jaccard_correct (s t : string) :
  let inter := Z.of_nat (size (trigram_set s ∩ trigram_set t)) in
  let union := Z.of_nat (size (trigram_set s ∪ trigram_set t)) in
  let j := jaccardSimilarity (buildTrigrams s) (buildTrigrams t) in
  j = (if bool_decide (union = 0) then (1, 1) else (inter, union))
  ∧ j = jaccardSimilarity (buildTrigrams t) (buildTrigrams s)
  ∧ 0 <= j.1 <= j.2 ∧ 0 < j.2
  ∧ (j.1 = j.2 ↔ trigram_set s = trigram_set t).
Proof.
  intros inter union j.
  destruct (buildTrigrams_spec s) as [Hss Hs], (buildTrigrams_spec t) as [Hst Ht].
  assert (∀ a b, StronglySorted Z.lt (buildTrigrams a) → StronglySorted Z.lt (buildTrigrams b) →
    list_to_set (buildTrigrams a) = trigram_set a → list_to_set (buildTrigrams b) = trigram_set b →
    let i := Z.of_nat (size (trigram_set a ∩ trigram_set b)) in
    let u := Z.of_nat (size (trigram_set a ∪ trigram_set b)) in
    jaccardSimilarity (buildTrigrams a) (buildTrigrams b)
    = if bool_decide (u = 0) then (1, 1) else (i, u)) as Hspec.
  { intros a b Ha Hb Hae Hbe i u. unfold jaccardSimilarity.
    rewrite intersection_count_spec, Hae, Hbe by done.
    rewrite (sorted_size _ _ Ha Hae), (sorted_size _ _ Hb Hbe). fold i.
    assert (u = Z.of_nat (size (trigram_set a)) + Z.of_nat (size (trigram_set b)) - i) as Hu.
    { unfold u, i. rewrite size_union_alt, size_difference_alt, (intersection_comm_L (trigram_set a)).
      pose proof (subseteq_size (trigram_set b ∩ trigram_set a) (trigram_set b) ltac:(set_solver)).
      lia. }
    rewrite <-Hu.
    assert ((buildTrigrams a = [] ∧ buildTrigrams b = []) ↔ u = 0) as Hz.
    { unfold u. rewrite <-Hae, <-Hbe.
      assert (∀ l l' : list Z, (l = [] ∧ l' = []) ↔
        Z.of_nat (size (list_to_set l ∪ list_to_set l' : gset Z)) = 0) as H.
      { intros l l'. split; [by intros [-> ->]|].
        intros He%(Nat2Z.inj _ 0)%size_empty_inv. destruct l, l'; try done; set_solver. }
      apply H. }
    rewrite <-bool_decide_and. by rewrite (bool_decide_ext _ _ Hz). }
  pose proof (Hspec s t Hss Hst Hs Ht) as H1. pose proof (Hspec t s Hst Hss Ht Hs) as H2.
  cbv zeta in H1, H2.
  assert (trigram_set t ∩ trigram_set s = trigram_set s ∩ trigram_set t) as Hi by set_solver.
  assert (trigram_set t ∪ trigram_set s = trigram_set s ∪ trigram_set t) as Hu by set_solver.
  rewrite Hi, Hu in H2.
  fold inter union in H1, H2. subst j. rewrite H1, H2. clear Hspec H1 H2.
  assert (0 <= inter <= union) as Hle.
  { split; [unfold inter; lia|]. apply inj_le, subseteq_size. set_solver. }
  split_and!; try done; case_bool_decide as E; simpl; try lia.
  - unfold union in E. assert (size (trigram_set s ∪ trigram_set t) = 0%nat) as E' by lia.
    apply size_empty_inv in E'. split; [intros _; set_solver|done].
  - split; [|intros Heq; unfold inter, union; do 2 f_equal; clear -Heq; set_solver].
    intros Heq. apply set_eq. intros x.
    assert (trigram_set s ∩ trigram_set t = trigram_set s ∪ trigram_set t) as Hst'.
    { apply set_subseteq_size_eq; [set_solver|]. unfold inter, union in Heq. lia. }
    set_solver.
Qed.

(** ** Concrete runs *)
Definition sample_cache : SearchCache (SearchResult := string) :=
  Put 2 "docker compose" ["b"] (Put 1 "git hooks" ["a"] (NewSearchCache 2 hour)).

Definition sample_calls : list (call (SearchResult := string)) :=
  [CallPut 1 "git hooks" ["a"]; CallPut 2 "docker compose" ["b"]].

Lemma cache_invariant_witness : cache_ok (foldl do_call (NewSearchCache 2 hour) sample_calls).
Proof.
  apply (cache_invariant 2 hour sample_calls). repeat constructor.
Defined.

Lemma sample_cache_ok : cache_ok sample_cache.
Proof.
  unfold sample_cache. apply Put_ok, Put_ok.
  constructor; simpl; [constructor|done|vm_compute; split; congruence|].
  intros k e H. by rewrite lookup_empty in H.
Qed.

Lemma cache_hits_witness :
  (Get 3 id " Docker Compose " (Put 2 "docker compose" ["b"] sample_cache)).1 = Some ["b"].
Proof.
  apply (cache_hits 2 3 "docker compose" " Docker Compose " ["b"] id sample_cache sample_cache_ok
    (λ l x H, H)); [discriminate|reflexivity|reflexivity].
Defined.

Lemma put_evicts_lru_witness :
  sc_order (Put 3 "rust async" ["c"] sample_cache) = ["docker compose"; "rust async"].
Proof.
  destruct (put_evicts_lru 3 "rust async" ["c"] sample_cache sample_cache_ok) as (_ & H & _).
  - discriminate.
  - reflexivity.
  - intros k e He. apply elem_of_map_to_list in He.
    assert (Forall (λ ke, expired 3 sample_cache ke.2 = false)
      (map_to_list (sc_entries sample_cache))) as Hall.
    { refine (bool_decide_unpack (Forall _ _) _). vm_compute. exact I. }
    apply (proj1 (Forall_forall _ _) Hall (k, e) He).
  - exact H.
Defined.
