(* ===== verification/SkillTools.v ===== *)
(** * Finding and installing skills (pkg/tools/skills_search.go, skills_install.go)

    The two tools of the model around the registries ([SkillRegistry]) and the
    search cache ([SearchCache]). *)
From stdpp Require Import base gmap strings list pretty.
From Stdlib Require Import Ascii ZArith QArith Lia.
From S2P Require Import Prelude GoStrings ProviderTypes Paths ToolBase FileTools HostFiles SkillRegistry SearchCache.
#[local] Open Scope nat_scope.

Definition nl : string := String newline_char "".

(** ** find_skills *)
Section find.
(** [fmt.Sprintf("%.3f", score)]. *)
Context (score_text : Q → string).

Definition result_text (i : nat) (r : SearchResult) : string :=
  pretty (i + 1) +:+ ". **" +:+ sr_Slug r +:+ "**"
  +:+ (if bool_decide (sr_Version r = "") then "" else " v" +:+ sr_Version r)
  +:+ "  (score: " +:+ score_text (sr_Score r) +:+ ", registry: " +:+ sr_RegistryName r +:+ ")" +:+ nl
  +:+ (if negb (bool_decide (sr_DisplayName r = "")) && negb (bool_decide (sr_DisplayName r = sr_Slug r))
       then "   Name: " +:+ sr_DisplayName r +:+ nl else "")
  +:+ (if bool_decide (sr_Summary r = "") then "" else "   " +:+ sr_Summary r +:+ nl)
  +:+ nl.

Definition formatSearchResults (query : string) (results : list SearchResult) (cached : bool) : string :=
  if bool_decide (results = []) then "No skills found for query: " +:+ quoted query
  else "Found " +:+ pretty (length results) +:+ " skills for " +:+ quoted query
       +:+ (if cached then " (cached)" else "") +:+ ":" +:+ nl +:+ nl
       +:+ join "" (imap result_text results)
       +:+ "Use install_skill with the slug to install a skill.".

Definition search_limit (args : gmap string json) : Z :=
  match args !! "limit" with
  | Some (JNum l) => if ((1 <=? l) && (l <=? 20))%Z then l else 5%Z
  | _ => 5%Z
  end.

(** [arrived]: what the registries answer to the query, in the order of arrival. *)
Definition FindSkills (now : time)
    (visit : list (string * cacheEntry) → list (string * cacheEntry))
    (arrived : string → Z → list (result string (list SearchResult)))
    (rm : RegistryManager) (args : gmap string json) (cache : option (SearchCache (SearchResult := SearchResult))) :
    ToolResult * option SearchCache :=
  let query := to_lower (trim_space (arg_string_or_empty args "query")) in
  if bool_decide (query = "") then (ErrorResult "query is required and must be a non-empty string", cache)
  else
    let limit := search_limit args in
    let '(hit, cache) :=
      match cache with
      | Some sc => let '(hit, sc) := Get now visit query sc in (hit, Some sc)
      | None => (None, None)
      end in
    match hit with
    | Some cached => (SilentResult (formatSearchResults query cached true), cache)
    | None =>
        match SearchAll (arrived query limit) limit rm with
        | Err e => (ErrorResult ("skill search failed: " +:+ e), cache)
        | Ok results =>
            let cache := match cache with
                         | Some sc => Some (if bool_decide (results = []) then sc else Put now query results sc)
                         | None => None
                         end in
            (SilentResult (formatSearchResults query results false), cache)
        end
    end.
End find.

(** ** install_skill *)
Section install.
Context (cwd : list comp).

Record originMeta := mk_originMeta {
  om_Version : Z;
  om_Registry : string;
  om_Slug : string;
  om_InstalledVersion : string;
  om_InstalledAt : Z;
}.
(** [json.MarshalIndent]. *)
Context (encode_origin : originMeta → string).

Definition writeOriginMeta (now : Z) (targetDir registryName slug version : string) (fs : fsys) :
    fsys * option errno :=
  sys_WriteFile fs (host_view cwd) (Join targetDir ".skill-origin.json")
    (encode_origin (mk_originMeta 1 registryName slug version now)).

Definition install_text (slug version registryName targetDir summary : string) (suspicious : bool) : string :=
  (if suspicious
   then implode (ascii_of_nat <$> [226; 154; 160; 239; 184; 143]) +:+ " Warning: skill " +:+ quoted slug
        +:+ " is flagged as suspicious (may contain risky patterns)." +:+ nl +:+ nl
   else "")
  +:+ "Successfully installed skill " +:+ quoted slug +:+ " v" +:+ version +:+ " from " +:+ registryName
  +:+ " registry." +:+ nl +:+ "Location: " +:+ targetDir +:+ nl
  +:+ (if bool_decide (summary = "") then "" else "Description: " +:+ summary +:+ nl)
  +:+ nl +:+ "The skill is now available and can be loaded in the current session.".

(** After the check for an installed skill: from the choice of the registry on. *)
Definition install_from (now : Z) (rm : RegistryManager) (slug registryName version skillsDir targetDir : string)
    (fs : fsys) : ToolResult * fsys :=
  let v := host_view cwd in
  match GetRegistry registryName rm with
  | None => (ErrorResult ("registry " +:+ quoted registryName +:+ " not found"), fs)
  | Some registry =>
      match sys_MkdirAll fs v skillsDir with
      | (fs, Some e) => (ErrorResult ("failed to create skills directory: " +:+ errno_text e), fs)
      | (fs, None) =>
          match r_DownloadAndInstall registry slug version targetDir fs with
          | (Err e, fs) =>
              (ErrorResult ("failed to install " +:+ quoted slug +:+ ": " +:+ e),
               (sys_RemoveAll fs v targetDir).1)
          | (Ok r, fs) =>
              if ir_IsMalwareBlocked r then
                (ErrorResult ("skill " +:+ quoted slug +:+ " is flagged as malicious and cannot be installed"),
                 (sys_RemoveAll fs v targetDir).1)
              else
                let fs := (writeOriginMeta now targetDir (r_Name registry) slug (ir_Version r) fs).1 in
                (SilentResult (install_text slug (ir_Version r) (r_Name registry) targetDir (ir_Summary r)
                                 (ir_IsSuspicious r)), fs)
          end
      end
  end.

Definition InstallSkill (now : Z) (rm : RegistryManager) (workspace : string) (args : gmap string json)
    (fs : fsys) : ToolResult * fsys :=
  let slug := arg_string_or_empty args "slug" in
  let registryName := arg_string_or_empty args "registry" in
  match ValidateSkillIdentifier slug, ValidateSkillIdentifier registryName with
  | Some e, _ => (ErrorResult ("invalid slug " +:+ quoted slug +:+ ": error: " +:+ e), fs)
  | None, Some e => (ErrorResult ("invalid registry " +:+ quoted registryName +:+ ": error: " +:+ e), fs)
  | None, None =>
      let version := arg_string_or_empty args "version" in
      let force := match args !! "force" with Some (JBool b) => b | _ => false end in
      let skillsDir := Join workspace "skills" in
      let targetDir := Join skillsDir slug in
      if negb force then
        if sys_Stat fs (host_view cwd) targetDir
        then (ErrorResult ("skill " +:+ quoted slug +:+ " already installed at " +:+ targetDir
                           +:+ ". Use force=true to reinstall."), fs)
        else install_from now rm slug registryName version skillsDir targetDir fs
      else
        install_from now rm slug registryName version skillsDir targetDir
          (sys_RemoveAll fs (host_view cwd) targetDir).1
  end.
End install.

(** ** Installing stays below the directory of the skill *)
Lemma elem_of_drop_while {A} (p : A → bool) l x : x ∈ l → p x = false → x ∈ drop_while p l.
Proof.
  induction l as [|y l IH]; intros Hx Hp; [done|]. cbn [drop_while].
  destruct (p y) eqn:E; [|done]. apply elem_of_cons in Hx as [->|Hx]; [congruence|by apply IH].
Qed.
Lemma elem_of_trim_by {A} (p : A → bool) l x : x ∈ l → p x = false → x ∈ trim_by p l.
Proof.
  intros Hx Hp. unfold trim_by. rewrite elem_of_reverse. apply elem_of_drop_while; [|done].
  rewrite elem_of_reverse. by apply elem_of_drop_while.
Qed.

(** What a valid identifier cannot contain. *)
Lemma valid_identifier s :
  ValidateSkillIdentifier s = None → s ≠ "" ∧ s ≠ ".." ∧ slash ∉ chars s.
Proof.
  intros H. split_and!; [by intros ->|by intros ->|]. intros Hin. revert H.
  unfold ValidateSkillIdentifier. case_bool_decide; [done|].
  assert (contains_any (trim_space s) (String slash (String (ascii_of_nat 92) "")) = true) as ->; [|done].
  unfold contains_any. apply existsb_exists. exists slash. split; [|by vm_compute].
  apply list_elem_of_In. rewrite chars_trim_space. by apply elem_of_trim_by.
Qed.

Lemma slug_ordinary s : ValidateSkillIdentifier s = None → s ≠ "." → ordinary (chars s).
Proof.
  intros (Hne & Hdd & Hs)%valid_identifier Hd. split_and!; [| | |done].
  - intros E. apply Hne. by apply chars_nil_iff.
  - intros E. apply Hd. apply (inj chars). exact E.
  - intros E. apply Hdd. apply (inj chars). exact E.
Qed.

Section install_below.
Context (cwd : list comp) (encode_origin : originMeta → string).

Lemma install_from_below now rm slug registryName version skillsDir targetDir fs :
  Forall RegistryOk (rm_registries rm) → clean_abs skillsDir → clean_abs targetDir →
  norm (chars skillsDir) `prefix_of` norm (chars targetDir) →
  step_below (norm (chars targetDir)) fs
    (install_from cwd encode_origin now rm slug registryName version skillsDir targetDir fs).2.
Proof.
  intros Hrm Hs Ht Hpre. unfold install_from.
  assert (target (norm (chars targetDir)) targetDir) as Htt by done.
  assert (∀ fs, step_below (norm (chars targetDir)) fs (sys_RemoveAll fs (host_view cwd) targetDir).1) as Hra
    by (intros; by apply sys_RemoveAll_below).
  destruct (GetRegistry registryName rm) as [registry|] eqn:Er; [|done].
  assert (RegistryOk registry) as Hr.
  { unfold GetRegistry in Er. apply find_first_Some in Er as (l1 & l2 & E & _). rewrite E in Hrm.
    apply Forall_app in Hrm as [_ Hrm]. by inversion Hrm. }
  pose proof (sys_MkdirAll_below (norm (chars targetDir)) cwd fs skillsDir Hs (or_intror Hpre)) as H1.
  destruct (sys_MkdirAll fs _ skillsDir) as [fs1 [e|]]; [exact H1|]. etrans; [exact H1|].
  pose proof (Hr slug version targetDir fs1 Ht) as H2.
  destruct (r_DownloadAndInstall registry slug version targetDir fs1) as [[r|e] fs2]; (etrans; [exact H2|]);
    [|apply Hra].
  destruct (ir_IsMalwareBlocked r); [apply Hra|]. cbn [snd]. apply sys_WriteFile_below.
  split; [by apply Join_abs; [apply Ht|]|].
  rewrite norm_Join_local; [by eexists|apply Ht|done|done].
Qed.

(** C15: installing a skill, from any registries that keep the promise of their
    interface and however it ends, changes the tree only below the directory of
    that skill in the workspace, and by directories made on the way to it, when
    no link lies on the way or below; an identifier that is not valid changes
    nothing.  The identifier "." is excepted: see [dot_removes_all_skills]. *)
Theorem install_skill_confined now rm workspace args fs :
  IsAbs workspace = true → Forall RegistryOk (rm_registries rm) →
  let slug := arg_string_or_empty args "slug" in
  let T := norm (chars (Join workspace "skills")) ++ [chars slug] in
  slug ≠ "." → links_ok T fs →
  let fs' := (InstallSkill cwd encode_origin now rm workspace args fs).2 in
  grows_below T fs fs' ∧ links_ok T fs'
  ∧ (ValidateSkillIdentifier slug ≠ None → fs' = fs).
Proof.
  intros Hw Hrm slug T Hdot Hl. cbv zeta.
  set (fs' := (InstallSkill cwd encode_origin now rm workspace args fs).2).
  assert (step_below T fs fs' ∧ (ValidateSkillIdentifier slug ≠ None → fs' = fs)) as [H1 H2];
    [|by destruct (H1 Hl)].
  unfold fs', InstallSkill. fold slug.
  destruct (ValidateSkillIdentifier slug) eqn:Ev; [done|]. split; [|done].
  destruct (ValidateSkillIdentifier (arg_string_or_empty args "registry")); [done|].
  assert (clean_abs (Join workspace "skills")) as Hs by by apply Join_abs.
  destruct (norm_Join_name (Join workspace "skills") slug (proj1 Hs) (slug_ordinary _ Ev Hdot)) as [Ht HT].
  fold T in HT.
  assert (∀ fs1, step_below T fs1 (install_from cwd encode_origin now rm slug (arg_string_or_empty args "registry")
            (arg_string_or_empty args "version") (Join workspace "skills")
            (Join (Join workspace "skills") slug) fs1).2) as Hf.
  { intros fs1. rewrite <-HT. apply install_from_below; [done|done|done|]. rewrite HT. by eexists. }
  destruct (negb _); [destruct (sys_Stat _ _ _); [done|apply Hf]|].
  etrans; [|apply Hf]. rewrite <-HT. apply sys_RemoveAll_below. by split.
Qed.
End install_below.

Definition demo_services : services :=
  mk_services (λ _ _, Ok (mk_response 200 "zip" None)) (λ b _, Ok b) (λ s, s)
    (λ _, Ok []) (λ _, Err "no metadata") (λ _, Ok demo_archive).
Definition demo_manager : RegistryManager :=
  AddRegistry (clawhub [] demo_services (NewClawHubRegistry (mk_ClawHubConfig true "" "" "" "" "" 0 0 0)))
    NewRegistryManager.
Definition install_args (slug registry : string) (force : bool) : gmap string json :=
  {[ "slug" := JStr slug; "registry" := JStr registry; "force" := JBool force ]}.

Lemma install_skill_confined_witness :
  links_ok (norm (chars "/w/skills") ++ [chars "gh"]) demo_tree ∧
  grows_below (norm (chars "/w/skills") ++ [chars "gh"]) demo_tree
    (InstallSkill [] (λ _, "{}") 0 demo_manager "/w" (install_args "gh" "clawhub" true) demo_tree).2.
Proof.
  assert (links_ok (norm (chars "/w/skills") ++ [chars "gh"]) demo_tree) as Hl
    by (apply linkless_ok; vm_compute; reflexivity).
  split; [exact Hl|].
  refine (proj1 (install_skill_confined [] (λ _, "{}") 0 demo_manager "/w" (install_args "gh" "clawhub" true)
                   demo_tree eq_refl _ _ Hl)).
  - constructor; [apply clawhub_ok|constructor].
  - intros E. vm_compute in E. discriminate E.
Defined.

(** ** What goes wrong *)
Definition two_skills : fsys :=
  {[ [chars "w"] := EDir; [chars "w"; chars "skills"] := EDir;
     [chars "w"; chars "skills"; chars "gh"] := EDir;
     [chars "w"; chars "skills"; chars "gh"; chars "SKILL.md"] := EFile "x" ]}.

(** The identifier "." is valid, and forcing its installation removes every
    skill of the workspace, before anything else is looked at. *)
Lemma dot_removes_all_skills :
  let r := InstallSkill [] (λ _, "{}") 0 demo_manager "/w" (install_args "." "nowhere" true) two_skills in
  IsError r.1 = true ∧ r.2 !! [chars "w"; chars "skills"] = None
  ∧ r.2 !! [chars "w"; chars "skills"; chars "gh"; chars "SKILL.md"] = None.
Proof. split_and!; vm_compute; reflexivity. Qed.

(** A forced installation removes the installed skill first: when the registry is
    not known (or the download fails), the skill is gone. *)
Lemma forced_reinstall_loses_skill :
  let r := InstallSkill [] (λ _, "{}") 0 demo_manager "/w" (install_args "gh" "nowhere" true) two_skills in
  ForLLM r.1 = "registry " +:+ quoted "nowhere" +:+ " not found"
  ∧ r.2 !! [chars "w"; chars "skills"; chars "gh"; chars "SKILL.md"] = None.
Proof. split_and!; vm_compute; reflexivity. Qed.

(** Cached results are shown whatever the limit of the call. *)
Lemma cached_results_ignore_limit score_text now visit arrived rm sc q n m results sc' :
  to_lower (trim_space q) ≠ "" → Get now visit (to_lower (trim_space q)) sc = (Some results, sc') →
  (FindSkills score_text now visit arrived rm {[ "query" := JStr q; "limit" := JNum n ]} (Some sc)).1
  = (FindSkills score_text now visit arrived rm {[ "query" := JStr q; "limit" := JNum m ]} (Some sc)).1.
Proof.
  intros Hq Hg. unfold FindSkills.
  assert (∀ k, arg_string_or_empty ({[ "query" := JStr q; "limit" := JNum k ]} : gmap string json) "query" = q)
    as Hk by done.
  rewrite !Hk, bool_decide_eq_false_2 by done. cbv zeta. by rewrite Hg.
Qed.
