(* ===== verification/Agents.v ===== *)
(** * Building agents from the configuration (pkg/agent/instance.go)

    The workspace, the model, the fallbacks and the limits of an agent, and its
    tools: the file tools and the shell tool of its workspace, over one host
    ([FileTools], [ShellTool]). *)
From stdpp Require Import base gmap strings list.
From Stdlib Require Import Ascii ZArith QArith Lia.
From S2P Require Import Prelude GoStrings ProviderTypes Paths Routing Fallback Session AgentContext.
From S2P Require Import ToolBase FileTools ShellTool HostFiles.
#[local] Open Scope nat_scope.

(** ** Configuration *)
Record AgentModelConfig := mk_AgentModelConfig {
  am_Primary : string;
  am_Fallbacks : option (list string);        (* None: nil *)
}.

Record SubagentsConfig := mk_SubagentsConfig {
  su_AllowAgents : option (list string);
  su_Model : option AgentModelConfig;
}.

(** [config.AgentConfig]; what the router reads of it is [Routing.AgentConfig]. *)
Record AgentConfig := mk_AgentConfig {
  ac_ID : string;
  ac_Default : bool;
  ac_Name : string;
  ac_Workspace : string;
  ac_Model : option AgentModelConfig;
  ac_Skills : option (list string);
  ac_Subagents : option SubagentsConfig;
}.

Record AgentDefaults := mk_AgentDefaults {
  ad_Workspace : string;
  ad_RestrictToWorkspace : bool;
  ad_Provider : string;
  ad_ModelName : string;
  ad_Model : string;
  ad_ModelFallbacks : list string;
  ad_MaxTokens : Z;
  ad_Temperature : option Q;
  ad_MaxToolIterations : Z;
}.

Definition GetModelName (d : AgentDefaults) : string :=
  if bool_decide (ad_ModelName d = "") then ad_Model d else ad_ModelName d.

(** ** Resolution *)
Section home.
(** [os.UserHomeDir], empty when it fails. *)
Context (home : string).

Definition expandHome (path : string) : string :=
  match chars path with
  | c :: rest =>
      if bool_decide (c = "~"%char) then
        (if bool_decide (head rest = Some slash) then home +:+ implode rest else home)
      else path
  | [] => path
  end.

(** [filepath.Join(home, ".tinyclaw", name)]. *)
Definition tinyclaw_dir (name : string) : string :=
  if bool_decide (home = "") then Join ".tinyclaw" name else Join (Join home ".tinyclaw") name.

Definition resolveAgentWorkspace (agentCfg : option AgentConfig) (defaults : AgentDefaults) : string :=
  match agentCfg with
  | None => expandHome (ad_Workspace defaults)
  | Some ac =>
      if negb (bool_decide (trim_space (ac_Workspace ac) = ""))
      then expandHome (trim_space (ac_Workspace ac))
      else if ac_Default ac || bool_decide (ac_ID ac = "")
              || bool_decide (NormalizeAgentID (ac_ID ac) = "main")
      then expandHome (ad_Workspace defaults)
      else tinyclaw_dir ("workspace-" +:+ NormalizeAgentID (ac_ID ac))
  end.
End home.

Definition resolveAgentModel (agentCfg : option AgentConfig) (defaults : AgentDefaults) : string :=
  match agentCfg ≫= ac_Model with
  | Some m => if bool_decide (trim_space (am_Primary m) = "") then GetModelName defaults
              else trim_space (am_Primary m)
  | None => GetModelName defaults
  end.

Definition resolveAgentFallbacks (agentCfg : option AgentConfig) (defaults : AgentDefaults) : list string :=
  match (agentCfg ≫= ac_Model) ≫= am_Fallbacks with
  | Some fallbacks => fallbacks
  | None => ad_ModelFallbacks defaults
  end.

(** ** The tools of an agent *)

(** What the tools of one process share: the tree of files, the clock that names
    temporary files, and the working directory. *)
Record host := mk_host {
  hs_fs : fsys;
  hs_nanos : Z;
  hs_cwd : list comp;
}.

Definition with_fs (h : host) (fs : fsys) : host := mk_host fs (hs_nanos h) (hs_cwd h).
Definition tree_of (t : tool_fs) : fsys :=
  match t with Sandboxed s => s_fs s | Hosted h => h_fs h end.

Section instance.
Context {C : Type}.

(** A file tool of a workspace as a tool of the host. *)
Definition on_workspace (workspace : string) (restrict : bool) (tool : Tool tool_fs C) : Tool host C :=
  mk_Tool (t_Name tool) (t_Description tool) (t_Parameters tool)
    (λ args h,
       let '(r, t) := t_Execute tool args (select_fs (hs_fs h) (hs_nanos h) (hs_cwd h) workspace restrict) in
       (r, with_fs h (tree_of t)))
    None None.

Definition file_tools : list (Tool tool_fs C) :=
  [ReadFileTool; WriteFileTool; ListDirTool; EditFileTool; AppendFileTool].

Context (sh : duration → string → string → host → proc * host).
Context (Compile : string → result string Regex.re).

Definition shell_tool (getwd : result string string) (t : ExecTool) : Tool host C :=
  exec_tool hs_fs getwd sh t.

Record AgentInstance := mk_AgentInstance {
  ai_ID : string;
  ai_Name : string;
  ai_Model : string;
  ai_Fallbacks : list string;
  ai_Workspace : string;
  ai_MaxIterations : Z;
  ai_MaxTokens : Z;
  ai_Temperature : Q;
  ai_ContextWindow : Z;
  ai_Sessions : SessionManager;
  ai_ContextBuilder : ContextBuilder;
  ai_Tools : ToolRegistry host C;
  ai_Subagents : option SubagentsConfig;
  ai_SkillsFilter : option (list string);
  ai_Candidates : list FallbackCandidate;
}.

Definition agent_tools (getwd : result string string) (workspace : string) (restrict : bool)
    (exec : option ExecConfig) : ToolRegistry host C :=
  let r := NewToolRegistry in
  let r := Register r (on_workspace workspace restrict ReadFileTool) in
  let r := Register r (on_workspace workspace restrict WriteFileTool) in
  let r := Register r (on_workspace workspace restrict ListDirTool) in
  let r := Register r (shell_tool getwd (NewExecToolWithConfig Compile workspace restrict exec)) in
  let r := Register r (on_workspace workspace restrict EditFileTool) in
  Register r (on_workspace workspace restrict AppendFileTool).

(** [saved]: the session files found under the workspace; the host is returned
    with the directory of the workspace made. *)
Definition NewAgentInstance (home : string) (getwd : result string string) (agentCfg : option AgentConfig)
    (defaults : AgentDefaults) (exec : option ExecConfig) (saved : string → disk) (h : host) :
    AgentInstance * host :=
  let workspace := resolveAgentWorkspace home agentCfg defaults in
  let h := with_fs h (sys_MkdirAll (hs_fs h) (host_view (hs_cwd h)) workspace).1 in
  let model := resolveAgentModel agentCfg defaults in
  let fallbacks := resolveAgentFallbacks agentCfg defaults in
  let sessionsDir := Join workspace "sessions" in
  let maxTokens := if (ad_MaxTokens defaults =? 0)%Z then 8192%Z else ad_MaxTokens defaults in
  (mk_AgentInstance
     (match agentCfg with Some ac => NormalizeAgentID (ac_ID ac) | None => DefaultAgentID end)
     (match agentCfg with Some ac => ac_Name ac | None => "" end)
     model fallbacks workspace
     (if (ad_MaxToolIterations defaults =? 0)%Z then 20%Z else ad_MaxToolIterations defaults)
     maxTokens (default (7 # 10)%Q (ad_Temperature defaults)) maxTokens
     (NewSessionManager sessionsDir (saved sessionsDir)) (NewContextBuilder workspace)
     (agent_tools getwd workspace (ad_RestrictToWorkspace defaults) exec)
     (agentCfg ≫= ac_Subagents) (agentCfg ≫= ac_Skills)
     (ResolveCandidates (mk_ModelConfig model fallbacks) (ad_Provider defaults)), h).
End instance.
Arguments AgentInstance : clear implicits.

(** ** A restricted agent's file tools *)
Section restricted.
Context {C : Type} (sh : duration → string → string → host → proc * host).
Context (Compile : string → result string Regex.re).
Implicit Types (h : host) (args : gmap string json).

Lemma Register_lookup (r : ToolRegistry host C) tool name t :
  Register r tool !! name = Some t → t = tool ∨ r !! name = Some t.
Proof.
  intros H.
  destruct (proj1 (lookup_insert_Some (r : gmap string (Tool host C)) (t_Name tool) name tool t) H)
    as [[_ ->]|[_ H']]; [by left|by right].
Qed.

(** The tools a new agent has, by name. *)
Lemma agent_tools_lookup getwd workspace restrict exec name tool :
  agent_tools (C:=C) sh Compile getwd workspace restrict exec !! name = Some tool →
  tool = shell_tool sh getwd (NewExecToolWithConfig Compile workspace restrict exec)
  ∨ ∃ t, t ∈ file_tools ∧ tool = on_workspace workspace restrict t.
Proof.
  unfold agent_tools, file_tools. intros H.
  do 6 (apply Register_lookup in H as [->|H];
        [first [by left | right; eexists; split; [|reflexivity]; set_solver]|]).
  done.
Qed.

(** What one call of a file tool does to its file system: nothing, or one write. *)
Definition one_write (t t' : tool_fs) : Prop :=
  t' = t ∨ ∃ path data, t' = (WriteFile t path data).1.

Lemma file_tool_writes (tool : Tool tool_fs C) args t :
  tool ∈ file_tools → one_write t (t_Execute tool args t).2.
Proof.
  assert (∀ text (r : tool_fs * option ferror), (finish text r).1 = r.1) as Hfin by (by intros text [? []]).
  unfold file_tools, one_write. rewrite !elem_of_cons, elem_of_nil.
  intros [->|[->|[->|[->|[->|[]]]]]]; cbn [t_Execute ReadFileTool WriteFileTool ListDirTool EditFileTool AppendFileTool];
    unfold reads, writes; cbn [snd]; [by left| |by left| |].
  - destruct (WriteFileTool_Execute t args) as [t' r] eqn:E. cbn [snd].
    unfold WriteFileTool_Execute in E. repeat case_match; simplify_eq; try by left.
    right. eexists _, _. by rewrite <-(Hfin ("File written: " +:+ s)), E.
  - destruct (EditFileTool_Execute t args) as [t' r] eqn:E. cbn [snd].
    unfold EditFileTool_Execute in E. repeat case_match; simplify_eq; try by left.
    apply (f_equal fst) in E. rewrite Hfin in E. cbn [fst] in E. subst t'. unfold editFile.
    destruct (ReadFile t s); [|by left]. destruct (replaceEditContent a s0 s1); [|by left].
    right. by eexists _, _.
  - destruct (AppendFileTool_Execute t args) as [t' r] eqn:E. cbn [snd].
    unfold AppendFileTool_Execute in E. repeat case_match; simplify_eq; try by left.
    apply (f_equal fst) in E. rewrite Hfin in E. cbn [fst] in E. subst t'. unfold appendFile.
    destruct (ReadFile t s); [right; by eexists _, _|]. destruct (IsNotExist _); [|by left].
    right. by eexists _, _.
Qed.

(** C29: the tools of an agent built with the restriction: each is the shell
    tool of its workspace (whose guard [ShellTool] describes) or a file tool,
    and a call of a file tool changes no entry of the tree outside the directory
    the workspace leads to, and none at all when the workspace leads nowhere,
    whatever the arguments. *)
Theorem restricted_agent_confined home getwd agentCfg defaults exec saved h0 name tool args h :
  ad_RestrictToWorkspace defaults = true →
  let a := (NewAgentInstance (C:=C) sh Compile home getwd agentCfg defaults exec saved h0).1 in
  ai_Tools a !! name = Some tool →
  (∃ t, restrictToWorkspace t = true ∧ workingDir t = ai_Workspace a ∧ tool = shell_tool sh getwd t)
  ∨ match OpenRoot (hs_fs h) (hs_cwd h) (ai_Workspace a) with
    | Ok root => agree_outside root (hs_fs h) (hs_fs (t_Execute tool args h).2)
    | Err _ => hs_fs (t_Execute tool args h).2 = hs_fs h
    end.
Proof.
  intros Hr a. subst a. unfold NewAgentInstance. cbv zeta. cbn [fst ai_Tools ai_Workspace]. rewrite Hr.
  set (ws := resolveAgentWorkspace home agentCfg defaults).
  intros [->|(t & Ht & ->)]%agent_tools_lookup.
  { left. exists (NewExecToolWithConfig Compile ws true exec). by split_and!. }
  right.
  set (s := mk_sandboxFs (hs_fs h) (hs_nanos h) (hs_cwd h) ws).
  pose proof (file_tool_writes t args (Sandboxed s) Ht) as Hw.
  assert (hs_fs (t_Execute (on_workspace ws true t) args h).2 = tree_of (t_Execute t args (Sandboxed s)).2) as ->.
  { unfold on_workspace. cbn [t_Execute select_fs]. fold s. by destruct (t_Execute t args (Sandboxed s)). }
  destruct Hw as [->|(path & data & ->)]; [by destruct (OpenRoot _ _ _)|].
  assert (tree_of (WriteFile (Sandboxed s) path data).1 = s_fs (WriteFile s path data).1) as ->
    by (cbn; by destruct (sandbox_WriteFile s path data)).
  destruct (execute s path) as [[root rel]|e] eqn:E.
  - pose proof (sandbox_WriteFile_outside s path data root rel E) as Ho.
    unfold execute in E. change (s_workspace s) with ws in E. change (s_cwd s) with (hs_cwd h) in E.
    change (s_fs s) with (hs_fs h) in *. destruct (bool_decide (ws = "")); [done|].
    destruct (OpenRoot (hs_fs h) (hs_cwd h) ws) as [root'|]; [|done].
    destruct (getSafeRelPath ws path); [|done]. by simplify_eq.
  - rewrite (sandbox_WriteFile_err _ _ _ _ E). by destruct (OpenRoot _ _ _).
Qed.
End restricted.

Definition demo_defaults : AgentDefaults :=
  mk_AgentDefaults "/w" true "openai" "gpt" "" [] 0 None 0.
Definition demo_host : host := mk_host FileTools.demo_tree 7 [].
Definition no_shell (_ : duration) (_ _ : string) (h : host) : proc * host := (NotStarted "", h).

Lemma restricted_agent_confined_witness :
  agree_outside [chars "w"] (hs_fs demo_host)
    (hs_fs (t_Execute (on_workspace (C:=unit) "/w" true WriteFileTool)
              {[ "path" := JStr "out/passwd"; "content" := JStr "x" ]} demo_host).2).
Proof.
  destruct (restricted_agent_confined (C:=unit) no_shell (λ _, Err "") "/root" (Ok "/") None demo_defaults None
              (λ _, ∅) demo_host "write_file" (on_workspace "/w" true WriteFileTool)
              {[ "path" := JStr "out/passwd"; "content" := JStr "x" ]} demo_host eq_refl eq_refl)
    as [(t & _ & _ & H)|H].
  - apply (f_equal t_Name) in H. discriminate H.
  - assert (OpenRoot (hs_fs demo_host) (hs_cwd demo_host) "/w" = Ok [chars "w"]) as E by (vm_compute; reflexivity).
    change (ai_Workspace _) with "/w" in H. rewrite E in H. exact H.
Defined.

(** ** Workspaces *)

(** The agent neither names a workspace nor takes the default one. *)
Definition own_workspace (ac : AgentConfig) : Prop :=
  trim_space (ac_Workspace ac) = "" ∧ ac_Default ac = false ∧ ac_ID ac ≠ ""
  ∧ NormalizeAgentID (ac_ID ac) ≠ "main".

Lemma workspace_ordinary id : ordinary (chars ("workspace-" +:+ NormalizeAgentID id)).
Proof.
  rewrite chars_app. cbn [chars app].
  split_and!; [done|intros [=]|intros [=]|].
  pose proof (form_chars _ (NormalizeAgentID_form id)) as Hf. intros Hin.
  assert (slash ∈ chars (NormalizeAgentID id)) as Hs.
  { change ("w"%char :: ?l) with (chars "workspace-" ++ chars (NormalizeAgentID id)) in Hin.
    apply elem_of_app in Hin as [Hin|Hin]; [exfalso|done]. revert Hin.
    refine (bool_decide_unpack (¬ _) _). by vm_compute. }
  rewrite Forall_forall in Hf. apply Hf in Hs. by apply id_char_facts in Hs as (_ & _ & _ & ? & _).
Qed.

Lemma own_workspace_norm home ac defaults :
  IsAbs home = true → own_workspace ac →
  let w := resolveAgentWorkspace home (Some ac) defaults in
  clean_abs w ∧ norm (chars w) = norm (chars home)
    ++ [chars ".tinyclaw"; chars ("workspace-" +:+ NormalizeAgentID (ac_ID ac))].
Proof.
  intros Hh (Hw & Hd & Hid & Hm). unfold resolveAgentWorkspace. rewrite Hw, Hd.
  rewrite bool_decide_eq_true_2 by done. cbn [negb orb].
  rewrite (bool_decide_eq_false_2 (ac_ID ac = "")) by done.
  rewrite bool_decide_eq_false_2 by done. cbn [orb].
  unfold tinyclaw_dir. rewrite bool_decide_eq_false_2 by (by intros ->).
  assert (ordinary (chars ".tinyclaw")) as Ho.
  { split_and!; [done|done|done|]. refine (bool_decide_unpack (¬ _) _). by vm_compute. }
  destruct (norm_Join_name home ".tinyclaw" Hh Ho) as [[Ha _] Hn].
  destruct (norm_Join_name _ _ Ha (workspace_ordinary (ac_ID ac))) as [Hc Hn'].
  split; [done|]. by rewrite Hn', Hn, <-app_assoc.
Qed.

(** Two agents with different identifiers, neither of which names a
    workspace or takes the default one, work in directories of the home
    directory of which neither contains the other, so nothing is below both. *)
Lemma own_workspaces_disjoint home defaults ac1 ac2 p :
  IsAbs home = true → own_workspace ac1 → own_workspace ac2 →
  NormalizeAgentID (ac_ID ac1) ≠ NormalizeAgentID (ac_ID ac2) →
  let w1 := resolveAgentWorkspace home (Some ac1) defaults in
  let w2 := resolveAgentWorkspace home (Some ac2) defaults in
  norm (chars home) `prefix_of` norm (chars w1) ∧ norm (chars home) `prefix_of` norm (chars w2)
  ∧ ¬ (norm (chars w1) `prefix_of` p ∧ norm (chars w2) `prefix_of` p).
Proof.
  intros Hh H1 H2 Hne. cbv zeta.
  destruct (own_workspace_norm home ac1 defaults Hh H1) as [_ ->].
  destruct (own_workspace_norm home ac2 defaults Hh H2) as [_ ->].
  split_and!; [by eexists|by eexists|]. intros [[k1 ->] [k2 E]]. apply Hne.
  rewrite <-!app_assoc in E. apply app_inv_head in E. injection E as E _.
  rewrite !chars_app in E. apply app_inv_head in E. by apply (inj chars).
Qed.

Lemma own_workspaces_disjoint_witness :
  let ac id := mk_AgentConfig id false "" "" None None None in
  ¬ (norm (chars "/root/.tinyclaw/workspace-a") `prefix_of` norm (chars "/root/.tinyclaw/workspace-b")
     ∧ norm (chars "/root/.tinyclaw/workspace-b") `prefix_of` norm (chars "/root/.tinyclaw/workspace-b"))
  ∧ own_workspace (ac "a").
Proof.
  assert (own_workspace (mk_AgentConfig "a" false "" "" None None None)) as Ha
    by (split_and!; [reflexivity|reflexivity|discriminate|vm_compute; discriminate]).
  assert (own_workspace (mk_AgentConfig "b" false "" "" None None None)) as Hb
    by (split_and!; [reflexivity|reflexivity|discriminate|vm_compute; discriminate]).
  split; [|exact Ha].
  exact (proj2 (proj2 (own_workspaces_disjoint "/root" demo_defaults _ _
    (norm (chars "/root/.tinyclaw/workspace-b")) eq_refl Ha Hb ltac:(vm_compute; discriminate)))).
Defined.

(** A tilde that is not followed by a slash stands for the home directory
    whatever follows: another user's directory becomes this user's home. *)
Lemma tilde_user_is_home home : expandHome home "~bob/agent" = home.
Proof. reflexivity. Qed.

(** Two agents marked as default, or left without an identifier, share the
    default workspace, and with it their sessions and memory. *)
Lemma default_agents_share home defaults ac1 ac2 :
  trim_space (ac_Workspace ac1) = "" → trim_space (ac_Workspace ac2) = "" →
  ac_Default ac1 = true → ac_Default ac2 = true →
  resolveAgentWorkspace home (Some ac1) defaults = resolveAgentWorkspace home (Some ac2) defaults.
Proof. intros H1 H2 H3 H4. unfold resolveAgentWorkspace. by rewrite H1, H2, H3, H4. Qed.
