(* ===== verification/Config.v ===== *)
(** * Configuration of models (pkg/config/config.go, migration.go, defaults.go)

    The provider settings of old configurations, the list of models of new ones,
    the conversion of the first into the second, and loading.  Decoding JSON and
    reading the environment are parameters. *)
From stdpp Require Import base gmap strings list pretty.
From Stdlib Require Import Ascii ZArith Lia.
From S2P Require Import Prelude GoStrings ProviderTypes Agents.
#[local] Open Scope go_scope.

(** ** Data *)
Record ProviderConfig := mk_ProviderConfig {
  pc_APIKey : string;
  pc_APIBase : string;
  pc_Proxy : string;
  pc_AuthMethod : string;
  pc_ConnectMode : string;
}.

(** The embedded [ProviderConfig] and the field of its own. *)
Record OpenAIProviderConfig := mk_OpenAIProviderConfig {
  oc_ProviderConfig :> ProviderConfig;
  oc_WebSearch : bool;
}.

Record ProvidersConfig := mk_ProvidersConfig {
  p_Anthropic : ProviderConfig;
  p_OpenAI : OpenAIProviderConfig;
  p_OpenRouter : ProviderConfig;
  p_Groq : ProviderConfig;
  p_Zhipu : ProviderConfig;
  p_VLLM : ProviderConfig;
  p_Gemini : ProviderConfig;
  p_Nvidia : ProviderConfig;
  p_Ollama : ProviderConfig;
  p_Moonshot : ProviderConfig;
  p_ShengSuanYun : ProviderConfig;
  p_DeepSeek : ProviderConfig;
  p_Cerebras : ProviderConfig;
  p_VolcEngine : ProviderConfig;
  p_GitHubCopilot : ProviderConfig;
  p_Antigravity : ProviderConfig;
  p_Qwen : ProviderConfig;
  p_Mistral : ProviderConfig;
}.

Record ModelConfig := mk_ModelConfig {
  mdl_ModelName : string;
  mdl_Model : string;
  mdl_APIBase : string;
  mdl_APIKey : string;
  mdl_Proxy : string;
  mdl_AuthMethod : string;
  mdl_ConnectMode : string;
  mdl_Workspace : string;
  mdl_RPM : Z;
  mdl_MaxTokensField : string;
}.

#[export] Instance ModelConfig_eq_dec : EqDecision ModelConfig.
Proof. solve_decision. Defined.

(** The sections of [Config] that decide which model is asked and how. *)
Record Config := mk_Config {
  cfg_Defaults : AgentDefaults;              (* Agents.Defaults *)
  cfg_Providers : ProvidersConfig;
  cfg_ModelList : list ModelConfig;
}.

Definition with_ModelList (cfg : Config) (l : list ModelConfig) : Config :=
  mk_Config (cfg_Defaults cfg) (cfg_Providers cfg) l.

(** Zero values. *)
Definition no_provider : ProviderConfig := mk_ProviderConfig "" "" "" "" "".
Definition no_openai : OpenAIProviderConfig := mk_OpenAIProviderConfig no_provider false.
Definition no_providers : ProvidersConfig :=
  mk_ProvidersConfig no_provider no_openai no_provider no_provider no_provider no_provider no_provider
    no_provider no_provider no_provider no_provider no_provider no_provider no_provider no_provider
    no_provider no_provider no_provider.
Definition no_defaults : AgentDefaults := mk_AgentDefaults "" false "" "" "" [] 0 None 0.
Definition zero_Config : Config := mk_Config no_defaults no_providers [].

Definition blank (s : string) : bool := bool_decide (s = "").

(** Every provider of a configuration, in the order in which the code lists
    them. *)
Definition all_providers (p : ProvidersConfig) : list ProviderConfig :=
  [p_Anthropic p; p_OpenAI p : ProviderConfig; p_OpenRouter p; p_Groq p; p_Zhipu p; p_VLLM p;
   p_Gemini p; p_Nvidia p; p_Ollama p; p_Moonshot p; p_ShengSuanYun p; p_DeepSeek p; p_Cerebras p;
   p_VolcEngine p; p_GitHubCopilot p; p_Antigravity p; p_Qwen p; p_Mistral p].

Definition IsEmpty (p : ProvidersConfig) : bool :=
  forallb (λ c, blank (pc_APIKey c) && blank (pc_APIBase c)) (all_providers p).

Definition HasProvidersConfig (c : Config) : bool :=
  existsb (λ v, negb (blank (pc_APIKey v)) || negb (blank (pc_APIBase v)))
    (all_providers (cfg_Providers c)).

Definition Validate (c : ModelConfig) : result string unit :=
  if blank (mdl_ModelName c) then Err "model_name is required"
  else if blank (mdl_Model c) then Err "model is required"
  else Ok tt.

Fixpoint validate_from (i : nat) (l : list ModelConfig) : result string unit :=
  match l with
  | [] => Ok tt
  | m :: l' =>
      match Validate m with
      | Err e => Err ("model_list[" +:+ pretty i +:+ "]: " +:+ e)
      | Ok _ => validate_from (S i) l'
      end
  end.
Definition ValidateModelList (c : Config) : result string unit := validate_from 0 (cfg_ModelList c).

Definition GetAPIKey (c : Config) : string :=
  let v := cfg_Providers c in
  if negb (blank (pc_APIKey (p_OpenRouter v))) then pc_APIKey (p_OpenRouter v)
  else if negb (blank (pc_APIKey (p_Anthropic v))) then pc_APIKey (p_Anthropic v)
  else if negb (blank (pc_APIKey (p_OpenAI v))) then pc_APIKey (p_OpenAI v)
  else if negb (blank (pc_APIKey (p_Gemini v))) then pc_APIKey (p_Gemini v)
  else if negb (blank (pc_APIKey (p_Zhipu v))) then pc_APIKey (p_Zhipu v)
  else if negb (blank (pc_APIKey (p_Groq v))) then pc_APIKey (p_Groq v)
  else if negb (blank (pc_APIKey (p_VLLM v))) then pc_APIKey (p_VLLM v)
  else if negb (blank (pc_APIKey (p_ShengSuanYun v))) then pc_APIKey (p_ShengSuanYun v)
  else if negb (blank (pc_APIKey (p_Cerebras v))) then pc_APIKey (p_Cerebras v)
  else "".

Definition GetAPIBase (c : Config) : string :=
  let v := cfg_Providers c in
  if negb (blank (pc_APIKey (p_OpenRouter v))) then
    if negb (blank (pc_APIBase (p_OpenRouter v))) then pc_APIBase (p_OpenRouter v)
    else "https://openrouter.ai/api/v1"
  else if negb (blank (pc_APIKey (p_Zhipu v))) then pc_APIBase (p_Zhipu v)
  else if negb (blank (pc_APIKey (p_VLLM v))) && negb (blank (pc_APIBase (p_VLLM v)))
  then pc_APIBase (p_VLLM v)
  else "".

(** [expandHome] of pkg/agent/instance.go has the same body. *)
Definition WorkspacePath (home : string) (c : Config) : string :=
  expandHome home (ad_Workspace (cfg_Defaults c)).

(** ** Looking up a model *)
Definition findMatches (c : Config) (modelName : string) : list ModelConfig :=
  filter (λ m, mdl_ModelName m = modelName) (cfg_ModelList c).

(** [rrCounter] is a counter of 64 bits shared by all lookups: a lookup takes its
    value and returns the new one.  The index is below the length, so the second
    branch of the last match is not reached ([GetModelConfig_iff]). *)
Definition GetModelConfig (c : Config) (modelName : string) (rrCounter : N) :
    result string ModelConfig * N :=
  match findMatches c modelName with
  | [] => (Err ("model " +:+ modelName +:+ " not found in model_list or providers"), rrCounter)
  | [m] => (Ok m, rrCounter)
  | matches =>
      let rrCounter := ((rrCounter + 1) mod 2 ^ 64)%N in
      let idx := N.to_nat (rrCounter mod N.of_nat (length matches)) in
      (match matches !! idx with Some m => Ok m | None => Err "index out of range" end, rrCounter)
  end.

(** Lookups one after the other. *)
Fixpoint lookups (c : Config) (names : list string) (rrCounter : N) : list (result string ModelConfig) :=
  match names with
  | [] => []
  | name :: names =>
      let '(r, rrCounter) := GetModelConfig c name rrCounter in r :: lookups c names rrCounter
  end.

(** ** The conversion of provider settings *)
Definition buildModelWithProtocol (protocol model : string) : string :=
  if contains model "/" then model else protocol +:+ "/" +:+ model.

Record providerMigrationConfig := mk_providerMigrationConfig {
  pm_providerNames : list string;
  pm_protocol : string;
  pm_buildConfig : ProvidersConfig → option ModelConfig;     (* None: (ModelConfig{}, false) *)
}.

(** [if c.APIKey == "" && c.APIBase == "" { return ModelConfig{}, false }]. *)
Definition if_keyed (c : ProviderConfig) (mc : ModelConfig) : option ModelConfig :=
  if blank (pc_APIKey c) && blank (pc_APIBase c) then None else Some mc.

(** [ModelConfig{ModelName, Model, APIKey, APIBase, Proxy}]. *)
Definition http_model (name model : string) (c : ProviderConfig) : ModelConfig :=
  mk_ModelConfig name model (pc_APIBase c) (pc_APIKey c) (pc_Proxy c) "" "" "" 0 "".

(** With [AuthMethod] as well. *)
Definition http_auth_model (name model : string) (c : ProviderConfig) : ModelConfig :=
  mk_ModelConfig name model (pc_APIBase c) (pc_APIKey c) (pc_Proxy c) (pc_AuthMethod c) "" "" 0 "".

Definition migrate_openai : providerMigrationConfig :=
  mk_providerMigrationConfig ["openai"; "gpt"] "openai"
    (λ p, if_keyed (p_OpenAI p) (http_auth_model "openai" "openai/gpt-5.2" (p_OpenAI p))).
Definition migrate_anthropic : providerMigrationConfig :=
  mk_providerMigrationConfig ["anthropic"; "claude"] "anthropic"
    (λ p, if_keyed (p_Anthropic p) (http_auth_model "anthropic" "anthropic/claude-sonnet-4.6" (p_Anthropic p))).
Definition migrate_openrouter : providerMigrationConfig :=
  mk_providerMigrationConfig ["openrouter"] "openrouter"
    (λ p, if_keyed (p_OpenRouter p) (http_model "openrouter" "openrouter/auto" (p_OpenRouter p))).
Definition migrate_groq : providerMigrationConfig :=
  mk_providerMigrationConfig ["groq"] "groq"
    (λ p, if_keyed (p_Groq p) (http_model "groq" "groq/llama-3.1-70b-versatile" (p_Groq p))).
Definition migrate_zhipu : providerMigrationConfig :=
  mk_providerMigrationConfig ["zhipu"; "glm"] "zhipu"
    (λ p, if_keyed (p_Zhipu p) (http_model "zhipu" "zhipu/glm-4" (p_Zhipu p))).
Definition migrate_vllm : providerMigrationConfig :=
  mk_providerMigrationConfig ["vllm"] "vllm"
    (λ p, if_keyed (p_VLLM p) (http_model "vllm" "vllm/auto" (p_VLLM p))).
Definition migrate_gemini : providerMigrationConfig :=
  mk_providerMigrationConfig ["gemini"; "google"] "gemini"
    (λ p, if_keyed (p_Gemini p) (http_model "gemini" "gemini/gemini-pro" (p_Gemini p))).
Definition migrate_nvidia : providerMigrationConfig :=
  mk_providerMigrationConfig ["nvidia"] "nvidia"
    (λ p, if_keyed (p_Nvidia p) (http_model "nvidia" "nvidia/meta/llama-3.1-8b-instruct" (p_Nvidia p))).
Definition migrate_ollama : providerMigrationConfig :=
  mk_providerMigrationConfig ["ollama"] "ollama"
    (λ p, if_keyed (p_Ollama p) (http_model "ollama" "ollama/llama3" (p_Ollama p))).
Definition migrate_moonshot : providerMigrationConfig :=
  mk_providerMigrationConfig ["moonshot"; "kimi"] "moonshot"
    (λ p, if_keyed (p_Moonshot p) (http_model "moonshot" "moonshot/kimi" (p_Moonshot p))).
Definition migrate_shengsuanyun : providerMigrationConfig :=
  mk_providerMigrationConfig ["shengsuanyun"] "shengsuanyun"
    (λ p, if_keyed (p_ShengSuanYun p) (http_model "shengsuanyun" "shengsuanyun/auto" (p_ShengSuanYun p))).
Definition migrate_deepseek : providerMigrationConfig :=
  mk_providerMigrationConfig ["deepseek"] "deepseek"
    (λ p, if_keyed (p_DeepSeek p) (http_model "deepseek" "deepseek/deepseek-chat" (p_DeepSeek p))).
Definition migrate_cerebras : providerMigrationConfig :=
  mk_providerMigrationConfig ["cerebras"] "cerebras"
    (λ p, if_keyed (p_Cerebras p) (http_model "cerebras" "cerebras/llama-3.3-70b" (p_Cerebras p))).
Definition migrate_volcengine : providerMigrationConfig :=
  mk_providerMigrationConfig ["volcengine"; "doubao"] "volcengine"
    (λ p, if_keyed (p_VolcEngine p) (http_model "volcengine" "volcengine/doubao-pro" (p_VolcEngine p))).
Definition migrate_github_copilot : providerMigrationConfig :=
  mk_providerMigrationConfig ["github_copilot"; "copilot"] "github-copilot"
    (λ p, let c := p_GitHubCopilot p in
          if blank (pc_APIKey c) && blank (pc_APIBase c) && blank (pc_ConnectMode c) then None
          else Some (mk_ModelConfig "github-copilot" "github-copilot/gpt-5.2" (pc_APIBase c) "" "" ""
                       (pc_ConnectMode c) "" 0 "")).
Definition migrate_antigravity : providerMigrationConfig :=
  mk_providerMigrationConfig ["antigravity"] "antigravity"
    (λ p, let c := p_Antigravity p in
          if blank (pc_APIKey c) && blank (pc_AuthMethod c) then None
          else Some (mk_ModelConfig "antigravity" "antigravity/gemini-2.0-flash" "" (pc_APIKey c) ""
                       (pc_AuthMethod c) "" "" 0 "")).
Definition migrate_qwen : providerMigrationConfig :=
  mk_providerMigrationConfig ["qwen"; "tongyi"] "qwen"
    (λ p, if_keyed (p_Qwen p) (http_model "qwen" "qwen/qwen-max" (p_Qwen p))).
Definition migrate_mistral : providerMigrationConfig :=
  mk_providerMigrationConfig ["mistral"] "mistral"
    (λ p, if_keyed (p_Mistral p) (http_model "mistral" "mistral/mistral-small-latest" (p_Mistral p))).

Definition migrations : list providerMigrationConfig :=
  [migrate_openai; migrate_anthropic; migrate_openrouter; migrate_groq; migrate_zhipu; migrate_vllm;
   migrate_gemini; migrate_nvidia; migrate_ollama; migrate_moonshot; migrate_shengsuanyun;
   migrate_deepseek; migrate_cerebras; migrate_volcengine; migrate_github_copilot;
   migrate_antigravity; migrate_qwen; migrate_mistral].

Definition set_Model (mc : ModelConfig) (model : string) : ModelConfig :=
  mk_ModelConfig (mdl_ModelName mc) model (mdl_APIBase mc) (mdl_APIKey mc) (mdl_Proxy mc)
    (mdl_AuthMethod mc) (mdl_ConnectMode mc) (mdl_Workspace mc) (mdl_RPM mc) (mdl_MaxTokensField mc).
Definition set_ModelName (mc : ModelConfig) (name : string) : ModelConfig :=
  mk_ModelConfig name (mdl_Model mc) (mdl_APIBase mc) (mdl_APIKey mc) (mdl_Proxy mc)
    (mdl_AuthMethod mc) (mdl_ConnectMode mc) (mdl_Workspace mc) (mdl_RPM mc) (mdl_MaxTokensField mc).

(** The loop over the migrations; [applied] is [legacyModelNameApplied]. *)
Fixpoint convert (userProvider userModel : string) (p : ProvidersConfig) (applied : bool)
    (ms : list providerMigrationConfig) : list ModelConfig :=
  match ms with
  | [] => []
  | m :: ms =>
      match pm_buildConfig m p with
      | None => convert userProvider userModel p applied ms
      | Some mc =>
          if bool_decide (userProvider ∈ pm_providerNames m) && negb (blank userModel) then
            set_Model mc (buildModelWithProtocol (pm_protocol m) userModel)
              :: convert userProvider userModel p applied ms
          else if blank userProvider && negb (blank userModel) && negb applied then
            set_Model (set_ModelName mc userModel) (buildModelWithProtocol (pm_protocol m) userModel)
              :: convert userProvider userModel p true ms
          else mc :: convert userProvider userModel p applied ms
      end
  end.

Definition ConvertProvidersToModelList (cfg : Config) : list ModelConfig :=
  convert (to_lower (ad_Provider (cfg_Defaults cfg))) (GetModelName (cfg_Defaults cfg))
    (cfg_Providers cfg) false migrations.
Arguments ConvertProvidersToModelList : simpl never.
Arguments migrations : simpl never.

(** ** Defaults and loading *)

(** An entry of the default list: name, model, API base, API key. *)
Definition default_entry (name model base key : string) : ModelConfig :=
  mk_ModelConfig name model base key "" "" "" "" 0 "".

Definition default_models : list ModelConfig :=
  [default_entry "glm-4.7" "zhipu/glm-4.7" "https://open.bigmodel.cn/api/paas/v4" "";
   default_entry "gpt-5.2" "openai/gpt-5.2" "https://api.openai.com/v1" "";
   default_entry "claude-opus-4-6" "anthropic/claude-opus-4-6" "https://api.anthropic.com/v1" "";
   default_entry "claude-sonnet-4.6" "anthropic/claude-sonnet-4.6" "https://api.anthropic.com/v1" "";
   default_entry "deepseek-chat" "deepseek/deepseek-chat" "https://api.deepseek.com/v1" "";
   default_entry "gemini-2.0-flash" "gemini/gemini-2.0-flash-exp"
     "https://generativelanguage.googleapis.com/v1beta" "";
   default_entry "qwen-plus" "qwen/qwen-plus" "https://dashscope.aliyuncs.com/compatible-mode/v1" "";
   default_entry "moonshot-v1-8k" "moonshot/moonshot-v1-8k" "https://api.moonshot.cn/v1" "";
   default_entry "llama-3.3-70b" "groq/llama-3.3-70b-versatile" "https://api.groq.com/openai/v1" "";
   default_entry "openrouter-auto" "openrouter/auto" "https://openrouter.ai/api/v1" "";
   default_entry "openrouter-gpt-5.2" "openrouter/openai/gpt-5.2" "https://openrouter.ai/api/v1" "";
   default_entry "nemotron-4-340b" "nvidia/nemotron-4-340b-instruct"
     "https://integrate.api.nvidia.com/v1" "";
   default_entry "cerebras-llama-3.3-70b" "cerebras/llama-3.3-70b" "https://api.cerebras.ai/v1" "";
   default_entry "doubao-pro" "volcengine/doubao-pro-32k" "https://ark.cn-beijing.volces.com/api/v3" "";
   default_entry "deepseek-v3" "shengsuanyun/deepseek-v3" "https://api.shengsuanyun.com/v1" "";
   mk_ModelConfig "gemini-flash" "antigravity/gemini-3-flash" "" "" "" "oauth" "" "" 0 "";
   mk_ModelConfig "copilot-gpt-5.2" "github-copilot/gpt-5.2" "http://localhost:4321" "" "" "oauth" "" "" 0 "";
   default_entry "llama3" "ollama/llama3" "http://localhost:11434/v1" "ollama";
   default_entry "mistral-small" "mistral/mistral-small-latest" "https://api.mistral.ai/v1" "";
   default_entry "local-model" "vllm/custom-model" "http://localhost:8000/v1" ""].

Definition DefaultConfig : Config :=
  mk_Config
    (mk_AgentDefaults "~/.tinyclaw/workspace" true "" "" "claude-opus-4-6" [] 8192 None 20)
    (mk_ProvidersConfig no_provider (mk_OpenAIProviderConfig no_provider true) no_provider no_provider
       no_provider no_provider no_provider no_provider no_provider no_provider no_provider no_provider
       no_provider no_provider no_provider no_provider no_provider no_provider)
    default_models.

(** What [os.ReadFile] answers. *)
Inductive read_result (D : Type) :=
| NotExist
| ReadFailed (e : string)
| Contents (data : D).
Arguments NotExist {D}.
Arguments ReadFailed {D} e.
Arguments Contents {D} data.

Section loading.
Context {D : Type}.
(** [json.Unmarshal(data, cfg)] decodes over what [cfg] holds; [env.Parse]
    overwrites the fields whose variables are set. *)
Context (json_Unmarshal : D → Config → result string Config).
Context (env_Parse : Config → result string Config).

(** From the document to the configuration, as both loaders do it; [parse_error]
    is the text an error of the decoder is wrapped in. *)
Definition config_of (parse_error : string) (data : D) : result string Config :=
  match json_Unmarshal data zero_Config with
  | Err e => Err (parse_error +:+ e)
  | Ok tmp =>
      let cfg := if decide (0 < length (cfg_ModelList tmp)) then with_ModelList DefaultConfig []
                 else DefaultConfig in
      match json_Unmarshal data cfg with
      | Err e => Err (parse_error +:+ e)
      | Ok cfg =>
          let? cfg := env_Parse cfg in
          let cfg := if decide (length (cfg_ModelList cfg) = 0) then
                       (if HasProvidersConfig cfg
                        then with_ModelList cfg (ConvertProvidersToModelList cfg) else cfg)
                     else cfg in
          let? _ := ValidateModelList cfg in Ok cfg
      end
  end.

Definition LoadConfig (file : read_result D) : result string Config :=
  match file with
  | NotExist => Ok DefaultConfig
  | ReadFailed e => Err e
  | Contents data => config_of "" data
  end.

(** [dhall-to-json] is looked up and run: [None] when it is not installed. *)
Definition LoadDhallConfig (path : string) (lookPath : option (result string unit))
    (output : result (string * string) D) : result string Config :=
  match lookPath with
  | None => Err "dhall-to-json not available"
  | Some (Err e) => Err ("dhall-to-json lookup: " +:+ e)
  | Some (Ok _) =>
      match output with
      | Err (e, stderr) => Err ("dhall-to-json failed for " +:+ path +:+ ": " +:+ e +:+ String newline_char stderr)
      | Ok out => config_of "error parsing dhall-to-json output: " out
      end
  end.
End loading.

(** ** Lookups *)
Lemma blank_false s : blank s = false ↔ s ≠ "".
Proof. unfold blank. by rewrite bool_decide_eq_false. Qed.
Lemma blank_true s : blank s = true ↔ s = "".
Proof. unfold blank. by rewrite bool_decide_eq_true. Qed.

Lemma elem_of_findMatches c name m :
  m ∈ findMatches c name ↔ mdl_ModelName m = name ∧ m ∈ cfg_ModelList c.
Proof. unfold findMatches. by rewrite list_elem_of_filter. Qed.

(** With two entries or more a lookup answers the entry at the next value of the
    counter, modulo their number. *)
Lemma GetModelConfig_many c name ctr :
  1 < length (findMatches c name) →
  let ctr' := ((ctr + 1) mod 2 ^ 64)%N in
  ∃ m, findMatches c name !! N.to_nat (ctr' mod N.of_nat (length (findMatches c name))) = Some m ∧
       GetModelConfig c name ctr = (Ok m, ctr').
Proof.
  intros Hlen ctr'. unfold GetModelConfig. fold ctr'. revert Hlen.
  destruct (findMatches c name) as [|m1 [|m2 ms]]; [cbn; lia..|]. intros _.
  assert (is_Some ((m1 :: m2 :: ms) !! N.to_nat (ctr' mod N.of_nat (length (m1 :: m2 :: ms))))) as [m Hm].
  { apply lookup_lt_is_Some.
    set (n := length _). assert (0 < n) by (unfold n; cbn; lia).
    pose proof (N.mod_lt ctr' (N.of_nat n)). lia. }
  exists m. split; [done|]. cbv zeta. by rewrite Hm.
Qed.

(** A lookup answers an entry of the list with the name that is asked for when
    there is one, whatever the counter; it fails exactly when there is none. *)
Lemma GetModelConfig_iff c name ctr :
  (∀ m, (GetModelConfig c name ctr).1 = Ok m → m ∈ findMatches c name) ∧
  ((∃ e, (GetModelConfig c name ctr).1 = Err e) ↔ findMatches c name = []).
Proof.
  destruct (decide (1 < length (findMatches c name))) as [Hlen|Hlen].
  - destruct (GetModelConfig_many c name ctr Hlen) as (m & Hm & ->). split; [|split].
    + intros ? [= <-]. by eapply list_elem_of_lookup_2.
    + by intros [? ?].
    + intros E. rewrite E in Hlen. cbn in Hlen. lia.
  - unfold GetModelConfig.
    destruct (findMatches c name) as [|m [|]]; cbn in *; [|..|lia].
    + split; [done|]. split; [done|]. eauto.
    + split; [intros ? [= <-]; set_solver|]. by split; [intros []|].
Qed.

Lemma GetModelConfig_nil c name ctr :
  cfg_ModelList c = [] → ∃ e, GetModelConfig c name ctr = (Err e, ctr).
Proof. intros H. unfold GetModelConfig, findMatches. rewrite H. eexists. reflexivity. Qed.

Lemma lookups_cons c name names ctr :
  lookups c (name :: names) ctr =
  (GetModelConfig c name ctr).1 :: lookups c names (GetModelConfig c name ctr).2.
Proof. cbn. by destruct (GetModelConfig c name ctr). Qed.

(** The answers to repeated lookups of one name. *)
Lemma lookups_replicate c name k ctr i :
  1 < length (findMatches c name) → (ctr + N.of_nat k < 2 ^ 64)%N → i < k →
  ∃ m, findMatches c name !! ((N.to_nat ctr + S i) mod length (findMatches c name)) = Some m ∧
       lookups c (replicate k name) ctr !! i = Some (Ok m).
Proof.
  intros Hlen. revert ctr i. induction k as [|k IH]; intros ctr i Hctr Hi; [lia|].
  destruct (GetModelConfig_many c name ctr Hlen) as (m & Hm & E).
  change (replicate (S k) name) with (name :: replicate k name). rewrite lookups_cons, E. cbn [fst snd].
  rewrite (N.mod_small (ctr + 1)) in Hm |- * by lia. destruct i as [|i].
  - exists m. split; [|done]. rewrite N2Nat.inj_mod, Nat2N.id, N2Nat.inj_add in Hm.
    by rewrite Nat.add_1_r in Hm |- *.
  - destruct (IH (ctr + 1)%N i ltac:(lia) ltac:(lia)) as (m' & Hm' & E'). exists m'.
    split; [|done]. rewrite <-Hm'. do 2 f_equal. lia.
Qed.

Lemma rotate_perm {A} n (l : list A) : rotate n l ≡ₚ l.
Proof. unfold rotate. rewrite (Permutation_app_comm (drop _ _)). by rewrite take_drop. Qed.

Lemma length_lookups c names ctr : length (lookups c names ctr) = length names.
Proof.
  revert ctr. induction names as [|name names IH]; intros ctr; [done|].
  rewrite lookups_cons. cbn. by rewrite IH.
Qed.

Lemma lookups_rotate c name ctr :
  let n := length (findMatches c name) in
  1 < n → (ctr + N.of_nat n < 2 ^ 64)%N →
  lookups c (replicate n name) ctr = Ok <$> rotate (S (N.to_nat ctr)) (findMatches c name).
Proof.
  intros n Hn Hctr. apply (list_eq_same_length _ _ n).
  - by rewrite length_fmap, length_rotate.
  - by rewrite length_lookups, length_replicate.
  - intros i x y Hi Hx Hy.
    destruct (lookups_replicate c name n ctr i Hn Hctr Hi) as (m & Hm & Hl).
    rewrite list_lookup_fmap, lookup_rotate_r in Hy by done.
    unfold rotate_nat_add in Hy.
    replace (Z.to_nat _) with ((N.to_nat ctr + S i) mod n) in Hy.
    2: { rewrite <-(Nat2Z.id ((N.to_nat ctr + S i) mod n)), Nat2Z.inj_mod. do 2 f_equal. lia. }
    fold n in Hm. rewrite Hm in Hy. cbn in Hy. congruence.
Qed.

(** C36: as many lookups of a name as it has entries, with no other lookup in
    between and no wrap of the counter, answer every entry exactly once. *)
Theorem round_robin_fair c name ctr :
  let n := length (findMatches c name) in
  1 < n → (ctr + N.of_nat n < 2 ^ 64)%N →
  lookups c (replicate n name) ctr ≡ₚ Ok <$> findMatches c name.
Proof. intros n Hn Hctr. unfold n. rewrite lookups_rotate by done. by rewrite rotate_perm. Qed.

Definition balanced : Config :=
  with_ModelList DefaultConfig
    [default_entry "fast" "groq/a" "" "k1"; default_entry "deep" "openai/b" "" "k2";
     default_entry "fast" "groq/a" "" "k3"; default_entry "deep" "openai/b" "" "k4"].

Lemma round_robin_fair_witness :
  lookups balanced ["fast"; "fast"] 7 ≡ₚ
  [Ok (default_entry "fast" "groq/a" "" "k1"); Ok (default_entry "fast" "groq/a" "" "k3")].
Proof. apply (round_robin_fair balanced "fast" 7); [vm_compute; lia|reflexivity]. Defined.

(** A lookup of a name with two entries, by the parity of the counter. *)
Lemma GetModelConfig_two c name ctr m :
  length (findMatches c name) = 2 → (ctr + 1 < 2 ^ 64)%N →
  findMatches c name !! ((N.to_nat ctr + 1) mod 2) = Some m →
  GetModelConfig c name ctr = (Ok m, (ctr + 1)%N).
Proof.
  intros Hlen Hctr Hm. destruct (GetModelConfig_many c name ctr ltac:(lia)) as (m' & Hm' & ->).
  rewrite Hlen in Hm'. rewrite (N.mod_small (ctr + 1)) in Hm' |- * by lia.
  rewrite N2Nat.inj_mod, Nat2N.id, N2Nat.inj_add in Hm'.
  assert (Some m' = Some m) as [= ->] by (by rewrite <-Hm', <-Hm). done.
Qed.

Lemma lookups_alternate c a b ma mb k ctr :
  length (findMatches c a) = 2 → length (findMatches c b) = 2 →
  findMatches c a !! ((N.to_nat ctr + 1) mod 2) = Some ma →
  findMatches c b !! ((N.to_nat ctr + 2) mod 2) = Some mb →
  (ctr + N.of_nat (2 * k) < 2 ^ 64)%N →
  lookups c (mjoin (replicate k [a; b])) ctr = mjoin (replicate k [Ok ma; Ok mb]).
Proof.
  intros Ha Hb. revert ctr. induction k as [|k IH]; intros ctr Hma Hmb Hctr; [done|].
  assert (∀ n, (n + 2) mod 2 = n mod 2) as Hmod.
  { intros n. by rewrite <-(Nat.Div0.add_mod_idemp_r n 2), Nat.Div0.mod_same, Nat.add_0_r. }
  change (mjoin (replicate (S k) [a; b])) with (a :: b :: mjoin (replicate k [a; b])).
  rewrite !lookups_cons, (GetModelConfig_two c a ctr ma) by (done || lia). cbn [fst snd].
  rewrite (GetModelConfig_two c b (ctr + 1) mb); [|done|lia|].
  2: { rewrite <-Hmb. do 2 f_equal. lia. }
  cbn [fst snd]. rewrite (IH (ctr + 1 + 1)%N); [done|..|lia].
  - rewrite <-Hma, <-(Hmod (N.to_nat ctr + 1)). do 2 f_equal. lia.
  - rewrite <-Hmb, <-(Hmod (N.to_nat ctr + 2)). do 2 f_equal. lia.
Qed.

(** Finding: the counter is shared by all names.  When lookups of two names with
    two entries each alternate, every lookup of one name answers the same entry. *)
Lemma alternating_lookups_pinned c a b ctr k :
  length (findMatches c a) = 2 → length (findMatches c b) = 2 →
  (ctr + N.of_nat (2 * k) < 2 ^ 64)%N →
  ∃ ma mb, lookups c (mjoin (replicate k [a; b])) ctr = mjoin (replicate k [Ok ma; Ok mb]).
Proof.
  intros Ha Hb Hctr.
  assert (∀ l : list ModelConfig, ∀ n, length l = 2 → is_Some (l !! (n mod 2))) as Hsome.
  { intros l n Hl. apply lookup_lt_is_Some. rewrite Hl. by apply Nat.mod_upper_bound. }
  destruct (Hsome _ (N.to_nat ctr + 1) Ha) as [ma Hma].
  destruct (Hsome _ (N.to_nat ctr + 2) Hb) as [mb Hmb].
  exists ma, mb. by apply lookups_alternate.
Qed.

(** ** What the conversion makes *)

(** The providers that are configured, with the entry each migration builds. *)
Definition configured (p : ProvidersConfig) (ms : list providerMigrationConfig) :
    list (providerMigrationConfig * ModelConfig) :=
  omap (λ m, (m,.) <$> pm_buildConfig m p) ms.

(** An entry of the result is the entry built by a migration, with the model of
    the user under the name of the provider, or under its own name. *)
Inductive converted (userModel : string) : providerMigrationConfig * ModelConfig → ModelConfig → Prop :=
| converted_default m mc : converted userModel (m, mc) mc
| converted_model m mc :
    userModel ≠ "" →
    converted userModel (m, mc) (set_Model mc (buildModelWithProtocol (pm_protocol m) userModel))
| converted_name m mc :
    userModel ≠ "" →
    converted userModel (m, mc)
      (set_Model (set_ModelName mc userModel) (buildModelWithProtocol (pm_protocol m) userModel)).

Lemma convert_converted up um p applied ms :
  Forall2 (converted um) (configured p ms) (convert up um p applied ms).
Proof.
  revert applied. induction ms as [|m ms IH]; intros applied; [constructor|].
  cbn. destruct (pm_buildConfig m p) as [mc|]; cbn; [|apply IH].
  destruct (bool_decide (up ∈ pm_providerNames m) && negb (blank um)) eqn:E;
    [|destruct (blank up && negb (blank um) && negb applied) eqn:E'];
    (constructor; [|apply IH]); bool_nums; constructor; by apply blank_false.
Qed.

(** With an explicit provider the names stay those of the migrations. *)
Lemma convert_names up um p applied ms :
  up ≠ "" →
  (mdl_ModelName <$> convert up um p applied ms) = (mdl_ModelName ∘ snd <$> configured p ms).
Proof.
  intros Hup. revert applied. induction ms as [|m ms IH]; intros applied; [done|].
  cbn. destruct (pm_buildConfig m p) as [mc|]; cbn; [|apply IH].
  rewrite (proj2 (blank_false up)) by done. cbn.
  destruct (_ && _); cbn; by rewrite IH.
Qed.

(** Without one, the first entry has the name and the model of the user, the others
    are the entries of the migrations. *)
Lemma convert_rest um p ms :
  "" ∉ mjoin (pm_providerNames <$> ms) →
  convert "" um p true ms = snd <$> configured p ms.
Proof.
  induction ms as [|m ms IH]; intros Hms; [done|].
  cbn in Hms. rewrite elem_of_app in Hms. cbn.
  destruct (pm_buildConfig m p) as [mc|]; cbn; [|apply IH; tauto].
  rewrite bool_decide_eq_false_2 by tauto. cbn. rewrite andb_false_r, IH by tauto. done.
Qed.

Lemma convert_first um p ms m mc rest :
  "" ∉ mjoin (pm_providerNames <$> ms) → um ≠ "" → configured p ms = (m, mc) :: rest →
  convert "" um p false ms =
  set_Model (set_ModelName mc um) (buildModelWithProtocol (pm_protocol m) um) :: (snd <$> rest).
Proof.
  intros Hms Hum. induction ms as [|m' ms IH]; intros Hc; [done|].
  cbn in Hms. rewrite elem_of_app in Hms. cbn in Hc |- *.
  destruct (pm_buildConfig m' p) as [mc'|]; cbn in Hc; [|apply IH; tauto].
  injection Hc as -> -> <-.
  rewrite bool_decide_eq_false_2 by tauto. cbn.
  rewrite (proj2 (blank_false um)) by done. cbn. by rewrite convert_rest by tauto.
Qed.

Lemma no_blank_name : "" ∉ mjoin (pm_providerNames <$> migrations).
Proof. apply (bool_decide_unpack _). by vm_compute. Qed.

Lemma if_keyed_Some c mc mc' : if_keyed c mc = Some mc' → mc' = mc.
Proof. unfold if_keyed. case_match; congruence. Qed.

(** The entry of a migration has a name, and a model that starts with its protocol. *)
Definition builds_own_protocol (m : providerMigrationConfig) : Prop :=
  ∀ p mc, pm_buildConfig m p = Some mc →
    mdl_ModelName mc = pm_protocol m ∧ ∃ id, mdl_Model mc = pm_protocol m +:+ "/" +:+ id.

Lemma migrations_build : Forall builds_own_protocol migrations.
Proof.
  unfold migrations, builds_own_protocol.
  repeat (apply Forall_cons; split); try apply Forall_nil; try done; intros p mc; cbn;
    unfold if_keyed; case_match; intros [=]; subst mc; (split; [done|eexists; reflexivity]).
Qed.

Lemma elem_of_configured p ms m mc :
  (m, mc) ∈ configured p ms → m ∈ ms ∧ pm_buildConfig m p = Some mc.
Proof.
  unfold configured. rewrite list_elem_of_omap. intros (m' & Hm & Hb).
  apply fmap_Some in Hb as (mc' & Hb & [= -> ->]). done.
Qed.

Lemma configured_build p m mc :
  (m, mc) ∈ configured p migrations →
  mdl_ModelName mc = pm_protocol m ∧ ∃ id, mdl_Model mc = pm_protocol m +:+ "/" +:+ id.
Proof.
  intros [Hm Hb]%elem_of_configured. pose proof migrations_build as HF.
  rewrite Forall_forall in HF. by apply (HF m Hm p).
Qed.

Lemma converted_from cfg mc :
  mc ∈ ConvertProvidersToModelList cfg →
  ∃ m mc0, (m, mc0) ∈ configured (cfg_Providers cfg) migrations ∧
    converted (GetModelName (cfg_Defaults cfg)) (m, mc0) mc.
Proof.
  unfold ConvertProvidersToModelList. set (um := GetModelName _). set (up := to_lower _).
  intros (i & Hi)%list_elem_of_lookup_1.
  destruct (Forall2_lookup_r _ _ _ _ _ (convert_converted up um (cfg_Providers cfg) false migrations) Hi)
    as ([m mc0] & Hm & Hc).
  exists m, mc0. split; [|done]. by eapply list_elem_of_lookup_2.
Qed.

Lemma app_blank (a b : string) : a ≠ "" → a +:+ b ≠ "".
Proof. by destruct a. Qed.

Lemma build_not_blank protocol model :
  protocol ≠ "" → buildModelWithProtocol protocol model ≠ "".
Proof.
  intros H. unfold buildModelWithProtocol. case_match eqn:E; [|by apply app_blank].
  intros ->. by vm_compute in E.
Qed.

Lemma build_no_slash protocol model :
  contains model "/" = false → buildModelWithProtocol protocol model = protocol +:+ "/" +:+ model.
Proof. intros H. unfold buildModelWithProtocol. by rewrite H. Qed.

Lemma protocol_not_blank m : m ∈ migrations → pm_protocol m ≠ "".
Proof. revert m. apply Forall_forall. repeat (apply Forall_cons; split); done. Qed.

Lemma validate_from_ok i l :
  Forall (λ m, mdl_ModelName m ≠ "" ∧ mdl_Model m ≠ "") l → validate_from i l = Ok tt.
Proof.
  intros Hl. revert i. induction Hl as [|m l [Hn Hm] _ IH]; intros i; [done|]. cbn [validate_from].
  unfold Validate. apply blank_false in Hn, Hm. rewrite Hn, Hm. apply IH.
Qed.

(** The conversion makes a list that passes the validation, whatever the
    settings it starts from. *)
Lemma converted_models_valid cfg :
  ValidateModelList (with_ModelList cfg (ConvertProvidersToModelList cfg)) = Ok tt.
Proof.
  apply validate_from_ok, Forall_forall. cbn [cfg_ModelList with_ModelList]. intros mc (m & mc0 & Hm & Hc)%converted_from.
  destruct (configured_build _ _ _ Hm) as [Hname (id & Hmodel)].
  apply elem_of_configured in Hm as [Hm%protocol_not_blank _].
  assert (mdl_Model mc0 ≠ "") by (rewrite Hmodel; by apply app_blank).
  inversion Hc; subst; cbn; split; try congruence; by apply build_not_blank.
Qed.

Lemma filter_other_names (l : list ModelConfig) um :
  um ∉ (mdl_ModelName <$> l) → filter (λ mc, mdl_ModelName mc = um) l = [].
Proof.
  induction l as [|mc l IH]; [done|]. rewrite fmap_cons, not_elem_of_cons. intros [? ?].
  rewrite filter_cons_False by congruence. by apply IH.
Qed.

(** The entries are named after their protocols. *)
Lemma configured_names p um :
  um ∉ (pm_protocol <$> migrations) → um ∉ (mdl_ModelName ∘ snd <$> configured p migrations).
Proof.
  intros Hnot H. apply Hnot. apply list_elem_of_fmap in H as ([m mc] & -> & H).
  cbn [compose snd]. destruct (configured_build _ _ _ H) as [-> _].
  apply elem_of_configured in H as [H _]. apply list_elem_of_fmap. by exists m.
Qed.

(** When the old settings name no provider, the model they name is found after
    the conversion: it is asked of the first provider that is configured, unless
    its name is also the name of a provider. *)
Lemma conversion_serves_user_model cfg m mc rest ctr :
  let um := GetModelName (cfg_Defaults cfg) in
  ad_Provider (cfg_Defaults cfg) = "" → um ≠ "" → um ∉ (pm_protocol <$> migrations) →
  configured (cfg_Providers cfg) migrations = (m, mc) :: rest →
  GetModelConfig (with_ModelList cfg (ConvertProvidersToModelList cfg)) um ctr =
  (Ok (set_Model (set_ModelName mc um) (buildModelWithProtocol (pm_protocol m) um)), ctr).
Proof.
  intros um Hp Hum Hnot Hc.
  assert (ConvertProvidersToModelList cfg =
    set_Model (set_ModelName mc um) (buildModelWithProtocol (pm_protocol m) um) :: (snd <$> rest)) as E.
  { unfold ConvertProvidersToModelList. rewrite Hp.
    apply (convert_first um _ _ m mc rest no_blank_name Hum Hc). }
  unfold GetModelConfig, findMatches. cbn [cfg_ModelList with_ModelList]. rewrite E.
  rewrite filter_cons_True by done.
  rewrite filter_other_names; [done|]. rewrite <-list_fmap_compose. intros H.
  apply (configured_names (cfg_Providers cfg) um Hnot). rewrite Hc, fmap_cons. by right.
Qed.

Definition with_keys (provider model openai openrouter : string) : Config :=
  mk_Config (mk_AgentDefaults "~/w" true provider "" model [] 0 None 0)
    (mk_ProvidersConfig no_provider
       (mk_OpenAIProviderConfig (mk_ProviderConfig openai "" "" "" "") false)
       (mk_ProviderConfig openrouter "" "" "" "") no_provider no_provider no_provider no_provider
       no_provider no_provider no_provider no_provider no_provider no_provider no_provider no_provider
       no_provider no_provider no_provider) [].

(** Finding: when the old settings do name a provider, the model they name is not
    found after the conversion. *)
Lemma explicit_provider_not_served cfg ctr :
  let um := GetModelName (cfg_Defaults cfg) in
  ad_Provider (cfg_Defaults cfg) ≠ "" → um ∉ (pm_protocol <$> migrations) →
  ∃ e, GetModelConfig (with_ModelList cfg (ConvertProvidersToModelList cfg)) um ctr = (Err e, ctr).
Proof.
  intros um Hp Hnot.
  assert (to_lower (ad_Provider (cfg_Defaults cfg)) ≠ "") as Hlow.
  { intros E. apply Hp. apply (inj chars). apply (f_equal chars) in E.
    rewrite chars_to_lower in E. by destruct (chars _). }
  assert (findMatches (with_ModelList cfg (ConvertProvidersToModelList cfg)) um = []) as E.
  { apply filter_other_names. cbn [cfg_ModelList with_ModelList]. unfold ConvertProvidersToModelList.
    rewrite convert_names by done. by apply configured_names. }
  unfold GetModelConfig. rewrite E. eauto.
Qed.

(** ** Loading *)
Lemma convert_with_ModelList c l :
  ConvertProvidersToModelList (with_ModelList c l) = ConvertProvidersToModelList c.
Proof. unfold ConvertProvidersToModelList, with_ModelList. cbn [cfg_Defaults cfg_Providers]. reflexivity. Qed.

#[local] Opaque ConvertProvidersToModelList default_models.

Section loaded.
Context {D : Type}.
Context (json_Unmarshal : D → Config → result string Config).
Context (env_Parse : Config → result string Config).

Lemma config_of_Ok parse_error data cfg :
  config_of json_Unmarshal env_Parse parse_error data = Ok cfg →
  ValidateModelList cfg = Ok tt ∧
  ∃ tmp cfg0 cfg1,
    json_Unmarshal data zero_Config = Ok tmp ∧
    json_Unmarshal data (if decide (0 < length (cfg_ModelList tmp)) then with_ModelList DefaultConfig []
                         else DefaultConfig) = Ok cfg0 ∧
    env_Parse cfg0 = Ok cfg1 ∧
    cfg = if decide (cfg_ModelList cfg1 = []) then
            (if HasProvidersConfig cfg1 then with_ModelList cfg1 (ConvertProvidersToModelList cfg1) else cfg1)
          else cfg1.
Proof.
  unfold config_of. intros H.
  destruct (json_Unmarshal data zero_Config) as [tmp|]; [|done]. cbv zeta in H.
  destruct (json_Unmarshal data _) as [cfg0|] eqn:E0; [|done].
  destruct (env_Parse cfg0) as [cfg1|] eqn:E1; [|done].
  destruct (ValidateModelList _) as [[]|] eqn:E2; [|done]. injection H as <-.
  split; [done|]. exists tmp, cfg0, cfg1. do 3 (split; [done|]).
  destruct (decide (length (cfg_ModelList cfg1) = 0)) as [Hl|Hl];
    destruct (decide (cfg_ModelList cfg1 = [])) as [Hn|Hn]; try done.
  - by apply nil_length_inv in Hl.
  - by rewrite Hn in Hl.
Qed.

(** A configuration that loads passes the validation of its list, and its
    list is empty only if no provider has a key or a base, or the only ones
    that have are ones the conversion takes nothing of. *)
Lemma loaded_config_valid file cfg :
  LoadConfig json_Unmarshal env_Parse file = Ok cfg →
  ValidateModelList cfg = Ok tt ∧
  (cfg_ModelList cfg = [] → HasProvidersConfig cfg = true → ConvertProvidersToModelList cfg = []).
Proof.
  destruct file as [|e|data]; cbn [LoadConfig].
  - intros [= <-]. split; [by vm_compute|]. intros E. exfalso. revert E. by vm_compute.
  - done.
  - intros (Hv & tmp & cfg0 & cfg1 & _ & _ & _ & Hcfg)%config_of_Ok. split; [done|].
    intros Hl Hp. destruct (decide (cfg_ModelList cfg1 = [])) as [Hn|Hn]; [|by rewrite Hcfg in Hl].
    destruct (HasProvidersConfig cfg1) eqn:Hp1; [|congruence].
    rewrite Hcfg, convert_with_ModelList. by rewrite Hcfg in Hl.
Qed.

(** Finding: a document without a list of models is meant to have its providers
    converted; the list of the defaults stays, and nothing is converted. *)
Lemma missing_list_keeps_defaults data cfg :
  (∀ c c', json_Unmarshal data c = Ok c' → cfg_ModelList c' = cfg_ModelList c) →
  (∀ c c', env_Parse c = Ok c' → cfg_ModelList c' = cfg_ModelList c) →
  LoadConfig json_Unmarshal env_Parse (Contents data) = Ok cfg →
  cfg_ModelList cfg = default_models.
Proof.
  intros Hj He (_ & tmp & cfg0 & cfg1 & Htmp & H0 & H1 & Hcfg)%config_of_Ok.
  apply Hj in Htmp, H0. apply He in H1. rewrite decide_False in H0 by (rewrite Htmp; cbn; lia).
  assert (cfg_ModelList cfg1 = default_models) as E by (rewrite H1, H0; reflexivity).
  rewrite decide_False in Hcfg by (rewrite E; by vm_compute). congruence.
Qed.
End loaded.

#[local] Transparent ConvertProvidersToModelList default_models.

(** A document that only sets the key and the provider of OpenAI. *)
Definition key_document (data : string) (c : Config) : result string Config :=
  Ok (mk_Config (cfg_Defaults c) (cfg_Providers (with_keys "openai" "" data "")) (cfg_ModelList c)).

Lemma loaded_config_valid_witness :
  ∃ cfg, LoadConfig key_document Ok (Contents "sk-1") = Ok cfg ∧ ValidateModelList cfg = Ok tt.
Proof.
  eexists. split; [reflexivity|].
  exact (proj1 (loaded_config_valid key_document Ok (Contents "sk-1") _ eq_refl)).
Defined.

(** The key of the document is in no entry of the list. *)
Example key_is_not_used :
  match LoadConfig key_document Ok (Contents "sk-1") with
  | Ok cfg => existsb (λ m, bool_decide (mdl_APIKey m = "sk-1")) (cfg_ModelList cfg)
  | Err _ => true
  end = false.
Proof. vm_compute. reflexivity. Qed.

(** Finding: [HasProvidersConfig] looks at keys and bases only, the conversion also
    takes an OAuth account of Antigravity and the connection mode of Copilot. *)
Definition only_antigravity (c : ProviderConfig) : Config :=
  mk_Config no_defaults
    (mk_ProvidersConfig no_provider no_openai no_provider no_provider no_provider no_provider no_provider
       no_provider no_provider no_provider no_provider no_provider no_provider no_provider no_provider
       c no_provider no_provider) [].
Lemma oauth_provider_not_seen :
  HasProvidersConfig (only_antigravity (mk_ProviderConfig "" "" "" "oauth" "")) = false ∧
  length (ConvertProvidersToModelList (only_antigravity (mk_ProviderConfig "" "" "" "oauth" ""))) = 1 ∧
  HasProvidersConfig (only_antigravity (mk_ProviderConfig "" "https://x" "" "" "")) = true ∧
  ConvertProvidersToModelList (only_antigravity (mk_ProviderConfig "" "https://x" "" "" "")) = [].
Proof. vm_compute. done. Qed.

(** [HasProvidersConfig] and [IsEmpty] agree. *)
Lemma HasProvidersConfig_IsEmpty c : HasProvidersConfig c = negb (IsEmpty (cfg_Providers c)).
Proof.
  unfold HasProvidersConfig, IsEmpty. induction (all_providers _) as [|v l IH]; [done|].
  cbn. rewrite IH, !negb_andb. done.
Qed.
