(* ===== verification/Auth.v ===== *)
(** * Credentials (pkg/auth/store.go, oauth.go, pkce.go, token.go)

    The credential store, a file the process reads and writes whole, and what is
    done with the answers of OAuth servers.  Requests are parameters, as are the
    decoding of JSON, randomness and SHA-256; base64 is that of [Encoding]. *)
From stdpp Require Import base gmap strings list pretty.
From Stdlib Require Import Ascii ZArith Lia ZifyNat.
From S2P Require Import Prelude GoStrings ProviderTypes Encoding Paths ToolBase.
#[local] Open Scope go_scope.
#[local] Open Scope nat_scope.

(** ** The store *)
Record AuthCredential := mk_AuthCredential {
  cr_AccessToken : string;
  cr_RefreshToken : string;
  cr_AccountID : string;
  cr_ExpiresAt : time;
  cr_Provider : string;
  cr_AuthMethod : string;
  cr_Email : string;
  cr_ProjectID : string;
}.

#[export] Instance AuthCredential_eq_dec : EqDecision AuthCredential.
Proof. solve_decision. Defined.

(** [map[string]*AuthCredential]: a JSON null is a nil pointer. *)
Abbreviation Credentials := (gmap string (option AuthCredential)) (only parsing).

Definition IsExpired (now : time) (c : AuthCredential) : bool :=
  if is_zero_time (cr_ExpiresAt c) then false else (cr_ExpiresAt c <? now)%Z.

Definition NeedsRefresh (now : time) (c : AuthCredential) : bool :=
  if is_zero_time (cr_ExpiresAt c) then false else (cr_ExpiresAt c <? now + 5 * minute)%Z.

(** The file of the store: what reading and decoding it gives; the map may be
    absent from the document. *)
Inductive auth_file :=
| NoFile
| Unreadable (e : string)
| Malformed (e : string)
| Stored (creds : option Credentials).

Definition LoadStore (f : auth_file) : result string Credentials :=
  match f with
  | NoFile => Ok ∅
  | Unreadable e => Err e
  | Malformed e => Err e
  | Stored None => Ok ∅
  | Stored (Some creds) => Ok creds
  end.

(** What can go wrong while saving: the directory, the encoding, and the write,
    which leaves some other file. *)
Inductive save_fault :=
| NoFault
| MkdirFails (e : string)
| MarshalFails (e : string)
| WriteFails (e : string) (after : auth_file).

Definition SaveStore (fault : save_fault) (store : Credentials) (f : auth_file) :
    result string unit * auth_file :=
  match fault with
  | MkdirFails e => (Err e, f)
  | MarshalFails e => (Err e, f)
  | WriteFails e after => (Err e, after)
  | NoFault => (Ok tt, Stored (Some store))
  end.

Definition ErrCredentialNotFound : string := "credential not found".

Definition GetCredential (provider : string) (f : auth_file) : result string (option AuthCredential) :=
  let? store := LoadStore f in
  match store !! provider with
  | None => Err ErrCredentialNotFound
  | Some cred => Ok cred
  end.

Definition SetCredential (fault : save_fault) (provider : string) (cred : option AuthCredential)
    (f : auth_file) : result string unit * auth_file :=
  match LoadStore f with
  | Err e => (Err e, f)
  | Ok store => SaveStore fault (<[provider := cred]> store) f
  end.

Definition DeleteCredential (fault : save_fault) (provider : string) (f : auth_file) :
    result string unit * auth_file :=
  match LoadStore f with
  | Err e => (Err e, f)
  | Ok store => SaveStore fault (delete provider store) f
  end.

(** [os.Remove] fails with [remove_err] unless it is [None] or there is no file. *)
Definition DeleteAllCredentials (remove_err : option string) (f : auth_file) :
    result string unit * auth_file :=
  match f, remove_err with
  | NoFile, _ => (Ok tt, NoFile)
  | _, Some e => (Err e, f)
  | _, None => (Ok tt, NoFile)
  end.

Definition base64URLDecode (s : list ascii) : option (list ascii) :=
  std_decode ((λ c, if bool_decide (c = "-"%char) then "+"%char
                    else if bool_decide (c = "_"%char) then "/"%char else c) <$> s).

Record PKCECodes := mk_PKCECodes {
  CodeVerifier : list ascii;
  CodeChallenge : list ascii;
}.

(** [buf] is what [rand.Read] put into 64 bytes. *)
Definition GeneratePKCE (sha256 : list ascii → list ascii) (buf : result string (list ascii)) :
    result string PKCECodes :=
  let? buf := buf in
  let verifier := raw_url_encode buf in
  Ok (mk_PKCECodes verifier (raw_url_encode (sha256 verifier))).

(** ** Tokens *)
Record OAuthProviderConfig := mk_OAuthProviderConfig {
  oa_Issuer : string;
  oa_ClientID : string;
  oa_ClientSecret : string;
  oa_TokenURL : string;
  oa_Scopes : string;
  oa_Originator : string;
  oa_Port : Z;
}.

Record token_response := mk_token_response {
  tr_AccessToken : string;
  tr_RefreshToken : string;
  tr_ExpiresIn : Z;
  tr_IDToken : string;
}.

Definition OpenAIOAuthConfig : OAuthProviderConfig :=
  mk_OAuthProviderConfig "https://auth.openai.com" "app_EMoamEEZ73f0CkXaXp7hrann" "" ""
    "openid profile email offline_access" "codex_cli_rs" 1455.

(** [decodeBase64]: a text that is not base64 is kept. *)
Definition decodeBase64 (s : string) : string :=
  match std_decode (chars s) with Some data => implode data | None => s end.

Definition GoogleAntigravityOAuthConfig : OAuthProviderConfig :=
  mk_OAuthProviderConfig "https://accounts.google.com/o/oauth2/v2"
    (decodeBase64 "MTA3MTAwNjA2MDU5MS10bWhzc2luMmgyMWxjcmUyMzV2dG9sb2poNGc0MDNlcC5hcHBzLmdvb2dsZXVzZXJjb250ZW50LmNvbQ==")
    (decodeBase64 "R09DU1BYLUs1OEZXUjQ4NkxkTEoxbUxCOHNYQzR6NnFEQWY=")
    "https://oauth2.googleapis.com/token"
    "https://www.googleapis.com/auth/cloud-platform https://www.googleapis.com/auth/userinfo.email https://www.googleapis.com/auth/userinfo.profile https://www.googleapis.com/auth/cclog https://www.googleapis.com/auth/experimentsandconfigs"
    "" 51121.

Section oauth.
(** [json.Unmarshal] into the structure of a token answer, and into a map. *)
Context (token_of_json : string → result string token_response).
Context (claims_of_json : list ascii → result string (gmap string json)).
(** [http.PostForm], then the status and the body that is read. *)
Context (PostForm : string → gmap string string → result string (Z * string)).

Definition parseJWTClaims (token : string) : result string (gmap string json) :=
  match split_l "."%char (chars token) with
  | _ :: payload :: _ =>
      let payload := if decide (length payload mod 4 = 2) then payload ++ [pad; pad]
                     else if decide (length payload mod 4 = 3) then payload ++ [pad] else payload in
      match base64URLDecode payload with
      | None => Err "illegal base64 data"
      | Some decoded => claims_of_json decoded
      end
  | _ => Err "token is not a JWT"
  end.

(** The identifier of the first organization that has one. *)
Definition org_id (org : json) : option string :=
  match org with
  | JObj kvs => match obj_get kvs "id" with
                | Some (JStr id) => if bool_decide (id = "") then None else Some id
                | _ => None
                end
  | _ => None
  end.

Definition claim (claims : gmap string json) (k : string) : option string :=
  match claims !! k with
  | Some (JStr s) => if bool_decide (s = "") then None else Some s
  | _ => None
  end.

Definition extractAccountID (token : string) : string :=
  match parseJWTClaims token with
  | Err _ => ""
  | Ok claims =>
      match claim claims "chatgpt_account_id" with
      | Some id => id
      | None =>
          match claim claims "https://api.openai.com/auth.chatgpt_account_id" with
          | Some id => id
          | None =>
              match (match claims !! "https://api.openai.com/auth" with
                     | Some (JObj kvs) => match obj_get kvs "chatgpt_account_id" with
                                          | Some (JStr id) => if bool_decide (id = "") then None else Some id
                                          | _ => None
                                          end
                     | _ => None
                     end) with
              | Some id => id
              | None =>
                  match claims !! "organizations" with
                  | Some (JArr orgs) => default "" (head (omap org_id orgs))
                  | _ => ""
                  end
              end
          end
      end
  end.

Definition set_AccountID (c : AuthCredential) (id : string) : AuthCredential :=
  mk_AuthCredential (cr_AccessToken c) (cr_RefreshToken c) id (cr_ExpiresAt c) (cr_Provider c)
    (cr_AuthMethod c) (cr_Email c) (cr_ProjectID c).

Definition parseTokenResponse (now : time) (body provider : string) : result string AuthCredential :=
  match token_of_json body with
  | Err e => Err ("parsing token response: " +:+ e)
  | Ok tokenResp =>
      if bool_decide (tr_AccessToken tokenResp = "") then Err "no access token in response"
      else
        let expiresAt := if (0 <? tr_ExpiresIn tokenResp)%Z
                         then (now + wrap64 (tr_ExpiresIn tokenResp * second))%Z else 0%Z in
        let cred := mk_AuthCredential (tr_AccessToken tokenResp) (tr_RefreshToken tokenResp) "" expiresAt
                      provider "oauth" "" "" in
        let of_id := extractAccountID (tr_IDToken tokenResp) in
        if negb (bool_decide (of_id = "")) then Ok (set_AccountID cred of_id)
        else
          let of_access := extractAccountID (tr_AccessToken tokenResp) in
          if negb (bool_decide (of_access = "")) then Ok (set_AccountID cred of_access)
          else if negb (bool_decide (of_id = "")) then Ok (set_AccountID cred of_id)
          else Ok cred
  end.

Definition token_url (cfg : OAuthProviderConfig) : string :=
  if bool_decide (oa_TokenURL cfg = "") then oa_Issuer cfg +:+ "/oauth/token" else oa_TokenURL cfg.

Definition with_secret (cfg : OAuthProviderConfig) (data : gmap string string) : gmap string string :=
  if bool_decide (oa_ClientSecret cfg = "") then data
  else <["client_secret" := oa_ClientSecret cfg]> data.

Definition or_else (s t : string) : string := if bool_decide (s = "") then t else s.

Definition RefreshAccessToken (now : time) (cred : AuthCredential) (cfg : OAuthProviderConfig) :
    result string AuthCredential :=
  if bool_decide (cr_RefreshToken cred = "") then Err "no refresh token available"
  else
    let data : gmap string string :=
      {[ "client_id" := oa_ClientID cfg; "grant_type" := "refresh_token";
         "refresh_token" := cr_RefreshToken cred; "scope" := "openid profile email" ]} in
    match PostForm (token_url cfg) (with_secret cfg data) with
    | Err e => Err ("refreshing token: " +:+ e)
    | Ok (status, body) =>
        if negb (status =? 200)%Z then Err ("token refresh failed: " +:+ body)
        else
          let? refreshed := parseTokenResponse now body (cr_Provider cred) in
          Ok (mk_AuthCredential (cr_AccessToken refreshed)
                (or_else (cr_RefreshToken refreshed) (cr_RefreshToken cred))
                (or_else (cr_AccountID refreshed) (cr_AccountID cred))
                (cr_ExpiresAt refreshed) (cr_Provider refreshed) (cr_AuthMethod refreshed)
                (or_else (cr_Email refreshed) (cr_Email cred))
                (or_else (cr_ProjectID refreshed) (cr_ProjectID cred)))
    end.

Definition exchangeCodeForTokens (now : time) (cfg : OAuthProviderConfig)
    (code codeVerifier redirectURI : string) : result string AuthCredential :=
  let data : gmap string string :=
    {[ "grant_type" := "authorization_code"; "code" := code; "redirect_uri" := redirectURI;
       "client_id" := oa_ClientID cfg; "code_verifier" := codeVerifier ]} in
  let provider :=
    if negb (bool_decide (oa_TokenURL cfg = "")) && contains (oa_TokenURL cfg) "googleapis.com"
    then "google-antigravity" else "openai" in
  match PostForm (token_url cfg) (with_secret cfg data) with
  | Err e => Err ("exchanging code for tokens: " +:+ e)
  | Ok (status, body) =>
      if negb (status =? 200)%Z then Err ("token exchange failed: " +:+ body)
      else parseTokenResponse now body provider
  end.

(** The query parameters of the authorization URL. *)
Definition authorize_params (cfg : OAuthProviderConfig) (pkce : PKCECodes) (state redirectURI : string) :
    gmap string string :=
  let params : gmap string string :=
    {[ "response_type" := "code"; "client_id" := oa_ClientID cfg; "redirect_uri" := redirectURI;
       "scope" := oa_Scopes cfg; "code_challenge" := implode (CodeChallenge pkce);
       "code_challenge_method" := "S256"; "state" := state ]} in
  if contains (to_lower (oa_Issuer cfg)) "accounts.google.com"
  then <["prompt" := "consent"]> (<["access_type" := "offline"]> params)
  else
    let params := <["codex_cli_simplified_flow" := "true"]>
                    (<["id_token_add_organizations" := "true"]> params) in
    let params := if contains (to_lower (oa_Issuer cfg)) "auth.openai.com"
                  then <["originator" := "tinyclaw"]> params else params in
    if bool_decide (oa_Originator cfg = "") then params
    else <["originator" := oa_Originator cfg]> params.

(** [params.Encode()] is an argument. *)
Definition buildAuthorizeURL (Encode : gmap string string → string) (cfg : OAuthProviderConfig)
    (pkce : PKCECodes) (state redirectURI : string) : string :=
  let params := authorize_params cfg pkce state redirectURI in
  if contains (to_lower (oa_Issuer cfg)) "accounts.google.com"
  then oa_Issuer cfg +:+ "/auth?" +:+ Encode params
  else oa_Issuer cfg +:+ "/oauth/authorize?" +:+ Encode params.

(** What ends the wait of a login: the first request to the callback, with its
    query, a line that is pasted, or the end of the five minutes. *)
Inductive login_event :=
| Callback (query : gmap string string)
| Pasted (line : string)
| Expired.

Definition query_get (query : gmap string string) (k : string) : string := default "" (query !! k).

(** The handler of the callback: what it sends on [resultCh]. *)
Definition callback (state : string) (query : gmap string string) : result string string :=
  if negb (bool_decide (query_get query "state" = state)) then Err "state mismatch"
  else
    let code := query_get query "code" in
    if bool_decide (code = "") then Err ("no code received: " +:+ query_get query "error") else Ok code.

(** [parse_query] is [url.Parse] with [u.Query()], [None] when it fails. *)
Definition LoginBrowser (parse_query : string → option (gmap string string)) (now : time)
    (cfg : OAuthProviderConfig) (pkce : result string PKCECodes) (state : result string string)
    (listen : result string unit) (event : login_event) : result string AuthCredential :=
  match pkce with
  | Err e => Err ("generating PKCE: " +:+ e)
  | Ok pkce =>
      match state with
      | Err e => Err ("generating state: " +:+ e)
      | Ok state =>
          let redirectURI := "http://localhost:" +:+ pretty (oa_Port cfg) +:+ "/auth/callback" in
          match listen with
          | Err e => Err ("starting callback server on port " +:+ pretty (oa_Port cfg) +:+ ": " +:+ e)
          | Ok _ =>
              match event with
              | Callback query =>
                  let? code := callback state query in
                  exchangeCodeForTokens now cfg code (implode (CodeVerifier pkce)) redirectURI
              | Pasted line =>
                  let manualInput := trim_space line in
                  if bool_decide (manualInput = "") then Err "manual input canceled"
                  else
                    let code :=
                      if contains manualInput "?" then
                        match parse_query manualInput with
                        | Some query => query_get query "code"
                        | None => manualInput
                        end
                      else manualInput in
                    if bool_decide (code = "") then Err "could not find authorization code in input"
                    else exchangeCodeForTokens now cfg code (implode (CodeVerifier pkce)) redirectURI
              | Expired => Err "authentication timed out after 5 minutes"
              end
          end
      end
  end.
End oauth.

(** [scan] is what [scanner.Scan] answers: a line, the end of the input, an error. *)
Definition LoginPasteToken (provider : string) (scan : result string (option string)) :
    result string AuthCredential :=
  match scan with
  | Err e => Err ("reading token: " +:+ e)
  | Ok None => Err "no input received"
  | Ok (Some text) =>
      let token := trim_space text in
      if bool_decide (token = "") then Err "token cannot be empty"
      else Ok (mk_AuthCredential token "" "" 0 provider "token" "" "")
  end.

(** ** The store is a map *)

(** Over a file that can be read, setting and deleting a credential are the
    operations of a map, which later loads and lookups see; a file that cannot be
    read or decoded is never overwritten; and a save that fails before it writes
    changes nothing. *)
Lemma store_is_map (f : auth_file) provider :
  (∀ creds, LoadStore f = Ok creds →
     GetCredential provider f = match creds !! provider with
                                | Some c => Ok c | None => Err ErrCredentialNotFound end ∧
     (∀ c, LoadStore (SetCredential NoFault provider c f).2 = Ok (<[provider := c]> creds)) ∧
     LoadStore (DeleteCredential NoFault provider f).2 = Ok (delete provider creds)) ∧
  (∀ e fault c, LoadStore f = Err e →
     SetCredential fault provider c f = (Err e, f) ∧ DeleteCredential fault provider f = (Err e, f)) ∧
  (∀ e c, (SetCredential (MkdirFails e) provider c f).2 = f ∧
          (SetCredential (MarshalFails e) provider c f).2 = f).
Proof.
  unfold GetCredential, SetCredential, DeleteCredential. split; [|split].
  - intros creds ->. cbn. split; [by destruct (creds !! provider)|]. done.
  - intros e fault c ->. done.
  - intros e c. by destruct (LoadStore f).
Qed.

(** Setting twice, and credentials of other providers. *)
Lemma get_set f fault_free creds p q c :
  LoadStore f = Ok creds → fault_free = NoFault →
  GetCredential q (SetCredential fault_free p c f).2 =
  if bool_decide (q = p) then Ok c else GetCredential q f.
Proof.
  intros H ->. unfold SetCredential. rewrite H. cbn. unfold GetCredential at 1. cbn.
  case_bool_decide as Hq; subst.
  - by rewrite lookup_insert_eq.
  - rewrite lookup_insert_ne by done. unfold GetCredential. by rewrite H.
Qed.

(** Finding: the file is written in place; a write that fails half way can lose the
    credentials of every provider, where sessions and state are renamed into
    place. *)
Lemma failed_save_loses_credentials c :
  let f := Stored (Some {[ "openai" := Some c; "anthropic" := Some c ]}) in
  let f' := (SetCredential (WriteFails "no space left on device" (Malformed "unexpected end of JSON input"))
               "openai" (Some c) f).2 in
  GetCredential "anthropic" f = Ok (Some c) ∧
  GetCredential "anthropic" f' = Err "unexpected end of JSON input".
Proof. split; reflexivity. Qed.

(** The URL-safe encoding of a text, padded, decodes to the text. *)
Lemma base64URLDecode_encode l : base64URLDecode (padded (raw_url_encode l)) = Some l.
Proof.
  unfold base64URLDecode, std_decode. fold to_std.
  assert (to_std <$> padded (raw_url_encode l) = padded (raw_std l)) as E.
  { unfold padded. rewrite length_raw. repeat case_decide; by rewrite ?fmap_app, to_std_encode. }
  rewrite E, filter_keep; [apply decode_padded|].
  apply Forall_forall. intros c Hc. unfold padded in Hc.
  assert (c = pad ∨ c ∈ raw_std l) as [->|H] by (repeat case_decide; clear -Hc; set_solver); [done|].
  apply raw_std_chars in H as (n & Hn & ->). split; by apply std_char_props.
Qed.

(** The claims of a token whose second part is the URL-safe encoding of a
    document are those of the document, whatever its length and whatever the
    other parts are. *)
Lemma jwt_payload_roundtrip claims_of_json header payload signature :
  "."%char ∉ chars header →
  parseJWTClaims claims_of_json
    (header +:+ "." +:+ implode (raw_url_encode payload) +:+ "." +:+ signature) =
  claims_of_json payload.
Proof.
  intros Hh. unfold parseJWTClaims. rewrite !chars_app, chars_implode.
  change (chars ".") with ["."%char]. cbn [app].
  rewrite split_l_app by done. rewrite split_l_app.
  - fold (padded (raw_url_encode payload)). by rewrite base64URLDecode_encode.
  - intros (n & Hn & E)%raw_url_chars. symmetry in E. revert E. by apply std_char_props.
Qed.

Lemma jwt_payload_roundtrip_witness :
  parseJWTClaims (λ l, Ok {[ implode l := JNull ]})
    ("h." +:+ implode (raw_url_encode (chars "{?}")) +:+ ".s") = Ok {[ "{?}" := JNull ]} ∧
  implode (raw_url_encode (chars "{?}")) = "ez99".
Proof.
  split; [|reflexivity].
  apply (jwt_payload_roundtrip (λ l, Ok {[ implode l := JNull ]}) "h" (chars "{?}") "s").
  apply (bool_decide_unpack _). reflexivity.
Defined.

(** ** Tokens *)
Section tokens.
Context (token_of_json : string → result string token_response).
Context (claims_of_json : list ascii → result string (gmap string json)).
Context (PostForm : string → gmap string string → result string (Z * string)).

Lemma parseTokenResponse_Ok now body provider cred :
  parseTokenResponse token_of_json claims_of_json now body provider = Ok cred →
  ∃ tr, token_of_json body = Ok tr ∧ cr_AccessToken cred = tr_AccessToken tr ∧ tr_AccessToken tr ≠ "" ∧
    cr_RefreshToken cred = tr_RefreshToken tr ∧ cr_Provider cred = provider ∧
    cr_AuthMethod cred = "oauth" ∧ cr_Email cred = "" ∧ cr_ProjectID cred = "".
Proof.
  unfold parseTokenResponse. intros H. destruct (token_of_json body) as [tr|]; [|done].
  exists tr. case_bool_decide; [done|]. split; [done|].
  repeat case_match; simplify_eq; done.
Qed.

Lemma with_secret_lookup cfg data k :
  k ≠ "client_secret" → with_secret cfg data !! k = data !! k.
Proof. intros H. unfold with_secret. case_bool_decide; [done|]. by rewrite lookup_insert_ne. Qed.

Lemma or_else_ne s t : t ≠ "" → or_else s t ≠ "".
Proof. unfold or_else. by case_bool_decide. Qed.

(** A refreshed credential is one of the same provider with an access token, it
    can be refreshed again, and it keeps the account, the address and the project
    of the old one where the answer names none. *)
Lemma refresh_keeps now cred cfg cred' :
  RefreshAccessToken token_of_json claims_of_json PostForm now cred cfg = Ok cred' →
  cr_Provider cred' = cr_Provider cred ∧ cr_AuthMethod cred' = "oauth" ∧
  cr_AccessToken cred' ≠ "" ∧ cr_RefreshToken cred' ≠ "" ∧
  (cr_AccountID cred ≠ "" → cr_AccountID cred' ≠ "") ∧
  cr_Email cred' = cr_Email cred ∧ cr_ProjectID cred' = cr_ProjectID cred.
Proof.
  unfold RefreshAccessToken. intros H. case_bool_decide as Hr; [done|].
  destruct (PostForm _ _) as [[status body]|]; [|done]. case_match; [done|].
  destruct (parseTokenResponse _ _ now body _) as [r|] eqn:E; [|done]. injection H as <-.
  apply parseTokenResponse_Ok in E as (tr & _ & HA & Hne & HR & HP & HM & HE & HJ).
  cbn. rewrite HP, HM, HA, HE, HJ. repeat split; try done; by apply or_else_ne.
Qed.

(** A login through the browser asks for tokens only with the code of a request
    that carries the state of this login, and proves the request with the verifier
    of this login; a request with another state ends the login with an error. *)
Lemma login_requires_state parse_query now cfg pkce state query :
  let login := LoginBrowser token_of_json claims_of_json PostForm parse_query now cfg (Ok pkce) (Ok state)
                 (Ok tt) (Callback query) in
  (query_get query "state" ≠ state → login = Err "state mismatch") ∧
  (∀ cred, login = Ok cred →
     query_get query "state" = state ∧ query_get query "code" ≠ "" ∧
     ∃ form body, PostForm (token_url cfg) form = Ok (200%Z, body) ∧
       form !! "code" = Some (query_get query "code") ∧
       form !! "code_verifier" = Some (implode (CodeVerifier pkce)) ∧
       parseTokenResponse token_of_json claims_of_json now body (cr_Provider cred) = Ok cred).
Proof.
  cbn [LoginBrowser]. unfold callback. split; [intros H; by rewrite bool_decide_eq_false_2|].
  intros cred. case_bool_decide as Hs; cbn [negb]; [|done]. case_bool_decide as Hc; [done|].
  unfold exchangeCodeForTokens. intros H. split; [done|]. split; [done|].
  destruct (PostForm _ _) as [[status body]|] eqn:E; [|done].
  destruct (status =? 200)%Z eqn:Hst; [|done]. apply Z.eqb_eq in Hst as ->. cbn [negb] in H.
  destruct (parseTokenResponse_Ok _ _ _ _ H) as (tr & _ & _ & _ & _ & HP & _).
  eexists _, body. split; [exact E|]. rewrite HP.
  split; [|split; [|exact H]]; by rewrite with_secret_lookup.
Qed.
End tokens.

Definition demo_token (body : string) : result string token_response :=
  Ok (mk_token_response body "" 3600 "").
Definition demo_post (url : string) (form : gmap string string) : result string (Z * string) :=
  Ok (200%Z, default "" (form !! "code") +:+ "-token").
Definition demo_cred : AuthCredential :=
  mk_AuthCredential "old" "again" "acct" 5 "openai" "oauth" "me@x" "".

Lemma refresh_keeps_witness :
  ∃ cred, RefreshAccessToken demo_token (λ _, Err "") demo_post 1000 demo_cred OpenAIOAuthConfig = Ok cred ∧
    cr_AccessToken cred = "-token" ∧ cr_RefreshToken cred ≠ "".
Proof.
  eexists. split; [reflexivity|]. split; [reflexivity|].
  exact (proj1 (proj2 (proj2 (proj2
    (refresh_keeps demo_token (λ _, Err "") demo_post 1000 demo_cred OpenAIOAuthConfig _ eq_refl))))).
Defined.

(** A login that succeeds, and the same request with another state. *)
Example login_ok :
  LoginBrowser demo_token (λ _, Err "") demo_post (λ _, None) 1000 OpenAIOAuthConfig
    (Ok (mk_PKCECodes (chars "v") (chars "c"))) (Ok "s1") (Ok tt)
    (Callback {[ "state" := "s1"; "code" := "abc" ]}) =
  Ok (mk_AuthCredential "abc-token" "" "" (1000 + 3600 * second) "openai" "oauth" "" "").
Proof. reflexivity. Qed.

Lemma login_requires_state_witness :
  ∃ form body, demo_post (token_url OpenAIOAuthConfig) form = Ok (200%Z, body) ∧
    form !! "code" = Some "abc" ∧ form !! "code_verifier" = Some "v".
Proof.
  destruct (proj2 (login_requires_state demo_token (λ _, Err "") demo_post (λ _, None) 1000 OpenAIOAuthConfig
    (mk_PKCECodes (chars "v") (chars "c")) "s1" {[ "state" := "s1"; "code" := "abc" ]}) _ login_ok)
    as (_ & _ & form & body & H1 & H2 & H3 & _).
  exists form, body. split; [exact H1|]. split; [exact H2|exact H3].
Defined.

Lemma store_is_map_witness :
  LoadStore (SetCredential NoFault "openai" (Some demo_cred) NoFile).2 = Ok {[ "openai" := Some demo_cred ]}.
Proof. exact (proj1 (proj2 (proj1 (store_is_map NoFile "openai") ∅ eq_refl)) (Some demo_cred)). Defined.
