(* ===== verification/DeviceLogin.v ===== *)
(** * Login with a device code (pkg/auth/oauth.go)

    The codes of the server are shown to the user, and the token endpoint is polled
    until the login is confirmed.  Requests, the decoding of answers and what makes
    the loop go on (ticks and the deadline) are parameters. *)
From stdpp Require Import base gmap strings list pretty.
From Stdlib Require Import Ascii ZArith Lia.
From S2P Require Import Prelude GoStrings ProviderTypes Encoding Auth.
#[local] Open Scope go_scope.
#[local] Open Scope nat_scope.

(** [generateState]: [buf] is what [rand.Read] put into 32 bytes. *)
Definition generateState (buf : result string (list ascii)) : result string string :=
  let? buf := buf in Ok (implode (hex_encode buf)).

Record deviceCodeResponse := mk_deviceCodeResponse {
  dv_DeviceAuthID : string;
  dv_UserCode : string;
  dv_Interval : Z;
}.

(** [raw] is the field as it stands in the document, if it does; [raw_text] its text. *)
Definition parseFlexibleInt (raw_text : json → string) (raw : option json) : result string Z :=
  match raw with
  | None | Some JNull => Ok 0%Z
  | Some v =>
      match int64_of v, v with
      | Some n, _ => Ok n
      | None, JStr s =>
          let s := trim_space s in
          if bool_decide (s = "") then Ok 0%Z
          else let '(n, ok) := ParseInt s in
               if ok then Ok n else Err ("parsing " +:+ s)
      | None, _ => Err ("invalid integer value: " +:+ raw_text v)
      end
  end.

(** The document that answers the request of a code. *)
Record device_document := mk_device_document {
  dd_device_auth_id : string;
  dd_user_code : string;
  dd_interval : option json;
}.

(** What wakes the loop: a tick, with the answers to the requests it makes and the
    time then, or the deadline after 15 minutes. *)
Record tick := mk_tick {
  tk_poll : result string (Z * string);
  tk_PostForm : string → gmap string string → result string (Z * string);
  tk_now : time;
}.
Inductive device_event := Ticks (t : tick) | Deadline.

(** A login that still waits, that fails to make a ticker, or that ends. *)
Inductive device_login :=
| Waiting
| TickerPanics
| LoggedIn (r : result string AuthCredential).

Section device.
Context (token_of_json : string → result string token_response).
Context (claims_of_json : list ascii → result string (gmap string json)).
Context (raw_text : json → string).
(** Decoding of the two answers. *)
Context (document_of_json : string → result string device_document).
Context (poll_of_json : string → result string (string * string)).

Definition parseDeviceCodeResponse (body : string) : result string deviceCodeResponse :=
  let? raw := document_of_json body in
  let? interval := parseFlexibleInt raw_text (dd_interval raw) in
  Ok (mk_deviceCodeResponse (dd_device_auth_id raw) (dd_user_code raw) interval).

(** The second component of the answer is the verifier of the server. *)
Definition pollDeviceCode (cfg : OAuthProviderConfig) (t : tick) : result string AuthCredential :=
  match tk_poll t with
  | Err e => Err e
  | Ok (status, body) =>
      if negb (status =? 200)%Z then Err "pending"
      else
        let? codes := poll_of_json body in
        exchangeCodeForTokens token_of_json claims_of_json (tk_PostForm t) (tk_now t) cfg codes.1 codes.2
          (oa_Issuer cfg +:+ "/deviceauth/callback")
  end.

Fixpoint wait_for_code (cfg : OAuthProviderConfig) (events : list device_event) : device_login :=
  match events with
  | [] => Waiting
  | Deadline :: _ => LoggedIn (Err "device code authentication timed out after 15 minutes")
  | Ticks t :: rest =>
      match pollDeviceCode cfg t with
      | Err _ => wait_for_code cfg rest
      | Ok cred => LoggedIn (Ok cred)
      end
  end.

(** [Post] answers the request of a code. *)
Definition LoginDeviceCode (cfg : OAuthProviderConfig) (Post : result string (Z * string))
    (events : list device_event) : device_login :=
  match Post with
  | Err e => LoggedIn (Err ("requesting device code: " +:+ e))
  | Ok (status, body) =>
      if negb (status =? 200)%Z then LoggedIn (Err ("device code request failed: " +:+ body))
      else
        match parseDeviceCodeResponse body with
        | Err e => LoggedIn (Err ("parsing device code response: " +:+ e))
        | Ok deviceResp =>
            let interval := if (dv_Interval deviceResp <? 1)%Z then 5%Z else dv_Interval deviceResp in
            if (wrap64 (interval * second) <=? 0)%Z then TickerPanics
            else wait_for_code cfg events
        end
  end.

(** ** What the wait ends with *)

(** The login ends with the first tick, before the deadline, whose answer is a code
    that can be exchanged; the ticks before it do not matter, whatever their errors. *)
Lemma wait_ends_with_first_code cfg events cred :
  wait_for_code cfg events = LoggedIn (Ok cred) ↔
  ∃ failed t rest, events = (Ticks <$> failed) ++ Ticks t :: rest ∧
    Forall (λ t, is_ok (pollDeviceCode cfg t) = false) failed ∧ pollDeviceCode cfg t = Ok cred.
Proof.
  split.
  - induction events as [|[t|] events IH]; cbn [wait_for_code]; [done| |done].
    destruct (pollDeviceCode cfg t) as [c|e] eqn:E.
    + intros [= ->]. by exists [], t, events.
    + intros (failed & t' & rest & -> & Hf & Ht)%IH. exists (t :: failed), t', rest.
      split; [done|]. split; [|done]. constructor; [by rewrite E|done].
  - intros (failed & t & rest & -> & Hf & Ht). induction Hf as [|x failed Hx _ IH]; cbn.
    + by rewrite Ht.
    + by destruct (pollDeviceCode cfg x).
Qed.

(** It times out when no tick before the deadline gives a credential. *)
Lemma wait_times_out cfg failed rest :
  Forall (λ t, is_ok (pollDeviceCode cfg t) = false) failed →
  wait_for_code cfg ((Ticks <$> failed) ++ Deadline :: rest)
  = LoggedIn (Err "device code authentication timed out after 15 minutes").
Proof. induction 1 as [|t failed Ht _ IH]; cbn; [done|]. by destruct (pollDeviceCode cfg t). Qed.

(** A credential comes from a code of the server that was exchanged with the
    verifier that the server gave with it. *)
Lemma device_code_exchanged cfg t cred :
  pollDeviceCode cfg t = Ok cred →
  ∃ body codes form answer, tk_poll t = Ok (200%Z, body) ∧ poll_of_json body = Ok codes ∧
    tk_PostForm t (token_url cfg) form = Ok (200%Z, answer) ∧
    form !! "code" = Some codes.1 ∧ form !! "code_verifier" = Some codes.2.
Proof.
  unfold pollDeviceCode. destruct (tk_poll t) as [[status body]|] eqn:Ep; [|done].
  destruct (status =? 200)%Z eqn:Hs; [|done]. apply Z.eqb_eq in Hs as ->. cbn [negb].
  destruct (poll_of_json body) as [codes|] eqn:Eb; [|done]. unfold exchangeCodeForTokens.
  destruct (tk_PostForm t _ _) as [[status' answer]|] eqn:E; [|done].
  destruct (status' =? 200)%Z eqn:Hs'; [|done]. apply Z.eqb_eq in Hs' as ->. intros _.
  eexists body, codes, _, answer. split; [done|]. split; [done|]. split; [exact E|].
  split; by rewrite with_secret_lookup.
Qed.

(** Numbers are read from numbers and from texts alike. *)
Lemma flexible_int_forms (n : Z) s :
  in_int64 n → trim_space s = pretty n → trim_space s ≠ "" →
  parseFlexibleInt raw_text (Some (JNum n)) = Ok n ∧ parseFlexibleInt raw_text (Some (JStr s)) = Ok n.
Proof.
  intros Hn Hs Hne. unfold parseFlexibleInt, int64_of. unfold in_int64 in Hn.
  rewrite bool_decide_eq_true_2 by done. split; [done|].
  rewrite bool_decide_eq_false_2 by done. by rewrite Hs, ParseInt_pretty.
Qed.

(** Finding: the interval of the server is multiplied without a bound, so a large one
    overflows the duration, and making the ticker panics. *)
Lemma large_interval_panics cfg body id code events :
  document_of_json body = Ok (mk_device_document id code (Some (JNum 9223372037))) →
  LoginDeviceCode cfg (Ok (200%Z, body)) events = TickerPanics.
Proof. intros H. cbn. unfold parseDeviceCodeResponse. by rewrite H. Qed.
End device.

(** The state of a login has two characters for every random byte. *)
Lemma generateState_length buf s :
  generateState (Ok buf) = Ok s → String.length s = 2 * length buf.
Proof.
  intros [= <-]. rewrite <-length_chars, chars_implode. unfold hex_encode.
  induction buf as [|c buf IH]; [done|]. rewrite bind_cons, length_app, IH. cbn [length]. lia.
Qed.
