(* ===== verification/ProviderFactory.v ===== *)
(** * Choosing a provider (pkg/providers/factory.go, factory_provider.go,
    legacy_provider.go)

    From the configuration to the client that asks the model: by the entry of the
    list of models, and by the settings of the providers.  A client is given by
    the arguments it is constructed with.  And what the converted settings of
    providers give access to. *)
From stdpp Require Import base gmap strings list.
From Stdlib Require Import Ascii ZArith Lia.
From S2P Require Import Prelude GoStrings ProviderTypes Paths Fallback Agents Config Auth.
#[local] Open Scope go_scope.

(** ** The selection by provider settings *)
Inductive providerType :=
| HTTPCompat
| ClaudeAuth
| CodexAuth
| CodexCLIToken
| ClaudeCLI
| CodexCLI
| GitHubCopilot.

#[export] Instance providerType_eq_dec : EqDecision providerType.
Proof. solve_decision. Defined.

Record providerSelection := mk_providerSelection {
  ps_providerType : providerType;
  ps_apiKey : string;
  ps_apiBase : string;
  ps_proxy : string;
  ps_model : string;
  ps_workspace : string;
  ps_connectMode : string;
  ps_enableWebSearch : bool;
}.

(** A case of the switches either returns its selection or goes on with it. *)
Inductive chosen :=
| Return (sel : providerSelection)
| Continue (sel : providerSelection).

Definition defaultAnthropicAPIBase : string := "https://api.anthropic.com/v1".

(** [sel.apiKey = c.APIKey; sel.apiBase = c.APIBase; sel.proxy = c.Proxy], with the
    default when the base is empty. *)
Definition endpoint (c : ProviderConfig) (base : string) (sel : providerSelection) : providerSelection :=
  mk_providerSelection (ps_providerType sel) (pc_APIKey c) (or_else (pc_APIBase c) base) (pc_Proxy c)
    (ps_model sel) (ps_workspace sel) (ps_connectMode sel) (ps_enableWebSearch sel).

Definition set_type (sel : providerSelection) (t : providerType) : providerSelection :=
  mk_providerSelection t (ps_apiKey sel) (ps_apiBase sel) (ps_proxy sel) (ps_model sel) (ps_workspace sel)
    (ps_connectMode sel) (ps_enableWebSearch sel).
Definition set_base (sel : providerSelection) (base : string) : providerSelection :=
  mk_providerSelection (ps_providerType sel) (ps_apiKey sel) base (ps_proxy sel) (ps_model sel)
    (ps_workspace sel) (ps_connectMode sel) (ps_enableWebSearch sel).
Definition set_model (sel : providerSelection) (model : string) : providerSelection :=
  mk_providerSelection (ps_providerType sel) (ps_apiKey sel) (ps_apiBase sel) (ps_proxy sel) model
    (ps_workspace sel) (ps_connectMode sel) (ps_enableWebSearch sel).
Definition set_workspace (sel : providerSelection) (w : string) : providerSelection :=
  mk_providerSelection (ps_providerType sel) (ps_apiKey sel) (ps_apiBase sel) (ps_proxy sel) (ps_model sel)
    w (ps_connectMode sel) (ps_enableWebSearch sel).
Definition set_connectMode (sel : providerSelection) (m : string) : providerSelection :=
  mk_providerSelection (ps_providerType sel) (ps_apiKey sel) (ps_apiBase sel) (ps_proxy sel) (ps_model sel)
    (ps_workspace sel) m (ps_enableWebSearch sel).
Definition set_webSearch (sel : providerSelection) (b : bool) : providerSelection :=
  mk_providerSelection (ps_providerType sel) (ps_apiKey sel) (ps_apiBase sel) (ps_proxy sel) (ps_model sel)
    (ps_workspace sel) (ps_connectMode sel) b.

Definition is_oauth (method : string) : bool := bool_decide (method = "oauth") || bool_decide (method = "token").

(** A provider with a key. *)
Definition keyed (c : ProviderConfig) (base : string) (sel : providerSelection) : chosen :=
  Continue (if blank (pc_APIKey c) then sel else endpoint c base sel).

(** The body of the OpenAI cases, in both switches. *)
Definition use_openai (c : OpenAIProviderConfig) (sel : providerSelection) : chosen :=
  let sel := set_webSearch sel (oc_WebSearch c) in
  if bool_decide (pc_AuthMethod c = "codex-cli") then Return (set_type sel CodexCLIToken)
  else if is_oauth (pc_AuthMethod c) then Return (set_type sel CodexAuth)
  else Continue (endpoint c "https://api.openai.com/v1" sel).

(** The body of the Anthropic cases, in both switches. *)
Definition use_anthropic (c : ProviderConfig) (sel : providerSelection) : chosen :=
  if is_oauth (pc_AuthMethod c)
  then Return (set_type (set_base sel (or_else (pc_APIBase c) defaultAnthropicAPIBase)) ClaudeAuth)
  else Continue (endpoint c defaultAnthropicAPIBase sel).

Definition authed (c : ProviderConfig) : bool := negb (blank (pc_APIKey c)) || negb (blank (pc_AuthMethod c)).

Definition one_of (s : string) (l : list string) : bool := bool_decide (s ∈ l).

Section selection.
Context (home : string) (cfg : Config).
Let p := cfg_Providers cfg.

(** [workspace := cfg.WorkspacePath(); if workspace == "" { workspace = "." }]. *)
Definition cli_workspace : string := or_else (WorkspacePath home cfg) ".".

(** The switch on the name of the provider. *)
Definition explicit_provider (providerName model : string) (sel : providerSelection) : chosen :=
  if one_of providerName ["groq"] then keyed (p_Groq p) "https://api.groq.com/openai/v1" sel
  else if one_of providerName ["openai"; "gpt"] then
    (if authed (p_OpenAI p) then use_openai (p_OpenAI p) sel else Continue sel)
  else if one_of providerName ["anthropic"; "claude"] then
    (if authed (p_Anthropic p) then use_anthropic (p_Anthropic p) sel else Continue sel)
  else if one_of providerName ["openrouter"] then keyed (p_OpenRouter p) "https://openrouter.ai/api/v1" sel
  else if one_of providerName ["zhipu"; "glm"] then
    keyed (p_Zhipu p) "https://open.bigmodel.cn/api/paas/v4" sel
  else if one_of providerName ["gemini"; "google"] then
    keyed (p_Gemini p) "https://generativelanguage.googleapis.com/v1beta" sel
  else if one_of providerName ["vllm"] then
    Continue (if blank (pc_APIBase (p_VLLM p)) then sel else endpoint (p_VLLM p) "" sel)
  else if one_of providerName ["shengsuanyun"] then
    keyed (p_ShengSuanYun p) "https://router.shengsuanyun.com/api/v1" sel
  else if one_of providerName ["nvidia"] then keyed (p_Nvidia p) "https://integrate.api.nvidia.com/v1" sel
  else if one_of providerName ["claude-cli"; "claude-code"; "claudecode"] then
    Return (set_workspace (set_type sel ClaudeCLI) cli_workspace)
  else if one_of providerName ["codex-cli"; "codex-code"] then
    Return (set_workspace (set_type sel CodexCLI) cli_workspace)
  else if one_of providerName ["deepseek"] then
    (if blank (pc_APIKey (p_DeepSeek p)) then Continue sel
     else
       let sel := endpoint (p_DeepSeek p) "https://api.deepseek.com/v1" sel in
       Continue (if negb (bool_decide (model = "deepseek-chat"))
                    && negb (bool_decide (model = "deepseek-reasoner"))
                 then set_model sel "deepseek-chat" else sel))
  else if one_of providerName ["mistral"] then keyed (p_Mistral p) "https://api.mistral.ai/v1" sel
  else if one_of providerName ["github_copilot"; "copilot"] then
    Return (set_connectMode
              (set_base (set_type sel GitHubCopilot) (or_else (pc_APIBase (p_GitHubCopilot p)) "localhost:4321"))
              (pc_ConnectMode (p_GitHubCopilot p)))
  else Continue sel.

(** The switch that infers the provider from the model and the keys. *)
Definition inferred_provider (model : string) (sel : providerSelection) : result string chosen :=
  let lowerModel := to_lower model in
  let has_key c := negb (blank (pc_APIKey c)) in
  if (contains lowerModel "kimi" || contains lowerModel "moonshot" || has_prefix model "moonshot/")
     && has_key (p_Moonshot p)
  then Ok (Continue (endpoint (p_Moonshot p) "https://api.moonshot.cn/v1" sel))
  else if has_prefix model "openrouter/" || has_prefix model "anthropic/" || has_prefix model "openai/"
          || has_prefix model "meta-llama/" || has_prefix model "deepseek/" || has_prefix model "google/"
  then Ok (Continue (endpoint (p_OpenRouter p) "https://openrouter.ai/api/v1" sel))
  else if (contains lowerModel "claude" || has_prefix model "anthropic/") && authed (p_Anthropic p)
  then Ok (use_anthropic (p_Anthropic p) sel)
  else if (contains lowerModel "gpt" || has_prefix model "openai/") && authed (p_OpenAI p)
  then Ok (use_openai (p_OpenAI p) sel)
  else if (contains lowerModel "gemini" || has_prefix model "google/") && has_key (p_Gemini p)
  then Ok (Continue (endpoint (p_Gemini p) "https://generativelanguage.googleapis.com/v1beta" sel))
  else if (contains lowerModel "glm" || contains lowerModel "zhipu" || contains lowerModel "zai")
          && has_key (p_Zhipu p)
  then Ok (Continue (endpoint (p_Zhipu p) "https://open.bigmodel.cn/api/paas/v4" sel))
  else if (contains lowerModel "groq" || has_prefix model "groq/") && has_key (p_Groq p)
  then Ok (Continue (endpoint (p_Groq p) "https://api.groq.com/openai/v1" sel))
  else if (contains lowerModel "nvidia" || has_prefix model "nvidia/") && has_key (p_Nvidia p)
  then Ok (Continue (endpoint (p_Nvidia p) "https://integrate.api.nvidia.com/v1" sel))
  else if (contains lowerModel "ollama" || has_prefix model "ollama/") && has_key (p_Ollama p)
  then Ok (Continue (endpoint (p_Ollama p) "http://localhost:11434/v1" sel))
  else if (contains lowerModel "mistral" || has_prefix model "mistral/") && has_key (p_Mistral p)
  then Ok (Continue (endpoint (p_Mistral p) "https://api.mistral.ai/v1" sel))
  else if negb (blank (pc_APIBase (p_VLLM p))) then Ok (Continue (endpoint (p_VLLM p) "" sel))
  else if has_key (p_OpenRouter p)
  then Ok (Continue (endpoint (p_OpenRouter p) "https://openrouter.ai/api/v1" sel))
  else Err ("no API key configured for model: " +:+ model).

Definition check_selection (model : string) (sel : providerSelection) : result string providerSelection :=
  if bool_decide (ps_providerType sel = HTTPCompat) then
    if blank (ps_apiKey sel) && negb (has_prefix model "bedrock/")
    then Err ("no API key configured for provider (model: " +:+ model +:+ ")")
    else if blank (ps_apiBase sel)
    then Err ("no API base configured for provider (model: " +:+ model +:+ ")")
    else Ok sel
  else Ok sel.

Definition resolveProviderSelection : result string providerSelection :=
  let model := GetModelName (cfg_Defaults cfg) in
  let providerName := to_lower (ad_Provider (cfg_Defaults cfg)) in
  let sel := mk_providerSelection HTTPCompat "" "" "" model "" "" false in
  match (if blank providerName then Continue sel else explicit_provider providerName model sel) with
  | Return sel => Ok sel
  | Continue sel =>
      match (if blank (ps_apiKey sel) && blank (ps_apiBase sel) then inferred_provider model sel
             else Ok (Continue sel)) with
      | Err e => Err e
      | Ok (Return sel) => Ok sel
      | Ok (Continue sel) => check_selection model sel
      end
  end.
End selection.

(** ** The client of an entry of the list *)

(** The clients, with the arguments of their constructors. *)
Inductive Client :=
| HTTPProvider (apiKey apiBase proxy maxTokensField : string)
| AnthropicProvider (token baseURL : string)
| ClaudeProvider (token baseURL : string)
| CodexProvider (token accountID : string)
| AntigravityProvider
| ClaudeCliProvider (workspace : string)
| CodexCliProvider (workspace : string)
| GitHubCopilotProvider (uri connectMode model : string).

(** [normalizeBaseURL] of pkg/providers/anthropic. *)
Definition defaultBaseURL : string := "https://api.anthropic.com".
Definition normalizeBaseURL (apiBase : string) : string :=
  let base := trim_space apiBase in
  if blank base then defaultBaseURL
  else
    let base := trim_suffix (trim_right_char "/"%char base) "/v1" in
    if blank base then defaultBaseURL else base.

Definition ExtractProtocol (model : string) : string * string :=
  let model := trim_space model in
  match cut model "/"%char with
  | None => ("openai", model)
  | Some (protocol, modelID) => (protocol, modelID)
  end.

Definition getDefaultAPIBase (protocol : string) : string :=
  if one_of protocol ["openai"] then "https://api.openai.com/v1"
  else if one_of protocol ["openrouter"] then "https://openrouter.ai/api/v1"
  else if one_of protocol ["groq"] then "https://api.groq.com/openai/v1"
  else if one_of protocol ["zhipu"] then "https://open.bigmodel.cn/api/paas/v4"
  else if one_of protocol ["gemini"] then "https://generativelanguage.googleapis.com/v1beta"
  else if one_of protocol ["nvidia"] then "https://integrate.api.nvidia.com/v1"
  else if one_of protocol ["ollama"] then "http://localhost:11434/v1"
  else if one_of protocol ["moonshot"] then "https://api.moonshot.cn/v1"
  else if one_of protocol ["shengsuanyun"] then "https://router.shengsuanyun.com/api/v1"
  else if one_of protocol ["deepseek"] then "https://api.deepseek.com/v1"
  else if one_of protocol ["cerebras"] then "https://api.cerebras.ai/v1"
  else if one_of protocol ["volcengine"] then "https://ark.cn-beijing.volces.com/api/v3"
  else if one_of protocol ["qwen"] then "https://dashscope.aliyuncs.com/compatible-mode/v1"
  else if one_of protocol ["vllm"] then "http://localhost:8000/v1"
  else if one_of protocol ["mistral"] then "https://api.mistral.ai/v1"
  else "".

Definition http_protocols : list string :=
  ["openrouter"; "groq"; "zhipu"; "gemini"; "nvidia"; "ollama"; "moonshot"; "shengsuanyun"; "deepseek";
   "cerebras"; "volcengine"; "vllm"; "qwen"; "mistral"].

Section client.
(** [getCredential], and the connection of the Copilot client. *)
Context (getCredential : string → result string (option AuthCredential)).
Context (connect : string → string → result string unit).

Definition createClaudeAuthProvider : result string Client :=
  match getCredential "anthropic" with
  | Err e => Err ("loading auth credentials: " +:+ e)
  | Ok None => Err "no credentials for anthropic. Run: tinyclaw auth login --provider anthropic"
  | Ok (Some cred) => Ok (ClaudeProvider (cr_AccessToken cred) (normalizeBaseURL ""))
  end.

Definition createCodexAuthProvider : result string Client :=
  match getCredential "openai" with
  | Err e => Err ("loading auth credentials: " +:+ e)
  | Ok None => Err "no credentials for openai. Run: tinyclaw auth login --provider openai"
  | Ok (Some cred) => Ok (CodexProvider (cr_AccessToken cred) (cr_AccountID cred))
  end.

(** [connect uri model] starts the client and creates its session. *)
Definition NewGitHubCopilotProvider (uri connectMode model : string) : result string Client :=
  let connectMode := or_else connectMode "grpc" in
  if bool_decide (connectMode = "stdio") then Err "stdio mode not implemented"
  else if bool_decide (connectMode = "grpc") then
    let? _ := connect uri model in Ok (GitHubCopilotProvider uri connectMode model)
  else Err ("unknown connect mode: " +:+ connectMode).

Definition http_client (cfg : ModelConfig) (protocol modelID : string) : result string (Client * string) :=
  if blank (mdl_APIKey cfg) && blank (mdl_APIBase cfg)
  then Err ("api_key or api_base is required for HTTP-based protocol " +:+ protocol)
  else Ok (HTTPProvider (mdl_APIKey cfg) (or_else (mdl_APIBase cfg) (getDefaultAPIBase protocol))
             (mdl_Proxy cfg) (mdl_MaxTokensField cfg), modelID).

(** [cfg] is [None] for the nil pointer. *)
Definition CreateProviderFromConfig (cfg : option ModelConfig) : result string (Client * string) :=
  match cfg with
  | None => Err "config is nil"
  | Some cfg =>
      if blank (mdl_Model cfg) then Err "model is required"
      else
        let '(protocol, modelID) := ExtractProtocol (mdl_Model cfg) in
        if one_of protocol ["openai"] then
          if is_oauth (mdl_AuthMethod cfg) then
            let? provider := createCodexAuthProvider in Ok (provider, modelID)
          else http_client cfg protocol modelID
        else if one_of protocol http_protocols then http_client cfg protocol modelID
        else if one_of protocol ["anthropic"] then
          if is_oauth (mdl_AuthMethod cfg) then
            let? provider := createClaudeAuthProvider in Ok (provider, modelID)
          else if blank (mdl_APIKey cfg)
          then Err ("api_key is required for anthropic protocol (model: " +:+ mdl_Model cfg +:+ ")")
          else Ok (AnthropicProvider (mdl_APIKey cfg) (normalizeBaseURL (mdl_APIBase cfg)), modelID)
        else if one_of protocol ["antigravity"] then Ok (AntigravityProvider, modelID)
        else if one_of protocol ["claude-cli"; "claudecli"] then
          Ok (ClaudeCliProvider (or_else (mdl_Workspace cfg) "."), modelID)
        else if one_of protocol ["codex-cli"; "codexcli"] then
          Ok (CodexCliProvider (or_else (mdl_Workspace cfg) "."), modelID)
        else if one_of protocol ["github-copilot"; "copilot"] then
          let? provider := NewGitHubCopilotProvider (or_else (mdl_APIBase cfg) "localhost:4321")
                             (or_else (mdl_ConnectMode cfg) "grpc") modelID in
          Ok (provider, modelID)
        else Err ("unknown protocol " +:+ protocol +:+ " in model " +:+ mdl_Model cfg)
  end.

Definition set_Workspace (mc : ModelConfig) (w : string) : ModelConfig :=
  mk_ModelConfig (mdl_ModelName mc) (mdl_Model mc) (mdl_APIBase mc) (mdl_APIKey mc) (mdl_Proxy mc)
    (mdl_AuthMethod mc) (mdl_ConnectMode mc) w (mdl_RPM mc) (mdl_MaxTokensField mc).

(** The configuration and the counter of the lookups are the state. *)
Definition CreateProvider (home : string) (cfg : Config) (rrCounter : N) :
    result string (Client * string) * Config * N :=
  let model := GetModelName (cfg_Defaults cfg) in
  let cfg := if bool_decide (length (cfg_ModelList cfg) = 0) && HasProvidersConfig cfg
             then with_ModelList cfg (ConvertProvidersToModelList cfg) else cfg in
  if bool_decide (length (cfg_ModelList cfg) = 0)
  then (Err "no providers configured. Please add entries to model_list in your config", cfg, rrCounter)
  else
    match GetModelConfig cfg model rrCounter with
    | (Err e, rrCounter) => (Err ("model " +:+ model +:+ " not found in model_list: " +:+ e), cfg, rrCounter)
    | (Ok modelCfg, rrCounter) =>
        let modelCfg := if blank (mdl_Workspace modelCfg)
                        then set_Workspace modelCfg (WorkspacePath home cfg) else modelCfg in
        (match CreateProviderFromConfig (Some modelCfg) with
         | Err e => Err ("failed to create provider for model " +:+ model +:+ ": " +:+ e)
         | Ok r => Ok r
         end, cfg, rrCounter)
    end.
End client.

(** ** The selection *)

(** The settings and the default base of each provider the selection knows. *)
Definition endpoints (p : ProvidersConfig) : list (ProviderConfig * string) :=
  [(p_Groq p, "https://api.groq.com/openai/v1"); (p_OpenAI p : ProviderConfig, "https://api.openai.com/v1");
   (p_Anthropic p, defaultAnthropicAPIBase); (p_OpenRouter p, "https://openrouter.ai/api/v1");
   (p_Zhipu p, "https://open.bigmodel.cn/api/paas/v4");
   (p_Gemini p, "https://generativelanguage.googleapis.com/v1beta"); (p_VLLM p, "");
   (p_ShengSuanYun p, "https://router.shengsuanyun.com/api/v1");
   (p_Nvidia p, "https://integrate.api.nvidia.com/v1"); (p_DeepSeek p, "https://api.deepseek.com/v1");
   (p_Mistral p, "https://api.mistral.ai/v1"); (p_Moonshot p, "https://api.moonshot.cn/v1");
   (p_Ollama p, "http://localhost:11434/v1")].

(** Key, base and proxy are those of one provider. *)
Definition at_endpoint (p : ProvidersConfig) (sel : providerSelection) : Prop :=
  Exists (λ '(c, base), ps_apiKey sel = pc_APIKey c ∧ ps_apiBase sel = or_else (pc_APIBase c) base ∧
                        ps_proxy sel = pc_Proxy c) (endpoints p).

(** What holds of an outcome of a switch: one that returns has another type than
    HTTP, one that goes on has changed nothing or has taken one provider. *)
Definition outcome_ok (p : ProvidersConfig) (sel : providerSelection) (o : chosen) : Prop :=
  match o with
  | Return s => ps_providerType s ≠ HTTPCompat
  | Continue s => ps_providerType s = ps_providerType sel ∧ (s = sel ∨ at_endpoint p s)
  end.

Lemma endpoint_at p c base sel :
  (c, base) ∈ endpoints p → at_endpoint p (endpoint c base sel).
Proof. intros H. apply Exists_exists. by exists (c, base). Qed.

Lemma endpoint_ok p c base sel :
  (c, base) ∈ endpoints p → outcome_ok p sel (Continue (endpoint c base sel)).
Proof. split; [done|]. right. by apply endpoint_at. Qed.

Lemma keyed_ok p c base sel : (c, base) ∈ endpoints p → outcome_ok p sel (keyed c base sel).
Proof. intros H. unfold keyed. case_match; [by split; [|left]|by apply endpoint_ok]. Qed.

Lemma use_openai_ok p sel : outcome_ok p sel (use_openai (p_OpenAI p) sel).
Proof.
  unfold use_openai. case_match; [done|]. case_match; [done|].
  split; [done|]. right. apply endpoint_at. unfold endpoints. right. left.
Qed.

Lemma use_anthropic_ok p sel : outcome_ok p sel (use_anthropic (p_Anthropic p) sel).
Proof.
  unfold use_anthropic. case_match; [done|]. apply endpoint_ok. unfold endpoints. right. right. left.
Qed.

Ltac in_endpoints := unfold endpoints; repeat first [left | right].

#[local] Hint Resolve use_openai_ok use_anthropic_ok : tiny.
#[local] Hint Extern 1 (outcome_ok _ _ (keyed _ _ _)) => apply keyed_ok; in_endpoints : tiny.
#[local] Hint Extern 1 (outcome_ok _ _ (Continue (endpoint _ _ _))) => apply endpoint_ok; in_endpoints : tiny.
#[local] Hint Extern 2 (outcome_ok _ _ (Continue _)) => by split; [|left] : tiny.
#[local] Hint Extern 2 (outcome_ok _ _ (Return _)) => done : tiny.

Lemma explicit_ok home cfg name model sel :
  outcome_ok (cfg_Providers cfg) sel (explicit_provider home cfg name model sel).
Proof.
  unfold explicit_provider.
  repeat (case_match; [try solve [eauto with tiny]|]); try solve [eauto with tiny].
  all: repeat case_match; try solve [eauto with tiny].
  split; [done|]. right. apply (endpoint_at (cfg_Providers cfg) (p_DeepSeek _)). in_endpoints.
Qed.

Lemma inferred_ok cfg model sel o :
  inferred_provider cfg model sel = Ok o → outcome_ok (cfg_Providers cfg) sel o.
Proof.
  unfold inferred_provider.
  repeat (case_match; [intros [= <-]; solve [eauto with tiny]|]). done.
Qed.

(** A selection for an HTTP provider has a base and, unless the model is one of
    Bedrock, a key; the key, the base and the proxy are the settings of one
    provider, so the key of one is never sent to the base of another. *)
Lemma selection_usable home cfg sel :
  resolveProviderSelection home cfg = Ok sel → ps_providerType sel = HTTPCompat →
  at_endpoint (cfg_Providers cfg) sel ∧ ps_apiBase sel ≠ "" ∧
  (ps_apiKey sel ≠ "" ∨ has_prefix (GetModelName (cfg_Defaults cfg)) "bedrock/" = true).
Proof.
  unfold resolveProviderSelection. set (model := GetModelName _). set (name := to_lower _).
  set (sel0 := mk_providerSelection _ _ _ _ _ _ _ _). cbv zeta. intros H HT.
  assert (outcome_ok (cfg_Providers cfg) sel0
            (if blank name then Continue sel0 else explicit_provider home cfg name model sel0)) as H1.
  { destruct (blank name); [by split; [|left]|apply explicit_ok]. }
  destruct (if blank name then _ else _) as [s1|s1]; [by injection H as ->|].
  destruct H1 as [HT1 H1].
  assert (∀ s2, check_selection model s2 = Ok sel → sel = s2 ∧ ps_apiBase sel ≠ "" ∧
            (ps_apiKey sel ≠ "" ∨ has_prefix model "bedrock/" = true)) as Hcheck.
  { intros s2. unfold check_selection. case_bool_decide as Hd.
    - destruct (blank (ps_apiKey s2) && _) eqn:E1; [done|].
      destruct (blank (ps_apiBase s2)) eqn:E2; [done|]. intros [= <-]. apply blank_false in E2.
      split; [done|]. split; [done|]. apply andb_false_iff in E1 as [E1|E1].
      + left. by apply blank_false.
      + right. by apply negb_false_iff.
    - intros [= ->]. by destruct Hd. }
  destruct (blank (ps_apiKey s1) && blank (ps_apiBase s1)) eqn:Eb.
  - destruct (inferred_provider cfg model s1) as [o|] eqn:Ei; [|done].
    apply inferred_ok in Ei. destruct o as [s2|s2]; [by injection H as ->|].
    apply Hcheck in H as (-> & Hb & Hk). destruct Ei as [_ [->|Ha]]; [|done].
    apply andb_true_iff in Eb as [_ Eb%blank_true]. done.
  - apply Hcheck in H as (-> & Hb & Hk). destruct H1 as [->|Ha]; [|done]. done.
Qed.

Lemma selection_usable_witness :
  at_endpoint (cfg_Providers (with_keys "gpt" "gpt-4o" "sk-1" "sk-2"))
    (mk_providerSelection HTTPCompat "sk-1" "https://api.openai.com/v1" "" "gpt-4o" "" "" false).
Proof.
  apply (selection_usable "/home/u" (with_keys "gpt" "gpt-4o" "sk-1" "sk-2")); reflexivity.
Defined.

(** The providers whose case of the first switch takes a key and no more: the names
    they go by, their settings, and the default base. *)
Definition keyed_names : list (list string * (ProvidersConfig → ProviderConfig) * string) :=
  [(["groq"], p_Groq, "https://api.groq.com/openai/v1");
   (["openrouter"], p_OpenRouter, "https://openrouter.ai/api/v1");
   (["zhipu"; "glm"], p_Zhipu, "https://open.bigmodel.cn/api/paas/v4");
   (["gemini"; "google"], p_Gemini, "https://generativelanguage.googleapis.com/v1beta");
   (["shengsuanyun"], p_ShengSuanYun, "https://router.shengsuanyun.com/api/v1");
   (["nvidia"], p_Nvidia, "https://integrate.api.nvidia.com/v1");
   (["mistral"], p_Mistral, "https://api.mistral.ai/v1")].

Lemma explicit_keyed home cfg names get base name model sel :
  (names, get, base) ∈ keyed_names → name ∈ names →
  explicit_provider home cfg name model sel = keyed (get (cfg_Providers cfg)) base sel.
Proof.
  unfold keyed_names. intros H Hn.
  repeat (apply elem_of_cons in H as [[= -> -> ->]|H];
    [repeat (apply elem_of_cons in Hn as [->|Hn]; [reflexivity|]); by apply not_elem_of_nil in Hn|]).
  by apply not_elem_of_nil in H.
Qed.

(** The base of a provider with a default is never empty. *)
Lemma or_else_base (s base : string) : base ≠ "" → or_else s base ≠ "".
Proof. apply or_else_ne. Qed.

(** A provider that is named in the configuration and has a key is the one that
    is selected, whatever the model is called and whatever other keys there are. *)
Lemma explicit_key_used home cfg names get base :
  (names, get, base) ∈ keyed_names → to_lower (ad_Provider (cfg_Defaults cfg)) ∈ names →
  let c := get (cfg_Providers cfg) in
  pc_APIKey c ≠ "" →
  resolveProviderSelection home cfg =
  Ok (mk_providerSelection HTTPCompat (pc_APIKey c) (or_else (pc_APIBase c) base) (pc_Proxy c)
        (GetModelName (cfg_Defaults cfg)) "" "" false).
Proof.
  intros Hk Hn c Hkey. unfold resolveProviderSelection.
  assert (blank (to_lower (ad_Provider (cfg_Defaults cfg))) = false ∧ base ≠ "") as [-> Hbase].
  { rewrite blank_false. revert Hk Hn. generalize (to_lower (ad_Provider (cfg_Defaults cfg))).
    unfold keyed_names. intros name H Hn.
    repeat (apply elem_of_cons in H as [[= -> -> ->]|H];
      [repeat (apply elem_of_cons in Hn as [->|Hn]; [done|]); by apply not_elem_of_nil in Hn|]).
    by apply not_elem_of_nil in H. }
  rewrite (explicit_keyed home cfg names get base) by done. fold c. unfold keyed.
  rewrite (proj2 (blank_false _) Hkey). cbv zeta.
  unfold endpoint. cbn [ps_apiKey ps_apiBase ps_providerType ps_model ps_workspace ps_connectMode ps_enableWebSearch].
  rewrite (proj2 (blank_false _) Hkey). cbn [andb]. unfold check_selection.
  cbn [ps_apiKey ps_apiBase ps_providerType].
  rewrite (proj2 (blank_false _) Hkey), (proj2 (blank_false _) (or_else_ne (pc_APIBase c) base Hbase)).
  reflexivity.
Qed.

Lemma explicit_key_used_witness :
  resolveProviderSelection "/home/u" (with_keys "OpenRouter" "gpt-4o" "sk-1" "sk-2") =
  Ok (mk_providerSelection HTTPCompat "sk-2" "https://openrouter.ai/api/v1" "" "gpt-4o" "" "" false).
Proof.
  apply (explicit_key_used "/home/u" (with_keys "OpenRouter" "gpt-4o" "sk-1" "sk-2") ["openrouter"] p_OpenRouter
    "https://openrouter.ai/api/v1").
  - unfold keyed_names. right. left.
  - left.
  - discriminate.
Defined.

(** Finding: a model with the prefix of OpenAI or Anthropic is taken for one of
    OpenRouter before the keys of OpenAI and Anthropic are looked at; the tests
    for those prefixes further down are never reached. *)
Lemma prefixed_model_needs_openrouter :
  resolveProviderSelection "/home/u" (with_keys "" "openai/gpt-4o" "sk-1" "") =
    Err "no API key configured for provider (model: openai/gpt-4o)" ∧
  (∃ sel, resolveProviderSelection "/home/u" (with_keys "" "gpt-4o" "sk-1" "") = Ok sel).
Proof. split; [vm_compute; reflexivity|]. eexists. vm_compute. reflexivity. Qed.

(** Finding: a VLLM server needs a base only, and the case that names it asks for
    nothing else, but without a key the selection is rejected at the end. *)
Lemma vllm_without_key_rejected home cfg :
  to_lower (ad_Provider (cfg_Defaults cfg)) = "vllm" →
  pc_APIBase (p_VLLM (cfg_Providers cfg)) ≠ "" → pc_APIKey (p_VLLM (cfg_Providers cfg)) = "" →
  has_prefix (GetModelName (cfg_Defaults cfg)) "bedrock/" = false →
  ∃ e, resolveProviderSelection home cfg = Err e.
Proof.
  intros Hn Hb Hk Hm. unfold resolveProviderSelection. rewrite Hn. cbv zeta.
  change (blank "vllm") with false.
  change (explicit_provider home cfg "vllm" ?m ?s) with
    (Continue (if blank (pc_APIBase (p_VLLM (cfg_Providers cfg))) then s
               else endpoint (p_VLLM (cfg_Providers cfg)) "" s)).
  apply blank_false in Hb as Hb'. rewrite Hb'. unfold endpoint.
  cbn [ps_apiKey ps_apiBase ps_providerType ps_model ps_workspace ps_connectMode ps_enableWebSearch].
  assert (or_else (pc_APIBase (p_VLLM (cfg_Providers cfg))) "" = pc_APIBase (p_VLLM (cfg_Providers cfg))) as ->.
  { unfold or_else. by case_bool_decide. }
  rewrite Hb', andb_false_r. unfold check_selection. cbn [ps_apiKey ps_apiBase ps_providerType].
  rewrite bool_decide_eq_true_2, Hk, Hm by done. cbn. eauto.
Qed.

(** ** The protocol of an entry *)
(** Trimming a text that starts with a word and a separator leaves both. *)
Lemma trim_keeps a c b :
  is_space c = false → (∀ x, head (chars a) = Some x → is_space x = false) →
  ∃ b', trim_space (a +:+ String c b) = a +:+ String c b'.
Proof.
  intros Hc Ha. destruct (drop_while_stop is_space (reverse (chars b)) c (reverse (chars a)) Hc) as [k Hk].
  exists (implode (reverse k)). apply (inj chars). rewrite chars_trim_space, !chars_app. cbn [chars].
  rewrite chars_implode. unfold trim_by.
  rewrite (drop_while_id is_space (chars a ++ c :: chars b)).
  2: { destruct (chars a) as [|x l]; cbn [app]; [by rewrite Hc|by rewrite (Ha x)]. }
  rewrite reverse_app, reverse_cons, <-app_assoc. cbn [app]. rewrite Hk.
  by rewrite reverse_app, reverse_cons, !reverse_involutive, <-app_assoc.
Qed.

Lemma ExtractProtocol_prefix protocol id :
  protocol ≠ "" → slash ∉ chars protocol → (∀ x, head (chars protocol) = Some x → is_space x = false) →
  (ExtractProtocol (protocol +:+ "/" +:+ id)).1 = protocol.
Proof.
  intros Hne Hs Hh. unfold ExtractProtocol.
  destruct (trim_keeps protocol "/"%char id) as [b Hb]; [done|done|].
  change ("/" +:+ id) with (String "/" id). rewrite Hb. by rewrite cut_app.
Qed.

(** A model written with a protocol is given back in its two parts. *)
Lemma ExtractProtocol_join protocol id :
  protocol ≠ "" → id ≠ "" → slash ∉ chars protocol → trim_space protocol = protocol → trim_space id = id →
  ExtractProtocol (protocol +:+ "/" +:+ id) = (protocol, id).
Proof.
  intros Hp Hi Hs Htp Hti. unfold ExtractProtocol. change ("/" +:+ id) with (String "/" id).
  rewrite trim_space_join by done. by rewrite cut_app.
Qed.

(** Every protocol the factory knows. *)
Definition known_protocols : list string :=
  "openai" :: http_protocols ++
  ["anthropic"; "antigravity"; "claude-cli"; "claudecli"; "codex-cli"; "codexcli"; "github-copilot"; "copilot"].

Lemma migration_protocols m :
  m ∈ migrations →
  pm_protocol m ∈ known_protocols ∧ slash ∉ chars (pm_protocol m) ∧ pm_protocol m ≠ "" ∧
  trim_space (pm_protocol m) = pm_protocol m ∧
  (∀ x, head (chars (pm_protocol m)) = Some x → is_space x = false).
Proof.
  revert m. apply Forall_forall. unfold migrations.
  repeat (apply Forall_cons; split); try done;
    (split; [unfold known_protocols, http_protocols; cbn; set_solver|]);
    (split; [cbn; clear; set_solver|]);
    (split; [done|]); (split; [reflexivity|]); by intros x [= <-].
Qed.

(** The settings of every provider, under the protocol it is asked by, in the
    order of the converted list. *)
Definition provider_table (p : ProvidersConfig) : list (string * ProviderConfig) :=
  [("openai", p_OpenAI p : ProviderConfig); ("anthropic", p_Anthropic p);
   ("openrouter", p_OpenRouter p); ("groq", p_Groq p); ("zhipu", p_Zhipu p); ("vllm", p_VLLM p);
   ("gemini", p_Gemini p); ("nvidia", p_Nvidia p); ("ollama", p_Ollama p);
   ("moonshot", p_Moonshot p); ("shengsuanyun", p_ShengSuanYun p); ("deepseek", p_DeepSeek p);
   ("cerebras", p_Cerebras p); ("volcengine", p_VolcEngine p);
   ("github-copilot", p_GitHubCopilot p); ("antigravity", p_Antigravity p); ("qwen", p_Qwen p);
   ("mistral", p_Mistral p)].

(** Which providers are converted: those with a key or a base, Copilot also with a
    connection mode, Antigravity with a key or an authentication. *)
Definition is_configured (e : string * ProviderConfig) : bool :=
  let '(name, c) := e in
  negb (blank (pc_APIKey c))
  || (if bool_decide (name = "antigravity") then negb (blank (pc_AuthMethod c))
      else negb (blank (pc_APIBase c))
           || bool_decide (name = "github-copilot") && negb (blank (pc_ConnectMode c))).

(** What concerns the access to a provider: its protocol, key, base, proxy,
    authentication and connection mode. *)
Definition access : Type := string * string * string * string * string * string.

(** The access an entry gives. *)
Definition entry_access (mc : ModelConfig) : access :=
  ((ExtractProtocol (mdl_Model mc)).1, mdl_APIKey mc, mdl_APIBase mc, mdl_Proxy mc,
   mdl_AuthMethod mc, mdl_ConnectMode mc).

(** The access the settings of a provider say.  Copilot has neither key nor proxy,
    Antigravity neither base nor proxy; OpenAI, Anthropic and Antigravity have
    their authentication. *)
Definition settings_access (e : string * ProviderConfig) : access :=
  let '(name, c) := e in
  let only names (s : string) := if one_of name names then s else "" in
  let except names (s : string) := if one_of name names then "" else s in
  (name, except ["github-copilot"] (pc_APIKey c), except ["antigravity"] (pc_APIBase c),
   except ["github-copilot"; "antigravity"] (pc_Proxy c),
   only ["openai"; "anthropic"; "antigravity"] (pc_AuthMethod c),
   only ["github-copilot"] (pc_ConnectMode c)).

(** The access of the entry a migration builds, by its own protocol. *)
Definition built_access (m : providerMigrationConfig) (mc : ModelConfig) : access :=
  (pm_protocol m, mdl_APIKey mc, mdl_APIBase mc, mdl_Proxy mc, mdl_AuthMethod mc, mdl_ConnectMode mc).

Lemma migrations_table p :
  Forall2 (λ m e, built_access m <$> pm_buildConfig m p =
                  if is_configured e then Some (settings_access e) else None)
    migrations (provider_table p).
Proof.
  unfold migrations, provider_table.
  repeat (apply Forall2_cons; split); try apply Forall2_nil_2;
    cbn; unfold if_keyed; rewrite ?orb_false_r;
    repeat match goal with |- context [blank ?s] => destruct (blank s) end; reflexivity.
Qed.

Lemma configured_access p ms es :
  Forall2 (λ m e, built_access m <$> pm_buildConfig m p =
                  if is_configured e then Some (settings_access e) else None) ms es →
  (λ c, built_access c.1 c.2) <$> configured p ms = settings_access <$> filter is_configured es.
Proof.
  induction 1 as [|m e ms es H _ IH]; [done|]. unfold configured in *.
  rewrite filter_cons. cbn [omap list_omap].
  destruct (is_configured e), (pm_buildConfig m p) as [mc|]; try done; case_decide; try done.
  injection H as H. cbn [fmap option_fmap option_map]. by rewrite !fmap_cons, <-H, <-IH.
Qed.

(** With the model of the user, which has no protocol, the protocol stays. *)
Lemma converted_access um m mc0 mc p :
  contains um "/" = false → (m, mc0) ∈ configured p migrations → converted um (m, mc0) mc →
  entry_access mc = built_access m mc0 ∧ pm_protocol m ∈ known_protocols.
Proof.
  intros Hum Hm Hc. destruct (configured_build _ _ _ Hm) as [_ (id & Hmodel)].
  apply elem_of_configured in Hm as [Hm _].
  destruct (migration_protocols m Hm) as (Hk & Hs & Hne & _ & Hh). split; [|done].
  assert (∀ id, (ExtractProtocol (pm_protocol m +:+ "/" +:+ id)).1 = pm_protocol m) as HE
    by (intros; by apply ExtractProtocol_prefix).
  unfold entry_access, built_access.
  inversion Hc; subst; cbn; rewrite ?build_no_slash, ?Hmodel, HE by done; done.
Qed.

Lemma converted_list um p cs l :
  contains um "/" = false → Forall2 (converted um) cs l → cs ⊆ configured p migrations →
  entry_access <$> l = (λ c, built_access c.1 c.2) <$> cs
  ∧ Forall (λ mc, (entry_access mc).1.1.1.1.1 ∈ known_protocols) l.
Proof.
  intros Hum. induction 1 as [|[m mc0] mc cs l Hc _ IH]; intros Hcs; [done|].
  destruct (converted_access um m mc0 mc p) as [Ha Hk]; [done|apply Hcs; by left|done|].
  destruct IH as [IH1 IH2]; [intros c Hi; apply Hcs; by right|].
  split; [by rewrite !fmap_cons, IH1, Ha|]. constructor; [by rewrite Ha|done].
Qed.

(** C16: if the model the old settings name has no protocol of its own, the
    converted list has exactly one entry for each provider that is configured, in
    a fixed order, and that entry is asked by the protocol of this provider with the key,
    base, proxy, authentication and connection mode of the settings of this
    provider and of no other; the factory knows its protocol. *)
Theorem keys_stay_with_provider cfg :
  contains (GetModelName (cfg_Defaults cfg)) "/" = false →
  entry_access <$> ConvertProvidersToModelList cfg =
    settings_access <$> filter is_configured (provider_table (cfg_Providers cfg))
  ∧ Forall (λ mc, (entry_access mc).1.1.1.1.1 ∈ known_protocols) (ConvertProvidersToModelList cfg).
Proof.
  intros Hum. rewrite <-(configured_access _ _ _ (migrations_table (cfg_Providers cfg))).
  by eapply converted_list; [done|apply convert_converted|].
Qed.

Lemma keys_stay_with_provider_witness :
  entry_access <$> ConvertProvidersToModelList (with_keys "" "gpt-4o" "sk-1" "sk-2") =
  [("openai", "sk-1", "", "", "", ""); ("openrouter", "sk-2", "", "", "", "")].
Proof.
  rewrite (proj1 (keys_stay_with_provider (with_keys "" "gpt-4o" "sk-1" "sk-2") eq_refl)).
  vm_compute. reflexivity.
Defined.

(** Finding: with a protocol of its own the model takes the key elsewhere: the key
    of OpenRouter goes to the API of Anthropic. *)
Lemma openrouter_key_sent_to_anthropic :
  (CreateProvider (λ _, Err "") (λ _ _, Ok tt) "/home/u" (with_keys "" "anthropic/claude-3" "" "sk-or") 0).1.1 =
  Ok (AnthropicProvider "sk-or" "https://api.anthropic.com", "claude-3").
Proof. vm_compute. reflexivity. Qed.

(** ** The client of an entry *)
Section created.
Context (getCredential : string → result string (option AuthCredential)).
Context (connect : string → string → result string unit).
Notation create := (CreateProviderFromConfig getCredential connect).

Lemma http_base_known protocol :
  protocol ∈ "openai" :: http_protocols → getDefaultAPIBase protocol ≠ "".
Proof.
  revert protocol. apply Forall_forall. unfold http_protocols.
  repeat (apply Forall_cons; split); done.
Qed.

(** What an entry of each kind of protocol is turned into. *)
Lemma create_http mc :
  mdl_Model mc ≠ "" → (ExtractProtocol (mdl_Model mc)).1 ∈ "openai" :: http_protocols →
  ((ExtractProtocol (mdl_Model mc)).1 = "openai" → is_oauth (mdl_AuthMethod mc) = false) →
  create (Some mc) =
  http_client mc (ExtractProtocol (mdl_Model mc)).1 (ExtractProtocol (mdl_Model mc)).2.
Proof.
  intros Hm Hp Ho. cbn [CreateProviderFromConfig]. rewrite (proj2 (blank_false _) Hm).
  destruct (ExtractProtocol (mdl_Model mc)) as [protocol id]. cbn [fst snd] in *.
  unfold one_of. apply elem_of_cons in Hp as [->|Hp].
  - rewrite bool_decide_eq_true_2 by left. by rewrite Ho.
  - rewrite bool_decide_eq_false_2.
    2: { intros H%list_elem_of_singleton. subst. revert Hp. unfold http_protocols.
         intros Hp. repeat (apply elem_of_cons in Hp as [Hp|Hp]; [done|]). by apply not_elem_of_nil in Hp. }
    by rewrite bool_decide_eq_true_2.
Qed.

Lemma http_client_Ok mc protocol id client id' :
  protocol ∈ "openai" :: http_protocols →
  http_client mc protocol id = Ok (client, id') →
  id' = id ∧ ∃ base, base ≠ "" ∧ client = HTTPProvider (mdl_APIKey mc) base (mdl_Proxy mc) (mdl_MaxTokensField mc) ∧
    (mdl_APIKey mc ≠ "" ∨ mdl_APIBase mc ≠ "") ∧
    base = or_else (mdl_APIBase mc) (getDefaultAPIBase protocol).
Proof.
  intros Hp. unfold http_client. destruct (_ && _) eqn:E; [done|]. intros [= <- <-].
  split; [done|]. eexists. split; [by apply or_else_ne, http_base_known|]. split; [done|].
  split; [|done]. apply andb_false_iff in E as [E%blank_false|E%blank_false]; auto.
Qed.

(** The client the factory makes of an entry carries the key of the entry and
    no other; a client of an HTTP protocol has a base, that of the entry or the
    default of the protocol; a client of Anthropic has a key; the model that is
    asked is the entry's without its protocol. *)
Lemma created_client_of_entry mc client id :
  create (Some mc) = Ok (client, id) →
  id = (ExtractProtocol (mdl_Model mc)).2 ∧
  match client with
  | HTTPProvider key base proxy field =>
      key = mdl_APIKey mc ∧ base ≠ "" ∧ proxy = mdl_Proxy mc ∧ field = mdl_MaxTokensField mc ∧
      base = or_else (mdl_APIBase mc) (getDefaultAPIBase (ExtractProtocol (mdl_Model mc)).1)
  | AnthropicProvider key base =>
      key = mdl_APIKey mc ∧ key ≠ "" ∧ base = normalizeBaseURL (mdl_APIBase mc) ∧
      is_oauth (mdl_AuthMethod mc) = false
  | ClaudeProvider token _ => ∃ cred, getCredential "anthropic" = Ok (Some cred) ∧ token = cr_AccessToken cred
  | CodexProvider token account =>
      ∃ cred, getCredential "openai" = Ok (Some cred) ∧ token = cr_AccessToken cred ∧ account = cr_AccountID cred
  | ClaudeCliProvider w | CodexCliProvider w => w ≠ ""
  | GitHubCopilotProvider _ mode _ => mode = "grpc"
  | AntigravityProvider => True
  end.
Proof.
  cbn [CreateProviderFromConfig]. destruct (blank (mdl_Model mc)); [done|].
  destruct (ExtractProtocol (mdl_Model mc)) as [protocol id0]. cbn [fst snd].
  assert (protocol ∈ "openai" :: http_protocols →
    http_client mc protocol id0 = Ok (client, id) →
    id = id0 ∧ match client with
    | HTTPProvider key base proxy field =>
        key = mdl_APIKey mc ∧ base ≠ "" ∧ proxy = mdl_Proxy mc ∧ field = mdl_MaxTokensField mc ∧
        base = or_else (mdl_APIBase mc) (getDefaultAPIBase protocol)
    | _ => False end) as Hhttp.
  { intros Hp H. apply http_client_Ok in H as (-> & base & Hb & -> & _ & Heq); [|done]. done. }
  unfold one_of.
  case_bool_decide as H1.
  { destruct (is_oauth _).
    - unfold createCodexAuthProvider. destruct (getCredential "openai") as [[cred|]|]; [|done..].
      intros [= <- <-]. split; [done|]. by exists cred.
    - intros H. destruct Hhttp as [? ?]; [apply list_elem_of_singleton in H1; rewrite H1; left|done|].
      by destruct client. }
  case_bool_decide as H2.
  { intros H. destruct Hhttp as [? ?]; [by right|done|]. by destruct client. }
  case_bool_decide as H3.
  { destruct (is_oauth _) eqn:Ho.
    - unfold createClaudeAuthProvider. destruct (getCredential "anthropic") as [[cred|]|]; [|done..].
      intros [= <- <-]. split; [done|]. by exists cred.
    - destruct (blank (mdl_APIKey mc)) eqn:Hk; [done|]. intros [= <- <-].
      apply blank_false in Hk. done. }
  case_bool_decide as H4; [by intros [= <- <-]|].
  case_bool_decide as H5; [intros [= <- <-]; split; [done|by apply or_else_ne]|].
  case_bool_decide as H6; [intros [= <- <-]; split; [done|by apply or_else_ne]|].
  case_bool_decide as H7; [|done].
  unfold NewGitHubCopilotProvider. case_bool_decide; [done|]. case_bool_decide as Hg; [|done].
  destruct (connect _ _); [|done]. intros [= <- <-]. done.
Qed.
End created.

Lemma created_client_of_entry_witness :
  "https://api.groq.com/openai/v1" = or_else "" (getDefaultAPIBase "groq") ∧
  CreateProviderFromConfig (λ _, Err "") (λ _ _, Ok tt) (Some (default_entry "fast" "groq/llama" "" "k")) =
  Ok (HTTPProvider "k" "https://api.groq.com/openai/v1" "" "", "llama").
Proof.
  split; [|reflexivity].
  apply (created_client_of_entry (λ _, Err "") (λ _ _, Ok tt) (default_entry "fast" "groq/llama" "" "k")
    (HTTPProvider "k" "https://api.groq.com/openai/v1" "" "") "llama"). reflexivity.
Defined.

(** Finding: with an account instead of a key the base of the entry is not used. *)
Lemma account_ignores_base :
  CreateProviderFromConfig (λ _, Ok (Some demo_cred)) (λ _ _, Ok tt)
    (Some (mk_ModelConfig "c" "anthropic/claude" "https://proxy.local" "" "" "oauth" "" "" 0 "")) =
  Ok (ClaudeProvider "old" "https://api.anthropic.com", "claude").
Proof. vm_compute. reflexivity. Qed.

(** Finding: the hint to log in is never shown: the store answers an error, not a nil
    credential, for a provider that is not in it. *)
Lemma login_hint_not_shown (f : auth_file) connect mc creds :
  LoadStore f = Ok creds → creds !! "anthropic" = None →
  (ExtractProtocol (mdl_Model mc)).1 = "anthropic" → mdl_Model mc ≠ "" → is_oauth (mdl_AuthMethod mc) = true →
  CreateProviderFromConfig (λ p, GetCredential p f) connect (Some mc) =
  Err "loading auth credentials: credential not found".
Proof.
  intros Hf Hn Hp Hm Ho. cbn [CreateProviderFromConfig]. rewrite (proj2 (blank_false _) Hm).
  destruct (ExtractProtocol (mdl_Model mc)) as [protocol id]. cbn [fst] in Hp. subst protocol.
  change (one_of "anthropic" ["openai"]) with false. change (one_of "anthropic" http_protocols) with false.
  change (one_of "anthropic" ["anthropic"]) with true. cbv iota. rewrite Ho.
  unfold createClaudeAuthProvider, GetCredential. by rewrite Hf, Hn.
Qed.

(** ** From old settings to a client *)

(** The entry the user's model gets from the first configured provider. *)
Definition legacy_entry (m : providerMigrationConfig) (mc : ModelConfig) (um : string) : ModelConfig :=
  set_Model (set_ModelName mc um) (buildModelWithProtocol (pm_protocol m) um).

(** Old settings that name a model and no provider, and a key for a provider of
    an HTTP protocol as the first one configured, give a client of that provider
    with that key which asks for that model. *)
Lemma legacy_settings_create getCredential connect home cfg m mc rest ctr :
  let um := GetModelName (cfg_Defaults cfg) in
  cfg_ModelList cfg = [] → HasProvidersConfig cfg = true →
  ad_Provider (cfg_Defaults cfg) = "" → um ≠ "" → um ∉ (pm_protocol <$> migrations) →
  contains um "/" = false → trim_space um = um →
  configured (cfg_Providers cfg) migrations = (m, mc) :: rest →
  pm_protocol m ∈ "openai" :: http_protocols → mdl_APIKey mc ≠ "" →
  (pm_protocol m = "openai" → is_oauth (mdl_AuthMethod mc) = false) →
  (CreateProvider getCredential connect home cfg ctr).1.1 =
  Ok (HTTPProvider (mdl_APIKey mc) (or_else (mdl_APIBase mc) (getDefaultAPIBase (pm_protocol m)))
        (mdl_Proxy mc) (mdl_MaxTokensField mc), um).
Proof.
  intros um Hl Hhas Hp Hum Hnot Hs Ht Hc Hproto Hkey Ho. unfold CreateProvider. fold um.
  rewrite Hl, Hhas. change (bool_decide (length [] = 0) && true) with true. cbv iota zeta.
  pose proof (conversion_serves_user_model cfg m mc rest ctr Hp Hum Hnot Hc) as E.
  cbv zeta in E. fold um in E.
  rewrite bool_decide_eq_false_2.
  2: { intros Hnil%nil_length_inv. destruct (GetModelConfig_nil _ um ctr Hnil) as [e He].
       by rewrite He in E. }
  rewrite E. cbv zeta. fold (legacy_entry m mc um). clear E.
  assert ((m, mc) ∈ configured (cfg_Providers cfg) migrations) as Hin by (rewrite Hc; left).
  apply elem_of_configured in Hin as [Hm _].
  destruct (migration_protocols m Hm) as (_ & Hslash & Hne & Htp & _).
  set (mc' := if blank _ then _ else _).
  assert (mdl_Model mc' = pm_protocol m +:+ "/" +:+ um ∧ mdl_AuthMethod mc' = mdl_AuthMethod mc ∧
          mdl_APIKey mc' = mdl_APIKey mc ∧ mdl_APIBase mc' = mdl_APIBase mc ∧ mdl_Proxy mc' = mdl_Proxy mc ∧
          mdl_MaxTokensField mc' = mdl_MaxTokensField mc) as (HM & HA & HK & HB & HP & HF).
  { unfold mc', legacy_entry. rewrite build_no_slash by done. by case_match. }
  assert (ExtractProtocol (mdl_Model mc') = (pm_protocol m, um)) as HE
    by (rewrite HM; by apply ExtractProtocol_join).
  rewrite create_http; rewrite ?HE; [|rewrite HM; by apply app_blank|done|rewrite HA; done].
  cbn [fst snd]. unfold http_client. rewrite HK, HB, HP, HF. apply blank_false in Hkey. by rewrite Hkey.
Qed.

Lemma legacy_settings_create_witness :
  (CreateProvider (λ _, Err "") (λ _ _, Ok tt) "/home/u" (with_keys "" "gpt-4o" "sk-1" "sk-2") 5).1.1 =
  Ok (HTTPProvider "sk-1" "https://api.openai.com/v1" "" "", "gpt-4o").
Proof.
  apply (legacy_settings_create (λ _, Err "") (λ _ _, Ok tt) "/home/u" (with_keys "" "gpt-4o" "sk-1" "sk-2")
    migrate_openai (http_auth_model "openai" "openai/gpt-5.2" (mk_ProviderConfig "sk-1" "" "" "" ""))
    [(migrate_openrouter, http_model "openrouter" "openrouter/auto" (mk_ProviderConfig "sk-2" "" "" "" ""))] 5);
    try reflexivity; try discriminate.
  - apply (bool_decide_unpack _). vm_compute. reflexivity.
  - left.
Defined.
