(* ===== verification/Settings.v ===== *)
(** * The other settings (pkg/config/config.go, defaults.go)

    The settings of channels, tools and services, with their defaults; the values
    of JSON that settings accept in more than one form; and what is written back. *)
From stdpp Require Import base gmap strings list pretty.
From Stdlib Require Import Ascii ZArith QArith Lia.
From S2P Require Import Prelude GoStrings ProviderTypes Encoding Agents Config Channels.
#[local] Open Scope go_scope.
#[local] Open Scope nat_scope.

(** ** The settings *)
Record WhatsAppConfig := mk_WhatsAppConfig {
  wa_Enabled : bool;
  wa_BridgeURL : string;
  wa_AllowFrom : list string;
}.

Record TelegramConfig := mk_TelegramConfig {
  tg_Enabled : bool;
  tg_Token : string;
  tg_Proxy : string;
  tg_AllowFrom : list string;
}.

Record FeishuConfig := mk_FeishuConfig {
  fs_Enabled : bool;
  fs_AppID : string;
  fs_AppSecret : string;
  fs_EncryptKey : string;
  fs_VerificationToken : string;
  fs_AllowFrom : list string;
}.

Record DiscordConfig := mk_DiscordConfig {
  dc_Enabled : bool;
  dc_Token : string;
  dc_AllowFrom : list string;
  dc_MentionOnly : bool;
}.

Record MaixCamConfig := mk_MaixCamConfig {
  mx_Enabled : bool;
  mx_Host : string;
  mx_Port : Z;
  mx_AllowFrom : list string;
}.

Record QQConfig := mk_QQConfig {
  qq_Enabled : bool;
  qq_AppID : string;
  qq_AppSecret : string;
  qq_AllowFrom : list string;
}.

Record DingTalkConfig := mk_DingTalkConfig {
  dt_Enabled : bool;
  dt_ClientID : string;
  dt_ClientSecret : string;
  dt_AllowFrom : list string;
}.

Record SlackConfig := mk_SlackConfig {
  sl_Enabled : bool;
  sl_BotToken : string;
  sl_AppToken : string;
  sl_AllowFrom : list string;
}.

Record LINEConfig := mk_LINEConfig {
  ln_Enabled : bool;
  ln_ChannelSecret : string;
  ln_ChannelAccessToken : string;
  ln_WebhookHost : string;
  ln_WebhookPort : Z;
  ln_WebhookPath : string;
  ln_AllowFrom : list string;
}.

Record OneBotConfig := mk_OneBotConfig {
  ob_Enabled : bool;
  ob_WSUrl : string;
  ob_AccessToken : string;
  ob_ReconnectInterval : Z;
  ob_GroupTriggerPrefix : list string;
  ob_AllowFrom : list string;
}.

Record WeComConfig := mk_WeComConfig {
  wc_Enabled : bool;
  wc_Token : string;
  wc_EncodingAESKey : string;
  wc_WebhookURL : string;
  wc_WebhookHost : string;
  wc_WebhookPort : Z;
  wc_WebhookPath : string;
  wc_AllowFrom : list string;
  wc_ReplyTimeout : Z;
}.

Record WeComAppConfig := mk_WeComAppConfig {
  wapp_Enabled : bool;
  wapp_CorpID : string;
  wapp_CorpSecret : string;
  wapp_AgentID : Z;
  wapp_Token : string;
  wapp_EncodingAESKey : string;
  wapp_WebhookHost : string;
  wapp_WebhookPort : Z;
  wapp_WebhookPath : string;
  wapp_AllowFrom : list string;
  wapp_ReplyTimeout : Z;
}.

Record XMPPConfig := mk_XMPPConfig {
  xm_Enabled : bool;
  xm_Server : string;
  xm_JID : string;
  xm_Password : string;
  xm_OMEMOEnabled : bool;
  xm_MUCRooms : list string;
  xm_AllowFrom : list string;
}.

Record ChannelsConfig := mk_ChannelsConfig {
  ch_WhatsApp : WhatsAppConfig;
  ch_Telegram : TelegramConfig;
  ch_Feishu : FeishuConfig;
  ch_Discord : DiscordConfig;
  ch_MaixCam : MaixCamConfig;
  ch_QQ : QQConfig;
  ch_DingTalk : DingTalkConfig;
  ch_Slack : SlackConfig;
  ch_LINE : LINEConfig;
  ch_OneBot : OneBotConfig;
  ch_WeCom : WeComConfig;
  ch_WeComApp : WeComAppConfig;
  ch_XMPP : XMPPConfig;
}.

Record HeartbeatConfig := mk_HeartbeatConfig {
  hb_Enabled : bool;
  hb_Interval : Z;
}.

Record DevicesConfig := mk_DevicesConfig {
  dv_Enabled : bool;
  dv_MonitorUSB : bool;
}.

Record TailscaleConfig := mk_TailscaleConfig {
  ts_Enabled : bool;
  ts_Hostname : string;
  ts_StateDir : string;
  ts_AuthKey : string;
}.

Record ApertureConfig := mk_ApertureConfig {
  ap_Enabled : bool;
  ap_ProxyURL : string;
  ap_WebhookURL : string;
  ap_WebhookKey : string;
  ap_CerbosURL : string;
}.

Record GatewayConfig := mk_GatewayConfig {
  gw_Host : string;
  gw_Port : Z;
}.

Record BraveConfig := mk_BraveConfig {
  br_Enabled : bool;
  br_APIKey : string;
  br_MaxResults : Z;
}.

Record TavilyConfig := mk_TavilyConfig {
  tv_Enabled : bool;
  tv_APIKey : string;
  tv_BaseURL : string;
  tv_MaxResults : Z;
}.

Record DuckDuckGoConfig := mk_DuckDuckGoConfig {
  dd_Enabled : bool;
  dd_MaxResults : Z;
}.

Record PerplexityConfig := mk_PerplexityConfig {
  px_Enabled : bool;
  px_APIKey : string;
  px_MaxResults : Z;
}.

Record WebToolsConfig := mk_WebToolsConfig {
  wt_Brave : BraveConfig;
  wt_Tavily : TavilyConfig;
  wt_DuckDuckGo : DuckDuckGoConfig;
  wt_Perplexity : PerplexityConfig;
  wt_Proxy : string;
}.

Record CronToolsConfig := mk_CronToolsConfig {
  ct_ExecTimeoutMinutes : Z;
}.

Record ExecConfig := mk_ExecConfig {
  ex_EnableDenyPatterns : bool;
  ex_CustomDenyPatterns : list string;
}.

Record MCPServerConfig := mk_MCPServerConfig {
  ms_Name : string;
  ms_Command : string;
  ms_Args : list string;
  ms_Prefix : string;
  ms_Enabled : bool;
}.

Record MCPConfig := mk_MCPConfig {
  mcp_Servers : list MCPServerConfig;
}.

Record SearchCacheConfig := mk_SearchCacheConfig {
  sc_MaxSize : Z;
  sc_TTLSeconds : Z;
}.

Record ClawHubRegistryConfig := mk_ClawHubRegistryConfig {
  hub_Enabled : bool;
  hub_BaseURL : string;
  hub_AuthToken : string;
  hub_SearchPath : string;
  hub_SkillsPath : string;
  hub_DownloadPath : string;
  hub_Timeout : Z;
  hub_MaxZipSize : Z;
  hub_MaxResponseSize : Z;
}.

Record SkillsRegistriesConfig := mk_SkillsRegistriesConfig {
  sr_ClawHub : ClawHubRegistryConfig;
}.

Record SkillsToolsConfig := mk_SkillsToolsConfig {
  st_Registries : SkillsRegistriesConfig;
  st_MaxConcurrentSearches : Z;
  st_SearchCache : SearchCacheConfig;
}.

Record ToolsConfig := mk_ToolsConfig {
  tc_Web : WebToolsConfig;
  tc_Cron : CronToolsConfig;
  tc_Exec : ExecConfig;
  tc_Skills : SkillsToolsConfig;
  tc_MCP : MCPConfig;
}.

(** The sections of the configuration; the agents, the bindings and the session
    are in [Agents] and [Routing], the models in [Config]. *)
Record Settings := mk_Settings {
  se_Models : Config;
  se_Channels : ChannelsConfig;
  se_Gateway : GatewayConfig;
  se_Tools : ToolsConfig;
  se_Heartbeat : HeartbeatConfig;
  se_Devices : DevicesConfig;
  se_Tailscale : TailscaleConfig;
  se_Aperture : ApertureConfig;
}.

Definition default_channels : ChannelsConfig := {|
  ch_WhatsApp := mk_WhatsAppConfig false "ws://localhost:3001" [];
  ch_Telegram := mk_TelegramConfig false "" "" [];
  ch_Feishu := mk_FeishuConfig false "" "" "" "" [];
  ch_Discord := mk_DiscordConfig false "" [] false;
  ch_MaixCam := mk_MaixCamConfig false "0.0.0.0" 18790 [];
  ch_QQ := mk_QQConfig false "" "" [];
  ch_DingTalk := mk_DingTalkConfig false "" "" [];
  ch_Slack := mk_SlackConfig false "" "" [];
  ch_LINE := mk_LINEConfig false "" "" "0.0.0.0" 18791 "/webhook/line" [];
  ch_OneBot := mk_OneBotConfig false "ws://127.0.0.1:3001" "" 5 [] [];
  ch_WeCom := mk_WeComConfig false "" "" "" "0.0.0.0" 18793 "/webhook/wecom" [] 5;
  ch_WeComApp := mk_WeComAppConfig false "" "" 0 "" "" "0.0.0.0" 18792 "/webhook/wecom-app" [] 5;
  ch_XMPP := mk_XMPPConfig false "" "" "" false [] [];
|}.

Definition default_tools : ToolsConfig := {|
  tc_Web := mk_WebToolsConfig (mk_BraveConfig false "" 5) (mk_TavilyConfig false "" "" 0)
              (mk_DuckDuckGoConfig true 5) (mk_PerplexityConfig false "" 5) "";
  tc_Cron := mk_CronToolsConfig 5;
  tc_Exec := mk_ExecConfig true [];
  tc_Skills := mk_SkillsToolsConfig
                 (mk_SkillsRegistriesConfig
                    (mk_ClawHubRegistryConfig true "https://clawhub.ai" "" "" "" "" 0 0 0)) 2
                 (mk_SearchCacheConfig 50 300);
  tc_MCP := mk_MCPConfig [];
|}.

Definition DefaultSettings : Settings := {|
  se_Models := DefaultConfig;
  se_Channels := default_channels;
  se_Gateway := mk_GatewayConfig "127.0.0.1" 18790;
  se_Tools := default_tools;
  se_Heartbeat := mk_HeartbeatConfig true 30;
  se_Devices := mk_DevicesConfig false true;
  se_Tailscale := mk_TailscaleConfig false "" "" "";
  se_Aperture := mk_ApertureConfig false "" "" "" "";
|}.

(** ** Lists of strings that may be written as numbers *)

Section flexible.
(** The format of values other than strings and numbers. *)
Context (Sprint : json → string).

Definition flexible_item (v : json) : string :=
  match v with
  | JStr s => s
  | JNum n => pretty (float64_of n)
  | _ => Sprint v
  end.

(** [FlexibleStringSlice.UnmarshalJSON]; the error is that of the decoder. *)
Definition UnmarshalJSON_slice (data : json) : result string (list string) :=
  match data with
  | JNull => Ok []
  | JArr items =>
      match mapM string_of items with
      | Some ss => Ok ss
      | None => Ok (flexible_item <$> items)
      end
  | _ => Err "cannot unmarshal into a list"
  end.
End flexible.

(** ** The model of an agent, a string or an object *)

Definition UnmarshalJSON_model (data : json) : result string AgentModelConfig :=
  match string_of data with
  | Some s => Ok (mk_AgentModelConfig s None)
  | None =>
      match data with
      | JObj kvs =>
          match string_of (default JNull (field "primary" kvs)),
                string_list_of (default JNull (field "fallbacks" kvs)) with
          | Some primary, Some fallbacks => Ok (mk_AgentModelConfig primary fallbacks)
          | _, _ => Err "cannot unmarshal a field of the model"
          end
      | _ => Err "cannot unmarshal into a model"
      end
  end.

Definition MarshalJSON_model (m : AgentModelConfig) : json :=
  let fallbacks := default [] (am_Fallbacks m) in
  if bool_decide (fallbacks = []) && negb (bool_decide (am_Primary m = "")) then JStr (am_Primary m)
  else JObj ((if bool_decide (am_Primary m = "") then [] else [("primary", JStr (am_Primary m))])
             ++ (if bool_decide (fallbacks = []) then [] else [("fallbacks", JArr (JStr <$> fallbacks))])).

(** [SaveConfig]: what is written, unless a step before it fails. *)
Definition SaveConfig {D : Type} (MarshalIndent : Settings → result string D)
    (MkdirAll : string → option string) (WriteFile : string → D → option string)
    (Dir : string → string) (path : string) (cfg : Settings) : option string :=
  match MarshalIndent cfg with
  | Err e => Some e
  | Ok data =>
      match MkdirAll (Dir path) with
      | Some e => Some e
      | None => WriteFile path data
      end
  end.

(** ** Numbers and strings admit the same senders *)
(** A list with a number in it is decoded item by item. *)
Lemma slice_with_number Sprint items n :
  JNum n ∈ items → UnmarshalJSON_slice Sprint (JArr items) = Ok (flexible_item Sprint <$> items).
Proof.
  intros H. unfold UnmarshalJSON_slice.
  assert (mapM string_of items = None) as ->; [|done].
  apply eq_None_not_Some. intros [ss Hss%mapM_Some]. apply list_elem_of_lookup in H as [i Hi].
  by destruct (Forall2_lookup_l _ _ _ _ _ Hss Hi) as (y & _ & Hy).
Qed.

(** An allowlist that names senders by numbers, as long as they are exact as floats,
    admits whom the same list of strings admits. *)
Lemma number_admits_as_string Sprint name ids :
  Forall (λ n, (Z.abs n < 2 ^ 53)%Z) ids →
  ∃ l, UnmarshalJSON_slice Sprint (JArr (JNum <$> ids)) = Ok l ∧
    UnmarshalJSON_slice Sprint (JArr ((λ n, JStr (pretty n)) <$> ids)) = Ok l ∧
    ∀ sender, IsAllowed (NewBaseChannel name l) sender =
              IsAllowed (NewBaseChannel name (pretty <$> ids)) sender.
Proof.
  intros H. exists (pretty <$> ids).
  assert (flexible_item Sprint <$> (JNum <$> ids) = pretty <$> ids) as Hf.
  { induction H as [|n ids Hn _ IH]; [done|]. csimpl. by rewrite IH, float64_exact. }
  assert ((λ n : Z, JStr (pretty n)) <$> ids = JStr <$> (pretty <$> ids)) as Hs.
  { rewrite <-list_fmap_compose. done. }
  split; [|split; [|done]].
  - destruct ids as [|n ids]; [done|]. rewrite (slice_with_number Sprint _ n) by (csimpl; left). by rewrite Hf.
  - unfold UnmarshalJSON_slice. by rewrite Hs, mapM_strings.
Qed.

(** Finding: numbers pass through a float, so a long identifier written as a number,
    such as those of Discord, becomes another one, and its owner is not admitted. *)
Lemma long_number_admits_another :
  let l := default [] (match UnmarshalJSON_slice (λ _, "") (JArr [JNum 123456789012345679])
                       with Ok l => Some l | Err _ => None end) in
  l = ["123456789012345680"] ∧
  IsAllowed (NewBaseChannel "discord" l) "123456789012345679" = false ∧
  IsAllowed (NewBaseChannel "discord" l) "123456789012345680" = true.
Proof. split_and!; vm_compute; reflexivity. Qed.

(** ** Models of agents survive a save, but for an empty list of fallbacks *)
Lemma model_roundtrip m :
  UnmarshalJSON_model (MarshalJSON_model m) =
  Ok (mk_AgentModelConfig (am_Primary m)
        (match am_Fallbacks m with Some [] => None | fallbacks => fallbacks end)).
Proof.
  destruct m as [primary fallbacks]. unfold MarshalJSON_model. cbn [am_Primary am_Fallbacks].
  assert (∀ l, string_list_of (JArr (JStr <$> l)) = Some (Some l)) as HM.
  { intros l. unfold string_list_of. by rewrite mapM_strings. }
  assert (∀ v, field "primary" [("fallbacks", v)] = None ∧ field "fallbacks" [("fallbacks", v)] = Some v) as H1
    by (intros v; split; reflexivity).
  assert (∀ u v, field "primary" [("primary", u); ("fallbacks", v)] = Some u
               ∧ field "fallbacks" [("primary", u); ("fallbacks", v)] = Some v) as H2
    by (intros u v; split; reflexivity).
  destruct (decide (primary = "")) as [->|Hp].
  - rewrite andb_false_r, (bool_decide_eq_true_2 ("" = "")) by done.
    destruct fallbacks as [[|x l]|]; cbn [default from_option id]; [done| |done].
    rewrite bool_decide_eq_false_2 by done. unfold UnmarshalJSON_model. cbn [string_of app].
    destruct (H1 (JArr (JStr <$> x :: l))) as [-> ->]. cbn [default from_option id string_of]. by rewrite HM.
  - rewrite (bool_decide_eq_false_2 _ Hp). destruct fallbacks as [[|x l]|]; cbn [default from_option id]; [done| |done].
    rewrite bool_decide_eq_false_2 by done. cbn [andb]. unfold UnmarshalJSON_model. cbn [string_of app].
    destruct (H2 (JStr primary) (JArr (JStr <$> x :: l))) as [-> ->]. cbn [default from_option id string_of].
    by rewrite HM.
Qed.

(** Finding: an agent with an explicitly empty list of fallbacks, which means none,
    comes back from a saved configuration with no list, which means the defaults. *)
Lemma empty_fallbacks_lost :
  UnmarshalJSON_model (MarshalJSON_model (mk_AgentModelConfig "gpt-4" (Some [])))
  = Ok (mk_AgentModelConfig "gpt-4" None).
Proof. reflexivity. Qed.
