(* ===== verification/ChannelSetup.v ===== *)
(** * Making the channels (pkg/channels/manager.go, chinese_channels.go)

    Which channels a manager has, for a configuration.  A channel of a platform is
    made from its section by a parameter, which stands for the client of the platform;
    what the constructors check themselves is written out. *)
From stdpp Require Import base gmap strings list.
From Stdlib Require Import Ascii ZArith Lia.
From S2P Require Import Prelude GoStrings Channels Config Settings.
#[local] Open Scope go_scope.

Definition set_text (s : string) : bool := negb (bool_decide (s = "")).

Section setup.
Context {W : Type}.

(** The clients of the platforms; those that can refuse their settings (an invalid
    token, proxy or address) return a result. *)
Record platforms := mk_platforms {
  pf_telegram : TelegramConfig → result string (Channel W);
  pf_whatsapp : WhatsAppConfig → Channel W;
  pf_feishu : FeishuConfig → Channel W;
  pf_qq : QQConfig → Channel W;
  pf_dingtalk : DingTalkConfig → Channel W;
  pf_onebot : OneBotConfig → Channel W;
  pf_wecom : WeComConfig → Channel W;
  pf_wecom_app : WeComAppConfig → Channel W;
  pf_discord : DiscordConfig → result string (Channel W);
  pf_maixcam : MaixCamConfig → Channel W;
  pf_slack : SlackConfig → Channel W;
  pf_line : LINEConfig → Channel W;
  pf_xmpp : XMPPConfig → result string (Channel W);
}.
Context (P : platforms).
(** How the program was built: with the channels of Chinese platforms, and for an
    architecture of 64 bits. *)
Context (chinese : bool) (wide : bool).

(** ** The constructors *)
Definition NewFeishuChannel (cfg : FeishuConfig) : result string (Channel W) :=
  if wide then Ok (pf_feishu P cfg) else Err "feishu channel is not supported on 32-bit architectures".
Definition NewDingTalkChannel (cfg : DingTalkConfig) : result string (Channel W) :=
  if bool_decide (dt_ClientID cfg = "" ∨ dt_ClientSecret cfg = "")
  then Err "dingtalk client_id and client_secret are required" else Ok (pf_dingtalk P cfg).
Definition NewWeComBotChannel (cfg : WeComConfig) : result string (Channel W) :=
  if bool_decide (wc_Token cfg = "" ∨ wc_WebhookURL cfg = "")
  then Err "wecom token and webhook_url are required" else Ok (pf_wecom P cfg).
Definition NewWeComAppChannel (cfg : WeComAppConfig) : result string (Channel W) :=
  if bool_decide (wapp_CorpID cfg = "" ∨ wapp_CorpSecret cfg = "" ∨ wapp_AgentID cfg = 0%Z)
  then Err "wecom_app corp_id, corp_secret and agent_id are required" else Ok (pf_wecom_app P cfg).
Definition NewSlackChannel (cfg : SlackConfig) : result string (Channel W) :=
  if bool_decide (sl_BotToken cfg = "" ∨ sl_AppToken cfg = "")
  then Err "slack bot_token and app_token are required" else Ok (pf_slack P cfg).
Definition NewLINEChannel (cfg : LINEConfig) : result string (Channel W) :=
  if bool_decide (ln_ChannelSecret cfg = "" ∨ ln_ChannelAccessToken cfg = "")
  then Err "line channel_secret and channel_access_token are required" else Ok (pf_line P cfg).
Definition NewXMPPChannel (cfg : XMPPConfig) : result string (Channel W) :=
  if bool_decide (xm_JID cfg = "") then Err "xmpp jid is required"
  else if bool_decide (xm_Password cfg = "") then Err "xmpp password is required"
  else pf_xmpp P cfg.

(** One block of the initialization: a channel that is enabled and can be made. *)
Definition init_channel (name : string) (enabled : bool) (made : result string (Channel W))
    (m : gmap string (Channel W)) : gmap string (Channel W) :=
  if enabled then match made with Ok c => <[name := c]> m | Err _ => m end else m.

Definition initChineseChannels (cfg : ChannelsConfig) (m : gmap string (Channel W)) : gmap string (Channel W) :=
  if negb chinese then m
  else
    let m := init_channel "feishu" (fs_Enabled (ch_Feishu cfg)) (NewFeishuChannel (ch_Feishu cfg)) m in
    let m := init_channel "qq" (qq_Enabled (ch_QQ cfg)) (Ok (pf_qq P (ch_QQ cfg))) m in
    let m := init_channel "dingtalk" (dt_Enabled (ch_DingTalk cfg) && set_text (dt_ClientID (ch_DingTalk cfg)))
               (NewDingTalkChannel (ch_DingTalk cfg)) m in
    let m := init_channel "onebot" (ob_Enabled (ch_OneBot cfg) && set_text (ob_WSUrl (ch_OneBot cfg)))
               (Ok (pf_onebot P (ch_OneBot cfg))) m in
    let m := init_channel "wecom" (wc_Enabled (ch_WeCom cfg) && set_text (wc_Token (ch_WeCom cfg)))
               (NewWeComBotChannel (ch_WeCom cfg)) m in
    init_channel "wecom_app" (wapp_Enabled (ch_WeComApp cfg) && set_text (wapp_CorpID (ch_WeComApp cfg)))
      (NewWeComAppChannel (ch_WeComApp cfg)) m.

Definition initChannels (cfg : ChannelsConfig) (m : gmap string (Channel W)) : gmap string (Channel W) :=
  let m := init_channel "telegram" (tg_Enabled (ch_Telegram cfg) && set_text (tg_Token (ch_Telegram cfg)))
             (pf_telegram P (ch_Telegram cfg)) m in
  let m := init_channel "whatsapp" (wa_Enabled (ch_WhatsApp cfg) && set_text (wa_BridgeURL (ch_WhatsApp cfg)))
             (Ok (pf_whatsapp P (ch_WhatsApp cfg))) m in
  let m := initChineseChannels cfg m in
  let m := init_channel "discord" (dc_Enabled (ch_Discord cfg) && set_text (dc_Token (ch_Discord cfg)))
             (pf_discord P (ch_Discord cfg)) m in
  let m := init_channel "maixcam" (mx_Enabled (ch_MaixCam cfg)) (Ok (pf_maixcam P (ch_MaixCam cfg))) m in
  let m := init_channel "slack" (sl_Enabled (ch_Slack cfg) && set_text (sl_BotToken (ch_Slack cfg)))
             (NewSlackChannel (ch_Slack cfg)) m in
  let m := init_channel "line" (ln_Enabled (ch_LINE cfg) && set_text (ln_ChannelAccessToken (ch_LINE cfg)))
             (NewLINEChannel (ch_LINE cfg)) m in
  init_channel "xmpp" (xm_Enabled (ch_XMPP cfg) && set_text (xm_JID (ch_XMPP cfg))) (NewXMPPChannel (ch_XMPP cfg)) m.

Definition NewManager (cfg : ChannelsConfig) : ChannelManager W := mk_ChannelManager (initChannels cfg ∅) false.

(** ** Which channels there are *)

(** The table of the channels: the name, whether it is asked for, and its making. *)
Definition channel_table (cfg : ChannelsConfig) : list (string * bool * result string (Channel W)) :=
  [("telegram", tg_Enabled (ch_Telegram cfg) && set_text (tg_Token (ch_Telegram cfg)), pf_telegram P (ch_Telegram cfg));
   ("whatsapp", wa_Enabled (ch_WhatsApp cfg) && set_text (wa_BridgeURL (ch_WhatsApp cfg)),
      Ok (pf_whatsapp P (ch_WhatsApp cfg)));
   ("feishu", chinese && fs_Enabled (ch_Feishu cfg), NewFeishuChannel (ch_Feishu cfg));
   ("qq", chinese && qq_Enabled (ch_QQ cfg), Ok (pf_qq P (ch_QQ cfg)));
   ("dingtalk", chinese && (dt_Enabled (ch_DingTalk cfg) && set_text (dt_ClientID (ch_DingTalk cfg))),
      NewDingTalkChannel (ch_DingTalk cfg));
   ("onebot", chinese && (ob_Enabled (ch_OneBot cfg) && set_text (ob_WSUrl (ch_OneBot cfg))),
      Ok (pf_onebot P (ch_OneBot cfg)));
   ("wecom", chinese && (wc_Enabled (ch_WeCom cfg) && set_text (wc_Token (ch_WeCom cfg))),
      NewWeComBotChannel (ch_WeCom cfg));
   ("wecom_app", chinese && (wapp_Enabled (ch_WeComApp cfg) && set_text (wapp_CorpID (ch_WeComApp cfg))),
      NewWeComAppChannel (ch_WeComApp cfg));
   ("discord", dc_Enabled (ch_Discord cfg) && set_text (dc_Token (ch_Discord cfg)), pf_discord P (ch_Discord cfg));
   ("maixcam", mx_Enabled (ch_MaixCam cfg), Ok (pf_maixcam P (ch_MaixCam cfg)));
   ("slack", sl_Enabled (ch_Slack cfg) && set_text (sl_BotToken (ch_Slack cfg)), NewSlackChannel (ch_Slack cfg));
   ("line", ln_Enabled (ch_LINE cfg) && set_text (ln_ChannelAccessToken (ch_LINE cfg)), NewLINEChannel (ch_LINE cfg));
   ("xmpp", xm_Enabled (ch_XMPP cfg) && set_text (xm_JID (ch_XMPP cfg)), NewXMPPChannel (ch_XMPP cfg))].

Definition init_rows (rows : list (string * bool * result string (Channel W))) (m : gmap string (Channel W)) :=
  foldl (λ m row, init_channel row.1.1 row.1.2 row.2 m) m rows.

Lemma initChannels_table cfg m : initChannels cfg m = init_rows (channel_table cfg) m.
Proof. unfold initChannels, initChineseChannels, init_rows, channel_table. destruct chinese; reflexivity. Qed.

Lemma init_rows_lookup rows m name :
  NoDup ((λ row, row.1.1) <$> rows) →
  init_rows rows m !! name =
  match find_first (λ row, bool_decide (row.1.1 = name)) rows with
  | Some (_, true, Ok c) => Some c
  | _ => m !! name
  end.
Proof.
  revert m. induction rows as [|[[n enabled] made] rows IH]; intros m Hnd; [done|].
  cbn [fmap list_fmap] in Hnd. apply NoDup_cons in Hnd as [Hn Hnd]. cbn [init_rows foldl find_first fst snd].
  fold (init_rows rows). change (foldl _ ?m rows) with (init_rows rows m). rewrite IH by done.
  destruct (bool_decide_reflect (n = name)) as [->|Hnn].
  - assert (find_first (λ row, bool_decide (row.1.1 = name)) rows = None) as ->.
    { apply find_first_None, Forall_forall. intros row Hrow. apply bool_decide_eq_false_2. intros <-.
      apply Hn. apply list_elem_of_fmap. by exists row. }
    unfold init_channel. destruct enabled; [|done]. destruct made; [|done]. apply lookup_insert_eq.
  - assert (init_channel n enabled made m !! name = m !! name) as ->; [|done].
    unfold init_channel. destruct enabled; [|done]. destruct made; [|done]. by apply lookup_insert_ne.
Qed.

(** The manager has exactly the channels that are asked for and can be made; one that
    cannot be made does not keep the others from being made. *)
Lemma manager_channels cfg name c :
  GetChannel name (NewManager cfg) = Some c ↔ (name, true, Ok c) ∈ channel_table cfg.
Proof.
  unfold GetChannel, NewManager. cbn [channels]. rewrite initChannels_table.
  assert (NoDup ((λ row, row.1.1) <$> channel_table cfg)) as Hnd.
  { change ((λ row, row.1.1) <$> channel_table cfg) with ["telegram"; "whatsapp"; "feishu"; "qq"; "dingtalk";
      "onebot"; "wecom"; "wecom_app"; "discord"; "maixcam"; "slack"; "line"; "xmpp"].
    refine (bool_decide_unpack _ _). by vm_compute. }
  rewrite init_rows_lookup by done. generalize dependent (channel_table cfg). intros rows Hnd. split.
  - destruct (find_first _ rows) as [[[n []] [c'|]]|] eqn:E; try done.
    apply find_first_Some in E as (l1 & l2 & -> & Hn%bool_decide_eq_true_1 & _). cbn in Hn |- *. subst n. intros [= ->].
    apply elem_of_app. right. left.
  - intros Hin. apply list_elem_of_split in Hin as (l1 & l2 & ->).
    rewrite fmap_app in Hnd. cbn in Hnd. apply NoDup_app in Hnd as (_ & Hd & _).
    assert (find_first (λ row, bool_decide (row.1.1 = name)) (l1 ++ (name, true, Ok c) :: l2)
            = Some (name, true, Ok c)) as ->; [|done].
    induction l1 as [|row l1 IH]; cbn [app find_first]; [by rewrite bool_decide_eq_true_2|].
    rewrite bool_decide_eq_false_2.
    + apply IH. intros x Hx. apply Hd. cbn. by right.
    + intros E. apply (Hd row.1.1); [by left|]. rewrite E. by left.
Qed.
End setup.
Arguments platforms : clear implicits.

(** The default configuration has no channel. *)
Lemma default_has_no_channel {W} (P : platforms W) chinese wide :
  channels (NewManager P chinese wide (se_Channels DefaultSettings)) = ∅.
Proof. by destruct chinese. Qed.

(** Finding: a channel that is enabled but lacks a part of its settings is left out
    without an error of the manager (here: Slack without its second token). *)
Lemma incomplete_slack_left_out {W} (P : platforms W) chinese wide cfg :
  sl_AppToken (ch_Slack cfg) = "" → GetChannel "slack" (NewManager P chinese wide cfg) = None.
Proof.
  intros H. destruct (GetChannel _ _) as [c|] eqn:E; [|done]. apply manager_channels in E.
  unfold channel_table in E. cbn in E. unfold NewSlackChannel in E. rewrite H in E.
  rewrite bool_decide_eq_true_2 in E by by right. rewrite !elem_of_cons in E.
  set_solver.
Qed.
