(* ===== verification/Migration.v ===== *)
(** * Settings of another assistant (pkg/migrate/config.go)

    The configuration of OpenClaw, an object of JSON, is turned into settings of
    TinyClaw and merged into those that exist.  The loops over maps visit the
    members in an order that is an argument; the numbers of JSON are integers. *)
From stdpp Require Import base gmap strings list pretty.
From Stdlib Require Import Ascii ZArith QArith Lia.
From coqutil Require Import Datatypes.RecordSetters.
From S2P Require Import Prelude GoStrings ProviderTypes Encoding Agents Config Settings.
Import TriangleBracketNotations.
#[local] Open Scope go_scope.
#[local] Open Scope nat_scope.

Abbreviation members := (list (string * json)) (only parsing).

(** ** Keys *)

(** A key of letters of ASCII; other bytes stay as they are. *)
Fixpoint snake_go (prev : option ascii) (l : list ascii) : list ascii :=
  match l with
  | [] => []
  | r :: rest =>
      (if is_upper r then
         (match prev with
          | Some p =>
              if is_lower p || is_digit p then ["_"%char]
              else if is_upper p && match rest with c :: _ => is_lower c | [] => false end then ["_"%char]
              else []
          | None => []
          end) ++ [lower_char r]
       else [r]) ++ snake_go (Some r) rest
  end.
Definition camelToSnake (s : string) : string := implode (snake_go None (chars s)).

(** An assignment to a key of a map. *)
Definition put (m : members) (kv : string * json) : members := filter (λ x, x.1 ≠ kv.1) m ++ [kv].

Section keys.
(** The order in which a loop visits the members of a map. *)
Context (order : members → members).

Fixpoint convertKeysToSnake (data : json) : json :=
  match data with
  | JObj v =>
      let converted :=
        (fix go (v : members) : members :=
           match v with [] => [] | (key, val) :: v => (key, convertKeysToSnake val) :: go v end) v in
      JObj (foldl put [] ((λ '(key, val), (camelToSnake key, val)) <$> order converted))
  | JArr v =>
      JArr ((fix go (v : list json) : list json :=
               match v with [] => [] | val :: v => convertKeysToSnake val :: go v end) v)
  | _ => data
  end.

(** The file of the configuration, among those that exist. *)
Definition findOpenClawConfig (Join : string → string → string) (exists_ : string → bool)
    (openclawHome : string) : result string string :=
  match find_first exists_ [Join openclawHome "openclaw.json"; Join openclawHome "config.json"] with
  | Some p => Ok p
  | None => Err ("no config file found in " +:+ openclawHome +:+ " (tried openclaw.json, config.json)")
  end.

Definition LoadOpenClawConfig {D : Type} (json_Unmarshal : D → result string members)
    (ReadFile : string → result string D) (configPath : string) : result string members :=
  match ReadFile configPath with
  | Err e => Err ("reading OpenClaw config: " +:+ e)
  | Ok data =>
      match json_Unmarshal data with
      | Err e => Err ("parsing OpenClaw config: " +:+ e)
      | Ok raw =>
          match convertKeysToSnake (JObj raw) with
          | JObj result => Ok result
          | _ => Err "unexpected config format"
          end
      end
  end.
End keys.

(** ** Reading members *)
Definition getMap (data : members) (k : string) : option members :=
  match key k data with Some (JObj m) => Some m | _ => None end.
Definition getString (data : members) (k : string) : option string :=
  match key k data with Some (JStr s) => Some s | _ => None end.
Definition getFloat (data : members) (k : string) : option Z :=
  match key k data with Some (JNum n) => Some (float64_of n) | _ => None end.
Definition getBool (data : members) (k : string) : option bool :=
  match key k data with Some (JBool b) => Some b | _ => None end.
Definition getBoolOrDefault (data : members) (k : string) (defaultVal : bool) : bool :=
  match getBool data k with Some v => v | None => defaultVal end.
Definition string_item (v : json) : option string := match v with JStr s => Some s | _ => None end.
Definition getStringSlice (data : members) (k : string) : list string :=
  match key k data with Some (JArr items) => omap string_item items | _ => [] end.

(** [int(v)] of a float; out of range, the smallest integer, as on amd64. *)
Definition int_of_float (v : Z) : Z :=
  if bool_decide (int64_min <= v <= int64_max)%Z then v else int64_min.

(** [if v, ok := ...; ok { r.Field = ... }] *)
Definition on_ok {A R} (v : option A) (set : A → R → R) (r : R) : R :=
  match v with Some a => set a r | None => r end.

(** [strings.Replace(s, old, new, 1)] *)
Definition replace_first (s old new : string) : string :=
  match index s old with
  | Some i => str_take i s +:+ new +:+ str_drop (i + String.length old) s
  | None => s
  end.
Definition rewriteWorkspacePath (path : string) : string := replace_first path ".openclaw" ".tinyclaw".

(** ** Conversion *)
Definition supportedProviders : list string :=
  ["anthropic"; "openai"; "openrouter"; "groq"; "zhipu"; "vllm"; "gemini"; "qwen"; "deepseek";
   "github_copilot"; "mistral"].
Definition supportedChannels : list string :=
  ["telegram"; "discord"; "whatsapp"; "feishu"; "qq"; "dingtalk"; "maixcam"].

Definition convert_defaults (defaults : members) (d : AgentDefaults) : AgentDefaults :=
  let d := match getString defaults "model_name" with
           | Some v => d <|ad_ModelName := v|>
           | None => on_ok (getString defaults "model") (λ v d, d <|ad_Model := v|>) d
           end in
  let d := on_ok (getFloat defaults "max_tokens") (λ v d, d <|ad_MaxTokens := int_of_float v|>) d in
  let d := on_ok (getFloat defaults "temperature") (λ v d, d <|ad_Temperature := Some (inject_Z v)|>) d in
  let d := on_ok (getFloat defaults "max_tool_iterations")
             (λ v d, d <|ad_MaxToolIterations := int_of_float v|>) d in
  on_ok (getString defaults "workspace") (λ v d, d <|ad_Workspace := rewriteWorkspacePath v|>) d.

(** The switch over the names of providers. *)
Definition set_provider (name : string) (pc : ProviderConfig) (web_search : bool) (p : ProvidersConfig) :
    ProvidersConfig :=
  if bool_decide (name = "anthropic") then p <|p_Anthropic := pc|>
  else if bool_decide (name = "openai") then p <|p_OpenAI := mk_OpenAIProviderConfig pc web_search|>
  else if bool_decide (name = "openrouter") then p <|p_OpenRouter := pc|>
  else if bool_decide (name = "groq") then p <|p_Groq := pc|>
  else if bool_decide (name = "zhipu") then p <|p_Zhipu := pc|>
  else if bool_decide (name = "vllm") then p <|p_VLLM := pc|>
  else if bool_decide (name = "gemini") then p <|p_Gemini := pc|>
  else p.

Definition convert_provider (acc : ProvidersConfig * list string) (kv : string * json) :
    ProvidersConfig * list string :=
  let '(p, warnings) := acc in
  match kv.2 with
  | JObj pMap =>
      let apiKey := default "" (getString pMap "api_key") in
      let apiBase := default "" (getString pMap "api_base") in
      if negb (bool_decide (kv.1 ∈ supportedProviders)) then
        (p, if negb (blank apiKey) || negb (blank apiBase)
            then warnings ++ ["Provider '" +:+ kv.1 +:+ "' not supported in TinyClaw, skipping"] else warnings)
      else
        (set_provider kv.1 (mk_ProviderConfig apiKey apiBase "" "" "")
           (getBoolOrDefault pMap "web_search" true) p, warnings)
  | _ => acc
  end.

(** The switch over the names of channels, a function for each. *)
Section channel.
Context (cMap : members).
Let enabled := default false (getBool cMap "enabled").
Let allowFrom := getStringSlice cMap "allow_from".

Definition convert_telegram (c : TelegramConfig) : TelegramConfig :=
  on_ok (getString cMap "token") (λ v c, c <|tg_Token := v|>)
    (c <|tg_Enabled := enabled|> <|tg_AllowFrom := allowFrom|>).
Definition convert_discord (c : DiscordConfig) : DiscordConfig :=
  on_ok (getString cMap "token") (λ v c, c <|dc_Token := v|>)
    (c <|dc_Enabled := enabled|> <|dc_AllowFrom := allowFrom|>).
Definition convert_whatsapp (c : WhatsAppConfig) : WhatsAppConfig :=
  on_ok (getString cMap "bridge_url") (λ v c, c <|wa_BridgeURL := v|>)
    (c <|wa_Enabled := enabled|> <|wa_AllowFrom := allowFrom|>).
Definition convert_feishu (c : FeishuConfig) : FeishuConfig :=
  let c := c <|fs_Enabled := enabled|> <|fs_AllowFrom := allowFrom|> in
  let c := on_ok (getString cMap "app_id") (λ v c, c <|fs_AppID := v|>) c in
  let c := on_ok (getString cMap "app_secret") (λ v c, c <|fs_AppSecret := v|>) c in
  let c := on_ok (getString cMap "encrypt_key") (λ v c, c <|fs_EncryptKey := v|>) c in
  on_ok (getString cMap "verification_token") (λ v c, c <|fs_VerificationToken := v|>) c.
Definition convert_qq (c : QQConfig) : QQConfig :=
  let c := c <|qq_Enabled := enabled|> <|qq_AllowFrom := allowFrom|> in
  let c := on_ok (getString cMap "app_id") (λ v c, c <|qq_AppID := v|>) c in
  on_ok (getString cMap "app_secret") (λ v c, c <|qq_AppSecret := v|>) c.
Definition convert_dingtalk (c : DingTalkConfig) : DingTalkConfig :=
  let c := c <|dt_Enabled := enabled|> <|dt_AllowFrom := allowFrom|> in
  let c := on_ok (getString cMap "client_id") (λ v c, c <|dt_ClientID := v|>) c in
  on_ok (getString cMap "client_secret") (λ v c, c <|dt_ClientSecret := v|>) c.
Definition convert_maixcam (c : MaixCamConfig) : MaixCamConfig :=
  let c := c <|mx_Enabled := enabled|> <|mx_AllowFrom := allowFrom|> in
  let c := on_ok (getString cMap "host") (λ v c, c <|mx_Host := v|>) c in
  on_ok (getFloat cMap "port") (λ v c, c <|mx_Port := int_of_float v|>) c.

Definition set_channel (name : string) (ch : ChannelsConfig) : ChannelsConfig :=
  if bool_decide (name = "telegram") then ch <|ch_Telegram ::= convert_telegram|>
  else if bool_decide (name = "discord") then ch <|ch_Discord ::= convert_discord|>
  else if bool_decide (name = "whatsapp") then ch <|ch_WhatsApp ::= convert_whatsapp|>
  else if bool_decide (name = "feishu") then ch <|ch_Feishu ::= convert_feishu|>
  else if bool_decide (name = "qq") then ch <|ch_QQ ::= convert_qq|>
  else if bool_decide (name = "dingtalk") then ch <|ch_DingTalk ::= convert_dingtalk|>
  else if bool_decide (name = "maixcam") then ch <|ch_MaixCam ::= convert_maixcam|>
  else ch.
End channel.

Definition convert_channel (acc : ChannelsConfig * list string) (kv : string * json) :
    ChannelsConfig * list string :=
  let '(ch, warnings) := acc in
  match kv.2 with
  | JObj cMap =>
      if negb (bool_decide (kv.1 ∈ supportedChannels)) then
        (ch, warnings ++ ["Channel '" +:+ kv.1 +:+ "' not supported in TinyClaw, skipping"])
      else (set_channel cMap kv.1 ch, warnings)
  | _ => acc
  end.

Definition convert_gateway (gateway : members) (g : GatewayConfig) : GatewayConfig :=
  let g := on_ok (getString gateway "host") (λ v g, g <|gw_Host := v|>) g in
  on_ok (getFloat gateway "port") (λ v g, g <|gw_Port := int_of_float v|>) g.

(** The old section for searches becomes the one of Brave. *)
Definition convert_search (search : members) (w : WebToolsConfig) : WebToolsConfig :=
  let w := on_ok (getString search "api_key")
             (λ v w, let w := w <|wt_Brave -> br_APIKey := v|> in
                     if blank v then w else w <|wt_Brave -> br_Enabled := true|>) w in
  on_ok (getFloat search "max_results")
    (λ v w, w <|wt_Brave -> br_MaxResults := int_of_float v|>
              <|wt_DuckDuckGo -> dd_MaxResults := int_of_float v|>) w.

(** The sections of the document. *)
Definition agents_section (data : members) (d : AgentDefaults) : AgentDefaults :=
  on_ok (agents ← getMap data "agents"; getMap agents "defaults") convert_defaults d.
Definition gateway_section (data : members) (g : GatewayConfig) : GatewayConfig :=
  on_ok (getMap data "gateway") convert_gateway g.
Definition search_section (data : members) (w : WebToolsConfig) : WebToolsConfig :=
  on_ok (tools ← getMap data "tools"; web ← getMap tools "web"; getMap web "search") convert_search w.

Section convert.
Context (order : members → members).

Definition providers_section (data : members) (acc : ProvidersConfig * list string) :
    ProvidersConfig * list string :=
  on_ok (getMap data "providers") (λ providers acc, foldl convert_provider acc (order providers)) acc.
Definition channels_section (data : members) (acc : ChannelsConfig * list string) :
    ChannelsConfig * list string :=
  on_ok (getMap data "channels") (λ channels acc, foldl convert_channel acc (order channels)) acc.

(** The settings and the warnings; there is no error. *)
Definition ConvertConfig (data : members) : Settings * list string :=
  let cfg := DefaultSettings in
  let cfg := cfg <|se_Models -> cfg_Defaults ::= agents_section data|> in
  let '(p, warnings) := providers_section data (cfg_Providers (se_Models cfg), []) in
  let '(ch, warnings) := channels_section data (se_Channels cfg, warnings) in
  let cfg := cfg <|se_Models -> cfg_Providers := p|> <|se_Channels := ch|> in
  let cfg := cfg <|se_Gateway ::= gateway_section data|> in
  (cfg <|se_Tools -> tc_Web ::= search_section data|>, warnings).
End convert.

(** ** Merging *)
Definition fill {A} (missing : bool) (incoming existing : A) : A := if missing then incoming else existing.

Definition merge_providers (existing incoming : ProvidersConfig) : ProvidersConfig :=
  existing
    <|p_Anthropic ::= fill (blank (pc_APIKey (p_Anthropic existing))) (p_Anthropic incoming)|>
    <|p_OpenAI ::= fill (blank (pc_APIKey (p_OpenAI existing))) (p_OpenAI incoming)|>
    <|p_OpenRouter ::= fill (blank (pc_APIKey (p_OpenRouter existing))) (p_OpenRouter incoming)|>
    <|p_Groq ::= fill (blank (pc_APIKey (p_Groq existing))) (p_Groq incoming)|>
    <|p_Zhipu ::= fill (blank (pc_APIKey (p_Zhipu existing))) (p_Zhipu incoming)|>
    <|p_VLLM ::= fill (blank (pc_APIKey (p_VLLM existing)) && blank (pc_APIBase (p_VLLM existing)))
                   (p_VLLM incoming)|>
    <|p_Gemini ::= fill (blank (pc_APIKey (p_Gemini existing))) (p_Gemini incoming)|>
    <|p_DeepSeek ::= fill (blank (pc_APIKey (p_DeepSeek existing))) (p_DeepSeek incoming)|>
    <|p_GitHubCopilot ::= fill (blank (pc_APIBase (p_GitHubCopilot existing))) (p_GitHubCopilot incoming)|>
    <|p_Qwen ::= fill (blank (pc_APIKey (p_Qwen existing))) (p_Qwen incoming)|>.

Definition merge_channels (existing incoming : ChannelsConfig) : ChannelsConfig :=
  let newly (Enabled : ChannelsConfig → bool) := negb (Enabled existing) && Enabled incoming in
  existing
    <|ch_Telegram ::= fill (newly (tg_Enabled ∘ ch_Telegram)) (ch_Telegram incoming)|>
    <|ch_Discord ::= fill (newly (dc_Enabled ∘ ch_Discord)) (ch_Discord incoming)|>
    <|ch_WhatsApp ::= fill (newly (wa_Enabled ∘ ch_WhatsApp)) (ch_WhatsApp incoming)|>
    <|ch_Feishu ::= fill (newly (fs_Enabled ∘ ch_Feishu)) (ch_Feishu incoming)|>
    <|ch_QQ ::= fill (newly (qq_Enabled ∘ ch_QQ)) (ch_QQ incoming)|>
    <|ch_DingTalk ::= fill (newly (dt_Enabled ∘ ch_DingTalk)) (ch_DingTalk incoming)|>
    <|ch_MaixCam ::= fill (newly (mx_Enabled ∘ ch_MaixCam)) (ch_MaixCam incoming)|>.

Definition MergeConfig (existing incoming : Settings) : Settings :=
  existing
    <|se_Models -> cfg_Providers ::= λ p, merge_providers p (cfg_Providers (se_Models incoming))|>
    <|se_Channels ::= λ ch, merge_channels ch (se_Channels incoming)|>
    <|se_Tools -> tc_Web -> wt_Brave ::=
        fill (blank (br_APIKey (wt_Brave (tc_Web (se_Tools existing))))) (wt_Brave (tc_Web (se_Tools incoming)))|>.

(** ** Keys in snake case stay *)
Lemma snake_go_lower prev l : Forall (λ c, is_upper c = false) l → snake_go prev l = l.
Proof.
  intros H. revert prev. induction H as [|c l Hc _ IH]; intros prev; [done|].
  cbn [snake_go]. rewrite Hc. cbn [app]. by rewrite IH.
Qed.

Lemma snake_go_no_upper prev l : Forall (λ c, is_upper c = false) (snake_go prev l).
Proof.
  revert prev. induction l as [|c l IH]; intros prev; [constructor|]. cbn [snake_go].
  apply Forall_app. split; [|apply IH].
  destruct (is_upper c) eqn:E; [|by repeat constructor].
  apply Forall_app. split; [|constructor; [apply lower_not_upper|constructor]].
  destruct prev as [p|]; [|constructor]. by repeat case_match; repeat constructor.
Qed.

Lemma camelToSnake_idemp s : camelToSnake (camelToSnake s) = camelToSnake s.
Proof.
  unfold camelToSnake. rewrite chars_implode. f_equal. apply snake_go_lower, snake_go_no_upper.
Qed.

(** ** Values that are the same but for the order of members *)
Definition is_object_or_list (v : json) : bool := match v with JObj _ | JArr _ => true | _ => false end.

Inductive same : json → json → Prop :=
| same_atom v : is_object_or_list v = false → same v v
| same_arr l l' : Forall2 same l l' → same (JArr l) (JArr l')
| same_obj a m b :
    Forall2 (λ x y, x.1 = y.1 ∧ same x.2 y.2) a m → m ≡ₚ b → NoDup a.*1 → same (JObj a) (JObj b).

Definition same_members (a b : members) : Prop :=
  ∃ m, Forall2 (λ x y, x.1 = y.1 ∧ same x.2 y.2) a m ∧ m ≡ₚ b ∧ NoDup a.*1.

Lemma same_members_obj a b : same_members a b → same (JObj a) (JObj b).
Proof. intros (m & ? & ? & ?). by econstructor. Qed.

Lemma same_keys a m : Forall2 (λ x y : string * json, x.1 = y.1 ∧ same x.2 y.2) a m → a.*1 = m.*1.
Proof. induction 1 as [|x y a m [E _] _ IH]; [done|]. csimpl. by f_equal. Qed.

Lemma same_members_nodup a b : same_members a b → NoDup a.*1 ∧ NoDup b.*1.
Proof.
  intros (m & Hm%same_keys & Hb & Ha). split; [done|]. rewrite Hm in Ha. by rewrite <-Hb.
Qed.

Lemma key_In (a : members) k v : NoDup a.*1 → key k a = Some v ↔ (k, v) ∈ a.
Proof.
  intros Ha. unfold key. split.
  - intros H. apply fmap_Some in H as ([k' v'] & H & ->).
    apply find_first_Some in H as (l1 & l2 & E & Hk & _). apply bool_decide_eq_true in Hk. simpl in Hk. subst k'.
    rewrite <-elem_of_reverse, E. set_solver.
  - intros Hin. apply fmap_Some. destruct (find_first _ (reverse a)) as [[k' v']|] eqn:E.
    + exists (k', v'). split; [done|]. apply find_first_Some in E as (l1 & l2 & E & Hk & _).
      apply bool_decide_eq_true in Hk. simpl in Hk. subst k'.
      assert ((k, v') ∈ a) as Hin' by (rewrite <-elem_of_reverse, E; set_solver).
      apply list_elem_of_lookup in Hin as [i Hi], Hin' as [j Hj].
      assert (i = j) as -> by (eapply (NoDup_lookup a.*1 i j k); [done|by rewrite list_lookup_fmap, Hi|by rewrite list_lookup_fmap, Hj]).
      simpl. congruence.
    + exfalso. rewrite find_first_None, Forall_forall in E. specialize (E (k, v)).
      rewrite elem_of_reverse, bool_decide_eq_false in E. by apply E.
Qed.

Lemma key_None (a : members) k : key k a = None ↔ k ∉ a.*1.
Proof.
  unfold key. rewrite fmap_None, find_first_None, Forall_forall, list_elem_of_fmap. split.
  - intros H ([k' v] & E & Hin). simpl in E. subst k'. specialize (H (k, v)).
    rewrite elem_of_reverse, bool_decide_eq_false in H. by apply H.
  - intros H kv Hin. apply bool_decide_eq_false. intros E. apply H. exists kv.
    by rewrite <-elem_of_reverse.
Qed.

Lemma same_key a b k : same_members a b → option_Forall2 same (key k a) (key k b).
Proof.
  intros Hab. pose proof (same_members_nodup _ _ Hab) as [Ha Hb]. destruct Hab as (m & Hm & Hp & _).
  destruct (key k a) as [v|] eqn:Ea.
  - apply key_In in Ea; [|done]. apply list_elem_of_lookup in Ea as [i Hi].
    destruct (Forall2_lookup_l _ _ _ _ _ Hm Hi) as ([k' v'] & Hi' & Ek & Hv). simpl in *. subst k'.
    assert (key k b = Some v') as ->; [|by constructor].
    apply key_In; [done|]. rewrite <-Hp. by eapply list_elem_of_lookup_2.
  - apply key_None in Ea. assert (key k b = None) as ->; [|by constructor].
    apply key_None. rewrite <-Hp, <-(same_keys a m) by done. done.
Qed.

(** The readers find the same. *)
Section readers.
Context (a b : members) (Hab : same_members a b).

Lemma same_getMap k : option_Forall2 same_members (getMap a k) (getMap b k).
Proof.
  unfold getMap. destruct (same_key a b k Hab) as [v v' Hv|]; [|constructor].
  destruct Hv; try (by constructor). - by destruct v; try constructor. - constructor. by eexists.
Qed.
Lemma same_getString k : getString a k = getString b k.
Proof. unfold getString. destruct (same_key a b k Hab) as [v v' Hv|]; [|done]. by destruct Hv. Qed.
Lemma same_getFloat k : getFloat a k = getFloat b k.
Proof. unfold getFloat. destruct (same_key a b k Hab) as [v v' Hv|]; [|done]. by destruct Hv. Qed.
Lemma same_getBool k : getBool a k = getBool b k.
Proof. unfold getBool. destruct (same_key a b k Hab) as [v v' Hv|]; [|done]. by destruct Hv. Qed.
Lemma same_getBoolOrDefault k d : getBoolOrDefault a k d = getBoolOrDefault b k d.
Proof. unfold getBoolOrDefault. by rewrite same_getBool. Qed.
Lemma same_getStringSlice k : getStringSlice a k = getStringSlice b k.
Proof.
  unfold getStringSlice. destruct (same_key a b k Hab) as [v v' Hv|]; [|done].
  destruct Hv as [v Hv|l l' Hl|]; [by destruct v| |done].
  induction Hl as [|x y l l' Hxy _ IH]; [done|]. cbn.
  destruct Hxy; cbn; by rewrite IH.
Qed.
End readers.

(** Settings of the same section are converted to the same. *)
Ltac same_reads H :=
  rewrite ?(same_getString _ _ H), ?(same_getFloat _ _ H), ?(same_getBool _ _ H),
    ?(same_getBoolOrDefault _ _ H), ?(same_getStringSlice _ _ H).

Lemma same_defaults a b d : same_members a b → convert_defaults a d = convert_defaults b d.
Proof. intros H. unfold convert_defaults. by same_reads H. Qed.
Lemma same_gateway a b g : same_members a b → convert_gateway a g = convert_gateway b g.
Proof. intros H. unfold convert_gateway. by same_reads H. Qed.
Lemma same_search a b w : same_members a b → convert_search a w = convert_search b w.
Proof. intros H. unfold convert_search. by same_reads H. Qed.

Lemma same_channel a b name ch : same_members a b → set_channel a name ch = set_channel b name ch.
Proof.
  intros H. unfold set_channel, convert_telegram, convert_discord, convert_whatsapp, convert_feishu,
    convert_qq, convert_dingtalk, convert_maixcam.
  by same_reads H.
Qed.

(** ** Loops over maps whose steps commute *)
Section loop.
Context {S : Type} (step : S → string * json → S).
Context (commutes : ∀ s x y, x.1 ≠ y.1 → step (step s x) y = step (step s y) x).
Context (respects : ∀ s k v v', same v v' → step s (k, v) = step s (k, v')).

Lemma foldl_step_perm (a b : members) s : NoDup a.*1 → a ≡ₚ b → foldl step s a = foldl step s b.
Proof.
  intros Hd Hp. revert Hd s. induction Hp as [|x a b _ IH|x y a|a b c Hab IH1 Hbc IH2]; intros Hd s.
  - done.
  - apply NoDup_cons in Hd as [_ Hd]. cbn. by apply IH.
  - cbn. rewrite commutes; [done|]. csimpl in *. apply NoDup_cons in Hd as [Hx _]. set_solver.
  - rewrite IH1 by done. apply IH2. by rewrite <-Hab.
Qed.

Lemma foldl_step_same (a b : members) s : same_members a b → foldl step s a = foldl step s b.
Proof.
  intros (m & Hm & Hp & Hd). transitivity (foldl step s m).
  - clear Hp Hd. revert s. induction Hm as [|[k v] [k' v'] a m [E Hv] _ IH]; intros s; [done|].
    simpl in E, Hv. subst k'. cbn. by rewrite (respects s k v v' Hv).
  - apply foldl_step_perm; [|done]. by rewrite <-(same_keys a m).
Qed.
End loop.

Definition provider_step (p : ProvidersConfig) (kv : string * json) : ProvidersConfig :=
  (convert_provider (p, []) kv).1.
Definition channel_step (ch : ChannelsConfig) (kv : string * json) : ChannelsConfig :=
  (convert_channel (ch, []) kv).1.

Lemma foldl_fst {S T K} (f : S * T → K → S * T) (g : S → K → S) l s t :
  (∀ s t k, (f (s, t) k).1 = g s k) → (foldl f (s, t) l).1 = foldl g s l.
Proof.
  intros H. revert s t. induction l as [|k l IH]; intros s t; [done|]. cbn.
  destruct (f (s, t) k) as [s' t'] eqn:E. rewrite IH. specialize (H s t k). rewrite E in H. simpl in H. by rewrite H.
Qed.

Lemma providers_fst l p ws : (foldl convert_provider (p, ws) l).1 = foldl provider_step p l.
Proof.
  apply foldl_fst. intros s t [k v]. unfold provider_step, convert_provider. cbn [fst snd].
  destruct v; try done. by case_match.
Qed.
Lemma channels_fst l ch ws : (foldl convert_channel (ch, ws) l).1 = foldl channel_step ch l.
Proof.
  apply foldl_fst. intros s t [k v]. unfold channel_step, convert_channel. cbn [fst snd].
  destruct v; try done. by case_match.
Qed.

Ltac split_name x :=
  match goal with |- context [bool_decide (x = ?s)] => destruct (bool_decide_reflect (x = s)) as [->|] end.

(** Providers of different names are set in different fields. *)
Lemma set_provider_comm p x px wx y py wy :
  x ≠ y → set_provider y py wy (set_provider x px wx p) = set_provider x px wx (set_provider y py wy p).
Proof.
  intros Hne. unfold set_provider.
  repeat (split_name x; [repeat (split_name y; [first [by destruct (Hne eq_refl)|reflexivity]|]); reflexivity|]).
  repeat (split_name y; [reflexivity|]); reflexivity.
Qed.

Lemma set_channel_comm ch x mx y my :
  x ≠ y → set_channel my y (set_channel mx x ch) = set_channel mx x (set_channel my y ch).
Proof.
  intros Hne. unfold set_channel.
  repeat (split_name x; [repeat (split_name y; [first [by destruct (Hne eq_refl)|reflexivity]|]); reflexivity|]).
  repeat (split_name y; [reflexivity|]); reflexivity.
Qed.

Lemma provider_step_comm p x y :
  x.1 ≠ y.1 → provider_step (provider_step p x) y = provider_step (provider_step p y) x.
Proof.
  intros Hne. unfold provider_step, convert_provider. destruct x as [x vx], y as [y vy]; cbn [fst snd] in *.
  destruct vx; try done; destruct vy; try done. do 2 case_bool_decide; cbn [negb fst]; try done.
  by apply set_provider_comm.
Qed.

Lemma channel_step_comm ch x y :
  x.1 ≠ y.1 → channel_step (channel_step ch x) y = channel_step (channel_step ch y) x.
Proof.
  intros Hne. unfold channel_step, convert_channel. destruct x as [x vx], y as [y vy]; cbn [fst snd] in *.
  destruct vx; try done; destruct vy; try done. do 2 case_bool_decide; cbn [negb fst]; try done.
  by apply set_channel_comm.
Qed.

Lemma provider_step_same p k v v' : same v v' → provider_step p (k, v) = provider_step p (k, v').
Proof.
  intros Hv. unfold provider_step, convert_provider. cbn [fst snd].
  destruct Hv as [| |a m b Hm Hp Hd]; try done. assert (same_members a b) as H by by exists m.
  same_reads H. by case_match.
Qed.

Lemma channel_step_same ch k v v' : same v v' → channel_step ch (k, v) = channel_step ch (k, v').
Proof.
  intros Hv. unfold channel_step, convert_channel. cbn [fst snd].
  destruct Hv as [| |a m b Hm Hp Hd]; try done. assert (same_members a b) as H by by exists m.
  case_match; [done|]. cbn [fst]. by apply same_channel.
Qed.

(** ** The order of maps does not matter, unless two keys become one *)

(** No two keys of an object, at any depth, have the same spelling in snake case. *)
Fixpoint distinct_keys (v : json) : bool :=
  match v with
  | JObj kvs =>
      bool_decide (NoDup (camelToSnake <$> kvs.*1)) &&
      (fix go (kvs : members) : bool := match kvs with [] => true | (_, v) :: kvs => distinct_keys v && go kvs end) kvs
  | JArr l => (fix go (l : list json) : bool := match l with [] => true | v :: l => distinct_keys v && go l end) l
  | _ => true
  end.

Lemma distinct_obj kvs :
  distinct_keys (JObj kvs) = true ↔
  NoDup (camelToSnake <$> kvs.*1) ∧ Forall (λ kv, distinct_keys kv.2 = true) kvs.
Proof.
  cbn [distinct_keys]. rewrite andb_true_iff, bool_decide_eq_true. f_equiv.
  induction kvs as [|[k v] kvs IH]; [by split|]. rewrite andb_true_iff, Forall_cons. tauto.
Qed.
Lemma distinct_arr l : distinct_keys (JArr l) = true ↔ Forall (λ v, distinct_keys v = true) l.
Proof. cbn [distinct_keys]. induction l as [|v l IH]; [by split|]. rewrite andb_true_iff, Forall_cons. tauto. Qed.

Definition on_value (f : json → json) (kv : string * json) : string * json := (kv.1, f kv.2).
Definition on_key (f : string → string) (kv : string * json) : string * json := (f kv.1, kv.2).

Lemma convert_obj order kvs :
  convertKeysToSnake order (JObj kvs) =
  JObj (foldl put [] (on_key camelToSnake <$> order (on_value (convertKeysToSnake order) <$> kvs))).
Proof.
  assert ((fix go (v : members) : members :=
             match v with
             | [] => []
             | (key, val) :: v => (key, convertKeysToSnake order val) :: go v
             end) kvs = on_value (convertKeysToSnake order) <$> kvs) as E.
  { induction kvs as [|[k v] kvs IH]; [done|]. by rewrite IH. }
  cbn [convertKeysToSnake]. rewrite E. do 2 f_equal. apply list_fmap_ext. by intros i [k v] _.
Qed.
Lemma convert_arr order l : convertKeysToSnake order (JArr l) = JArr (convertKeysToSnake order <$> l).
Proof. reflexivity. Qed.

Lemma put_fresh m l : NoDup (m ++ l).*1 → foldl put m l = m ++ l.
Proof.
  revert m. induction l as [|kv l IH]; intros m Hd; [by rewrite app_nil_r|].
  cbn [foldl]. replace (put m kv) with (m ++ [kv]).
  { rewrite IH; rewrite <-app_assoc; done. }
  unfold put. f_equal. symmetry. apply filter_keep, Forall_forall. intros x Hx E.
  rewrite fmap_app, fmap_cons in Hd. apply NoDup_app in Hd as (_ & Hd & _). apply (Hd x.1).
  - apply list_elem_of_fmap. by exists x.
  - rewrite E. by left.
Qed.

Section order_free.
Context (o1 o2 : members → members).
Context (o1_perm : ∀ m, o1 m ≡ₚ m) (o2_perm : ∀ m, o2 m ≡ₚ m).

Lemma snake_keys_distinct o f (kvs : members) :
  (∀ m, o m ≡ₚ m) → NoDup (camelToSnake <$> kvs.*1) →
  NoDup (on_key camelToSnake <$> o (on_value f <$> kvs)).*1.
Proof.
  intros Ho Hd. rewrite (Ho _), <-!list_fmap_compose. by rewrite <-list_fmap_compose in Hd.
Qed.

Lemma converted_same v :
  distinct_keys v = true → same (convertKeysToSnake o1 v) (convertKeysToSnake o2 v).
Proof.
  induction v as [|b|n|s|l IH|kvs IH] using json_induction; intros Hd; try (by constructor).
  - apply distinct_arr in Hd. rewrite !convert_arr. constructor.
    induction Hd as [|v l Hv _ IHl]; [constructor|]. apply Forall_cons in IH as [Hc IH].
    constructor; [by apply Hc|by apply IHl].
  - apply distinct_obj in Hd as [Hk Hd]. rewrite !convert_obj.
    rewrite !put_fresh by by apply snake_keys_distinct. cbn [app].
    set (l1 := on_value (convertKeysToSnake o1) <$> kvs). set (l2 := on_value (convertKeysToSnake o2) <$> kvs).
    assert (Forall2 (λ x y, x.1 = y.1 ∧ same x.2 y.2) (on_key camelToSnake <$> l1) (on_key camelToSnake <$> l2)) as H.
    { subst l1 l2. clear Hk. induction Hd as [|kv kvs Hv _ IHl]; [constructor|].
      apply Forall_cons in IH as [Hc IH]. csimpl. constructor; [split; [done|by apply Hc]|by apply IHl]. }
    assert (on_key camelToSnake <$> l1 ≡ₚ on_key camelToSnake <$> o1 l1) as H1 by by rewrite (o1_perm l1).
    destruct (Permutation_Forall2 H1 H) as (m & Hm & Hf). econstructor; [exact Hf| |].
    + by rewrite <-Hm, (o2_perm l2).
    + by apply snake_keys_distinct.
Qed.

Lemma same_orders a b : same_members a b → same_members (o1 a) (o2 b).
Proof.
  intros (m & Hm & Hp & Hd). assert (a ≡ₚ o1 a) as Ha by done.
  destruct (Permutation_Forall2 Ha Hm) as (m' & Hm' & Hf). exists m'. split_and!; [done| |by rewrite <-Ha].
  by rewrite <-Hm', Hp, o2_perm.
Qed.

Lemma same_agents a b d : same_members a b → agents_section a d = agents_section b d.
Proof.
  intros H. unfold agents_section. destruct (same_getMap a b H "agents") as [x y Hxy|]; [|done]. cbn.
  destruct (same_getMap x y Hxy "defaults") as [x' y' Hxy'|]; [|done]. by apply same_defaults.
Qed.
Lemma same_gateways a b g : same_members a b → gateway_section a g = gateway_section b g.
Proof.
  intros H. unfold gateway_section. destruct (same_getMap a b H "gateway") as [x y Hxy|]; [|done].
  by apply same_gateway.
Qed.
Lemma same_searches a b w : same_members a b → search_section a w = search_section b w.
Proof.
  intros H. unfold search_section. destruct (same_getMap a b H "tools") as [x y Hxy|]; [|done]. cbn.
  destruct (same_getMap x y Hxy "web") as [x' y' Hxy'|]; [|done]. cbn.
  destruct (same_getMap x' y' Hxy' "search") as [x'' y'' Hs|]; [|done]. by apply same_search.
Qed.
Lemma same_providers a b p ws ws' :
  same_members a b → (providers_section o1 a (p, ws)).1 = (providers_section o2 b (p, ws')).1.
Proof.
  intros H. unfold providers_section. destruct (same_getMap a b H "providers") as [x y Hxy|]; [|done].
  cbn [on_ok]. rewrite !providers_fst.
  apply foldl_step_same; [apply provider_step_comm|apply provider_step_same|by apply same_orders].
Qed.
Lemma same_channels a b ch ws ws' :
  same_members a b → (channels_section o1 a (ch, ws)).1 = (channels_section o2 b (ch, ws')).1.
Proof.
  intros H. unfold channels_section. destruct (same_getMap a b H "channels") as [x y Hxy|]; [|done].
  cbn [on_ok]. rewrite !channels_fst.
  apply foldl_step_same; [apply channel_step_comm|apply channel_step_same|by apply same_orders].
Qed.

End order_free.

(** The settings section by section. *)
Definition converted_settings (data : members) (p : ProvidersConfig) (ch : ChannelsConfig) : Settings := {|
  se_Models := mk_Config (agents_section data (cfg_Defaults DefaultConfig)) p default_models;
  se_Channels := ch;
  se_Gateway := gateway_section data (se_Gateway DefaultSettings);
  se_Tools := mk_ToolsConfig (search_section data (tc_Web default_tools)) (tc_Cron default_tools)
                (tc_Exec default_tools) (tc_Skills default_tools) (tc_MCP default_tools);
  se_Heartbeat := se_Heartbeat DefaultSettings;
  se_Devices := se_Devices DefaultSettings;
  se_Tailscale := se_Tailscale DefaultSettings;
  se_Aperture := se_Aperture DefaultSettings;
|}.

Lemma ConvertConfig_settings order data :
  ∃ ws, (ConvertConfig order data).1 =
    converted_settings data
      (providers_section order data (cfg_Providers DefaultConfig, [])).1
      (channels_section order data (default_channels, ws)).1.
Proof.
  unfold ConvertConfig. cbv zeta.
  change (cfg_Providers (se_Models (DefaultSettings<|se_Models -> cfg_Defaults ::= agents_section data|>)))
    with (cfg_Providers DefaultConfig).
  destruct (providers_section _ _ _) as [p ws]. exists ws.
  change (se_Channels (DefaultSettings<|se_Models -> cfg_Defaults ::= agents_section data|>))
    with default_channels.
  by destruct (channels_section _ _ _) as [ch ws'].
Qed.

Section any_order.
Context (o1 o2 : members → members).
Context (o1_perm : ∀ m, o1 m ≡ₚ m) (o2_perm : ∀ m, o2 m ≡ₚ m).

Lemma settings_same a b : same_members a b → (ConvertConfig o1 a).1 = (ConvertConfig o2 b).1.
Proof.
  intros H. destruct (ConvertConfig_settings o1 a) as [ws ->], (ConvertConfig_settings o2 b) as [ws' ->].
  rewrite (same_providers o1 o2 o1_perm o2_perm a b _ _ []) by done.
  rewrite (same_channels o1 o2 o1_perm o2_perm a b _ _ ws') by done.
  unfold converted_settings.
  by rewrite (same_agents a b), (same_gateways a b), (same_searches a b) by done.
Qed.

(** C34: the order in which the maps of a document are visited does not change the
    settings it is converted to, provided that no object in it has two keys that
    differ only in their spelling, such as modelName and model_name. *)
Theorem conversion_order_free {D : Type} (json_Unmarshal : D → result string members)
    (ReadFile : string → result string D) (path : string) data raw :
  ReadFile path = Ok data → json_Unmarshal data = Ok raw → distinct_keys (JObj raw) = true →
  ∃ a b, LoadOpenClawConfig o1 json_Unmarshal ReadFile path = Ok a ∧
    LoadOpenClawConfig o2 json_Unmarshal ReadFile path = Ok b ∧
    (ConvertConfig o1 a).1 = (ConvertConfig o2 b).1.
Proof.
  intros Hr Hj Hd. unfold LoadOpenClawConfig. rewrite Hr, Hj.
  pose proof (converted_same o1 o2 o1_perm o2_perm _ Hd) as Hs.
  rewrite !convert_obj in *. inversion Hs as [| |a m b Hm Hp Hnd]; subst.
  { done. }
  do 2 eexists. split_and!; [done..|]. apply settings_same. by exists m.
Qed.
End any_order.

(** Two spellings of one key, and two orders. *)
Definition two_names : members :=
  [("agents", JObj [("defaults", JObj [("modelName", JStr "a"); ("model_name", JStr "b")])])].
Definition loaded (order : members → members) (raw : members) : members :=
  default [] (match LoadOpenClawConfig order (λ r : members, Ok r) (λ _, Ok raw) "" with
              | Ok a => Some a | Err _ => None end).
Definition model_of (order : members → members) (raw : members) : string :=
  GetModelName (cfg_Defaults (se_Models (ConvertConfig order (loaded order raw)).1)).

(** Finding: with both spellings in the document, the model depends on the order in
    which the map is visited, which Go leaves to chance. *)
Lemma spelling_decided_by_chance :
  model_of (λ m, m) two_names = "b" ∧ model_of reverse two_names = "a".
Proof. split; vm_compute; reflexivity. Qed.

Definition sample_document : members :=
  [("agents", JObj [("defaults", JObj [("modelName", JStr "gpt-5"); ("maxTokens", JNum 4096)])]);
   ("providers", JObj [("anthropic", JObj [("apiKey", JStr "sk-1")]); ("qwen", JObj [("apiKey", JStr "sk-2")])]);
   ("channels", JObj [("telegram", JObj [("enabled", JBool true); ("token", JStr "t")]);
                      ("irc", JObj [("enabled", JBool true)])])].

Lemma conversion_order_free_witness :
  distinct_keys (JObj sample_document) = true ∧
  (ConvertConfig (λ m, m) (loaded (λ m, m) sample_document)).1
  = (ConvertConfig reverse (loaded reverse sample_document)).1.
Proof.
  split; [reflexivity|].
  destruct (conversion_order_free (λ m, m) reverse (λ m, reflexivity m) reverse_Permutation
              (λ r, Ok r) (λ _, Ok sample_document) "" sample_document sample_document eq_refl eq_refl eq_refl)
    as (a & b & Ha & Hb & H).
  unfold loaded. rewrite Ha, Hb. exact H.
Defined.

(** ** What becomes of a provider *)
Definition provider_fields : list (string * (ProvidersConfig → ProviderConfig)) :=
  [("anthropic", p_Anthropic); ("openai", λ p, oc_ProviderConfig (p_OpenAI p)); ("openrouter", p_OpenRouter);
   ("groq", p_Groq); ("zhipu", p_Zhipu); ("vllm", p_VLLM); ("gemini", p_Gemini)].

(** The key and the base of a provider of the document are the settings of that
    provider, wherever its member is visited. *)
Lemma provider_converted order (kvs m : members) name get p ws :
  (∀ m, order m ≡ₚ m) → NoDup kvs.*1 → (name, get) ∈ provider_fields → (name, JObj m) ∈ kvs →
  get (foldl convert_provider (p, ws) (order kvs)).1 =
  mk_ProviderConfig (default "" (getString m "api_key")) (default "" (getString m "api_base")) "" "" "".
Proof.
  intros Ho Hd Hf Hin. rewrite providers_fst.
  apply list_elem_of_In, in_split in Hin as (l1 & l2 & ->).
  rewrite (foldl_step_perm provider_step provider_step_comm provider_step_same (order (l1 ++ (name, JObj m) :: l2))
             ((l1 ++ l2) ++ [(name, JObj m)])).
  - rewrite foldl_app. cbn [foldl]. set (p' := foldl _ _ _). clearbody p'. clear Hd.
    unfold provider_step, convert_provider. cbn [fst snd].
    repeat (apply elem_of_cons in Hf as [[= -> ->]|Hf]; [reflexivity|]). by apply not_elem_of_nil in Hf.
  - by rewrite (Ho _).
  - rewrite (Ho _). by rewrite Permutation_cons_append, <-app_assoc, <-Permutation_cons_append.
Qed.

(** Finding: four providers are listed as supported, but nothing takes their
    settings: they are dropped without a warning. *)
Lemma supported_but_dropped name m p ws :
  name ∈ ["qwen"; "deepseek"; "github_copilot"; "mistral"] →
  name ∈ supportedProviders ∧ convert_provider (p, ws) (name, JObj m) = (p, ws).
Proof.
  intros Hn. repeat (apply elem_of_cons in Hn as [->|Hn]; [split; [set_solver|reflexivity]|]).
  by apply not_elem_of_nil in Hn.
Qed.

(** Finding: the list of models stays the default one, which is not empty, so a
    configuration that is loaded after the migration never converts the keys that
    were migrated into entries of the list. *)
Lemma migrated_keys_not_listed order data :
  cfg_ModelList (se_Models (ConvertConfig order data).1) = default_models ∧ default_models ≠ [].
Proof. destruct (ConvertConfig_settings order data) as [ws ->]. split; [done|]. by vm_compute. Qed.

(** ** Merging keeps what is in use *)
Definition merged_by_key : list (ProvidersConfig → ProviderConfig) :=
  [p_Anthropic; (λ p, oc_ProviderConfig (p_OpenAI p)); p_OpenRouter; p_Groq; p_Zhipu; p_VLLM; p_Gemini;
   p_DeepSeek; p_Qwen].
Definition untouched : list (ProvidersConfig → ProviderConfig) :=
  [p_Nvidia; p_Ollama; p_Moonshot; p_ShengSuanYun; p_Cerebras; p_VolcEngine; p_Antigravity; p_Mistral].

Lemma merge_keeps_keys existing incoming get :
  get ∈ merged_by_key → pc_APIKey (get existing) ≠ "" → get (merge_providers existing incoming) = get existing.
Proof.
  intros Hg Hk. unfold merge_providers, fill, blank.
  repeat (apply elem_of_cons in Hg as [->|Hg]; [cbn; by rewrite bool_decide_eq_false_2|]).
  by apply not_elem_of_nil in Hg.
Qed.

Lemma merge_fills_keys existing incoming get :
  get ∈ merged_by_key → pc_APIKey (get existing) = "" → pc_APIBase (get existing) = "" →
  get (merge_providers existing incoming) = get incoming.
Proof.
  intros Hg Hk Hb. unfold merge_providers, fill, blank.
  repeat (apply elem_of_cons in Hg as [->|Hg]; [cbn; rewrite ?bool_decide_eq_true_2 by done; done|]).
  by apply not_elem_of_nil in Hg.
Qed.

Lemma merge_untouched existing incoming get :
  get ∈ untouched → get (merge_providers existing incoming) = get existing.
Proof.
  intros Hg. repeat (apply elem_of_cons in Hg as [->|Hg]; [done|]). by apply not_elem_of_nil in Hg.
Qed.

(** A channel in use stays, one that is not in use is replaced by one that is. *)
Definition kept_or_newly {A} (Enabled : A → bool) (existing incoming merged : A) : Prop :=
  merged = if negb (Enabled existing) && Enabled incoming then incoming else existing.

Lemma merge_channels_spec existing incoming :
  let m := merge_channels existing incoming in
  kept_or_newly tg_Enabled (ch_Telegram existing) (ch_Telegram incoming) (ch_Telegram m) ∧
  kept_or_newly dc_Enabled (ch_Discord existing) (ch_Discord incoming) (ch_Discord m) ∧
  kept_or_newly wa_Enabled (ch_WhatsApp existing) (ch_WhatsApp incoming) (ch_WhatsApp m) ∧
  kept_or_newly fs_Enabled (ch_Feishu existing) (ch_Feishu incoming) (ch_Feishu m) ∧
  kept_or_newly qq_Enabled (ch_QQ existing) (ch_QQ incoming) (ch_QQ m) ∧
  kept_or_newly dt_Enabled (ch_DingTalk existing) (ch_DingTalk incoming) (ch_DingTalk m) ∧
  kept_or_newly mx_Enabled (ch_MaixCam existing) (ch_MaixCam incoming) (ch_MaixCam m) ∧
  (ch_Slack m, ch_LINE m, ch_OneBot m, ch_WeCom m, ch_WeComApp m, ch_XMPP m) =
  (ch_Slack existing, ch_LINE existing, ch_OneBot existing, ch_WeCom existing, ch_WeComApp existing,
   ch_XMPP existing).
Proof. by split_and!. Qed.

(** Finding: outside providers, channels and the search of Brave the existing settings
    win, also where they are the defaults: the model, the workspace and the gateway
    of the document are converted and then dropped. *)
Lemma merge_drops_agents existing incoming :
  let m := MergeConfig existing incoming in
  cfg_Defaults (se_Models m) = cfg_Defaults (se_Models existing) ∧ se_Gateway m = se_Gateway existing ∧
  cfg_ModelList (se_Models m) = cfg_ModelList (se_Models existing) ∧
  tc_Cron (se_Tools m) = tc_Cron (se_Tools existing) ∧ tc_Exec (se_Tools m) = tc_Exec (se_Tools existing) ∧
  tc_Skills (se_Tools m) = tc_Skills (se_Tools existing) ∧ tc_MCP (se_Tools m) = tc_MCP (se_Tools existing).
Proof. by split_and!. Qed.

(** Finding: a provider that is used through an account, without a key, counts as
    missing: it is replaced by the settings of the document, also when the document
    does not have the provider at all. *)
Definition with_account : Settings :=
  DefaultSettings <|se_Models -> cfg_Providers -> p_OpenAI :=
    mk_OpenAIProviderConfig (mk_ProviderConfig "" "" "" "oauth" "") true|>.
Lemma account_provider_replaced :
  pc_AuthMethod (p_OpenAI (cfg_Providers (se_Models with_account))) = "oauth" ∧
  pc_AuthMethod (p_OpenAI (cfg_Providers (se_Models
    (MergeConfig with_account (ConvertConfig (λ m, m) []).1)))) = "".
Proof. split; reflexivity. Qed.
