(* ===== verification/MigrationFiles.v ===== *)
(** * Files of another assistant (pkg/migrate/migrate.go, workspace.go)

    The plan that takes the files of a workspace, made on one tree, and its execution
    on the tree as it changes.  Copying opens the source, empties the destination
    and then reads, so a file copied onto itself is lost. *)
From stdpp Require Import base gmap strings list sorting pretty.
From Stdlib Require Import Ascii ZArith Lia.
From coqutil Require Import Datatypes.RecordSetters.
From S2P Require Import Prelude GoStrings ProviderTypes Paths FileTools HostFiles Config Settings Migration.
Import TriangleBracketNotations.
#[local] Open Scope go_scope.
#[local] Open Scope nat_scope.

(** ** Data *)
Inductive ActionType :=
| ActionCopy
| ActionSkip
| ActionBackup
| ActionConvertConfig
| ActionCreateDir
| ActionMergeConfig.

Record Action := mk_Action {
  Type_ : ActionType;
  Source : string;
  Destination : string;
  Description : string;
}.

Record Options := mk_Options {
  DryRun : bool;
  ConfigOnly : bool;
  WorkspaceOnly : bool;
  Force : bool;
  Refresh : bool;
  OpenClawHome : string;
  TinyClawHome : string;
}.

Record Result := mk_Result {
  FilesCopied : nat;
  FilesSkipped : nat;
  BackupsCreated : nat;
  ConfigMigrated : bool;
  DirsCreated : nat;
  Warnings : list string;
  Errors : list string;
}.
Definition no_result : Result := mk_Result 0 0 0 false 0 [] [].

(** ** Operations of os *)
Section os.
Context (cwd : list comp).
Implicit Types (fs : fsys) (path : string).

(** The error of [os.Stat]. *)
Definition Stat fs path : option errno :=
  match view_path true fs (host_view cwd) path with
  | Err e => Some e
  | Ok p => match entry_at fs p with Some _ => None | None => Some ENOENT end
  end.
Definition exists_at fs path : bool := bool_decide (Stat fs path = None).
Definition absent fs path : bool := bool_decide (Stat fs path = Some ENOENT).

(** [filepath.Walk]: what it visits, with whether it is a directory, in the order of
    names.  As much fuel as the tree has entries is enough for its depth. *)
Fixpoint walk_dir (fuel : nat) fs (path : string) (p : list comp) : list (string * bool) :=
  (path, true) ::
  match fuel with
  | 0 => []
  | S fuel =>
      '(name, d) ← dir_entries fs p;
      if (d : bool) then walk_dir fuel fs (Join path name) (p ++ [chars name])
      else [(Join path name, false)]
  end.
Definition Walk fs (root : string) : result errno (list (string * bool)) :=
  match view_path false fs (host_view cwd) root with
  | Err e => Err e
  | Ok p =>
      match entry_at fs p with
      | None => Err ENOENT
      | Some EDir => Ok (walk_dir (size fs) fs root p)
      | Some _ => Ok [(root, false)]
      end
  end.

Definition copyFile fs (src dst : string) : fsys * option errno :=
  match view_path true fs (host_view cwd) src with
  | Err e => (fs, Some e)
  | Ok p =>
      match entry_at fs p with
      | None => (fs, Some ENOENT)
      | Some _ =>
          match sys_WriteFile fs (host_view cwd) dst "" with
          | (fs, Some e) => (fs, Some e)
          | (fs, None) =>
              match entry_at fs p with
              | Some (EFile data) => sys_WriteFile fs (host_view cwd) dst data
              | _ => (fs, Some EISDIR)
              end
          end
      end
  end.
Definition backupFile fs path : fsys * option errno := copyFile fs path (path +:+ ".bak").

(** ** Planning the files *)
Definition migrateableFiles : list string := ["AGENTS.md"; "SOUL.md"; "USER.md"; "TOOLS.md"; "HEARTBEAT.md"].
Definition migrateableDirs : list string := ["memory"; "skills"].

Definition planFileCopy fs (src dst : string) (force : bool) : Action :=
  if absent fs src then mk_Action ActionSkip src dst "source file not found"
  else if exists_at fs dst && negb force
  then mk_Action ActionBackup src dst "destination exists, will backup and overwrite"
  else mk_Action ActionCopy src dst "copy file".

Definition is_skip (a : Action) : bool := match Type_ a with ActionSkip => true | _ => false end.

Definition plan_visit fs (srcDir dstDir : string) (force : bool) (v : string * bool) : result string Action :=
  match Rel srcDir v.1 with
  | None => Err ("Rel: can't make " +:+ v.1 +:+ " relative to " +:+ srcDir)
  | Some relPath =>
      let dst := Join dstDir relPath in
      Ok (if v.2 then mk_Action ActionCreateDir "" dst "create directory" else planFileCopy fs v.1 dst force)
  end.

Fixpoint visit_all {A} (f : A → result string Action) (l : list A) : result string (list Action) :=
  match l with
  | [] => Ok []
  | v :: l => match f v with
              | Err e => Err e
              | Ok a => match visit_all f l with Err e => Err e | Ok actions => Ok (a :: actions) end
              end
  end.

Definition planDirCopy fs (srcDir dstDir : string) (force : bool) : result string (list Action) :=
  match Walk fs srcDir with
  | Err e => Err (errno_text e)
  | Ok visited => visit_all (plan_visit fs srcDir dstDir force) visited
  end.

Fixpoint plan_dirs fs (srcWorkspace dstWorkspace : string) (force : bool) (names : list string) :
    result string (list Action) :=
  match names with
  | [] => Ok []
  | dirname :: names =>
      let srcDir := Join srcWorkspace dirname in
      if absent fs srcDir then plan_dirs fs srcWorkspace dstWorkspace force names
      else match planDirCopy fs srcDir (Join dstWorkspace dirname) force with
           | Err e => Err e
           | Ok dirActions =>
               match plan_dirs fs srcWorkspace dstWorkspace force names with
               | Err e => Err e
               | Ok actions => Ok (dirActions ++ actions)
               end
           end
  end.

Definition plan_files fs (srcWorkspace dstWorkspace : string) (force : bool) : list Action :=
  filter (λ action, negb (is_skip action) || negb (bool_decide (Description action = "")))
    ((λ filename, planFileCopy fs (Join srcWorkspace filename) (Join dstWorkspace filename) force)
       <$> migrateableFiles).

Definition PlanWorkspaceMigration fs (srcWorkspace dstWorkspace : string) (force : bool) :
    result string (list Action) :=
  match plan_dirs fs srcWorkspace dstWorkspace force migrateableDirs with
  | Err e => Err e
  | Ok dirActions => Ok (plan_files fs srcWorkspace dstWorkspace force ++ dirActions)
  end.

(** ** The configuration *)
Section config.
(** Decoding a document, reading the existing configuration, and encoding. *)
Context (json_Unmarshal : string → result string members).
Context (load_settings : string → result string Settings).
Context (MarshalIndent : Settings → result string string).
Context (order : members → members).

Definition ReadFile fs path : result string string :=
  match sys_ReadFile fs (host_view cwd) path with Ok d => Ok d | Err e => Err (errno_text e) end.
Definition LoadDocument fs path : result string members :=
  LoadOpenClawConfig order json_Unmarshal (ReadFile fs) path.

(** [config.SaveConfig] on the tree. *)
Definition save_settings fs path (cfg : Settings) : fsys * option string :=
  match MarshalIndent cfg with
  | Err e => (fs, Some e)
  | Ok data =>
      match sys_MkdirAll fs (host_view cwd) (Dir path) with
      | (fs, Some e) => (fs, Some (errno_text e))
      | (fs, None) =>
          match sys_WriteFile fs (host_view cwd) path data with
          | (fs, Some e) => (fs, Some (errno_text e))
          | (fs, None) => (fs, None)
          end
      end
  end.

Definition executeConfigMigration fs (srcConfigPath dstConfigPath : string) : fsys * option string :=
  match LoadDocument fs srcConfigPath with
  | Err e => (fs, Some e)
  | Ok data =>
      let incoming := (ConvertConfig order data).1 in
      let incoming :=
        if exists_at fs dstConfigPath then
          match ReadFile fs dstConfigPath with
          | Err e => Err ("loading existing TinyClaw config: " +:+ e)
          | Ok text =>
              match load_settings text with
              | Err e => Err ("loading existing TinyClaw config: " +:+ e)
              | Ok existing => Ok (MergeConfig existing incoming)
              end
          end
        else Ok incoming in
      match incoming with
      | Err e => (fs, Some e)
      | Ok incoming =>
          match sys_MkdirAll fs (host_view cwd) (Dir dstConfigPath) with
          | (fs, Some e) => (fs, Some (errno_text e))
          | (fs, None) => save_settings fs dstConfigPath incoming
          end
      end
  end.

Definition resolveWorkspace (homeDir : string) : string := Join homeDir "workspace".

Definition Plan fs (opts : Options) (openclawHome tinyClawHome : string) :
    result string (list Action * list string) :=
  let force := Force opts || Refresh opts in
  let config :=
    if WorkspaceOnly opts then Ok ([], [])
    else
      match findOpenClawConfig Join (exists_at fs) openclawHome with
      | Err err => if ConfigOnly opts then Err err else Ok ([], ["Config migration skipped: " +:+ err])
      | Ok configPath =>
          Ok ([mk_Action ActionConvertConfig configPath (Join tinyClawHome "config.json")
                 "convert OpenClaw config to TinyClaw format"],
              match LoadDocument fs configPath with
              | Ok data => (ConvertConfig order data).2
              | Err _ => []
              end)
      end in
  match config with
  | Err e => Err e
  | Ok (actions, warnings) =>
      if ConfigOnly opts then Ok (actions, warnings)
      else
        let srcWorkspace := resolveWorkspace openclawHome in
        let dstWorkspace := resolveWorkspace tinyClawHome in
        if exists_at fs srcWorkspace then
          match PlanWorkspaceMigration fs srcWorkspace dstWorkspace force with
          | Err e => Err ("planning workspace migration: " +:+ e)
          | Ok wsActions => Ok (actions ++ wsActions, warnings)
          end
        else
          Ok (actions, warnings ++ ["OpenClaw workspace directory not found, skipping workspace migration"])
  end.

(** ** Execution *)
Definition failed (r : Result) (e : string) : Result := r <|Errors := Errors r ++ [e]|>.

(** The part that [ActionBackup] and [ActionCopy] share. *)
Definition copy_action fs (r : Result) (a : Action) : fsys * Result :=
  match sys_MkdirAll fs (host_view cwd) (Dir (Destination a)) with
  | (fs, Some e) => (fs, failed r (errno_text e))
  | (fs, None) =>
      match copyFile fs (Source a) (Destination a) with
      | (fs, Some e) => (fs, failed r ("copy " +:+ Source a +:+ ": " +:+ errno_text e))
      | (fs, None) => (fs, r <|FilesCopied := S (FilesCopied r)|>)
      end
  end.

Definition execute_action (acc : fsys * Result) (a : Action) : fsys * Result :=
  let '(fs, r) := acc in
  match Type_ a with
  | ActionConvertConfig =>
      match executeConfigMigration fs (Source a) (Destination a) with
      | (fs, Some e) => (fs, failed r ("config migration: " +:+ e))
      | (fs, None) => (fs, r <|ConfigMigrated := true|>)
      end
  | ActionCreateDir =>
      match sys_MkdirAll fs (host_view cwd) (Destination a) with
      | (fs, Some e) => (fs, failed r (errno_text e))
      | (fs, None) => (fs, r <|DirsCreated := S (DirsCreated r)|>)
      end
  | ActionBackup =>
      match backupFile fs (Destination a) with
      | (fs, Some e) => (fs, failed r ("backup " +:+ Destination a +:+ ": " +:+ errno_text e))
      | (fs, None) => copy_action fs (r <|BackupsCreated := S (BackupsCreated r)|>) a
      end
  | ActionCopy => copy_action fs r a
  | ActionSkip => (fs, r <|FilesSkipped := S (FilesSkipped r)|>)
  | ActionMergeConfig => (fs, r)
  end.
Definition Execute fs (actions : list Action) : fsys * Result := foldl execute_action (fs, no_result) actions.

(** ** Running *)
Section run.
(** The environment, the home of the user, and the answer to the question. *)
Context (getenv : string → string) (home : result string string) (confirmed : bool).

Definition expandHome (path : string) : string :=
  match chars path with
  | c :: rest =>
      if bool_decide (c = "~"%char) then
        let home := match home with Ok h => h | Err _ => "" end in
        if bool_decide (head rest = Some slash) then home +:+ implode rest else home
      else path
  | [] => path
  end.

Definition resolve_home (variable dir override : string) : result string string :=
  if negb (blank override) then Ok (expandHome override)
  else if negb (blank (getenv variable)) then Ok (expandHome (getenv variable))
  else match home with
       | Ok h => Ok (Join h dir)
       | Err e => Err ("resolving home directory: " +:+ e)
       end.
Definition resolveOpenClawHome : string → result string string := resolve_home "OPENCLAW_HOME" ".openclaw".
Definition resolveTinyClawHome : string → result string string := resolve_home "TINYCLAW_HOME" ".tinyclaw".

Definition Run fs (opts : Options) : result string (fsys * Result) :=
  if ConfigOnly opts && WorkspaceOnly opts
  then Err "--config-only and --workspace-only are mutually exclusive"
  else
    let opts := if Refresh opts then opts <|WorkspaceOnly := true|> else opts in
    let? openclawHome := resolveOpenClawHome (OpenClawHome opts) in
    let? tinyClawHome := resolveTinyClawHome (TinyClawHome opts) in
    if absent fs openclawHome then Err ("OpenClaw installation not found at " +:+ openclawHome)
    else
      let? (actions, warnings) := Plan fs opts openclawHome tinyClawHome in
      if DryRun opts || (negb (Force opts) && negb confirmed)
      then Ok (fs, no_result <|Warnings := warnings|>)
      else let '(fs, result) := Execute fs actions in Ok (fs, result <|Warnings := warnings|>).
End run.
End config.
End os.

(** ** Trees without links *)
Record plain (fs : fsys) : Prop := {
  plain_links : ∀ p t, fs !! p ≠ Some (ELink t);
  plain_names : ∀ p e, fs !! p = Some e → Forall ordinary p;
  plain_parents : ∀ p x e, fs !! (p ++ [x]) = Some e → p = [] ∨ fs !! p = Some EDir;
}.
Definition linkfree (fs : fsys) : Prop := ∀ p t, fs !! p ≠ Some (ELink t).

Lemma linkfree_ok T fs : linkfree fs → links_ok T fs.
Proof. intros H r k t _. apply H. Qed.
Lemma linkfree_no_link fs p : linkfree fs → no_link fs p.
Proof. intros H k t _. apply H. Qed.
#[local] Hint Resolve linkfree_ok linkfree_no_link : core.

Lemma plain_prefix fs a b e :
  plain fs → fs !! (a ++ b) = Some e → b ≠ [] → a = [] ∨ fs !! a = Some EDir.
Proof.
  intros Hp. revert e. induction b as [|x b IH] using rev_ind; intros e He Hb; [done|].
  rewrite app_assoc in He. destruct (plain_parents fs Hp _ _ _ He) as [E|E].
  - left. by destruct a.
  - destruct b as [|y b]; [rewrite app_nil_r in E; by right|]. by eapply IH.
Qed.

Lemma walk_plain fs follow links cur todo e :
  plain fs → Forall ordinary todo → fs !! (cur ++ todo) = Some e →
  walk false follow links fs [] cur todo = Ok (cur ++ todo).
Proof.
  intros Hp Ho. revert cur. induction Ho as [|p todo Hord Ho IH]; intros cur He.
  { destruct links; simpl; by rewrite app_nil_r. }
  destruct (ordinary_skip p Hord) as [Hs Hd].
  assert (cur ++ p :: todo = (cur ++ [p]) ++ todo) as E by by rewrite <-app_assoc.
  rewrite E in He |- *.
  assert (fs !! (cur ++ [p]) = Some EDir ∨ todo = [] ∧ ∃ d, fs !! (cur ++ [p]) = Some (EFile d)) as H.
  { destruct todo as [|q todo].
    - rewrite app_nil_r in He. destruct e as [d| |t]; [right; eauto|by left|by destruct (plain_links fs Hp _ _ He)].
    - destruct (plain_prefix fs _ _ _ Hp He) as [E'|E']; [done|by destruct cur|by left]. }
  destruct links; simpl; rewrite Hs, bool_decide_eq_false_2 by done;
    destruct H as [->|(-> & d & ->)]; try (by apply IH); by rewrite app_nil_r.
Qed.

Section effects.
Context (cwd : list comp).
Implicit Types (fs : fsys) (path : string).
Notation at_ path := (norm (chars path)).

Lemma Stat_plain fs path e :
  plain fs → clean_abs path → fs !! at_ path = Some e → Stat cwd fs path = None.
Proof.
  intros Hp Hc He. unfold Stat. rewrite clean_abs_walk by done.
  rewrite (walk_plain fs true 40 [] _ e) by (done || by apply rooted_ordinary, Hc). cbn [app].
  unfold entry_at. case_bool_decide; [done|]. by rewrite He.
Qed.

Lemma view_linkfree follow fs path q :
  linkfree fs → clean_abs path → view_path follow fs (host_view cwd) path = Ok q → q = at_ path.
Proof. intros Hl Hc. by apply view_no_link; [|apply linkfree_no_link]. Qed.

Lemma linkfree_insert fs p d : linkfree fs → linkfree (<[p := EFile d]> fs).
Proof. intros H q t. rewrite lookup_insert_Some. intros [[_ [=]]|[_ E]]. by apply (H q t). Qed.

Lemma write_effect fs path d :
  linkfree fs → clean_abs path →
  (∃ e, sys_WriteFile fs (host_view cwd) path d = (fs, Some e)) ∨
  sys_WriteFile fs (host_view cwd) path d = (<[at_ path := EFile d]> fs, None).
Proof.
  intros Hl Hc. unfold sys_WriteFile. destruct (view_path _ _ _ _) as [q|e] eqn:E; [|left; eauto].
  apply view_linkfree in E as ->; [|done|done]. case_match; [left; eauto|by right].
Qed.

(** What a copy does: nothing, or it replaces the file at the destination; without
    an error the new contents are those of the source, unless the two are one file. *)
Lemma copy_effect fs src dst fs' err :
  linkfree fs → clean_abs src → clean_abs dst → copyFile cwd fs src dst = (fs', err) →
  (fs' = fs ∨ ∃ d, fs' = <[at_ dst := EFile d]> fs) ∧
  (err = None → ∃ d, at_ src ≠ at_ dst ∧ fs !! at_ src = Some (EFile d) ∧ fs' = <[at_ dst := EFile d]> fs
                ∨ at_ src = at_ dst ∧ fs' = <[at_ dst := EFile ""]> fs).
Proof.
  intros Hl Hs Hd. unfold copyFile. destruct (view_path _ _ _ src) as [p|e] eqn:E;
    [|intros [= <- <-]; split; [by left|done]].
  apply view_linkfree in E as ->; [|done|done].
  destruct (entry_at fs _) as [x|] eqn:Ex; [|intros [= <- <-]; split; [by left|done]].
  destruct (write_effect fs dst "" Hl Hd) as [[e ->]|E]; [intros [= <- <-]; split; [by left|done]|].
  rewrite E. unfold entry_at in *. case_bool_decide as Hroot.
  { intros [= <- <-]. split; [right; eauto|done]. }
  destruct (decide (at_ src = at_ dst)) as [Heq|Hne].
  - rewrite <-Heq, lookup_insert_eq. destruct (write_effect (<[at_ src := EFile ""]> fs) dst "") as [[e ->]| ->];
      [by apply linkfree_insert|done| |]; rewrite <-?Heq.
    + intros [= <- <-]. split; [right; eauto|done].
    + rewrite insert_insert_eq. intros [= <- <-]. split; [right; eauto|]. intros _. exists "". by right.
  - rewrite lookup_insert_ne, Ex by done. destruct x as [data| |t];
      [|intros [= <- <-]; split; [right; eauto|done]..].
    destruct (write_effect (<[at_ dst := EFile ""]> fs) dst data) as [[e ->]| ->];
      [by apply linkfree_insert|done| |].
    + intros [= <- <-]. split; [right; eauto|done].
    + rewrite insert_insert_eq. intros [= <- <-]. split; [right; eauto|]. intros _. exists data. by left.
Qed.

(** An operation that changes no file outside [K]. *)
Definition keeps (K : list comp → Prop) fs fs' : Prop :=
  linkfree fs → linkfree fs' ∧ ∀ p d, ¬ K p → fs !! p = Some (EFile d) ↔ fs' !! p = Some (EFile d).

#[export] Instance keeps_preorder K : PreOrder (keeps K).
Proof.
  split; [done|]. intros f g h H1 H2 Hf. destruct (H1 Hf) as [Hg E1]. destruct (H2 Hg) as [Hh E2].
  split; [done|]. intros p d Hp. by rewrite E1, E2.
Qed.

Lemma keeps_none K fs fs' : keeps (λ _, False) fs fs' → keeps K fs fs'.
Proof. intros H Hf. destruct (H Hf) as [Hf' E]. split; [done|]. intros p d _. exact (E p d (λ f, f)). Qed.

Lemma keeps_mono (K K' : list comp → Prop) fs fs' : (∀ p, K p → K' p) → keeps K fs fs' → keeps K' fs fs'.
Proof. intros HK H Hf. destruct (H Hf) as [Hf' E]. split; [done|]. intros p d Hp. apply E. naive_solver. Qed.

Lemma mkdirs_keeps links fs cur todo p d :
  fs !! p = Some (EFile d) ↔ (mkdirs false links [] fs cur todo).1 !! p = Some (EFile d).
Proof.
  revert fs cur. induction todo as [|c todo IH]; intros fs cur; [by destruct links|].
  assert (fs !! (cur ++ [c]) = None →
    fs !! p = Some (EFile d) ↔ <[cur ++ [c] := EDir]> fs !! p = Some (EFile d)) as Hi.
  { intros Hn. rewrite lookup_insert_Some. split; [right; split; congruence|]. by intros [[_ [=]]|[_ ?]]. }
  destruct links; simpl; destruct (skip_comp c); try apply IH; case_bool_decide; try apply IH;
    destruct (fs !! (cur ++ [c])) as [[]|] eqn:E; try apply IH; try done;
    try (rewrite Hi by done; apply IH); repeat (case_match; try done; try apply IH).
Qed.

Lemma mkdir_keeps fs path : clean_abs path → keeps (λ _, False) fs (sys_MkdirAll fs (host_view cwd) path).1.
Proof.
  intros Hc Hl. split.
  - intros p t.
    destruct (sys_MkdirAll_below [] cwd fs path Hc (or_introl (prefix_nil _)) (linkfree_ok [] fs Hl)) as [_ H].
    by apply (H p p t).
  - intros p d _. apply mkdirs_keeps.
Qed.

Lemma insert_keeps fs p d : keeps (λ q, q = p) fs (<[p := EFile d]> fs).
Proof.
  intros Hl. split; [by apply linkfree_insert|]. intros q e Hq. by rewrite lookup_insert_ne by congruence.
Qed.

Lemma copy_keeps fs src dst :
  clean_abs src → clean_abs dst → keeps (λ p, p = at_ dst) fs (copyFile cwd fs src dst).1.
Proof.
  intros Hs Hd Hl. destruct (copyFile cwd fs src dst) as [fs' err] eqn:E.
  destruct (copy_effect fs src dst fs' err Hl Hs Hd E) as [[->|[d ->]] _]; [done|]. by apply insert_keeps.
Qed.
End effects.

(** ** Backups *)
Definition bak_of (p : list comp) : list comp :=
  match last p with Some x => removelast p ++ [x ++ chars ".bak"] | None => p end.

Lemma bak_of_snoc p x : bak_of (p ++ [x]) = p ++ [x ++ chars ".bak"].
Proof. unfold bak_of. by rewrite last_snoc, removelast_last. Qed.

Lemma bak_of_inj p q : p ≠ [] → q ≠ [] → bak_of p = bak_of q → p = q.
Proof.
  destruct p as [|x p _] using rev_ind; [done|]. destruct q as [|y q _] using rev_ind; [done|].
  intros _ _. rewrite !bak_of_snoc. intros [-> H]%app_inj_tail. by apply app_inv_tail in H as ->.
Qed.

Lemma bak_of_ne p : p ≠ [] → bak_of p ≠ p.
Proof.
  destruct p as [|x p _] using rev_ind; [done|]. intros _. rewrite bak_of_snoc.
  intros [_ H]%app_inj_tail. apply (f_equal length) in H. rewrite length_app in H. simpl in H. lia.
Qed.

Lemma clean_abs_render path : clean_abs path → chars path = render true (norm (chars path)).
Proof.
  intros [Ha Hc]. rewrite <-Hc at 1. unfold Clean. rewrite chars_implode. unfold Clean_l, IsAbs in *.
  by rewrite Ha.
Qed.

Lemma cleaned_ordinary ps : Forall ordinary ps → cleaned true ps.
Proof. intros H. by exists 0, ps. Qed.

Lemma join_l_snoc ps x s : join_l slash (ps ++ [x ++ s]) = join_l slash (ps ++ [x]) ++ s.
Proof.
  induction ps as [|y ps IH]; [done|]. cbn [app]. destruct ps as [|z ps]; cbn [app join_l] in *.
  - by rewrite <-app_assoc.
  - rewrite IH. by rewrite <-app_assoc.
Qed.

Lemma bak_path path :
  clean_abs path → norm (chars path) ≠ [] →
  clean_abs (path +:+ ".bak") ∧ norm (chars (path +:+ ".bak")) = bak_of (norm (chars path)).
Proof.
  intros Hc Hne. pose proof (rooted_ordinary _ (proj1 Hc)) as Ho. pose proof (clean_abs_render _ Hc) as Hr.
  destruct (norm (chars path)) as [|x p _] using rev_ind; [done|]. rewrite bak_of_snoc.
  apply Forall_app in Ho as [Hop Hox]. apply Forall_cons in Hox as [(H1 & H2 & H3 & H4) _].
  assert (Forall ordinary (p ++ [x ++ chars ".bak"])) as Ho.
  { apply Forall_app. split; [done|]. constructor; [|constructor]. split_and!.
    - by destruct x.
    - intros E. apply (f_equal length) in E. rewrite length_app in E. simpl in E. lia.
    - intros E. apply (f_equal length) in E. rewrite length_app in E. simpl in E. lia.
    - rewrite elem_of_app. intros [?|H]; [done|]. revert H. by apply (bool_decide_unpack _). }
  assert (chars (path +:+ ".bak") = render true (p ++ [x ++ chars ".bak"])) as E.
  { rewrite chars_app, Hr. unfold render. by rewrite join_l_snoc. }
  assert (IsAbs (path +:+ ".bak") = true) as Ha.
  { unfold IsAbs. rewrite E. done. }
  assert (norm (chars (path +:+ ".bak")) = p ++ [x ++ chars ".bak"]) as Hn.
  { rewrite E. by apply norm_render, cleaned_ordinary. }
  split; [|done]. split; [done|]. unfold Clean, Clean_l. unfold IsAbs in Ha. rewrite Ha, Hn, <-E.
  apply implode_chars.
Qed.

(** ** Executing the plan of a workspace *)
Definition copies (a : Action) : Prop := Type_ a = ActionCopy ∨ Type_ a = ActionBackup.
#[export] Instance ActionType_eq_dec : EqDecision ActionType.
Proof. solve_decision. Defined.
#[export] Instance copies_dec a : Decision (copies a).
Proof. unfold copies. apply _. Defined.

Definition dest (a : Action) : list comp := norm (chars (Destination a)).
Definition source (a : Action) : list comp := norm (chars (Source a)).

(** The action of a workspace, with paths as the planning makes them. *)
Record aimed (a : Action) : Prop := {
  aimed_kind : Type_ a ≠ ActionConvertConfig;
  aimed_dest : Type_ a = ActionCreateDir ∨ copies a → clean_abs (Destination a);
  aimed_copy : copies a → clean_abs (Source a) ∧ dest a ≠ [];
}.

(** What an action may change. *)
Definition touches (a : Action) (p : list comp) : Prop :=
  copies a ∧ (p = dest a ∨ Type_ a = ActionBackup ∧ p = bak_of (dest a)).

(** No planned file is the backup of another, and no two are the same. *)
Definition clash_free (actions : list Action) : Prop :=
  NoDup (dest <$> filter copies actions) ∧
  ∀ a b, a ∈ actions → b ∈ actions → copies a → copies b → dest a ≠ bak_of (dest b).

Section execute.
Context (cwd : list comp).
Context (json_Unmarshal : string → result string members).
Context (load_settings : string → result string Settings).
Context (MarshalIndent : Settings → result string string).
Context (order : members → members).
Notation execute_action := (execute_action cwd json_Unmarshal load_settings MarshalIndent order).
Notation run := (foldl execute_action).

Lemma copy_action_keeps fs r a :
  aimed a → copies a → keeps (λ p, p = dest a) fs (copy_action cwd fs r a).1.
Proof.
  intros Ha Hc. pose proof (aimed_dest a Ha (or_intror Hc)) as Hd. destruct (aimed_copy a Ha Hc) as [Hs _].
  unfold copy_action.
  pose proof (keeps_none (λ p, p = dest a) _ _ (mkdir_keeps cwd fs _ (proj1 (Dir_clean_abs _ Hd)))) as Hm.
  destruct (sys_MkdirAll fs (host_view cwd) (Dir (Destination a))) as [fs1 [e|]]; [done|].
  pose proof (copy_keeps cwd fs1 _ _ Hs Hd) as Hk.
  destruct (copyFile cwd fs1 (Source a) (Destination a)) as [fs2 [e|]]; by etrans.
Qed.

Lemma backup_keeps fs a :
  aimed a → copies a → keeps (λ p, p = bak_of (dest a)) fs (backupFile cwd fs (Destination a)).1.
Proof.
  intros Ha Hc. pose proof (aimed_dest a Ha (or_intror Hc)) as Hd. destruct (aimed_copy a Ha Hc) as [_ Hne].
  destruct (bak_path _ Hd Hne) as [Hb E]. unfold backupFile, dest. rewrite <-E. by apply copy_keeps.
Qed.

Lemma execute_keeps acc a : aimed a → keeps (touches a) acc.1 (execute_action acc a).1.
Proof.
  intros Ha. destruct acc as [fs r]. unfold MigrationFiles.execute_action. destruct (Type_ a) eqn:Et; cbn [fst].
  - assert (copies a) as Hc by by left.
    eapply keeps_mono; [|by apply copy_action_keeps]. intros p ->. split; [done|by left].
  - done.
  - assert (copies a) as Hc by by right. pose proof (backup_keeps fs a Ha Hc) as Hb.
    apply (keeps_mono _ (touches a)) in Hb; [|intros p ->; split; [done|by right]].
    destruct (backupFile cwd fs (Destination a)) as [fs1 [e|]]; cbn [fst] in *; [done|].
    etrans; [exact Hb|]. eapply keeps_mono; [|by apply copy_action_keeps]. intros p ->. split; [done|by left].
  - by destruct (aimed_kind a Ha).
  - pose proof (keeps_none (touches a) _ _ (mkdir_keeps cwd fs _ (aimed_dest a Ha (or_introl Et)))) as Hm.
    by destruct (sys_MkdirAll fs (host_view cwd) (Destination a)) as [fs1 [e|]].
  - done.
Qed.

Lemma run_keeps (K : list comp → Prop) acc actions :
  Forall aimed actions → (∀ a p, a ∈ actions → touches a p → K p) → keeps K acc.1 (run acc actions).1.
Proof.
  intros Ha. revert acc. induction Ha as [|a actions Ha _ IH]; intros acc HK; [done|]. cbn [foldl].
  transitivity (execute_action acc a).1.
  - eapply keeps_mono; [|by apply execute_keeps]. intros p. apply HK. by left.
  - apply IH. intros b p Hb. apply HK. by right.
Qed.

(** The errors only grow. *)
Lemma copy_action_errors fs r a : Errors r `prefix_of` Errors (copy_action cwd fs r a).2.
Proof.
  unfold copy_action. destruct (sys_MkdirAll _ _ _) as [fs1 [e|]]; [by eexists|].
  destruct (copyFile _ _ _ _) as [fs2 [e|]]; [by eexists|done].
Qed.
Lemma execute_errors acc a : Errors acc.2 `prefix_of` Errors (execute_action acc a).2.
Proof.
  destruct acc as [fs r]. unfold MigrationFiles.execute_action. cbn [snd]. destruct (Type_ a); try done.
  - apply copy_action_errors.
  - destruct (backupFile _ _ _) as [fs1 [e|]]; [by eexists|]. etrans; [|apply copy_action_errors]. done.
  - destruct (executeConfigMigration _ _ _ _ _ _ _ _) as [fs1 [e|]]; [by eexists|done].
  - destruct (sys_MkdirAll _ _ _) as [fs1 [e|]]; [by eexists|done].
Qed.
Lemma run_errors acc actions : Errors acc.2 `prefix_of` Errors (run acc actions).2.
Proof.
  revert acc. induction actions as [|a actions IH]; intros acc; [done|]. cbn [foldl].
  etrans; [apply execute_errors|apply IH].
Qed.

(** A copy that reports no error brought the contents of the source. *)
Lemma copy_action_brings fs r a :
  linkfree fs → aimed a → copies a → source a ≠ dest a → Errors (copy_action cwd fs r a).2 = Errors r →
  ∃ d, fs !! source a = Some (EFile d) ∧ (copy_action cwd fs r a).1 !! dest a = Some (EFile d).
Proof.
  intros Hl Ha Hc Hne. pose proof (aimed_dest a Ha (or_intror Hc)) as Hd. destruct (aimed_copy a Ha Hc) as [Hs _].
  unfold copy_action.
  destruct (mkdir_keeps cwd fs _ (proj1 (Dir_clean_abs _ Hd)) Hl) as [Hl1 Hm].
  assert (∀ e, Errors (failed r e) ≠ Errors r) as Herr.
  { intros e E. change (Errors r ++ [e] = Errors r) in E. apply (f_equal length) in E. rewrite length_app in E. simpl in E. lia. }
  destruct (sys_MkdirAll fs (host_view cwd) (Dir (Destination a))) as [fs1 [e|]]; [by intros ?%Herr|].
  destruct (copyFile cwd fs1 (Source a) (Destination a)) as [fs2 [e|]] eqn:E; [by intros ?%Herr|].
  intros _. destruct (copy_effect cwd fs1 _ _ _ _ Hl1 Hs Hd E) as [_ (d & H)]; [done|].
  destruct H as [(_ & Hsrc & ->)|[? _]]; [|done]. exists d. split; [|cbn [fst]; unfold dest; apply lookup_insert_eq].
  apply (Hm _ d (λ f, f)). done.
Qed.

(** A backup either changes no file but the backup, or makes one of what was there. *)
Lemma backup_made fs a d :
  linkfree fs → aimed a → copies a → fs !! dest a = Some (EFile d) →
  match backupFile cwd fs (Destination a) with
  | (fs', Some _) => fs' !! dest a = Some (EFile d)
  | (fs', None) => fs' !! dest a = Some (EFile d) ∧ fs' !! bak_of (dest a) = Some (EFile d)
  end.
Proof.
  intros Hl Ha Hc He. pose proof (aimed_dest a Ha (or_intror Hc)) as Hd. destruct (aimed_copy a Ha Hc) as [_ Hne].
  destruct (bak_path _ Hd Hne) as [Hb Eb]. pose proof (bak_of_ne _ Hne) as Hnb.
  destruct (backup_keeps fs a Ha Hc Hl) as [_ Hk].
  assert ((backupFile cwd fs (Destination a)).1 !! dest a = Some (EFile d)) as Hkeep.
  { apply Hk; [|done]. intros E. by apply Hnb. }
  unfold backupFile in *. destruct (copyFile cwd fs _ _) as [fs' [e|]] eqn:E; [done|]. split; [done|].
  destruct (copy_effect cwd fs _ _ _ _ Hl Hd Hb E) as [_ (d' & H)]; [done|]. rewrite Eb in H.
  destruct H as [(_ & Hsrc & ->)|[E' _]]; [|by destruct Hnb]. unfold dest in *.
  rewrite lookup_insert_eq. congruence.
Qed.

(** The plan as seen from the tree it was made on. *)
Definition planned_on (fs : fsys) (a : Action) : Prop :=
  aimed a ∧ (Type_ a = ActionCopy → ∀ d, fs !! dest a ≠ Some (EFile d)).

Section plan.
Context (fs : fsys) (actions : list Action).
Context (Hlinks : linkfree fs) (Hplan : Forall (planned_on fs) actions) (Hclash : clash_free actions).

Lemma plan_aimed : Forall aimed actions.
Proof. eapply Forall_impl; [exact Hplan|]. by intros a [? _]. Qed.

(** Around an action that copies, the others leave its destination alone. *)
Lemma others_leave l1 a l2 b p :
  actions = l1 ++ a :: l2 → copies a → b ∈ l1 ++ l2 → touches b p →
  (p = dest a → False) ∨ (Type_ b = ActionBackup ∧ p = bak_of (dest b)).
Proof.
  intros E Hc Hb [Hcb [->|H]]; [left|by right]. destruct Hclash as [Hnd _]. intros Hd.
  rewrite E, filter_app, filter_cons_True, fmap_app, fmap_cons in Hnd by done.
  apply NoDup_app in Hnd as (_ & H1 & H2). apply NoDup_cons in H2 as [H2 _].
  apply elem_of_app in Hb as [Hb|Hb].
  - apply (H1 (dest b)).
    + apply list_elem_of_fmap. exists b. split; [done|]. by apply list_elem_of_filter.
    + rewrite Hd. by left.
  - apply H2. rewrite <-Hd. apply list_elem_of_fmap. exists b. split; [done|]. by apply list_elem_of_filter.
Qed.

Lemma others_leave_dest l1 a l2 b :
  actions = l1 ++ a :: l2 → copies a → b ∈ l1 ++ l2 → ¬ touches b (dest a).
Proof.
  intros E Hc Hb Ht. destruct (others_leave l1 a l2 b _ E Hc Hb Ht) as [H|[_ H]]; [by apply H|].
  destruct Hclash as [_ Hbak]. eapply (Hbak a b); [set_solver| |done|by destruct Ht|done]. set_solver.
Qed.

Lemma others_leave_backup l1 a l2 b :
  actions = l1 ++ a :: l2 → copies a → b ∈ l1 ++ l2 → ¬ touches b (bak_of (dest a)).
Proof.
  intros E Hc Hb [Hcb H]. destruct Hclash as [_ Hbak]. pose proof plan_aimed as Ha. rewrite Forall_forall in Ha.
  assert (a ∈ actions) as Hin by set_solver. assert (b ∈ actions) as Hinb by set_solver.
  destruct H as [H|[Ht H]].
  - by apply (Hbak b a Hinb Hin Hcb Hc).
  - apply bak_of_inj in H; [|by apply (aimed_copy a); [apply Ha|]|by apply (aimed_copy b); [apply Ha|]].
    apply (others_leave_dest l1 a l2 b E Hc Hb). split; [done|by left].
Qed.

Notation executed l := (run (fs, no_result) l).

(** Running some of the actions leaves alone what none of them touches. *)
Lemma run_leaves acc l p d :
  (∀ b, b ∈ l → b ∈ actions) → linkfree acc.1 → (∀ b, b ∈ l → ¬ touches b p) →
  linkfree (run acc l).1 ∧ (acc.1 !! p = Some (EFile d) ↔ (run acc l).1 !! p = Some (EFile d)).
Proof.
  intros Hl Hlf Hn. pose proof plan_aimed as Ha. rewrite Forall_forall in Ha.
  destruct (run_keeps (λ q, ∃ b, b ∈ l ∧ touches b q) acc l) as [H1 H2]; [|by eauto|done|].
  { apply Forall_forall. intros b Hb. by apply Ha, Hl. }
  split; [done|]. apply H2. intros (b & Hb & Ht). by apply (Hn b Hb).
Qed.

Lemma kept_or_backed_up p d :
  fs !! p = Some (EFile d) → (∀ b, b ∈ actions → Type_ b = ActionBackup → p ≠ bak_of (dest b)) →
  (executed actions).1 !! p = Some (EFile d) ∨ (executed actions).1 !! bak_of p = Some (EFile d).
Proof.
  intros He Hnb. destruct (decide (Exists (λ a, copies a ∧ p = dest a) actions)) as [Hx|Hx].
  2:{ left. destruct (run_leaves (fs, no_result) actions p d) as [_ H]; [done|done| |by apply H].
      intros b Hb [Hc [H|[Ht H]]]; [|by apply (Hnb b)].
      apply Hx, Exists_exists. by exists b. }
  apply Exists_exists in Hx as (a & Hin & Hc & ->). pose proof Hin as (l1 & l2 & E)%list_elem_of_In%in_split.
  assert (∀ b, b ∈ l1 ++ l2 → b ∈ actions) as Hsub by (rewrite E; set_solver).
  pose proof plan_aimed as Ha. rewrite Forall_forall in Ha.
  assert (Type_ a = ActionBackup) as Ht.
  { destruct Hc as [Ht|Ht]; [|done]. rewrite Forall_forall in Hplan.
    by destruct (proj2 (Hplan a Hin) Ht d). }
  destruct (run_leaves (fs, no_result) l1 (dest a) d) as [Hl1 H1]; [set_solver|done| |].
  { intros b Hb. apply (others_leave_dest l1 a l2); set_solver. }
  rewrite E at 1 2. rewrite foldl_app. cbn [foldl]. destruct (executed l1) as [fs1 r1]. cbn [fst] in *.
  apply H1 in He. clear H1. pose proof (backup_made fs1 a d Hl1 (Ha a Hin) Hc He) as Hb.
  pose proof (execute_keeps (fs1, r1) a (Ha a Hin) Hl1) as [Hl2 _].
  pose proof (backup_keeps fs1 a (Ha a Hin) Hc Hl1) as [Hlb _].
  assert (∀ p, (p = dest a ∨ p = bak_of (dest a)) → (execute_action (fs1, r1) a).1 !! p = Some (EFile d) →
    (run (execute_action (fs1, r1) a) l2).1 !! p = Some (EFile d)) as Hrest.
  { intros p Hp He2.
    destruct (run_leaves (execute_action (fs1, r1) a) l2 p d) as [_ H2]; [set_solver|done| |by apply H2].
    intros b Hbl. destruct Hp as [->| ->].
    - apply (others_leave_dest l1 a l2); set_solver.
    - apply (others_leave_backup l1 a l2); set_solver. }
  unfold MigrationFiles.execute_action in Hrest |- *. rewrite Ht in *. cbn [fst] in *.
  destruct (backupFile cwd fs1 (Destination a)) as [fs2 [e|]].
  - left. apply Hrest; [by left|done].
  - right. destruct Hb as [_ Hb]. apply Hrest; [by right|].
    destruct (copy_action_keeps fs2 (r1<|BackupsCreated := S (BackupsCreated r1)|>) a (Ha a Hin) Hc Hlb) as [_ Hk].
    apply Hk; [|done]. apply bak_of_ne. by apply (aimed_copy a); [apply Ha|].
Qed.

Lemma brought a :
  Errors (executed actions).2 = [] → a ∈ actions → copies a → source a ≠ dest a →
  (∀ b, b ∈ actions → ¬ touches b (source a)) →
  ∃ d, fs !! source a = Some (EFile d) ∧ (executed actions).1 !! dest a = Some (EFile d).
Proof.
  intros Herr Hin Hc Hne Hsrc. pose proof Hin as (l1 & l2 & E)%list_elem_of_In%in_split.
  pose proof plan_aimed as Ha. rewrite Forall_forall in Ha.
  pose proof (λ d, run_leaves (fs, no_result) l1 (source a) d ltac:(set_solver) Hlinks ltac:(set_solver)) as H1.
  rewrite E in Herr. rewrite E. rewrite foldl_app in *. cbn [foldl] in *.
  set (acc1 := executed l1) in *. destruct (H1 "") as [Hl1 _].
  assert (Errors (execute_action acc1 a).2 = [] ∧ Errors acc1.2 = []) as [He2 He1].
  { pose proof (run_errors (execute_action acc1 a) l2) as H2. rewrite Herr in H2.
    pose proof (execute_errors acc1 a) as H3. apply prefix_nil_inv in H2. rewrite H2 in H3.
    by apply prefix_nil_inv in H3. }
  assert (∃ d, acc1.1 !! source a = Some (EFile d) ∧ (execute_action acc1 a).1 !! dest a = Some (EFile d))
    as (d & Hs & Hd).
  { destruct acc1 as [fs1 r1]. cbn [fst snd] in *. unfold MigrationFiles.execute_action in *.
    destruct Hc as [Ht|Ht]; rewrite Ht in *.
    - apply copy_action_brings; [done|by apply Ha|by left|done|congruence].
    - assert (copies a) as Hc by by right. destruct (backup_keeps fs1 a (Ha a Hin) Hc Hl1) as [Hlb Hk].
      destruct (backupFile cwd fs1 (Destination a)) as [fs2 [e|]].
      { change (Errors r1 ++ ["backup " +:+ Destination a +:+ ": " +:+ errno_text e] = []) in He2.
        by destruct (Errors r1). }
      destruct (copy_action_brings fs2 (r1<|BackupsCreated := S (BackupsCreated r1)|>) a Hlb (Ha a Hin) Hc Hne)
        as (d & H2 & H3); [rewrite He2; symmetry; exact He1|].
      exists d. split; [|done]. apply Hk; [|done]. intros Hb. apply (Hsrc a Hin). split; [done|by right]. }
  exists d. split; [by apply H1|].
  destruct (run_leaves (execute_action acc1 a) l2 (dest a) d) as [_ H2];
    [set_solver|by apply execute_keeps; [apply Ha|]| |by apply H2].
  intros b Hb. apply (others_leave_dest l1 a l2); set_solver.
Qed.
End plan.
End execute.

(** ** What the plan of a workspace aims at *)
Lemma removelast_snoc {A} (q : list A) x d :
  q ≠ [] → x = default d (last q) → q = removelast q ++ [x].
Proof. intros Hq ->. destruct q as [|y q _] using rev_ind; [done|]. by rewrite last_snoc, removelast_last. Qed.

Lemma elem_of_dir_entries fs p name b :
  (name, b) ∈ dir_entries fs p ↔ ∃ e, fs !! (p ++ [chars name]) = Some e ∧ b = is_dir (Some e).
Proof.
  unfold dir_entries. rewrite (merge_sort_Permutation name_le), list_elem_of_omap. split.
  - intros ([q e] & Hq%elem_of_map_to_list & H). cbv beta iota in H.
    destruct (negb (bool_decide (q = [])) && bool_decide (removelast q = p)) eqn:E; [|done].
    apply andb_true_iff in E as [E1%negb_true_iff%bool_decide_eq_false E2%bool_decide_eq_true].
    injection H as <- <-. exists e. split; [|done]. rewrite chars_implode, <-E2, <-(removelast_snoc q _ []); done.
  - intros (e & He & ->). exists (p ++ [chars name], e). split; [by apply elem_of_map_to_list|].
    rewrite bool_decide_eq_false_2 by by destruct p. rewrite removelast_last, bool_decide_eq_true_2 by done.
    cbn [negb andb]. rewrite last_snoc. cbn [default from_option id]. by rewrite implode_chars.
Qed.

Lemma dir_entries_NoDup fs p : NoDup (dir_entries fs p).
Proof.
  unfold dir_entries. rewrite (merge_sort_Permutation name_le).
  pose proof (NoDup_fst_map_to_list fs) as Hnd.
  assert (∀ l : list (list comp * entry), NoDup l.*1 →
    NoDup (omap (λ '(q, e), if negb (bool_decide (q = [])) && bool_decide (removelast q = p)
                            then Some (implode (default [] (last q)), is_dir (Some e)) else None) l)) as H.
  { induction l as [|[q e] l IH]; intros Hl; [constructor|]. apply NoDup_cons in Hl as [Hq Hl]. csimpl.
    destruct (negb (bool_decide (q = [])) && bool_decide (removelast q = p)) eqn:E; [|by apply IH].
    constructor; [|by apply IH]. rewrite list_elem_of_omap. intros ([q' e'] & Hin & H).
    destruct (negb (bool_decide (q' = [])) && bool_decide (removelast q' = p)) eqn:E'; [|done].
    apply andb_true_iff in E as [E1%negb_true_iff%bool_decide_eq_false E2%bool_decide_eq_true].
    apply andb_true_iff in E' as [E1'%negb_true_iff%bool_decide_eq_false E2'%bool_decide_eq_true].
    injection H as H _. apply (f_equal chars) in H. rewrite !chars_implode in H.
    apply Hq, list_elem_of_fmap. exists (q', e'). split; [|done]. cbn [fst].
    rewrite (removelast_snoc q (default [] (last q)) []), (removelast_snoc q' (default [] (last q')) []) by done.
    by rewrite E2, E2', H. }
  by apply H.
Qed.

Lemma fmap_bind {A B C} (f : B → C) (g : A → list B) l : f <$> (l ≫= g) = l ≫= (λ x, f <$> g x).
Proof. induction l as [|x l IH]; [done|]. by rewrite !bind_cons, fmap_app, IH. Qed.

Section walks.
Context (cwd : list comp) (fs : fsys) (Hfs : plain fs).
Notation at_ path := (norm (chars path)).

Lemma entry_name_ordinary p name b : (name, b) ∈ dir_entries fs p → ordinary (chars name).
Proof.
  intros (e & He & _)%elem_of_dir_entries. apply (plain_names fs Hfs) in He.
  apply Forall_app in He as [_ He]. by apply Forall_cons in He as [? _].
Qed.

(** Every visited path is below the root, by the entry it is visited for. *)
Lemma walk_dir_below fuel path v :
  clean_abs path → v ∈ walk_dir fuel fs path (at_ path) →
  clean_abs v.1 ∧ ∃ rest, at_ v.1 = at_ path ++ rest ∧
    (v.2 = false → rest ≠ [] ∧ ∃ e, fs !! (at_ path ++ rest) = Some e ∧ e ≠ EDir).
Proof.
  revert path. induction fuel as [|fuel IH]; intros path Hc Hv; cbn [walk_dir] in Hv.
  { apply list_elem_of_singleton in Hv as ->. split; [done|]. exists []. by rewrite app_nil_r. }
  apply elem_of_cons in Hv as [->|Hv]; [split; [done|]; exists []; by rewrite app_nil_r|].
  apply list_elem_of_bind in Hv as ([name b] & Hv & Hin).
  pose proof (entry_name_ordinary _ _ _ Hin) as Ho.
  destruct (norm_Join_name path name (proj1 Hc) Ho) as [Hc' E]. destruct b.
  - rewrite <-E in Hv. destruct (IH _ Hc' Hv) as (Hv' & rest & E' & H). split; [done|].
    exists (chars name :: rest). rewrite E', E, <-app_assoc. split; [done|]. intros Hb.
    destruct (H Hb) as (_ & e & He & Hne). split; [done|]. exists e. rewrite E, <-app_assoc in He. done.
  - apply list_elem_of_singleton in Hv as ->. split; [done|]. exists [chars name]. split; [done|]. intros _.
    split; [done|]. apply elem_of_dir_entries in Hin as (e & He & Hd). exists e. split; [done|]. by intros ->.
Qed.

(** No path is visited twice. *)
Lemma walk_dir_NoDup fuel path :
  clean_abs path → NoDup ((λ v, at_ v.1) <$> walk_dir fuel fs path (at_ path)).
Proof.
  revert path. induction fuel as [|fuel IH]; intros path Hc; cbn [walk_dir].
  { apply NoDup_singleton. }
  rewrite fmap_cons. cbn [fst]. rewrite fmap_bind.
  assert (∀ name (b : bool) q, (name, b) ∈ dir_entries fs (at_ path) →
    q ∈ ((λ v : string * bool, at_ v.1) <$> (if b then walk_dir fuel fs (Join path name) (at_ path ++ [chars name])
                             else [(Join path name, false)])) → (at_ path ++ [chars name]) `prefix_of` q) as Hq.
  { intros name b q Hin Hq. pose proof (entry_name_ordinary _ _ _ Hin) as Ho.
    destruct (norm_Join_name path name (proj1 Hc) Ho) as [Hc' E].
    apply list_elem_of_fmap in Hq as (v & -> & Hv). destruct b.
    - rewrite <-E in Hv |- *. destruct (walk_dir_below _ _ _ Hc' Hv) as (_ & rest & -> & _). by eexists.
    - apply list_elem_of_singleton in Hv as ->. cbn [fst]. by rewrite E. }
  constructor.
  - intros ([name b] & Hv & Hin)%list_elem_of_bind. apply (Hq name b _ Hin) in Hv as [k Hk].
    apply (f_equal length) in Hk. rewrite !length_app in Hk. simpl in Hk. lia.
  - apply NoDup_bind; [| |apply dir_entries_NoDup].
    + intros [n1 b1] [n2 b2] q H1 H2 Hq1 Hq2. pose proof (Hq _ _ _ H1 Hq1) as P1. pose proof (Hq _ _ _ H2 Hq2) as P2.
      assert (n1 = n2) as ->.
      { destruct P1 as [k1 ->], P2 as [k2 Hk]. rewrite <-!app_assoc in Hk. apply app_inv_head in Hk.
        cbn in Hk. injection Hk as Hn _. by apply (inj chars). }
      apply elem_of_dir_entries in H1 as (e1 & He1 & ->), H2 as (e2 & He2 & ->). by rewrite He1 in He2; injection He2 as ->.
    + intros [name b] Hin. pose proof (entry_name_ordinary _ _ _ Hin) as Ho.
      destruct (norm_Join_name path name (proj1 Hc) Ho) as [Hc' E]. cbn beta iota. destruct b.
      * rewrite <-E. by apply IH.
      * apply NoDup_singleton.
Qed.
End walks.

Lemma Rel_dest src path rest :
  clean_abs src → clean_abs path → norm (chars path) = norm (chars src) ++ rest →
  ∃ r, Rel src path = Some r ∧
    ∀ dst, IsAbs dst = true → clean_abs (Join dst r) ∧ norm (chars (Join dst r)) = norm (chars dst) ++ rest.
Proof.
  intros [Hs _] [Hp _] E. pose proof (proj2 (Rel_local (chars src) (chars path) Hs Hp)) as H.
  unfold Rel. destruct (Rel_l (chars src) (chars path)) as [r|] eqn:Er; [|by discriminate H; exists rest].
  specialize (H (ex_intro _ rest E)). exists (implode r). split; [done|]. intros dst Hd.
  assert (IsLocal (implode r) = true) as Hl by (unfold IsLocal; by rewrite chars_implode).
  assert (norm (chars (implode r)) = rest) as Hr.
  { apply (app_inv_head (norm (chars src))). rewrite <-E. apply Rel_target; [done|done| |done].
    unfold Rel. by rewrite Er. }
  pose proof Hl as (Ha & Hne & Hh)%IsLocal_spec. split.
  - apply Join_abs; [done|]. intros E'. by rewrite E' in Hne.
  - rewrite norm_Join_local, Hr; [done|done|done|]. by rewrite Hr in Hh |- *.
Qed.

Lemma visit_all_Ok {A} (f : A → result string Action) l actions :
  visit_all f l = Ok actions → Forall2 (λ v a, f v = Ok a) l actions.
Proof.
  revert actions. induction l as [|v l IH]; intros actions; cbn [visit_all]; [by intros [= <-]|].
  destruct (f v) as [a|] eqn:E; [|done]. destruct (visit_all f l) as [as_|]; [|done].
  intros [= <-]. constructor; [done|by apply IH].
Qed.

(** The tree is not deeper than it has entries, so the walk reaches every file. *)
Lemma depth_le_size fs p e : plain fs → fs !! p = Some e → length p ≤ size fs.
Proof.
  intros Hfs He. rewrite <-length_map_to_list.
  assert ((λ i, take (S i) p) <$> seq 0 (length p) ⊆+ (map_to_list fs).*1) as H.
  { apply NoDup_submseteq.
    - apply NoDup_fmap_2_strong; [|apply NoDup_seq]. intros i j Hi Hj E.
      apply elem_of_seq in Hi, Hj. apply (f_equal length) in E. rewrite !length_take in E. lia.
    - intros q (i & -> & Hi)%list_elem_of_fmap. apply elem_of_seq in Hi.
      assert (∃ e', fs !! take (S i) p = Some e') as [e' He'].
      { rewrite <-(take_drop (S i) p) in He. destruct (drop (S i) p) as [|x r] eqn:Ed.
        - rewrite app_nil_r in He. eauto.
        - destruct (plain_prefix fs _ _ e Hfs He) as [E|E]; [done| |eauto].
          destruct p; [simpl in Hi; lia|done]. }
      apply list_elem_of_fmap. exists (take (S i) p, e'). split; [done|]. by apply elem_of_map_to_list. }
  apply submseteq_length in H. by rewrite !length_fmap, length_seq in H.
Qed.

Section reach.
Context (fs : fsys) (Hfs : plain fs).
Notation at_ path := (norm (chars path)).

Lemma walk_dir_complete fuel path rest e :
  length rest ≤ fuel → clean_abs path → fs !! (at_ path ++ rest) = Some e → e ≠ EDir → rest ≠ [] →
  ∃ v, v ∈ walk_dir fuel fs path (at_ path) ∧ v.2 = false ∧ at_ v.1 = at_ path ++ rest.
Proof.
  revert path rest. induction fuel as [|fuel IH]; intros path rest Hf Hc He Hne Hr.
  { by destruct rest; [|simpl in Hf; lia]. }
  destruct rest as [|x rest]; [done|]. cbn [walk_dir].
  assert (ordinary x) as Hx.
  { apply (plain_names fs Hfs), Forall_app in He as [_ He]. by apply Forall_cons in He as [? _]. }
  assert (chars (implode x) = x) as Ex by apply chars_implode.
  destruct (norm_Join_name path (implode x) (proj1 Hc)) as [Hc' E]; [by rewrite Ex|]. rewrite Ex in E.
  destruct rest as [|y rest].
  - exists (Join path (implode x), false). split_and!; [|done|done]. right.
    apply list_elem_of_bind. exists (implode x, false). split; [by apply list_elem_of_singleton|].
    apply elem_of_dir_entries. rewrite Ex. exists e. split; [done|]. by destruct e.
  - replace (at_ path ++ x :: y :: rest) with ((at_ path ++ [x]) ++ y :: rest) in He |- * by by rewrite <-app_assoc.
    destruct (plain_prefix fs _ _ e Hfs He) as [E'|E']; [done|by destruct (at_ path)|].
    rewrite <-E in He. destruct (IH _ (y :: rest) ltac:(simpl in *; lia) Hc' He Hne) as (v & Hv & Hb & Ev); [done|].
    exists v. split_and!; [|done|by rewrite Ev, E]. right. apply list_elem_of_bind. exists (implode x, true).
    split; [by rewrite Ex, <-E|]. apply elem_of_dir_entries. rewrite Ex. by exists EDir.
Qed.
End reach.

(** Paths that differ only in where they start are as distinct. *)
Lemma Forall2_NoDup_map {A B C} (f : A → list C) (g : B → list C) (s d : list C) xs ys :
  Forall2 (λ x y, ∃ rest, f x = s ++ rest ∧ g y = d ++ rest) xs ys → NoDup (f <$> xs) → NoDup (g <$> ys).
Proof.
  induction 1 as [|x y xs ys (rest & Ex & Ey) Hall IH]; [done|]. rewrite !fmap_cons, !NoDup_cons.
  intros [Hx Hnd]. split; [|by apply IH]. intros Hin. apply Hx.
  apply list_elem_of_fmap in Hin as (y' & E & Hy'). apply list_elem_of_lookup in Hy' as [i Hi].
  destruct (Forall2_lookup_r _ _ _ _ _ Hall Hi) as (x' & Hx' & rest' & Ex' & Ey').
  rewrite Ey, Ey' in E. apply app_inv_head in E as ->. apply list_elem_of_fmap. exists x'.
  split; [congruence|]. by eapply list_elem_of_lookup_2.
Qed.

Section planning.
Context (cwd : list comp) (fs : fsys) (Hfs : plain fs).
Notation at_ path := (norm (chars path)).

(** An action that takes a file of the one directory to the same place in the other. *)
Definition aligned (S D : list comp) (a : Action) : Prop :=
  planned_on fs a ∧ ∃ rest, dest a = D ++ rest ∧ (copies a → rest ≠ [] ∧ source a = S ++ rest).

Lemma planFileCopy_aligned S D src dst rest :
  clean_abs src → clean_abs dst → at_ src = S ++ rest → at_ dst = D ++ rest → rest ≠ [] →
  aligned S D (planFileCopy cwd fs src dst false).
Proof.
  intros Hs Hd Es Ed Hr. assert (D ++ rest ≠ []) as Hne by (by destruct D).
  unfold planFileCopy, aligned, planned_on. rewrite andb_true_r.
  destruct (absent cwd fs src); [|destruct (exists_at cwd fs dst) eqn:Ex].
  - split; [split; [split|]|]; try done; try (intros [[=]|[[=]|[=]]]); try (intros [[=]|[=]]).
    exists rest. split; [done|]. by intros [[=]|[=]].
  - split; [split; [split|]|]; try done.
    + intros _. split; [done|]. change (at_ dst ≠ []). by rewrite Ed.
    + by exists rest.
  - split; [split; [split|]|]; try done.
    + intros _. split; [done|]. change (at_ dst ≠ []). by rewrite Ed.
    + intros _ d Hf. apply bool_decide_eq_false in Ex. apply Ex. by apply (Stat_plain cwd fs dst _ Hfs Hd Hf).
    + by exists rest.
Qed.

(** What is visited for a directory, the directory itself being a file or not. *)
Lemma Walk_visited root visited v :
  clean_abs root → at_ root ≠ [] → Walk cwd fs root = Ok visited → v ∈ visited →
  clean_abs v.1 ∧ ∃ rest, at_ v.1 = at_ root ++ rest.
Proof.
  intros Hc _. unfold Walk. destruct (view_path _ _ _ _) as [p|] eqn:E; [|done].
  apply view_linkfree in E as ->; [|exact (plain_links fs Hfs)|done].
  destruct (entry_at _ _) as [[]|]; [intros [= <-]|intros [= <-]|intros [= <-]|done]; intros Hv.
  - apply list_elem_of_singleton in Hv as ->. split; [done|]. exists []. by rewrite app_nil_r.
  - destruct (walk_dir_below fs Hfs _ _ _ Hc Hv) as (? & rest & ? & _). eauto.
  - apply list_elem_of_singleton in Hv as ->. split; [done|]. exists []. by rewrite app_nil_r.
Qed.

Lemma Walk_NoDup root visited :
  clean_abs root → Walk cwd fs root = Ok visited → NoDup ((λ v, at_ v.1) <$> visited).
Proof.
  intros Hc. unfold Walk. destruct (view_path _ _ _ _) as [p|] eqn:E; [|done].
  apply view_linkfree in E as ->; [|exact (plain_links fs Hfs)|done].
  destruct (entry_at _ _) as [[]|]; [intros [= <-]|intros [= <-]|intros [= <-]|done];
    try apply NoDup_singleton. by apply walk_dir_NoDup.
Qed.

Lemma plan_visit_aligned S D name srcDir dstDir v a :
  clean_abs srcDir → clean_abs dstDir → at_ srcDir = S ++ [name] → at_ dstDir = D ++ [name] →
  clean_abs v.1 → (∃ rest, at_ v.1 = at_ srcDir ++ rest) → plan_visit cwd fs srcDir dstDir false v = Ok a →
  aligned S D a ∧ ∃ rest, at_ v.1 = S ++ name :: rest ∧ dest a = D ++ name :: rest.
Proof.
  intros Hs Hd Es Ed Hv [rest Er]. destruct (Rel_dest srcDir v.1 rest Hs Hv Er) as (r & Hrel & Hr).
  destruct (Hr dstDir (proj1 Hd)) as [Hc E]. unfold plan_visit. rewrite Hrel. intros [= <-].
  rewrite Es, <-app_assoc in Er. rewrite Ed, <-app_assoc in E. cbn [app] in *.
  assert (dest (if v.2 then mk_Action ActionCreateDir "" (Join dstDir r) "create directory"
                else planFileCopy cwd fs v.1 (Join dstDir r) false) = at_ (Join dstDir r)) as Edest.
  { destruct v.2; [done|]. unfold planFileCopy. by repeat case_match. }
  split; [|exists rest; split; [done|by rewrite Edest]].
  destruct v.2.
  - split; [split; [split|]|]; try done; try (intros [[=]|[[=]|[=]]]); try (intros [[=]|[=]]).
    exists (name :: rest). split; [done|]. by intros [[=]|[=]].
  - by apply (planFileCopy_aligned S D _ _ (name :: rest)).
Qed.

Lemma planDirCopy_aligned S D name srcDir dstDir actions :
  clean_abs srcDir → clean_abs dstDir → at_ srcDir = S ++ [name] → at_ dstDir = D ++ [name] →
  planDirCopy cwd fs srcDir dstDir false = Ok actions →
  Forall (aligned S D) actions ∧ NoDup (dest <$> actions) ∧
  Forall (λ a, ∃ rest, dest a = D ++ name :: rest) actions.
Proof.
  intros Hs Hd Es Ed. unfold planDirCopy. destruct (Walk cwd fs srcDir) as [visited|] eqn:Ew; [|done].
  intros Hv%visit_all_Ok. assert (at_ srcDir ≠ []) as Hne by (rewrite Es; by destruct S).
  pose proof (Walk_NoDup _ _ Hs Ew) as Hnd.
  assert (Forall (λ v, clean_abs v.1 ∧ ∃ rest, at_ v.1 = at_ srcDir ++ rest) visited) as Hbelow.
  { apply Forall_forall. intros v Hin. by apply (Walk_visited srcDir visited). }
  assert (Forall2 (λ v a, aligned S D a ∧ ∃ rest, at_ v.1 = (S ++ [name]) ++ rest ∧ dest a = (D ++ [name]) ++ rest)
            visited actions) as Hall.
  { clear Hnd Ew. induction Hv as [|v a visited actions Ha _ IH]; [constructor|].
    apply Forall_cons in Hbelow as [[Hc Hr] Hbelow]. constructor; [|by apply IH].
    destruct (plan_visit_aligned S D name _ _ v a Hs Hd Es Ed Hc Hr Ha) as (Hal & rest & Ev & Ea).
    split; [done|]. exists rest. by rewrite <-!app_assoc. }
  split_and!.
  - clear -Hall. induction Hall as [|v a visited actions [H _] _ IH]; by constructor.
  - eapply (Forall2_NoDup_map (λ v, at_ v.1) dest (S ++ [name]) (D ++ [name])); [|exact Hnd].
    eapply Forall2_impl; [exact Hall|]. by intros v a [_ H].
  - clear -Hall. induction Hall as [|v a visited actions [_ (rest & _ & H)] _ IH]; constructor; [|done].
    exists rest. by rewrite <-app_assoc in H.
Qed.

Section workspaces.
Context (S D : string) (HS : clean_abs S) (HD : clean_abs D).

Lemma named_dirs name :
  ordinary (chars name) →
  clean_abs (Join S name) ∧ at_ (Join S name) = at_ S ++ [chars name] ∧
  clean_abs (Join D name) ∧ at_ (Join D name) = at_ D ++ [chars name].
Proof.
  intros Ho. destruct (norm_Join_name S name (proj1 HS) Ho), (norm_Join_name D name (proj1 HD) Ho). done.
Qed.

Lemma plan_dirs_aligned names actions :
  Forall (ordinary ∘ chars) names → NoDup names → plan_dirs cwd fs S D false names = Ok actions →
  Forall (aligned (at_ S) (at_ D)) actions ∧ NoDup (dest <$> actions) ∧
  Forall (λ a, ∃ name rest, name ∈ names ∧ dest a = at_ D ++ chars name :: rest) actions.
Proof.
  intros Ho. revert actions. induction Ho as [|name names Hn Ho IH]; intros actions Hnd; cbn [plan_dirs].
  { intros [= <-]. repeat constructor. }
  apply NoDup_cons in Hnd as [Hnot Hnd].
  assert (∀ l, Forall (λ a, ∃ n rest, n ∈ names ∧ dest a = at_ D ++ chars n :: rest) l →
               Forall (λ a, ∃ n rest, n ∈ name :: names ∧ dest a = at_ D ++ chars n :: rest) l) as Hmore.
  { intros l H. eapply Forall_impl; [exact H|]. intros a (n & rest & ? & ?). exists n, rest. by split; [right|]. }
  destruct (absent cwd fs (Join S name)).
  { intros Hp. destruct (IH actions Hnd Hp) as (H1 & H2 & H3). split_and!; [done|done|by apply Hmore]. }
  destruct (planDirCopy cwd fs _ _ _) as [dirs|] eqn:Ed; [|done].
  destruct (plan_dirs _ _ _ _ _ _) as [rest|] eqn:Er; [|done]. intros [= <-].
  destruct (named_dirs name Hn) as (Hs & Es & Hd & Ed'). 
  destruct (planDirCopy_aligned _ _ _ _ _ _ Hs Hd Es Ed' Ed) as (A1 & A2 & A3).
  destruct (IH rest Hnd eq_refl) as (B1 & B2 & B3). split_and!.
  - by apply Forall_app.
  - rewrite fmap_app. apply NoDup_app. split_and!; [done| |done].
    intros q (a & -> & Ha)%list_elem_of_fmap (b & E & Hb)%list_elem_of_fmap.
    rewrite Forall_forall in A3, B3. destruct (A3 a Ha) as [r1 E1], (B3 b Hb) as (n & r2 & Hin & E2).
    rewrite E1, E2 in E. apply app_inv_head in E. injection E as En _. apply (inj chars) in En. by subst.
  - apply Forall_app. split; [|by apply Hmore]. eapply Forall_impl; [exact A3|].
    intros a [r E]. exists name, r. by split; [left|].
Qed.

Lemma plan_files_aligned :
  Forall (aligned (at_ S) (at_ D)) (plan_files cwd fs S D false) ∧ NoDup (dest <$> plan_files cwd fs S D false) ∧
  Forall (λ a, ∃ name, name ∈ migrateableFiles ∧ dest a = at_ D ++ [chars name]) (plan_files cwd fs S D false).
Proof.
  unfold plan_files.
  assert (Forall (ordinary ∘ chars) migrateableFiles ∧ NoDup migrateableFiles) as [Ho Hnd].
  { split; [|by apply (bool_decide_unpack _)].
    repeat constructor; try done; by apply (bool_decide_unpack _). }
  generalize dependent migrateableFiles. intros names Ho Hnd.
  set (plan name := planFileCopy cwd fs (Join S name) (Join D name) false).
  assert (∀ name, name ∈ names → aligned (at_ S) (at_ D) (plan name) ∧ dest (plan name) = at_ D ++ [chars name]) as H.
  { intros name Hin. rewrite Forall_forall in Ho. destruct (named_dirs name (Ho name Hin)) as (Hs & Es & Hd & Ed).
    split; [by apply (planFileCopy_aligned _ _ _ _ [chars name])|]. rewrite <-Ed. subst plan.
    unfold planFileCopy. by repeat case_match. }
  split_and!.
  - apply Forall_forall. intros a (_ & (n & -> & Hn)%list_elem_of_fmap)%list_elem_of_filter. by apply H.
  - assert (NoDup (dest <$> (plan <$> names))) as Hd.
    { rewrite <-list_fmap_compose. assert ((dest ∘ plan) <$> names = (λ n, at_ D ++ [chars n]) <$> names) as ->.
      { apply Forall_fmap_ext_1, Forall_forall. intros n Hn. by apply H. }
      apply NoDup_fmap; [|done]. intros a b E. apply app_inv_head in E. injection E as E. by apply (inj chars). }
    eapply sublist_NoDup; [exact Hd|]. apply fmap_sublist, sublist_filter.
  - apply Forall_forall. intros a (_ & (n & -> & Hn)%list_elem_of_fmap)%list_elem_of_filter.
    exists n. split; [done|]. by apply H.
Qed.

Lemma plan_aligned actions :
  PlanWorkspaceMigration cwd fs S D false = Ok actions →
  Forall (aligned (at_ S) (at_ D)) actions ∧ NoDup (dest <$> actions).
Proof.
  unfold PlanWorkspaceMigration. destruct (plan_dirs _ _ _ _ _ _) as [dirs|] eqn:Ed; [|done]. intros [= <-].
  destruct plan_files_aligned as (A1 & A2 & A3).
  destruct (plan_dirs_aligned migrateableDirs dirs) as (B1 & B2 & B3); [|by apply (bool_decide_unpack _)|done|].
  { repeat constructor; try done; by apply (bool_decide_unpack _). }
  split; [by apply Forall_app|]. rewrite fmap_app. apply NoDup_app. split_and!; [done| |done].
  intros q (a & -> & Ha)%list_elem_of_fmap (b & E & Hb)%list_elem_of_fmap.
  rewrite Forall_forall in A3, B3. destruct (A3 a Ha) as (n & Hn & E1), (B3 b Hb) as (m & r & Hm & E2).
  rewrite E1, E2 in E. apply app_inv_head in E. injection E as En _. apply (inj chars) in En. subst m.
  assert (n ∈ migrateableFiles → n ∉ migrateableDirs) as Hdis; [|by apply Hdis].
  clear. intros Hn. repeat (apply elem_of_cons in Hn as [->|Hn]; [by apply (bool_decide_unpack _)|]).
  by apply not_elem_of_nil in Hn.
Qed.
(** Every file of a directory that is taken is in the plan. *)
Lemma planDirCopy_complete srcDir dstDir actions rest e :
  clean_abs srcDir → at_ srcDir ≠ [] → planDirCopy cwd fs srcDir dstDir false = Ok actions →
  fs !! (at_ srcDir ++ rest) = Some e → e ≠ EDir →
  ∃ a, a ∈ actions ∧ copies a ∧ source a = at_ srcDir ++ rest.
Proof.
  intros Hc Hne Hp He Hd. unfold planDirCopy in Hp.
  destruct (Walk cwd fs srcDir) as [visited|] eqn:Ew; [|done]. apply visit_all_Ok in Hp.
  assert (∃ v, v ∈ visited ∧ v.2 = false ∧ clean_abs v.1 ∧ at_ v.1 = at_ srcDir ++ rest) as (v & Hv & Hb & Hcv & Ev).
  { pose proof Ew as Ew'. unfold Walk in Ew. destruct (view_path _ _ _ _) as [p|] eqn:E; [|done].
    apply view_linkfree in E as ->; [|exact (plain_links fs Hfs)|done].
    unfold entry_at in Ew. rewrite bool_decide_eq_false_2 in Ew by done. destruct rest as [|x rest].
    - rewrite app_nil_r in He. rewrite He in Ew. exists (srcDir, false). rewrite app_nil_r.
      destruct e; simplify_eq; (split_and!; [by left|done..]).
    - destruct (plain_prefix fs _ _ e Hfs He) as [E|E]; [done|by destruct (Hne E)|]. rewrite E in Ew.
      injection Ew as <-. destruct (walk_dir_complete fs Hfs (size fs) srcDir (x :: rest) e) as (v & Hv & Hb & Ev);
        [|done..|].
      + apply depth_le_size in He; [|done]. rewrite length_app in He. lia.
      + exists v. split_and!; [done..| |done]. by apply (Walk_visited srcDir _ v Hc Hne Ew'). }
  apply list_elem_of_lookup in Hv as [i Hi].
  destruct (Forall2_lookup_l _ _ _ _ _ Hp Hi) as (a & Ha & E). exists a.
  split; [by eapply list_elem_of_lookup_2|]. unfold plan_visit in E. destruct (Rel srcDir v.1); [|done].
  injection E as <-. rewrite Hb. unfold planFileCopy, absent.
  rewrite (Stat_plain cwd fs v.1 e Hfs Hcv) by by rewrite Ev.
  rewrite bool_decide_eq_false_2 by done.
  destruct (_ && _); (split; [|exact Ev]); [by right|by left].
Qed.

Lemma plan_complete actions name rest e :
  PlanWorkspaceMigration cwd fs S D false = Ok actions → name ∈ migrateableDirs →
  fs !! (at_ S ++ chars name :: rest) = Some e → e ≠ EDir →
  ∃ a, a ∈ actions ∧ copies a ∧ source a = at_ S ++ chars name :: rest.
Proof.
  intros Hp Hn He Hd. unfold PlanWorkspaceMigration in Hp.
  destruct (plan_dirs _ _ _ _ _ _) as [dirs|] eqn:Ed; [|done]. injection Hp as <-.
  assert (∃ a, a ∈ dirs ∧ copies a ∧ source a = at_ S ++ chars name :: rest) as (a & Ha & H).
  2:{ exists a. split; [set_solver|done]. }
  assert (Forall (ordinary ∘ chars) migrateableDirs) as Ho
    by (repeat constructor; try done; by apply (bool_decide_unpack _)).
  revert dirs Ed. induction migrateableDirs as [|n names IH]; intros dirs Ed; [by apply not_elem_of_nil in Hn|].
  apply Forall_cons in Ho as [Hon Ho]. cbn [plan_dirs] in Ed. destruct (named_dirs n Hon) as (Hs & Es & _).
  destruct (decide (n = name)) as [->|Hne].
  - assert (absent cwd fs (Join S name) = false) as Hab.
    { unfold absent. destruct rest as [|x rest].
      - by rewrite (Stat_plain cwd fs _ e Hfs Hs) by by rewrite Es.
      - replace (at_ S ++ chars name :: x :: rest) with ((at_ S ++ [chars name]) ++ x :: rest) in He
          by by rewrite <-app_assoc.
        destruct (plain_prefix fs _ _ e Hfs He) as [E|E]; [done|by destruct (at_ S)|].
        by rewrite (Stat_plain cwd fs _ EDir Hfs Hs) by by rewrite Es. }
    rewrite Hab in Ed. destruct (planDirCopy cwd fs _ _ _) as [l|] eqn:El; [|done].
    destruct (plan_dirs _ _ _ _ _ _) as [l'|]; [|done]. injection Ed as <-.
    destruct (planDirCopy_complete (Join S name) (Join D name) l rest e Hs) as (a & Ha & Hc & Hsrc); [|done| |done|].
    + rewrite Es. by destruct (at_ S).
    + by rewrite Es, <-app_assoc.
    + exists a. rewrite Es, <-app_assoc in Hsrc. split; [set_solver|done].
  - apply elem_of_cons in Hn as [E|Hn]; [by rewrite E in Hne|].
    destruct (absent cwd fs (Join S n)); [by apply IH|].
    destruct (planDirCopy cwd fs _ _ _) as [l|] eqn:El; [|done].
    destruct (plan_dirs _ _ _ _ _ _) as [l'|]; [|done]. injection Ed as <-.
    destruct (IH Hn Ho l' eq_refl) as (a & Ha & H). exists a. split; [set_solver|done].
Qed.
End workspaces.
End planning.

(** ** Nothing is lost *)
Section safe.
Context (cwd : list comp).
Context (json_Unmarshal : string → result string members).
Context (load_settings : string → result string Settings).
Context (MarshalIndent : Settings → result string string).
Context (order : members → members).
Notation Execute := (Execute cwd json_Unmarshal load_settings MarshalIndent order).
Notation at_ path := (norm (chars path)).

(** No file of the plan has the name of the backup of another. *)
Definition no_backup_names (actions : list Action) : Prop :=
  ∀ a b, a ∈ actions → b ∈ actions → copies a → copies b → dest a ≠ bak_of (dest b).

(** C26: the migration of a workspace, without force, from a tree without links:
    every file that was in the tree is still there or in the backup next to it,
    except the backups of files that are backed up again; the source is unchanged;
    and if no error is reported, every planned file has arrived.  The two
    workspaces must not contain each other, and no planned file may have the name
    of the backup of another. *)
Theorem migration_loses_nothing fs (openclawHome tinyClawHome : string) actions :
  let S := resolveWorkspace openclawHome in
  let D := resolveWorkspace tinyClawHome in
  plain fs → IsAbs openclawHome = true → IsAbs tinyClawHome = true →
  ¬ at_ S `prefix_of` at_ D → ¬ at_ D `prefix_of` at_ S →
  PlanWorkspaceMigration cwd fs S D false = Ok actions → no_backup_names actions →
  let '(fs', r) := Execute fs actions in
  (∀ p d, fs !! p = Some (EFile d) → (∀ a, a ∈ actions → Type_ a = ActionBackup → p ≠ bak_of (dest a)) →
     fs' !! p = Some (EFile d) ∨ fs' !! bak_of p = Some (EFile d)) ∧
  (∀ p d, at_ S `prefix_of` p → fs !! p = Some (EFile d) ↔ fs' !! p = Some (EFile d)) ∧
  (Errors r = [] → ∀ a, a ∈ actions → copies a →
     ∃ d, fs !! source a = Some (EFile d) ∧ fs' !! dest a = Some (EFile d)).
Proof.
  intros S D Hfs HoS HoD HSD HDS Hplan Hbak.
  assert (clean_abs S ∧ clean_abs D) as [HS HD] by (by split; apply Join_abs).
  destruct (plan_aligned cwd fs Hfs S D HS HD actions Hplan) as [Hal Hnd].
  assert (Forall (planned_on fs) actions) as Hpl by (eapply Forall_impl; [exact Hal|]; by intros a [? _]).
  assert (clash_free actions) as Hclash.
  { split; [|exact Hbak]. eapply sublist_NoDup; [exact Hnd|]. apply fmap_sublist, sublist_filter. }
  pose proof (plain_links fs Hfs) as Hl. rewrite Forall_forall in Hal.
  assert (∀ b p, b ∈ actions → touches b p → at_ D `prefix_of` p) as Htouch.
  { intros b p Hb [Hc Hp]. destruct (Hal b Hb) as [_ (rest & Ed & Hs)]. destruct (Hs Hc) as [Hne _].
    destruct Hp as [->|[_ ->]]; rewrite Ed; [by eexists|].
    destruct rest as [|x rest _] using rev_ind; [done|]. rewrite app_assoc, bak_of_snoc, <-app_assoc. by eexists. }
  assert (∀ b p, b ∈ actions → at_ S `prefix_of` p → ¬ touches b p) as Hleave.
  { intros b p Hb HSp Ht%Htouch; [|done]. by destruct (prefix_weak_total _ _ _ HSp Ht). }
  destruct (Execute fs actions) as [fs' r] eqn:E.
  assert (fs' = (Execute fs actions).1 ∧ r = (Execute fs actions).2) as [-> ->] by by rewrite E. clear E.
  split_and!.
  - intros p d. by apply kept_or_backed_up.
  - intros p d Hp. apply (run_leaves cwd json_Unmarshal load_settings MarshalIndent order fs actions Hpl (fs, no_result) actions p d);
      [done|done|]. intros b Hb. by apply Hleave.
  - intros Herr a Ha Hc. destruct (Hal a Ha) as [_ (rest & Ed & Hs)]. destruct (Hs Hc) as [Hne Es].
    apply (brought cwd json_Unmarshal load_settings MarshalIndent order fs actions); try done.
    + rewrite Ed, Es. intros E. assert (at_ S ++ rest = at_ D ++ rest) as E' by done.
      apply app_inv_tail in E'. apply HSD. by rewrite E'.
    + intros b Hb. apply Hleave; [done|]. rewrite Es. by eexists.
Qed.
End safe.

(** ** Concrete migrations *)
Definition demo_fs : fsys :=
  list_to_map [
    ([chars "o"], EDir); ([chars "o"; chars "workspace"], EDir);
    ([chars "o"; chars "workspace"; chars "AGENTS.md"], EFile "theirs");
    ([chars "o"; chars "workspace"; chars "memory"], EDir);
    ([chars "o"; chars "workspace"; chars "memory"; chars "MEMORY.md"], EFile "notes");
    ([chars "t"], EDir); ([chars "t"; chars "workspace"], EDir);
    ([chars "t"; chars "workspace"; chars "AGENTS.md"], EFile "mine")].
Definition demo_plan (fs : fsys) (force : bool) (from to : string) : list Action :=
  default [] (match PlanWorkspaceMigration [] fs (resolveWorkspace from) (resolveWorkspace to) force with
              | Ok actions => Some actions | Err _ => None end).
Definition demo_run (fs : fsys) (actions : list Action) : fsys * Result :=
  Execute [] (λ _, Err "") (λ _, Err "") (λ _, Err "") (λ m, m) fs actions.
Definition text_at (fs : fsys) (path : string) : option string :=
  match fs !! norm (chars path) with Some (EFile d) => Some d | _ => None end.

Definition plain_entry (fs : fsys) (x : list comp * entry) : bool :=
  match x.2 with ELink _ => false | _ => true end &&
  forallb (λ c, negb (bool_decide (c = [])) && negb (bool_decide (c = dot_comp)) &&
                negb (bool_decide (c = dotdot)) && negb (bool_decide (slash ∈ c))) x.1 &&
  (bool_decide (x.1 = []) || bool_decide (removelast x.1 = []) ||
   match fs !! removelast x.1 with Some EDir => true | _ => false end).

Lemma check_plain fs : forallb (plain_entry fs) (map_to_list fs) = true → plain fs.
Proof.
  rewrite forallb_forall. intros H.
  assert (∀ p e, fs !! p = Some e → plain_entry fs (p, e) = true) as H'.
  { intros p e He. apply H. by apply list_elem_of_In, elem_of_map_to_list. }
  clear H. unfold plain_entry in H'. cbn [fst snd] in H'. split.
  - intros p t He. by specialize (H' _ _ He).
  - intros p e He. specialize (H' _ _ He). apply andb_true_iff in H' as [H' _].
    apply andb_true_iff in H' as [_ H']. rewrite forallb_forall in H'. apply Forall_forall. intros c Hc.
    apply list_elem_of_In in Hc. specialize (H' c Hc). bool_nums. by split_and!.
  - intros p x e He. specialize (H' _ _ He). apply andb_true_iff in H' as [_ H'].
    rewrite removelast_last in H'. apply orb_true_iff in H' as [H'|H'].
    + apply orb_true_iff in H' as [H'|H']; apply bool_decide_eq_true in H'; [by destruct p|by left].
    + right. by destruct (fs !! p) as [[]|].
Qed.

(** The names of backups, decided on a plan. *)
Lemma check_backup_names actions :
  forallb (λ a, forallb (λ b, negb (bool_decide (dest a = bak_of (dest b)))) actions) actions = true →
  no_backup_names actions.
Proof.
  rewrite forallb_forall. intros H a b Ha%list_elem_of_In Hb%list_elem_of_In _ _ E.
  specialize (H a Ha). rewrite forallb_forall in H. specialize (H b Hb).
  by rewrite bool_decide_eq_true_2 in H.
Qed.

Lemma migration_loses_nothing_witness :
  let '(fs', r) := demo_run demo_fs (demo_plan demo_fs false "/o" "/t") in
  Errors r = [] ∧
  (text_at fs' "/t/workspace/AGENTS.md" = Some "mine" ∨ text_at fs' "/t/workspace/AGENTS.md.bak" = Some "mine").
Proof.
  assert (plain demo_fs) as Hp by (apply check_plain; vm_compute; reflexivity).
  pose proof (migration_loses_nothing [] (λ _, Err "") (λ _, Err "") (λ _, Err "") (λ m, m) demo_fs "/o" "/t"
    (demo_plan demo_fs false "/o" "/t") Hp eq_refl eq_refl) as H.
  specialize (H ltac:(apply (bool_decide_unpack _); vm_compute; exact I)
                ltac:(apply (bool_decide_unpack _); vm_compute; exact I)
                ltac:(vm_compute; reflexivity)
                ltac:(apply check_backup_names; vm_compute; reflexivity)).
  assert (Errors (demo_run demo_fs (demo_plan demo_fs false "/o" "/t")).2 = []) as Hr by (vm_compute; reflexivity).
  unfold demo_run in *. destruct (Execute _ _ _ _ _ _ _) as [fs' r]. cbn [snd] in Hr.
  destruct H as (H & _ & _). split; [exact Hr|].
  specialize (H (norm (chars "/t/workspace/AGENTS.md")) "mine" ltac:(vm_compute; reflexivity)).
  destruct H as [H|H].
  - intros a Ha _. revert a Ha. apply Forall_forall, (bool_decide_unpack _). vm_compute. exact I.
  - left. unfold text_at. by rewrite H.
  - right. unfold text_at. change (norm (chars "/t/workspace/AGENTS.md.bak")) with
      (bak_of (norm (chars "/t/workspace/AGENTS.md"))). by rewrite H.
Defined.

(** Finding: a file that is backed up a second time loses what the first backup kept. *)
Lemma second_migration_loses_original :
  let fs1 := (demo_run demo_fs (demo_plan demo_fs false "/o" "/t")).1 in
  let fs2 := (demo_run fs1 (demo_plan fs1 false "/o" "/t")).1 in
  text_at fs1 "/t/workspace/AGENTS.md.bak" = Some "mine" ∧
  text_at fs2 "/t/workspace/AGENTS.md" = Some "theirs" ∧ text_at fs2 "/t/workspace/AGENTS.md.bak" = Some "theirs".
Proof. vm_compute. done. Qed.

(** Finding: the option that is documented to skip questions also skips backups. *)
Lemma force_overwrites_without_backup :
  let fs1 := (demo_run demo_fs (demo_plan demo_fs true "/o" "/t")).1 in
  text_at fs1 "/t/workspace/AGENTS.md" = Some "theirs" ∧ text_at fs1 "/t/workspace/AGENTS.md.bak" = None.
Proof. vm_compute. done. Qed.

(** Finding: with one directory as both homes, a forced or repeated migration empties
    every file: the destination is emptied before the source, the same file, is read. *)
Lemma same_home_empties_files :
  let '(fs1, r) := demo_run demo_fs (demo_plan demo_fs true "/t" "/t") in
  text_at demo_fs "/t/workspace/AGENTS.md" = Some "mine" ∧
  text_at fs1 "/t/workspace/AGENTS.md" = Some "" ∧ Errors r = [].
Proof. vm_compute. done. Qed.

(** Finding: the backup of one file is overwritten by another file of that name. *)
Definition clashing_fs : fsys :=
  <[[chars "o"; chars "workspace"; chars "memory"; chars "MEMORY.md.bak"] := EFile "old notes"]>
  (<[[chars "t"; chars "workspace"; chars "memory"] := EDir]>
  (<[[chars "t"; chars "workspace"; chars "memory"; chars "MEMORY.md"] := EFile "mine"]> demo_fs)).
Lemma backup_overwritten :
  let '(fs1, r) := demo_run clashing_fs (demo_plan clashing_fs false "/o" "/t") in
  text_at clashing_fs "/t/workspace/memory/MEMORY.md" = Some "mine" ∧ Errors r = [] ∧
  text_at fs1 "/t/workspace/memory/MEMORY.md" = Some "notes" ∧
  text_at fs1 "/t/workspace/memory/MEMORY.md.bak" = Some "old notes".
Proof. vm_compute. done. Qed.
