(* ===== verification/ToDhall.v ===== *)
(** * A configuration as Dhall (pkg/migrate/to_dhall.go)

    The text that is written for a configuration.  What the text depends on is
    proved to leave out the keys of models and of searches; what a reader of the
    text gets back is proved for its literals. *)
From stdpp Require Import base gmap strings list pretty.
From Stdlib Require Import Ascii ZArith QArith Lia.
From S2P Require Import Prelude GoStrings Paths FileTools Agents Config Settings MigrationFiles.
From S2P Require Routing.
#[local] Open Scope go_scope.
#[local] Open Scope nat_scope.

(** ** Texts *)
Definition nl : string := String newline_char "".
Definition dquote : ascii := ascii_of_nat 34.
Definition backslash : ascii := ascii_of_nat 92.
Definition cat (l : list string) : string := join "" l.
Definition line (indent s : string) : string := indent +:+ s +:+ nl.
Definition itoa (n : Z) : string := pretty n.

(** [strconv.Quote]: an escaped character; bytes outside ASCII are taken to be parts
    of printable characters. *)
Definition control_names : list (nat * ascii) :=
  [(7, "a"%char); (8, "b"%char); (9, "t"%char); (10, "n"%char); (11, "v"%char); (12, "f"%char); (13, "r"%char)].
Definition hex_digit (n : nat) : ascii := default "0"%char (chars "0123456789abcdef" !! n).
Definition quote_char (c : ascii) : list ascii :=
  if bool_decide (c = dquote ∨ c = backslash) then [backslash; c]
  else if Nat.leb 32 (byte c) && negb (Nat.eqb (byte c) 127) then [c]
  else match find_first (λ x, bool_decide (x.1 = byte c)) control_names with
       | Some (_, name) => [backslash; name]
       | None => [backslash; "x"%char; hex_digit (byte c / 16); hex_digit (byte c mod 16)]
       end.
Definition quoted (l : list ascii) : list ascii := [dquote] ++ (l ≫= quote_char) ++ [dquote].

(** ** Literals *)

(** Backslashes and double quotes, each escaped by a backslash. *)
Definition escape_char (c : ascii) : list ascii :=
  if bool_decide (c = dquote ∨ c = backslash) then [backslash; c] else [c].
Definition dhallText (s : string) : string := implode (quoted (chars s ≫= escape_char)).
Definition dhallBool (b : bool) : string := if b then "True" else "False".
Definition dhallOptionalText (s : string) : string := if blank s then "None Text" else "Some " +:+ dhallText s.
Definition dhallInt (n : Z) : string := if Z.leb 0 n then "+" +:+ itoa n else itoa n.
Definition dhallTextList (ss : list string) : string :=
  match ss with [] => "emptyStrings" | _ => "[ " +:+ join ", " (dhallText <$> ss) +:+ " ]" end.

(** ** The configuration that is written *)
Record dhall_config := mk_dhall_config {
  dh_Settings : Settings;
  dh_ImageModel : string;                           (* Agents.Defaults *)
  dh_ImageModelFallbacks : list string;
  dh_List : list AgentConfig;                       (* Agents.List *)
  dh_Bindings : list Routing.AgentBinding;
  dh_DMScope : string;                              (* Session *)
  dh_IdentityLinks : list (string * list string);   (* in the order they are visited *)
}.

Section render.
(** [%g] of a float, and the JSON of a binding. *)
Context (format_g : Q → string).
Context (json_Marshal : Routing.AgentBinding → result string string).

Definition renderAgentConfig (a : AgentConfig) : string :=
  cat ["{ id = " +:+ dhallText (ac_ID a);
       if ac_Default a then ", default = True" else "";
       if blank (ac_Name a) then "" else ", name = Some " +:+ dhallText (ac_Name a);
       if blank (ac_Workspace a) then "" else ", workspace = Some " +:+ dhallText (ac_Workspace a);
       " }"].

Definition renderAgents (indent : string) (d : AgentDefaults) (c : dhall_config) : string :=
  cat [line indent "  { defaults =";
       line indent ("    { workspace = " +:+ dhallText (ad_Workspace d));
       line indent ("    , restrict_to_workspace = " +:+ dhallBool (ad_RestrictToWorkspace d));
       line indent ("    , provider = " +:+ dhallText (ad_Provider d));
       line indent ("    , model_name = " +:+ dhallOptionalText (ad_ModelName d));
       line indent ("    , model = " +:+ dhallOptionalText (GetModelName d));
       line indent ("    , model_fallbacks = " +:+ dhallTextList (ad_ModelFallbacks d));
       line indent ("    , image_model = " +:+ dhallOptionalText (dh_ImageModel c));
       line indent ("    , image_model_fallbacks = " +:+ dhallTextList (dh_ImageModelFallbacks c));
       line indent ("    , max_tokens = " +:+ itoa (ad_MaxTokens d));
       match ad_Temperature d with
       | Some t => line indent ("    , temperature = Some " +:+ format_g t)
       | None => line indent "    , temperature = None Double"
       end;
       line indent ("    , max_tool_iterations = " +:+ itoa (ad_MaxToolIterations d));
       line indent "    }";
       match dh_List c with
       | [] => line indent "  , list = [] : List Types.Agent.AgentConfig"
       | l => cat [line indent "  , list ="; indent +:+ "    [ ";
                   join (indent +:+ "    , ") ((λ a, renderAgentConfig a +:+ nl) <$> l);
                   line indent "    ]"]
       end;
       line indent "  }"].

Definition render_binding (b : Routing.AgentBinding) : result string string :=
  match json_Marshal b with
  | Err e => Err ("-- TODO: convert binding (marshal error: " +:+ e +:+ ")")
  | Ok text => Ok ("-- TODO: convert binding: " +:+ text)
  end.
Fixpoint render_bindings (parts : list string) (bs : list Routing.AgentBinding) : string :=
  match bs with
  | [] => "[" +:+ nl +:+ join nl parts +:+ nl +:+ "    ]"
  | b :: bs => match render_binding b with
               | Err text => text
               | Ok part => render_bindings (parts ++ [part]) bs
               end
  end.
Definition renderBindings (bs : list Routing.AgentBinding) : string :=
  match bs with [] => "[] : List Types.Binding.AgentBinding" | _ => render_bindings [] bs end.

Definition renderSession (indent : string) (c : dhall_config) : string :=
  cat [line indent ("{ dm_scope = " +:+ dhallText (dh_DMScope c));
       match dh_IdentityLinks c with
       | [] => line indent ", identity_links = [] : List { mapKey : Text, mapValue : List Text }"
       | links =>
           cat [line indent ", identity_links ="; indent +:+ "  [ ";
                join (indent +:+ "  , ")
                  ((λ '(k, v), "{ mapKey = " +:+ dhallText k +:+ ", mapValue = " +:+ dhallTextList v +:+ " }") <$> links);
                nl +:+ indent +:+ "  ]" +:+ nl]
       end;
       line indent "}"].

(** A record of a channel: its fields in lines of their own. *)
Definition fields_of (indent : string) (fields : list (string * string)) : string :=
  match fields with
  | [] => ""
  | (k, v) :: rest =>
      line indent ("  { " +:+ k +:+ " = " +:+ v)
      +:+ cat ((λ '(k, v), line indent ("  , " +:+ k +:+ " = " +:+ v)) <$> rest) +:+ line indent "  }"
  end.
Definition channel_record (indent lead name : string) (fields : list (string * string)) : string :=
  line indent (lead +:+ " " +:+ name +:+ " =") +:+ fields_of indent fields.

Definition renderChannels (indent : string) (ch : ChannelsConfig) : string :=
  cat [
    channel_record indent "{" "whatsapp"
      [("enabled", dhallBool (wa_Enabled (ch_WhatsApp ch))); ("bridge_url", dhallText (wa_BridgeURL (ch_WhatsApp ch)));
       ("allow_from", dhallTextList (wa_AllowFrom (ch_WhatsApp ch)))];
    channel_record indent "," "telegram"
      [("enabled", dhallBool (tg_Enabled (ch_Telegram ch))); ("token", dhallText (tg_Token (ch_Telegram ch)));
       ("proxy", dhallText (tg_Proxy (ch_Telegram ch))); ("allow_from", dhallTextList (tg_AllowFrom (ch_Telegram ch)))];
    channel_record indent "," "feishu"
      [("enabled", dhallBool (fs_Enabled (ch_Feishu ch))); ("app_id", dhallText (fs_AppID (ch_Feishu ch)));
       ("app_secret{- -}", dhallText (fs_AppSecret (ch_Feishu ch)));
       ("encrypt_key", dhallText (fs_EncryptKey (ch_Feishu ch)));
       ("verification_token", dhallText (fs_VerificationToken (ch_Feishu ch)));
       ("allow_from", dhallTextList (fs_AllowFrom (ch_Feishu ch)))];
    channel_record indent "," "discord"
      [("enabled", dhallBool (dc_Enabled (ch_Discord ch))); ("token", dhallText (dc_Token (ch_Discord ch)));
       ("allow_from", dhallTextList (dc_AllowFrom (ch_Discord ch)));
       ("mention_only", dhallBool (dc_MentionOnly (ch_Discord ch)))];
    channel_record indent "," "maixcam"
      [("enabled", dhallBool (mx_Enabled (ch_MaixCam ch))); ("host", dhallText (mx_Host (ch_MaixCam ch)));
       ("port", itoa (mx_Port (ch_MaixCam ch))); ("allow_from", dhallTextList (mx_AllowFrom (ch_MaixCam ch)))];
    channel_record indent "," "qq"
      [("enabled", dhallBool (qq_Enabled (ch_QQ ch))); ("app_id", dhallText (qq_AppID (ch_QQ ch)));
       ("app_secret{- -}", dhallText (qq_AppSecret (ch_QQ ch)));
       ("allow_from", dhallTextList (qq_AllowFrom (ch_QQ ch)))];
    channel_record indent "," "dingtalk"
      [("enabled", dhallBool (dt_Enabled (ch_DingTalk ch))); ("client_id", dhallText (dt_ClientID (ch_DingTalk ch)));
       ("client_secret{- -}", dhallText (dt_ClientSecret (ch_DingTalk ch)));
       ("allow_from", dhallTextList (dt_AllowFrom (ch_DingTalk ch)))];
    channel_record indent "," "slack"
      [("enabled", dhallBool (sl_Enabled (ch_Slack ch))); ("bot_token", dhallText (sl_BotToken (ch_Slack ch)));
       ("app_token", dhallText (sl_AppToken (ch_Slack ch)));
       ("allow_from", dhallTextList (sl_AllowFrom (ch_Slack ch)))];
    channel_record indent "," "line"
      [("enabled", dhallBool (ln_Enabled (ch_LINE ch)));
       ("channel_secret{- -}", dhallText (ln_ChannelSecret (ch_LINE ch)));
       ("channel_access_token{- -}", dhallText (ln_ChannelAccessToken (ch_LINE ch)));
       ("webhook_host", dhallText (ln_WebhookHost (ch_LINE ch))); ("webhook_port", itoa (ln_WebhookPort (ch_LINE ch)));
       ("webhook_path", dhallText (ln_WebhookPath (ch_LINE ch)));
       ("allow_from", dhallTextList (ln_AllowFrom (ch_LINE ch)))];
    channel_record indent "," "onebot"
      [("enabled", dhallBool (ob_Enabled (ch_OneBot ch))); ("ws_url", dhallText (ob_WSUrl (ch_OneBot ch)));
       ("access_token{- -}", dhallText (ob_AccessToken (ch_OneBot ch)));
       ("reconnect_interval", itoa (ob_ReconnectInterval (ch_OneBot ch)));
       ("group_trigger_prefix", dhallTextList (ob_GroupTriggerPrefix (ch_OneBot ch)));
       ("allow_from", dhallTextList (ob_AllowFrom (ch_OneBot ch)))];
    channel_record indent "," "wecom"
      [("enabled", dhallBool (wc_Enabled (ch_WeCom ch))); ("token", dhallText (wc_Token (ch_WeCom ch)));
       ("encoding_aes_key", dhallText (wc_EncodingAESKey (ch_WeCom ch)));
       ("webhook_url", dhallText (wc_WebhookURL (ch_WeCom ch)));
       ("webhook_host", dhallText (wc_WebhookHost (ch_WeCom ch))); ("webhook_port", itoa (wc_WebhookPort (ch_WeCom ch)));
       ("webhook_path", dhallText (wc_WebhookPath (ch_WeCom ch)));
       ("allow_from", dhallTextList (wc_AllowFrom (ch_WeCom ch)));
       ("reply_timeout", itoa (wc_ReplyTimeout (ch_WeCom ch)))];
    channel_record indent "," "wecom_app"
      [("enabled", dhallBool (wapp_Enabled (ch_WeComApp ch))); ("corp_id", dhallText (wapp_CorpID (ch_WeComApp ch)));
       ("corp_secret{- -}", dhallText (wapp_CorpSecret (ch_WeComApp ch)));
       ("agent_id", dhallInt (wapp_AgentID (ch_WeComApp ch))); ("token", dhallText (wapp_Token (ch_WeComApp ch)));
       ("encoding_aes_key", dhallText (wapp_EncodingAESKey (ch_WeComApp ch)));
       ("webhook_host", dhallText (wapp_WebhookHost (ch_WeComApp ch)));
       ("webhook_port", itoa (wapp_WebhookPort (ch_WeComApp ch)));
       ("webhook_path", dhallText (wapp_WebhookPath (ch_WeComApp ch)));
       ("allow_from", dhallTextList (wapp_AllowFrom (ch_WeComApp ch)));
       ("reply_timeout", itoa (wapp_ReplyTimeout (ch_WeComApp ch)))];
    line indent "}"].

Definition renderModelConfig (indent : string) (mc : ModelConfig) : string :=
  let apiBase := if blank (mdl_APIBase mc) then "(None Text)" else "(Some " +:+ dhallText (mdl_APIBase mc) +:+ ")" in
  let redactedKey := if blank (mdl_APIKey mc) then "" else "env:TINYCLAW_API_KEY as Text" in
  if negb (blank (mdl_AuthMethod mc)) || negb (blank (mdl_ConnectMode mc)) || negb (blank (mdl_Workspace mc)) then
    cat ["{ model_name = " +:+ dhallText (mdl_ModelName mc) +:+ nl;
         line indent (", model = " +:+ dhallText (mdl_Model mc));
         line indent (", api_base = " +:+ apiBase);
         line indent (", api_key{- -} = " +:+ dhallText redactedKey);
         line indent ", proxy = None Text";
         line indent (", auth_method = " +:+ dhallOptionalText (mdl_AuthMethod mc));
         line indent (", connect_mode = " +:+ dhallOptionalText (mdl_ConnectMode mc));
         line indent (", workspace = " +:+ dhallOptionalText (mdl_Workspace mc));
         line indent ", rpm = None Natural";
         line indent ", max_tokens_field = None Text";
         indent +:+ "}"]
  else if negb (blank (mdl_APIKey mc)) then
    "H.mkModelConfig " +:+ dhallText (mdl_ModelName mc) +:+ " " +:+ dhallText (mdl_Model mc) +:+ " " +:+ apiBase
    +:+ " (" +:+ redactedKey +:+ ")"
  else
    "H.emptyModelConfig " +:+ dhallText (mdl_ModelName mc) +:+ " " +:+ dhallText (mdl_Model mc) +:+ " " +:+ apiBase.

Definition renderModelList (indent : string) (models : list ModelConfig) : string :=
  let outer := str_take (String.length indent - 2) indent in
  match models with
  | [] => line indent "[] : List Types.Provider.ModelConfig"
  | _ => cat [outer +:+ "[ "; join (outer +:+ ", ") ((λ mc, renderModelConfig indent mc +:+ nl) <$> models);
              line outer "]"]
  end.

Definition renderTools (indent : string) (t : ToolsConfig) : string :=
  let hub := sr_ClawHub (st_Registries (tc_Skills t)) in
  cat [line indent "{ web ="; line indent "  { brave = H.emptyBrave"; line indent "  , tavily = H.emptyTavily";
       line indent ("  , duckduckgo = { enabled = " +:+ dhallBool (dd_Enabled (wt_DuckDuckGo (tc_Web t)))
                    +:+ ", max_results = " +:+ itoa (dd_MaxResults (wt_DuckDuckGo (tc_Web t))) +:+ " }");
       line indent "  , perplexity = H.emptyPerplexity";
       line indent ("  , proxy = " +:+ dhallText (wt_Proxy (tc_Web t))); line indent "  }";
       line indent (", cron = { exec_timeout_minutes = " +:+ itoa (ct_ExecTimeoutMinutes (tc_Cron t)) +:+ " }");
       line indent ", exec ="; line indent ("  { enable_deny_patterns = " +:+ dhallBool (ex_EnableDenyPatterns (tc_Exec t)));
       line indent ("  , custom_deny_patterns = " +:+ dhallTextList (ex_CustomDenyPatterns (tc_Exec t)));
       line indent "  }"; line indent ", skills ="; line indent "  { registries ="; line indent "    { clawhub =";
       line indent ("      { enabled = " +:+ dhallBool (hub_Enabled hub));
       line indent ("      , base_url = " +:+ dhallText (hub_BaseURL hub));
       line indent ("      , auth_token{- -} = " +:+ dhallText (hub_AuthToken hub));
       line indent ("      , search_path = " +:+ dhallText (hub_SearchPath hub));
       line indent ("      , skills_path = " +:+ dhallText (hub_SkillsPath hub));
       line indent ("      , download_path = " +:+ dhallText (hub_DownloadPath hub));
       line indent ("      , timeout = " +:+ itoa (hub_Timeout hub));
       line indent ("      , max_zip_size = " +:+ itoa (hub_MaxZipSize hub));
       line indent ("      , max_response_size = " +:+ itoa (hub_MaxResponseSize hub));
       line indent "      }"; line indent "    }";
       line indent ("  , max_concurrent_searches = " +:+ itoa (st_MaxConcurrentSearches (tc_Skills t)));
       line indent ("  , search_cache = { max_size = " +:+ itoa (sc_MaxSize (st_SearchCache (tc_Skills t)))
                    +:+ ", ttl_seconds = " +:+ itoa (sc_TTLSeconds (st_SearchCache (tc_Skills t))) +:+ " }");
       line indent "  }"; line indent "}"].

Definition renderConfig (indent : string) (c : dhall_config) : string :=
  let cfg := dh_Settings c in
  cat ["{ agents =" +:+ nl; renderAgents indent (cfg_Defaults (se_Models cfg)) c;
       line indent (", bindings = " +:+ renderBindings (dh_Bindings c));
       line indent ", session ="; renderSession (indent +:+ "  ") c;
       line indent ", channels ="; renderChannels (indent +:+ "  ") (se_Channels cfg);
       line indent ", model_list ="; renderModelList (indent +:+ "    ") (cfg_ModelList (se_Models cfg));
       line indent (", gateway = { host = " +:+ dhallText (gw_Host (se_Gateway cfg)) +:+ ", port = "
                    +:+ itoa (gw_Port (se_Gateway cfg)) +:+ " }");
       line indent ", tools ="; renderTools (indent +:+ "  ") (se_Tools cfg);
       line indent (", heartbeat = { enabled = " +:+ dhallBool (hb_Enabled (se_Heartbeat cfg)) +:+ ", interval = "
                    +:+ itoa (hb_Interval (se_Heartbeat cfg)) +:+ " }");
       line indent (", devices = { enabled = " +:+ dhallBool (dv_Enabled (se_Devices cfg)) +:+ ", monitor_usb = "
                    +:+ dhallBool (dv_MonitorUSB (se_Devices cfg)) +:+ " }");
       line indent "}"].

Fixpoint redaction_warnings (i : nat) (models : list ModelConfig) : list string :=
  match models with
  | [] => []
  | mc :: models =>
      (if blank (mdl_APIKey mc) then []
       else ["model_list[" +:+ pretty i +:+ "] (" +:+ mdl_ModelName mc +:+ "): credential value redacted"])
      ++ redaction_warnings (S i) models
  end.

(** The text, and the warnings added to the result. *)
Definition configToDhall (c : dhall_config) : string * list string :=
  (cat [line "" "-- TinyClaw configuration (generated from JSON)";
        line "" "-- Edit this file to manage your configuration as typed Dhall."; nl;
        line "" "let Types = https://raw.githubusercontent.com/tinyland-inc/tinyclaw/main/dhall/types/package.dhall";
        line "" "let H = https://raw.githubusercontent.com/tinyland-inc/tinyclaw/main/dhall/helpers.dhall"; nl;
        line "" "let emptyStrings = [] : List Text"; nl; "in  "; renderConfig "    " c],
   redaction_warnings 0 (cfg_ModelList (se_Models (dh_Settings c)))).

(** ** Running *)
Record ToDhallOptions := mk_ToDhallOptions {
  do_ConfigPath : string;
  do_OutputPath : string;
  do_DryRun : bool;
  do_Force : bool;
}.

Section run.
Context (home : result string string) (load_config : string → result string dhall_config).
Context (cwd : list comp).

(** The tree, the path of the output and the warnings. *)
Definition RunToDhall (fs : fsys) (opts : ToDhallOptions) : result string (fsys * (string * list string)) :=
  let? configPath :=
    (if blank (do_ConfigPath opts) then
       match home with
       | Ok h => Ok (Join (Join h ".tinyclaw") "config.json")
       | Err e => Err ("resolving home directory: " +:+ e)
       end
     else Ok (do_ConfigPath opts)) in
  let outputPath := if blank (do_OutputPath opts) then trim_suffix configPath ".json" +:+ ".dhall"
                    else do_OutputPath opts in
  if absent cwd fs configPath then Err ("config file not found: " +:+ configPath)
  else
    match load_config configPath with
    | Err e => Err ("loading config: " +:+ e)
    | Ok cfg =>
        let '(dhall, warnings) := configToDhall cfg in
        if do_DryRun opts then Ok (fs, (outputPath, warnings))
        else if negb (do_Force opts) && exists_at cwd fs outputPath
        then Err ("output file already exists: " +:+ outputPath +:+ " (use --force to overwrite)")
        else
          match sys_MkdirAll fs (host_view cwd) (Dir outputPath) with
          | (_, Some e) => Err (errno_text e)
          | (fs, None) =>
              match sys_WriteFile fs (host_view cwd) outputPath dhall with
              | (_, Some e) => Err (errno_text e)
              | (fs, None) => Ok (fs, (outputPath, warnings))
              end
          end
    end.
End run.
End render.

(** ** What the text does not tell *)

(** Entries of the list of models that differ in what is left out: the value of a
    key, the proxy, the limit of requests, the name of the field for tokens. *)
Record same_entry (a b : ModelConfig) : Prop := {
  se_name : mdl_ModelName a = mdl_ModelName b;
  se_model : mdl_Model a = mdl_Model b;
  se_base : mdl_APIBase a = mdl_APIBase b;
  se_keyed : blank (mdl_APIKey a) = blank (mdl_APIKey b);
  se_auth : mdl_AuthMethod a = mdl_AuthMethod b;
  se_mode : mdl_ConnectMode a = mdl_ConnectMode b;
  se_workspace : mdl_Workspace a = mdl_Workspace b;
}.

(** Tools that differ in the searches with keys and in the servers of MCP. *)
Record same_tools (a b : ToolsConfig) : Prop := {
  st_duck : wt_DuckDuckGo (tc_Web a) = wt_DuckDuckGo (tc_Web b);
  st_proxy : wt_Proxy (tc_Web a) = wt_Proxy (tc_Web b);
  st_cron : tc_Cron a = tc_Cron b;
  st_exec : tc_Exec a = tc_Exec b;
  st_skills : tc_Skills a = tc_Skills b;
}.

(** Configurations that differ in keys and in the sections that are not written:
    the providers, the network of Tailscale and the proxy of Aperture. *)
Record same_public (a b : dhall_config) : Prop := {
  sp_defaults : cfg_Defaults (se_Models (dh_Settings a)) = cfg_Defaults (se_Models (dh_Settings b));
  sp_models : Forall2 same_entry (cfg_ModelList (se_Models (dh_Settings a))) (cfg_ModelList (se_Models (dh_Settings b)));
  sp_channels : se_Channels (dh_Settings a) = se_Channels (dh_Settings b);
  sp_gateway : se_Gateway (dh_Settings a) = se_Gateway (dh_Settings b);
  sp_tools : same_tools (se_Tools (dh_Settings a)) (se_Tools (dh_Settings b));
  sp_heartbeat : se_Heartbeat (dh_Settings a) = se_Heartbeat (dh_Settings b);
  sp_devices : se_Devices (dh_Settings a) = se_Devices (dh_Settings b);
  sp_rest : (dh_ImageModel a, dh_ImageModelFallbacks a, dh_List a, dh_Bindings a, dh_DMScope a, dh_IdentityLinks a)
          = (dh_ImageModel b, dh_ImageModelFallbacks b, dh_List b, dh_Bindings b, dh_DMScope b, dh_IdentityLinks b);
}.

Lemma same_entry_text indent a b : same_entry a b → renderModelConfig indent a = renderModelConfig indent b.
Proof.
  intros [Hn Hm Hb Hk Ha Hc Hw]. unfold renderModelConfig. by rewrite Hn, Hm, Hb, Ha, Hc, Hw, Hk.
Qed.

Lemma same_entries_text indent a b :
  Forall2 same_entry a b → renderModelList indent a = renderModelList indent b.
Proof.
  intros H. unfold renderModelList.
  assert ((λ mc, renderModelConfig indent mc +:+ nl) <$> a = (λ mc, renderModelConfig indent mc +:+ nl) <$> b) as E.
  { induction H as [|x y a b Hxy _ IH]; [done|]. csimpl. by rewrite (same_entry_text indent x y Hxy), IH. }
  rewrite E. by destruct H.
Qed.

Lemma same_entries_warnings i a b : Forall2 same_entry a b → redaction_warnings i a = redaction_warnings i b.
Proof.
  intros H. revert i. induction H as [|x y a b [Hn _ _ Hk _ _ _] _ IH]; intros i; [done|].
  cbn [redaction_warnings]. by rewrite Hn, Hk, IH.
Qed.

Lemma same_tools_text indent a b : same_tools a b → renderTools indent a = renderTools indent b.
Proof. intros [Hd Hp Hc He Hs]. unfold renderTools. by rewrite Hd, Hp, Hc, He, Hs. Qed.

(** C35: what is written does not depend on the key of any model, nor on the keys of the
    searches and of the providers: configurations that differ only in the values of
    such keys, and in what is left out, are written as the same text with the same
    warnings. *)
Theorem dhall_hides_keys format_g json_Marshal a b :
  same_public a b → configToDhall format_g json_Marshal a = configToDhall format_g json_Marshal b.
Proof.
  intros [Hd Hm Hc Hg Ht Hh Hv Hr]. injection Hr as H1 H2 H3 H4 H5 H6.
  unfold configToDhall, renderConfig, renderAgents, renderSession.
  by rewrite (same_entries_text _ _ _ Hm), (same_entries_warnings _ _ _ Hm), (same_tools_text _ _ _ Ht),
    Hd, Hc, Hg, Hh, Hv, H1, H2, H3, H4, H5, H6.
Qed.

(** ** Concrete configurations *)
Definition dhall_of (s : Settings) : dhall_config := mk_dhall_config s "" [] [] [] "" [].
Definition keyed_model (key base auth : string) : ModelConfig :=
  mk_ModelConfig "m" "openai/m" base key "" auth "" "" 0 "".
Definition with_models (ms : list ModelConfig) : Settings :=
  mk_Settings (with_ModelList DefaultConfig ms) default_channels (se_Gateway DefaultSettings) default_tools
    (se_Heartbeat DefaultSettings) (se_Devices DefaultSettings) (se_Tailscale DefaultSettings)
    (se_Aperture DefaultSettings).
Definition no_format (_ : Q) : string := "".
Definition no_marshal (_ : Routing.AgentBinding) : result string string := Ok "{}".

Lemma dhall_hides_keys_witness :
  configToDhall no_format no_marshal (dhall_of (with_models [keyed_model "sk-1" "" ""]))
  = configToDhall no_format no_marshal (dhall_of (with_models [keyed_model "sk-2" "" ""])).
Proof.
  apply dhall_hides_keys. constructor; try reflexivity; [|constructor; reflexivity].
  constructor; [constructor; reflexivity|constructor].
Defined.

(** A text without quotes, backslashes and control characters is written as it is. *)
Definition plain_char (c : ascii) : bool :=
  Nat.leb 32 (byte c) && negb (Nat.eqb (byte c) 127) && negb (bool_decide (c = dquote ∨ c = backslash)).

Lemma dhallText_plain s :
  Forall (λ c, plain_char c = true) (chars s) → dhallText s = String dquote s +:+ String dquote "".
Proof.
  intros H. unfold dhallText, quoted. apply (inj chars). rewrite chars_implode, chars_app. cbn [chars app].
  do 2 f_equal.
  assert (chars s ≫= escape_char = chars s ∧ chars s ≫= quote_char = chars s) as [-> ->]; [|done].
  induction H as [|c l Hc _ [IH1 IH2]]; [done|]. rewrite !bind_cons, IH1, IH2.
  unfold plain_char in Hc. apply andb_true_iff in Hc as [Hc Hq]. apply negb_true_iff in Hq.
  unfold escape_char, quote_char. by rewrite Hq, Hc.
Qed.

(** Finding: quotes and backslashes are escaped twice, once by hand and once by the
    format of the text, so a reader gets a backslash back in front of each. *)
Lemma quote_escaped_twice :
  dhallText (String dquote "") =
  implode [dquote; backslash; backslash; backslash; dquote; dquote].
Proof. reflexivity. Qed.

(** Finding: the key of a model with an account is written as the text of the
    expression that would read the environment, not as the expression. *)
Lemma redacted_key_is_a_text :
  contains (renderModelConfig "" (keyed_model "sk-1" "" "oauth"))
    (", api_key{- -} = " +:+ String dquote ("env:TINYCLAW_API_KEY as Text" +:+ String dquote "")) = true ∧
  contains (renderModelConfig "" (keyed_model "sk-1" "" "")) "(env:TINYCLAW_API_KEY as Text)" = true.
Proof. split; vm_compute; reflexivity. Qed.

(** Finding: the tokens and secrets of channels are written in full, and there is no
    warning for them. *)
Definition with_token : Settings :=
  mk_Settings (with_ModelList DefaultConfig [])
    (mk_ChannelsConfig (ch_WhatsApp default_channels) (mk_TelegramConfig true "12345:secret" "" [])
       (ch_Feishu default_channels) (ch_Discord default_channels) (ch_MaixCam default_channels)
       (ch_QQ default_channels) (ch_DingTalk default_channels) (ch_Slack default_channels)
       (ch_LINE default_channels) (ch_OneBot default_channels) (ch_WeCom default_channels)
       (ch_WeComApp default_channels) (ch_XMPP default_channels))
    (se_Gateway DefaultSettings) default_tools (se_Heartbeat DefaultSettings) (se_Devices DefaultSettings)
    (se_Tailscale DefaultSettings) (se_Aperture DefaultSettings).
Lemma channel_tokens_written :
  let '(text, warnings) := configToDhall no_format no_marshal (dhall_of with_token) in
  contains text "12345:secret" = true ∧ warnings = [].
Proof. vm_compute. done. Qed.

(** Finding: bindings are written as comments inside a list without a type, so the
    routes are lost and the text is not Dhall. *)
Lemma bindings_are_comments b bs :
  renderBindings no_marshal (b :: bs) =
  "[" +:+ nl +:+ join nl (replicate (S (length bs)) "-- TODO: convert binding: {}") +:+ nl +:+ "    ]".
Proof.
  unfold renderBindings.
  assert (∀ parts l, render_bindings no_marshal parts l =
    "[" +:+ nl +:+ join nl (parts ++ replicate (length l) "-- TODO: convert binding: {}") +:+ nl +:+ "    ]") as H.
  { intros parts l. revert parts. induction l as [|x l IH]; intros parts; cbn [render_bindings].
    - by rewrite app_nil_r.
    - change (render_binding no_marshal x) with (@Ok string string "-- TODO: convert binding: {}"). cbv iota.
      by rewrite IH, <-app_assoc. }
  by rewrite H.
Qed.
