(* ===== verification/Media.v ===== *)
(** * Media files (pkg/utils/media.go, pkg/voice/transcriber.go)

    Channels put what users send into files of a temporary directory, under names
    made from those of the platform, and may have voice messages transcribed.
    The files are a map from paths to contents. *)
From stdpp Require Import base gmap strings list pretty.
From Stdlib Require Import Ascii ZArith Lia.
From S2P Require Import Prelude GoStrings ProviderTypes Encoding Paths.
#[local] Open Scope go_scope.
#[local] Open Scope nat_scope.

Abbreviation files := (gmap string string) (only parsing).

Definition audioExtensions : list string := [".mp3"; ".wav"; ".ogg"; ".m4a"; ".flac"; ".aac"; ".wma"].
Definition audioTypes : list string := ["audio/"; "application/ogg"; "application/x-ogg"].

Definition IsAudioFile (filename contentType : string) : bool :=
  existsb (has_suffix (to_lower filename)) audioExtensions
  || existsb (has_prefix (to_lower contentType)) audioTypes.

(** [filepath.Base]. *)
Definition Base (p : string) : string :=
  if bool_decide (p = "") then "."
  else
    match drop_while (λ c, bool_decide (c = slash)) (reverse (chars p)) with
    | [] => "/"
    | l => implode (default [] (last (split_l slash (reverse l))))
    end.

Definition SanitizeFilename (filename : string) : string :=
  let base := Base filename in
  let base := ReplaceAll base ".." "" in
  let base := ReplaceAll base "/" "_" in
  ReplaceAll base "\" "_".

(** What a download meets: no answer, or a status, the file that is made or not, and
    the body, [None] when it breaks off. *)
Record fetched := mk_fetched {
  ft_status : Z;
  ft_create : bool;
  ft_body : option string;
}.

Definition media_dir (tmp : string) : string := Join tmp "tinyclaw_media".

(** [id] is a fresh UUID, [answer] what the request of the URL gives. *)
Definition DownloadFile (tmp : string) (mkdir_ok : bool) (id filename : string) (answer : option fetched)
    (fs : files) : string * files :=
  if negb mkdir_ok then ("", fs)
  else
    let localPath := Join (media_dir tmp) (str_take 8 id +:+ "_" +:+ SanitizeFilename filename) in
    match answer with
    | None => ("", fs)
    | Some r =>
        if negb (ft_status r =? 200)%Z then ("", fs)
        else if negb (ft_create r) then ("", fs)
        else
          match ft_body r with
          | None => ("", delete localPath fs)
          | Some body => (localPath, <[localPath := body]> fs)
          end
    end.

(** ** Transcription *)
Record GroqTranscriber := mk_GroqTranscriber {
  gt_apiKey : string;
  gt_apiBase : string;
}.

Definition NewGroqTranscriber (apiKey : string) : GroqTranscriber :=
  mk_GroqTranscriber apiKey "https://api.groq.com/openai/v1".

Definition IsAvailable_transcriber (t : GroqTranscriber) : bool := negb (bool_decide (gt_apiKey t = "")).

(** [Post url key fields name content] is the answer to the form with the fields and
    the file; [text_of_json] decodes it. *)
Definition Transcribe
    (Post : string → string → list (string * string) → string → string → result string (Z * string))
    (text_of_json : string → result string string) (fs : files) (t : GroqTranscriber)
    (audioFilePath : string) : result string string :=
  match fs !! audioFilePath with
  | None => Err "failed to open audio file"
  | Some content =>
      match Post (gt_apiBase t +:+ "/audio/transcriptions") (gt_apiKey t)
              [("model", "whisper-large-v3"); ("response_format", "json")] (Base audioFilePath) content with
      | Err e => Err ("failed to send request: " +:+ e)
      | Ok (status, body) =>
          if negb (status =? 200)%Z
          then Err ("API error (status " +:+ pretty status +:+ "): " +:+ body)
          else
            match text_of_json body with
            | Err e => Err ("failed to unmarshal response: " +:+ e)
            | Ok text => Ok text
            end
      end
  end.

(** Removing files at the end of a handler. *)
Definition remove_files (l : list string) (fs : files) : files := foldr delete fs l.

(** ** Downloads stay in the directory *)
Lemma replace_one_free c r l :
  c ∉ r → c ∉ replace_go [c] r 0 l.
Proof.
  intros Hr. induction l as [|x l IH]; cbn [replace_go]; [set_solver|].
  destruct (has_prefix_l [c] (x :: l)) eqn:E.
  - cbn [length]. change (1 - 1) with 0. rewrite elem_of_app. tauto.
  - intros [<-|H]%elem_of_cons; [|done]. cbn in E. by rewrite bool_decide_eq_true_2 in E.
Qed.

Lemma replace_go_elem old new k l x : x ∈ replace_go old new k l → x ∈ new ∨ x ∈ l.
Proof.
  revert k. induction l as [|c l IH]; intros k; cbn [replace_go]; [set_solver|].
  destruct k as [|k].
  - destruct (has_prefix_l old (c :: l)); [rewrite elem_of_app|rewrite elem_of_cons]; intros [H|H].
    + by left.
    + apply IH in H. set_solver.
    + subst. set_solver.
    + apply IH in H. set_solver.
  - intros H. apply IH in H. set_solver.
Qed.

(** A sanitized name has no separator. *)
Lemma sanitized_no_slash filename : slash ∉ chars (SanitizeFilename filename).
Proof.
  unfold SanitizeFilename, ReplaceAll. rewrite !chars_implode. intros [H|H]%replace_go_elem.
  - revert H. refine (bool_decide_unpack (¬ _) _). by vm_compute.
  - revert H. apply (replace_one_free slash). refine (bool_decide_unpack (¬ _) _). by vm_compute.
Qed.

Definition file_name (id filename : string) : string := str_take 8 id +:+ "_" +:+ SanitizeFilename filename.

Lemma file_name_ordinary id filename : slash ∉ chars id → ordinary (chars (file_name id filename)).
Proof.
  intros Hid. unfold file_name, str_take. rewrite !chars_app, chars_implode.
  assert ("_"%char ∈ take 8 (chars id) ++ chars "_" ++ chars (SanitizeFilename filename)) as Hu by set_solver.
  unfold ordinary. split_and!.
  - intros E. rewrite E in Hu. set_solver.
  - intros E. rewrite E in Hu. revert Hu. refine (bool_decide_unpack (¬ _) _). by vm_compute.
  - intros E. rewrite E in Hu. revert Hu. refine (bool_decide_unpack (¬ _) _). by vm_compute.
  - rewrite !elem_of_app. intros [H|[H|H]].
    + apply Hid. rewrite <-(take_drop 8 (chars id)). set_solver.
    + revert H. refine (bool_decide_unpack (¬ _) _). by vm_compute.
    + by apply sanitized_no_slash in H.
Qed.

(** Whatever name the platform gives a file, the file is made directly in the
    directory of media; nothing else is changed. *)
Lemma download_in_media_dir tmp ok id filename answer fs path fs' :
  DownloadFile tmp ok id filename answer fs = (path, fs') →
  tmp ≠ "" → slash ∉ chars id →
  let p := Join (media_dir tmp) (file_name id filename) in
  norm (chars p) = norm (chars (media_dir tmp)) ++ [chars (file_name id filename)] ∧
  (∀ q, q ≠ p → fs' !! q = fs !! q) ∧
  (path = "" ∨ path = p ∧ is_Some (fs' !! p)).
Proof.
  intros H Htmp Hid p. split.
  - pose proof (file_name_ordinary id filename Hid) as Ho.
    assert (media_dir tmp ≠ "") as Hm.
    { unfold media_dir, Join. rewrite bool_decide_eq_false_2 by done. intros E.
      apply (f_equal (λ s, norm (chars s))) in E. unfold Clean in E. rewrite chars_implode, norm_Clean in E.
      rewrite !chars_app in E.
      change (chars "/" ++ chars "tinyclaw_media") with (slash :: chars "tinyclaw_media") in E.
      rewrite norm_join in E by (vm_compute; reflexivity).
      apply (f_equal length) in E. rewrite length_app in E.
      change (length (norm (chars "tinyclaw_media"))) with 1 in E. change (length (norm (chars ""))) with 0 in E. lia. }
    subst p. unfold Join. rewrite bool_decide_eq_false_2 by done. unfold Clean. rewrite chars_implode, norm_Clean.
    rewrite !chars_app. change (chars "/" ++ ?x) with (slash :: x).
    set (n := chars (file_name id filename)) in *.
    assert (norm n = [n]) as Hn.
    { unfold norm. rewrite split_l_free by apply Ho. rewrite clean_go_ordinary by by constructor. done. }
    assert (IsAbs_l n = false) as Habs.
    { unfold IsAbs_l. apply bool_decide_eq_false. destruct Ho as (_ & _ & _ & Ho). destruct n as [|c n]; [done|].
      intros [= ->]. set_solver. }
    rewrite norm_join_rel; [|done|rewrite Hn; intros [= E]; by destruct Ho as (_ & _ & ? & _)].
    rewrite Hn. f_equal. unfold norm. f_equal. unfold IsAbs_l.
    destruct (chars (media_dir tmp)) eqn:E; [|done]. by apply chars_nil_iff in E.
  - unfold DownloadFile in H. destruct ok; cbn [negb] in H; [|simplify_eq; tauto].
    fold (file_name id filename) in H. fold p in H.
    destruct answer as [[status create body]|]; [|simplify_eq; tauto]. cbn in H.
    destruct (status =? 200)%Z; cbn [negb] in H; [|simplify_eq; tauto].
    destruct create; cbn [negb] in H; [|simplify_eq; tauto].
    destruct body as [body|]; simplify_eq; split.
    + intros q Hq. by rewrite lookup_insert_ne.
    + right. by rewrite lookup_insert_eq.
    + intros q Hq. by rewrite lookup_delete_ne.
    + by left.
Qed.

Lemma remove_files_lookup l fs p : remove_files l fs !! p = if decide (p ∈ l) then None else fs !! p.
Proof.
  induction l as [|q l IH]; cbn [remove_files foldr]; [by rewrite decide_False by set_solver|].
  fold (remove_files l fs). destruct (decide (p = q)) as [->|Hne].
  - rewrite lookup_delete_eq. by rewrite decide_True by set_solver.
  - rewrite lookup_delete_ne by done. rewrite IH. apply decide_ext. set_solver.
Qed.

(** Names with separators and dots of the other platforms. *)
Example sanitized_names :
  SanitizeFilename "../../etc/passwd" = "passwd" ∧ SanitizeFilename "/" = "_" ∧
  SanitizeFilename "a\..\b.txt" = "a__b.txt" ∧ SanitizeFilename "..." = "." ∧
  Base "dir/sub/" = "sub" ∧ Base "" = ".".
Proof. split_and!; vm_compute; reflexivity. Qed.

Lemma DownloadFile_files tmp ok id filename answer fs path fs' p x :
  DownloadFile tmp ok id filename answer fs = (path, fs') → fs' !! p = Some x →
  (path = p ∧ path ≠ "") ∨ path = "" ∨ fs !! p = Some x.
Proof.
  unfold DownloadFile. destruct ok; cbn [negb]; [|intros; simplify_eq; tauto].
  destruct answer as [[status create body]|]; cbn; [|intros; simplify_eq; tauto].
  destruct (status =? 200)%Z; cbn [negb]; [|intros; simplify_eq; tauto].
  destruct create; cbn [negb]; [|intros; simplify_eq; tauto].
  destruct body as [body|]; [|intros; simplify_eq; tauto].
  intros [= <- <-]. set (q := Join _ _). intros H. destruct (decide (q = "")) as [->|Hq]; [tauto|].
  destruct (decide (p = q)) as [->|Hpq]; [by left|]. rewrite lookup_insert_ne in H by done. tauto.
Qed.

Lemma DownloadFile_failed tmp ok id filename answer fs fs' :
  DownloadFile tmp ok id filename answer fs = ("", fs') →
  Join (media_dir tmp) (str_take 8 id +:+ "_" +:+ SanitizeFilename filename) ≠ "" →
  ∀ p x, fs' !! p = Some x → fs !! p = Some x.
Proof.
  unfold DownloadFile. intros H Hne p x. destruct ok; cbn [negb] in H; [|by simplify_eq].
  destruct answer as [[status create body]|]; cbn in H; [|by simplify_eq].
  destruct (status =? 200)%Z; cbn [negb] in H; [|by simplify_eq].
  destruct create; cbn [negb] in H; [|by simplify_eq].
  destruct body as [body|]; simplify_eq. intros Hp. apply lookup_delete_Some in Hp. tauto.
Qed.

(** A joined path with a name in it is not empty. *)
Lemma Clean_ne s : Clean s ≠ "".
Proof.
  unfold Clean, Clean_l, render. intros H. apply (f_equal chars) in H. rewrite chars_implode in H.
  destruct (IsAbs_l (chars s)); [done|]. destruct (norm (chars s)) as [|p ps] eqn:E; [done|].
  pose proof (norm_cleaned (chars s)) as Hc. rewrite E in Hc. apply cleaned_free in Hc.
  apply Forall_cons in Hc as [[Hp _] _]. by apply (join_l_ne slash p ps) in Hp.
Qed.

Lemma Join_ne a b : b ≠ "" → Join a b ≠ "".
Proof. intros Hb. unfold Join. case_bool_decide; [rewrite bool_decide_eq_false_2 by done|]; apply Clean_ne. Qed.

(** What a download leaves: the file it names, or what was there. *)
Lemma DownloadFile_lookup tmp ok id filename answer fs path fs' p x :
  DownloadFile tmp ok id filename answer fs = (path, fs') → fs' !! p = Some x →
  (path = p ∧ path ≠ "") ∨ fs !! p = Some x.
Proof.
  intros Hd Hp. destruct (DownloadFile_files _ _ _ _ _ _ _ _ _ _ Hd Hp) as [?|[->|?]]; [by left| |by right].
  right. eapply DownloadFile_failed; [done| |done]. apply Join_ne. intros E. apply (f_equal chars) in E.
  rewrite !chars_app in E. by destruct (chars (str_take 8 id)).
Qed.
