(* ===== verification/SkillInstaller.v ===== *)
(** * Installing skills from a repository (pkg/skills/installer.go)

    The commands of the command line that fetch a skill into the workspace and remove
    one, on the tree of [FileTools]. *)
From stdpp Require Import base gmap strings list pretty.
From Stdlib Require Import Ascii ZArith Lia.
From S2P Require Import Prelude GoStrings Encoding Paths FileTools HostFiles Media.
#[local] Open Scope nat_scope.

Record AvailableSkill := mk_AvailableSkill {
  as_Name : string;
  as_Repository : string;
  as_Description : string;
  as_Author : string;
  as_Tags : list string;
}.

(** The answer to a request: an error, or a status and the body, which may break off. *)
Abbreviation answer := (result string (Z * result string string)) (only parsing).

Section Installer.
Context (cwd : list comp) (workspace : string).
Let v : view := host_view cwd.

(** What is wrong with an answer, or its body. *)
Definition fetched_body (what : string) (a : answer) : result string string :=
  match a with
  | Err e => Err ("failed to fetch " +:+ what +:+ ": " +:+ e)
  | Ok (status, body) =>
      if negb (bool_decide (status = 200%Z)) then Err ("failed to fetch " +:+ what +:+ ": HTTP " +:+ pretty status)
      else match body with Err e => Err ("failed to read response: " +:+ e) | Ok b => Ok b end
  end.

Definition skill_dir (name : string) : string := Join (Join workspace "skills") name.

(** [get url] is the answer of the server. *)
Definition InstallFromGitHub (get : string → answer) (repo : string) (fs : fsys) : option string * fsys :=
  let skillDir := skill_dir (Base repo) in
  if sys_Stat fs v skillDir then (Some ("skill '" +:+ Base repo +:+ "' already exists"), fs)
  else
    match fetched_body "skill" (get ("https://raw.githubusercontent.com/" +:+ repo +:+ "/main/SKILL.md")) with
    | Err e => (Some e, fs)
    | Ok body =>
        match sys_MkdirAll fs v skillDir with
        | (fs, Some e) => (Some ("failed to create skill directory: " +:+ errno_text e), fs)
        | (fs, None) =>
            match sys_WriteFile fs v (Join skillDir "SKILL.md") body with
            | (fs, Some e) => (Some ("failed to write skill file: " +:+ errno_text e), fs)
            | (fs, None) => (None, fs)
            end
        end
    end.

(** [os.IsNotExist] of [os.Stat]. *)
Definition not_there (fs : fsys) (path : string) : bool :=
  match view_path true fs v path with
  | Ok p => negb (bool_decide (is_Some (entry_at fs p)))
  | Err e => bool_decide (e = ENOENT)
  end.

Definition Uninstall (skillName : string) (fs : fsys) : option string * fsys :=
  let skillDir := skill_dir skillName in
  if not_there fs skillDir then (Some ("skill '" +:+ skillName +:+ "' not found"), fs)
  else
    match sys_RemoveAll fs v skillDir with
    | (fs, Some e) => (Some ("failed to remove skill: " +:+ errno_text e), fs)
    | (fs, None) => (None, fs)
    end.

(** [decode] is [json.Unmarshal]. *)
Definition ListAvailableSkills (decode : string → result string (list AvailableSkill)) (get : string → answer) :
    result string (list AvailableSkill) :=
  match fetched_body "skills list" (get "https://raw.githubusercontent.com/tinyland-inc/tinyclaw-skills/main/skills.json") with
  | Err e => Err e
  | Ok body => match decode body with Err e => Err ("failed to parse skills list: " +:+ e) | Ok l => Ok l end
  end.

(** ** What is changed *)
Lemma skill_dir_target name :
  IsAbs workspace = true → ordinary (chars name) →
  let T := norm (chars (Join workspace "skills")) ++ [chars name] in target T (skill_dir name).
Proof.
  intros Hw Ho. assert (clean_abs (Join workspace "skills")) as Hs by by apply Join_abs.
  destruct (norm_Join_name (Join workspace "skills") name (proj1 Hs) Ho) as [Ht HT].
  split; [exact Ht|]. unfold skill_dir. by rewrite HT.
Qed.

(** Installing a repository with an ordinary name, and removing a skill of an ordinary
    name, change only the directory of the skill, when no link lies on the way to it. *)
Lemma installer_confined get repo name fs :
  IsAbs workspace = true → ordinary (chars (Base repo)) → ordinary (chars name) →
  let T n := norm (chars (Join workspace "skills")) ++ [chars n] in
  step_below (T (Base repo)) fs (InstallFromGitHub get repo fs).2 ∧ step_below (T name) fs (Uninstall name fs).2.
Proof.
  intros Hw Hr Hn T. pose proof (skill_dir_target _ Hw Hr) as Hrt. pose proof (skill_dir_target _ Hw Hn) as Hnt.
  fold (T (Base repo)) in Hrt. fold (T name) in Hnt. split.
  - unfold InstallFromGitHub. destruct (sys_Stat _ _ _); [done|]. destruct (fetched_body _ _) as [body|]; [|done].
    assert (step_below (T (Base repo)) fs (sys_MkdirAll fs v (skill_dir (Base repo))).1) as Hm
      by (apply sys_MkdirAll_below; [apply Hrt|left; apply Hrt]).
    destruct (sys_MkdirAll _ _ _) as [fs1 [e|]]; [done|]. cbn in Hm.
    assert (step_below (T (Base repo)) fs1 (sys_WriteFile fs1 v (Join (skill_dir (Base repo)) "SKILL.md") body).1) as Hf.
    { apply sys_WriteFile_below. destruct Hrt as [Hc Hp]. destruct (norm_Join_name (skill_dir (Base repo)) "SKILL.md" (proj1 Hc))
        as [Hj HJ]; [by refine (bool_decide_unpack _ _)|]. split; [done|]. rewrite HJ. by apply prefix_app_r. }
    destruct (sys_WriteFile _ _ _ _) as [fs2 [e|]]; by etrans.
  - unfold Uninstall. destruct (not_there _ _); [done|].
    assert (step_below (T name) fs (sys_RemoveAll fs v (skill_dir name)).1) as Hm by by apply sys_RemoveAll_below.
    by destruct (sys_RemoveAll _ _ _) as [fs1 [e|]].
Qed.
End Installer.

(** ** Where it departs from what it means to do *)
Definition skills_tree : fsys :=
  {[ [chars "w"] := EDir; [chars "w"; chars "MEMORY.md"] := EFile "x"; [chars "w"; chars "skills"] := EDir;
     [chars "w"; chars "skills"; chars "gh"] := EDir;
     [chars "w"; chars "skills"; chars "gh"; chars "SKILL.md"] := EFile "x" ]}.

(** Removing a skill without a name removes all of them, and removing one by a path with
    dots removes the workspace. *)
Example uninstall_not_confined :
  (let '(e, fs) := Uninstall [] "/w" "" skills_tree in e = None ∧ fs !! [chars "w"; chars "skills"; chars "gh"; chars "SKILL.md"] = None) ∧
  (let '(e, fs) := Uninstall [] "/w" ".." skills_tree in e = None ∧ fs !! [chars "w"; chars "MEMORY.md"] = None).
Proof. split; vm_compute; split; reflexivity. Qed.

(** A file that cannot be written leaves the directory, and the skill cannot be installed
    again: it already exists. *)
Example failed_install_blocks :
  let get (_ : string) : result string (Z * result string string) := Ok (200%Z, Ok "text") in
  let fs : fsys := {[ [chars "w"] := EDir; [chars "w"; chars "skills"] := EDir;
                      [chars "w"; chars "skills"; chars "gh"] := EDir ]} in
  (InstallFromGitHub [] "/w" get "owner/gh" fs).1 = Some "skill 'gh' already exists".
Proof. by vm_compute. Qed.
