(* ===== verification/SkillCommands.v ===== *)
(** * Commands for skills and the first start (cmd/tinyclaw/internal/skills, onboard)

    Installing from a registry, copying the skills that come with the program, listing
    them, and the files that the first start writes, on the tree of [FileTools]. *)
From stdpp Require Import base gmap strings list pretty.
From Stdlib Require Import Ascii ZArith Lia.
From S2P Require Import Prelude GoStrings ProviderTypes Paths FileTools HostFiles Skills SkillRegistry SkillTools MigrationFiles SkillInstaller.
#[local] Open Scope nat_scope.

Section Commands.
Context (cwd : list comp).
Let v : view := host_view cwd.

(** ** Installing (install.go, helpers.go) *)
Inductive install_request := FromGitHub (repo : string) | FromRegistry (name slug : string).

(** [registry] is the value of the flag, empty without it. *)
Definition install_command (registry : string) (args : list string) : result string install_request :=
  if negb (bool_decide (registry = "")) then
    match args with
    | [name; slug] => Ok (FromRegistry name slug)
    | _ => Err "when --registry is set, exactly 2 arguments are required: <name> <slug>"
    end
  else
    match args with
    | [repo] => Ok (FromGitHub repo)
    | _ => Err "exactly 1 argument is required: <github>"
    end.

Definition skillsInstallFromRegistry (rm : RegistryManager) (workspace registryName slug : string) (fs : fsys) :
    option string * fsys :=
  match ValidateSkillIdentifier registryName, ValidateSkillIdentifier slug with
  | Some e, _ => (Some ("✗  invalid registry name: " +:+ e), fs)
  | None, Some e => (Some ("✗  invalid slug: " +:+ e), fs)
  | None, None =>
      match GetRegistry registryName rm with
      | None => (Some ("✗  registry '" +:+ registryName +:+ "' not found or not enabled. check your config.json"), fs)
      | Some registry =>
          let targetDir := Join (Join workspace "skills") slug in
          if sys_Stat fs v targetDir
          then (Some ("✗ skill '" +:+ slug +:+ "' already installed at " +:+ targetDir), fs)
          else
            match sys_MkdirAll fs v (Join workspace "skills") with
            | (fs, Some e) => (Some ("failed to create skills directory: " +:+ errno_text e), fs)
            | (fs, None) =>
                match r_DownloadAndInstall registry slug "" targetDir fs with
                | (Err e, fs) => (Some ("✗ failed to install skill: " +:+ e), (sys_RemoveAll fs v targetDir).1)
                | (Ok r, fs) =>
                    if ir_IsMalwareBlocked r
                    then (Some ("✗ Skill '" +:+ slug +:+ "' is flagged as malicious and cannot be installed"),
                          (sys_RemoveAll fs v targetDir).1)
                    else (None, fs)
                end
            end
      end
  end.

(** ** Copying directories *)

(** [copyDirectory] on what the walk of the source visits; the trees are apart, so that
    copying does not change the walk. *)
Fixpoint copy_visited (src dst : string) (l : list (string * bool)) (fs : fsys) : option string * fsys :=
  match l with
  | [] => (None, fs)
  | (path, d) :: l =>
      match Rel src path with
      | None => (Some ("Rel: can't make " +:+ path +:+ " relative to " +:+ src), fs)
      | Some relPath =>
          let dstPath := Join dst relPath in
          let '(fs, e) := if d : bool then sys_MkdirAll fs v dstPath else copyFile cwd fs path dstPath in
          match e with
          | Some e => (Some (errno_text e), fs)
          | None => copy_visited src dst l fs
          end
      end
  end.

Definition copyDirectory (src dst : string) (fs : fsys) : option string * fsys :=
  match Walk cwd fs src with
  | Err e => (Some (errno_text e), fs)
  | Ok visited => copy_visited src dst visited fs
  end.

Definition skillsToInstall : list string := ["weather"; "news"; "stock"; "calculator"].

(** What is said of a skill, if anything. *)
Definition install_builtin (workspaceSkillsDir skillName : string) (fs : fsys) : option string * fsys :=
  let builtinPath := Join "./tinyclaw/skills" skillName in
  let workspacePath := Join workspaceSkillsDir skillName in
  match Stat cwd fs builtinPath with
  | Some e => (Some ("⊘ Builtin skill '" +:+ skillName +:+ "' not found: " +:+ errno_text e), fs)
  | None =>
      match sys_MkdirAll fs v workspacePath with
      | (fs, Some e) => (Some ("✗ Failed to create directory for " +:+ skillName +:+ ": " +:+ errno_text e), fs)
      | (fs, None) =>
          let '(e, fs) := copyDirectory builtinPath workspacePath fs in
          ((λ e, "✗ Failed to copy " +:+ skillName +:+ ": " +:+ e) <$> e, fs)
      end
  end.

Definition skillsInstallBuiltinCmd (workspace : string) (fs : fsys) : list string * fsys :=
  let '(said, fs) :=
    foldl (λ '(said, fs) skillName,
             let '(e, fs) := install_builtin (Join workspace "skills") skillName fs in (said ++ option_list e, fs))
      ([], fs) skillsToInstall in
  (said ++ ["✓ All builtin skills installed!"], fs).

(** ** Listing *)
Definition newline : string := String newline_char "".

(** The slice between the break of the first line and the next break from there, which
    is itself. *)
Definition builtin_description (content : option string) : string :=
  match content with
  | None => "No description"
  | Some content =>
      match index content newline with
      | Some (S n) =>
          let idx := S n in
          let from_break := implode (drop idx (chars content)) in
          if contains (implode (take idx (chars content))) "description:" then
            match index from_break newline with
            | Some (S m) => trim_space (implode (drop (idx + S m) (take (idx + S m) (chars content))))
            | _ => "No description"
            end
          else "No description"
      | _ => "No description"
      end
  end.

Definition skillsListBuiltinCmd (workspacePath : string) (fs : fsys) : result string (list (string * string)) :=
  let builtinSkillsDir := Join (Join (Dir workspacePath) "tinyclaw") "skills" in
  match sys_ReadDir fs v builtinSkillsDir with
  | Err e => Err ("Error reading builtin skills: " +:+ errno_text e)
  | Ok entries =>
      Ok (omap (λ '(name, d),
            if d : bool
            then Some (name, builtin_description
                               (match sys_ReadFile fs v (skill_file builtinSkillsDir name) with Ok data => Some data | Err _ => None end))
            else None) entries)
  end.

(** ** The first start (onboard/helpers.go) *)

(** [embedded]: the files that the program carries, by their paths below the workspace;
    the error of the first that fails ends it. *)
Fixpoint write_templates (targetDir : string) (embedded : list (string * string)) (fs : fsys) : option string * fsys :=
  match embedded with
  | [] => (None, fs)
  | (path, data) :: embedded =>
      let targetPath := Join targetDir path in
      match sys_MkdirAll fs v (Dir targetPath) with
      | (fs, Some e) => (Some ("failed to create directory " +:+ Dir targetPath +:+ ": " +:+ errno_text e), fs)
      | (fs, None) =>
          match sys_WriteFile fs v targetPath data with
          | (fs, Some e) => (Some ("failed to write file " +:+ targetPath +:+ ": " +:+ errno_text e), fs)
          | (fs, None) => write_templates targetDir embedded fs
          end
      end
  end.

Definition copyEmbeddedToTarget (targetDir : string) (embedded : list (string * string)) (fs : fsys) : option string * fsys :=
  match sys_MkdirAll fs v targetDir with
  | (fs, Some e) => (Some ("failed to create target directory: " +:+ errno_text e), fs)
  | (fs, None) => write_templates targetDir embedded fs
  end.

Inductive onboarding := Aborted | SaveFailed (e : string) | Ready.

(** [saved] is the text of the default configuration, [answer] what the user types when
    there is a configuration; an error of the templates is only printed. *)
Definition onboard (configPath workspace saved answer : string) (embedded : list (string * string)) (fs : fsys) :
    onboarding * fsys :=
  if sys_Stat fs v configPath && negb (bool_decide (answer = "y")) then (Aborted, fs)
  else
    match sys_MkdirAll fs v (Dir configPath) with
    | (fs, Some e) => (SaveFailed (errno_text e), fs)
    | (fs, None) =>
        match sys_WriteFile fs v configPath saved with
        | (fs, Some e) => (SaveFailed (errno_text e), fs)
        | (fs, None) => (Ready, (copyEmbeddedToTarget workspace embedded fs).2)
        end
    end.

(** ** Theorems *)

(** Installing from a registry that keeps the promise of its interface changes the tree
    only below the directory of the skill; names that are not valid change nothing. *)
Lemma registry_command_confined rm workspace registryName slug fs :
  IsAbs workspace = true → Forall RegistryOk (rm_registries rm) → slug ≠ "." →
  let T := norm (chars (Join workspace "skills")) ++ [chars slug] in
  step_below T fs (skillsInstallFromRegistry rm workspace registryName slug fs).2 ∧
  (ValidateSkillIdentifier slug ≠ None → (skillsInstallFromRegistry rm workspace registryName slug fs).2 = fs).
Proof.
  intros Hw Hrm Hdot T. unfold skillsInstallFromRegistry.
  destruct (ValidateSkillIdentifier registryName); [done|]. destruct (ValidateSkillIdentifier slug) eqn:Ev; [done|].
  split; [|done]. assert (clean_abs (Join workspace "skills")) as Hs by by apply Join_abs.
  destruct (norm_Join_name (Join workspace "skills") slug (proj1 Hs) (slug_ordinary _ Ev Hdot)) as [Ht HT]. fold T in HT.
  assert (target T (Join (Join workspace "skills") slug)) as Htt by (split; [exact Ht|by rewrite HT]).
  destruct (GetRegistry registryName rm) as [registry|] eqn:Er; [|done].
  assert (RegistryOk registry) as Hr.
  { unfold GetRegistry in Er. apply find_first_Some in Er as (l1 & l2 & E & _). rewrite E in Hrm.
    apply Forall_app in Hrm as [_ Hrm]. by inversion Hrm. }
  destruct (sys_Stat _ _ _); [done|].
  assert (norm (chars (Join workspace "skills")) `prefix_of` T) as Hpre by by eexists.
  pose proof (sys_MkdirAll_below T cwd fs (Join workspace "skills") Hs (or_intror Hpre)) as H1.
  fold v in H1. destruct (sys_MkdirAll fs v _) as [fs1 [e|]]; [exact H1|]. etrans; [exact H1|].
  pose proof (Hr slug "" (Join (Join workspace "skills") slug) fs1 Ht) as H2. rewrite HT in H2.
  destruct (r_DownloadAndInstall _ _ _ _ _) as [[r|e] fs2]; (etrans; [exact H2|]); cbn [snd];
    [destruct (ir_IsMalwareBlocked r); [|done]|]; by apply sys_RemoveAll_below.
Qed.

Lemma copyFile_below T src dst fs : target T dst → step_below T fs (copyFile cwd fs src dst).1.
Proof.
  intros Ht. unfold copyFile. destruct (view_path _ _ _ _) as [p|]; [|done]. destruct (entry_at fs p); [|done].
  pose proof (sys_WriteFile_below T cwd fs dst "" Ht) as H1. destruct (sys_WriteFile _ _ dst "") as [fs1 [e2|]]; [exact H1|].
  etrans; [exact H1|]. destruct (entry_at fs1 p) as [[]|]; try done. by apply sys_WriteFile_below.
Qed.

(** Copying a directory of a plain tree changes it only below the destination. *)
Lemma copyDirectory_below src dst fs :
  plain fs → clean_abs src → norm (chars src) ≠ [] → clean_abs dst →
  step_below (norm (chars dst)) fs (copyDirectory src dst fs).2.
Proof.
  intros Hp Hs Hne Hd. unfold copyDirectory. destruct (Walk cwd fs src) as [visited|] eqn:Ew; [|done].
  assert (Forall (λ x : string * bool, clean_abs x.1 ∧ ∃ rest, norm (chars x.1) = norm (chars src) ++ rest) visited) as Hv
    by (apply Forall_forall; intros x Hx; by eapply Walk_visited).
  clear Ew Hp. revert fs. induction Hv as [|[path d] l [Hc [rest Er]] _ IH]; intros fs; cbn [copy_visited]; [done|].
  cbn [fst] in *. destruct (Rel_dest src path rest Hs Hc Er) as (r & -> & Hr).
  destruct (Hr dst (proj1 Hd)) as [Hj Ej].
  assert (target (norm (chars dst)) (Join dst r)) as Ht by (split; [exact Hj|rewrite Ej; by eexists]).
  assert (step_below (norm (chars dst)) fs
            (if d then sys_MkdirAll fs v (Join dst r) else copyFile cwd fs path (Join dst r)).1) as H1.
  { destruct d; [apply sys_MkdirAll_below; [done|left; apply Ht]|by apply copyFile_below]. }
  destruct (if d then _ else _) as [fs1 [e|]]; [exact H1|]. etrans; [exact H1|apply IH].
Qed.

(** ** Where the commands depart from what they mean to do *)

(** The example of the help is refused, and the value of the flag is never used. *)
Lemma registry_example_refused : is_ok (install_command "clawhub" ["github"]) = false.
Proof. done. Qed.
Lemma registry_flag_ignored registry registry' args :
  registry ≠ "" → registry' ≠ "" → install_command registry args = install_command registry' args.
Proof. intros. unfold install_command. by rewrite !bool_decide_eq_false_2. Qed.

(** The description of a skill that comes with the program is never shown: the slice it
    is taken from starts with the break that is looked for. *)
Lemma builtin_description_lost content : builtin_description content = "No description".
Proof.
  unfold builtin_description. destruct content as [content|]; [|done].
  destruct (index content newline) as [[|n]|] eqn:E; [done| |done].
  destruct (contains _ _); [|done].
  unfold index, newline in *. apply index_l_Some in E as (k & E & Hn). change (chars (String newline_char "")) with [newline_char] in *.
  assert (drop (S n) (chars content) = newline_char :: k) as ->.
  { rewrite E at 1. rewrite drop_app_length'; [done|]. rewrite length_take. lia. }
  rewrite chars_implode. cbn [index_l].
  assert (has_prefix_l [newline_char] (newline_char :: k) = true) as -> by (apply has_prefix_l_spec; by exists k). done.
Qed.
End Commands.

(** Without any of the skills the command says that all are installed. *)
Example all_installed_said :
  last (skillsInstallBuiltinCmd [chars "home"] "/w" {[ [chars "home"] := EDir; [chars "w"] := EDir ]}).1
  = Some "✓ All builtin skills installed!".
Proof. by vm_compute. Qed.

(** A first start over a workspace without a configuration overwrites the files of the
    workspace without asking. *)
Example onboard_overwrites :
  let fs : fsys := {[ [chars "h"] := EDir; [chars "h"; chars "w"] := EDir;
                      [chars "h"; chars "w"; chars "SOUL.md"] := EFile "mine" ]} in
  let '(r, fs) := onboard [] "/h/config.json" "/h/w" "{}" "" [("SOUL.md", "template")] fs in
  r = Ready ∧ fs !! [chars "h"; chars "w"; chars "SOUL.md"] = Some (EFile "template").
Proof. by vm_compute. Qed.
