(* ===== verification/Adapters.v ===== *)
(** * What the adapters of chat platforms share (pkg/channels)

    The files of a message that are downloaded and may be transcribed, and long
    replies that are sent in chunks. *)
From stdpp Require Import base gmap strings list pretty.
From Stdlib Require Import Ascii ZArith Lia.
From S2P Require Import Prelude GoStrings SplitMessage Media.
#[local] Open Scope nat_scope.

Definition nl_text : string := String newline_char "".

(** ** Files *)

(** The temporary directory, fresh identifiers, what URLs answer, and the service that
    transcribes. *)
Record media_env := mk_media_env {
  me_tmp : string;
  me_mkdir : bool;
  me_id : string → string;
  me_answer : string → option fetched;
  me_Post : string → string → list (string * string) → string → string → result string (Z * string);
  me_text : string → result string string;
}.

Definition download (E : media_env) (url filename : string) (fs : files) : string * files :=
  DownloadFile (me_tmp E) (me_mkdir E) (me_id E url) filename (me_answer E url) fs.

(** The transcription of a file, when there is a transcriber that is available. *)
Definition transcription (E : media_env) (t : option GroqTranscriber) (path : string) (fs : files) :
    option (result string string) :=
  match t with
  | Some t => if IsAvailable_transcriber t then Some (Transcribe (me_Post E) (me_text E) fs t path) else None
  | None => None
  end.

(** ** Chunks *)

(** Chunks are sent in order until one fails: the error, and what was tried. *)
Fixpoint send_chunks (send : string → option string) (chunks : list string) : option string * list string :=
  match chunks with
  | [] => (None, [])
  | chunk :: rest =>
      match send chunk with
      | Some e => (Some e, [chunk])
      | None => let '(e, tried) := send_chunks send rest in (e, chunk :: tried)
      end
  end.

(** How sending ends: the splitter may fail to return, and may panic. *)
Inductive sending :=
| Splitting
| SplitPanics
| Sent (e : option string) (tried : list string).

Definition send_split (fuel : nat) (maxLen : Z) (send : string → option string) (content : string) : sending :=
  match SplitMessage fuel content maxLen with
  | OutOfFuel => Splitting
  | Panicked => SplitPanics
  | Chunks messages => let '(e, tried) := send_chunks send (implode <$> messages) in Sent e tried
  end.

Lemma send_chunks_spec send chunks e tried :
  send_chunks send chunks = (e, tried) →
  tried `prefix_of` chunks ∧
  match e with
  | None => tried = chunks ∧ Forall (λ c, send c = None) tried
  | Some err => ∃ before c, tried = before ++ [c] ∧ Forall (λ c, send c = None) before ∧ send c = Some err
  end.
Proof.
  revert e tried. induction chunks as [|c chunks IH]; intros e tried; cbn [send_chunks].
  - intros [= <- <-]. by split.
  - destruct (send c) as [err|] eqn:Ec.
    + intros [= <- <-]. split; [by exists chunks|]. by exists [], c.
    + destruct (send_chunks send chunks) as [e' tried'] eqn:E. intros [= <- <-].
      destruct (IH _ _ eq_refl) as [Hp Hr]. split; [by apply prefix_cons|].
      destruct e' as [err|].
      * destruct Hr as (before & x & -> & Hb & Hx). exists (c :: before), x. split_and!; [done|by constructor|done].
      * destruct Hr as [-> Hf]. split; [done|by constructor].
Qed.

(** What is sent is within the limit of the platform, and sending never panics. *)
Lemma send_split_bounded fuel maxLen send content :
  (5 <= maxLen)%Z →
  match send_split fuel maxLen send content with
  | Splitting => True
  | SplitPanics => False
  | Sent _ tried => Forall (λ m, (zlen (chars m) <= maxLen)%Z) tried
  end.
Proof.
  intros Hm. unfold send_split. pose proof (split_bounded_chunks fuel content maxLen Hm) as H.
  destruct (SplitMessage fuel content maxLen) as [| |messages]; [done..|].
  destruct (send_chunks _ _) as [e tried] eqn:E. apply send_chunks_spec in E as [[rest Hp] _].
  assert (Forall (λ m, (zlen (chars m) <= maxLen)%Z) (implode <$> messages)) as Hf.
  { apply Forall_fmap. eapply Forall_impl; [exact H|]. intros m Hl. cbn. by rewrite chars_implode. }
  rewrite Hp in Hf. by apply Forall_app in Hf as [? _].
Qed.
