(* ===== verification/Slack.v ===== *)
(** * The Slack channel (pkg/channels/slack.go)

    Messages, mentions and commands of a workspace become inbound messages; a chat
    identifier names a channel and perhaps a thread, and replies go back there.  The
    message that is acknowledged is marked when its reply is sent. *)
From stdpp Require Import base gmap strings list pretty.
From Stdlib Require Import Ascii ZArith Lia.
From S2P Require Import Prelude GoStrings Encoding Bus Channels Media Settings Adapters.
#[local] Open Scope nat_scope.

(** ** Data *)
Record slackMessageRef := mk_slackMessageRef { mr_ChannelID : string; mr_Timestamp : string }.

Record SlackChannel := mk_SlackChannel {
  sc_base : BaseChannel;
  sc_botToken : string;
  sc_botUserID : string;
  sc_teamID : string;
  sc_transcriber : option GroqTranscriber;
  sc_pendingAcks : gmap string slackMessageRef;
}.

Record slack_file := mk_slack_file {
  sf_Name : string;
  sf_Mimetype : string;
  sf_URLPrivateDownload : string;
  sf_URLPrivate : string;
}.

(** The fields of the events of the platform that are read. *)
Record slack_message := mk_slack_message {
  sm_User : string;
  sm_BotID : string;
  sm_SubType : string;
  sm_Channel : string;
  sm_ThreadTimeStamp : string;
  sm_TimeStamp : string;
  sm_Text : string;
  sm_Files : list slack_file;
}.
Record slack_mention := mk_slack_mention {
  mn_User : string;
  mn_Channel : string;
  mn_ThreadTimeStamp : string;
  mn_TimeStamp : string;
  mn_Text : string;
}.
Record slack_command := mk_slack_command {
  cd_UserID : string;
  cd_ChannelID : string;
  cd_Text : string;
  cd_TriggerID : string;
}.
Inductive slack_event :=
| MessageEvent (ev : slack_message)
| AppMentionEvent (ev : slack_mention)
| SlashCommand (cmd : slack_command)
| OtherEvent.

(** Requests to the platform. *)
Inductive slack_call :=
| PostMessage (channel text thread : string)
| AddReaction (name channel timestamp : string).

Definition NewSlackChannel (cfg : SlackConfig) : result string SlackChannel :=
  if bool_decide (sl_BotToken cfg = "") || bool_decide (sl_AppToken cfg = "")
  then Err "slack bot_token and app_token are required"
  else Ok (mk_SlackChannel (NewBaseChannel "slack" (sl_AllowFrom cfg)) (sl_BotToken cfg) "" "" None ∅).

Definition with_base_slack (b : BaseChannel) (c : SlackChannel) : SlackChannel :=
  mk_SlackChannel b (sc_botToken c) (sc_botUserID c) (sc_teamID c) (sc_transcriber c) (sc_pendingAcks c).
Definition with_acks (m : gmap string slackMessageRef) (c : SlackChannel) : SlackChannel :=
  mk_SlackChannel (sc_base c) (sc_botToken c) (sc_botUserID c) (sc_teamID c) (sc_transcriber c) m.
Definition SetTranscriber_slack (t : GroqTranscriber) (c : SlackChannel) : SlackChannel :=
  mk_SlackChannel (sc_base c) (sc_botToken c) (sc_botUserID c) (sc_teamID c) (Some t) (sc_pendingAcks c).

(** [auth] is the answer of the platform: the users of the bot and of its team. *)
Definition Start_slack (auth : result string (string * string)) (c : SlackChannel) : option string * SlackChannel :=
  match auth with
  | Err e => (Some ("slack auth test failed: " +:+ e), c)
  | Ok (user, team) =>
      (None, mk_SlackChannel (setRunning true (sc_base c)) (sc_botToken c) user team (sc_transcriber c) (sc_pendingAcks c))
  end.
Definition Stop_slack (c : SlackChannel) : SlackChannel := with_base_slack (setRunning false (sc_base c)) c.

(** ** Chat identifiers *)
Definition parseSlackChatID (chatID : string) : string * string :=
  match cut chatID "/" with Some (channelID, threadTS) => (channelID, threadTS) | None => (chatID, "") end.
Definition thread_chat (channelID threadTS : string) : string := channelID +:+ "/" +:+ threadTS.

Definition stripBotMention (botUserID text : string) : string :=
  trim_space (ReplaceAll text ("<@" +:+ botUserID +:+ ">") "").

(** ** Sending *)
Definition Send_slack (post : slack_call → option string) (msg : OutboundMessage) (c : SlackChannel) :
    option string * SlackChannel * list slack_call :=
  if negb (bc_running (sc_base c)) then (Some "slack channel not running", c, [])
  else
    let '(channelID, threadTS) := parseSlackChatID (om_ChatID msg) in
    if bool_decide (channelID = "") then (Some ("invalid slack chat ID: " +:+ om_ChatID msg), c, [])
    else
      let call := PostMessage channelID (om_Content msg) threadTS in
      match post call with
      | Some e => (Some ("failed to send slack message: " +:+ e), c, [call])
      | None =>
          match sc_pendingAcks c !! om_ChatID msg with
          | Some ref =>
              (None, with_acks (delete (om_ChatID msg) (sc_pendingAcks c)) c,
               [call; AddReaction "white_check_mark" (mr_ChannelID ref) (mr_Timestamp ref)])
          | None => (None, c, [call])
          end
      end.

(** ** Receiving *)
Definition downloadSlackFile (E : media_env) (file : slack_file) (fs : files) : string * files :=
  let url := if bool_decide (sf_URLPrivateDownload file = "") then sf_URLPrivate file else sf_URLPrivateDownload file in
  if bool_decide (url = "") then ("", fs) else download E url (sf_Name file) fs.

(** What a file adds to the content. *)
Definition file_text (E : media_env) (c : SlackChannel) (file : slack_file) (path : string) (fs : files) : string :=
  match (if IsAudioFile (sf_Name file) (sf_Mimetype file) then transcription E (sc_transcriber c) path fs else None) with
  | Some (Err _) => nl_text +:+ "[audio: " +:+ sf_Name file +:+ " (transcription failed)]"
  | Some (Ok text) => nl_text +:+ "[voice transcription: " +:+ text +:+ "]"
  | None => nl_text +:+ "[file: " +:+ sf_Name file +:+ "]"
  end.

Fixpoint gather_files (E : media_env) (c : SlackChannel) (l : list slack_file) (content : string)
    (media : list string) (fs : files) : string * list string * files :=
  match l with
  | [] => (content, media, fs)
  | file :: l =>
      let '(path, fs) := downloadSlackFile E file fs in
      if bool_decide (path = "") then gather_files E c l content media fs
      else gather_files E c l (content +:+ file_text E c file path fs) (media ++ [path]) fs
  end.

(** The kind of peer, and its identifier. *)
Definition slack_peer (channelID senderID : string) : string * string :=
  if has_prefix channelID "D" then ("direct", senderID) else ("channel", channelID).

Definition slack_metadata (c : SlackChannel) (channelID threadTS messageTS senderID : string) : gmap string string :=
  let '(peerKind, peerID) := slack_peer channelID senderID in
  {[ "message_ts" := messageTS; "channel_id" := channelID; "thread_ts" := threadTS; "platform" := "slack";
     "peer_kind" := peerKind; "peer_id" := peerID; "team_id" := sc_teamID c ]}.

Record slack_handled := mk_slack_handled {
  sh_channel : SlackChannel;
  sh_files : files;
  sh_message : option InboundMessage;
  sh_calls : list slack_call;
}.

(** A message that is taken up is marked, and waits for its reply. *)
Definition take_up (chatID channelID messageTS : string) (c : SlackChannel) : SlackChannel :=
  with_acks (<[chatID := mk_slackMessageRef channelID messageTS]> (sc_pendingAcks c)) c.

Definition message_chat (ev : slack_message) : string :=
  if bool_decide (sm_ThreadTimeStamp ev = "") then sm_Channel ev
  else thread_chat (sm_Channel ev) (sm_ThreadTimeStamp ev).

(** Messages that are passed over: those of the bot, of bots, of no one, and changes of
    messages. *)
Definition ignored (c : SlackChannel) (ev : slack_message) : bool :=
  bool_decide (sm_User ev = sc_botUserID c) || bool_decide (sm_User ev = "")
  || negb (bool_decide (sm_BotID ev = ""))
  || (negb (bool_decide (sm_SubType ev = "")) && negb (bool_decide (sm_SubType ev = "file_share"))).

Definition handleMessageEvent (E : media_env) (ev : slack_message) (c : SlackChannel) (fs : files) : slack_handled :=
  if ignored c ev then mk_slack_handled c fs None []
  else if negb (IsAllowed (sc_base c) (sm_User ev)) then mk_slack_handled c fs None []
  else
    let chatID := message_chat ev in
    let c := take_up chatID (sm_Channel ev) (sm_TimeStamp ev) c in
    let calls := [AddReaction "eyes" (sm_Channel ev) (sm_TimeStamp ev)] in
    let content := stripBotMention (sc_botUserID c) (sm_Text ev) in
    let '(content, media, fs) := gather_files E c (sm_Files ev) content [] fs in
    let fs := remove_files media fs in
    if bool_decide (trim_space content = "") then mk_slack_handled c fs None calls
    else
      mk_slack_handled c fs
        (HandleMessage (sc_base c) (sm_User ev) chatID content media
           (slack_metadata c (sm_Channel ev) (sm_ThreadTimeStamp ev) (sm_TimeStamp ev) (sm_User ev)))
        calls.

Definition mention_chat (ev : slack_mention) : string :=
  thread_chat (mn_Channel ev)
    (if bool_decide (mn_ThreadTimeStamp ev = "") then mn_TimeStamp ev else mn_ThreadTimeStamp ev).

Definition handleAppMention (ev : slack_mention) (c : SlackChannel) (fs : files) : slack_handled :=
  if bool_decide (mn_User ev = sc_botUserID c) then mk_slack_handled c fs None []
  else if negb (IsAllowed (sc_base c) (mn_User ev)) then mk_slack_handled c fs None []
  else
    let chatID := mention_chat ev in
    let c := take_up chatID (mn_Channel ev) (mn_TimeStamp ev) c in
    let calls := [AddReaction "eyes" (mn_Channel ev) (mn_TimeStamp ev)] in
    let content := stripBotMention (sc_botUserID c) (mn_Text ev) in
    if bool_decide (trim_space content = "") then mk_slack_handled c fs None calls
    else
      mk_slack_handled c fs
        (HandleMessage (sc_base c) (mn_User ev) chatID content []
           (<["is_mention" := "true"]>
              (slack_metadata c (mn_Channel ev) (mn_ThreadTimeStamp ev) (mn_TimeStamp ev) (mn_User ev))))
        calls.

Definition handleSlashCommand (cmd : slack_command) (c : SlackChannel) (fs : files) : slack_handled :=
  if negb (IsAllowed (sc_base c) (cd_UserID cmd)) then mk_slack_handled c fs None []
  else
    let content := if bool_decide (trim_space (cd_Text cmd) = "") then "help" else cd_Text cmd in
    mk_slack_handled c fs
      (HandleMessage (sc_base c) (cd_UserID cmd) (cd_ChannelID cmd) content []
         {[ "channel_id" := cd_ChannelID cmd; "platform" := "slack"; "is_command" := "true";
            "trigger_id" := cd_TriggerID cmd; "peer_kind" := "channel"; "peer_id" := cd_ChannelID cmd;
            "team_id" := sc_teamID c ]})
      [].

(** One round of [eventLoop]. *)
Definition handle_event (E : media_env) (ev : slack_event) (c : SlackChannel) (fs : files) : slack_handled :=
  match ev with
  | MessageEvent ev => handleMessageEvent E ev c fs
  | AppMentionEvent ev => handleAppMention ev c fs
  | SlashCommand cmd => handleSlashCommand cmd c fs
  | OtherEvent => mk_slack_handled c fs None []
  end.

(** ** Replies go back to the channel and the thread *)
Lemma cut_none s c : c ∉ chars s → cut s c = None.
Proof. intros H. unfold cut. by rewrite (proj2 (cut_l_None _ _)). Qed.

Lemma chat_round_trip channelID threadTS :
  "/"%char ∉ chars channelID →
  parseSlackChatID (thread_chat channelID threadTS) = (channelID, threadTS) ∧
  parseSlackChatID channelID = (channelID, "").
Proof.
  intros H. unfold parseSlackChatID, thread_chat.
  change (channelID +:+ "/" +:+ threadTS) with (channelID +:+ String "/" threadTS).
  by rewrite cut_app, cut_none.
Qed.

(** Who an event is from, the channel it happens in, and the thread a reply belongs to. *)
Definition event_user (ev : slack_event) : string :=
  match ev with
  | MessageEvent ev => sm_User ev | AppMentionEvent ev => mn_User ev | SlashCommand cmd => cd_UserID cmd
  | OtherEvent => ""
  end.
Definition event_channel (ev : slack_event) : string :=
  match ev with
  | MessageEvent ev => sm_Channel ev | AppMentionEvent ev => mn_Channel ev | SlashCommand cmd => cd_ChannelID cmd
  | OtherEvent => ""
  end.
Definition event_thread (ev : slack_event) : string :=
  match ev with
  | MessageEvent ev => sm_ThreadTimeStamp ev
  | AppMentionEvent ev => if bool_decide (mn_ThreadTimeStamp ev = "") then mn_TimeStamp ev else mn_ThreadTimeStamp ev
  | _ => ""
  end.
Definition event_chat (ev : slack_event) : string :=
  match ev with
  | MessageEvent ev => message_chat ev | AppMentionEvent ev => mention_chat ev | SlashCommand cmd => cd_ChannelID cmd
  | OtherEvent => ""
  end.

Lemma event_chat_parsed ev :
  "/"%char ∉ chars (event_channel ev) → parseSlackChatID (event_chat ev) = (event_channel ev, event_thread ev).
Proof.
  intros H. destruct ev as [ev|ev|cmd|]; cbn [event_chat event_channel event_thread] in *.
  - unfold message_chat. destruct (bool_decide_reflect (sm_ThreadTimeStamp ev = "")) as [->|].
    + by apply chat_round_trip with (threadTS := "").
    + by apply chat_round_trip.
  - by apply chat_round_trip.
  - by apply chat_round_trip with (threadTS := "").
  - done.
Qed.

Lemma HandleMessage_Some c sender chat content media meta inb :
  HandleMessage c sender chat content media meta = Some inb →
  IsAllowed c sender = true ∧ inb = mk_InboundMessage (bc_name c) sender chat content media "" meta.
Proof. unfold HandleMessage. destruct (IsAllowed c sender); cbn [negb]; [by intros [= <-]|done]. Qed.

(** An inbound message is from the user of the event, who is allowed, and names the
    chat of the event. *)
Lemma slack_message_of E ev c fs inb :
  sh_message (handle_event E ev c fs) = Some inb →
  im_SenderID inb = event_user ev ∧ im_ChatID inb = event_chat ev ∧ im_Channel inb = bc_name (sc_base c) ∧
  IsAllowed (sc_base c) (event_user ev) = true.
Proof.
  destruct ev as [ev|ev|cmd|]; cbn [handle_event event_user event_chat]; [| | |done].
  - unfold handleMessageEvent. destruct (ignored _ _); [done|]. destruct (negb _); [done|].
    destruct (gather_files _ _ _ _ _ _) as [[content media] fs']. destruct (bool_decide _); [done|].
    by intros [? ->]%HandleMessage_Some.
  - unfold handleAppMention. destruct (bool_decide _); [done|]. destruct (negb _); [done|].
    destruct (bool_decide _); [done|]. by intros [? ->]%HandleMessage_Some.
  - unfold handleSlashCommand. destruct (negb _); [done|]. by intros [? ->]%HandleMessage_Some.
Qed.

(** Every reply to an event is posted in its channel and its thread. *)
Lemma slack_reply_goes_back E ev c fs inb post content c' e c'' calls :
  "/"%char ∉ chars (event_channel ev) → sh_message (handle_event E ev c fs) = Some inb →
  Send_slack post (mk_OutboundMessage (im_Channel inb) (im_ChatID inb) content) c' = (e, c'', calls) →
  ∀ channel text thread, PostMessage channel text thread ∈ calls →
  channel = event_channel ev ∧ thread = event_thread ev ∧ text = content.
Proof.
  intros Hs (_ & Hc & _)%slack_message_of Hsend channel text thread Hin.
  unfold Send_slack in Hsend. cbn [om_ChatID om_Content] in Hsend. rewrite Hc, event_chat_parsed in Hsend by done.
  repeat case_match; simplify_eq/=; set_solver.
Qed.

(** ** Acknowledgements *)

(** A message that waits under a chat identifier is in the channel it names. *)
Definition acks_ok (c : SlackChannel) : Prop :=
  map_Forall (λ chat ref, (parseSlackChatID chat).1 = mr_ChannelID ref) (sc_pendingAcks c).

Lemma take_up_ok chat channel ts c :
  (parseSlackChatID chat).1 = channel → acks_ok c → acks_ok (take_up chat channel ts c).
Proof. intros Hc H. unfold acks_ok. cbn. by apply map_Forall_insert_2. Qed.

Lemma handle_event_acks E ev c fs :
  "/"%char ∉ chars (event_channel ev) → acks_ok c → acks_ok (sh_channel (handle_event E ev c fs)).
Proof.
  intros Hs H. pose proof (event_chat_parsed ev Hs) as Hp.
  assert (∀ ts, acks_ok (take_up (event_chat ev) (event_channel ev) ts c)) as Ht
    by (intros ts; apply take_up_ok; [by rewrite Hp|done]).
  destruct ev as [ev|ev|cmd|]; cbn [handle_event event_chat event_channel] in *; [| | |done].
  - unfold handleMessageEvent. destruct (ignored _ _); [done|]. destruct (negb _); [done|].
    destruct (gather_files _ _ _ _ _ _) as [[content media] fs']. destruct (bool_decide _); apply Ht.
  - unfold handleAppMention. destruct (bool_decide _); [done|]. destruct (negb _); [done|].
    destruct (bool_decide _); apply Ht.
  - unfold handleSlashCommand. by destruct (negb _).
Qed.

Lemma Send_acks post msg c : acks_ok c → acks_ok (Send_slack post msg c).1.2.
Proof.
  intros H. unfold Send_slack. destruct (negb _); [done|]. destruct (parseSlackChatID _) as [channel thread].
  destruct (bool_decide _); [done|]. destruct (post _); [done|]. destruct (_ !! _) eqn:E; [|done].
  by apply map_Forall_delete.
Qed.

(** The mark of a reply is put in the channel where the reply is posted, and not again. *)
Lemma reply_marked post msg c c' calls :
  acks_ok c → Send_slack post msg c = (None, c', calls) →
  sc_pendingAcks c' !! om_ChatID msg = None ∧
  ∃ channel thread, PostMessage channel (om_Content msg) thread ∈ calls ∧
    Forall (λ call, match call with PostMessage ch _ _ | AddReaction _ ch _ => ch = channel end) calls.
Proof.
  intros H. unfold Send_slack. destruct (negb _); [done|].
  destruct (parseSlackChatID (om_ChatID msg)) as [channel thread] eqn:Ep. destruct (bool_decide _); [done|].
  destruct (post _); [done|]. destruct (sc_pendingAcks c !! om_ChatID msg) as [ref|] eqn:Er; intros [= <- <-].
  - split; [by apply lookup_delete_eq|]. exists channel, thread. split; [by left|].
    pose proof (H _ _ Er) as Hr. cbv beta in Hr. rewrite Ep in Hr. by repeat constructor.
  - split; [done|]. exists channel, thread. split; [by left|]. by repeat constructor.
Qed.

(** ** Downloaded files do not stay *)
Lemma downloadSlackFile_lookup E file fs path fs' p v :
  downloadSlackFile E file fs = (path, fs') → fs' !! p = Some v → (path = p ∧ path ≠ "") ∨ fs !! p = Some v.
Proof.
  unfold downloadSlackFile. set (url := if bool_decide (sf_URLPrivateDownload file = "") then _ else _).
  destruct (bool_decide (url = "")); [intros [= _ <-]; by right|]. apply DownloadFile_lookup.
Qed.

Lemma gather_files_other E c l content media fs content' media' fs' p v :
  gather_files E c l content media fs = (content', media', fs') →
  media ⊆ media' ∧ (fs' !! p = Some v → p ∉ media' → fs !! p = Some v).
Proof.
  revert content media fs. induction l as [|file l IH]; intros content media fs; cbn [gather_files].
  - intros [= <- <- <-]. split; [set_solver|done].
  - destruct (downloadSlackFile E file fs) as [path fs1] eqn:Ed.
    case_bool_decide as Hp; intros Hg; destruct (IH _ _ _ Hg) as [Hs Hf]; (split; [set_solver|]); intros Hl Hn;
      destruct (downloadSlackFile_lookup _ _ _ _ _ p v Ed (Hf Hl Hn)) as [[Hpp Hne]|?]; try done.
    subst path. destruct Hn. apply Hs. set_solver.
Qed.

(** When the handler returns, every file on disk was there before. *)
Lemma slack_leaves_no_files E ev c fs : sh_files (handle_event E ev c fs) ⊆ fs.
Proof.
  apply map_subseteq_spec. intros p v. destruct ev as [ev|ev|cmd|]; cbn [handle_event].
  - unfold handleMessageEvent. destruct (ignored _ _); [done|]. destruct (negb _); [done|].
    destruct (gather_files _ _ _ _ _ _) as [[content media] fs'] eqn:Eg.
    assert (remove_files media fs' !! p = Some v → fs !! p = Some v) as H.
    { rewrite remove_files_lookup. case_decide; [done|]. intros Hl.
      by eapply (gather_files_other _ _ _ _ _ _ _ _ _ p v Eg). }
    by destruct (bool_decide _).
  - unfold handleAppMention. destruct (bool_decide _); [done|]. destruct (negb _); [done|]. by destruct (bool_decide _).
  - unfold handleSlashCommand. by destruct (negb _).
  - done.
Qed.

(** ** Where the channel departs from what it means to do *)
Section Findings.
Let E := mk_media_env "/tmp" true (λ _, "0123456789") (λ _, Some (mk_fetched 200 true (Some "data")))
           (λ _ _ _ _ _, Err "none") (λ _, Err "none").
Let bot := mk_SlackChannel (setRunning true (NewBaseChannel "slack" [])) "xoxb" "UBOT" "T1" None ∅.

(** A mention in a channel arrives as a message and as a mention: both are published,
    for different chats, and the agent answers twice. *)
Example mention_answered_twice :
  let text := "<@UBOT> hello" in
  im_ChatID <$> sh_message (handle_event E (MessageEvent (mk_slack_message "U1" "" "" "C1" "" "17.1" text [])) bot ∅) =
    Some "C1" ∧
  im_ChatID <$> sh_message (handle_event E (AppMentionEvent (mk_slack_mention "U1" "C1" "" "17.1" text)) bot ∅) =
    Some "C1/17.1".
Proof. by vm_compute. Qed.

(** A second message before the first reply takes its place: the first is never marked. *)
Example first_message_never_marked :
  let ev ts := MessageEvent (mk_slack_message "U1" "" "" "C1" "" ts "hello" []) in
  let c := sh_channel (handle_event E (ev "2") (sh_channel (handle_event E (ev "1") bot ∅)) ∅) in
  let '(_, c, calls) := Send_slack (λ _, None) (mk_OutboundMessage "slack" "C1" "hi") c in
  let '(_, _, calls') := Send_slack (λ _, None) (mk_OutboundMessage "slack" "C1" "hi again") c in
  calls ++ calls' = [PostMessage "C1" "hi" ""; AddReaction "white_check_mark" "C1" "2"; PostMessage "C1" "hi again" ""].
Proof. by vm_compute. Qed.

(** A message without text is marked as seen and never answered, and the next reply in
    the chat marks it as done. *)
Example empty_message_marked_done :
  let ev := MessageEvent (mk_slack_message "U1" "" "" "C1" "" "1" "<@UBOT>" []) in
  let h := handle_event E ev bot ∅ in
  sh_message h = None ∧
  (Send_slack (λ _, None) (mk_OutboundMessage "slack" "C1" "reminder") (sh_channel h)).2 =
    [PostMessage "C1" "reminder" ""; AddReaction "white_check_mark" "C1" "1"].
Proof. by vm_compute. Qed.

(** A command in a direct chat is said to be from a channel, a message there is not:
    they have different peers. *)
Example command_peer_differs :
  (λ m, im_Metadata m !! "peer_kind") <$> sh_message (handle_event E (SlashCommand (mk_slack_command "U1" "D1" "x" "t")) bot ∅) =
    Some (Some "channel") ∧
  (λ m, im_Metadata m !! "peer_kind") <$>
    sh_message (handle_event E (MessageEvent (mk_slack_message "U1" "" "" "D1" "" "1" "x" [])) bot ∅) = Some (Some "direct").
Proof. by vm_compute. Qed.

(** A mention by another bot is answered, a message is not. *)
Example bot_mention_answered :
  sh_message (handle_event E (MessageEvent (mk_slack_message "U2" "B2" "" "C1" "" "1" "<@UBOT> hi" [])) bot ∅) = None ∧
  is_Some (sh_message (handle_event E (AppMentionEvent (mk_slack_mention "U2" "C1" "" "1" "<@UBOT> hi")) bot ∅)).
Proof. split; [done|]. vm_compute. by eexists. Qed.

(** The message that names a file is published when the file is gone. *)
Example slack_media_removed :
  let ev := MessageEvent (mk_slack_message "U1" "" "file_share" "C1" "" "1" "" [mk_slack_file "a.txt" "text/plain" "https://x/a" ""]) in
  let h := handle_event E ev bot ∅ in
  im_Media <$> sh_message h = Some ["/tmp/tinyclaw_media/01234567_a.txt"] ∧
  sh_files h !! "/tmp/tinyclaw_media/01234567_a.txt" = None.
Proof. by vm_compute. Qed.
End Findings.
