(* ===== verification/Discord.v ===== *)
(** * The Discord channel (pkg/channels/discord.go)

    Messages of allowed users, with their attachments, become inbound messages; while
    the agent works a loop of the chat shows that it is typing, until the reply is sent
    in chunks.  Loops are numbered as they start, each with a channel that stops it. *)
From stdpp Require Import base gmap strings list pretty.
From Stdlib Require Import Ascii ZArith Lia.
From S2P Require Import Prelude GoStrings Encoding Bus SplitMessage Channels Media Settings Adapters.
#[local] Open Scope nat_scope.

(** ** Data *)

(** [dc_typingStop]: the loop of a chat.  [dc_loops]: how many were started.
    [dc_closed]: the channels that were closed, in order. *)
Record DiscordChannel := mk_DiscordChannel {
  dc_base : BaseChannel;
  dc_mentionOnly : bool;
  dc_botUserID : string;
  dc_transcriber : option GroqTranscriber;
  dc_typingStop : gmap string nat;
  dc_loops : nat;
  dc_closed : list nat;
}.

Record dc_attachment := mk_dc_attachment { da_URL : string; da_Filename : string; da_ContentType : string }.
Record dc_author := mk_dc_author { du_ID : string; du_Username : string; du_Discriminator : string }.
Record dc_message := mk_dc_message {
  dm_ID : string;
  dm_Author : option dc_author;
  dm_ChannelID : string;
  dm_GuildID : string;
  dm_Content : string;
  dm_Mentions : list string;
  dm_Attachments : list dc_attachment;
}.

(** [session] is what the client library makes of the token. *)
Definition NewDiscordChannel (session : string → result string unit) (cfg : DiscordConfig) :
    result string DiscordChannel :=
  match session ("Bot " +:+ dc_Token cfg) with
  | Err e => Err ("failed to create discord session: " +:+ e)
  | Ok _ =>
      Ok (mk_DiscordChannel (NewBaseChannel "discord" (dc_AllowFrom cfg)) (dc_MentionOnly cfg) "" None ∅ 0 [])
  end.

Definition with_base_discord (b : BaseChannel) (c : DiscordChannel) : DiscordChannel :=
  mk_DiscordChannel b (dc_mentionOnly c) (dc_botUserID c) (dc_transcriber c) (dc_typingStop c) (dc_loops c) (dc_closed c).
Definition SetTranscriber_discord (t : GroqTranscriber) (c : DiscordChannel) : DiscordChannel :=
  mk_DiscordChannel (dc_base c) (dc_mentionOnly c) (dc_botUserID c) (Some t) (dc_typingStop c) (dc_loops c) (dc_closed c).
Definition with_typing (m : gmap string nat) (loops : nat) (closed : list nat) (c : DiscordChannel) : DiscordChannel :=
  mk_DiscordChannel (dc_base c) (dc_mentionOnly c) (dc_botUserID c) (dc_transcriber c) m loops closed.

(** [me] is the user of the bot, [opened] the error of opening the session. *)
Definition Start_discord (me : result string string) (opened : option string) (c : DiscordChannel) :
    option string * DiscordChannel :=
  match me with
  | Err e => (Some ("failed to get bot user: " +:+ e), c)
  | Ok id =>
      let c := mk_DiscordChannel (dc_base c) (dc_mentionOnly c) id (dc_transcriber c) (dc_typingStop c) (dc_loops c)
                 (dc_closed c) in
      match opened with
      | Some e => (Some ("failed to open discord session: " +:+ e), c)
      | None => (None, with_base_discord (setRunning true (dc_base c)) c)
      end
  end.

(** ** Typing *)

(** The loop of a chat is stopped, if there is one. *)
Definition close_stop (chatID : string) (c : DiscordChannel) : list nat :=
  match dc_typingStop c !! chatID with Some stop => dc_closed c ++ [stop] | None => dc_closed c end.

Definition startTyping (chatID : string) (c : DiscordChannel) : DiscordChannel :=
  with_typing (<[chatID := dc_loops c]> (dc_typingStop c)) (S (dc_loops c)) (close_stop chatID c) c.
Definition stopTyping (chatID : string) (c : DiscordChannel) : DiscordChannel :=
  with_typing (delete chatID (dc_typingStop c)) (dc_loops c) (close_stop chatID c) c.

(** Stopping closes every channel of the map, in the order it is iterated. *)
Definition Stop_discord (closing : option string) (c : DiscordChannel) : option string * DiscordChannel :=
  let c := with_base_discord (setRunning false (dc_base c)) c in
  (match closing with Some e => Some ("failed to close discord session: " +:+ e) | None => None end,
   with_typing ∅ (dc_loops c) (dc_closed c ++ (map_to_list (dc_typingStop c)).*2) c).

(** The loops that have not been told to stop.  Such a loop runs unless it has
    ended by itself, after five minutes or with the context of the channel; that
    changes nothing here, as its stop channel stays in the map. *)
Definition unstopped_loops (c : DiscordChannel) : list nat :=
  filter (λ k, k ∉ dc_closed c) (seq 0 (dc_loops c)).

(** ** Sending *)
Definition discord_limit : Z := 2000.

(** [api] is the error of sending a text to a channel, by the platform or because it
    takes too long. *)
Definition sendChunk (api : string → string → option string) (channelID content : string) : option string :=
  match api channelID content with
  | Some e => Some ("failed to send discord message: " +:+ e)
  | None => None
  end.

Definition Send_discord (fuel : nat) (api : string → string → option string) (msg : OutboundMessage)
    (c : DiscordChannel) : sending * DiscordChannel :=
  let c := stopTyping (om_ChatID msg) c in
  if negb (bc_running (dc_base c)) then (Sent (Some "discord bot not running") [], c)
  else if bool_decide (om_ChatID msg = "") then (Sent (Some "channel ID is empty") [], c)
  else if bool_decide (om_Content msg = "") then (Sent None [], c)
  else (send_split fuel discord_limit (sendChunk api (om_ChatID msg)) (om_Content msg), c).

(** ** Receiving *)
Definition appendContent (content suffix : string) : string :=
  if bool_decide (content = "") then suffix else content +:+ nl_text +:+ suffix.

Definition stripBotMention_discord (botUserID text : string) : string :=
  if bool_decide (botUserID = "") then text
  else
    let text := ReplaceAll text ("<@" +:+ botUserID +:+ ">") "" in
    let text := ReplaceAll text ("<@!" +:+ botUserID +:+ ">") "" in
    trim_space text.

(** The content, the media and the local files of a message, and the files on disk. *)
Record dc_gathered := mk_dc_gathered {
  dg_content : string;
  dg_media : list string;
  dg_local : list string;
  dg_files : files;
}.

Definition attach_url (a : dc_attachment) (g : dc_gathered) : dc_gathered :=
  mk_dc_gathered (appendContent (dg_content g) ("[attachment: " +:+ da_URL a +:+ "]")) (dg_media g ++ [da_URL a])
    (dg_local g) (dg_files g).

Definition audio_text (E : media_env) (c : DiscordChannel) (a : dc_attachment) (path : string) (fs : files) : string :=
  match transcription E (dc_transcriber c) path fs with
  | Some (Err _) => "[audio: " +:+ da_Filename a +:+ " (transcription failed)]"
  | Some (Ok text) => "[audio transcription: " +:+ text +:+ "]"
  | None => "[audio: " +:+ da_Filename a +:+ "]"
  end.

Definition attach (E : media_env) (c : DiscordChannel) (g : dc_gathered) (a : dc_attachment) : dc_gathered :=
  if IsAudioFile (da_Filename a) (da_ContentType a) then
    let '(path, fs) := download E (da_URL a) (da_Filename a) (dg_files g) in
    let g := mk_dc_gathered (dg_content g) (dg_media g) (dg_local g) fs in
    if bool_decide (path = "") then attach_url a g
    else
      mk_dc_gathered (appendContent (dg_content g) (audio_text E c a path fs)) (dg_media g) (dg_local g ++ [path]) fs
  else attach_url a g.

Definition dc_display_name (u : dc_author) : string :=
  if bool_decide (du_Discriminator u = "") || bool_decide (du_Discriminator u = "0") then du_Username u
  else du_Username u +:+ "#" +:+ du_Discriminator u.

Definition dc_metadata (m : dc_message) (u : dc_author) : gmap string string :=
  let dm := bool_decide (dm_GuildID m = "") in
  {[ "message_id" := dm_ID m; "user_id" := du_ID u; "username" := du_Username u;
     "display_name" := dc_display_name u; "guild_id" := dm_GuildID m; "channel_id" := dm_ChannelID m;
     "is_dm" := (if dm then "true" else "false"); "peer_kind" := (if dm then "direct" else "channel");
     "peer_id" := (if dm then du_ID u else dm_ChannelID m) ]}.

(** Whether a message must mention the bot and does not. *)
Definition unmentioned (c : DiscordChannel) (m : dc_message) : bool :=
  dc_mentionOnly c && negb (bool_decide (dm_GuildID m = ""))
  && negb (existsb (λ id, bool_decide (id = dc_botUserID c)) (dm_Mentions m)).

Record dc_handled := mk_dc_handled {
  dh_channel : DiscordChannel;
  dh_files : files;
  dh_message : option InboundMessage;
}.

(** [selfID] is the user of the session. *)
Definition handleMessage (E : media_env) (selfID : string) (m : dc_message) (c : DiscordChannel) (fs : files) : dc_handled :=
  match dm_Author m with
  | None => mk_dc_handled c fs None
  | Some u =>
      if bool_decide (du_ID u = selfID) then mk_dc_handled c fs None
      else if negb (IsAllowed (dc_base c) (du_ID u)) then mk_dc_handled c fs None
      else if unmentioned c m then mk_dc_handled c fs None
      else
        let content := stripBotMention_discord (dc_botUserID c) (dm_Content m) in
        let g := foldl (attach E c) (mk_dc_gathered content [] [] fs) (dm_Attachments m) in
        let fs := remove_files (dg_local g) (dg_files g) in
        if bool_decide (dg_content g = "") && bool_decide (dg_media g = []) then mk_dc_handled c fs None
        else
          let content := if bool_decide (dg_content g = "") then "[media only]" else dg_content g in
          mk_dc_handled (startTyping (dm_ChannelID m) c) fs
            (HandleMessage (dc_base c) (du_ID u) (dm_ChannelID m) content (dg_media g) (dc_metadata m u))
  end.

(** ** Typing loops *)

(** No channel is closed twice, loops of different chats differ, and the loops that run
    are those of the map. *)
Record typing_ok (c : DiscordChannel) : Prop := {
  ty_closed_once : NoDup (dc_closed c);
  ty_closed_started : ∀ k, k ∈ dc_closed c → k < dc_loops c;
  ty_open : ∀ chat k, dc_typingStop c !! chat = Some k → k < dc_loops c ∧ k ∉ dc_closed c;
  ty_inj : ∀ chat chat' k, dc_typingStop c !! chat = Some k → dc_typingStop c !! chat' = Some k → chat = chat';
  ty_known : ∀ k, k < dc_loops c → k ∈ dc_closed c ∨ ∃ chat, dc_typingStop c !! chat = Some k;
}.

(** [close_stop] on a channel that is as it should be. *)
Lemma close_stop_elem chat c k :
  k ∈ close_stop chat c ↔ k ∈ dc_closed c ∨ dc_typingStop c !! chat = Some k.
Proof. unfold close_stop. destruct (_ !! chat) as [j|]; set_solver. Qed.

Lemma close_stop_NoDup chat c : typing_ok c → NoDup (close_stop chat c).
Proof.
  intros [H1 H2 H3 H4 H5]. unfold close_stop. destruct (_ !! chat) as [j|] eqn:Ej; [|done].
  apply NoDup_app. split_and!; [done| |apply NoDup_singleton]. intros k Hk ->%list_elem_of_singleton.
  by apply (H3 chat j Ej).
Qed.

Lemma stopTyping_ok chat c : typing_ok c → typing_ok (stopTyping chat c).
Proof.
  intros Hok. pose proof (close_stop_NoDup chat c Hok) as Hnd. destruct Hok as [H1 H2 H3 H4 H5].
  split; cbn.
  - done.
  - intros k [Hk|Hk]%close_stop_elem; [by apply H2|by apply (H3 chat)].
  - intros ch k [Hne Hk]%lookup_delete_Some. destruct (H3 _ _ Hk) as [? Hc]. split; [done|].
    intros [Hk'|Hk']%close_stop_elem; [done|]. apply Hne. by eapply H4.
  - intros ch ch' k [_ Hk]%lookup_delete_Some [_ Hk']%lookup_delete_Some. by eapply H4.
  - intros k Hk. rewrite close_stop_elem. destruct (H5 k Hk) as [?|[ch Hch]]; [tauto|].
    destruct (decide (chat = ch)) as [->|]; [tauto|]. right. exists ch. by rewrite lookup_delete_ne.
Qed.

Lemma startTyping_ok chat c : typing_ok c → typing_ok (startTyping chat c).
Proof.
  intros Hok. pose proof (close_stop_NoDup chat c Hok) as Hnd. destruct Hok as [H1 H2 H3 H4 H5].
  assert (∀ k, k ∈ close_stop chat c → k < dc_loops c) as Hlt
    by (intros k [Hk|Hk]%close_stop_elem; [by apply H2|by apply (H3 chat)]).
  split; cbn.
  - done.
  - intros k Hk%Hlt. lia.
  - intros ch k [[<- <-]|[Hne Hk]]%lookup_insert_Some.
    + split; [lia|]. intros Hk%Hlt. lia.
    + destruct (H3 _ _ Hk) as [? Hc]. split; [lia|]. intros [Hk'|Hk']%close_stop_elem; [done|].
      apply Hne. by eapply H4.
  - intros ch ch' k [[<- <-]|[Hne Hk]]%lookup_insert_Some [[<- Hj]|[Hne' Hk']]%lookup_insert_Some; [done| | |by eapply H4].
    + destruct (H3 _ _ Hk'). lia.
    + destruct (H3 _ _ Hk). lia.
  - intros k Hk. rewrite close_stop_elem. destruct (decide (k = dc_loops c)) as [->|].
    { right. exists chat. apply lookup_insert_eq. }
    destruct (H5 k ltac:(lia)) as [?|[ch Hch]]; [tauto|].
    destruct (decide (chat = ch)) as [->|]; [tauto|]. right. exists ch. by rewrite lookup_insert_ne.
Qed.

Lemma stop_elem c k : k ∈ (map_to_list (dc_typingStop c)).*2 ↔ ∃ chat, dc_typingStop c !! chat = Some k.
Proof.
  rewrite list_elem_of_fmap. split.
  - intros ([chat j] & -> & H%elem_of_map_to_list). by exists chat.
  - intros [chat H]. exists (chat, k). split; [done|]. by apply elem_of_map_to_list.
Qed.

Lemma Stop_discord_ok closing c : typing_ok c → typing_ok (Stop_discord closing c).2.
Proof.
  intros [H1 H2 H3 H4 H5]. split; cbn.
  - apply NoDup_app. split_and!; [done| |].
    + intros k Hk [chat Hc]%stop_elem. by apply (H3 chat k Hc).
    + apply NoDup_fmap_2_strong; [|apply NoDup_map_to_list].
      intros [ch k] [ch' k'] Hx%elem_of_map_to_list Hy%elem_of_map_to_list. cbn. intros <-. f_equal. by eapply H4.
  - intros k [Hk|[chat Hc]%stop_elem]%elem_of_app; [by apply H2|by apply (H3 chat)].
  - intros ch k Hk. by rewrite lookup_empty in Hk.
  - intros ch ch' k Hk. by rewrite lookup_empty in Hk.
  - intros k Hk. left. apply elem_of_app. destruct (H5 k Hk) as [?|Hc]; [by left|right; by apply stop_elem].
Qed.

(** What may happen to the channel, in any order; the lock of the map makes each change
    of it one step. *)
Inductive dc_op :=
| OpStart (me : result string string) (opened : option string)
| OpMessage (E : media_env) (selfID : string) (m : dc_message) (fs : files)
| OpSend (fuel : nat) (api : string → string → option string) (msg : OutboundMessage)
| OpStop (closing : option string).
Definition dc_apply (c : DiscordChannel) (op : dc_op) : DiscordChannel :=
  match op with
  | OpStart me opened => (Start_discord me opened c).2
  | OpMessage E selfID m fs => dh_channel (handleMessage E selfID m c fs)
  | OpSend fuel api msg => (Send_discord fuel api msg c).2
  | OpStop closing => (Stop_discord closing c).2
  end.

Lemma handleMessage_channel E selfID m c fs :
  dh_channel (handleMessage E selfID m c fs) = c ∨
  dh_channel (handleMessage E selfID m c fs) = startTyping (dm_ChannelID m) c.
Proof.
  unfold handleMessage. destruct (dm_Author m) as [u|]; [|by left]. destruct (bool_decide _); [by left|].
  destruct (negb _); [by left|]. destruct (unmentioned c m); [by left|]. destruct (_ && _); [by left|by right].
Qed.

Lemma Send_discord_channel fuel api msg c : (Send_discord fuel api msg c).2 = stopTyping (om_ChatID msg) c.
Proof. unfold Send_discord. destruct (negb _); [done|]. destruct (bool_decide _); [done|]. by destruct (bool_decide _). Qed.

Lemma dc_apply_ok c op : typing_ok c → typing_ok (dc_apply c op).
Proof.
  intros H. destruct op as [me opened|E selfID m fs|fuel api msg|closing]; cbn [dc_apply].
  - unfold Start_discord. destruct me; [|by destruct H]. by destruct opened, H.
  - destruct (handleMessage_channel E selfID m c fs) as [->| ->]; [done|by apply startTyping_ok].
  - rewrite Send_discord_channel. by apply stopTyping_ok.
  - by apply Stop_discord_ok.
Qed.

Lemma new_typing_ok session cfg c : NewDiscordChannel session cfg = Ok c → typing_ok c.
Proof.
  unfold NewDiscordChannel. destruct (session _); [|done]. intros [= <-].
  split; cbn; [apply NoDup_nil_2|by intros k ?%not_elem_of_nil|by intros ch k Hk; rewrite lookup_empty in Hk| |lia].
  intros ch ch' k Hk. by rewrite lookup_empty in Hk.
Qed.

Lemma unstopped_loops_elem c k : typing_ok c → k ∈ unstopped_loops c ↔ ∃ chat, dc_typingStop c !! chat = Some k.
Proof.
  intros [H1 H2 H3 H4 H5]. unfold unstopped_loops. rewrite list_elem_of_filter, elem_of_seq. split.
  - intros [Hn Hk]. destruct (H5 k ltac:(lia)); [done|done].
  - intros [chat Hk]. destruct (H3 _ _ Hk). split; [done|lia].
Qed.

(** C23: Whatever happens to the channel, and in whatever order: no stop channel is
    closed twice, so the program does not panic; every loop that has not been told to
    stop (it may have ended by itself, after five minutes or with the context) is that
    of one chat, and a chat has at most one; a reply leaves none in its chat, and
    stopping the channel leaves none at all. *)
Theorem typing_loops_safe session cfg c0 (ops : list dc_op) :
  NewDiscordChannel session cfg = Ok c0 →
  let c := foldl dc_apply c0 ops in
  NoDup (dc_closed c) ∧
  (∀ k, k ∈ unstopped_loops c ↔ ∃ chat, dc_typingStop c !! chat = Some k) ∧
  (∀ chat chat' k, dc_typingStop c !! chat = Some k → dc_typingStop c !! chat' = Some k → chat = chat') ∧
  (∀ fuel api msg, dc_typingStop (dc_apply c (OpSend fuel api msg)) !! om_ChatID msg = None) ∧
  (∀ closing, unstopped_loops (dc_apply c (OpStop closing)) = []).
Proof.
  intros H c. assert (typing_ok c) as Hok.
  { apply new_typing_ok in H. subst c. revert c0 H.
    induction ops as [|op ops IH]; intros c0 H; [done|]. by apply IH, dc_apply_ok. }
  split_and!.
  - apply Hok.
  - intros k. by apply unstopped_loops_elem.
  - apply Hok.
  - intros fuel api msg. cbn [dc_apply]. rewrite Send_discord_channel. apply lookup_delete_eq.
  - intros closing. apply (dc_apply_ok c (OpStop closing)) in Hok.
    destruct (unstopped_loops (dc_apply c (OpStop closing))) as [|k l] eqn:E; [done|].
    assert (k ∈ k :: l) as Hk by by left. rewrite <- E, unstopped_loops_elem in Hk by done.
    destruct Hk as [chat Hk]. cbn in Hk. by rewrite lookup_empty in Hk.
Qed.

Definition any_session (_ : string) : result string unit := Ok tt.
Definition no_media : media_env :=
  mk_media_env "/tmp" true (λ _, "0123456789") (λ _, None) (λ _ _ _ _ _, Err "none") (λ _, Err "none").
Definition hello_in (channel : string) : dc_message :=
  mk_dc_message "m1" (Some (mk_dc_author "U1" "ada" "0")) channel "" "hello" [] [].
Definition any_config : DiscordConfig := mk_DiscordConfig true "token" [] false.
Definition bot0 : DiscordChannel := mk_DiscordChannel (NewBaseChannel "discord" []) false "" None ∅ 0 [].

Lemma typing_loops_safe_witness :
  let ops := [OpMessage no_media "BOT" (hello_in "C1") ∅; OpMessage no_media "BOT" (hello_in "C1") ∅;
              OpMessage no_media "BOT" (hello_in "C2") ∅] in
  NewDiscordChannel any_session any_config = Ok bot0 ∧
  unstopped_loops (foldl dc_apply bot0 ops) = [1; 2] ∧ NoDup (dc_closed (foldl dc_apply bot0 ops)).
Proof.
  intros ops. split_and!; [done|by vm_compute|].
  by apply (typing_loops_safe any_session any_config bot0 ops).
Defined.

(** ** Who is answered, and where *)

(** An inbound message is from an allowed author who is not the bot, names the channel
    of the message, and, in a server when only mentions are answered, the bot is
    mentioned. *)
Lemma discord_message_of E selfID m c fs inb :
  dh_message (handleMessage E selfID m c fs) = Some inb →
  im_ChatID inb = dm_ChannelID m ∧ im_Channel inb = bc_name (dc_base c) ∧
  (∃ u, dm_Author m = Some u ∧ im_SenderID inb = du_ID u ∧ du_ID u ≠ selfID ∧ IsAllowed (dc_base c) (du_ID u) = true) ∧
  (dc_mentionOnly c = true → dm_GuildID m ≠ "" → dc_botUserID c ∈ dm_Mentions m).
Proof.
  unfold handleMessage. destruct (dm_Author m) as [u|]; [|done]. case_bool_decide as Hself; [done|].
  destruct (IsAllowed (dc_base c) (du_ID u)) eqn:Ha; cbn [negb]; [|done].
  destruct (unmentioned c m) eqn:Hm; [done|]. destruct (_ && _); [done|]. cbn [dh_message]. unfold HandleMessage.
  rewrite Ha. intros [= <-]. split_and!; [done..|by exists u|].
  intros Ho Hg. unfold unmentioned in Hm. rewrite Ho, bool_decide_eq_false_2 in Hm by done. cbn in Hm.
  apply negb_false_iff, existsb_exists in Hm as (id & Hin & <-%bool_decide_eq_true). by apply list_elem_of_In.
Qed.

(** What is sent is within the limit of the platform. *)
Lemma discord_chunks_bounded fuel api msg c :
  match (Send_discord fuel api msg c).1 with
  | Splitting => True
  | SplitPanics => False
  | Sent _ tried => Forall (λ m, (zlen (chars m) <= discord_limit)%Z) tried
  end.
Proof.
  unfold Send_discord. destruct (negb _); [constructor|]. destruct (bool_decide _); [constructor|].
  destruct (bool_decide _); [constructor|]. by apply send_split_bounded.
Qed.

(** ** Downloaded files do not stay *)
Lemma attach_lookup E c g a p v :
  dg_local g ⊆ dg_local (attach E c g a) ∧
  (dg_files (attach E c g a) !! p = Some v → p ∉ dg_local (attach E c g a) → dg_files g !! p = Some v).
Proof.
  unfold attach. destruct (IsAudioFile _ _); [|done].
  destruct (download E (da_URL a) (da_Filename a) (dg_files g)) as [path fs] eqn:Ed.
  case_bool_decide as Hp; cbn; (split; [set_solver|]); intros Hl Hn;
    (destruct (DownloadFile_lookup _ _ _ _ _ _ _ _ p v Ed Hl) as [[Hpp Hne]|?]; [|done]).
  - done.
  - subst path. set_solver.
Qed.

Lemma attachments_lookup E c l g p v :
  dg_local g ⊆ dg_local (foldl (attach E c) g l) ∧
  (dg_files (foldl (attach E c) g l) !! p = Some v → p ∉ dg_local (foldl (attach E c) g l) → dg_files g !! p = Some v).
Proof.
  revert g. induction l as [|a l IH]; intros g; cbn [foldl]; [done|].
  destruct (IH (attach E c g a)) as [Hs Hf]. destruct (attach_lookup E c g a p v) as [Hs' Hf'].
  split; [set_solver|]. intros Hl Hn. apply Hf'; [by apply Hf|set_solver].
Qed.

(** When the handler returns, every file on disk was there before. *)
Lemma discord_leaves_no_files E selfID m c fs : dh_files (handleMessage E selfID m c fs) ⊆ fs.
Proof.
  unfold handleMessage. destruct (dm_Author m) as [u|]; [|done]. destruct (bool_decide _); [done|].
  destruct (negb _); [done|]. destruct (unmentioned c m); [done|].
  set (g0 := mk_dc_gathered _ [] [] fs). set (g := foldl _ g0 _).
  assert (remove_files (dg_local g) (dg_files g) ⊆ fs) as H.
  { apply map_subseteq_spec. intros p v. rewrite remove_files_lookup. case_decide as Hd; [done|]. intros Hl.
    by apply (attachments_lookup E c (dm_Attachments m) g0 p v). }
  by destruct (_ && _).
Qed.

(** ** Where the channel departs from what it means to do *)

(** Every attachment adds to the content: the case of media without content never
    happens. *)
Lemma appendContent_ne content suffix : suffix ≠ "" → appendContent content suffix ≠ "".
Proof.
  intros Hs. unfold appendContent. case_bool_decide; [done|]. intros E. apply (f_equal chars) in E.
  rewrite !chars_app in E. apply app_nil in E as [E _]. by apply chars_nil_iff in E.
Qed.

Lemma url_text_ne a : "[attachment: " +:+ da_URL a +:+ "]" ≠ "".
Proof. done. Qed.

Lemma media_only_never E c m content fs :
  let g := foldl (attach E c) (mk_dc_gathered content [] [] fs) (dm_Attachments m) in
  dg_content g = "" → dg_media g = [].
Proof.
  assert (∀ l g, (dg_content g = "" → dg_media g = []) →
    dg_content (foldl (attach E c) g l) = "" → dg_media (foldl (attach E c) g l) = []) as H; [|by apply H].
  induction l as [|a l IH]; intros g Hg; cbn [foldl]; [done|]. apply IH. unfold attach.
  destruct (IsAudioFile _ _); [|intros Hc; by destruct (appendContent_ne _ _ (url_text_ne a) Hc)].
  destruct (download _ _ _ _) as [path fs']. destruct (bool_decide _); cbn [attach_url dg_content]; intros Hc.
  - by destruct (appendContent_ne _ _ (url_text_ne a) Hc).
  - destruct (appendContent_ne (dg_content g) (audio_text E c a path fs')); [|done].
    unfold audio_text. by destruct (transcription _ _ _ _) as [[]|].
Qed.

(** A message that is handled while the channel stops starts a loop after all were
    stopped. *)
Example typing_after_stop :
  unstopped_loops (foldl dc_apply bot0 [OpStop None; OpMessage no_media "BOT" (hello_in "C1") ∅]) = [0].
Proof. by vm_compute. Qed.

(** A channel that is not running drops the reply but stops the typing. *)
Example reply_dropped_typing_stopped :
  let '(sent, c) := Send_discord 10 (λ _ _, None) (mk_OutboundMessage "discord" "C1" "hi")
                      (dc_apply bot0 (OpMessage no_media "BOT" (hello_in "C1") ∅)) in
  sent = Sent (Some "discord bot not running") [] ∧ unstopped_loops c = [].
Proof. by vm_compute. Qed.

(** A transcribed file is not in the media of the message, and is removed when the
    message is published; an audio file without a transcriber is lost. *)
Example audio_lost :
  let E := mk_media_env "/tmp" true (λ _, "0123456789") (λ _, Some (mk_fetched 200 true (Some "data")))
             (λ _ _ _ _ _, Err "none") (λ _, Err "none") in
  let m := mk_dc_message "m1" (Some (mk_dc_author "U1" "ada" "0")) "C1" "" "" []
             [mk_dc_attachment "https://x/a.mp3" "a.mp3" "audio/mpeg"] in
  let h := handleMessage E "BOT" m bot0 ∅ in
  (λ i, (im_Content i, im_Media i)) <$> dh_message h = Some ("[audio: a.mp3]", []) ∧ dh_files h = ∅.
Proof. by vm_compute. Qed.

(** A chunk that fails leaves the reply half sent; the error is that of the whole. *)
Example half_a_reply :
  let content := implode (replicate 1790 "a"%char ++ [newline_char] ++ replicate 1790 "b"%char) in
  match (Send_discord 10 (λ _ t, if has_prefix t "b" then Some "rate limited" else None) (mk_OutboundMessage "discord" "C1" content)
          (with_base_discord (setRunning true (dc_base bot0)) bot0)).1 with
  | Sent (Some _) tried => length tried = 2
  | _ => False
  end.
Proof. by vm_compute. Qed.
