(* ===== verification/XMPP.v ===== *)
(** * The XMPP channel (pkg/channels/xmpp.go)

    Messages of users and of rooms become inbound messages, and replies are sent in
    chunks to the address they came from.  A relation gives the goroutines that receive
    and reconnect.  Addresses are those of the client library: a parameter. *)
From stdpp Require Import base gmap strings list relations.
From Stdlib Require Import Ascii ZArith Lia.
From S2P Require Import Prelude GoStrings Bus SplitMessage Channels Settings Adapters.
#[local] Open Scope nat_scope.

(** ** Addresses *)

(** The operations of the library's addresses that the code uses. *)
Class Addresses (jid : Type) := {
  jid_eq_dec :: EqDecision jid;
  jid_zero : jid;
  jid_parse : string → result string jid;
  jid_new : string → string → string → result string jid;
  jid_String : jid → string;
  jid_Bare : jid → jid;
  jid_Localpart : jid → string;
  jid_Domain : jid → string;
  jid_Resourcepart : jid → string;
}.

Section Channel.
Context {jid : Type} `{!Addresses jid}.

(** ** Data *)
Record XMPPChannel := mk_XMPPChannel {
  xc_base : BaseChannel;
  xc_Server : string;
  xc_MUCRooms : list string;
  xc_myJID : jid;
}.

(** A message as it is decoded; [xs_attrs] are the addresses and the type of its
    attributes, when they are well-formed. *)
Record xmpp_stanza := mk_xmpp_stanza {
  xs_Local : string;
  xs_decoded : bool;
  xs_From : jid;
  xs_To : jid;
  xs_Type : string;
  xs_Body : string;
  xs_attrs : option (jid * jid * string);
}.

Definition ChatMessage : string := "chat".
Definition GroupChatMessage : string := "groupchat".

Definition NewXMPPChannel (cfg : XMPPConfig) : result string XMPPChannel :=
  if bool_decide (xm_JID cfg = "") then Err "xmpp jid is required"
  else if bool_decide (xm_Password cfg = "") then Err "xmpp password is required"
  else
    match jid_parse (xm_JID cfg) with
    | Err e => Err ("invalid xmpp jid: " +:+ e)
    | Ok parsed =>
        Ok (mk_XMPPChannel (NewBaseChannel "xmpp" (xm_AllowFrom cfg)) (xm_Server cfg) (xm_MUCRooms cfg) parsed)
    end.

Definition serverAddr (c : XMPPChannel) : string :=
  if bool_decide (xc_Server c = "") then ""
  else if contains (xc_Server c) ":" then xc_Server c else xc_Server c +:+ ":5222".

(** ** Rooms *)
Definition room_nick (c : XMPPChannel) : string :=
  if bool_decide (jid_Localpart (xc_myJID c) = "") then "tinyclaw" else jid_Localpart (xc_myJID c).

(** The addresses that presence is sent to: rooms that are not well-formed are passed
    over. *)
Definition joinMUCRooms (c : XMPPChannel) : list jid :=
  omap (λ room,
    match jid_parse room with
    | Err _ => None
    | Ok r => match jid_new (jid_Localpart r) (jid_Domain r) (room_nick c) with Ok full => Some full | Err _ => None end
    end) (xc_MUCRooms c).

Definition is_room (c : XMPPChannel) (to : jid) : bool :=
  existsb (λ room, match jid_parse room with Ok r => bool_decide (jid_Bare to = jid_Bare r) | Err _ => false end)
    (xc_MUCRooms c).

(** ** Sending *)
Definition xmppMessageMaxLen : Z := 65536.

Record xmpp_out := mk_xmpp_out { xo_To : jid; xo_From : jid; xo_Type : string; xo_Body : string }.

Definition out_of (c : XMPPChannel) (to : jid) (content : string) : xmpp_out :=
  mk_xmpp_out to (xc_myJID c) (if is_room c to then GroupChatMessage else ChatMessage) content.

(** [session] is how the session answers, and [None] when there is none. *)
Definition sendMessage (session : option (xmpp_out → option string)) (c : XMPPChannel) (to : jid) (content : string) :
    option string :=
  match session with
  | None => Some "xmpp session not available"
  | Some send =>
      match send (out_of c to content) with
      | Some e => Some ("failed to send xmpp message: " +:+ e)
      | None => None
      end
  end.

Definition Send_xmpp (fuel : nat) (session : option (xmpp_out → option string)) (msg : OutboundMessage) (c : XMPPChannel) :
    sending :=
  if negb (bc_running (xc_base c)) then Sent (Some "xmpp channel not running") []
  else
    match jid_parse (om_ChatID msg) with
    | Err e => Sent (Some ("invalid recipient jid: " +:+ e)) []
    | Ok to =>
        if bool_decide (om_Content msg = "") then Sent None []
        else send_split fuel xmppMessageMaxLen (sendMessage session c to) (om_Content msg)
    end.

(** ** Receiving *)
Definition populateMessageAttrs (s : xmpp_stanza) : xmpp_stanza :=
  if negb (bool_decide (xs_From s = jid_zero)) && negb (bool_decide (xs_To s = jid_zero)) then s
  else
    match xs_attrs s with
    | None => s
    | Some (from, to, type) =>
        mk_xmpp_stanza (xs_Local s) (xs_decoded s)
          (if bool_decide (xs_From s = jid_zero) then from else xs_From s)
          (if bool_decide (xs_To s = jid_zero) then to else xs_To s)
          (if bool_decide (xs_Type s = "") then type else xs_Type s) (xs_Body s) (xs_attrs s)
    end.

Definition xmpp_metadata (s : xmpp_stanza) : gmap string string :=
  let m : gmap string string :=
    {[ "jid" := jid_String (xs_From s); "bare_jid" := jid_String (jid_Bare (xs_From s));
       "peer_kind" := if bool_decide (xs_Type s = GroupChatMessage) then "groupchat" else "direct" ]} in
  if bool_decide (jid_Resourcepart (xs_From s) = "") then m else <["resource" := jid_Resourcepart (xs_From s)]> m.

Definition handleIncoming (s : xmpp_stanza) (c : XMPPChannel) : option InboundMessage :=
  let from := xs_From s in
  if bool_decide (from = jid_zero) then None
  else
    let senderID := jid_String (jid_Bare from) in
    if bool_decide (jid_Bare from = jid_Bare (xc_myJID c)) then None
    else if negb (IsAllowed (xc_base c) senderID) then None
    else HandleMessage (xc_base c) senderID senderID (xs_Body s) [] (xmpp_metadata s).

(** The handler of the receive loop, while its context is not done. *)
Definition receive (s : xmpp_stanza) (c : XMPPChannel) : option InboundMessage :=
  if negb (bool_decide (xs_Local s = "message")) then None
  else if negb (xs_decoded s) then None
  else
    let s := populateMessageAttrs s in
    if bool_decide (xs_Body s = "") then None
    else if negb (bool_decide (xs_Type s = ChatMessage)) && negb (bool_decide (xs_Type s = GroupChatMessage)) then None
    else handleIncoming s c.

(** ** Theorems *)

(** What the library documents of its addresses: an address is read back from its text,
    and a bare address is its own. *)
Class AddressLaws := {
  parse_String : ∀ j, j ≠ jid_zero → jid_parse (jid_String j) = Ok j;
  Bare_nonzero : ∀ j, j ≠ jid_zero → jid_Bare j ≠ jid_zero;
}.

Lemma populate_Body s : xs_Body (populateMessageAttrs s) = xs_Body s.
Proof. unfold populateMessageAttrs. destruct (_ && _); [done|]. by destruct (xs_attrs s) as [[[??]?]|]. Qed.

(** An inbound message has a text, names the bare address it came from, which is
    allowed, and does not come from the address of the channel. *)
Lemma xmpp_message_of s c inb :
  receive s c = Some inb →
  let from := xs_From (populateMessageAttrs s) in
  from ≠ jid_zero ∧ jid_Bare from ≠ jid_Bare (xc_myJID c) ∧
  im_ChatID inb = jid_String (jid_Bare from) ∧ im_SenderID inb = jid_String (jid_Bare from) ∧
  IsAllowed (xc_base c) (jid_String (jid_Bare from)) = true ∧ im_Content inb = xs_Body s ∧ xs_Body s ≠ "".
Proof.
  unfold receive. destruct (negb _); [done|]. destruct (negb _); [done|]. rewrite populate_Body.
  case_bool_decide as Hb; [done|]. destruct (_ && _); [done|]. unfold handleIncoming.
  case_bool_decide as Hz; [done|]. case_bool_decide as Hm; [done|]. destruct (IsAllowed _ _) eqn:Ha; cbn [negb]; [|done].
  unfold HandleMessage. rewrite Ha, populate_Body. by intros [= <-].
Qed.

(** A reply goes to the bare address the message came from, of the kind of the room if
    it is one, in chunks within the limit. *)
Lemma xmpp_reply_goes_back `{!AddressLaws} s c inb content c' fuel send e tried :
  receive s c = Some inb →
  Send_xmpp fuel (Some send) (mk_OutboundMessage (im_Channel inb) (im_ChatID inb) content) c' = Sent e tried →
  Forall (λ m, (zlen (chars m) <= xmppMessageMaxLen)%Z) tried ∧
  (bc_running (xc_base c') = true → e = None →
   Forall (λ m, send (out_of c' (jid_Bare (xs_From (populateMessageAttrs s))) m) = None) tried).
Proof.
  intros (Hz & _ & Hc & _)%xmpp_message_of. unfold Send_xmpp. cbn [om_ChatID om_Content]. rewrite Hc.
  rewrite parse_String by by apply Bare_nonzero.
  destruct (bc_running (xc_base c')); cbn [negb]; [|intros [= <- <-]; split; [constructor|done]].
  destruct (bool_decide _); [intros [= <- <-]; split; constructor|]. intros Hs. split.
  - pose proof (send_split_bounded fuel xmppMessageMaxLen (sendMessage (Some send) c' (jid_Bare (xs_From (populateMessageAttrs s))))
      content ltac:(done)) as Hb. by rewrite Hs in Hb.
  - intros _ ->. unfold send_split in Hs. destruct (SplitMessage _ _ _) as [| |messages]; [done..|].
    destruct (send_chunks _ _) as [e' tried'] eqn:Es. injection Hs as -> ->.
    apply send_chunks_spec in Es as (_ & -> & Hf). eapply Forall_impl; [exact Hf|]. intros m. cbn [sendMessage].
    by destruct (send _).
Qed.
End Channel.

(** ** Addresses as texts *)

(** The bare part, which holds no slash, and the resource: an instance that has the
    laws.  Only the empty address has an empty bare part. *)
Definition address_form (p : string * string) : Prop := "/"%char ∉ chars p.1 ∧ (p.1 = "" → p.2 = "").
#[export] Instance address_form_dec p : Decision (address_form p).
Proof. unfold address_form. apply _. Defined.
Definition text_jid : Type := dsig address_form.
Definition text_of (bare resource : string) : result string text_jid :=
  match decide (address_form (bare, resource)) with
  | left H => Ok (dexist (bare, resource) H)
  | right _ => Err "address"
  end.
Definition at_sign (s : string) : string * string :=
  match cut s "@" with Some (l, d) => (l, d) | None => ("", s) end.

Lemma bare_form (j : text_jid) : address_form ((`j).1, "").
Proof. split; [apply (proj2_dsig j)|done]. Qed.
Lemma zero_form : address_form ("", "").
Proof. split; [apply not_elem_of_nil|done]. Qed.

#[export] Instance text_addresses : Addresses text_jid := {|
  jid_zero := dexist ("", "") zero_form;
  jid_parse s := match cut s "/" with Some (b, r) => text_of b r | None => text_of s "" end;
  jid_new l d r := text_of (if bool_decide (l = "") then d else l +:+ "@" +:+ d) r;
  jid_String j := if bool_decide ((`j).2 = "") then (`j).1 else (`j).1 +:+ "/" +:+ (`j).2;
  jid_Bare j := dexist ((`j).1, "") (bare_form j);
  jid_Localpart j := (at_sign (`j).1).1;
  jid_Domain j := (at_sign (`j).1).2;
  jid_Resourcepart j := (`j).2;
|}.

Lemma text_of_Ok bare resource (j : text_jid) : `j = (bare, resource) → text_of bare resource = Ok j.
Proof.
  intros Hj. pose proof (proj2_dsig j) as Hn. rewrite Hj in Hn. unfold text_of.
  destruct (decide (address_form (bare, resource))) as [H|H]; [|done]. f_equal. apply dsig_eq. by rewrite Hj.
Qed.

#[export] Instance text_laws : AddressLaws (jid := text_jid).
Proof.
  split.
  - intros j _. cbn [jid_parse jid_String text_addresses]. destruct (`j) as [b r] eqn:E. cbn [fst snd]. pose proof (proj2_dsig j) as [Hn _]. rewrite E in Hn. cbn in Hn.
    case_bool_decide as Hr.
    + unfold cut. rewrite (proj2 (cut_l_None _ _)) by done. cbn. apply text_of_Ok. by rewrite E, Hr.
    + change (b +:+ "/" +:+ r) with (b +:+ String "/" r). rewrite cut_app by done. by apply text_of_Ok.
  - intros j Hj H. apply Hj. apply dsig_eq. apply (f_equal (λ j : text_jid, (`j).1)) in H. cbn in H |- *.
    pose proof (proj2_dsig j) as [_ Hz]. destruct (`j) as [b r]. cbn in *. by rewrite H, Hz.
Qed.

(** ** Where the channel departs from what it means to do *)
Section Findings.
Let room_bot : option (XMPPChannel (jid := text_jid)) :=
  match NewXMPPChannel (mk_XMPPConfig true "" "bot@srv" "secret" false ["room@conf"] []) with Ok c => Some c | Err _ => None end.
Let from_to (from : string) (type body : string) : option (xmpp_stanza (jid := text_jid)) :=
  match jid_parse from, jid_parse "bot@srv" with
  | Ok f, Ok t => Some (mk_xmpp_stanza "message" true f t type body None)
  | _, _ => None
  end.
Let received (from type body : string) : option (string * string) :=
  c ← room_bot; s ← from_to from type body; i ← receive s c; Some (im_SenderID i, im_Content i).

(** The room sends back what the channel says: it comes from the address of the room,
    which is not that of the channel, and the agent answers itself. *)
Example echo_answered : received "room@conf/bot" "groupchat" "what I said" = Some ("room@conf", "what I said").
Proof. by vm_compute. Qed.

(** Whoever speaks in a room is the room to the allowlist: all are allowed or none. *)
Example room_is_the_sender :
  received "room@conf/ada" "groupchat" "hi" = Some ("room@conf", "hi") ∧
  received "room@conf/eve" "groupchat" "hi" = Some ("room@conf", "hi").
Proof. by vm_compute. Qed.

(** A private message of a member of a room comes from the same bare address, and its
    answer is sent to the room for everyone. *)
Example private_reply_to_room :
  received "room@conf/ada" "chat" "a secret" = Some ("room@conf", "a secret") ∧
  (c ← room_bot; match jid_parse "room@conf" with Ok to => Some (xo_Type (out_of c to "the answer")) | Err _ => None end) =
    Some "groupchat".
Proof. by vm_compute. Qed.
End Findings.

(** The answer to a message from a room that is configured is always for the room. *)
Lemma reply_for_everyone {jid} `{!Addresses jid} (c : XMPPChannel) (room content : string) r from :
  room ∈ xc_MUCRooms c → jid_parse room = Ok r → jid_Bare (jid_Bare from) = jid_Bare r →
  xo_Type (out_of c (jid_Bare from) content) = GroupChatMessage.
Proof.
  intros Hin Hp Hb. unfold out_of. cbn. assert (is_room c (jid_Bare from) = true) as ->; [|done].
  unfold is_room. apply existsb_exists. exists room. split; [by apply list_elem_of_In|].
  rewrite Hp. by apply bool_decide_eq_true.
Qed.

(** ** Connections *)

(** A goroutine of [receiveLoop] before it reads the session and while it serves one,
    or of [reconnectLoop] between attempts and while it connects. *)
Inductive worker := FreshReceiver | Serving (session : nat) | BetweenAttempts | Connecting.

(** Sessions are numbered as they are made.  [cn_started] and [cn_stopped]: [Start] has
    succeeded, and [Stop] was called. *)
Record connection := mk_connection {
  cn_started : bool;
  cn_stopped : bool;
  cn_running : bool;
  cn_session : option nat;
  cn_made : nat;
  cn_workers : list worker;
}.
Definition new_connection : connection := mk_connection false false false None 0 [].

Definition set_workers (l : list worker) (c : connection) : connection :=
  mk_connection (cn_started c) (cn_stopped c) (cn_running c) (cn_session c) (cn_made c) l.
(** [connectWithCtx] stores a new session. *)
Definition connected (l : list worker) (c : connection) : connection :=
  mk_connection (cn_started c) (cn_stopped c) (cn_running c) (Some (cn_made c)) (S (cn_made c)) l.

Inductive connection_step : connection → connection → Prop :=
| cs_start c :
    cn_started c = false → cn_stopped c = false →
    connection_step c (mk_connection true false true (Some (cn_made c)) (S (cn_made c)) (cn_workers c ++ [FreshReceiver]))
| cs_read_session l1 l2 c :
    cn_workers c = l1 ++ FreshReceiver :: l2 →
    connection_step c (set_workers (match cn_session c with Some n => l1 ++ Serving n :: l2 | None => l1 ++ l2 end) c)
| cs_serve_ends (err : bool) n l1 l2 c :
    cn_workers c = l1 ++ Serving n :: l2 →
    connection_step c (set_workers (if err && cn_running c then l1 ++ BetweenAttempts :: l2 else l1 ++ l2) c)
| cs_give_up l1 l2 c :
    cn_workers c = l1 ++ BetweenAttempts :: l2 → cn_running c = false ∨ cn_stopped c = true →
    connection_step c (set_workers (l1 ++ l2) c)
| cs_attempt l1 l2 c :
    cn_workers c = l1 ++ BetweenAttempts :: l2 → connection_step c (set_workers (l1 ++ Connecting :: l2) c)
| cs_fails l1 l2 c :
    cn_workers c = l1 ++ Connecting :: l2 → connection_step c (set_workers (l1 ++ BetweenAttempts :: l2) c)
| cs_connects l1 l2 c :
    cn_workers c = l1 ++ Connecting :: l2 → connection_step c (connected (l1 ++ FreshReceiver :: l2) c)
| cs_stop c :
    connection_step c (mk_connection (cn_started c) true false None (cn_made c) (cn_workers c)).

(** At most one goroutine, none before the start; until the channel is stopped, the one
    that serves has the session that replies are sent on. *)
Record connection_ok (c : connection) : Prop := {
  ck_one : length (cn_workers c) ≤ 1;
  ck_none : cn_started c = false → cn_workers c = [];
  ck_current : cn_stopped c = false → ∀ n, Serving n ∈ cn_workers c → cn_session c = Some n;
  ck_stopped : cn_stopped c = true → cn_running c = false;
}.

Lemma one_worker {A} (l : list A) l1 x l2 : length l ≤ 1 → l = l1 ++ x :: l2 → l1 = [] ∧ l2 = [].
Proof. intros H ->. rewrite length_app in H. cbn in H. destruct l1, l2; cbn in H; [done|lia..]. Qed.

Lemma connection_step_ok c c' : connection_ok c → connection_step c c' → connection_ok c'.
Proof.
  intros [H1 H2 H3 H4] Hs.
  destruct Hs as [c Hst Hsp|l1 l2 c Hw|err n l1 l2 c Hw|l1 l2 c Hw Hg|l1 l2 c Hw|l1 l2 c Hw|l1 l2 c Hw|c];
    try (destruct (one_worker _ _ _ _ H1 Hw) as [-> ->]; cbn [app] in * ).
  - rewrite (H2 Hst). split; cbn; [lia|done|set_solver|done].
  - assert (cn_started c = true) as Hst by (destruct (cn_started c); [done|by rewrite H2 in Hw]).
    destruct (cn_session c) as [n|] eqn:En; split; cbn; rewrite ?En, ?Hst; try done; try lia; set_solver.
  - assert (cn_started c = true) as Hst by (destruct (cn_started c); [done|by rewrite H2 in Hw]).
    destruct (err && cn_running c); split; cbn; rewrite ?Hst; try done; try lia; set_solver.
  - split; cbn; [lia|done|set_solver|done].
  - assert (cn_started c = true) as Hst by (destruct (cn_started c); [done|by rewrite H2 in Hw]).
    split; cbn; rewrite ?Hst; try done; try lia; set_solver.
  - assert (cn_started c = true) as Hst by (destruct (cn_started c); [done|by rewrite H2 in Hw]).
    split; cbn; rewrite ?Hst; try done; try lia; set_solver.
  - assert (cn_started c = true) as Hst by (destruct (cn_started c); [done|by rewrite H2 in Hw]).
    split; cbn; rewrite ?Hst; try done; try lia; set_solver.
  - by split.
Qed.

Lemma connection_reachable_ok c : rtc connection_step new_connection c → connection_ok c.
Proof.
  intros H. assert (connection_ok new_connection) as H0 by (split; cbn; [lia|done|set_solver|done]).
  induction H as [|c c1 c2 Hs _ IH]; [done|]. apply IH. by eapply connection_step_ok.
Qed.

(** A stream that the server closes in order ends the loop without an error: the channel
    says that it is running, and receives nothing any more. *)
Lemma closed_stream_not_reconnected :
  rtc connection_step new_connection (mk_connection true false true (Some 0) 1 []).
Proof.
  eapply rtc_l; [by apply cs_start|]. eapply rtc_l; [by apply (cs_read_session [] [])|].
  eapply rtc_l; [by apply (cs_serve_ends false 0 [] [])|]. apply rtc_refl.
Qed.

(** A connection that is made while the channel stops is kept: nothing closes it. *)
Lemma session_after_stop :
  rtc connection_step new_connection (mk_connection true true false (Some 1) 2 [FreshReceiver]).
Proof.
  eapply rtc_l; [by apply cs_start|]. eapply rtc_l; [by apply (cs_read_session [] [])|].
  eapply rtc_l; [by apply (cs_serve_ends true 0 [] [])|]. eapply rtc_l; [by apply (cs_attempt [] [])|].
  eapply rtc_l; [by apply cs_stop|]. eapply rtc_l; [by apply (cs_connects [] [])|]. apply rtc_refl.
Qed.
