(* ===== verification/Platforms.v ===== *)
(** * Channels that are thin layers over a client (pkg/channels)

    whatsapp.go, maixcam.go, qq.go, dingtalk.go and feishu_64.go: each has a Module with
    its state, how it sends, and what it makes of the events of its platform. *)
From stdpp Require Import base gmap strings list fin_sets.
From Stdlib Require Import Ascii ZArith Lia.
From S2P Require Import Prelude GoStrings ProviderTypes Bus Channels Settings.
#[local] Open Scope nat_scope.

(** A message that a channel hands on: its sender is allowed, and it is what the channel
    said. *)
Lemma handed_on c sender chat content media meta inb :
  HandleMessage c sender chat content media meta = Some inb →
  IsAllowed c sender = true ∧ inb = mk_InboundMessage (bc_name c) sender chat content media "" meta.
Proof. unfold HandleMessage. destruct (IsAllowed c sender); cbn [negb]; [by intros [= <-]|done]. Qed.

(** The kind of a chat and the identifier of its peer. *)
Definition peer_metadata (kind id : string) (m : gmap string string) : gmap string string :=
  <["peer_kind" := kind]> (<["peer_id" := id]> m).

(** A field is recorded when it is a text. *)
Definition record_text (k : string) (v : option string) (m : gmap string string) : gmap string string :=
  match v with Some t => <[k := t]> m | None => m end.

(** ** WhatsApp: a bridge on a websocket *)
Module WhatsApp.

(** [wa_conn]: the connection is there.  Its state is that of the library. *)
Record WhatsAppChannel := mk_WhatsAppChannel { wa_base : BaseChannel; wa_conn : bool; wa_connected : bool }.

Definition NewWhatsAppChannel (cfg : WhatsAppConfig) : WhatsAppChannel :=
  mk_WhatsAppChannel (NewBaseChannel "whatsapp" (wa_AllowFrom cfg)) false false.

Definition Start (dial : option string) (c : WhatsAppChannel) : option string * WhatsAppChannel :=
  match dial with
  | Some e => (Some ("failed to connect to WhatsApp bridge: " +:+ e), c)
  | None => (None, mk_WhatsAppChannel (setRunning true (wa_base c)) true true)
  end.
Definition Stop (c : WhatsAppChannel) : WhatsAppChannel :=
  mk_WhatsAppChannel (setRunning false (wa_base c)) false false.

(** [write] is the answer of the connection to a message. *)
Definition Send (write : json → option string) (msg : OutboundMessage) (c : WhatsAppChannel) : option string * list json :=
  if negb (wa_conn c) then (Some "whatsapp connection not established", [])
  else
    let payload := JObj [("content", JStr (om_Content msg)); ("to", JStr (om_ChatID msg)); ("type", JStr "message")] in
    (match write payload with Some e => Some ("failed to send message: " +:+ e) | None => None end, [payload]).

Definition texts (l : list json) : list string := omap (λ v, match v with JStr s => Some s | _ => None end) l.

Definition handleIncomingMessage (msg : gmap string json) (c : WhatsAppChannel) : option InboundMessage :=
  match arg_string msg "from" with
  | None => None
  | Some senderID =>
      let chatID := default senderID (arg_string msg "chat") in
      let content := default "" (arg_string msg "content") in
      let media := match msg !! "media" with Some (JArr l) => texts l | _ => [] end in
      let metadata := record_text "message_id" (arg_string msg "id") ∅ in
      let metadata := record_text "user_name" (arg_string msg "from_name") metadata in
      let metadata := if bool_decide (chatID = senderID) then peer_metadata "direct" senderID metadata
                      else peer_metadata "group" chatID metadata in
      HandleMessage (wa_base c) senderID chatID content media metadata
  end.

(** What a round of [listen] meets: its context is done, or a read fails or gives a
    message, [None] when it is no object.  A read is tried only on a connection. *)
Inductive reading := ReadFails | ReadGives (msg : option (gmap string json)).
Definition listen_round (r : reading) (c : WhatsAppChannel) : option InboundMessage :=
  if negb (wa_conn c) then None
  else
    match r with
    | ReadFails => None
    | ReadGives None => None
    | ReadGives (Some msg) =>
        match arg_string msg "type" with
        | Some t => if bool_decide (t = "message") then handleIncomingMessage msg c else None
        | None => None
        end
    end.

(** A reply names the chat of the message: its chat, or else its sender. *)
Lemma whatsapp_reply_goes_back r c inb content c' write e payloads :
  listen_round r c = Some inb →
  Send write (mk_OutboundMessage (im_Channel inb) (im_ChatID inb) content) c' = (e, payloads) →
  ∃ msg sender, r = ReadGives (Some msg) ∧ arg_string msg "from" = Some sender ∧ IsAllowed (wa_base c) sender = true ∧
    Forall (λ p, ∃ rest, p = JObj [("content", JStr content); ("to", JStr (default sender (arg_string msg "chat"))); rest]) payloads.
Proof.
  unfold listen_round. destruct (wa_conn c); cbn [negb]; [|done]. destruct r as [|[msg|]]; [done| |done].
  destruct (arg_string msg "type") as [t|]; [|done]. destruct (bool_decide _); [|done].
  unfold handleIncomingMessage. destruct (arg_string msg "from") as [sender|] eqn:Es; [|done].
  intros [Ha ->]%handed_on. cbn [im_ChatID]. unfold Send. cbn [om_ChatID om_Content]. intros Hs.
  exists msg, sender. split_and!; [done..|]. destruct (negb _); simplify_eq/=; [constructor|].
  constructor; [by eexists|constructor].
Qed.

(** A connection that is lost is read again and again: it is never dialed anew, and
    nothing is received until the channel is stopped and started. *)
Lemma lost_connection_kept c n : Forall (λ r, listen_round r c = None) (replicate n ReadFails).
Proof. apply Forall_replicate. unfold listen_round. by destruct (negb _). Qed.
End WhatsApp.

(** ** MaixCam: a server for cameras *)
Module MaixCam.
Section MaixCam.

(** Numbers of the device, and how they are written. *)
Context {F : Type} (zero : F) (percent : F → F) (fmt0 fmt2 : F → string).
Context {V : Type}.

Inductive value := VNum (x : F) | VText (s : string) | VOther (v : V).

(** [fmt.Sprintf] with a verb for numbers of a value that is none, or of no value. *)
Context (fmt_other : option value → string).

(** [mc_clients]: the connections, numbered as they are accepted. *)
Record MaixCamChannel := mk_MaixCamChannel { mc_base : BaseChannel; mc_clients : gset nat }.
Record MaixCamMessage := mk_MaixCamMessage {
  mm_Type : string;
  mm_Timestamp : F;
  mm_Data : gmap string value;
}.

Definition NewMaixCamChannel (cfg : MaixCamConfig) : MaixCamChannel :=
  mk_MaixCamChannel (NewBaseChannel "maixcam" (mx_AllowFrom cfg)) ∅.
Definition Start (listening : option string) (c : MaixCamChannel) : option string * MaixCamChannel :=
  match listening with
  | Some e => (Some ("failed to listen: " +:+ e), c)
  | None => (None, mk_MaixCamChannel (setRunning true (mc_base c)) (mc_clients c))
  end.

(** A connection is accepted, and ends. *)
Definition accept (conn : nat) (c : MaixCamChannel) : MaixCamChannel :=
  mk_MaixCamChannel (mc_base c) ({[conn]} ∪ mc_clients c).
Definition connection_ends (conn : nat) (c : MaixCamChannel) : MaixCamChannel :=
  mk_MaixCamChannel (mc_base c) (mc_clients c ∖ {[conn]}).

(** The channel without clients, and the connections that are closed. *)
Definition Stop (c : MaixCamChannel) : MaixCamChannel * gset nat :=
  (mk_MaixCamChannel (setRunning false (mc_base c)) ∅, mc_clients c).

(** [order] enumerates the clients as the map is iterated, [write] is the error of
    writing to one.  The last error is returned. *)
Definition Send (order : list nat) (write : nat → option string) (c : MaixCamChannel) : option string :=
  if negb (bc_running (mc_base c)) then Some "maixcam channel not running"
  else if bool_decide (mc_clients c = ∅) then Some "no connected MaixCam devices"
  else foldl (λ e conn, match write conn with Some e' => Some e' | None => e end) None order.

Definition number (k : string) (m : gmap string value) : F :=
  match m !! k with Some (VNum x) => x | _ => zero end.
Definition format_number (k : string) (m : gmap string value) : string :=
  match m !! k with
  | Some (VNum x) => fmt0 x
  | v => fmt_other v
  end.
Definition newline : string := String newline_char "".

Definition handlePersonDetection (msg : MaixCamMessage) (c : MaixCamChannel) : option InboundMessage :=
  let data := mm_Data msg in
  let classInfo := match data !! "class_name" with Some (VText s) => s | _ => "person" end in
  let content :=
    "📷 Person detected!" +:+ newline +:+ "Class: " +:+ classInfo +:+ newline +:+
    "Confidence: " +:+ fmt2 (percent (number "score" data)) +:+ "%" +:+ newline +:+
    "Position: (" +:+ fmt0 (number "x" data) +:+ ", " +:+ fmt0 (number "y" data) +:+ ")" +:+ newline +:+
    "Size: " +:+ fmt0 (number "w" data) +:+ "x" +:+ fmt0 (number "h" data) in
  let metadata : gmap string string :=
    {[ "timestamp" := fmt0 (mm_Timestamp msg); "class_id" := format_number "class_id" data;
       "score" := fmt2 (number "score" data); "x" := fmt0 (number "x" data); "y" := fmt0 (number "y" data);
       "w" := fmt0 (number "w" data); "h" := fmt0 (number "h" data) ]} in
  HandleMessage (mc_base c) "maixcam" "default" content [] (peer_metadata "channel" "default" metadata).

Definition processMessage (msg : MaixCamMessage) (c : MaixCamChannel) : option InboundMessage :=
  if bool_decide (mm_Type msg = "person_detected") then handlePersonDetection msg c else None.

(** The loop of a connection: what is decoded, until something is not. *)
Fixpoint handleConnection (msgs : list (option MaixCamMessage)) (c : MaixCamChannel) : list InboundMessage :=
  match msgs with
  | Some msg :: rest => option_list (processMessage msg c) ++ handleConnection rest c
  | _ => []
  end.

(** Everything comes from one sender: an allowlist that does not name it lets nothing in. *)
Lemma maixcam_one_sender msg c inb :
  processMessage msg c = Some inb → im_SenderID inb = "maixcam" ∧ im_ChatID inb = "default" ∧ IsAllowed (mc_base c) "maixcam" = true.
Proof.
  unfold processMessage. destruct (bool_decide _); [|done]. unfold handlePersonDetection. by intros [? ->]%handed_on.
Qed.

(** A reply is written to every device; it succeeds if all writes do, and an error is
    one of theirs. *)
Lemma maixcam_send order write c e :
  (∀ conn, conn ∈ order ↔ conn ∈ mc_clients c) → bc_running (mc_base c) = true → mc_clients c ≠ ∅ →
  Send order write c = e →
  match e with
  | None => ∀ conn, conn ∈ mc_clients c → write conn = None
  | Some err => ∃ conn, conn ∈ mc_clients c ∧ write conn = Some err
  end.
Proof.
  intros Ho Hr Hc. unfold Send. rewrite Hr, bool_decide_eq_false_2 by done. cbn [negb]. intros <-.
  assert (∀ l e0, match foldl (λ e conn, match write conn with Some e' => Some e' | None => e end) e0 l with
    | None => e0 = None ∧ ∀ conn, conn ∈ l → write conn = None
    | Some err => e0 = Some err ∨ ∃ conn, conn ∈ l ∧ write conn = Some err end) as H.
  { induction l as [|x l IH]; intros e0; cbn [foldl].
    - destruct e0; [by left|]. split; [done|]. by intros ? ?%not_elem_of_nil.
    - specialize (IH (match write x with Some e' => Some e' | None => e0 end)). destruct (foldl _ _ l) as [err|].
      + destruct IH as [IH|(conn & Hin & Hw)].
        * destruct (write x) eqn:Ex; [|by left]. right. exists x. split; [by left|congruence].
        * right. exists conn. split; [by right|done].
      + destruct IH as [IH Hl]. destruct (write x) eqn:Ex; [done|]. split; [done|].
        intros conn [->|Hin]%elem_of_cons; [done|by apply Hl]. }
  specialize (H order None). destruct (foldl _ _ _) as [err|].
  - destruct H as [H|(conn & Hin & Hw)]; [done|]. exists conn. by rewrite <- Ho.
  - intros conn Hin. apply H. by rewrite Ho.
Qed.

(** A connection that is accepted while the channel stops stays open. *)
Lemma accepted_while_stopping conn c : conn ∉ mc_clients c →
  let '(c', closed) := Stop c in conn ∈ mc_clients (accept conn c') ∧ conn ∉ closed.
Proof. intros H. cbn. set_solver. Qed.
End MaixCam.
End MaixCam.

(** ** QQ *)
Module QQ.

(** [processedIDs] holds no entry that is false. *)
Record QQChannel := mk_QQChannel { qc_base : BaseChannel; qc_config : QQConfig; qc_processedIDs : gset string }.

Definition NewQQChannel (cfg : QQConfig) : QQChannel :=
  mk_QQChannel (NewBaseChannel "qq" (qq_AllowFrom cfg)) cfg ∅.
Definition with_running (r : bool) (c : QQChannel) : QQChannel :=
  mk_QQChannel (setRunning r (qc_base c)) (qc_config c) (qc_processedIDs c).

(** [refresh] and [ws] are the errors of the token and of the address of the websocket. *)
Definition Start (refresh ws : option string) (c : QQChannel) : option string * QQChannel :=
  if bool_decide (qq_AppID (qc_config c) = "") || bool_decide (qq_AppSecret (qc_config c) = "")
  then (Some "QQ app_id and app_secret not configured", c)
  else
    match refresh, ws with
    | Some e, _ => (Some ("failed to start token refresh: " +:+ e), c)
    | None, Some e => (Some ("failed to get websocket info: " +:+ e), c)
    | None, None => (None, with_running true c)
    end.
(** The session ends with an error, in its goroutine. *)
Definition session_fails (c : QQChannel) : QQChannel := with_running false c.
Definition Stop (c : QQChannel) : QQChannel := with_running false c.

(** Requests: a message to a user, by the identifier of the user. *)
Record c2c := mk_c2c { c2c_user : string; c2c_content : string }.
Definition Send (post : c2c → option string) (msg : OutboundMessage) (c : QQChannel) : option string * list c2c :=
  if negb (bc_running (qc_base c)) then (Some "QQ bot not running", [])
  else let r := mk_c2c (om_ChatID msg) (om_Content msg) in (post r, [r]).

Section Duplicates.
(** The order in which the map is iterated. *)
Context (order : gset string → list string).

Definition isDuplicate (messageID : string) (c : QQChannel) : bool * QQChannel :=
  if bool_decide (messageID ∈ qc_processedIDs c) then (true, c)
  else
    let ids := {[messageID]} ∪ qc_processedIDs c in
    let ids := if bool_decide (10000 < Z.of_nat (size ids))%Z then ids ∖ list_to_set (take (Z.to_nat 5000) (order ids)) else ids in
    (false, mk_QQChannel (qc_base c) (qc_config c) ids).

(** A message to the bot, or one that mentions it in a group. *)
Record qq_message := mk_qq_message {
  qm_ID : string;
  qm_Author : option string;
  qm_Content : string;
  qm_Group : option string;
}.

Definition qq_metadata (m : qq_message) (senderID : string) : gmap string string :=
  match qm_Group m with
  | None => peer_metadata "direct" senderID {[ "message_id" := qm_ID m ]}
  | Some group => peer_metadata "group" group {[ "message_id" := qm_ID m; "group_id" := group ]}
  end.

(** [handleC2CMessage] and [handleGroupATMessage]. *)
Definition handle (m : qq_message) (c : QQChannel) : QQChannel * option InboundMessage :=
  let '(dup, c) := isDuplicate (qm_ID m) c in
  if dup then (c, None)
  else
    let senderID := default "" (qm_Author m) in
    if bool_decide (senderID = "") then (c, None)
    else if bool_decide (qm_Content m = "") then (c, None)
    else (c, HandleMessage (qc_base c) senderID (default senderID (qm_Group m)) (qm_Content m) [] (qq_metadata m senderID)).

Lemma handle_ids m c : qc_processedIDs (handle m c).1 = qc_processedIDs (isDuplicate (qm_ID m) c).2.
Proof.
  unfold handle. destruct (isDuplicate _ c) as [[] c']; [done|]. destruct (bool_decide _); [done|].
  by destruct (bool_decide _).
Qed.

(** The set is kept within its bound. *)
Context (order_ok : ∀ s, order s ≡ₚ elements s).

Lemma isDuplicate_bounded m c :
  (Z.of_nat (size (qc_processedIDs c)) <= 10000 → Z.of_nat (size (qc_processedIDs (isDuplicate m c).2)) <= 10000)%Z.
Proof.
  intros H. unfold isDuplicate. case_bool_decide as Hin; [done|]. cbn.
  assert (size ({[m]} ∪ qc_processedIDs c) = S (size (qc_processedIDs c))) as Hs
    by (rewrite size_union by set_solver; by rewrite size_singleton).
  case_bool_decide as Hb; [|lia]. set (ids := {[m]} ∪ qc_processedIDs c) in *.
  assert (size (list_to_set (C := gset string) (take (Z.to_nat 5000) (order ids))) = Z.to_nat 5000) as Ht.
  { rewrite size_list_to_set.
    - rewrite length_take, (order_ok ids). change (length (elements ids)) with (size ids). lia.
    - apply (sublist_NoDup _ (order ids)); [|apply sublist_take]. rewrite (order_ok ids). apply NoDup_elements. }
  rewrite size_difference; [lia|]. intros x Hx%elem_of_list_to_set. apply elem_of_elements. rewrite <- (order_ok ids).
  by apply (subseteq_take (Z.to_nat 5000) (order ids)).
Qed.

(** Until the bound is reached, a message is handed on at most once. *)
Lemma duplicate_dropped m c :
  (Z.of_nat (size (qc_processedIDs c)) < 10000)%Z → (handle m (handle m c).1).2 = None.
Proof.
  intros H. assert (qm_ID m ∈ qc_processedIDs (isDuplicate (qm_ID m) c).2) as Hin.
  { unfold isDuplicate. case_bool_decide as Hin; [done|]. cbn.
    assert (size ({[qm_ID m]} ∪ qc_processedIDs c) = S (size (qc_processedIDs c))) as Hs
      by (rewrite size_union by set_solver; by rewrite size_singleton).
    rewrite bool_decide_eq_false_2 by lia. set_solver. }
  unfold handle at 1. unfold isDuplicate at 1. by rewrite handle_ids, bool_decide_eq_true_2.
Qed.
End Duplicates.

(** At the bound the cleanup may remove the message that it just recorded, and its
    duplicate is handed on again. *)
Lemma recent_duplicate_handed_on (c : QQChannel) (m : qq_message) :
  Z.of_nat (size (qc_processedIDs c)) = 10000%Z → qm_ID m ∉ qc_processedIDs c →
  ∃ order, (∀ s, order s ≡ₚ elements s) ∧ (isDuplicate order (qm_ID m) (handle order m c).1).1 = false.
Proof.
  intros Hs Hn. set (id := qm_ID m).
  exists (λ s, if bool_decide (id ∈ s) then id :: elements (s ∖ {[id]}) else elements s). split.
  - intros s. case_bool_decide as Hin; [|done]. rewrite <- elements_union_singleton by set_solver.
    apply elements_proper. rewrite union_comm_L, difference_union_L. set_solver.
  - set (order := λ s : gset string, _).
    assert (id ∉ qc_processedIDs (isDuplicate order id c).2) as Hnot.
    { unfold isDuplicate. rewrite bool_decide_eq_false_2 by done. cbn [snd].
      assert (size ({[id]} ∪ qc_processedIDs c) = S (size (qc_processedIDs c))) as Hz
        by (rewrite size_union by set_solver; by rewrite size_singleton).
      rewrite bool_decide_eq_true_2 by lia. cbn [qc_processedIDs]. apply not_elem_of_difference. right.
      unfold order. rewrite bool_decide_eq_true_2 by set_solver.
      replace (Z.to_nat 5000) with (S (Z.to_nat 4999)) by lia. rewrite firstn_cons. set_solver. }
    unfold isDuplicate at 1. rewrite handle_ids. by rewrite bool_decide_eq_false_2.
Qed.

(** A reply in a group is posted to the user whose identifier is that of the group. *)
Lemma group_reply_to_user order post m c inb group c' e requests content :
  qm_Group m = Some group → (handle order m c).2 = Some inb →
  Send post (mk_OutboundMessage (im_Channel inb) (im_ChatID inb) content) c' = (e, requests) →
  Forall (λ r, c2c_user r = group) requests.
Proof.
  intros Hg. unfold handle. destruct (isDuplicate _ _ _) as [[] c1]; [done|]. rewrite Hg.
  destruct (bool_decide _); [done|]. destruct (bool_decide _); [done|]. cbn [default snd].
  intros [_ ->]%handed_on. unfold Send. destruct (negb _); intros [= <- <-]; by repeat constructor.
Qed.

(** The session may fail before [Start] says that the channel runs, which then stays
    said. *)
Lemma failed_session_running c : bc_running (qc_base (with_running true (session_fails c))) = true.
Proof. done. Qed.
End QQ.

(** ** DingTalk *)
Module DingTalk.

(** [sessionWebhooks]: the address that replies to a chat are sent to. *)
Record DingTalkChannel := mk_DingTalkChannel { dt_base : BaseChannel; dt_sessionWebhooks : gmap string string }.

Definition NewDingTalkChannel (cfg : DingTalkConfig) : result string DingTalkChannel :=
  if bool_decide (dt_ClientID cfg = "") || bool_decide (dt_ClientSecret cfg = "")
  then Err "dingtalk client_id and client_secret are required"
  else Ok (mk_DingTalkChannel (NewBaseChannel "dingtalk" (dt_AllowFrom cfg)) ∅).

Definition Start (stream : option string) (c : DingTalkChannel) : option string * DingTalkChannel :=
  match stream with
  | Some e => (Some ("failed to start stream client: " +:+ e), c)
  | None => (None, mk_DingTalkChannel (setRunning true (dt_base c)) (dt_sessionWebhooks c))
  end.
Definition Stop (c : DingTalkChannel) : DingTalkChannel :=
  mk_DingTalkChannel (setRunning false (dt_base c)) (dt_sessionWebhooks c).

(** A reply to an address, as Markdown with a title. *)
Record reply := mk_reply { rp_webhook : string; rp_title : string; rp_text : string }.
Definition SendDirectReply (post : reply → option string) (sessionWebhook content : string) : option string * list reply :=
  let r := mk_reply sessionWebhook "TinyClaw" content in
  (match post r with Some e => Some ("failed to send reply: " +:+ e) | None => None end, [r]).

Definition Send (post : reply → option string) (msg : OutboundMessage) (c : DingTalkChannel) : option string * list reply :=
  if negb (bc_running (dt_base c)) then (Some "dingtalk channel not running", [])
  else
    match dt_sessionWebhooks c !! om_ChatID msg with
    | None => (Some ("no session_webhook found for chat " +:+ om_ChatID msg +:+ ", cannot send message"), [])
    | Some webhook => SendDirectReply post webhook (om_Content msg)
    end.

(** [bd_Content] is the text of the other content, when it is an object with one. *)
Record BotCallbackData := mk_BotCallbackData {
  bd_Text : string;
  bd_Content : option (gmap string json);
  bd_SenderStaffId : string;
  bd_SenderNick : string;
  bd_ConversationType : string;
  bd_ConversationId : string;
  bd_SessionWebhook : string;
}.

Definition bot_content (d : BotCallbackData) : string :=
  if bool_decide (bd_Text d = "") then
    match bd_Content d with Some m => default "" (arg_string m "content") | None => "" end
  else bd_Text d.

Definition chat_of (d : BotCallbackData) : string :=
  if bool_decide (bd_ConversationType d = "1") then bd_SenderStaffId d else bd_ConversationId d.

Definition dt_metadata (d : BotCallbackData) : gmap string string :=
  let m : gmap string string :=
    {[ "sender_name" := bd_SenderNick d; "conversation_id" := bd_ConversationId d;
       "conversation_type" := bd_ConversationType d; "platform" := "dingtalk";
       "session_webhook" := bd_SessionWebhook d ]} in
  if bool_decide (bd_ConversationType d = "1") then peer_metadata "direct" (bd_SenderStaffId d) m
  else peer_metadata "group" (bd_ConversationId d) m.

Definition onChatBotMessageReceived (d : BotCallbackData) (c : DingTalkChannel) : DingTalkChannel * option InboundMessage :=
  if bool_decide (bot_content d = "") then (c, None)
  else
    let c := mk_DingTalkChannel (dt_base c) (<[chat_of d := bd_SessionWebhook d]> (dt_sessionWebhooks c)) in
    (c, HandleMessage (dt_base c) (bd_SenderStaffId d) (chat_of d) (bot_content d) [] (dt_metadata d)).

(** A reply is sent to the address of the last message of the chat: that of the
    message, when none follows. *)
Lemma dingtalk_reply_goes_back d c c' inb post content :
  onChatBotMessageReceived d c = (c', Some inb) → bc_running (dt_base c') = true →
  (Send post (mk_OutboundMessage (im_Channel inb) (im_ChatID inb) content) c').2 =
    [mk_reply (bd_SessionWebhook d) "TinyClaw" content] ∧ IsAllowed (dt_base c) (bd_SenderStaffId d) = true.
Proof.
  unfold onChatBotMessageReceived. destruct (bool_decide _); [done|]. intros [= <- [Ha ->]%handed_on] Hr.
  unfold Send. cbn [dt_base om_ChatID im_ChatID dt_sessionWebhooks om_Content] in *. rewrite Hr. cbn [negb].
  by rewrite lookup_insert_eq.
Qed.

(** The address is taken from anyone: who is not allowed replaces that of a chat too. *)
Lemma webhook_from_anyone d c c' inb :
  onChatBotMessageReceived d c = (c', inb) → bot_content d ≠ "" →
  dt_sessionWebhooks c' !! chat_of d = Some (bd_SessionWebhook d).
Proof.
  unfold onChatBotMessageReceived. intros H Hc. rewrite bool_decide_eq_false_2 in H by done.
  injection H as <- _. apply lookup_insert_eq.
Qed.

(** People from outside have no identifier of staff: they share one direct chat, and the
    reply to one is sent to the other who wrote last. *)
Example outsiders_share_a_chat :
  let from nick webhook := mk_BotCallbackData "hello" None "" nick "1" "cid" webhook in
  let c := mk_DingTalkChannel (setRunning true (NewBaseChannel "dingtalk" [])) ∅ in
  let '(c, inb) := onChatBotMessageReceived (from "ada" "https://hook/ada") c in
  let '(c, _) := onChatBotMessageReceived (from "eve" "https://hook/eve") c in
  match inb with
  | Some m => (Send (λ _, None) (mk_OutboundMessage (im_Channel m) (im_ChatID m) "for ada") c).2 =
                [mk_reply "https://hook/eve" "TinyClaw" "for ada"]
  | None => False
  end.
Proof. by vm_compute. Qed.
End DingTalk.

(** ** Feishu *)
Module Feishu.

(** [fc_client]: the client of the websocket is there, with what cancels it. *)
Record FeishuChannel := mk_FeishuChannel { fc_base : BaseChannel; fc_config : FeishuConfig; fc_client : bool }.

Definition NewFeishuChannel (cfg : FeishuConfig) : FeishuChannel :=
  mk_FeishuChannel (NewBaseChannel "feishu" (fs_AllowFrom cfg)) cfg false.
Definition Start (c : FeishuChannel) : option string * FeishuChannel :=
  if bool_decide (fs_AppID (fc_config c) = "") || bool_decide (fs_AppSecret (fc_config c) = "")
  then (Some "feishu app_id or app_secret is empty", c)
  else (None, mk_FeishuChannel (setRunning true (fc_base c)) (fc_config c) true).
Definition Stop (c : FeishuChannel) : FeishuChannel :=
  mk_FeishuChannel (setRunning false (fc_base c)) (fc_config c) false.

(** A message to a chat: [Marshal] encodes its text.  The answer is an error, or a code
    with its message. *)
Record create := mk_create { cr_ReceiveId : string; cr_MsgType : string; cr_Content : string; cr_Uuid : string }.

Section Feishu.
Context (Marshal : json → result string string) (text_of : string → result string string).

Definition Send (now : string) (post : create → result string (string * string)) (success : string → bool)
    (msg : OutboundMessage) (c : FeishuChannel) : option string * list create :=
  if negb (bc_running (fc_base c)) then (Some "feishu channel not running", [])
  else if bool_decide (om_ChatID msg = "") then (Some "chat ID is empty", [])
  else
    match Marshal (JObj [("text", JStr (om_Content msg))]) with
    | Err e => (Some ("failed to marshal feishu content: " +:+ e), [])
    | Ok payload =>
        let r := mk_create (om_ChatID msg) "text" payload ("tinyclaw-" +:+ now) in
        (match post r with
         | Err e => Some ("failed to send feishu message: " +:+ e)
         | Ok (code, text) =>
             if success code then None else Some ("feishu api error: code=" +:+ code +:+ " msg=" +:+ text)
         end, [r])
    end.

(** Events: every field may be absent. *)
Record user_id := mk_user_id { ui_UserId : option string; ui_OpenId : option string; ui_UnionId : option string }.
Record event_sender := mk_event_sender { es_SenderId : option user_id; es_TenantKey : option string }.
Record event_message := mk_event_message {
  em_ChatId : option string;
  em_MessageId : option string;
  em_MessageType : option string;
  em_ChatType : option string;
  em_Content : option string;
}.

Definition stringValue (v : option string) : string := default "" v.

Definition extractFeishuSenderID (s : option event_sender) : string :=
  match s ≫= es_SenderId with
  | None => ""
  | Some id =>
      if negb (bool_decide (stringValue (ui_UserId id) = "")) then stringValue (ui_UserId id)
      else if negb (bool_decide (stringValue (ui_OpenId id) = "")) then stringValue (ui_OpenId id)
      else stringValue (ui_UnionId id)
  end.

Definition extractFeishuMessageContent (m : event_message) : string :=
  let content := stringValue (em_Content m) in
  if bool_decide (content = "") then ""
  else if bool_decide (em_MessageType m = Some "text") then
    match text_of content with Ok text => text | Err _ => content end
  else content.

(** A field that is not empty. *)
Definition set_text (v : option string) : option string :=
  if bool_decide (stringValue v = "") then None else Some (stringValue v).

Definition fs_metadata (m : event_message) (sender : option event_sender) (chatID senderID : string) : gmap string string :=
  let md := record_text "message_id" (set_text (em_MessageId m)) ∅ in
  let md := record_text "message_type" (set_text (em_MessageType m)) md in
  let md := record_text "chat_type" (set_text (em_ChatType m)) md in
  let md := record_text "tenant_key" (sender ≫= es_TenantKey) md in
  if bool_decide (stringValue (em_ChatType m) = "p2p") then peer_metadata "direct" senderID md
  else peer_metadata "group" chatID md.

Definition handleMessageReceive (event : option (event_message * option event_sender)) (c : FeishuChannel) :
    option InboundMessage :=
  match event with
  | None => None
  | Some (m, sender) =>
      let chatID := stringValue (em_ChatId m) in
      if bool_decide (chatID = "") then None
      else
        let senderID := extractFeishuSenderID sender in
        let senderID := if bool_decide (senderID = "") then "unknown" else senderID in
        let content := extractFeishuMessageContent m in
        let content := if bool_decide (content = "") then "[empty message]" else content in
        HandleMessage (fc_base c) senderID chatID content [] (fs_metadata m sender chatID senderID)
  end.

(** A reply is for the chat of the message. *)
Lemma feishu_reply_goes_back m sender c inb now post success content c' e requests :
  handleMessageReceive (Some (m, sender)) c = Some inb →
  Send now post success (mk_OutboundMessage (im_Channel inb) (im_ChatID inb) content) c' = (e, requests) →
  Forall (λ r, em_ChatId m = Some (cr_ReceiveId r)) requests ∧ im_Content inb ≠ "".
Proof.
  unfold handleMessageReceive. case_bool_decide as Hc; [done|]. intros [_ ->]%handed_on. cbn [im_ChatID im_Content].
  unfold Send. cbn [om_ChatID om_Content]. rewrite (bool_decide_eq_false_2 _ Hc). intros Hs. split; [|by case_bool_decide].
  destruct (em_ChatId m) as [chat|]; [|done]. cbn [stringValue default from_option id] in *.
  destruct (negb _); [injection Hs as <- <-; constructor|].
  destruct (Marshal _); injection Hs as <- <-; by repeat constructor.
Qed.

(** The channel says that it runs whether its websocket does or not. *)
Lemma feishu_says_running c :
  fs_AppID (fc_config c) ≠ "" → fs_AppSecret (fc_config c) ≠ "" → bc_running (fc_base (Start c).2) = true.
Proof. intros H1 H2. unfold Start. by rewrite !bool_decide_eq_false_2. Qed.

(** Everyone without an identifier is one sender to the allowlist. *)
Lemma unknown_senders m c inb :
  handleMessageReceive (Some (m, None)) c = Some inb → im_SenderID inb = "unknown" ∧ IsAllowed (fc_base c) "unknown" = true.
Proof. unfold handleMessageReceive. destruct (bool_decide _); [done|]. cbn. by intros [? ->]%handed_on. Qed.
End Feishu.
End Feishu.
