(* ===== verification/OneBot.v ===== *)
(** * The OneBot channel (pkg/channels/onebot.go)

    Events of the platform become inbound messages, outbound messages become
    requests.  An event is what decoding the document gives; fields that are kept as
    raw JSON are values of JSON.  Downloads, transcription and the time are
    parameters. *)
From stdpp Require Import base gmap strings list pretty.
From Stdlib Require Import Ascii ZArith Lia.
From S2P Require Import Prelude GoStrings ProviderTypes Encoding Paths Bus StateManager Channels Media.
#[local] Open Scope go_scope.
#[local] Open Scope nat_scope.

(** ** Data *)
Record oneBotRawEvent := mk_oneBotRawEvent {
  ev_PostType : string;
  ev_MessageType : string;
  ev_MessageID : option json;
  ev_UserID : option json;
  ev_GroupID : option json;
  ev_RawMessage : string;
  ev_Message : option json;
  ev_Sender : option json;
  ev_SelfID : option json;
  ev_Echo : string;
  ev_Status : option json;
}.

Record oneBotSender := mk_oneBotSender {
  sn_UserID : option json;
  sn_Nickname : string;
  sn_Card : string;
}.

Record parseMessageResult := mk_parseMessageResult {
  pm_Text : string;
  pm_IsBotMentioned : bool;
  pm_Media : list string;
  pm_LocalFiles : list string;
  pm_ReplyTo : string;
}.

(** The state of the channel; the connection is there or not. *)
Record OneBotChannel := mk_OneBotChannel {
  ob_base : BaseChannel;
  ob_GroupTriggerPrefix : list string;
  ob_connected : bool;
  ob_dedup : gset string;
  ob_ring : list string;
  ob_idx : nat;
  ob_selfID : Z;
  ob_lastMessageID : gmap string string;
  ob_pendingEmojiMsg : gmap string string;
}.

Definition dedupSize : nat := 1024.

Definition NewOneBotChannel (allow prefixes : list string) : OneBotChannel :=
  mk_OneBotChannel (NewBaseChannel "onebot" allow) prefixes false ∅ (replicate dedupSize "") 0 0 ∅ ∅.

Definition set_dedup (c : OneBotChannel) (d : gset string) (ring : list string) (idx : nat) : OneBotChannel :=
  mk_OneBotChannel (ob_base c) (ob_GroupTriggerPrefix c) (ob_connected c) d ring idx (ob_selfID c)
    (ob_lastMessageID c) (ob_pendingEmojiMsg c).
Definition set_last (c : OneBotChannel) (chatID messageID : string) : OneBotChannel :=
  mk_OneBotChannel (ob_base c) (ob_GroupTriggerPrefix c) (ob_connected c) (ob_dedup c) (ob_ring c)
    (ob_idx c) (ob_selfID c) (<[chatID := messageID]> (ob_lastMessageID c)) (ob_pendingEmojiMsg c).
Definition set_emoji (c : OneBotChannel) (m : gmap string string) : OneBotChannel :=
  mk_OneBotChannel (ob_base c) (ob_GroupTriggerPrefix c) (ob_connected c) (ob_dedup c) (ob_ring c)
    (ob_idx c) (ob_selfID c) (ob_lastMessageID c) m.
Definition set_selfID (c : OneBotChannel) (id : Z) : OneBotChannel :=
  mk_OneBotChannel (ob_base c) (ob_GroupTriggerPrefix c) (ob_connected c) (ob_dedup c) (ob_ring c)
    (ob_idx c) id (ob_lastMessageID c) (ob_pendingEmojiMsg c).

(** ** Values of JSON in more than one form *)

(** The value, and whether there is no error. *)
Definition parseJSONInt64 (raw : option json) : Z * bool :=
  match raw with
  | None => (0%Z, true)
  | Some v =>
      match int64_of v, v with
      | Some n, _ => (n, true)
      | None, JStr s => ParseInt s
      | None, _ => (0%Z, false)
      end
  end.

Definition isAPIResponse (raw : option json) : bool :=
  match raw with
  | Some (JStr s) => bool_decide (s = "ok" ∨ s = "failed")
  | Some (JObj kvs) =>
      match bool_of (default JNull (field "online" kvs)), bool_of (default JNull (field "good" kvs)) with
      | Some online, Some good => online || good
      | _, _ => false
      end
  | _ => false
  end.

(** Where the answer of get_login_info has the identifier of the bot. *)
Definition login_info (v : json) : option (option json) :=
  match v with
  | JObj kvs => match string_of (default JNull (field "nickname" kvs)) with
                | Some _ => Some (field "user_id" kvs)
                | None => None
                end
  | JNull => Some None
  | _ => None
  end.

Definition wrapped_info (v : json) : option (option json) :=
  match v with
  | JObj kvs => match field "data" kvs with Some d => login_info d | None => Some None end
  | JNull => Some None
  | _ => None
  end.

Definition usable_id (info : option (option json)) : option Z :=
  match info with
  | Some (Some raw) => let '(uid, ok) := parseJSONInt64 (Some raw) in
                       if ok && (0 <? uid)%Z then Some uid else None
  | _ => None
  end.

(** [resp] is the answer decoded, [None] when it is no JSON or when there is none. *)
Definition fetchSelfID (resp : option json) (c : OneBotChannel) : OneBotChannel :=
  match resp with
  | None => c
  | Some v =>
      match usable_id (wrapped_info v) with
      | Some uid => set_selfID c uid
      | None => match usable_id (login_info v) with
                | Some uid => set_selfID c uid
                | None => c
                end
      end
  end.

(** ** Duplicates *)
Definition isDuplicate (c : OneBotChannel) (messageID : string) : bool * OneBotChannel :=
  if bool_decide (messageID = "" ∨ messageID = "0") then (false, c)
  else if bool_decide (messageID ∈ ob_dedup c) then (true, c)
  else
    let old := ob_ring c !!! ob_idx c in
    let dedup := if bool_decide (old = "") then ob_dedup c else ob_dedup c ∖ {[old]} in
    (false, set_dedup c (dedup ∪ {[messageID]}) (<[ob_idx c := messageID]> (ob_ring c))
              ((ob_idx c + 1) mod length (ob_ring c))).

(** ** Triggers in groups *)
Fixpoint trigger_prefix (prefixes : list string) (content : string) : bool * string :=
  match prefixes with
  | [] => (false, content)
  | prefix :: rest =>
      if bool_decide (prefix = "") then trigger_prefix rest content
      else match CutPrefix content prefix with
           | Some after => (true, trim_space after)
           | None => trigger_prefix rest content
           end
  end.

Definition checkGroupTrigger (c : OneBotChannel) (content : string) (isBotMentioned : bool) : bool * string :=
  if isBotMentioned then (true, trim_space content)
  else trigger_prefix (ob_GroupTriggerPrefix c) content.

(** ** Messages *)
Definition cqAt (selfID : Z) : string := "[CQ:at,qq=" +:+ pretty selfID +:+ "]".

(** The text without the mentions of the bot, if there are any. *)
Definition strip_mention (selfID : Z) (s : string) : option string :=
  if (0 <? selfID)%Z && contains s (cqAt selfID)
  then Some (trim_space (ReplaceAll s (cqAt selfID) "")) else None.

(** What surrounds an event: where downloads go, and what the [i]-th one meets. *)
Record event_env := mk_event_env {
  ee_tmp : string;
  ee_mkdir : bool;
  ee_id : nat → string;
  ee_answer : nat → string → option fetched;
  (** [Some] when there is a transcriber and it is available. *)
  ee_transcribe : option (files → string → result string string);
}.

(** What the loop over the segments has collected. *)
Record segments_acc := mk_segments_acc {
  sa_textParts : list string;
  sa_mentioned : bool;
  sa_media : list string;
  sa_localFiles : list string;
  sa_replyTo : string;
  sa_files : files;
}.

Definition add_text (t : string) (a : segments_acc) : segments_acc :=
  mk_segments_acc (sa_textParts a ++ [t]) (sa_mentioned a) (sa_media a) (sa_localFiles a) (sa_replyTo a)
    (sa_files a).
Definition add_media (p : string) (a : segments_acc) : segments_acc :=
  mk_segments_acc (sa_textParts a) (sa_mentioned a) (sa_media a ++ [p]) (sa_localFiles a) (sa_replyTo a)
    (sa_files a).
Definition add_local (p : string) (fs : files) (a : segments_acc) : segments_acc :=
  mk_segments_acc (sa_textParts a) (sa_mentioned a) (sa_media a) (sa_localFiles a ++ [p]) (sa_replyTo a) fs.
Definition with_files (fs : files) (a : segments_acc) : segments_acc :=
  mk_segments_acc (sa_textParts a) (sa_mentioned a) (sa_media a) (sa_localFiles a) (sa_replyTo a) fs.
Definition mention (a : segments_acc) : segments_acc :=
  mk_segments_acc (sa_textParts a) true (sa_media a) (sa_localFiles a) (sa_replyTo a) (sa_files a).
Definition reply_to (r : string) (a : segments_acc) : segments_acc :=
  mk_segments_acc (sa_textParts a) (sa_mentioned a) (sa_media a) (sa_localFiles a) r (sa_files a).

Definition string_at (k : string) (kvs : list (string * json)) : string :=
  match key k kvs with Some (JStr s) => s | _ => "" end.

Definition default_filename (segType : string) : string :=
  if bool_decide (segType = "image") then "image.jpg"
  else if bool_decide (segType = "video") then "video.mp4" else "file".

Definition segment_filename (segType : string) (data : list (string * json)) : string :=
  if negb (bool_decide (string_at "file" data = "")) then string_at "file" data
  else if negb (bool_decide (string_at "name" data = "")) then string_at "name" data
  else default_filename segType.

Section events.
(** The text of a value as it stands in the document, and the format [%v] of values
    other than strings, booleans and integers below 2^53. *)
Context (raw_text : json → string).
Context (Sprint : json → string).

Definition parseJSONString (raw : option json) : string :=
  match raw with
  | None => ""
  | Some v => match string_of v with Some s => s | None => raw_text v end
  end.

(** [fmt.Sprintf("%v", data[k])]. *)
Definition sprint (v : option json) : string :=
  match v with
  | None | Some JNull => "<nil>"
  | Some (JStr s) => s
  | Some (JBool b) => if b then "true" else "false"
  | Some (JNum n) => if (Z.abs n <? 2 ^ 53)%Z then format_float n else Sprint (JNum n)
  | Some v => Sprint v
  end.

(** A segment with a file: the download, and what is noted of it. *)
Definition file_segment (E : event_env) (i : nat) (segType : string) (data : list (string * json))
    (a : segments_acc) : segments_acc :=
  let url := string_at "url" data in
  if bool_decide (url = "") then a
  else
    let '(localPath, fs) := DownloadFile (ee_tmp E) (ee_mkdir E) (ee_id E i) (segment_filename segType data)
                              (ee_answer E i url) (sa_files a) in
    if bool_decide (localPath = "") then with_files fs a
    else add_text ("[" +:+ segType +:+ "]") (add_media localPath (add_local localPath fs a)).

Definition record_segment (E : event_env) (i : nat) (data : list (string * json)) (a : segments_acc) :
    segments_acc :=
  let url := string_at "url" data in
  if bool_decide (url = "") then a
  else
    let '(localPath, fs) := DownloadFile (ee_tmp E) (ee_mkdir E) (ee_id E i) "voice.amr"
                              (ee_answer E i url) (sa_files a) in
    if bool_decide (localPath = "") then with_files fs a
    else
      let a := add_local localPath fs a in
      match ee_transcribe E with
      | Some transcribe =>
          match transcribe fs localPath with
          | Err _ => add_media localPath (add_text "[voice (transcription failed)]" a)
          | Ok text => add_text ("[voice transcription: " +:+ text +:+ "]") a
          end
      | None => add_media localPath (add_text "[voice]" a)
      end.

Definition add_segment (E : event_env) (selfID : Z) (i : nat) (seg : list (string * json))
    (a : segments_acc) : segments_acc :=
  let segType := string_at "type" seg in
  let data := match key "data" seg with Some (JObj kvs) => Some kvs | _ => None end in
  if bool_decide (segType = "forward") then add_text "[forward message]" a
  else
    match data with
    | None => a
    | Some data =>
        if bool_decide (segType = "text") then
          match key "text" data with Some (JStr t) => add_text t a | _ => a end
        else if bool_decide (segType = "at") then
          let qqVal := sprint (key "qq" data) in
          if (0 <? selfID)%Z && bool_decide (qqVal = pretty selfID ∨ qqVal = "all") then mention a else a
        else if bool_decide (segType = "image" ∨ segType = "video" ∨ segType = "file") then
          file_segment E i segType data a
        else if bool_decide (segType = "record") then record_segment E i data a
        else if bool_decide (segType = "reply") then
          match key "id" data with Some id => reply_to (sprint (Some id)) a | None => a end
        else if bool_decide (segType = "face") then
          add_text ("[face:" +:+ sprint (key "id" data) +:+ "]") a
        else a
    end.

Fixpoint add_segments (E : event_env) (selfID : Z) (i : nat) (segs : list (list (string * json)))
    (a : segments_acc) : segments_acc :=
  match segs with
  | [] => a
  | seg :: rest => add_segments E selfID (S i) rest (add_segment E selfID i seg a)
  end.

(** Decoding into a list of maps. *)
Definition map_of (v : json) : option (list (string * json)) :=
  match v with JObj kvs => Some kvs | JNull => Some [] | _ => None end.

Definition no_message : parseMessageResult := mk_parseMessageResult "" false [] [] "".

Definition parseMessageSegments (E : event_env) (raw : option json) (selfID : Z) (fs : files) :
    parseMessageResult * files :=
  match raw with
  | None => (no_message, fs)
  | Some v =>
      match string_of v with
      | Some s =>
          match strip_mention selfID s with
          | Some s' => (mk_parseMessageResult s' true [] [] "", fs)
          | None => (mk_parseMessageResult s false [] [] "", fs)
          end
      | None =>
          match v with
          | JArr items =>
              match mapM map_of items with
              | None => (no_message, fs)
              | Some segments =>
                  let a := add_segments E selfID 0 segments (mk_segments_acc [] false [] [] "" fs) in
                  (mk_parseMessageResult (trim_space (join "" (sa_textParts a))) (sa_mentioned a)
                     (sa_media a) (sa_localFiles a) (sa_replyTo a), sa_files a)
              end
          | _ => (no_message, fs)
          end
      end
  end.

(** The sender; a field of another type stays empty. *)
Definition sender_of (raw : option json) : oneBotSender :=
  match raw with
  | Some (JObj kvs) =>
      mk_oneBotSender (field "user_id" kvs)
        (default "" (string_of (default JNull (field "nickname" kvs))))
        (default "" (string_of (default JNull (field "card" kvs))))
  | _ => mk_oneBotSender None "" ""
  end.

(** ** Events *)

(** What handling an event does: the new state, the files, the message that is
    published and the message that is given an emoji, if any. *)
Record handled := mk_handled {
  hd_channel : OneBotChannel;
  hd_files : files;
  hd_message : option InboundMessage;
  hd_emoji : option string;
}.

(** The text of a message: the raw text, or that of its segments. *)
Definition message_content (selfID : Z) (rawMessage : string) (parsed : parseMessageResult) : bool * string :=
  let '(mentioned, content) :=
    if bool_decide (rawMessage = "") then (pm_IsBotMentioned parsed, pm_Text parsed)
    else match strip_mention selfID rawMessage with
         | Some s => (true, s)
         | None => (pm_IsBotMentioned parsed, rawMessage)
         end in
  (mentioned,
   if negb (bool_decide (pm_Text parsed = "")) && negb (bool_decide (content = pm_Text parsed))
      && (negb (bool_decide (pm_Media parsed = [])) || negb (bool_decide (pm_ReplyTo parsed = "")))
   then pm_Text parsed else content).

(** The chat, the content and the metadata; [None] when the message is ignored. *)
Definition route_message (c : OneBotChannel) (raw : oneBotRawEvent) (sender : oneBotSender)
    (userID groupID : Z) (content : string) (mentioned : bool) (metadata : gmap string string) :
    option (string * string * gmap string string) :=
  let senderID := pretty userID in
  if bool_decide (ev_MessageType raw = "private") then
    Some ("private:" +:+ senderID, content,
          <["peer_id" := senderID]> (<["peer_kind" := "direct"]> metadata))
  else if bool_decide (ev_MessageType raw = "group") then
    let groupIDStr := pretty groupID in
    let metadata := <["group_id" := groupIDStr]>
                      (<["peer_id" := groupIDStr]> (<["peer_kind" := "group"]> metadata)) in
    let '(senderUserID, _) := parseJSONInt64 (sn_UserID sender) in
    let metadata := if (0 <? senderUserID)%Z
                    then <["sender_user_id" := pretty senderUserID]> metadata else metadata in
    let metadata := if negb (bool_decide (sn_Card sender = "")) then <["sender_name" := sn_Card sender]> metadata
                    else if negb (bool_decide (sn_Nickname sender = ""))
                         then <["sender_name" := sn_Nickname sender]> metadata
                         else metadata in
    let '(triggered, stripped) := checkGroupTrigger c content mentioned in
    if triggered then Some ("group:" +:+ groupIDStr, stripped, metadata) else None
  else None.

(** Noting the last message of the chat, and the emoji on a message of a group. *)
Definition mark_received (c : OneBotChannel) (raw : oneBotRawEvent) (chatID messageID : string) :
    OneBotChannel * option string :=
  let c := set_last c chatID messageID in
  if bool_decide (ev_MessageType raw = "group" ∧ messageID ≠ "" ∧ messageID ≠ "0")
  then (set_emoji c (<[chatID := messageID]> (ob_pendingEmojiMsg c)), Some messageID)
  else (c, None).

Definition handleMessage (E : event_env) (c : OneBotChannel) (raw : oneBotRawEvent) (fs : files) : handled :=
  let '(userID, ok) := parseJSONInt64 (ev_UserID raw) in
  if negb ok then mk_handled c fs None None
  else
    let '(groupID, _) := parseJSONInt64 (ev_GroupID raw) in
    let '(selfID, _) := parseJSONInt64 (ev_SelfID raw) in
    let messageID := parseJSONString (ev_MessageID raw) in
    let selfID := if (selfID =? 0)%Z then ob_selfID c else selfID in
    let '(parsed, fs) := parseMessageSegments E (ev_Message raw) selfID fs in
    let '(mentioned, content) := message_content selfID (ev_RawMessage raw) parsed in
    let sender := sender_of (ev_Sender raw) in
    let fs := remove_files (pm_LocalFiles parsed) fs in
    let '(duplicate, c) := isDuplicate c messageID in
    if duplicate then mk_handled c fs None None
    else if bool_decide (content = "") then mk_handled c fs None None
    else
      let senderID := pretty userID in
      let metadata : gmap string string := {[ "message_id" := messageID ]} in
      let metadata := if bool_decide (pm_ReplyTo parsed = "") then metadata
                      else <["reply_to_message_id" := pm_ReplyTo parsed]> metadata in
      match route_message c raw sender userID groupID content mentioned metadata with
      | None => mk_handled c fs None None
      | Some (chatID, content, metadata) =>
          let metadata := if bool_decide (sn_Nickname sender = "") then metadata
                          else <["nickname" := sn_Nickname sender]> metadata in
          let '(c, emoji) := mark_received c raw chatID messageID in
          mk_handled c fs (HandleMessage (ob_base c) senderID chatID content (pm_Media parsed) metadata) emoji
      end.

Definition handleRawEvent (E : event_env) (c : OneBotChannel) (raw : oneBotRawEvent) (fs : files) : handled :=
  if bool_decide (ev_PostType raw = "message") then
    let '(userID, ok) := parseJSONInt64 (ev_UserID raw) in
    if ok && (0 <? userID)%Z && negb (IsAllowed (ob_base c) (pretty userID)) then mk_handled c fs None None
    else handleMessage E c raw fs
  else mk_handled c fs None None.

(** What the listener does with an event: answers go to who waits for them. *)
Inductive listened := ToWaiter (echo : string) | Skipped | Handled (h : handled).
Definition listen_event (E : event_env) (c : OneBotChannel) (raw : oneBotRawEvent) (fs : files) : listened :=
  if negb (bool_decide (ev_Echo raw = "")) then ToWaiter (ev_Echo raw)
  else if isAPIResponse (ev_Status raw) then Skipped
  else Handled (handleRawEvent E c raw fs).
End events.

(** ** Sending *)
Inductive message_segment := Reply (id : string) | TextSegment (text : string).

Definition buildMessageSegments (c : OneBotChannel) (chatID content : string) : list message_segment :=
  (match ob_lastMessageID c !! chatID with
   | Some msgID => if bool_decide (msgID = "") then [] else [Reply msgID]
   | None => []
   end) ++ [TextSegment content].

(** The action, the key of the receiver, the receiver and the message. *)
Record send_request := mk_send_request {
  sr_action : string;
  sr_idKey : string;
  sr_id : Z;
  sr_message : list message_segment;
}.

Definition buildSendRequest (c : OneBotChannel) (msg : OutboundMessage) : result string send_request :=
  let chatID := om_ChatID msg in
  let segments := buildMessageSegments c chatID (om_Content msg) in
  let '(action, idKey, rawID) :=
    match CutPrefix chatID "group:" with
    | Some rest => ("send_group_msg", "group_id", rest)
    | None => match CutPrefix chatID "private:" with
              | Some rest => ("send_private_msg", "user_id", rest)
              | None => ("send_private_msg", "user_id", chatID)
              end
    end in
  let '(id, ok) := ParseInt rawID in
  if ok then Ok (mk_send_request action idKey id segments)
  else Err ("invalid " +:+ idKey +:+ " in chatID: " +:+ chatID).

(** [write_err] is the error of writing to the connection; the last component is the
    message whose emoji is taken away. *)
Definition Send (write_err : option string) (c : OneBotChannel) (msg : OutboundMessage) :
    option string * OneBotChannel * list send_request * option string :=
  if negb (bc_running (ob_base c)) then (Some "OneBot channel not running", c, [], None)
  else if negb (ob_connected c) then (Some "OneBot WebSocket not connected", c, [], None)
  else
    match buildSendRequest c msg with
    | Err e => (Some e, c, [], None)
    | Ok req =>
        match write_err with
        | Some e => (Some e, c, [], None)
        | None =>
            let c' := set_emoji c (delete (om_ChatID msg) (ob_pendingEmojiMsg c)) in
            match ob_pendingEmojiMsg c !! om_ChatID msg with
            | Some mid => (None, c', [req], if bool_decide (mid = "") then None else Some mid)
            | None => (None, c', [req], None)
            end
        end
    end.

(** ** The connection *)
Definition set_connection (connected running : bool) (c : OneBotChannel) : OneBotChannel :=
  mk_OneBotChannel (setRunning running (ob_base c)) (ob_GroupTriggerPrefix c) connected (ob_dedup c) (ob_ring c)
    (ob_idx c) (ob_selfID c) (ob_lastMessageID c) (ob_pendingEmojiMsg c).

(** [dial] says whether connecting succeeds; [login] is the answer of get_login_info. *)
Definition Start (ws_url : string) (interval : Z) (dial : bool) (login : option json) (c : OneBotChannel) :
    option string * OneBotChannel :=
  if bool_decide (ws_url = "") then (Some "OneBot ws_url not configured", c)
  else
    let c := if dial then fetchSelfID login (set_connection true (bc_running (ob_base c)) c) else c in
    if (interval <=? 0)%Z && negb (ob_connected c)
    then (Some "failed to connect to OneBot and reconnect is disabled", c)
    else (None, set_connection (ob_connected c) true c).

(** One turn of [reconnectLoop], and the wait before it. *)
Definition reconnect (dial : bool) (login : option json) (c : OneBotChannel) : OneBotChannel :=
  if ob_connected c then c
  else if dial then fetchSelfID login (set_connection true (bc_running (ob_base c)) c) else c.
Definition reconnect_interval (seconds : Z) : duration := Z.max (wrap64 (seconds * second)) (5 * second).

(** The listener loses the connection. *)
Definition read_error (c : OneBotChannel) : OneBotChannel := set_connection false (bc_running (ob_base c)) c.

Definition Stop (c : OneBotChannel) : OneBotChannel := set_connection false false c.

(** ** Duplicates: the ring is the list of the last identifiers *)

(** The specification: the last [N] identifiers that were new, the newest first. *)
Definition recent_step (N : nat) (recent : list string) (id : string) : list string :=
  if bool_decide (id = "" ∨ id = "0" ∨ id ∈ recent) then recent else take N (id :: recent).

(** Where the ring has the [i]-th of them. *)
Definition ring_pos (N idx i : nat) : nat := if decide (i < idx) then idx - 1 - i else idx + N - 1 - i.

Record ring_shows (c : OneBotChannel) (recent : list string) : Prop := {
  rs_idx : ob_idx c < length (ob_ring c);
  rs_nodup : NoDup recent;
  rs_nonempty : Forall (λ id, id ≠ "") recent;
  rs_length : length recent ≤ length (ob_ring c);
  rs_ring : ∀ i, i < length (ob_ring c) →
    ob_ring c !! ring_pos (length (ob_ring c)) (ob_idx c) i = Some (default "" (recent !! i));
  rs_dedup : ob_dedup c = list_to_set recent;
}.

Lemma recent_oldest recent N :
  NoDup recent → Forall (λ id, id ≠ "") recent → length recent ≤ N → 0 < N →
  let old := default "" (recent !! (N - 1)) in
  (if bool_decide (old = "") then list_to_set recent else list_to_set recent ∖ {[old]}) =@{gset string}
  list_to_set (take (N - 1) recent).
Proof.
  intros Hnd Hne Hlen HN old. subst old. destruct (recent !! (N - 1)) as [old|] eqn:E; cbn.
  - rewrite Forall_lookup in Hne. pose proof (Hne _ _ E). rewrite bool_decide_eq_false_2 by done.
    rewrite <-(take_drop_middle _ _ _ E) in Hnd |- * at 1.
    pose proof (lookup_lt_Some _ _ _ E). rewrite (drop_ge recent) by lia. rewrite (drop_ge recent) in Hnd by lia.
    apply NoDup_app in Hnd as (_ & Hd & _). rewrite list_to_set_app_L. cbn.
    apply set_eq. intros x. specialize (Hd x). set_solver.
  - rewrite bool_decide_eq_true_2 by done. apply lookup_ge_None in E. by rewrite take_ge by lia.
Qed.

Lemma ring_shows_step c recent id :
  ring_shows c recent →
  (isDuplicate c id).1 = bool_decide (id ≠ "" ∧ id ≠ "0" ∧ id ∈ recent) ∧
  ring_shows (isDuplicate c id).2 (recent_step (length (ob_ring c)) recent id) ∧
  length (ob_ring (isDuplicate c id).2) = length (ob_ring c).
Proof.
  intros [Hidx Hnd Hne Hlen Hring Hdd]. unfold isDuplicate, recent_step.
  destruct (decide (id = "" ∨ id = "0")) as [Hs|Hs].
  { rewrite (bool_decide_eq_true_2 (id = "" ∨ id = "0")) by done. rewrite (bool_decide_eq_true_2 (_ ∨ _ ∨ _)) by tauto.
    by rewrite bool_decide_eq_false_2 by tauto. }
  rewrite (bool_decide_eq_false_2 (id = "" ∨ id = "0")) by done.
  destruct (decide (id ∈ recent)) as [Hin|Hin].
  { rewrite (bool_decide_eq_true_2 (id ∈ ob_dedup c)) by (by rewrite Hdd, elem_of_list_to_set).
    rewrite (bool_decide_eq_true_2 (_ ∨ _ ∨ _)) by tauto. rewrite bool_decide_eq_true_2 by tauto. done. }
  rewrite (bool_decide_eq_false_2 (id ∈ ob_dedup c)) by (by rewrite Hdd, elem_of_list_to_set).
  rewrite (bool_decide_eq_false_2 (_ ∨ _ ∨ _)) by tauto. rewrite (bool_decide_eq_false_2 (_ ∧ _ ∧ _)) by tauto. cbn.
  set (N := length (ob_ring c)) in *. set (idx := ob_idx c) in *.
  assert (ob_ring c !!! idx = default "" (recent !! (N - 1))) as Hold.
  { specialize (Hring (N - 1) ltac:(lia)). unfold ring_pos in Hring.
    assert ((if decide (N - 1 < idx) then idx - 1 - (N - 1) else idx + N - 1 - (N - 1)) = idx) as E
      by (case_decide; lia). rewrite E in Hring. by apply list_lookup_total_correct. }
  split; [done|]. rewrite length_insert. split; [|done].
  assert (idx + 1 < N ∧ (idx + 1) mod N = idx + 1 ∨ idx + 1 = N ∧ (idx + 1) mod N = 0)
    as Hmod.
  { destruct (decide (idx + 1 = N)) as [E|E]; [right|left].
    - split; [done|]. rewrite E. apply Nat.Div0.mod_same.
    - split; [lia|]. apply Nat.mod_small. lia. }
  constructor; cbn; rewrite ?length_insert; fold N.
  - destruct Hmod as [[? ->]|[? ->]]; lia.
  - assert (NoDup (take N (id :: recent) ++ drop N (id :: recent))) as Hn by (rewrite take_drop; by constructor).
    by apply NoDup_app in Hn as [? _].
  - apply Forall_take. constructor; [tauto|done].
  - rewrite length_take. lia.
  - intros i Hi. rewrite lookup_take_lt by done. destruct i as [|i].
    + assert (ring_pos N ((idx + 1) mod N) 0 = idx) as ->.
      { unfold ring_pos. destruct Hmod as [[? ->]|[? ->]]; case_decide; lia. }
      by rewrite list_lookup_insert_eq.
    + assert (ring_pos N ((idx + 1) mod N) (S i) = ring_pos N idx i ∧ ring_pos N idx i ≠ idx) as [-> ?].
      { unfold ring_pos. destruct Hmod as [[? ->]|[? ->]]; repeat case_decide; lia. }
      rewrite list_lookup_insert_ne by done. cbn. apply Hring. lia.
  - rewrite Hold, Hdd, (recent_oldest recent N) by (done || lia).
    destruct N as [|N']; [lia|]. cbn [take]. rewrite list_to_set_cons.
    replace (S N' - 1) with N' by lia. set_solver.
Qed.

Definition recent_ids (ids : list string) : list string := foldl (recent_step dedupSize) [] ids.

Lemma new_ring_shows allow prefixes : ring_shows (NewOneBotChannel allow prefixes) [].
Proof.
  assert (length (ob_ring (NewOneBotChannel allow prefixes)) = dedupSize) as HL
    by (cbn [NewOneBotChannel ob_ring]; apply length_replicate).
  constructor; try rewrite HL; cbn [NewOneBotChannel ob_idx ob_dedup].
  - unfold dedupSize. lia.
  - constructor.
  - constructor.
  - cbn. lia.
  - intros i Hi. cbn [NewOneBotChannel ob_ring]. rewrite lookup_nil. apply lookup_replicate_2.
    unfold ring_pos. case_decide; lia.
  - done.
Qed.

Lemma ring_shows_run c recent ids :
  ring_shows c recent → length (ob_ring c) = dedupSize →
  let c' := foldl (λ c id, (isDuplicate c id).2) c ids in
  ring_shows c' (foldl (recent_step dedupSize) recent ids) ∧ length (ob_ring c') = dedupSize.
Proof.
  revert c recent. induction ids as [|id ids IH]; intros c recent Hs HL; [done|].
  destruct (ring_shows_step c recent id Hs) as (_ & Hs' & HL'). rewrite HL in Hs', HL'. by apply IH.
Qed.

(** C25: a message is a duplicate exactly when its identifier is a real one and among
    the last 1024 that were new; no more are kept. *)
Theorem duplicate_iff_recent allow prefixes ids id :
  let c := foldl (λ c id, (isDuplicate c id).2) (NewOneBotChannel allow prefixes) ids in
  ((isDuplicate c id).1 = true ↔ id ≠ "" ∧ id ≠ "0" ∧ id ∈ recent_ids ids) ∧
  ob_dedup c = list_to_set (recent_ids ids) ∧ length (recent_ids ids) ≤ dedupSize.
Proof.
  intros c. destruct (ring_shows_run _ [] ids (new_ring_shows allow prefixes)) as [Hs HL];
    [apply length_replicate|]. fold c in Hs, HL. fold (recent_ids ids) in Hs.
  destruct (ring_shows_step c _ id Hs) as (-> & _ & _).
  split; [apply bool_decide_eq_true|]. split; [apply Hs|]. rewrite <-HL. apply Hs.
Qed.

(** ** What is published *)
Lemma ParseInt_range s : in_int64 (ParseInt s).1.
Proof.
  unfold ParseInt, in_int64. destruct (sign_split (chars s)) as [neg ds].
  destruct (parse_digits ds) as [n|]; [|cbn; unfold int64_min, int64_max; lia].
  destruct (Z.ltb_spec (if neg then (- n)%Z else n) int64_min); [cbn; unfold int64_min, int64_max; lia|].
  destruct (Z.ltb_spec int64_max (if neg then (- n)%Z else n)); cbn; [unfold int64_min, int64_max|]; lia.
Qed.

Lemma parseJSONInt64_range raw : in_int64 (parseJSONInt64 raw).1.
Proof.
  unfold parseJSONInt64. destruct raw as [v|]; [|cbn; unfold in_int64, int64_min, int64_max; lia].
  destruct (int64_of v) as [n|] eqn:E.
  - destruct v; cbn in E; try done; [simplify_eq; cbn; unfold in_int64, int64_min, int64_max; lia|].
    case_bool_decide; [|done]. simplify_eq. done.
  - destruct v; first [apply ParseInt_range|cbn; unfold in_int64, int64_min, int64_max; lia].
Qed.

Lemma isDuplicate_base c id : ob_base (isDuplicate c id).2 = ob_base c.
Proof. unfold isDuplicate. repeat case_bool_decide; done. Qed.

Lemma mark_received_state c raw chatID messageID :
  ob_base (mark_received c raw chatID messageID).1 = ob_base c ∧
  ob_lastMessageID (mark_received c raw chatID messageID).1 = <[chatID := messageID]> (ob_lastMessageID c).
Proof. unfold mark_received. by case_bool_decide. Qed.

Section published.
Context (raw_text Sprint : json → string).
Let handleMessage := handleMessage raw_text Sprint.
Let parseMessageSegments := parseMessageSegments Sprint.

(** The chats of the messages of an event: the user, or the group. *)
Definition event_chat (raw : oneBotRawEvent) : string :=
  if bool_decide (ev_MessageType raw = "private")
  then "private:" +:+ pretty (parseJSONInt64 (ev_UserID raw)).1
  else "group:" +:+ pretty (parseJSONInt64 (ev_GroupID raw)).1.

Lemma route_message_Some c raw sender userID groupID content mentioned metadata chatID content' metadata' :
  route_message c raw sender userID groupID content mentioned metadata = Some (chatID, content', metadata') →
  (ev_MessageType raw = "private" ∧ chatID = "private:" +:+ pretty userID ∧ content' = content) ∨
  (ev_MessageType raw = "group" ∧ chatID = "group:" +:+ pretty groupID ∧
     checkGroupTrigger c content mentioned = (true, content')).
Proof.
  unfold route_message. case_bool_decide; [intros; simplify_eq; by left|].
  case_bool_decide; [|done]. destruct (parseJSONInt64 _) as [sid b].
  destruct (checkGroupTrigger c content mentioned) as [[] stripped]; [|done].
  intros; simplify_eq. by right.
Qed.

(** Everything about a message that is published. *)
Lemma handleMessage_published E c raw fs h m :
  handleMessage E c raw fs = h → hd_message h = Some m →
  let messageID := parseJSONString raw_text (ev_MessageID raw) in
  let c1 := (isDuplicate c messageID).2 in
  (parseJSONInt64 (ev_UserID raw)).2 = true ∧
  (isDuplicate c messageID).1 = false ∧
  IsAllowed (ob_base c) (im_SenderID m) = true ∧
  im_SenderID m = pretty (parseJSONInt64 (ev_UserID raw)).1 ∧
  im_ChatID m = event_chat raw ∧
  ob_lastMessageID (hd_channel h) !! im_ChatID m = Some messageID ∧
  (ev_MessageType raw = "private" ∨
   ev_MessageType raw = "group" ∧
     ∃ content mentioned, content ≠ "" ∧ checkGroupTrigger c1 content mentioned = (true, im_Content m)) ∧
  ∃ selfID, let p := parseMessageSegments E (ev_Message raw) selfID fs in
    im_Media m = pm_Media p.1 ∧ hd_files h = remove_files (pm_LocalFiles p.1) p.2.
Proof.
  unfold handleMessage, OneBot.handleMessage. intros <-. cbv zeta.
  destruct (parseJSONInt64 (ev_UserID raw)) as [userID ok] eqn:Eu.
  destruct ok; cbn [negb]; [|done].
  destruct (parseJSONInt64 (ev_GroupID raw)) as [groupID gok] eqn:Eg.
  destruct (parseJSONInt64 (ev_SelfID raw)) as [selfID sok].
  set (selfID' := if (selfID =? 0)%Z then ob_selfID c else selfID).
  destruct (OneBot.parseMessageSegments Sprint E (ev_Message raw) selfID' fs) as [parsed fs1] eqn:Ep.
  destruct (message_content _ _ _) as [mentioned content].
  set (messageID := parseJSONString raw_text (ev_MessageID raw)).
  pose proof (isDuplicate_base c messageID) as Hb.
  destruct (isDuplicate c messageID) as [[] c1] eqn:Ed; cbn in Hb |- *; [done|].
  destruct (decide (content = "")) as [Hc|Hc]; [by rewrite bool_decide_eq_true_2 by done|].
  rewrite bool_decide_eq_false_2 by done.
  destruct (route_message _ _ _ _ _ _ _ _) as [[[chatID content'] metadata]|] eqn:Er; [|done].
  apply route_message_Some in Er.
  intros Hm. split; [done|]. split; [done|].
  destruct (mark_received_state c1 raw chatID messageID) as [Hcb Hcl].
  destruct (mark_received c1 raw chatID messageID) as [c2 emoji]. cbn in Hm, Hcb, Hcl |- *. rewrite Hb in Hcb.
  unfold HandleMessage in Hm. rewrite Hcb in Hm.
  destruct (IsAllowed (ob_base c) (pretty userID)) eqn:Ea; cbn in Hm; [|done]. simplify_eq. cbn.
  split; [done|]. split; [done|].
  split. { unfold event_chat. rewrite Eu, Eg. cbn. destruct Er as [(-> & -> & _)|(-> & -> & _)]; reflexivity. }
  split; [by rewrite Hcl, lookup_insert_eq|].
  split.
  { destruct Er as [(? & _ & _)|(? & _ & Ht)]; [by left|right]. split; [done|]. by exists content, mentioned. }
  exists selfID'. unfold parseMessageSegments. rewrite Ep. done.
Qed.

(** What a channel goes through between a message and its reply. *)
Inductive happening :=
| Hears (E : event_env) (raw : oneBotRawEvent) (fs : files)
| Sends (write_err : option string) (msg : OutboundMessage)
| Starts (ws_url : string) (interval : Z) (dial : bool) (login : option json)
| Reconnects (dial : bool) (login : option json)
| Loses
| Stops.

Definition listened_channel (c : OneBotChannel) (l : listened) : OneBotChannel :=
  match l with Handled h => hd_channel h | _ => c end.

Definition happens (c : OneBotChannel) (h : happening) : OneBotChannel :=
  match h with
  | Hears E raw fs => listened_channel c (listen_event raw_text Sprint E c raw fs)
  | Sends write_err msg => (Send write_err c msg).1.1.2
  | Starts ws_url interval dial login => (Start ws_url interval dial login c).2
  | Reconnects dial login => reconnect dial login c
  | Loses => read_error c
  | Stops => Stop c
  end.

Definition to_all (c : OneBotChannel) : OneBotChannel :=
  mk_OneBotChannel (mk_BaseChannel (bc_name (ob_base c)) [] (bc_running (ob_base c)))
    (ob_GroupTriggerPrefix c) (ob_connected c) (ob_dedup c) (ob_ring c) (ob_idx c) (ob_selfID c)
    (ob_lastMessageID c) (ob_pendingEmojiMsg c).

(** The chat and the identifier of a message of a user the channel takes note of:
    one that it would hand on if everyone were admitted.  A user with a positive identifier
    is checked before, one without only afterwards. *)
Definition noted (c : OneBotChannel) (h : happening) : option (string * string) :=
  match h with
  | Hears E raw fs =>
      let '(userID, ok) := parseJSONInt64 (ev_UserID raw) in
      if ok && (0 <? userID)%Z && negb (IsAllowed (ob_base c) (pretty userID)) then None
      else match listen_event raw_text Sprint E (to_all c) raw fs with
           | Handled h => (λ m, (im_ChatID m, parseJSONString raw_text (ev_MessageID raw))) <$> hd_message h
           | _ => None
           end
  | _ => None
  end.

(** The identifiers noted for a chat, in order. *)
Fixpoint noted_ids (chat : string) (c : OneBotChannel) (hs : list happening) : list string :=
  match hs with
  | [] => []
  | h :: hs =>
      match noted c h with
      | Some (chat', id) => if bool_decide (chat' = chat) then [id] else []
      | None => []
      end ++ noted_ids chat (happens c h) hs
  end.

Lemma isDuplicate_to_all c id :
  isDuplicate (to_all c) id = ((isDuplicate c id).1, to_all (isDuplicate c id).2).
Proof. unfold isDuplicate. repeat case_bool_decide; done. Qed.

Lemma isDuplicate_last c id : ob_lastMessageID (isDuplicate c id).2 = ob_lastMessageID c.
Proof. unfold isDuplicate. repeat case_bool_decide; done. Qed.

Lemma fetchSelfID_last login c : ob_lastMessageID (fetchSelfID login c) = ob_lastMessageID c.
Proof. unfold fetchSelfID. repeat case_match; done. Qed.

(** Handling a message notes it exactly when everyone's would be handed on. *)
Lemma handleMessage_notes E c raw fs :
  ob_lastMessageID (hd_channel (handleMessage E c raw fs)) =
  match hd_message (handleMessage E (to_all c) raw fs) with
  | Some m => <[im_ChatID m := parseJSONString raw_text (ev_MessageID raw)]> (ob_lastMessageID c)
  | None => ob_lastMessageID c
  end.
Proof.
  unfold handleMessage, OneBot.handleMessage.
  destruct (parseJSONInt64 (ev_UserID raw)) as [userID []]; cbn [negb]; [|done].
  destruct (parseJSONInt64 (ev_GroupID raw)) as [groupID gok].
  destruct (parseJSONInt64 (ev_SelfID raw)) as [selfID sok].
  change (ob_selfID (to_all c)) with (ob_selfID c).
  destruct (OneBot.parseMessageSegments _ _ _ _ _) as [parsed fs1].
  destruct (message_content _ _ _) as [mentioned content]. cbv zeta.
  set (messageID := parseJSONString raw_text (ev_MessageID raw)).
  rewrite isDuplicate_to_all. pose proof (isDuplicate_last c messageID) as Hl.
  destruct (isDuplicate c messageID) as [[] c1]; cbn in Hl |- *; [by rewrite Hl|].
  case_bool_decide; [by rewrite <-Hl|].
  change (route_message (to_all c1)) with (route_message c1).
  destruct (route_message _ _ _ _ _ _ _ _) as [[[chatID content'] metadata]|]; [|by rewrite <-Hl].
  unfold mark_received. case_bool_decide; cbn; by rewrite Hl.
Qed.

Lemma happens_last c h :
  ob_lastMessageID (happens c h) =
  match noted c h with
  | Some (chat, id) => <[chat := id]> (ob_lastMessageID c)
  | None => ob_lastMessageID c
  end.
Proof.
  destruct h as [E raw fs|write_err msg|u i d l|d l| |]; cbn [happens noted]; try done.
  - unfold listen_event. destruct (parseJSONInt64 (ev_UserID raw)) as [userID ok] eqn:Eu.
    destruct (negb _); cbn [listened_channel]; [by destruct (ok && _ && _)|].
    destruct (isAPIResponse _); cbn [listened_channel]; [by destruct (ok && _ && _)|].
    unfold handleRawEvent. rewrite Eu.
    destruct (bool_decide (ev_PostType raw = "message")); [|by destruct (ok && _ && _)].
    destruct (ok && (0 <? userID)%Z && negb _) eqn:Ea; [done|]. cbn [listened_channel].
    assert (IsAllowed (ob_base (to_all c)) (pretty userID) = true) as -> by done.
    rewrite andb_false_r. fold handleMessage. rewrite handleMessage_notes.
    by destruct (hd_message _).
  - unfold Send. repeat case_match; done.
  - unfold Start. case_match; [done|]. destruct d; cbn; destruct (_ && _); cbn; by rewrite ?fetchSelfID_last.
  - unfold reconnect. repeat case_match; by rewrite ?fetchSelfID_last.
Qed.

Lemma lives_last chat c hs :
  ob_lastMessageID (foldl happens c hs) !! chat =
  match last (noted_ids chat c hs) with
  | Some id => Some id
  | None => ob_lastMessageID c !! chat
  end.
Proof.
  revert c. induction hs as [|h hs IH]; intros c; cbn [foldl noted_ids]; [done|].
  rewrite IH, happens_last, last_app. destruct (last (noted_ids _ _ _)); [done|].
  destruct (noted c h) as [[chat' id]|]; [|done]. case_bool_decide as E.
  - subst. by rewrite lookup_insert_eq.
  - by rewrite lookup_insert_ne.
Qed.

(** C19: a reply goes back where the message came from.  Whatever the channel goes
    through after it handed a message on (other messages, replies, lost and new
    connections), the reply to it, while the channel runs and is connected, is one
    request: to the user of a private message, or to the group.  It quotes the last
    message the channel noted in that chat before the reply is sent, if this has an
    identifier: the message itself unless another one has come in since. *)
Theorem reply_goes_back E c raw fs h m hs content write_err :
  listen_event raw_text Sprint E c raw fs = Handled h → hd_message h = Some m →
  let c' := foldl happens (hd_channel h) hs in
  let id := default (parseJSONString raw_text (ev_MessageID raw))
              (last (noted_ids (im_ChatID m) (hd_channel h) hs)) in
  let segments := (if bool_decide (id = "") then [] else [Reply id]) ++ [TextSegment content] in
  let request :=
    if bool_decide (ev_MessageType raw = "private")
    then mk_send_request "send_private_msg" "user_id" (parseJSONInt64 (ev_UserID raw)).1 segments
    else mk_send_request "send_group_msg" "group_id" (parseJSONInt64 (ev_GroupID raw)).1 segments in
  (Send write_err c' (mk_OutboundMessage "onebot" (im_ChatID m) content)).1.2 =
  if bc_running (ob_base c') && ob_connected c' && bool_decide (write_err = None) then [request] else [].
Proof.
  intros Hh Hm c' id segments request.
  assert (h = handleMessage E c raw fs) as ->.
  { revert Hh Hm. unfold listen_event, handleRawEvent. repeat case_match; try done; intros [= <-]; done. }
  destruct (handleMessage_published E c raw fs _ m eq_refl Hm) as (_ & _ & _ & _ & Hchat & Hlast & _).
  assert (buildSendRequest c' (mk_OutboundMessage "onebot" (im_ChatID m) content) = Ok request) as Hreq.
  { unfold buildSendRequest, buildMessageSegments. cbn [om_ChatID om_Content].
    assert (ob_lastMessageID c' !! im_ChatID m = Some id) as ->.
    { subst c' id. rewrite lives_last, Hlast. by destruct (last _). }
    fold segments. rewrite Hchat. unfold event_chat.
    pose proof (parseJSONInt64_range (ev_UserID raw)). pose proof (parseJSONInt64_range (ev_GroupID raw)).
    subst request. case_bool_decide.
    - assert (∀ s, CutPrefix ("private:" +:+ s) "group:" = None) as -> by (intros; reflexivity).
      rewrite CutPrefix_app. by rewrite ParseInt_pretty.
    - rewrite CutPrefix_app. by rewrite ParseInt_pretty. }
  unfold Send. destruct (bc_running (ob_base c')); [|done]. destruct (ob_connected c'); [|done].
  cbn [negb andb]. rewrite Hreq. destruct write_err; [done|]. cbn [om_ChatID].
  by destruct (ob_pendingEmojiMsg c' !! im_ChatID m).
Qed.
End published.

(** A message of a user in a group that mentions the bot, and the answer to it. *)
Definition demo_env : event_env :=
  mk_event_env "/tmp" true (λ i, "0123456789abcdef") (λ _ _, Some (mk_fetched 200 true (Some "data"))) None.
Definition demo_event (id : Z) (message : json) : oneBotRawEvent :=
  mk_oneBotRawEvent "message" "group" (Some (JNum id)) (Some (JNum 1001)) (Some (JStr "2002")) ""
    (Some message) None (Some (JNum 42)) "" None.
Definition demo_raw_text (v : json) : string := match v with JNum n => pretty n | _ => "" end.
Definition segment (type : string) (data : list (string * json)) : json :=
  JObj [("type", JStr type); ("data", JObj data)].
Definition demo_channel : OneBotChannel := NewOneBotChannel ["1001"] ["/ai"].

(** Finding: a reply quotes the last message of the chat, not the one it answers.
    Another message of the group comes in before the answer is sent. *)
Lemma reply_goes_back_witness :
  let first := demo_event 55 (JArr [segment "at" [("qq", JStr "42")]; segment "text" [("text", JStr " hi")]]) in
  let second := demo_event 56 (JArr [segment "at" [("qq", JStr "42")]; segment "text" [("text", JStr " and?")]]) in
  let c := set_connection true true demo_channel in
  ∃ h m, listen_event demo_raw_text (λ _, "") demo_env c first ∅ = Handled h ∧ hd_message h = Some m ∧
    im_Content m = "hi" ∧
    ∀ later, later = [] ∨ later = [Hears demo_env second ∅] →
    (Send None (foldl (happens demo_raw_text (λ _, "")) (hd_channel h) later)
       (mk_OutboundMessage "onebot" (im_ChatID m) "hello")).1.2 =
    [mk_send_request "send_group_msg" "group_id" 2002
       [Reply (if bool_decide (later = []) then "55" else "56"); TextSegment "hello"]].
Proof.
  intros first second c. eexists _, _. split; [reflexivity|]. split; [vm_compute; reflexivity|].
  split; [reflexivity|]. intros later [-> | ->].
  - refine (eq_trans (reply_goes_back demo_raw_text (λ _, "") demo_env c first ∅ _ _ [] "hello" None
      eq_refl _) _); vm_compute; reflexivity.
  - refine (eq_trans (reply_goes_back demo_raw_text (λ _, "") demo_env c first ∅ _ _
      [Hears demo_env second ∅] "hello" None eq_refl _) _); vm_compute; reflexivity.
Defined.

(** ** Files of media *)
Section media.
Context (raw_text Sprint : json → string).

(** The invariant of the loop: every path that is handed on is a local file, and
    every file that was not there before is one. *)
Definition acc_ok (fs : files) (a : segments_acc) : Prop :=
  sa_media a ⊆ sa_localFiles a ∧
  ∀ p x, sa_files a !! p = Some x → p ∈ sa_localFiles a ∨ fs !! p = Some x.

Lemma download_ok fs a tmp ok id filename answer path fs' :
  acc_ok fs a → DownloadFile tmp ok id filename answer (sa_files a) = (path, fs') →
  if bool_decide (path = "") then acc_ok fs (with_files fs' a) else acc_ok fs (add_local path fs' a).
Proof.
  intros [Hm Hf] H. case_bool_decide as Hp.
  - subst path. split; [done|]. intros p x Hx. cbn in Hx. apply Hf.
    eapply DownloadFile_failed; [done| |done]. apply Join_ne. intros E. apply (f_equal chars) in E.
    rewrite !chars_app in E. by destruct (chars (str_take 8 id)).
  - split; [cbn; set_solver|]. intros p x Hx. cbn in Hx |- *.
    eapply DownloadFile_files in H; [|done]. destruct H as [[-> _]|[?|H]]; [left; set_solver|done|].
    apply Hf in H. set_solver.
Qed.

Lemma add_media_ok fs a p : acc_ok fs a → p ∈ sa_localFiles a → acc_ok fs (add_media p a).
Proof. intros [Hm Hf] Hp. split; [cbn; set_solver|done]. Qed.

Lemma add_segment_ok E selfID i seg fs a : acc_ok fs a → acc_ok fs (add_segment Sprint E selfID i seg a).
Proof.
  intros Ha. unfold add_segment. case_bool_decide; [done|].
  destruct (key "data" seg) as [[| | | | |data]|]; try done.
  case_bool_decide; [by destruct (key "text" data) as [[]|]|].
  case_bool_decide; [by destruct (_ && _)|].
  case_bool_decide; [|case_bool_decide; [|case_bool_decide; [by destruct (key "id" data)|by case_bool_decide]]].
  - unfold file_segment. case_bool_decide; [done|].
    destruct (DownloadFile _ _ _ _ _ _) as [path fs'] eqn:Hd. apply (download_ok fs) in Hd; [|done].
    destruct (bool_decide (path = "")); [done|].
    change (acc_ok fs (add_media path (add_local path fs' a))). apply add_media_ok; [done|cbn; set_solver].
  - unfold record_segment. case_bool_decide; [done|].
    destruct (DownloadFile _ _ _ _ _ _) as [path fs'] eqn:Hd. apply (download_ok fs) in Hd; [|done].
    destruct (bool_decide (path = "")); [done|].
    assert (path ∈ sa_localFiles (add_local path fs' a)) as Hp by (cbn; set_solver).
    destruct (ee_transcribe E) as [transcribe|]; [destruct (transcribe fs' path); [done|]|];
      apply add_media_ok; done.
Qed.

Lemma parse_files E raw selfID fs :
  let p := parseMessageSegments Sprint E raw selfID fs in
  pm_Media p.1 ⊆ pm_LocalFiles p.1 ∧
  ∀ q x, p.2 !! q = Some x → q ∈ pm_LocalFiles p.1 ∨ fs !! q = Some x.
Proof.
  unfold parseMessageSegments.
  assert (∀ i segs a, acc_ok fs a → acc_ok fs (add_segments Sprint E selfID i segs a)) as Hsegs.
  { intros i segs. revert i. induction segs as [|seg segs IH]; intros i a Ha; cbn; [done|].
    by apply IH, add_segment_ok. }
  assert (∀ q x (P : Prop), fs !! q = Some x → P ∨ fs !! q = Some x) as Hor by tauto.
  destruct raw as [v|]; [|cbn; auto]. destruct (string_of v) as [s|].
  { destruct (strip_mention selfID s); cbn; auto. }
  destruct v; try (cbn; by auto). destruct (mapM map_of l) as [segs|]; [|cbn; by auto].
  destruct (Hsegs 0 segs (mk_segments_acc [] false [] [] "" fs)) as [Hm Hf]; [|done].
  split; [done|]. cbn. auto.
Qed.

(** Handling an event leaves no file behind. *)
Lemma event_leaves_no_files E c raw fs : hd_files (handleMessage raw_text Sprint E c raw fs) ⊆ fs.
Proof.
  unfold handleMessage. destruct (parseJSONInt64 (ev_UserID raw)) as [userID []]; [|done].
  destruct (parseJSONInt64 (ev_GroupID raw)) as [groupID gok].
  destruct (parseJSONInt64 (ev_SelfID raw)) as [selfID sok]. cbn [negb].
  set (selfID' := if (selfID =? 0)%Z then ob_selfID c else selfID).
  destruct (parse_files E (ev_Message raw) selfID' fs) as [_ Hf].
  destruct (parseMessageSegments Sprint E (ev_Message raw) selfID' fs) as [parsed fs1]. cbn in Hf.
  assert (remove_files (pm_LocalFiles parsed) fs1 ⊆ fs) as Hsub.
  { apply map_subseteq_spec. intros q x. rewrite remove_files_lookup. case_decide as Hq; [done|].
    intros Hx. by destruct (Hf _ _ Hx). }
  destruct (message_content _ _ _) as [mentioned content]. destruct (isDuplicate c _) as [[] c1]; [done|].
  case_bool_decide; [done|]. destruct (route_message _ _ _ _ _ _ _ _) as [[[chatID content'] metadata]|]; [|done].
  by destruct (mark_received _ _ _ _) as [c2 emoji].
Qed.

(** Finding: the files named in a message are removed before anyone can read them:
    handling an event publishes the message and then removes its files. *)
Lemma published_media_are_gone E c raw fs m p :
  let h := handleMessage raw_text Sprint E c raw fs in
  hd_message h = Some m → p ∈ im_Media m → hd_files h !! p = None.
Proof.
  intros h Hm Hp.
  destruct (handleMessage_published raw_text Sprint E c raw fs h m eq_refl Hm)
    as (_ & _ & _ & _ & _ & _ & _ & selfID & Hmedia & Hfiles).
  rewrite Hfiles, remove_files_lookup. rewrite decide_True; [done|].
  destruct (parse_files E (ev_Message raw) selfID fs) as [Hsub _]. apply Hsub. by rewrite <-Hmedia.
Qed.
End media.

(** An event with an image: the message names a file that is no longer there. *)
Example image_is_gone :
  let h := handleMessage demo_raw_text (λ _, "") demo_env demo_channel
             (demo_event 55 (JArr [segment "text" [("text", JStr "/ai look")];
                                segment "image" [("url", JStr "http://x/y.png")]])) ∅ in
  im_Media <$> hd_message h = Some ["/tmp/tinyclaw_media/01234567_image.jpg"] ∧ hd_files h = ∅.
Proof. split; vm_compute; reflexivity. Qed.

(** Finding: a mention whose identifier is a number, not a text, is compared in the
    format of a float, so the bot does not see that it is mentioned. *)
Lemma numeric_mention_missed :
  let a := mk_segments_acc [] false [] [] "" ∅ in
  let at_bot qq := add_segment (λ _, "") demo_env 123456789 0
                     [("type", JStr "at"); ("data", JObj [("qq", qq)])] a in
  sa_mentioned (at_bot (JStr "123456789")) = true ∧ sa_mentioned (at_bot (JNum 123456789)) = false.
Proof. split; vm_compute; reflexivity. Qed.

(** Finding: emptiness is tested before the trigger is cut off, so a message that is
    only a trigger is published with an empty content. *)
Lemma bare_trigger_published :
  let h := handleMessage demo_raw_text (λ _, "") demo_env demo_channel
             (demo_event 55 (JArr [segment "text" [("text", JStr "/ai")]])) ∅ in
  im_Content <$> hd_message h = Some "".
Proof. vm_compute. reflexivity. Qed.

(** A message of a group needs a mention or a trigger; a trigger is cut off. *)
Lemma trigger_prefix_spec prefixes content stripped :
  trigger_prefix prefixes content = (true, stripped) ↔
  ∃ before prefix after, (∃ rest, prefixes = before ++ prefix :: rest) ∧ prefix ≠ "" ∧
    content = prefix +:+ after ∧ stripped = trim_space after ∧
    Forall (λ q, q = "" ∨ has_prefix content q = false) before.
Proof.
  split.
  - induction prefixes as [|q rest IH]; cbn; [done|]. case_bool_decide as Hq.
    { intros (before & prefix & after & [r ->] & H)%IH. exists (q :: before), prefix, after.
      destruct H as (? & ? & ? & ?). split; [by exists r|]. split_and!; try done. constructor; [by left|done]. }
    unfold CutPrefix. destruct (has_prefix content q) eqn:Hp.
    + intros [= <-]. exists [], q, (str_drop (String.length q) content). split; [by exists rest|].
      split; [done|]. split; [|done]. apply has_prefix_l_spec in Hp as [k Hk].
      unfold str_drop. rewrite Hk, <-length_chars, drop_app_length, <-(implode_chars q) at 1.
      rewrite <-implode_app, <-Hk. by rewrite implode_chars.
    + intros (before & prefix & after & [r ->] & H)%IH. exists (q :: before), prefix, after.
      destruct H as (? & ? & ? & ?). split; [by exists r|]. split_and!; try done. constructor; [by right|done].
  - intros (before & prefix & after & [rest ->] & Hne & -> & -> & Hb).
    induction Hb as [|q before Hq _ IH]; cbn.
    + rewrite bool_decide_eq_false_2 by done. by rewrite CutPrefix_app.
    + case_bool_decide; [done|]. destruct Hq as [?|Hq]; [done|]. unfold CutPrefix. by rewrite Hq.
Qed.

(** A channel that is stopped, or has lost its connection, sends nothing; what it
    remembers of messages and chats is kept, so that a lost connection makes no
    duplicates. *)
Lemma no_connection_no_send write_err c msg :
  let c' := read_error c in
  (Send write_err c' msg).1.2 = [] ∧ (Send write_err c' msg).1.1.1 ≠ None ∧
  (Send write_err (Stop c) msg).1.2 = [] ∧ ob_dedup c' = ob_dedup c ∧ ob_ring c' = ob_ring c ∧
  ob_lastMessageID c' = ob_lastMessageID c.
Proof. unfold Send, read_error, Stop. cbn. by destruct (bc_running (ob_base c)). Qed.

(** The loop waits five seconds at least, also when the setting overflows. *)
Lemma reconnect_waits seconds : (5 * second <= reconnect_interval seconds)%Z.
Proof. unfold reconnect_interval. lia. Qed.
