(* ===== verification/OneBotRequests.v ===== *)
(** * Requests to the OneBot platform (pkg/channels/onebot.go)

    A request waits on a channel of its own, which the listener finds by the echo of
    an answer.  Goroutines make requests, the listener delivers answers, and [Stop]
    closes the channels: a relation interleaves their atomic steps. *)
From stdpp Require Import base gmap strings list pretty.
From Stdlib Require Import Ascii ZArith Lia.
From S2P Require Import Prelude GoStrings Encoding.
#[local] Open Scope nat_scope.

(** An answer, with its echo. *)
Record answer := mk_answer { an_Echo : string; an_body : string }.

(** A Go channel of capacity one, with the echo it was made for. *)
Record reply_channel := mk_reply_channel {
  rc_echo : string;
  rc_buffer : option answer;
  rc_closed : bool;
}.

(** What [sendAPIRequest] returns: an answer, nothing from a closed channel, or the
    error of a timeout, of a write or of a canceled context. *)
Inductive request_result := Answered (a : answer) | NilAnswer | RequestFailed.

Record requests := mk_requests {
  rq_channels : list reply_channel;
  rq_pending : gmap string nat;
  rq_waiting : gset nat;
  rq_returned : list (string * request_result);
  (** The channel that the listener is about to send on, and the answer. *)
  rq_listener : option (nat * answer);
  rq_stopped : bool;
  rq_panicked : bool;
}.

Definition no_requests : requests := mk_requests [] ∅ ∅ [] None false false.

(** [fmt.Sprintf("api_%d_%d", time.Now().UnixNano(), atomic.AddInt64(&c.echoCounter, 1))]:
    the counter is the number of requests so far. *)
Definition echo_of (now : Z) (s : requests) : string :=
  "api_" +:+ pretty now +:+ "_" +:+ pretty (S (length (rq_channels s))).

Definition begin_request (now : Z) (s : requests) : requests :=
  let ch := length (rq_channels s) in
  mk_requests (rq_channels s ++ [mk_reply_channel (echo_of now s) None false])
    (<[echo_of now s := ch]> (rq_pending s)) (rq_waiting s ∪ {[ch]}) (rq_returned s) (rq_listener s)
    (rq_stopped s) (rq_panicked s).

(** The listener looks the channel of an answer up, under the lock. *)
Definition take_answer (a : answer) (s : requests) : requests :=
  mk_requests (rq_channels s) (rq_pending s) (rq_waiting s) (rq_returned s)
    ((λ ch, (ch, a)) <$> rq_pending s !! an_Echo a) (rq_stopped s) (rq_panicked s).

(** It sends without the lock, unless the channel is full; on a closed channel the
    send panics. *)
Definition deliver (ch : nat) (a : answer) (s : requests) : requests :=
  match rq_channels s !! ch with
  | None => s
  | Some c =>
      let channels := if rc_buffer c then rq_channels s
                      else <[ch := mk_reply_channel (rc_echo c) (Some a) (rc_closed c)]> (rq_channels s) in
      mk_requests (if rc_closed c then rq_channels s else channels) (rq_pending s) (rq_waiting s)
        (rq_returned s) None (rq_stopped s) (rq_panicked s || rc_closed c)
  end.

(** The request returns; its entry is deleted. *)
Definition finish (ch : nat) (c : reply_channel) (r : request_result) (s : requests) : requests :=
  mk_requests (rq_channels s) (delete (rc_echo c) (rq_pending s)) (rq_waiting s ∖ {[ch]})
    (rq_returned s ++ [(rc_echo c, r)]) (rq_listener s) (rq_stopped s) (rq_panicked s).

Definition close_channels (chs : gset nat) (l : list reply_channel) : list reply_channel :=
  imap (λ i c, if bool_decide (i ∈ chs) then mk_reply_channel (rc_echo c) (rc_buffer c) true else c) l.

(** [Stop], under the lock of the pending requests. *)
Definition stop_requests (s : requests) : requests :=
  mk_requests (close_channels (map_img (rq_pending s)) (rq_channels s)) ∅ (rq_waiting s) (rq_returned s)
    (rq_listener s) true (rq_panicked s).

Inductive request_step : requests → requests → Prop :=
| step_begin now s : rq_panicked s = false → request_step s (begin_request now s)
| step_take a s : rq_panicked s = false → rq_listener s = None → request_step s (take_answer a s)
| step_deliver ch a s : rq_panicked s = false → rq_listener s = Some (ch, a) → request_step s (deliver ch a s)
| step_receive ch c s :
    rq_panicked s = false → ch ∈ rq_waiting s → rq_channels s !! ch = Some c →
    is_Some (rc_buffer c) ∨ rc_closed c = true →
    request_step s (finish ch c (match rc_buffer c with Some a => Answered a | None => NilAnswer end) s)
| step_fail ch c s :
    rq_panicked s = false → ch ∈ rq_waiting s → rq_channels s !! ch = Some c →
    request_step s (finish ch c RequestFailed s)
| step_stop s : rq_panicked s = false → request_step s (stop_requests s).

Definition reachable (s : requests) : Prop := rtc request_step no_requests s.

(** ** The invariant *)
Record requests_ok (s : requests) : Prop := {
  ro_pending : ∀ e ch, rq_pending s !! e = Some ch → ∃ c, rq_channels s !! ch = Some c ∧ rc_echo c = e;
  ro_buffer : ∀ ch c a, rq_channels s !! ch = Some c → rc_buffer c = Some a → an_Echo a = rc_echo c;
  ro_listener : ∀ ch a, rq_listener s = Some (ch, a) →
    ∃ c, rq_channels s !! ch = Some c ∧ rc_echo c = an_Echo a;
  ro_returned : ∀ e a, (e, Answered a) ∈ rq_returned s → an_Echo a = e;
  ro_open : rq_stopped s = false → ∀ ch c, rq_channels s !! ch = Some c → rc_closed c = false;
  ro_calm : rq_stopped s = false → rq_panicked s = false;
  ro_echoes : ∀ ch c, rq_channels s !! ch = Some c →
    ∃ now : Z, rc_echo c = "api_" +:+ pretty now +:+ "_" +:+ pretty (S ch);
}.

Lemma no_requests_ok : requests_ok no_requests.
Proof. split; cbn; intros; try done; set_solver. Qed.

Lemma begin_ok now s : requests_ok s → requests_ok (begin_request now s).
Proof.
  intros [Hp Hb Hl Hr Ho Hc He].
  assert (∀ ch c, rq_channels (begin_request now s) !! ch = Some c →
            rq_channels s !! ch = Some c ∨
            ch = length (rq_channels s) ∧ c = mk_reply_channel (echo_of now s) None false) as Hchs.
  { intros ch c [H|[H1 H2]]%lookup_app_Some; [by left|right].
    apply list_lookup_singleton_Some in H2 as [? <-]. split; [lia|done]. }
  assert (∀ ch c, rq_channels s !! ch = Some c → rq_channels (begin_request now s) !! ch = Some c) as Hkeep
    by (intros; by apply lookup_app_l_Some).
  split.
  - intros e ch H. cbn in H. apply lookup_insert_Some in H as [[<- <-]|[_ H]].
    + exists (mk_reply_channel (echo_of now s) None false). split; [|done]. cbn. by rewrite lookup_app_r, Nat.sub_diag.
    + destruct (Hp _ _ H) as (c & ? & ?). eauto.
  - intros ch c a [H|[_ ->]]%Hchs Hbuf; [eauto|done].
  - intros ch a H. destruct (Hl _ _ H) as (c & ? & ?). eauto.
  - done.
  - intros Hs ch c [H|[_ ->]]%Hchs; [eauto|done].
  - done.
  - intros ch c [H|[-> ->]]%Hchs; [eauto|]. by exists now.
Qed.

Lemma take_ok a s : requests_ok s → requests_ok (take_answer a s).
Proof.
  intros [Hp Hb Hl Hr Ho Hc He]. split; try done. cbn. intros ch a' H.
  destruct (rq_pending s !! an_Echo a) eqn:E; simplify_eq/=. by apply Hp in E.
Qed.

Lemma deliver_ok ch a s : rq_listener s = Some (ch, a) → requests_ok s → requests_ok (deliver ch a s).
Proof.
  intros HL [Hp Hb Hl Hr Ho Hc He]. destruct (Hl _ _ HL) as (c & Hch & Hecho).
  unfold deliver. rewrite Hch.
  set (chs := if rc_closed c then rq_channels s else if rc_buffer c then rq_channels s else _).
  assert (∀ i c', chs !! i = Some c' → ∃ c0, rq_channels s !! i = Some c0 ∧ rc_echo c' = rc_echo c0 ∧
            rc_closed c' = rc_closed c0 ∧ (rc_buffer c' = rc_buffer c0 ∨ i = ch ∧ c0 = c ∧ rc_buffer c' = Some a)) as Hchs.
  { intros i c'. unfold chs. destruct (rc_closed c) eqn:Ecl; [eauto 6|]. destruct (rc_buffer c); [eauto 6|].
    intros [(? & <- & _)|[_ H]]%list_lookup_insert_Some; [subst i|eauto 6].
    exists c. split; [done|]. split; [done|]. split; [|by right]. done. }
  assert (∀ i c0, rq_channels s !! i = Some c0 → ∃ c', chs !! i = Some c' ∧ rc_echo c' = rc_echo c0) as Hkeep.
  { intros i c0 H. unfold chs. destruct (rc_closed c); [eauto|]. destruct (rc_buffer c); [eauto|].
    destruct (decide (i = ch)) as [->|].
    - rewrite list_lookup_insert_eq by (by eapply lookup_lt_Some). simplify_eq. eauto.
    - rewrite list_lookup_insert_ne by done. eauto. }
  split; cbn.
  - intros e i H. destruct (Hp _ _ H) as (c0 & H0 & <-). by apply Hkeep in H0.
  - intros i c' a' H Hbuf. destruct (Hchs _ _ H) as (c0 & H0 & -> & _ & [E|(-> & -> & E)]).
    + eapply Hb; [done|congruence].
    + by simplify_eq.
  - done.
  - done.
  - intros Hs i c' H. destruct (Hchs _ _ H) as (c0 & H0 & _ & -> & _). eauto.
  - intros Hs. by rewrite (Hc Hs), (Ho Hs _ _ Hch).
  - intros i c' H. destruct (Hchs _ _ H) as (c0 & H0 & -> & _). eauto.
Qed.

Lemma finish_request_ok ch c r s :
  rq_channels s !! ch = Some c → (∀ a, r = Answered a → rc_buffer c = Some a) →
  requests_ok s → requests_ok (finish ch c r s).
Proof.
  intros Hch Hr' [Hp Hb Hl Hr Ho Hc He]. split; try done; cbn.
  - intros e i [_ H]%lookup_delete_Some. eauto.
  - intros e a [H|H]%elem_of_app; [eauto|]. apply list_elem_of_singleton in H. simplify_eq. eauto.
Qed.

Lemma close_lookup chs l i c :
  close_channels chs l !! i = Some c →
  ∃ c0, l !! i = Some c0 ∧ rc_echo c = rc_echo c0 ∧ rc_buffer c = rc_buffer c0.
Proof.
  unfold close_channels. rewrite list_lookup_imap. destruct (l !! i) as [c0|]; cbn; [|done].
  intros [= <-]. exists c0. by case_bool_decide.
Qed.

Lemma stop_ok s : requests_ok s → requests_ok (stop_requests s).
Proof.
  intros [Hp Hb Hl Hr Ho Hc He]. split; cbn; try done.
  - intros ch c a (c0 & H0 & -> & ->)%close_lookup. eauto.
  - intros ch a H. destruct (Hl _ _ H) as (c & Hch & Hecho). unfold close_channels.
    rewrite list_lookup_imap, Hch. cbn. eexists. split; [done|]. by case_bool_decide.
  - intros ch c (c0 & H0 & -> & _)%close_lookup. eauto.
Qed.

Lemma request_step_ok s s' : request_step s s' → requests_ok s → requests_ok s'.
Proof.
  destruct 1; intros Hok.
  - by apply begin_ok.
  - by apply take_ok.
  - by apply deliver_ok.
  - apply finish_request_ok; [done| |done]. by destruct (rc_buffer c); intros; simplify_eq.
  - by apply finish_request_ok.
  - by apply stop_ok.
Qed.

Lemma reachable_requests_ok s : reachable s → requests_ok s.
Proof.
  revert s. apply (rtc_ind_r requests_ok no_requests); [apply no_requests_ok|].
  intros s s' _ H Hok. by apply (request_step_ok s s').
Qed.

(** Echoes tell requests apart, whatever the clock reads. *)
Lemma echo_inj (now now' : Z) (k k' : nat) :
  "api_" +:+ pretty now +:+ "_" +:+ pretty k = "api_" +:+ pretty now' +:+ "_" +:+ pretty k' →
  k = k' ∧ now = now'.
Proof.
  intros H. apply (inj (String.append "api_")) in H.
  assert (∀ n : Z, "_"%char ∉ chars (pretty n)) as Hfree.
  { intros n Hn. apply pretty_Z_digits in Hn as [Hd|Hd]; [by vm_compute in Hd|done]. }
  assert (cut (pretty now +:+ String "_" (pretty k)) "_" = cut (pretty now' +:+ String "_" (pretty k')) "_") as E
    by (exact (f_equal (λ s, cut s "_") H)).
  rewrite !cut_app in E by apply Hfree. injection E as E1 E2. split; by apply (inj pretty).
Qed.

(** C21: in every run, what a request returns as its answer carries its own echo, and
    different requests have different echoes; the process does not panic before
    the channel is stopped. *)
Theorem answers_reach_their_requests s :
  reachable s →
  (∀ e a, (e, Answered a) ∈ rq_returned s → an_Echo a = e) ∧
  (∀ i j c d, rq_channels s !! i = Some c → rq_channels s !! j = Some d → rc_echo c = rc_echo d → i = j) ∧
  (rq_stopped s = false → rq_panicked s = false).
Proof.
  intros [Hp Hb Hl Hr Ho Hc He]%reachable_requests_ok. split; [done|]. split; [|done].
  intros i j c d Hi Hj E. destruct (He _ _ Hi) as [now Ec], (He _ _ Hj) as [now' Ed].
  rewrite Ec, Ed in E. apply echo_inj in E as [E _]. lia.
Qed.

(** A request and its answer, the channel being stopped between the lookup of the
    waiting request and the send. *)
Definition raced_1 : requests := begin_request 7 no_requests.
Definition the_answer : answer := mk_answer "api_7_1" "{}".
Definition raced_2 : requests := take_answer the_answer raced_1.
Definition raced_answered : requests := finish 0 (mk_reply_channel "api_7_1" (Some the_answer) false)
                                          (Answered the_answer) (deliver 0 the_answer raced_2).

Lemma raced_2_reachable : reachable raced_2.
Proof.
  eapply rtc_l; [apply (step_begin 7); reflexivity|].
  eapply rtc_l; [by apply (step_take the_answer)|]. apply rtc_refl.
Qed.

Lemma answers_reach_their_requests_witness :
  (("api_7_1", Answered the_answer) ∈ rq_returned raced_answered) ∧
  rq_panicked raced_answered = false.
Proof.
  assert (reachable raced_answered) as H.
  { unfold reachable. eapply rtc_r; [eapply rtc_r; [apply raced_2_reachable|]|].
    - apply (step_deliver 0 the_answer); reflexivity.
    - apply (step_receive 0 (mk_reply_channel "api_7_1" (Some the_answer) false)); [reflexivity| |reflexivity|].
      + refine (bool_decide_unpack _ _). vm_compute. exact I.
      + left. by exists the_answer. }
  split; [refine (list_elem_of_here _ _)|].
  apply (answers_reach_their_requests raced_answered H). reflexivity.
Defined.

(** Finding: when [Stop] closes the channel of a request after the listener has
    looked it up, the listener sends on a closed channel, and the process panics. *)
Lemma stop_races_listener : ∃ s, reachable s ∧ rq_panicked s = true.
Proof.
  exists (deliver 0 the_answer (stop_requests raced_2)). split; [|reflexivity].
  eapply rtc_r; [eapply rtc_r; [apply raced_2_reachable|apply step_stop; reflexivity]|].
  apply step_deliver; reflexivity.
Qed.
