(* ===== verification/Line.v ===== *)
(** * The LINE channel (pkg/channels/line.go)

    Requests to the webhook are signed; their events become inbound messages.
    Outbound messages use the reply token of the last event of the chat while it is
    fresh, and are pushed otherwise.  The keyed hash, the decoding of JSON, the
    answers of the platform and the time are parameters. *)
From stdpp Require Import base gmap strings list.
From Stdlib Require Import Ascii ZArith Lia.
From S2P Require Import Prelude GoStrings ProviderTypes Encoding Bus Channels Media.
#[local] Open Scope nat_scope.

(** ** Data *)
Record lineSource := mk_lineSource {
  ls_Type : string;
  ls_UserID : string;
  ls_GroupID : string;
  ls_RoomID : string;
}.

Record lineMentionee := mk_lineMentionee {
  mn_Index : Z;
  mn_Length : Z;
  mn_Type : string;
  mn_UserID : string;
}.

(** [lm_Mention] is [None] when there is no mention object. *)
Record lineMessage := mk_lineMessage {
  lm_ID : string;
  lm_Type : string;
  lm_Text : string;
  lm_QuoteToken : string;
  lm_Mention : option (list lineMentionee);
}.

(** The message is decoded when the event is processed; [None] when that fails. *)
Record lineEvent := mk_lineEvent {
  le_Type : string;
  le_ReplyToken : string;
  le_Source : lineSource;
  le_Message : option lineMessage;
}.

Record LINEChannel := mk_LINEChannel {
  li_base : BaseChannel;
  li_ChannelSecret : string;
  li_ChannelAccessToken : string;
  li_botUserID : string;
  li_botBasicID : string;
  li_botDisplayName : string;
  li_replyTokens : gmap string (string * time);
  li_quoteTokens : gmap string string;
}.

Definition lineReplyTokenMaxAge : duration := (25 * second)%Z.

Definition NewLINEChannel (secret token : string) (allow : list string) : option LINEChannel :=
  if bool_decide (secret = "" ∨ token = "") then None
  else Some (mk_LINEChannel (NewBaseChannel "line" allow) secret token "" "" "" ∅ ∅).

Definition with_tokens (c : LINEChannel) (replies : gmap string (string * time)) (quotes : gmap string string) :
    LINEChannel :=
  mk_LINEChannel (li_base c) (li_ChannelSecret c) (li_ChannelAccessToken c) (li_botUserID c)
    (li_botBasicID c) (li_botDisplayName c) replies quotes.

(** [fetchBotInfo]: the status and the decoded profile. *)
Definition fetchBotInfo (answer : result string (Z * result string (string * string * string)))
    (c : LINEChannel) : option string * LINEChannel :=
  match answer with
  | Err e => (Some e, c)
  | Ok (status, info) =>
      if negb (status =? 200)%Z then (Some "bot info API returned an error status", c)
      else
        match info with
        | Err e => (Some e, c)
        | Ok (userID, basicID, displayName) =>
            (None, mk_LINEChannel (li_base c) (li_ChannelSecret c) (li_ChannelAccessToken c) userID basicID
                     displayName (li_replyTokens c) (li_quoteTokens c))
        end
  end.

Definition set_running (running : bool) (c : LINEChannel) : LINEChannel :=
  mk_LINEChannel (setRunning running (li_base c)) (li_ChannelSecret c) (li_ChannelAccessToken c) (li_botUserID c)
    (li_botBasicID c) (li_botDisplayName c) (li_replyTokens c) (li_quoteTokens c).

(** A profile that cannot be had only turns the detection of mentions off. *)
Definition Start_line (answer : result string (Z * result string (string * string * string))) (c : LINEChannel) :
    LINEChannel := set_running true (fetchBotInfo answer c).2.
Definition Stop_line (c : LINEChannel) : LINEChannel := set_running false c.

(** ** The webhook *)
Section webhook.
(** HMAC-SHA256 of a body under a key. *)
Context (hmac : string → string → list ascii).

Definition verifySignature (c : LINEChannel) (body signature : string) : bool :=
  if bool_decide (signature = "") then false
  else bool_decide (implode (std_encode (hmac (li_ChannelSecret c) body)) = signature).

(** The status of the answer, and the events that are processed. *)
Definition webhookHandler (events_of_json : string → option (list lineEvent)) (c : LINEChannel)
    (method : string) (body : result string string) (signature : string) : Z * list lineEvent :=
  if negb (bool_decide (method = "POST")) then (405%Z, [])
  else
    match body with
    | Err _ => (400%Z, [])
    | Ok body =>
        if negb (verifySignature c body signature) then (403%Z, [])
        else match events_of_json body with
             | None => (400%Z, [])
             | Some events => (200%Z, events)
             end
    end.

(** Only events of a body that was signed with the secret of the channel are
    processed; with an answer other than 200, none is. *)
Lemma webhook_authentic events_of_json c method body signature :
  let '(status, events) := webhookHandler events_of_json c method body signature in
  (status ≠ 200%Z → events = []) ∧
  (status = 200%Z → ∃ text, body = Ok text ∧ events_of_json text = Some events ∧
     signature = implode (std_encode (hmac (li_ChannelSecret c) text)) ∧ signature ≠ "").
Proof.
  unfold webhookHandler, verifySignature. case_bool_decide; cbn [negb]; [|done].
  destruct body as [text|]; [|done]. case_bool_decide; cbn [negb]; [done|].
  case_bool_decide; cbn [negb]; [|done]. destruct (events_of_json text) as [events|] eqn:E; [|done].
  split; [done|]. intros _. exists text. by subst signature.
Qed.
End webhook.

(** ** Mentions *)

(** [l[lo:hi]], [None] when the bounds are not in order (a panic). *)
Definition slice {A} (lo hi : Z) (l : list A) : option (list A) :=
  if bool_decide (0 <= lo <= hi ∧ hi <= Z.of_nat (length l))%Z
  then Some (take (Z.to_nat (hi - lo)) (drop (Z.to_nat lo) l)) else None.

Definition of_runes (l : list (list ascii)) : string := implode (mjoin l).

Definition mention_end (m : lineMentionee) : Z := wrap64 (mn_Index m + mn_Length m).

(** Whether the text of a mention has the name of the bot; [None] is a panic. *)
Definition names_bot (c : LINEChannel) (text : list (list ascii)) (m : lineMentionee) : option bool :=
  if (0 <=? mn_Index m)%Z && (0 <? mn_Length m)%Z && (mention_end m <=? Z.of_nat (length text))%Z
  then mentionText ← slice (mn_Index m) (mention_end m) text;
       Some (contains (of_runes mentionText) (li_botDisplayName c))
  else Some false.

Fixpoint any_names_bot (c : LINEChannel) (text : list (list ascii)) (ms : list lineMentionee) : option bool :=
  match ms with
  | [] => Some false
  | m :: rest => b ← names_bot c text m; if (b : bool) then Some true else any_names_bot c text rest
  end.

Definition is_bot (c : LINEChannel) (m : lineMentionee) : bool :=
  negb (bool_decide (li_botUserID c = "")) && bool_decide (mn_UserID m = li_botUserID c).

Definition isBotMentioned (c : LINEChannel) (msg : lineMessage) : option bool :=
  let name := li_botDisplayName c in
  let by_text := negb (bool_decide (name = "")) && contains (lm_Text msg) ("@" +:+ name) in
  match lm_Mention msg with
  | None => Some by_text
  | Some ms =>
      if existsb (λ m, bool_decide (mn_Type m = "all") || is_bot c m) ms then Some true
      else if bool_decide (name = "") then Some by_text
      else b ← any_names_bot c (runes (lm_Text msg)) ms; Some (b || by_text)
  end.

(** One mention in the loop from the last to the first: the text and whether
    something was cut off. *)
Definition strip_one (c : LINEChannel) (m : lineMentionee) (st : list (list ascii) * bool) :
    option (list (list ascii) * bool) :=
  let '(text, stripped) := st in
  shouldStrip ← (if is_bot c m then Some true
                 else if bool_decide (li_botDisplayName c = "") then Some false else names_bot c text m);
  if (shouldStrip : bool) && (0 <=? mn_Index m)%Z && (mention_end m <=? Z.of_nat (length text))%Z then
    before ← slice 0 (mn_Index m) text;
    after ← slice (mention_end m) (Z.of_nat (length text)) text;
    Some (before ++ after, true)
  else Some st.

Definition strip_mentions (c : LINEChannel) (ms : list lineMentionee) (text : list (list ascii)) :
    option (list (list ascii) * bool) :=
  foldr (λ m st, st ← st; strip_one c m st) (Some (text, false)) ms.

Definition strip_name (c : LINEChannel) (text : string) : string :=
  trim_space (if bool_decide (li_botDisplayName c = "") then text
              else ReplaceAll text ("@" +:+ li_botDisplayName c) "").

Definition stripBotMention (c : LINEChannel) (text : string) (msg : lineMessage) : option string :=
  match lm_Mention msg with
  | None => Some (strip_name c text)
  | Some ms =>
      '(rs, stripped) ← strip_mentions c ms (runes text);
      Some (if (stripped : bool) then trim_space (of_runes rs) else strip_name c text)
  end.

Definition resolveChatID (source : lineSource) : string :=
  if bool_decide (ls_Type source = "group") then ls_GroupID source
  else if bool_decide (ls_Type source = "room") then ls_RoomID source
  else ls_UserID source.

(** ** Requests to the platform *)
Inductive line_call :=
| ReplyCall (token content quoteToken : string)
| PushCall (to content quoteToken : string)
| LoadingCall (chat : string).

(** ** Events *)

(** What surrounds an event: where downloads go and what they meet. *)
Record line_env := mk_line_env {
  lv_tmp : string;
  lv_mkdir : bool;
  lv_id : string;
  lv_answer : string → option fetched;
}.

Definition downloadContent (E : line_env) (messageID filename : string) (fs : files) : string * files :=
  DownloadFile (lv_tmp E) (lv_mkdir E) (lv_id E) filename
    (lv_answer E ("https://api-data.line.me/v2/bot/message/" +:+ messageID +:+ "/content")) fs.

(** The content and the local file of a message; [None] is a panic. *)
Definition line_content (E : line_env) (c : LINEChannel) (isGroup : bool) (msg : lineMessage) (fs : files) :
    option (string * list string * files) :=
  let media filename text :=
    let '(localPath, fs) := downloadContent E (lm_ID msg) filename fs in
    if bool_decide (localPath = "") then Some ("", [], fs) else Some (text, [localPath], fs) in
  let t := lm_Type msg in
  if bool_decide (t = "text") then
    if isGroup then content ← stripBotMention c (lm_Text msg) msg; Some (content, [], fs)
    else Some (lm_Text msg, [], fs)
  else if bool_decide (t = "image") then media "image.jpg" "[image]"
  else if bool_decide (t = "audio") then media "audio.m4a" "[audio]"
  else if bool_decide (t = "video") then media "video.mp4" "[video]"
  else Some ("[" +:+ t +:+ "]", [], fs).

Record line_processed := mk_line_processed {
  lp_channel : LINEChannel;
  lp_files : files;
  lp_message : option InboundMessage;
  lp_calls : list line_call;
}.

Definition is_group_source (source : lineSource) : bool :=
  bool_decide (ls_Type source = "group" ∨ ls_Type source = "room").

(** The tokens of an event replace those of its chat. *)
Definition store_tokens (now : time) (c : LINEChannel) (chatID replyToken quoteToken : string) : LINEChannel :=
  with_tokens c
    (if bool_decide (replyToken = "") then li_replyTokens c
     else <[chatID := (replyToken, now)]> (li_replyTokens c))
    (if bool_decide (quoteToken = "") then li_quoteTokens c
     else <[chatID := quoteToken]> (li_quoteTokens c)).

Definition line_metadata (source : lineSource) (chatID messageID : string) : gmap string string :=
  let isGroup := is_group_source source in
  {[ "platform" := "line"; "source_type" := ls_Type source; "message_id" := messageID;
     "peer_kind" := if isGroup then "group" else "direct";
     "peer_id" := if isGroup then chatID else ls_UserID source ]}.

(** [None] is a panic. *)
Definition processEvent (E : line_env) (now : time) (event : lineEvent) (c : LINEChannel) (fs : files) :
    option line_processed :=
  let ignored := mk_line_processed c fs None [] in
  if negb (bool_decide (le_Type event = "message")) then Some ignored
  else
    let senderID := ls_UserID (le_Source event) in
    let chatID := resolveChatID (le_Source event) in
    let isGroup := is_group_source (le_Source event) in
    match le_Message event with
    | None => Some ignored
    | Some msg =>
        mentioned ← (if isGroup then isBotMentioned c msg else Some true);
        if negb mentioned then Some ignored
        else
          let c := store_tokens now c chatID (le_ReplyToken event) (lm_QuoteToken msg) in
          '(content, media, fs) ← line_content E c isGroup msg fs;
          let fs := remove_files media fs in
          if bool_decide (trim_space content = "") then Some (mk_line_processed c fs None [])
          else
            Some (mk_line_processed c fs
                    (HandleMessage (li_base c) senderID chatID content media
                       (line_metadata (le_Source event) chatID (lm_ID msg)))
                    [LoadingCall senderID])
    end.

(** ** Sending *)

(** [api] answers requests with an error or not. *)
Definition Send_line (api : line_call → option string) (now : time) (msg : OutboundMessage) (c : LINEChannel) :
    option string * LINEChannel * list line_call :=
  if negb (bc_running (li_base c)) then (Some "line channel not running", c, [])
  else
    let chat := om_ChatID msg in
    let quoteToken := default "" (li_quoteTokens c !! chat) in
    let c' := with_tokens c (delete chat (li_replyTokens c)) (delete chat (li_quoteTokens c)) in
    let push := PushCall chat (om_Content msg) quoteToken in
    match li_replyTokens c !! chat with
    | Some (token, timestamp) =>
        if (time_sub now timestamp <? lineReplyTokenMaxAge)%Z then
          let reply := ReplyCall token (om_Content msg) quoteToken in
          match api reply with
          | None => (None, c', [reply])
          | Some _ => (api push, c', [reply; push])
          end
        else (api push, c', [push])
    | None => (api push, c', [push])
    end.

(** ** Runs: events and sends in some order *)
Inductive line_op :=
| OpEvent (E : line_env) (now : time) (event : lineEvent)
| OpSend (api : line_call → option string) (now : time) (msg : OutboundMessage).

(** The state, and the requests with the time and the chat they were made for. *)
Abbreviation line_trace := (list (time * string * line_call)) (only parsing).

Definition line_step (op : line_op) (s : LINEChannel * line_trace) : option (LINEChannel * line_trace) :=
  match op with
  | OpEvent E now event =>
      p ← processEvent E now event s.1 ∅;
      Some (lp_channel p, s.2 ++ ((λ call, (now, resolveChatID (le_Source event), call)) <$> lp_calls p))
  | OpSend api now msg =>
      let '(_, c, calls) := Send_line api now msg s.1 in
      Some (c, s.2 ++ ((λ call, (now, om_ChatID msg, call)) <$> calls))
  end.

Fixpoint line_run (ops : list line_op) (s : LINEChannel * line_trace) : option (LINEChannel * line_trace) :=
  match ops with
  | [] => Some s
  | op :: rest => s' ← line_step op s; line_run rest s'
  end.

(** Requests that use a reply token, and events that bring it. *)
Definition reply_token (call : line_call) : option string :=
  match call with ReplyCall token _ _ => Some token | _ => None end.
Definition uses (token : string) (trace : line_trace) : nat :=
  length (filter (λ x, reply_token x.2 = Some token) trace).
Definition brings (token chat : string) (op : line_op) : Prop :=
  match op with
  | OpEvent _ _ event => le_ReplyToken event = token ∧ resolveChatID (le_Source event) = chat
  | OpSend _ _ _ => False
  end.
Definition op_token (op : line_op) : option string :=
  match op with OpEvent _ _ event => Some (le_ReplyToken event) | OpSend _ _ _ => None end.
Definition offers (token : string) (ops : list line_op) : nat :=
  length (filter (λ op, op_token op = Some token) ops).
Definition op_time (op : line_op) : time := match op with OpEvent _ now _ | OpSend _ now _ => now end.

(** ** Reply tokens are used once, while they are fresh *)
#[local] Arguments uses : simpl never.
#[local] Arguments offers : simpl never.
Definition held (token : string) (m : gmap string (string * time)) : nat :=
  size (filter (λ kv, kv.2.1 = token) m).

Lemma held_insert token m k v : held token (<[k := v]> m) ≤ held token m + (if decide (v.1 = token) then 1 else 0).
Proof.
  unfold held. destruct (decide (v.1 = token)) as [H|H].
  - rewrite map_filter_insert_True, map_size_insert by done. destruct (filter _ m !! k); cbn; lia.
  - rewrite map_filter_insert_False by done. etrans; [|apply Nat.le_add_r]. apply map_subseteq_size, map_filter_subseteq_mono.
    apply map_subseteq_spec. intros i x Hi. apply lookup_delete_Some in Hi. tauto.
Qed.

Lemma held_delete token m k v :
  m !! k = Some v → held token m = held token (delete k m) + (if decide (v.1 = token) then 1 else 0).
Proof.
  intros Hk. unfold held. rewrite map_filter_delete, map_size_delete.
  destruct (filter (λ kv, kv.2.1 = token) m !! k) as [w|] eqn:E.
  - apply map_lookup_filter_Some in E as [E Hw]. rewrite Hk in E. injection E as ->. rewrite decide_True by done.
    assert (size (filter (λ kv, kv.2.1 = token) m) ≠ 0); [|cbn; lia].
    intros H0%map_size_empty_inv. apply (f_equal (.!! k)) in H0.
    rewrite (proj2 (map_lookup_filter_Some _ _ _ _)) in H0 by done. done.
  - rewrite decide_False; [cbn; lia|]. intros Hv. apply map_lookup_filter_None in E as [E|E]; [congruence|].
    by apply (E v).
Qed.

Record tokens_ok (prev : list line_op) (s : LINEChannel * line_trace) : Prop := {
  tk_count : ∀ token, uses token s.2 + held token (li_replyTokens s.1) ≤ offers token prev;
  tk_held : ∀ chat token t, li_replyTokens s.1 !! chat = Some (token, t) →
    ∃ op, op ∈ prev ∧ brings token chat op ∧ op_time op = t;
  tk_used : ∀ t chat token content q, (t, chat, ReplyCall token content q) ∈ s.2 →
    ∃ op, op ∈ prev ∧ brings token chat op ∧ (time_sub t (op_time op) < lineReplyTokenMaxAge)%Z;
}.

Lemma store_tokens_reply now c chatID token q :
  li_replyTokens (store_tokens now c chatID token q) = li_replyTokens c ∨
  li_replyTokens (store_tokens now c chatID token q) = <[chatID := (token, now)]> (li_replyTokens c).
Proof. unfold store_tokens. cbn. destruct (bool_decide _); [by left|by right]. Qed.

Lemma processEvent_tokens E now event c fs p :
  processEvent E now event c fs = Some p →
  (li_replyTokens (lp_channel p) = li_replyTokens c ∨
   li_replyTokens (lp_channel p) =
     <[resolveChatID (le_Source event) := (le_ReplyToken event, now)]> (li_replyTokens c)) ∧
  (lp_calls p = [] ∨ ∃ chat, lp_calls p = [LoadingCall chat]).
Proof.
  unfold processEvent. case_bool_decide; cbn [negb]; [|intros [= <-]; by auto].
  destruct (le_Message event) as [msg|]; [|intros [= <-]; by auto].
  destruct (if is_group_source _ then _ else _) as [[]|]; cbn; [|intros [= <-]; by auto|done].
  destruct (line_content _ _ _ _ _) as [[[content media] fs']|]; cbn; [|done].
  intros Hp. pose proof (store_tokens_reply now c (resolveChatID (le_Source event)) (le_ReplyToken event)) as Hs.
  case_bool_decide; injection Hp as <-; (split; [exact (Hs (lm_QuoteToken msg))|cbn; eauto]).
Qed.

Lemma uses_app token l k : uses token (l ++ k) = uses token l + uses token k.
Proof. unfold uses. by rewrite filter_app, length_app. Qed.
Lemma offers_app token l k : offers token (l ++ k) = offers token l + offers token k.
Proof. unfold offers. by rewrite filter_app, length_app. Qed.

Lemma event_tokens_ok prev E now event s s' :
  tokens_ok prev s → line_step (OpEvent E now event) s = Some s' → tokens_ok (prev ++ [OpEvent E now event]) s'.
Proof.
  intros [Hc Hh Hu] H. cbn in H. destruct (processEvent _ _ _ _ _) as [p|] eqn:Ep; [|done]. injection H as <-.
  apply processEvent_tokens in Ep as [Hs Hcalls]. set (chat := resolveChatID (le_Source event)) in *.
  assert (∀ token, uses token ((λ call, (now, chat, call)) <$> lp_calls p) = 0) as Hnone
    by (intros token; destruct Hcalls as [->|[ch ->]]; reflexivity).
  assert (∀ token t chat' , (∃ op, op ∈ prev ∧ brings token chat' op ∧ op_time op = t) →
    ∃ op, op ∈ prev ++ [OpEvent E now event] ∧ brings token chat' op ∧ op_time op = t) as Hmono
    by (intros token t chat' (op & ? & ?); exists op; split; [set_solver|done]).
  split; cbn [fst snd].
  - intros token. rewrite uses_app, Hnone, offers_app. specialize (Hc token).
    destruct Hs as [->| ->]; [lia|].
    pose proof (held_insert token (li_replyTokens s.1) chat (le_ReplyToken event, now)) as Hi. cbn in Hi.
    assert (offers token [OpEvent E now event] = if decide (le_ReplyToken event = token) then 1 else 0) as ->.
    { unfold offers. rewrite filter_cons. cbn. repeat case_decide; naive_solver. }
    lia.
  - intros chat' token t Hl. destruct Hs as [E'|E']; rewrite E' in Hl; [by apply Hmono, Hh|].
    apply lookup_insert_Some in Hl as [[<- [= <- <-]]|[_ Hl]]; [|by apply Hmono, Hh].
    exists (OpEvent E now event). split; [set_solver|done].
  - intros t chat' token content q Hin. apply elem_of_app in Hin as [Hin|Hin].
    + destruct (Hu _ _ _ _ _ Hin) as (op & ? & ?). exists op. split; [set_solver|done].
    + exfalso. destruct Hcalls as [E'|[ch E']]; rewrite E' in Hin; cbn in Hin; set_solver.
Qed.

Lemma send_tokens_ok prev api now msg s s' :
  tokens_ok prev s → line_step (OpSend api now msg) s = Some s' → tokens_ok (prev ++ [OpSend api now msg]) s'.
Proof.
  intros [Hc Hh Hu] H. cbn in H. unfold Send_line in H.
  set (chat := om_ChatID msg) in *. set (q := default "" _) in H.
  assert (∀ op, op ∈ prev → op ∈ prev ++ [OpSend api now msg]) as Hin by set_solver.
  assert (∀ token, offers token (prev ++ [OpSend api now msg]) = offers token prev) as Ho
    by (intros; rewrite offers_app; change (offers token [OpSend api now msg]) with 0; lia).
  destruct (bc_running (li_base s.1)); cbn [negb] in H.
  2:{ injection H as <-. split; cbn [fst snd fmap list_fmap]; rewrite ?app_nil_r; [intros; rewrite Ho; apply Hc|intros ? ? ? Hl|intros ? ? ? ? ? Hl].
      - destruct (Hh _ _ _ Hl) as (op & ? & ?). eauto.
      - destruct (Hu _ _ _ _ _ Hl) as (op & ? & ?). eauto. }
  assert (∀ calls,
    (∀ token, uses token ((λ call, (now, chat, call)) <$> calls)
       + held token (delete chat (li_replyTokens s.1)) ≤ held token (li_replyTokens s.1)) →
    (∀ token content q', ReplyCall token content q' ∈ calls →
       ∃ t, li_replyTokens s.1 !! chat = Some (token, t) ∧ (time_sub now t < lineReplyTokenMaxAge)%Z) →
    tokens_ok (prev ++ [OpSend api now msg])
      (with_tokens s.1 (delete chat (li_replyTokens s.1)) (delete chat (li_quoteTokens s.1)),
       s.2 ++ ((λ call, (now, chat, call)) <$> calls))) as Hgo.
  { intros calls Hcount Hused. split; cbn.
    - intros token. rewrite Ho, uses_app. specialize (Hc token). specialize (Hcount token). lia.
    - intros chat' token t [_ Hl]%lookup_delete_Some. destruct (Hh _ _ _ Hl) as (op & ? & ?). eauto.
    - intros t chat' token content q' [Hl|Hl]%elem_of_app.
      + destruct (Hu _ _ _ _ _ Hl) as (op & ? & ?). eauto.
      + apply list_elem_of_fmap in Hl as (call & [= -> -> <-] & Hcall).
        destruct (Hused _ _ _ Hcall) as (t0 & Hl & Hfresh). destruct (Hh _ _ _ Hl) as (op & ? & ? & <-). eauto. }
  assert (∀ token c content, uses token [(now, chat, PushCall c content q)] = 0) as Hpush by done.
  destruct (li_replyTokens s.1 !! chat) as [[token timestamp]|] eqn:Hl.
  2:{ injection H as <-. apply (Hgo [_]).
      - intros token. by rewrite delete_id.
      - intros token content q' Hx. by apply list_elem_of_singleton in Hx. }
  assert (∀ tk, (if decide (token = tk) then 1 else 0) + held tk (delete chat (li_replyTokens s.1))
            = held tk (li_replyTokens s.1)) as Hdel.
  { intros tk. pose proof (held_delete tk _ _ _ Hl) as E. cbn in E. lia. }
  assert (∀ tk content q' rest, uses tk ((now, chat, ReplyCall token content q') :: rest) =
            (if decide (token = tk) then 1 else 0) + uses tk rest) as Hreply.
  { intros. unfold uses. rewrite filter_cons. cbn. repeat case_decide; naive_solver. }
  destruct (time_sub now timestamp <? lineReplyTokenMaxAge)%Z eqn:Hfresh.
  - apply Z.ltb_lt in Hfresh. destruct (api _) as [e|]; injection H as <-; [apply (Hgo [_; _])|apply (Hgo [_])].
    + intros tk. cbn [fmap list_fmap]. rewrite Hreply. specialize (Hdel tk).
      change (uses tk [(now, chat, PushCall chat (om_Content msg) q)]) with 0. lia.
    + intros tk content q' Hx. repeat (apply elem_of_cons in Hx as [Hx|Hx]); [|done|by apply not_elem_of_nil in Hx].
      injection Hx as -> _ _. eauto.
    + intros tk. cbn [fmap list_fmap]. rewrite Hreply. specialize (Hdel tk). change (uses tk []) with 0. lia.
    + intros tk content q' Hx%list_elem_of_singleton. injection Hx as -> _ _. eauto.
  - injection H as <-. apply (Hgo [_]).
    + intros tk. specialize (Hdel tk). cbn [fmap list_fmap]. rewrite Hpush. lia.
    + intros tk content q' Hx. by apply list_elem_of_singleton in Hx.
Qed.

Lemma tokens_ok_run prev ops s s' : tokens_ok prev s → line_run ops s = Some s' → tokens_ok (prev ++ ops) s'.
Proof.
  revert prev s. induction ops as [|op ops IH]; intros prev s Hok H; cbn in H.
  - injection H as <-. by rewrite app_nil_r.
  - destruct (line_step op s) as [s1|] eqn:E; [|done]. cbn in H.
    rewrite (cons_middle op), app_assoc. apply (IH _ s1); [|done].
    destruct op; [by eapply event_tokens_ok|by eapply send_tokens_ok].
Qed.

(** C33: in any run, a reply is sent only to the chat of an event that brought its
    token less than 25 seconds before, and a token is used no more often than
    events brought it. *)
Theorem reply_tokens_fresh_and_single ops c s :
  li_replyTokens c = ∅ → line_run ops (c, []) = Some s →
  (∀ t chat token content q, (t, chat, ReplyCall token content q) ∈ s.2 →
     ∃ op, op ∈ ops ∧ brings token chat op ∧ (time_sub t (op_time op) < lineReplyTokenMaxAge)%Z) ∧
  (∀ token, uses token s.2 ≤ offers token ops).
Proof.
  intros He H. assert (tokens_ok [] (c, [])) as H0.
  { split; cbn; rewrite ?He.
    - intros. unfold uses, held. by rewrite map_filter_empty, map_size_empty.
    - intros. done.
    - set_solver. }
  destruct (tokens_ok_run [] ops _ _ H0 H) as [Hc _ Hu]. cbn in Hc, Hu. split; [done|].
  intros token. specialize (Hc token). lia.
Qed.

(** An event, an answer within 25 seconds, and a second answer, which is pushed. *)
Definition demo_line : LINEChannel :=
  mk_LINEChannel (mk_BaseChannel "line" [] true) "secret" "token" "Ubot" "@1" "Tiny" ∅ ∅.
Definition demo_line_env : line_env := mk_line_env "/tmp" true "0123456789" (λ _, None).
Definition demo_line_event (text : string) (mention : option (list lineMentionee)) : lineEvent :=
  mk_lineEvent "message" "r1" (mk_lineSource "group" "U1" "G1" "") (Some (mk_lineMessage "m1" "text" text "q1" mention)).
Definition demo_ops : list line_op :=
  [OpEvent demo_line_env 1000 (demo_line_event "@Tiny hi" None);
   OpSend (λ _, None) (1000 + 3 * second)%Z (mk_OutboundMessage "line" "G1" "hello");
   OpSend (λ _, None) (1000 + 4 * second)%Z (mk_OutboundMessage "line" "G1" "again")].

Lemma demo_run :
  snd <$> line_run demo_ops (demo_line, []) =
  Some [(1000%Z, "G1", LoadingCall "U1"); ((1000 + 3 * second)%Z, "G1", ReplyCall "r1" "hello" "q1");
        ((1000 + 4 * second)%Z, "G1", PushCall "G1" "again" "")].
Proof. vm_compute. reflexivity. Qed.

Lemma reply_tokens_fresh_and_single_witness :
  ∃ s, line_run demo_ops (demo_line, []) = Some s ∧ uses "r1" s.2 = 1 ∧ uses "r1" s.2 ≤ 1 ∧
    ∃ op, op ∈ demo_ops ∧ brings "r1" "G1" op.
Proof.
  destruct (line_run demo_ops (demo_line, [])) as [s|] eqn:E; [|by vm_compute in E].
  exists s. pose proof demo_run as H. rewrite E in H. cbn [fmap option_fmap option_map] in H.
  destruct (reply_tokens_fresh_and_single demo_ops demo_line s eq_refl E) as [H1 H2].
  split; [done|]. split; [injection H as ->; vm_compute; reflexivity|]. split; [exact (H2 "r1")|].
  destruct (H1 (1000 + 3 * second)%Z "G1" "r1" "hello" "q1") as (op & ? & ? & _).
  - injection H as ->. right. left.
  - by exists op.
Defined.

(** ** What is published *)
(** A published message is from an allowed sender, for the chat of the event, and in
    a group or room the bot was mentioned.  Finding: its files are removed already. *)
Lemma line_published E now event c fs p m :
  processEvent E now event c fs = Some p → lp_message p = Some m →
  IsAllowed (li_base c) (im_SenderID m) = true ∧
  im_SenderID m = ls_UserID (le_Source event) ∧ im_ChatID m = resolveChatID (le_Source event) ∧
  trim_space (im_Content m) ≠ "" ∧
  (is_group_source (le_Source event) = true →
     ∃ msg, le_Message event = Some msg ∧ isBotMentioned c msg = Some true) ∧
  (∀ path, path ∈ im_Media m → lp_files p !! path = None).
Proof.
  unfold processEvent. case_bool_decide; cbn [negb]; [|by intros [= <-]].
  destruct (le_Message event) as [msg|]; [|by intros [= <-]].
  destruct (if is_group_source _ then _ else _) as [mentioned|] eqn:Em; cbn; [|done].
  destruct mentioned; cbn; [|by intros [= <-]].
  destruct (line_content _ _ _ _ _) as [[[content media] fs']|] eqn:Ec; cbn; [|done].
  case_bool_decide as Hne; intros [= <-]; cbn; [done|].
  unfold HandleMessage. destruct (IsAllowed (li_base c) (ls_UserID (le_Source event))) eqn:Ea; cbn; [|done].
  intros [= <-]. cbn. split; [done|]. split; [done|]. split; [done|]. split; [done|]. split.
  - intros Hg. rewrite Hg in Em. eauto.
  - intros path Hp. rewrite remove_files_lookup. by rewrite decide_True.
Qed.

(** ** Sending: a push follows a reply that fails, and only then *)
Lemma send_line_outcomes api now msg c err c' calls :
  Send_line api now msg c = (err, c', calls) →
  bc_running (li_base c) = true →
  let push := PushCall (om_ChatID msg) (om_Content msg) (default "" (li_quoteTokens c !! om_ChatID msg)) in
  li_replyTokens c' !! om_ChatID msg = None ∧ li_quoteTokens c' !! om_ChatID msg = None ∧
  ((calls = [push] ∧ err = api push) ∨
   ∃ reply, calls = [reply] ∧ api reply = None ∧ err = None ∨
            calls = [reply; push] ∧ api reply ≠ None ∧ err = api push).
Proof.
  unfold Send_line. intros H Hrun. rewrite Hrun in H. cbn [negb] in H.
  assert (∀ r q k, li_replyTokens (with_tokens c (delete k r) q) !! k = None) as H1
    by (intros; apply lookup_delete_eq).
  assert (∀ r q k, li_quoteTokens (with_tokens c r (delete k q)) !! k = None) as H2
    by (intros; apply lookup_delete_eq).
  destruct (li_replyTokens c !! om_ChatID msg) as [[token t]|]; [|injection H as <- <- <-; by auto].
  destruct (_ <? _)%Z; [|injection H as <- <- <-; by auto].
  destruct (api (ReplyCall _ _ _)) eqn:Ea; injection H as <- <- <-; (split; [done|]; split; [done|]; right);
    eexists; [right|left]; (split; [done|]); by rewrite Ea.
Qed.

(** ** Mentions *)
Lemma slice_app {A} (a b c : list A) :
  slice (Z.of_nat (length a)) (Z.of_nat (length a + length b)) (a ++ b ++ c) = Some b.
Proof.
  unfold slice. rewrite bool_decide_eq_true_2 by (rewrite !length_app; lia).
  rewrite Nat2Z.id, drop_app_length.
  replace (Z.to_nat (Z.of_nat (length a + length b) - Z.of_nat (length a))) with (length b) by lia.
  by rewrite take_app_length.
Qed.

(** A mention of the bot by its identifier is cut out of the text, and nothing else. *)
Lemma bot_mention_cut c (before name after : list (list ascii)) m stripped :
  is_bot c m = true → mn_Index m = Z.of_nat (length before) → mn_Length m = Z.of_nat (length name) →
  in_int64 (Z.of_nat (length (before ++ name ++ after))) →
  strip_one c m (before ++ name ++ after, stripped) = Some (before ++ after, true).
Proof.
  intros Hb Hi Hl Hr. unfold strip_one. rewrite Hb. cbn [mbind option_bind].
  unfold in_int64, int64_min, int64_max in Hr. rewrite !length_app in Hr.
  assert (mention_end m = Z.of_nat (length before + length name)) as He.
  { unfold mention_end. rewrite Hi, Hl, wrap64_id; [lia|]. unfold in_int64, int64_min, int64_max. lia. }
  rewrite He, Hi. rewrite (proj2 (Z.leb_le 0 _)) by lia.
  rewrite (proj2 (Z.leb_le _ _)) by (rewrite !length_app; lia). cbn [andb].
  pose proof (slice_app [] before (name ++ after)) as H1. cbn [length app Nat.add] in H1.
  change (Z.of_nat 0) with 0%Z in H1. rewrite H1. cbn [mbind option_bind].
  pose proof (slice_app (before ++ name) after []) as H2. rewrite app_nil_r, <-app_assoc, length_app in H2.
  replace (length before + length name + length after) with (length (before ++ name ++ after)) in H2
    by (rewrite !length_app; lia).
  rewrite H2. done.
Qed.

(** Finding: the bounds of a mention of the bot are not checked against each other, so
    a negative length makes the process panic. *)
Lemma negative_length_panics :
  processEvent demo_line_env 0 (demo_line_event "hi" (Some [mk_lineMentionee 0 (-1) "user" "Ubot"])) demo_line ∅ = None.
Proof. vm_compute. reflexivity. Qed.

Example mention_stripped :
  (im_Content <$> (p ← processEvent demo_line_env 0
     (demo_line_event "@Tiny hello" (Some [mk_lineMentionee 0 5 "user" "Ubot"])) demo_line ∅; lp_message p))
  = Some "hello".
Proof. vm_compute. reflexivity. Qed.
