(* ===== verification/WeCom.v ===== *)
(** * The WeCom channels (pkg/channels/wecom.go, wecom_app.go)

    Two channels of one platform, a bot and an application: requests to their
    webhooks are signed and encrypted, messages become inbound messages.  SHA-1, the
    block cipher, the decoding of XML and JSON and the answers of the platform are
    parameters; the padding, the chaining of blocks, base64 and the format of the
    plain text are written out. *)
From stdpp Require Import base gmap strings list pretty sorting.
From Stdlib Require Import Ascii ZArith Lia.
From S2P Require Import Prelude GoStrings ProviderTypes Encoding Bus Channels Config Settings.
#[local] Open Scope go_scope.
#[local] Open Scope nat_scope.

(** ** Bytes and blocks *)
Definition xor_byte (a b : ascii) : ascii :=
  match a, b with
  | Ascii a0 a1 a2 a3 a4 a5 a6 a7, Ascii b0 b1 b2 b3 b4 b5 b6 b7 =>
      Ascii (xorb a0 b0) (xorb a1 b1) (xorb a2 b2) (xorb a3 b3)
            (xorb a4 b4) (xorb a5 b5) (xorb a6 b6) (xorb a7 b7)
  end.
Definition xor_block (a b : list ascii) : list ascii := zip_with xor_byte a b.

Definition BlockSize : nat := 16.
Definition wecomBlockSize : nat := 32.

(** The blocks of a text of whole blocks. *)
Fixpoint blocks (fuel : nat) (l : list ascii) : list (list ascii) :=
  match fuel, l with
  | S n, _ :: _ => take BlockSize l :: blocks n (drop BlockSize l)
  | _, _ => []
  end.

(** [cipher.NewCBCDecrypter(block, iv).CryptBlocks] on blocks. *)
Fixpoint cbc_decrypt (D : list ascii → list ascii) (iv : list ascii) (cs : list (list ascii)) :
    list (list ascii) :=
  match cs with
  | [] => []
  | c :: rest => xor_block (D c) iv :: cbc_decrypt D c rest
  end.

(** [binary.BigEndian.Uint32]. *)
Definition be32 (l : list ascii) : Z := foldl (λ n c, n * 256 + Z.of_nat (byte c))%Z 0%Z (take 4 l).

Definition pkcs7UnpadWeCom (data : list ascii) : result string (list ascii) :=
  match last data with
  | None => Ok data
  | Some c =>
      let padding := byte c in
      if Nat.eqb padding 0 || Nat.ltb wecomBlockSize padding
      then Err ("invalid padding size: " +:+ pretty padding)
      else if Nat.ltb (length data) padding then Err "padding size larger than data"
      else if forallb (λ d, bool_decide (d = c)) (drop (length data - padding) data)
           then Ok (take (length data - padding) data)
           else Err "invalid padding byte"
  end.

(** ** Signatures *)
Section crypto.
Context (sha1 : list ascii → list ascii).
(** The block cipher under a key, decrypting one block. *)
Context (aes_decrypt : list ascii → list ascii → list ascii).

Definition str_le (a b : string) : Prop := String.leb a b = true.
#[local] Instance str_le_dec a b : Decision (str_le a b).
Proof. unfold str_le. apply _. Defined.
Definition sort_strings (l : list string) : list string := merge_sort str_le l.

Definition expected_signature (token timestamp nonce msgEncrypt : string) : string :=
  implode (hex_encode (sha1 (chars (join "" (sort_strings [token; timestamp; nonce; msgEncrypt]))))).

Definition WeComVerifySignature (token msgSignature timestamp nonce msgEncrypt : string) : bool :=
  if bool_decide (token = "") then true
  else bool_decide (expected_signature token timestamp nonce msgEncrypt = msgSignature).

(** ** Decryption: [None] is a panic, of chaining a text that is not of whole blocks *)
Definition open_plain (plainText : list ascii) (receiveid : string) : result string string :=
  if Nat.ltb (length plainText) 20 then Err "decrypted message too short"
  else
    let msgLen := be32 (drop 16 plainText) in
    if (Z.of_nat (length plainText) - 20 <? msgLen)%Z then Err "invalid message length"
    else
      let n := Z.to_nat msgLen in
      let msg := implode (take n (drop 20 plainText)) in
      let actual := implode (drop (20 + n) plainText) in
      if negb (bool_decide (receiveid = "")) && Nat.ltb (20 + n) (length plainText)
         && negb (bool_decide (actual = receiveid))
      then Err ("receiveid mismatch: expected " +:+ receiveid +:+ ", got " +:+ actual)
      else Ok msg.

Definition WeComDecryptMessageWithVerify (encryptedMsg encodingAESKey receiveid : string) :
    option (result string string) :=
  if bool_decide (encodingAESKey = "") then
    match std_decode (chars encryptedMsg) with
    | None => Some (Err "illegal base64 data")
    | Some decoded => Some (Ok (implode decoded))
    end
  else
    match std_decode (chars (encodingAESKey +:+ "=")) with
    | None => Some (Err "failed to decode AES key")
    | Some aesKey =>
        match std_decode (chars encryptedMsg) with
        | None => Some (Err "failed to decode message")
        | Some cipherText =>
            if negb (bool_decide (length aesKey ∈ [16; 24; 32])) then Some (Err "failed to create cipher")
            else if Nat.ltb (length cipherText) BlockSize then Some (Err "ciphertext too short")
            else if negb (Nat.eqb (length cipherText mod BlockSize) 0) then None
            else
              let plainText := mjoin (cbc_decrypt (aes_decrypt aesKey) (take BlockSize aesKey)
                                        (blocks (length cipherText) cipherText)) in
              match pkcs7UnpadWeCom plainText with
              | Err e => Some (Err ("failed to unpad: " +:+ e))
              | Ok plainText => Some (open_plain plainText receiveid)
              end
        end
    end.

Definition WeComDecryptMessage (encryptedMsg encodingAESKey : string) : option (result string string) :=
  WeComDecryptMessageWithVerify encryptedMsg encodingAESKey "".

(** ** Requests to the webhooks *)

(** The parameters of the query; an absent one is empty. *)
Record query := mk_query {
  q_msg_signature : string;
  q_timestamp : string;
  q_nonce : string;
  q_echostr : string;
}.

(** The settings that the webhooks of the two channels use: the identifier of the
    receiver is empty for the bot, and that of the company for the application. *)
Record webhook := mk_webhook {
  wh_Token : string;
  wh_EncodingAESKey : string;
  wh_receiveid : string;
}.

Definition byte_order_mark : string := implode (ascii_of_nat <$> [239; 187; 191]).

(** The status and the text of the answer; [None] is a panic. *)
Definition handleVerification (w : webhook) (q : query) : option (Z * string) :=
  if bool_decide (q_msg_signature q = "" ∨ q_timestamp q = "" ∨ q_nonce q = "" ∨ q_echostr q = "")
  then Some (400%Z, "Missing parameters")
  else if negb (WeComVerifySignature (wh_Token w) (q_msg_signature q) (q_timestamp q) (q_nonce q) (q_echostr q))
  then Some (403%Z, "Invalid signature")
  else
    match WeComDecryptMessageWithVerify (q_echostr q) (wh_EncodingAESKey w) (wh_receiveid w) with
    | None => None
    | Some (Err _) => Some (500%Z, "Decryption failed")
    | Some (Ok text) => Some (200%Z, trim_prefix (trim_space text) byte_order_mark)
    end.

Section callback.
(** The messages of the channel, decoded from the plain text, and the encrypted
    part of the document of a request. *)
Context {M : Type} (message_of_text : string → option M) (encrypted_of_xml : string → option string).

(** The status of the answer, and the message that is processed. *)
Definition handleMessageCallback (w : webhook) (q : query) (body : result string string) :
    option (Z * option M) :=
  if bool_decide (q_msg_signature q = "" ∨ q_timestamp q = "" ∨ q_nonce q = "") then Some (400%Z, None)
  else
    match body with
    | Err _ => Some (400%Z, None)
    | Ok body =>
        match encrypted_of_xml body with
        | None => Some (400%Z, None)
        | Some Encrypt =>
            if negb (WeComVerifySignature (wh_Token w) (q_msg_signature q) (q_timestamp q) (q_nonce q) Encrypt)
            then Some (403%Z, None)
            else
              match WeComDecryptMessageWithVerify Encrypt (wh_EncodingAESKey w) (wh_receiveid w) with
              | None => None
              | Some (Err _) => Some (500%Z, None)
              | Some (Ok text) =>
                  match message_of_text text with
                  | None => Some (400%Z, None)
                  | Some msg => Some (200%Z, Some msg)
                  end
              end
        end
    end.

(** What [handleWebhook] does with a request. *)
Inductive wecom_request := Get (q : query) | Post (q : query) (body : result string string) | Other.

Definition handleWebhook (w : webhook) (r : wecom_request) : option (Z * option M) :=
  match r with
  | Get q => (λ a, (a.1, None)) <$> handleVerification w q
  | Post q body => handleMessageCallback w q body
  | Other => Some (405%Z, None)
  end.

(** The webhooks of the application do the same with its settings. *)
Definition app_webhook (cfg : WeComAppConfig) : webhook :=
  mk_webhook (wapp_Token cfg) (wapp_EncodingAESKey cfg) (wapp_CorpID cfg).
Definition app_handleMessageCallback (cfg : WeComAppConfig) := handleMessageCallback (app_webhook cfg).
Definition app_handleWebhook (cfg : WeComAppConfig) := handleWebhook (app_webhook cfg).
End callback.

Definition app_handleVerification (cfg : WeComAppConfig) := handleVerification (app_webhook cfg).

Definition bot_webhook (cfg : WeComConfig) : webhook := mk_webhook (wc_Token cfg) (wc_EncodingAESKey cfg) "".
End crypto.

(** ** Messages of the bot *)
Record mixed_item := mk_mixed_item { mi_MsgType : string; mi_Text : string }.

Record WeComBotMessage := mk_WeComBotMessage {
  wm_MsgID : string;
  wm_ChatID : string;
  wm_ChatType : string;
  wm_From : string;
  wm_ResponseURL : string;
  wm_MsgType : string;
  wm_Text : string;
  wm_Voice : string;
  wm_Mixed : list mixed_item;
}.

(** Both channels keep the identifiers of the messages they have processed. *)
Definition record_processed (msgID : string) (processed : gset string) : gset string :=
  let processed := processed ∪ {[msgID]} in
  if Nat.ltb 1000 (size processed) then ∅ else processed.

Definition bot_content (msg : WeComBotMessage) : string :=
  let t := wm_MsgType msg in
  if bool_decide (t = "text") then wm_Text msg
  else if bool_decide (t = "voice") then wm_Voice msg
  else if bool_decide (t = "mixed")
  then join "" (mi_Text <$> filter (λ i, mi_MsgType i = "text") (wm_Mixed msg))
  else "".

Definition processMessage_bot (base : BaseChannel) (msg : WeComBotMessage) (processed : gset string) :
    option InboundMessage * gset string :=
  if negb (bool_decide (wm_MsgType msg ∈ ["text"; "image"; "voice"; "file"; "mixed"])) then (None, processed)
  else if bool_decide (wm_MsgID msg ∈ processed) then (None, processed)
  else
    let processed := record_processed (wm_MsgID msg) processed in
    let senderID := wm_From msg in
    let isGroupChat := bool_decide (wm_ChatType msg = "group") in
    let chatID := if isGroupChat then wm_ChatID msg else senderID in
    let metadata : gmap string string :=
      {[ "msg_type" := wm_MsgType msg; "msg_id" := wm_MsgID msg; "platform" := "wecom";
         "peer_kind" := if isGroupChat then "group" else "direct"; "peer_id" := chatID;
         "response_url" := wm_ResponseURL msg ]} in
    let metadata := if isGroupChat then <["sender_id" := senderID]> (<["chat_id" := wm_ChatID msg]> metadata)
                    else metadata in
    (HandleMessage base senderID chatID (bot_content msg) [] metadata, processed).

(** ** Messages of the application *)
Record WeComXMLMessage := mk_WeComXMLMessage {
  wx_FromUserName : string;
  wx_CreateTime : Z;
  wx_MsgType : string;
  wx_Content : string;
  wx_MsgId : Z;
  wx_AgentID : Z;
  wx_MediaId : string;
}.

Definition processMessage_app (base : BaseChannel) (msg : WeComXMLMessage) (processed : gset string) :
    option InboundMessage * gset string :=
  if negb (bool_decide (wx_MsgType msg ∈ ["text"; "image"; "voice"])) then (None, processed)
  else
    let msgID := pretty (wx_MsgId msg) in
    if bool_decide (msgID ∈ processed) then (None, processed)
    else
      let processed := record_processed msgID processed in
      let senderID := wx_FromUserName msg in
      let metadata : gmap string string :=
        {[ "msg_type" := wx_MsgType msg; "msg_id" := msgID; "agent_id" := pretty (wx_AgentID msg);
           "platform" := "wecom_app"; "media_id" := wx_MediaId msg;
           "create_time" := pretty (wx_CreateTime msg); "peer_kind" := "direct"; "peer_id" := senderID ]} in
      (HandleMessage base senderID senderID (wx_Content msg) [] metadata, processed).

(** ** The access token of the application *)
Record access_token := mk_access_token { at_token : string; at_expiry : time }.

(** What the platform answers: the error code and message, the token, its seconds. *)
Record WeComAccessTokenResponse := mk_WeComAccessTokenResponse {
  ta_ErrCode : Z;
  ta_ErrMsg : string;
  ta_AccessToken : string;
  ta_ExpiresIn : Z;
}.

Definition refreshAccessToken (now : time) (answer : result string WeComAccessTokenResponse) (t : access_token) :
    option string * access_token :=
  match answer with
  | Err e => (Some ("failed to request access token: " +:+ e), t)
  | Ok r =>
      if negb (ta_ErrCode r =? 0)%Z
      then (Some ("API error: " +:+ ta_ErrMsg r +:+ " (code: " +:+ pretty (ta_ErrCode r) +:+ ")"), t)
      else (None, mk_access_token (ta_AccessToken r) (now + wrap64 (wrap64 (ta_ExpiresIn r - 300) * second))%Z)
  end.

Definition getAccessToken (now : time) (t : access_token) : string :=
  if (at_expiry t <? now)%Z then "" else at_token t.

(** The state of the application: its base and its token. [Start] goes on when there
    is no token yet; a loop asks for one every five minutes. *)
Definition Start_app (now : time) (answer : result string WeComAccessTokenResponse)
    (base : BaseChannel) (t : access_token) : BaseChannel * access_token :=
  (setRunning true base, (refreshAccessToken now answer t).2).
Definition Stop_wecom (base : BaseChannel) : BaseChannel := setRunning false base.

(** The seconds that a reply may take. *)
Definition reply_timeout (configured : Z) : Z := if (configured <=? 0)%Z then 5%Z else configured.

(** [send token user agent content] is the answer of the platform. *)
Definition Send_app (running : bool) (now : time) (t : access_token) (agent : Z)
    (send : string → string → Z → string → result string (Z * string)) (msg : OutboundMessage) : option string :=
  if negb running then Some "wecom_app channel not running"
  else
    let accessToken := getAccessToken now t in
    if bool_decide (accessToken = "") then Some "no valid access token available"
    else
      match send accessToken (om_ChatID msg) agent (om_Content msg) with
      | Err e => Some ("failed to send message: " +:+ e)
      | Ok (code, text) =>
          if negb (code =? 0)%Z then Some ("API error: " +:+ text +:+ " (code: " +:+ pretty code +:+ ")") else None
      end.

(** [post content] is the answer to a reply through the webhook of the bot. *)
Definition Send_bot (running : bool) (post : string → result string (Z * string)) (msg : OutboundMessage) :
    option string :=
  if negb running then Some "wecom channel not running"
  else
    match post (om_Content msg) with
    | Err e => Some ("failed to send webhook reply: " +:+ e)
    | Ok (code, text) =>
        if negb (code =? 0)%Z then Some ("webhook API error: " +:+ text +:+ " (code: " +:+ pretty code +:+ ")")
        else None
    end.

(** ** The padding *)
Definition wecom_pad (l : list ascii) : list ascii :=
  let n := wecomBlockSize - length l mod wecomBlockSize in l ++ replicate n (ascii_of_nat n).

Lemma byte_ascii n : n < 256 → byte (ascii_of_nat n) = n.
Proof. apply nat_ascii_embedding. Qed.

Lemma unpad_pad l : pkcs7UnpadWeCom (wecom_pad l) = Ok l.
Proof.
  unfold pkcs7UnpadWeCom, wecom_pad. set (n := wecomBlockSize - length l mod wecomBlockSize).
  assert (1 <= n <= 32) as Hn.
  { unfold n, wecomBlockSize. pose proof (Nat.mod_upper_bound (length l) 32 ltac:(lia)). lia. }
  assert (last (l ++ replicate n (ascii_of_nat n)) = Some (ascii_of_nat n)) as ->.
  { destruct n as [|k]; [lia|]. by rewrite replicate_S_end, app_assoc, last_snoc. }
  rewrite byte_ascii by lia.
  rewrite (proj2 (Nat.eqb_neq n 0)), (proj2 (Nat.ltb_ge _ _)) by (unfold wecomBlockSize; lia). cbn [orb].
  rewrite length_app, length_replicate. rewrite (proj2 (Nat.ltb_ge _ _)) by lia.
  replace (length l + n - n) with (length l) by lia. rewrite drop_app_length, take_app_length.
  assert (forallb (λ d, bool_decide (d = ascii_of_nat n)) (replicate n (ascii_of_nat n)) = true) as ->; [|done].
  apply forallb_forall. intros d [-> _]%list_elem_of_In%elem_of_replicate. by apply bool_decide_eq_true_2.
Qed.

(** What is accepted is a text with its padding, of at most 32 bytes. *)
Lemma unpad_Ok data l :
  pkcs7UnpadWeCom data = Ok l → data = [] ∧ l = [] ∨
  ∃ n, 1 ≤ n ≤ wecomBlockSize ∧ data = l ++ replicate n (ascii_of_nat n).
Proof.
  unfold pkcs7UnpadWeCom. destruct (last data) as [c|] eqn:El.
  2:{ apply last_None in El as ->. intros [= <-]. by left. }
  destruct (Nat.eqb_spec (byte c) 0); [done|]. destruct (Nat.ltb_spec wecomBlockSize (byte c)); [done|]. cbn [orb].
  destruct (Nat.ltb_spec (length data) (byte c)); [done|]. destruct (forallb _ _) eqn:Hf; [|done].
  intros [= <-]. right. exists (byte c). split; [lia|].
  rewrite <-(take_drop (length data - byte c) data) at 1. f_equal.
  replace (ascii_of_nat (byte c)) with c by (symmetry; apply ascii_nat_embedding).
  apply list_eq_same_length with (n := byte c).
  - by rewrite length_replicate.
  - rewrite length_drop. lia.
  - intros i x y Hi Hx Hy. apply lookup_replicate in Hy as [-> _].
    rewrite forallb_forall in Hf. apply list_elem_of_lookup_2, list_elem_of_In, Hf, bool_decide_eq_true_1 in Hx. done.
Qed.

(** ** The chaining of blocks *)
Lemma xor_byte_twice a b : xor_byte (xor_byte a b) b = a.
Proof.
  assert (∀ x y, xorb (xorb x y) y = x) as H by (intros [] []; done).
  destruct a, b. cbn. by rewrite !H.
Qed.

Lemma xor_block_twice a b : length a ≤ length b → xor_block (xor_block a b) b = a.
Proof.
  revert b. induction a as [|x a IH]; intros [|y b] H; cbn in *; try done; [lia|].
  unfold xor_block in *. cbn. rewrite xor_byte_twice. f_equal. apply IH. lia.
Qed.

Lemma length_xor_block a b : length (xor_block a b) = Nat.min (length a) (length b).
Proof. apply length_zip_with. Qed.

Lemma blocks_mjoin bs fuel :
  Forall (λ b, length b = BlockSize) bs → length (mjoin bs) ≤ fuel → blocks fuel (mjoin bs) = bs.
Proof.
  intros H. revert fuel. induction H as [|b bs Hb _ IH]; intros fuel Hf; [by destruct fuel|].
  change (mjoin (b :: bs)) with (b ++ mjoin bs) in Hf |- *. rewrite length_app, Hb in Hf. unfold BlockSize in *.
  destruct fuel as [|n]; [lia|]. cbn [blocks].
  destruct (b ++ mjoin bs) as [|x l] eqn:E; [by destruct b|]. rewrite <-E.
  rewrite <-Hb at 1. rewrite take_app_length. f_equal. unfold BlockSize. rewrite <-Hb, drop_app_length.
  apply IH. lia.
Qed.

Lemma blocks_whole fuel l k :
  length l ≤ fuel → length l = k * BlockSize →
  mjoin (blocks fuel l) = l ∧ Forall (λ b, length b = BlockSize) (blocks fuel l).
Proof.
  unfold BlockSize. revert l k. induction fuel as [|n IH]; intros l k Hf Hk.
  { destruct l; [by split|cbn in Hf; lia]. }
  destruct l as [|x l]; [by split|]. destruct k as [|k]; [cbn in Hk; lia|].
  cbn [blocks]. destruct (IH (drop BlockSize (x :: l)) k) as [H1 H2].
  - rewrite length_drop. unfold BlockSize. cbn [length] in *. lia.
  - rewrite length_drop, Hk. unfold BlockSize. lia.
  - split.
    { change (take BlockSize (x :: l) ++ mjoin (blocks n (drop BlockSize (x :: l))) = x :: l). by rewrite H1, take_drop. }
    constructor; [|done].
    rewrite length_take, Hk. unfold BlockSize. lia.
Qed.

Section roundtrip.
Context (E D : list ascii → list ascii).
Context (E_length : ∀ b, length b = BlockSize → length (E b) = BlockSize).
Context (D_E : ∀ b, length b = BlockSize → D (E b) = b).

Fixpoint cbc_encrypt (iv : list ascii) (ps : list (list ascii)) : list (list ascii) :=
  match ps with
  | [] => []
  | p :: rest => let c := E (xor_block p iv) in c :: cbc_encrypt c rest
  end.

Lemma cbc_inverse iv ps :
  length iv = BlockSize → Forall (λ p, length p = BlockSize) ps →
  cbc_decrypt D iv (cbc_encrypt iv ps) = ps ∧ Forall (λ c, length c = BlockSize) (cbc_encrypt iv ps).
Proof.
  intros Hiv H. revert iv Hiv. induction H as [|p ps Hp _ IH]; intros iv Hiv; [by split|].
  cbn [cbc_encrypt cbc_decrypt].
  assert (length (xor_block p iv) = BlockSize) as Hx by (rewrite length_xor_block; lia).
  destruct (IH (E (xor_block p iv))) as [H1 H2]; [by apply E_length|].
  rewrite D_E, H1 by done. rewrite xor_block_twice by lia. split; [done|]. constructor; [by apply E_length|done].
Qed.
End roundtrip.

(** ** What the platform seals, the channels open *)

(** The format of a message: 16 random bytes, the length, the text, the receiver. *)
Definition be32_bytes (n : nat) : list ascii :=
  (λ d, ascii_of_nat (Z.to_nat (Z.of_nat n / d mod 256))) <$> [16777216; 65536; 256; 1]%Z.
Definition wecom_frame (random : list ascii) (msg receiveid : string) : list ascii :=
  random ++ be32_bytes (String.length msg) ++ chars msg ++ chars receiveid.
Definition wecom_seal (E : list ascii → list ascii → list ascii) (key random : list ascii) (msg receiveid : string) :
    string :=
  let plain := wecom_pad (wecom_frame random msg receiveid) in
  implode (std_encode (mjoin (cbc_encrypt (E key) (take BlockSize key) (blocks (length plain) plain)))).

Lemma byte_of_mod z : Z.of_nat (byte (ascii_of_nat (Z.to_nat (z mod 256)))) = (z mod 256)%Z.
Proof. pose proof (Z.mod_pos_bound z 256 ltac:(lia)). rewrite byte_ascii by lia. lia. Qed.

Lemma be32_be32_bytes n rest : (Z.of_nat n < 2 ^ 32)%Z → be32 (be32_bytes n ++ rest) = Z.of_nat n.
Proof.
  intros Hn. unfold be32, be32_bytes. cbn [fmap list_fmap app take foldl].
  rewrite !byte_of_mod. change (2 ^ 32)%Z with 4294967296%Z in Hn.
  assert (0 <= Z.of_nat n)%Z as H by lia. revert H Hn. generalize (Z.of_nat n). intros z H0 H1.
  rewrite Z.div_1_r. change 16777216%Z with (256 * (256 * 256))%Z. change 65536%Z with (256 * 256)%Z.
  rewrite <-!Z.div_div by lia.
  pose proof (Z.div_mod z 256 ltac:(lia)). pose proof (Z.div_mod (z / 256) 256 ltac:(lia)).
  pose proof (Z.div_mod (z / 256 / 256) 256 ltac:(lia)).
  rewrite take_0. cbn [foldl]. rewrite (Z.mod_small (z / 256 / 256 / 256)); [lia|].
  rewrite !Z.div_div by lia. split; [apply Z.div_pos; lia|apply Z.div_lt_upper_bound; lia].
Qed.

Lemma open_frame random msg receiveid :
  length random = 16 → (Z.of_nat (String.length msg) < 2 ^ 32)%Z →
  open_plain (wecom_frame random msg receiveid) receiveid = Ok msg.
Proof.
  intros Hr Hm. unfold open_plain, wecom_frame.
  set (len := be32_bytes (String.length msg)).
  assert (length len = 4) as Hl by done.
  assert (length (random ++ len ++ chars msg ++ chars receiveid) = 20 + String.length msg + String.length receiveid)
    as HL by (rewrite !length_app, !length_chars, Hr, Hl; lia).
  rewrite HL, (proj2 (Nat.ltb_ge _ _)) by lia.
  assert (drop 16 (random ++ len ++ chars msg ++ chars receiveid) = len ++ chars msg ++ chars receiveid) as ->
    by (rewrite <-Hr; apply drop_app_length).
  assert (drop 20 (random ++ len ++ chars msg ++ chars receiveid) = chars msg ++ chars receiveid) as ->.
  { rewrite app_assoc. replace 20 with (length (random ++ len)) by (rewrite length_app; lia). apply drop_app_length. }
  assert (drop (20 + String.length msg) (random ++ len ++ chars msg ++ chars receiveid) = chars receiveid) as Hrest.
  { rewrite !app_assoc. replace (20 + String.length msg) with (length ((random ++ len) ++ chars msg))
      by (rewrite !length_app, length_chars; lia). apply drop_app_length. }
  assert (∀ r, be32 (len ++ r) = Z.of_nat (String.length msg)) as -> by (intros r; by apply be32_be32_bytes).
  rewrite Nat2Z.id, Hrest.
  rewrite (proj2 (Z.ltb_ge _ _)) by lia. rewrite (bool_decide_eq_true_2 (implode (chars receiveid) = receiveid))
    by apply implode_chars. rewrite andb_false_r.
  by rewrite <-(length_chars msg), take_app_length, implode_chars.
Qed.

Lemma padded_whole l : ∃ k, length (wecom_pad l) = k * BlockSize ∧ 0 < k.
Proof.
  unfold wecom_pad. rewrite length_app, length_replicate. unfold wecomBlockSize, BlockSize.
  pose proof (Nat.div_mod_eq (length l) 32). pose proof (Nat.mod_upper_bound (length l) 32 ltac:(lia)).
  exists (2 * (length l / 32) + 2). lia.
Qed.

(** C32: what the platform seals for a receiver, the channel opens: for every cipher
    whose decryption inverts its encryption of blocks, the text comes back. *)
Theorem sealed_message_opens (E D : list ascii → list ascii → list ascii) encodingAESKey key random msg receiveid :
  (∀ b, length b = BlockSize → length (E key b) = BlockSize) →
  (∀ b, length b = BlockSize → D key (E key b) = b) →
  encodingAESKey ≠ "" → std_decode (chars (encodingAESKey +:+ "=")) = Some key → length key = 32 →
  length random = 16 → (Z.of_nat (String.length msg) < 2 ^ 32)%Z →
  WeComDecryptMessageWithVerify D (wecom_seal E key random msg receiveid) encodingAESKey receiveid = Some (Ok msg).
Proof.
  intros HE HD Hne Hkey Hk Hr Hm. unfold WeComDecryptMessageWithVerify.
  rewrite bool_decide_eq_false_2 by done. rewrite Hkey. unfold wecom_seal. rewrite chars_implode, std_decode_encode.
  rewrite (bool_decide_eq_true_2 (length key ∈ _)) by (rewrite Hk; set_solver). cbn [negb].
  set (plain := wecom_pad (wecom_frame random msg receiveid)).
  destruct (padded_whole (wecom_frame random msg receiveid)) as (k & Hlen & Hpos). fold plain in Hlen.
  destruct (blocks_whole (length plain) plain k ltac:(done) Hlen) as [Hjoin Hbs].
  destruct (cbc_inverse (E key) (D key) HE HD (take BlockSize key) (blocks (length plain) plain)) as [Hinv Hcs];
    [rewrite length_take, Hk; done|done|].
  set (cs := cbc_encrypt (E key) (take BlockSize key) (blocks (length plain) plain)) in *.
  assert (length (mjoin cs) = k * BlockSize) as Hc.
  { assert (length cs = k) as Hck.
    { assert (∀ iv ps, length (cbc_encrypt (E key) iv ps) = length ps) as HL
        by (intros iv ps; revert iv; induction ps as [|p ps IH]; intros iv; cbn; [done|]; by rewrite IH).
      unfold cs. rewrite HL.
      assert (length (mjoin (blocks (length plain) plain)) = length (blocks (length plain) plain) * BlockSize) as E1.
      { clear -Hbs. induction Hbs as [|b bs Hb _ IH]; [done|].
        change (mjoin (b :: bs)) with (b ++ mjoin bs). rewrite length_app, IH, Hb. done. }
      rewrite Hjoin in E1. unfold BlockSize in *. lia. }
    rewrite <-Hck. clear -Hcs. induction Hcs as [|b bs Hb _ IH]; [done|].
    change (mjoin (b :: bs)) with (b ++ mjoin bs). rewrite length_app, IH, Hb. done. }
  rewrite (proj2 (Nat.ltb_ge _ _)) by (rewrite Hc; unfold BlockSize; lia).
  rewrite Hc, Nat.Div0.mod_mul. cbn [Nat.eqb negb].
  rewrite <-Hc, blocks_mjoin by done. rewrite Hinv, Hjoin. unfold plain. rewrite unpad_pad.
  by rewrite open_frame.
Qed.

(** A block cipher for examples: every byte is complemented. *)
Definition flip (b : list ascii) : list ascii := (λ c, ascii_of_nat (255 - byte c)) <$> b.
Definition demo_key : string := "QUFBQUFBQUFBQUFBQUFBQUFBQUFBQUFBQUFBQUFBQUE".

Lemma flip_flip b : flip (flip b) = b.
Proof.
  induction b as [|c b IH]; [done|]. unfold flip in *. cbn [fmap list_fmap]. rewrite IH. f_equal.
  rewrite byte_ascii by lia. pose proof (nat_ascii_bounded c). unfold byte.
  replace (255 - (255 - nat_of_ascii c)) with (nat_of_ascii c) by lia. apply ascii_nat_embedding.
Qed.

Lemma sealed_message_opens_witness :
  WeComDecryptMessageWithVerify (λ _, flip) (wecom_seal (λ _, flip) (replicate 32 "A"%char)
    (chars "0123456789abcdef") "<xml/>" "corp") demo_key "corp" = Some (Ok "<xml/>").
Proof.
  apply (sealed_message_opens (λ _, flip) (λ _, flip) demo_key (replicate 32 "A"%char)).
  - intros b Hb. unfold flip. by rewrite length_fmap.
  - intros b _. apply flip_flip.
  - done.
  - vm_compute. reflexivity.
  - reflexivity.
  - reflexivity.
  - vm_compute. reflexivity.
Defined.

(** ** Who is heard *)
Section heard.
Context (sha1 : list ascii → list ascii) (aes_decrypt : list ascii → list ascii → list ascii).
Context {M : Type} (message_of_text : string → option M) (encrypted_of_xml : string → option string).

(** A message is processed only from a request whose signature is that of its
    encrypted part under the token, when there is one, and only with answer 200. *)
Lemma callback_authentic w r status msg :
  handleWebhook sha1 aes_decrypt message_of_text encrypted_of_xml w r = Some (status, Some msg) →
  status = 200%Z ∧ ∃ q body Encrypt text, r = Post q (Ok body) ∧ encrypted_of_xml body = Some Encrypt ∧
    (wh_Token w ≠ "" →
       q_msg_signature q = expected_signature sha1 (wh_Token w) (q_timestamp q) (q_nonce q) Encrypt) ∧
    WeComDecryptMessageWithVerify aes_decrypt Encrypt (wh_EncodingAESKey w) (wh_receiveid w) = Some (Ok text) ∧
    message_of_text text = Some msg.
Proof.
  destruct r as [q|q body|]; cbn [handleWebhook]; [by destruct (handleVerification _ _ _ _)| |done].
  unfold handleMessageCallback, WeComVerifySignature. case_bool_decide; [done|].
  destruct body as [body|]; [|done]. destruct (encrypted_of_xml body) as [Encrypt|] eqn:Ex; [|done].
  destruct (if bool_decide (wh_Token w = "") then _ else _) eqn:Es; cbn [negb]; [|done].
  destruct (WeComDecryptMessageWithVerify _ _ _ _) as [[text|]|] eqn:Ed; [|done|done].
  destruct (message_of_text text) as [m|] eqn:Em; [|done]. intros [= <- <-]. split; [done|].
  exists q, body, Encrypt, text. split; [done|]. split; [done|]. split; [|done].
  intros Ht. rewrite bool_decide_eq_false_2 in Es by done. by apply bool_decide_eq_true_1 in Es.
Qed.

(** Finding: the application needs neither a token nor a key to be set up, and with
    neither every request is heard, whatever its signature. *)
Lemma unset_token_hears_anyone cfg q body Encrypt text msg :
  wapp_Token cfg = "" → wapp_EncodingAESKey cfg = "" →
  q_msg_signature q ≠ "" → q_timestamp q ≠ "" → q_nonce q ≠ "" →
  encrypted_of_xml body = Some Encrypt → std_decode (chars Encrypt) = Some text →
  message_of_text (implode text) = Some msg →
  app_handleWebhook sha1 aes_decrypt message_of_text encrypted_of_xml cfg (Post q (Ok body))
  = Some (200%Z, Some msg).
Proof.
  intros Ht Hk H1 H2 H3 Hx Hd Hm. unfold app_handleWebhook, app_webhook. rewrite Ht, Hk.
  cbn [handleWebhook]. unfold handleMessageCallback.
  rewrite bool_decide_eq_false_2 by tauto. rewrite Hx. unfold WeComVerifySignature.
  cbn [wh_Token wh_EncodingAESKey wh_receiveid]. rewrite bool_decide_eq_true_2 by done. cbn [negb].
  unfold WeComDecryptMessageWithVerify. rewrite bool_decide_eq_true_2 by done. by rewrite Hd, Hm.
Qed.
End heard.

(** Finding: a text that is not of whole blocks panics; only its least length is
    tested. *)
Lemma partial_block_panics D :
  WeComDecryptMessageWithVerify D (implode (std_encode (chars "0123456789abcdefg"))) demo_key "" = None.
Proof. vm_compute. reflexivity. Qed.

(** Finding: a message that names no receiver is accepted for every receiver. *)
Lemma absent_receiver_accepted random msg receiveid :
  length random = 16 → (Z.of_nat (String.length msg) < 2 ^ 32)%Z →
  open_plain (wecom_frame random msg "") receiveid = Ok msg.
Proof.
  intros Hr Hm. rewrite <-(open_frame random msg "" Hr Hm). unfold open_plain.
  set (l := wecom_frame random msg ""). destruct (Nat.ltb (length l) 20); [done|].
  assert (length l = 20 + String.length msg) as HL.
  { unfold l, wecom_frame. rewrite !length_app, !length_chars, Hr. change (length (be32_bytes _)) with 4. cbn; lia. }
  assert (be32 (drop 16 l) = Z.of_nat (String.length msg)) as ->.
  { unfold l, wecom_frame. rewrite <-Hr, drop_app_length. by apply be32_be32_bytes. }
  destruct (_ <? _)%Z; [done|]. rewrite Nat2Z.id, HL, Nat.ltb_irrefl. by rewrite !andb_false_r.
Qed.

(** ** Messages are processed once, until the record is emptied *)
Lemma record_processed_bound msgID processed : size (record_processed msgID processed) ≤ 1000.
Proof.
  unfold record_processed. destruct (Nat.ltb_spec 1000 (size (processed ∪ {[msgID]}))); [|done].
  rewrite size_empty. lia.
Qed.

Lemma bot_message_once base base' msg processed :
  size processed < 1000 →
  let '(_, processed') := processMessage_bot base msg processed in
  (processMessage_bot base' msg processed').1 = None.
Proof.
  intros Hs. unfold processMessage_bot.
  destruct (decide (wm_MsgType msg ∈ ["text"; "image"; "voice"; "file"; "mixed"])) as [Ht|Ht].
  2:{ by rewrite bool_decide_eq_false_2 by done. }
  rewrite bool_decide_eq_true_2 by done. cbn [negb].
  destruct (decide (wm_MsgID msg ∈ processed)) as [Hin|Hin].
  { rewrite (bool_decide_eq_true_2 (wm_MsgID msg ∈ processed)) by done. by rewrite bool_decide_eq_true_2. }
  rewrite bool_decide_eq_false_2 by done.
  rewrite bool_decide_eq_true_2; [done|]. unfold record_processed.
  destruct (Nat.ltb_spec 1000 (size (processed ∪ {[wm_MsgID msg]}))) as [H|_]; [|set_solver].
  rewrite size_union, size_singleton in H by set_solver. lia.
Qed.

(** Finding: the message that fills the record empties it, itself included, although
    the last 1000 are meant to be kept; its next copy is processed again. *)
Lemma record_forgets_newest msgID processed :
  size processed = 1000 → msgID ∉ processed → record_processed msgID processed = ∅.
Proof.
  intros Hs Hin. unfold record_processed. rewrite size_union, size_singleton, Hs by set_solver. done.
Qed.

(** Both channels hand on only what the allowlist admits. *)
Lemma bot_published base msg processed m :
  (processMessage_bot base msg processed).1 = Some m →
  IsAllowed base (im_SenderID m) = true ∧ im_SenderID m = wm_From msg ∧
  wm_MsgID msg ∉ processed ∧
  im_ChatID m = (if bool_decide (wm_ChatType msg = "group") then wm_ChatID msg else wm_From msg).
Proof.
  unfold processMessage_bot, HandleMessage. case_bool_decide; cbn [negb]; [|done].
  case_bool_decide; [done|]. cbn [fst]. destruct (IsAllowed base (wm_From msg)) eqn:Ea; cbn; [|done].
  intros [= <-]. done.
Qed.

(** ** The token in use has not expired *)
Lemma app_sends_with_valid_token running now t agent send msg :
  Send_app running now t agent send msg = None →
  running = true ∧ at_token t ≠ "" ∧ (now <= at_expiry t)%Z ∧
  ∃ text, send (at_token t) (om_ChatID msg) agent (om_Content msg) = Ok (0%Z, text).
Proof.
  unfold Send_app, getAccessToken. destruct running; cbn [negb]; [|done].
  destruct (Z.ltb_spec (at_expiry t) now); [done|]. case_bool_decide; [done|].
  destruct (send _ _ _ _) as [[code text]|] eqn:Es; [|done].
  destruct (Z.eqb_spec code 0); [subst code|done]. eauto 6.
Qed.

(** A token is taken for five minutes less than the platform grants. *)
Lemma token_margin now r t :
  ta_ErrCode r = 0%Z → (0 <= ta_ExpiresIn r <= 9000000000)%Z →
  let t' := (refreshAccessToken now (Ok r) t).2 in
  at_token t' = ta_AccessToken r ∧ at_expiry t' = (now + ta_ExpiresIn r * second - 5 * minute)%Z.
Proof.
  intros H0 Hr. unfold refreshAccessToken. rewrite H0. cbn [Z.eqb negb snd at_token at_expiry].
  split; [done|].
  rewrite (wrap64_id (ta_ExpiresIn r - 300)) by (unfold in_int64, int64_min, int64_max; lia).
  rewrite wrap64_id; [unfold minute, second; lia|].
  unfold in_int64, int64_min, int64_max, second. lia.
Qed.
