(* ===== verification/TelegramText.v ===== *)
(** * Markdown as HTML for Telegram (pkg/channels/telegram.go)

    Answers of models are Markdown and are sent as the HTML of Telegram.  Every
    bracket and every ampersand of the HTML is one that the conversion wrote:
    whatever the answer says, it opens no tag and no entity of its own. *)
From stdpp Require Import base gmap strings list pretty.
From Stdlib Require Import Ascii ZArith Lia.
From S2P Require Import Prelude GoStrings Encoding Regex RegexReplace.
#[local] Open Scope nat_scope.

(** ** The conversion *)

Definition escapeHTML (text : string) : string :=
  ReplaceAll (ReplaceAll (ReplaceAll text "&" "&amp;") "<" "&lt;") ">" "&gt;".

(** A text with placeholders, and what they stand for. *)
Record codeMatch := mk_codeMatch { cm_text : string; cm_codes : list string }.

(** [```[\w]*\n?([\s\S]*?)```], and [`([^`]+)`]. *)
Definition reCodeBlock : list re :=
  [lit "```"; Star (Cls is_word); opt (Cls (λ x, bool_decide (x = newline))); Lazy any_char; lit "```"].
Definition reInlineCode : list re := [lit "`"; plus (none_of "`"); lit "`"].

Definition nul : string := String (ascii_of_nat 0) "".
Definition placeholder (kind : string) (i : nat) : string := nul +:+ kind +:+ pretty i +:+ nul.

Definition extract (kind : string) (rs : list re) (group : nat) (text : string) : codeMatch :=
  mk_codeMatch (implode (replace_counted (λ i, chars (placeholder kind i)) 0 (tokens rs (chars text))))
    ((λ ps, implode (part group ps)) <$> find_groups rs (chars text)).
Definition extractCodeBlocks (text : string) : codeMatch := extract "CB" reCodeBlock 3 text.
Definition extractInlineCodes (text : string) : codeMatch := extract "IC" reInlineCode 1 text.

(** [^#{1,6}\s+(.+)$], and a greater sign with spaces at the start of one line; the flag m
    is not set. *)
Definition reHeader : list re := [Bol; rep_range 1 5 (lit "#"); plus ws; plus dot; Eol].
Definition reQuote : list re := [Bol; lit ">"; Star ws; Star dot; Eol].
(** [\[([^\]]+)\]\(([^)]+)\)] *)
Definition reLink : list re := [lit "["; plus (none_of "]"); lit "]("; plus (none_of ")"); lit ")"].
(** [\*\*(.+?)\*\*], [__(.+?)__], [~~(.+?)~~], [_([^_]+)_], [^[-*]\s+] *)
Definition reDelimited (d : string) : list re := [lit d; lazy_plus dot; lit d].
Definition reItalic : list re := [lit "_"; plus (none_of "_"); lit "_"].
Definition reBullet : list re := [Bol; any_of "-*"; plus ws].

Definition bullet : list ascii := ascii_of_nat <$> [226; 128; 162; 32].
Definition link_open : string := "<a href=" +:+ String quote "".
Definition link_mid : string := String quote ">".

Definition around (open close : string) (i : nat) (ps : list (list ascii)) : list ascii :=
  chars open ++ part i ps ++ chars close.
Definition link (ps : list (list ascii)) : list ascii :=
  chars link_open ++ part 3 ps ++ chars link_mid ++ part 1 ps ++ chars "</a>".

(** What is done between the two extractions and putting the code back. *)
Definition header_line (l : list ascii) : list ascii := replace_l reHeader (part 3) l.
Definition quote_line (l : list ascii) : list ascii := replace_l reQuote (part 3) l.
Definition formatting : list (list re * (list (list ascii) → list ascii)) :=
  [(reLink, link);
   (reDelimited "**", around "<b>" "</b>" 1);
   (reDelimited "__", around "<b>" "</b>" 1);
   (reItalic, around "<i>" "</i>" 1);
   (reDelimited "~~", around "<s>" "</s>" 1);
   (reBullet, λ _, bullet)].
Definition format (l : list ascii) : list ascii :=
  foldl (λ l step, replace_l step.1 step.2 l) l formatting.

Definition put_code (kind open close : string) (codes : list string) (text : string) : string :=
  foldl (λ text ic, ReplaceAll text (placeholder kind ic.1) (open +:+ escapeHTML ic.2 +:+ close))
    text (imap pair codes).

Definition markdownToTelegramHTML (text : string) : string :=
  if bool_decide (text = "") then ""
  else
    let codeBlocks := extractCodeBlocks text in
    let inlineCodes := extractInlineCodes (cm_text codeBlocks) in
    let text := implode (quote_line (header_line (chars (cm_text inlineCodes)))) in
    let text := implode (format (chars (escapeHTML text))) in
    let text := put_code "IC" "<code>" "</code>" (cm_codes inlineCodes) text in
    put_code "CB" "<pre><code>" "</code></pre>" (cm_codes codeBlocks) text.

Example formats :
  markdownToTelegramHTML "a **b** [c](d) `x<y`" =
  "a <b>b</b> " +:+ link_open +:+ "d" +:+ link_mid +:+ "c</a> <code>x&lt;y</code>".
Proof. vm_compute. reflexivity. Qed.

(** ** Texts whose special characters all begin a mark *)

(** What the conversion writes with a special character. *)
Definition marks : list (list ascii) :=
  chars <$> [link_open; "</a>"; "<b>"; "</b>"; "<i>"; "</i>"; "<s>"; "</s>"; "<code>"; "</code>";
             "<pre>"; "</pre>"; "&amp;"; "&lt;"; "&gt;"].
Definition special (x : ascii) : bool := bool_decide (x = "<"%char) || bool_decide (x = "&"%char).

(** A mark begins here. *)
Definition begins (l : list ascii) : bool := existsb (λ m, has_prefix_l m l) marks.
#[local] Arguments begins : simpl never.

Fixpoint safe (l : list ascii) : bool :=
  match l with
  | [] => true
  | x :: l' => (negb (special x) || begins l) && safe l'
  end.

(** A character of no mark. *)
Definition clear (x : ascii) : bool := forallb (λ m, negb (bool_decide (x ∈ m))) marks.

Lemma begins_iff l : begins l = true ↔ ∃ m, m ∈ marks ∧ m `prefix_of` l.
Proof.
  unfold begins. rewrite existsb_exists. setoid_rewrite has_prefix_l_spec.
  by setoid_rewrite <- list_elem_of_In.
Qed.

Lemma mark_not_clear m x : m ∈ marks → x ∈ m → clear x = false.
Proof.
  intros Hm Hx. apply not_true_iff_false. unfold clear. rewrite forallb_forall. intros Hc.
  specialize (Hc m (proj1 (list_elem_of_In _ _) Hm)). by apply negb_true_iff, bool_decide_eq_false in Hc.
Qed.

Lemma safe_iff l :
  safe l = true ↔ ∀ pre x post, l = pre ++ x :: post → special x = true → ∃ m, m ∈ marks ∧ m `prefix_of` x :: post.
Proof.
  induction l as [|y l IH]; cbn [safe].
  { split; [|done]. intros _ pre x post H. by destruct pre. }
  rewrite andb_true_iff, orb_true_iff, negb_true_iff, IH, begins_iff. split.
  - intros [Hy Hl] [|z pre] x post H Hx; injection H as -> ->; [|by eapply Hl].
    destruct Hy as [Hy|Hy]; [congruence|done].
  - intros H. split.
    + destruct (special y) eqn:Hy; [right|by left]. by apply (H [] y l).
    + intros pre x post -> Hx. by apply (H (y :: pre) x post).
Qed.

(** What follows a character of a safe text can be exchanged for a safe text that
    begins with the same parts of marks. *)
Lemma safe_cons_keep x l k :
  safe (x :: l) = true → safe k = true →
  (∀ m, Forall (λ y, clear y = false) m → m `prefix_of` l → m `prefix_of` k) → safe (x :: k) = true.
Proof.
  cbn [safe]. intros [Hx _]%andb_true_iff Hk Hm. rewrite Hk, andb_true_r.
  apply orb_true_iff in Hx as [->|(m & Hin & Hp)%begins_iff]; [done|].
  apply orb_true_iff. right. apply begins_iff. exists m. split; [done|].
  destruct m as [|y m]; [apply prefix_nil|]. destruct Hp as [z [= -> E]].
  apply prefix_cons, Hm; [|by exists z]. apply list.Forall_forall. intros c Hc.
  eapply mark_not_clear; [exact Hin|by right].
Qed.

Lemma safe_app l k : safe l = true → safe k = true → safe (l ++ k) = true.
Proof.
  rewrite !safe_iff. intros Hl Hk pre x post E Hx.
  apply app_eq_inv in E as [(z & -> & E)|(z & -> & E)].
  - destruct z as [|y z]; [by apply (Hk []); [symmetry|]|]. injection E as <- ->.
    destruct (Hl pre x z eq_refl Hx) as (m & Hm & Hp). exists m. split; [done|].
    etrans; [done|]. by exists k.
  - by apply (Hk z).
Qed.

Lemma safe_suffix l k : safe (l ++ k) = true → safe k = true.
Proof. induction l as [|x l IH]; [done|]. cbn. intros [_ H]%andb_true_iff. auto. Qed.

(** A clear character ends every mark before it. *)
Lemma prefix_before_clear m l x k :
  m ∈ marks → clear x = true → m `prefix_of` l ++ x :: k → m `prefix_of` l.
Proof.
  intros Hm Hx [k' E]. assert (x ∉ m) as Hni by (intros Hi; by rewrite (mark_not_clear m x) in Hx).
  clear Hm Hx. revert m Hni E. induction l as [|y l IH]; intros m Hx E.
  - destruct m as [|z m]; [apply prefix_nil|]. injection E as <- _. by destruct Hx; left.
  - destruct m as [|z m]; [apply prefix_nil|]. injection E as -> E. apply prefix_cons, IH; [|done].
    intros ?. apply Hx. by right.
Qed.

Lemma safe_before_clear l x k : clear x = true → safe (l ++ x :: k) = true → safe l = true.
Proof.
  intros Hx H. rewrite safe_iff in H |- *. intros pre y post -> Hy.
  destruct (H pre y (post ++ x :: k)) as (m & Hm & Hp); [by rewrite <- (assoc_L (++))|done|].
  exists m. split; [done|]. by apply (prefix_before_clear m (y :: post) x k).
Qed.

(** ** Replacements keep texts safe *)

(** Every match begins with a clear character, and from a safe text makes a safe one. *)
Definition safe_step (rs : list re) (f : list (list ascii) → list ascii) : Prop :=
  ∀ c ps e, parts_match rs c ps e → length e.2 < length c.2 →
    (∃ x l, c.2 = x :: l ∧ clear x = true) ∧ (safe c.2 = true → safe (f ps) = true).

Lemma replace_safe rs f l : safe_step rs f → safe l = true → safe (replace_l rs f l) = true.
Proof.
  intros Hs. unfold replace_l.
  cut (safe l = true → safe (tokens rs l ≫= replaced f) = true ∧
    ∀ m, Forall (λ x, clear x = false) m → m `prefix_of` l → m `prefix_of` (tokens rs l ≫= replaced f)).
  { intros H Hl. by apply H. }
  apply (tokens_ind rs (λ c ts, safe c.2 = true → safe (ts ≫= replaced f) = true ∧
    ∀ m, Forall (λ x, clear x = false) m → m `prefix_of` c.2 → m `prefix_of` (ts ≫= replaced f))); cbn [snd].
  - auto.
  - intros prev x k ts _ IH Hx. destruct (IH (safe_suffix [x] k Hx)) as [IHs IHm]. csimpl. split.
    + by eapply safe_cons_keep.
    + intros [|y m] Hc [z Hz]; [apply prefix_nil|]. injection Hz as <- Hz. apply Forall_cons in Hc as [_ Hc].
      apply prefix_cons, IHm; [done|by exists z].
  - intros c ps e ts Hp Hlt IH Hc. destruct (Hs c ps e Hp Hlt) as [(x & k & Ek & Hx) Hf]. csimpl.
    destruct (IH ltac:(rewrite (parts_text _ _ _ _ Hp) in Hc; by eapply safe_suffix)) as [IHs IHm]. split.
    + apply safe_app; [by apply Hf|done].
    + intros [|y m] Hcl [z Hz]; [apply prefix_nil|]. rewrite Ek in Hz. injection Hz as <- Hz.
      apply Forall_cons in Hcl as [Hcl _]. congruence.
Qed.

(** The first character of a delimiter is of no mark. *)
Definition delimiter (d : string) : bool := match chars d with x :: _ => clear x | [] => false end.

Lemma delimiter_chars d : delimiter d = true → ∃ x l, chars d = x :: l ∧ clear x = true.
Proof. unfold delimiter. destruct (chars d) as [|x l]; [done|]. eauto. Qed.

Lemma safe_before_delimiter d l k : delimiter d = true → safe (l ++ chars d ++ k) = true → safe l = true.
Proof. intros (x & m & -> & Hx)%delimiter_chars. by apply safe_before_clear. Qed.

Lemma delimited_safe d body d' open close :
  delimiter d = true → delimiter d' = true → safe (chars open) = true → safe (chars close) = true →
  safe_step [lit d; body; lit d'] (around open close 1).
Proof.
  intros Hd Hd' Ho Hc c ps e (c1 & ps1 & -> & E & H)%parts_lit_inv _.
  apply parts_cons_inv in H as (b & c2 & ps2 & -> & _ & E1 & (c3 & ps3 & -> & E2 & _)%parts_lit_inv).
  split.
  - destruct (delimiter_chars d Hd) as (x & l & Ex & Hx). rewrite E, Ex. by eexists _, _.
  - rewrite E, E1, E2. intros Hs%safe_suffix%safe_before_delimiter; [|done].
    unfold around, part. by repeat apply safe_app.
Qed.

Lemma link_safe : safe_step reLink link.
Proof.
  intros c ps e (c1 & ps1 & -> & E & H)%parts_lit_inv _.
  apply parts_cons_inv in H as (text & c2 & ps2 & -> & _ & E1 & (c3 & ps3 & -> & E2 & H)%parts_lit_inv).
  apply parts_cons_inv in H as (url & c4 & ps4 & -> & _ & E3 & (c5 & ps5 & -> & E4 & _)%parts_lit_inv).
  split.
  - rewrite E. by eexists _, _.
  - rewrite E, E1, E2, E3, E4. intros Hs%safe_suffix. pose proof (safe_before_delimiter "](" _ _ eq_refl Hs) as Ht.
    apply safe_suffix, safe_suffix, safe_before_delimiter in Hs; [|done].
    unfold link, part. cbn [lookup list_lookup default from_option id]. by repeat apply safe_app.
Qed.

Lemma bullet_safe : safe_step reBullet (λ _, bullet).
Proof.
  intros c ps e (p & c1 & ps1 & -> & Hb & _ & H)%parts_cons_inv _. split; [|by intros _].
  apply Bol_iff in Hb as [_ ->]. apply parts_cons_inv in H as (q & c2 & ps2 & -> & Hm & _ & _).
  apply Cls_iff in Hm as (x & l & E & Hx & _). exists x, l. split; [done|].
  apply bool_decide_eq_true in Hx. revert Hx. cbn [chars].
  rewrite !elem_of_cons, elem_of_nil. by intros [->|[->|[]]].
Qed.

Lemma formatting_safe : Forall (λ step, safe_step step.1 step.2) formatting.
Proof.
  unfold formatting. repeat apply Forall_cons_2; try apply Forall_nil_2; cbn [fst snd];
    first [apply link_safe | apply bullet_safe | by apply delimited_safe].
Qed.

Lemma format_safe l : safe l = true → safe (format l) = true.
Proof.
  unfold format. revert l. induction formatting_safe as [|step steps Hs _ IH]; intros l Hl; [done|].
  apply IH. by apply replace_safe.
Qed.

(** ** Escaping, and putting code back *)
Lemma replace_go_safe old new skip l :
  match old with x :: _ => clear x | [] => false end = true → safe new = true → safe l = true →
  safe (replace_go old new skip l) = true ∧
  (skip = 0 → ∀ m, Forall (λ x, clear x = false) m → m `prefix_of` l → m `prefix_of` replace_go old new skip l).
Proof.
  intros Ho Hn. revert skip. induction l as [|c r IH]; intros skip Hs; [done|].
  pose proof (safe_suffix [c] r Hs) as Hr. cbn [replace_go]. destruct skip as [|skip].
  - destruct (has_prefix_l old (c :: r)) eqn:Hp.
    + split; [apply safe_app; [done|by apply IH]|]. intros _ [|y m] Hm [z Hz]; [apply prefix_nil|].
      injection Hz as <- _. apply Forall_cons in Hm as [Hy _]. apply has_prefix_l_spec in Hp as [k Hk].
      destruct old as [|x old]; [done|]. injection Hk as <- _. congruence.
    + destruct (IH 0 Hr) as [IHs IHm]. specialize (IHm eq_refl). split; [by eapply safe_cons_keep|].
      intros _ [|y m] Hm [z Hz]; [apply prefix_nil|]. injection Hz as <- Hz. apply Forall_cons in Hm as [_ Hm].
      apply prefix_cons, IHm; [done|by exists z].
  - split; [by apply IH|done].
Qed.

(** A single character is replaced everywhere. *)
Lemma ReplaceAll_char x new s :
  chars (ReplaceAll s (String x "") new) = chars s ≫= λ c, if bool_decide (c = x) then chars new else [c].
Proof.
  unfold ReplaceAll. rewrite chars_implode. change (chars (String x "")) with [x].
  induction (chars s) as [|c l IH]; [done|].
  cbn [chars replace_go length Nat.sub has_prefix_l mbind list_bind]. rewrite andb_true_r, IH.
  destruct (bool_decide_reflect (x = c)) as [->|Hne]; [by rewrite bool_decide_eq_true_2|].
  by rewrite bool_decide_eq_false_2.
Qed.

Definition escape_char (c : ascii) : list ascii :=
  if bool_decide (c = "&"%char) then chars "&amp;"
  else if bool_decide (c = "<"%char) then chars "&lt;"
  else if bool_decide (c = ">"%char) then chars "&gt;" else [c].

Lemma chars_escapeHTML s : chars (escapeHTML s) = chars s ≫= escape_char.
Proof.
  unfold escapeHTML. rewrite !ReplaceAll_char. induction (chars s) as [|c l IH]; [done|].
  cbn [mbind list_bind]. rewrite !bind_app, IH. f_equal. clear. unfold escape_char.
  destruct (decide (c = "&"%char)) as [->|H1]; [reflexivity|].
  destruct (decide (c = "<"%char)) as [->|H2]; [reflexivity|].
  destruct (decide (c = ">"%char)) as [->|H3]; [reflexivity|].
  rewrite !(bool_decide_eq_false_2 (c = _)) by done. cbn [mbind list_bind app].
  rewrite !(bool_decide_eq_false_2 (c = _)) by done. cbn [mbind list_bind app].
  by rewrite !(bool_decide_eq_false_2 (c = _)) by done.
Qed.

Lemma escapeHTML_safe s : safe (chars (escapeHTML s)) = true.
Proof.
  rewrite chars_escapeHTML. induction (chars s) as [|c l IH]; [done|]. csimpl.
  apply safe_app; [|done]. unfold escape_char. repeat case_bool_decide; [done..|]. cbn [safe].
  unfold special. by rewrite !bool_decide_eq_false_2.
Qed.

Lemma put_code_safe kind open close codes text :
  safe (chars open) = true → safe (chars close) = true → safe (chars text) = true →
  safe (chars (put_code kind open close codes text)) = true.
Proof.
  intros Ho Hc. unfold put_code. revert text. induction (imap pair codes) as [|[i code] l IH]; intros text Ht; [done|].
  cbn [foldl]. apply IH. unfold ReplaceAll. rewrite chars_implode. apply replace_go_safe; [done| |done].
  rewrite !chars_app. by repeat apply safe_app; try apply escapeHTML_safe.
Qed.

(** C20: An answer cannot write tags or entities: in the HTML made of any text, every
    opening bracket and every ampersand begins one of the tags and entities that the
    conversion writes. *)
Theorem telegram_html_safe (text : string) (pre post : list ascii) (x : ascii) :
  chars (markdownToTelegramHTML text) = pre ++ x :: post → x = "<"%char ∨ x = "&"%char →
  ∃ m, m ∈ marks ∧ m `prefix_of` x :: post.
Proof.
  intros E Hx. assert (safe (chars (markdownToTelegramHTML text)) = true) as Hs.
  { unfold markdownToTelegramHTML. case_bool_decide; [done|].
    repeat apply put_code_safe; try done. rewrite chars_implode. apply format_safe, escapeHTML_safe. }
  rewrite safe_iff in Hs. apply (Hs pre x post E). by destruct Hx as [->| ->].
Qed.

Lemma telegram_html_safe_witness :
  chars (markdownToTelegramHTML "1 < 2") = chars "1 " ++ "&"%char :: chars "lt; 2" ∧
  ∃ m, m ∈ marks ∧ m `prefix_of` "&"%char :: chars "lt; 2".
Proof.
  assert (chars (markdownToTelegramHTML "1 < 2") = chars "1 " ++ "&"%char :: chars "lt; 2") as E
    by (vm_compute; reflexivity).
  split; [exact E|]. apply (telegram_html_safe "1 < 2" (chars "1 ") (chars "lt; 2") "&"%char E). by right.
Defined.

(** ** Where the conversion departs from what it means to do *)

(** Headers are recognised only when they are the whole text. *)
Example header_not_first_line :
  markdownToTelegramHTML "# Title" = "Title" ∧
  markdownToTelegramHTML ("# Title" +:+ String newline "text") = "# Title" +:+ String newline "text".
Proof. split; vm_compute; reflexivity. Qed.

(** The underscores of an address are taken for italics, inside its tag. *)
Example underscores_break_links :
  markdownToTelegramHTML "[a](http://x/b_c_d)" = link_open +:+ "http://x/b<i>c</i>d" +:+ link_mid +:+ "a</a>".
Proof. vm_compute. reflexivity. Qed.

(** Tags can overlap, which is not HTML. *)
Example overlapping_tags :
  markdownToTelegramHTML "**a _b** c_" = "<b>a <i>b</b> c</i>".
Proof. vm_compute. reflexivity. Qed.

(** A quotation mark in an address ends the attribute, so an answer can add others. *)
Example quotes_end_the_address :
  markdownToTelegramHTML ("[a](x" +:+ String quote " title=" +:+ String quote "y)") =
  link_open +:+ "x" +:+ String quote " title=" +:+ String quote "y" +:+ link_mid +:+ "a</a>".
Proof. vm_compute. reflexivity. Qed.
