(* ===== verification/Telegram.v ===== *)
(** * The Telegram channel (pkg/channels/telegram.go, telegram_commands.go)

    Messages of allowed users become inbound messages, with the files they carry; a
    placeholder is sent while the agent thinks, which the reply replaces.  The
    interface of the platform, downloads and transcription are parameters. *)
From stdpp Require Import base gmap strings list pretty.
From Stdlib Require Import Ascii ZArith Lia.
From S2P Require Import Prelude GoStrings Encoding Bus Channels Media Agents Settings TelegramText.
#[local] Open Scope nat_scope.

Definition tnl : string := String newline_char "".

(** ** Data *)

(** The parts of a message of the platform that are read; files by their identifiers. *)
Record tg_user := mk_tg_user { tu_ID : Z; tu_Username : string; tu_FirstName : string }.
Record tg_message := mk_tg_message {
  tm_ID : Z;
  tm_From : option tg_user;
  tm_Chat : Z;
  tm_ChatType : string;
  tm_Text : string;
  tm_Caption : string;
  tm_Photo : list string;
  tm_Voice : option string;
  tm_Audio : option string;
  tm_Document : option string;
}.

(** Requests to the platform: an edit of a message, a new message with its mode and
    the message it replies to, and the sign that the bot is typing. *)
Inductive tg_call :=
| EditMessageText (chat id : Z) (text mode : string)
| SendMessage (chat : Z) (text mode : string) (reply_to : option Z)
| SendChatAction (chat : Z).

(** [stopThinking] holds the functions that cancel contexts, numbered as they are made;
    [tc_cancelled] are those that were called. *)
Record TelegramChannel := mk_TelegramChannel {
  tc_base : BaseChannel;
  tc_chatIDs : gmap string Z;
  tc_placeholders : gmap string Z;
  tc_stopThinking : gmap string nat;
  tc_contexts : nat;
  tc_cancelled : gset nat;
  tc_transcriber : option GroqTranscriber;
}.

Definition NewTelegramChannel (parse_url : string → bool) (new_bot : string → result string unit)
    (cfg : TelegramConfig) : result string TelegramChannel :=
  if negb (bool_decide (tg_Proxy cfg = "")) && negb (parse_url (tg_Proxy cfg)) then Err "invalid proxy URL"
  else match new_bot (tg_Token cfg) with
       | Err e => Err ("failed to create telegram bot: " +:+ e)
       | Ok _ => Ok (mk_TelegramChannel (NewBaseChannel "telegram" (tg_AllowFrom cfg)) ∅ ∅ ∅ 0 ∅ None)
       end.

Definition with_base (b : BaseChannel) (c : TelegramChannel) : TelegramChannel :=
  mk_TelegramChannel b (tc_chatIDs c) (tc_placeholders c) (tc_stopThinking c) (tc_contexts c) (tc_cancelled c)
    (tc_transcriber c).
Definition SetTranscriber (t : GroqTranscriber) (c : TelegramChannel) : TelegramChannel :=
  mk_TelegramChannel (tc_base c) (tc_chatIDs c) (tc_placeholders c) (tc_stopThinking c) (tc_contexts c)
    (tc_cancelled c) (Some t).
Definition with_chat (senderID : string) (chat : Z) (c : TelegramChannel) : TelegramChannel :=
  mk_TelegramChannel (tc_base c) (<[senderID := chat]> (tc_chatIDs c)) (tc_placeholders c) (tc_stopThinking c)
    (tc_contexts c) (tc_cancelled c) (tc_transcriber c).
Definition with_placeholders (m : gmap string Z) (c : TelegramChannel) : TelegramChannel :=
  mk_TelegramChannel (tc_base c) (tc_chatIDs c) m (tc_stopThinking c) (tc_contexts c) (tc_cancelled c)
    (tc_transcriber c).

(** The thinking of a chat is stopped. *)
Definition cancel_thinking (chatID : string) (c : TelegramChannel) : gset nat :=
  match tc_stopThinking c !! chatID with Some k => {[k]} ∪ tc_cancelled c | None => tc_cancelled c end.
Definition start_thinking (chatID : string) (c : TelegramChannel) : TelegramChannel :=
  mk_TelegramChannel (tc_base c) (tc_chatIDs c) (tc_placeholders c)
    (<[chatID := tc_contexts c]> (tc_stopThinking c)) (S (tc_contexts c)) (cancel_thinking chatID c)
    (tc_transcriber c).
Definition stop_thinking (chatID : string) (c : TelegramChannel) : TelegramChannel :=
  mk_TelegramChannel (tc_base c) (tc_chatIDs c) (tc_placeholders c)
    (delete chatID (tc_stopThinking c)) (tc_contexts c) (cancel_thinking chatID c) (tc_transcriber c).

(** What polling and the handler of updates give when they are set up. *)
Definition Start_telegram (polling handler : option string) (c : TelegramChannel) :
    option string * TelegramChannel :=
  match polling, handler with
  | Some e, _ => (Some ("failed to start long polling: " +:+ e), c)
  | None, Some e => (Some ("failed to create bot handler: " +:+ e), c)
  | None, None => (None, with_base (setRunning true (tc_base c)) c)
  end.
Definition Stop_telegram (c : TelegramChannel) : TelegramChannel := with_base (setRunning false (tc_base c)) c.

(** ** Sending *)

(** [fmt.Sscanf(s, "%d", &id)]: spaces before the number are skipped, what follows it
    is left. *)
Fixpoint take_while (p : ascii → bool) (l : list ascii) : list ascii :=
  match l with x :: l' => if p x then x :: take_while p l' else [] | [] => [] end.
Definition parseChatID (s : string) : option Z :=
  let l := drop_while (λ c, is_space c && negb (bool_decide (c = newline_char))) (chars s) in
  let '(neg, ds) := sign_split l in
  let '(n, ok) := ParseInt ((if neg : bool then "-" else "") +:+ implode (take_while is_digit ds)) in
  if ok : bool then Some n else None.

(** [answer] is what the platform says to a request: the identifier of the message,
    or an error.  The requests that are made come with the result. *)
Definition Send_telegram (answer : tg_call → result string Z) (msg : OutboundMessage) (c : TelegramChannel) :
    option string * TelegramChannel * list tg_call :=
  if negb (bc_running (tc_base c)) then (Some "telegram bot not running", c, [])
  else
    match parseChatID (om_ChatID msg) with
    | None => (Some "invalid chat ID", c, [])
    | Some chat =>
        let c := stop_thinking (om_ChatID msg) c in
        let html := markdownToTelegramHTML (om_Content msg) in
        let placeholder := tc_placeholders c !! om_ChatID msg in
        let c := with_placeholders (delete (om_ChatID msg) (tc_placeholders c)) c in
        let edits := match placeholder with Some id => [EditMessageText chat id html "HTML"] | None => [] end in
        if existsb (λ call, is_ok (answer call)) edits then (None, c, edits)
        else
          let first := SendMessage chat html "HTML" None in
          match answer first with
          | Ok _ => (None, c, edits ++ [first])
          | Err _ =>
              let plain := SendMessage chat html "" None in
              (match answer plain with Ok _ => None | Err e => Some e end, c, edits ++ [first; plain])
          end
    end.

(** ** Receiving *)

(** What surrounds a message: the files of the platform, downloads with a fresh name
    for each kind of file, transcription, and answers to requests. *)
Record tg_env := mk_tg_env {
  te_tmp : string;
  te_mkdir : bool;
  te_id : string → string;
  te_GetFile : string → result string string;
  te_FileURL : string → string;
  te_answer : string → option fetched;
  te_Post : string → string → list (string * string) → string → string → result string (Z * string);
  te_text : string → result string string;
  te_api : tg_call → result string Z;
}.

Definition downloadFileWithInfo (E : tg_env) (kind filePath ext : string) (fs : files) : string * files :=
  if bool_decide (filePath = "") then ("", fs)
  else DownloadFile (te_tmp E) (te_mkdir E) (te_id E kind) (filePath +:+ ext) (te_answer E (te_FileURL E filePath)) fs.

(** [downloadPhoto], [downloadFile]. *)
Definition downloadFile (E : tg_env) (kind fileID ext : string) (fs : files) : string * files :=
  match te_GetFile E fileID with
  | Err _ => ("", fs)
  | Ok filePath => downloadFileWithInfo E kind filePath ext fs
  end.

(** The content, the local files, and the files on disk while a message is handled. *)
Abbreviation gathered := (string * list string * files)%type.

Definition append_text (content text : string) : string :=
  (if bool_decide (content = "") then "" else content +:+ tnl) +:+ text.

Definition add_file (E : tg_env) (kind : string) (fileID : option string) (ext : string)
    (text : string → files → string) (g : gathered) : gathered :=
  match fileID with
  | None => g
  | Some fileID =>
      let '(content, media, fs) := g in
      let '(path, fs) := downloadFile E kind fileID ext fs in
      if bool_decide (path = "") then (content, media, fs)
      else (append_text content (text path fs), media ++ [path], fs)
  end.

Definition voice_text (E : tg_env) (c : TelegramChannel) (path : string) (fs : files) : string :=
  match tc_transcriber c with
  | Some t =>
      if IsAvailable_transcriber t then
        match Transcribe (te_Post E) (te_text E) fs t path with
        | Err _ => "[voice (transcription failed)]"
        | Ok text => "[voice transcription: " +:+ text +:+ "]"
        end
      else "[voice]"
  | None => "[voice]"
  end.

Definition gather (E : tg_env) (c : TelegramChannel) (m : tg_message) (fs : files) : gathered :=
  let content := tm_Text m in
  let content := if bool_decide (tm_Caption m = "") then content else append_text content (tm_Caption m) in
  let g := (content, [], fs) in
  let g := add_file E "photo" (last (tm_Photo m)) ".jpg" (λ _ _, "[image: photo]") g in
  let g := add_file E "voice" (tm_Voice m) ".ogg" (voice_text E c) g in
  let g := add_file E "audio" (tm_Audio m) ".mp3" (λ _ _, "[audio]") g in
  add_file E "document" (tm_Document m) "" (λ _ _, "[file]") g.

Definition is_private (m : tg_message) : bool := bool_decide (tm_ChatType m = "private").
Definition tg_metadata (m : tg_message) (user : tg_user) : gmap string string :=
  {[ "message_id" := pretty (tm_ID m); "user_id" := pretty (tu_ID user); "username" := tu_Username user;
     "first_name" := tu_FirstName user; "is_group" := if is_private m then "false" else "true";
     "peer_kind" := if is_private m then "direct" else "group";
     "peer_id" := if is_private m then pretty (tu_ID user) else pretty (tm_Chat m) ]}.

Definition tg_senderID (user : tg_user) : string :=
  if bool_decide (tu_Username user = "") then pretty (tu_ID user)
  else pretty (tu_ID user) +:+ "|" +:+ tu_Username user.

Record handled := mk_handled {
  hd_error : option string;
  hd_channel : TelegramChannel;
  hd_files : files;
  hd_message : option InboundMessage;
  hd_calls : list tg_call;
}.

Definition thinking_text : string := "Thinking... 💭".

Definition handleMessage (E : tg_env) (m : tg_message) (c : TelegramChannel) (fs : files) : handled :=
  match tm_From m with
  | None => mk_handled (Some "message sender (user) is nil") c fs None []
  | Some user =>
      if negb (IsAllowed (tc_base c) (tg_senderID user)) then mk_handled None c fs None []
      else
        let c := with_chat (tg_senderID user) (tm_Chat m) c in
        let '(content, media, fs) := gather E c m fs in
        let content := if bool_decide (content = "") then "[empty message]" else content in
        let chatID := pretty (tm_Chat m) in
        let c := start_thinking chatID c in
        let thinking := SendMessage (tm_Chat m) thinking_text "" None in
        let c := match te_api E thinking with
                 | Ok id => with_placeholders (<[chatID := id]> (tc_placeholders c)) c
                 | Err _ => c
                 end in
        mk_handled None c (remove_files media fs)
          (HandleMessage (tc_base c) (pretty (tu_ID user)) chatID content media (tg_metadata m user))
          [SendChatAction (tm_Chat m); thinking]
  end.

(** ** Commands *)
Definition commandArgs (text : string) : string :=
  match cut text " " with Some (_, args) => trim_space args | None => "" end.

Definition reply (m : tg_message) (text : string) : tg_call := SendMessage (tm_Chat m) text "" (Some (tm_ID m)).

Definition help_text : string :=
  "/start - Start the bot" +:+ tnl +:+ "/help - Show this help message" +:+ tnl +:+
  "/show [model|channel] - Show current configuration" +:+ tnl +:+
  "/list [models|channels] - List available options" +:+ tnl +:+ String (ascii_of_nat 9) "".

Definition Help (m : tg_message) : tg_call := reply m help_text.
Definition Start_command (m : tg_message) : tg_call := reply m "Hello! I am TinyClaw 🦞".

Definition Show (d : AgentDefaults) (m : tg_message) : tg_call :=
  let args := commandArgs (tm_Text m) in
  reply m
    (if bool_decide (args = "") then "Usage: /show [model|channel]"
     else if bool_decide (args = "model") then
       "Current Model: " +:+ GetModelName d +:+ " (Provider: " +:+ ad_Provider d +:+ ")"
     else if bool_decide (args = "channel") then "Current Channel: telegram"
     else "Unknown parameter: " +:+ args +:+ ". Try 'model' or 'channel'.").

Definition enabled_channels (ch : ChannelsConfig) : list string :=
  omap (λ x, if x.1 : bool then Some x.2 else None)
    [(tg_Enabled (ch_Telegram ch), "telegram"); (wa_Enabled (ch_WhatsApp ch), "whatsapp");
     (fs_Enabled (ch_Feishu ch), "feishu"); (dc_Enabled (ch_Discord ch), "discord");
     (sl_Enabled (ch_Slack ch), "slack")].

Definition List_command (d : AgentDefaults) (ch : ChannelsConfig) (m : tg_message) : tg_call :=
  let args := commandArgs (tm_Text m) in
  reply m
    (if bool_decide (args = "") then "Usage: /list [models|channels]"
     else if bool_decide (args = "models") then
       "Configured Model: " +:+ GetModelName d +:+ tnl +:+ "Provider: " +:+
       (if bool_decide (ad_Provider d = "") then "configured default" else ad_Provider d) +:+ tnl +:+ tnl +:+
       "To change models, update config.yaml"
     else if bool_decide (args = "channels") then
       "Enabled Channels:" +:+ tnl +:+ "- " +:+ join (tnl +:+ "- ") (enabled_channels ch)
     else "Unknown parameter: " +:+ args +:+ ". Try 'models' or 'channels'.").

(** An update: the first handler that applies.  [is_command] is the predicate of the
    client library for messages that are a command. *)
Definition handle_update (is_command : string → tg_message → bool) (d : AgentDefaults) (ch : ChannelsConfig)
    (E : tg_env) (m : tg_message) (c : TelegramChannel) (fs : files) : handled :=
  let answer call := mk_handled None c fs None [call] in
  if is_command "help" m then answer (Help m)
  else if is_command "start" m then answer (Start_command m)
  else if is_command "show" m then answer (Show d m)
  else if is_command "list" m then answer (List_command d ch m)
  else handleMessage E m c fs.

(** ** Replies go back to the chat *)
Lemma take_while_all p l : forallb p l = true → take_while p l = l.
Proof. induction l as [|x l IH]; [done|]. cbn. intros [-> H]%andb_true_iff. by rewrite IH. Qed.

Lemma parseChatID_pretty (n : Z) : in_int64 n → parseChatID (pretty n) = Some n.
Proof.
  intros Hn. unfold parseChatID. rewrite drop_while_id.
  - rewrite sign_split_pretty. destruct (pretty_N_digits (Z.to_N (Z.abs n))) as [_ Hd].
    rewrite take_while_all.
    + by rewrite implode_chars, pretty_with_sign, ParseInt_pretty.
    + apply forallb_forall. rewrite list.Forall_forall in Hd. intros c Hc. by apply Hd, list_elem_of_In.
  - destruct (chars (pretty n)) as [|c l] eqn:El; [done|]. apply negb_true_iff, andb_false_iff. left.
    destruct (pretty_Z_digits n c) as [Hc| ->]; [rewrite El; by left| |done].
    unfold is_digit, in_range in Hc. apply andb_true_iff in Hc as [Hc _]. apply Nat.leb_le in Hc.
    change (byte "0"%char) with 48 in Hc. unfold is_space. apply orb_false_iff. split.
    + apply andb_false_iff. right. apply Nat.leb_gt. lia.
    + apply Nat.eqb_neq. lia.
Qed.

Definition call_chat (call : tg_call) : Z :=
  match call with EditMessageText chat _ _ _ | SendMessage chat _ _ _ | SendChatAction chat => chat end.

Lemma Send_calls answer msg c e c' calls :
  Send_telegram answer msg c = (e, c', calls) →
  ∀ call, call ∈ calls → parseChatID (om_ChatID msg) = Some (call_chat call).
Proof.
  unfold Send_telegram. destruct (negb _); [intros [= <- <- <-]; by intros ? ?%not_elem_of_nil|].
  destruct (parseChatID _) as [chat|]; [|intros [= <- <- <-]; by intros ? ?%not_elem_of_nil].
  assert (∀ l call, Forall (λ x, call_chat x = chat) l → call ∈ l → Some chat = Some (call_chat call)) as Hall.
  { intros l call Hl Hin. rewrite list.Forall_forall in Hl. by rewrite (Hl call Hin). }
  intros H call. apply Hall. destruct (_ !! _) as [id|]; cbn in H; repeat case_match; simplify_eq/=; by repeat constructor.
Qed.

(** What a message of an allowed user gives. *)
Lemma handled_message E m c fs inb :
  hd_message (handleMessage E m c fs) = Some inb →
  im_ChatID inb = pretty (tm_Chat m) ∧
  ∃ user, tm_From m = Some user ∧ IsAllowed (tc_base c) (tg_senderID user) = true ∧
    IsAllowed (tc_base c) (pretty (tu_ID user)) = true.
Proof.
  unfold handleMessage. destruct (tm_From m) as [user|]; [|done].
  destruct (IsAllowed (tc_base c) (tg_senderID user)) eqn:Ha; cbn [negb]; [|done].
  destruct (gather _ _ _ _) as [[content media] fs'].
  intros H. cbn [hd_message] in H. unfold HandleMessage in H.
  assert (tc_base (match te_api E (SendMessage (tm_Chat m) thinking_text "" None) with
    | Ok id => with_placeholders (<[pretty (tm_Chat m):=id]>
                 (tc_placeholders (start_thinking (pretty (tm_Chat m)) (with_chat (tg_senderID user) (tm_Chat m) c))))
                 (start_thinking (pretty (tm_Chat m)) (with_chat (tg_senderID user) (tm_Chat m) c))
    | Err _ => start_thinking (pretty (tm_Chat m)) (with_chat (tg_senderID user) (tm_Chat m) c) end) = tc_base c)
    as Hb by (by destruct (te_api _ _)).
  rewrite Hb in H. destruct (IsAllowed (tc_base c) (pretty (tu_ID user))) eqn:Hp; [|done].
  injection H as <-. split; [done|]. by exists user.
Qed.

(** Every request that a reply to a message makes is for the chat the message came from. *)
Lemma telegram_reply_goes_back E m c fs inb answer content c' e c'' calls :
  in_int64 (tm_Chat m) → hd_message (handleMessage E m c fs) = Some inb →
  Send_telegram answer (mk_OutboundMessage (im_Channel inb) (im_ChatID inb) content) c' = (e, c'', calls) →
  Forall (λ call, call_chat call = tm_Chat m) calls.
Proof.
  intros Hi [Hc _]%handled_message Hs. apply list.Forall_forall. intros call Hin.
  pose proof (Send_calls _ _ _ _ _ _ Hs call Hin) as H. cbn [om_ChatID] in H.
  rewrite Hc, parseChatID_pretty in H by done. congruence.
Qed.

(** ** A reply is shown once *)

(** [Send] succeeds exactly when its last request does, and no request before the last
    succeeds: the reply is shown once, or an error is returned and it is not shown. *)
Lemma telegram_shown_once answer msg c e c' calls :
  bc_running (tc_base c) = true → is_Some (parseChatID (om_ChatID msg)) →
  Send_telegram answer msg c = (e, c', calls) →
  ∃ before call, calls = before ++ [call] ∧ Forall (λ x, is_ok (answer x) = false) before ∧
    (e = None ↔ is_ok (answer call) = true).
Proof.
  intros Hr [chat Hc]. unfold Send_telegram. rewrite Hr, Hc. cbn [negb].
  set (html := markdownToTelegramHTML _). set (first := SendMessage chat html "HTML" None).
  set (plain := SendMessage chat html "" None). cbn [tc_placeholders stop_thinking].
  destruct (tc_placeholders c !! om_ChatID msg) as [id|]; cbn [existsb orb app].
  - rewrite orb_false_r. set (edit := EditMessageText chat id html "HTML").
    destruct (answer edit) eqn:E1; cbn [is_ok]; [intros [= <- _ <-]; exists [], edit; by rewrite E1|].
    destruct (answer first) eqn:E2.
    + intros [= <- _ <-]. exists [edit], first. rewrite E2. split_and!; [done|by repeat constructor; rewrite E1|done].
    + intros [= <- _ <-]. exists [edit; first], plain. split_and!; [done| |by destruct (answer plain)].
      repeat constructor; [by rewrite E1|by rewrite E2].
  - destruct (answer first) eqn:E2.
    + intros [= <- _ <-]. exists [], first. by rewrite E2.
    + intros [= <- _ <-]. exists [first], plain. split_and!; [done| |by destruct (answer plain)].
      repeat constructor. by rewrite E2.
Qed.

(** ** Thinking is stopped *)

(** Every context that was made is cancelled or is the one that is kept for a chat. *)
Definition thinking_ok (c : TelegramChannel) : Prop :=
  ∀ k, k < tc_contexts c → k ∈ tc_cancelled c ∨ ∃ chat, tc_stopThinking c !! chat = Some k.

Lemma start_thinking_ok chat c : thinking_ok c → thinking_ok (start_thinking chat c).
Proof.
  intros H k Hk. cbn in *. destruct (decide (k = tc_contexts c)) as [->|Hne].
  { right. exists chat. apply lookup_insert_eq. }
  unfold cancel_thinking. destruct (H k ltac:(lia)) as [Hc|[ch Hch]].
  - left. case_match; set_solver.
  - destruct (decide (ch = chat)) as [->|]; [rewrite Hch; set_solver|].
    right. exists ch. by rewrite lookup_insert_ne.
Qed.

Lemma stop_thinking_ok chat c : thinking_ok c → thinking_ok (stop_thinking chat c).
Proof.
  intros H k Hk. cbn in *. unfold cancel_thinking. destruct (H k Hk) as [Hc|[ch Hch]].
  - left. case_match; set_solver.
  - destruct (decide (ch = chat)) as [->|]; [rewrite Hch; set_solver|].
    right. exists ch. by rewrite lookup_delete_ne.
Qed.

(** It is kept by every operation of the channel. *)
Lemma handleMessage_thinking_ok E m c fs : thinking_ok c → thinking_ok (hd_channel (handleMessage E m c fs)).
Proof.
  intros H. unfold handleMessage. destruct (tm_From m) as [user|]; [|done].
  destruct (IsAllowed _ _); cbn [negb]; [|done]. destruct (gather _ _ _ _) as [[content media] fs'].
  cbn [hd_channel]. assert (thinking_ok (with_chat (tg_senderID user) (tm_Chat m) c)) as H' by exact H.
  apply (start_thinking_ok (pretty (tm_Chat m))) in H'. by destruct (te_api _ _).
Qed.

Lemma Send_thinking_ok answer msg c :
  thinking_ok c → thinking_ok (Send_telegram answer msg c).1.2.
Proof.
  intros H. unfold Send_telegram. destruct (negb _); [done|]. destruct (parseChatID _); [|done].
  apply (stop_thinking_ok (om_ChatID msg)) in H. repeat case_match; done.
Qed.

(** ** Where the channel departs from what it means to do *)

(** Commands are answered for everyone, and tell the model and the channels. *)
Lemma commands_for_everyone is_command d ch E m c fs :
  is_command "help" m = false → is_command "start" m = false → is_command "show" m = true →
  hd_calls (handle_update is_command d ch E m c fs) = [Show d m].
Proof. intros H1 H2 H3. unfold handle_update. by rewrite H1, H2, H3. Qed.

Definition ann : tg_user := mk_tg_user 7 "ann" "Ann".
Definition greeting : tg_message := mk_tg_message 1 (Some ann) 7 "private" "hi" "" [] None None None.
Definition quiet_env (api : tg_call → result string Z) : tg_env :=
  mk_tg_env "/tmp" true (λ _, "id") (λ _, Err "no file") (λ p, p) (λ _, None) (λ _ _ _ _ _, Err "none")
    (λ _, Err "none") api.
Definition channel_for (allow : list string) : TelegramChannel :=
  mk_TelegramChannel (mk_BaseChannel "telegram" allow true) ∅ ∅ ∅ 0 ∅ None.

(** A user who is allowed by the name passes the first check, gets a placeholder, and
    is dropped by the second, which is asked about the number alone. *)
Example allowed_by_name_dropped :
  let h := handleMessage (quiet_env (λ _, Ok 5%Z)) greeting (channel_for ["@ann"]) ∅ in
  IsAllowed (tc_base (channel_for ["@ann"])) (tg_senderID ann) = true ∧ hd_message h = None ∧
  hd_calls h = [SendChatAction 7; SendMessage 7 thinking_text "" None] ∧
  tc_placeholders (hd_channel h) !! "7" = Some 5%Z.
Proof. vm_compute. auto. Qed.

(** Of two placeholders of one chat the first is left behind. *)
Example placeholder_left_behind :
  let first := hd_channel (handleMessage (quiet_env (λ _, Ok 5%Z)) greeting (channel_for []) ∅) in
  let second := hd_channel (handleMessage (quiet_env (λ _, Ok 6%Z)) greeting first ∅) in
  let '(e, c, calls) := Send_telegram (λ _, Ok 9%Z) (mk_OutboundMessage "telegram" "7" "yes") second in
  calls = [EditMessageText 7 6 "yes" "HTML"] ∧ tc_placeholders c !! "7" = None.
Proof. vm_compute. auto. Qed.

(** When HTML is refused, the same HTML is sent as plain text, not the answer. *)
Example fallback_shows_tags :
  let answer call := match call with SendMessage _ _ "" _ => Ok 1%Z | _ => Err "can't parse entities" end in
  (Send_telegram answer (mk_OutboundMessage "telegram" "7" "**a _b** c_") (channel_for [])).2 =
  [SendMessage 7 "<b>a <i>b</b> c</i>" "HTML" None; SendMessage 7 "<b>a <i>b</b> c</i>" "" None].
Proof. vm_compute. reflexivity. Qed.

(** The files of a message are removed when it has been published: whoever takes the
    message afterwards finds none of them. *)
Lemma telegram_media_removed E m c fs inb path :
  hd_message (handleMessage E m c fs) = Some inb → path ∈ im_Media inb →
  hd_files (handleMessage E m c fs) !! path = None.
Proof.
  unfold handleMessage. destruct (tm_From m) as [user|]; [|done].
  destruct (negb _); [done|]. destruct (gather _ _ _ _) as [[content media] fs'].
  cbn [hd_message hd_files]. unfold HandleMessage. destruct (negb _); [done|]. intros [= <-] Hp.
  cbn in Hp. by rewrite remove_files_lookup, decide_True.
Qed.
