(* ===== verification/TokenSources.v ===== *)
(** * The tokens of clients with an account (pkg/providers/codex_provider.go,
      antigravity_provider.go)

    Before each request these clients take a token from the credential store,
    refresh it when it is about to expire, and save what they got.  The clock is
    read where the code reads it; requests and JSON are parameters. *)
From stdpp Require Import base gmap strings list pretty.
From Stdlib Require Import Ascii ZArith Lia.
From S2P Require Import Prelude GoStrings ProviderTypes Paths ToolBase Auth.
#[local] Open Scope go_scope.
#[local] Open Scope nat_scope.

(** What taking a token comes to; a nil credential in the store is dereferenced. *)
Inductive sourced :=
| Token (token account : string)
| Fails (e : error)
| NilPointer.

Definition codex_name : string := "openai".
Definition antigravity_name : string := "google-antigravity".
Definition defaultProject : string := "rising-fact-p41fc".

Definition set_Email (c : AuthCredential) (email : string) : AuthCredential :=
  mk_AuthCredential (cr_AccessToken c) (cr_RefreshToken c) (cr_AccountID c) (cr_ExpiresAt c) (cr_Provider c)
    (cr_AuthMethod c) email (cr_ProjectID c).
Definition set_ProjectID (c : AuthCredential) (id : string) : AuthCredential :=
  mk_AuthCredential (cr_AccessToken c) (cr_RefreshToken c) (cr_AccountID c) (cr_ExpiresAt c) (cr_Provider c)
    (cr_AuthMethod c) (cr_Email c) id.

(** The error for a credential that is not there, or cannot be read. *)
Definition no_credential (name e : string) : sourced :=
  Fails (errors_New
    (if bool_decide (e = ErrCredentialNotFound)
     then "no credentials for " +:+ name +:+ ". Run: tinyclaw auth login --provider " +:+ name
     else "loading auth credentials: " +:+ e)).

Section sources.
Context (token_of_json : string → result string token_response).
Context (claims_of_json : list ascii → result string (gmap string json)).
Context (PostForm : string → gmap string string → result string (Z * string)).

Let refresh := RefreshAccessToken token_of_json claims_of_json PostForm.

(** [t1]: when the expiry is checked; [t2]: when the answer is read. *)
Definition createCodexTokenSource (t1 t2 : time) (fault : save_fault) (f : auth_file) : sourced * auth_file :=
  match GetCredential codex_name f with
  | Err e => (no_credential codex_name e, f)
  | Ok None => (NilPointer, f)
  | Ok (Some cred) =>
      if bool_decide (cr_AuthMethod cred = "oauth") && NeedsRefresh t1 cred
         && negb (bool_decide (cr_RefreshToken cred = "")) then
        match refresh t2 cred OpenAIOAuthConfig with
        | Err e => (Fails (errors_New ("refreshing token: " +:+ e)), f)
        | Ok refreshed =>
            let refreshed := if bool_decide (cr_AccountID refreshed = "")
                             then set_AccountID refreshed (cr_AccountID cred) else refreshed in
            match SetCredential fault codex_name (Some refreshed) f with
            | (Err e, f) => (Fails (errors_New ("saving refreshed token: " +:+ e)), f)
            | (Ok _, f) => (Token (cr_AccessToken refreshed) (cr_AccountID refreshed), f)
            end
        end
      else (Token (cr_AccessToken cred) (cr_AccountID cred), f)
  end.

(** The answers of the service to requests with a token: status and body. *)
Context (loadCodeAssist : string → result string (Z * string)).
Context (project_of_json : string → result string string).

Definition FetchAntigravityProjectID (accessToken : string) : result string string :=
  match loadCodeAssist accessToken with
  | Err e => Err e
  | Ok (status, body) =>
      if negb (status =? 200)%Z then Err ("loadCodeAssist failed: " +:+ body)
      else
        let? project := project_of_json body in
        if bool_decide (project = "") then Err "no project ID in loadCodeAssist response" else Ok project
  end.

(** The credential to use, refreshed and saved if needed. *)
Definition refreshed_credential (t1 t2 : time) (fault : save_fault) (cred : AuthCredential) (f : auth_file) :
    result error AuthCredential * auth_file :=
  if NeedsRefresh t1 cred && negb (bool_decide (cr_RefreshToken cred = "")) then
    match refresh t2 cred GoogleAntigravityOAuthConfig with
    | Err e => (Err (errors_New ("refreshing token: " +:+ e)), f)
    | Ok refreshed =>
        let refreshed := set_Email refreshed (cr_Email cred) in
        let refreshed := if bool_decide (cr_ProjectID refreshed = "")
                         then set_ProjectID refreshed (cr_ProjectID cred) else refreshed in
        match SetCredential fault antigravity_name (Some refreshed) f with
        | (Err e, f) => (Err (errors_New ("saving refreshed token: " +:+ e)), f)
        | (Ok _, f) => (Ok refreshed, f)
        end
    end
  else (Ok cred, f).

(** The project of the credential, or else the one the service names, which is
    saved, whether or not saving works. *)
Definition project_for (fault : save_fault) (cred : AuthCredential) (f : auth_file) : string * auth_file :=
  if bool_decide (cr_ProjectID cred = "") then
    match FetchAntigravityProjectID (cr_AccessToken cred) with
    | Err _ => (defaultProject, f)
    | Ok fetchedID =>
        (fetchedID, (SetCredential fault antigravity_name (Some (set_ProjectID cred fetchedID)) f).2)
    end
  else (cr_ProjectID cred, f).

(** [t3]: when the token is last checked; one fault for each of the two saves. *)
Definition createAntigravityTokenSource (t1 t2 t3 : time) (fault1 fault2 : save_fault) (f : auth_file) :
    sourced * auth_file :=
  match GetCredential antigravity_name f with
  | Err e => (no_credential antigravity_name e, f)
  | Ok None => (NilPointer, f)
  | Ok (Some cred) =>
      match refreshed_credential t1 t2 fault1 cred f with
      | (Err e, f) => (Fails e, f)
      | (Ok cred, f) =>
          if IsExpired t3 cred
          then (Fails (errors_New ("antigravity credentials expired. Run: tinyclaw auth login --provider "
                                   +:+ antigravity_name)), f)
          else
            let '(projectID, f) := project_for fault2 cred f in
            (Token (cr_AccessToken cred) projectID, f)
      end
  end.

(** ** The models of the service *)
Record AntigravityModelInfo := mk_AntigravityModelInfo {
  mi_ID : string;
  mi_DisplayName : string;
  mi_IsExhausted : bool;
}.

Definition truncateString (s : string) (maxLen : nat) : string :=
  if String.length s <=? maxLen then s else str_take maxLen s +:+ "...".

Context (fetchAvailableModels : string → string → result string (Z * string)).
Context (models_of_json : string → result string (gmap string (string * bool))).

(** [models] without the entry [id] gets one. *)
Definition ensure_model (id name : string) (models : list AntigravityModelInfo) : list AntigravityModelInfo :=
  if existsb (λ m, bool_decide (mi_ID m = id)) models then models
  else models ++ [mk_AntigravityModelInfo id name false].

Definition FetchAntigravityModels (accessToken projectID : string) :
    result string (list AntigravityModelInfo) :=
  match fetchAvailableModels accessToken projectID with
  | Err e => Err e
  | Ok (status, body) =>
      if negb (status =? 200)%Z
      then Err ("fetchAvailableModels failed (HTTP " +:+ pretty status +:+ "): " +:+ truncateString body 200)
      else
        match models_of_json body with
        | Err e => Err ("parsing models response: " +:+ e)
        | Ok result =>
            let models := (λ m, mk_AntigravityModelInfo m.1 m.2.1 m.2.2) <$> map_to_list result in
            Ok (ensure_model "gemini-3-flash" "Gemini 3 Flash"
                  (ensure_model "gemini-3-flash-preview" "Gemini 3 Flash (Preview)" models))
        end
  end.

(** ** The models *)
Lemma ensure_model_spec id name models :
  NoDup (mi_ID <$> models) →
  NoDup (mi_ID <$> ensure_model id name models) ∧ id ∈ mi_ID <$> ensure_model id name models ∧
  models `prefix_of` ensure_model id name models.
Proof.
  intros Hnd. unfold ensure_model. destruct (existsb _ models) eqn:E.
  - apply existsb_exists in E as (m & Hm & Hid%bool_decide_eq_true). split; [done|]. split; [|done].
    apply list_elem_of_fmap. exists m. split; [done|]. by apply list_elem_of_In.
  - rewrite fmap_app. split; [|split; [|by eexists]].
    + apply NoDup_app. split; [done|]. split; [|apply NoDup_singleton].
      intros x (m & -> & Hm)%list_elem_of_fmap. csimpl. rewrite list_elem_of_singleton. intros Hid.
      apply not_true_iff_false in E. apply E, existsb_exists. exists m.
      split; [by apply list_elem_of_In|by apply bool_decide_eq_true].
    + apply elem_of_app. right. csimpl. by apply list_elem_of_singleton.
Qed.

(** A list of models names each once, all those of the service and both Flash models. *)
Lemma fetched_models accessToken projectID models :
  FetchAntigravityModels accessToken projectID = Ok models →
  NoDup (mi_ID <$> models) ∧ "gemini-3-flash" ∈ mi_ID <$> models ∧ "gemini-3-flash-preview" ∈ mi_ID <$> models.
Proof.
  unfold FetchAntigravityModels. destruct (fetchAvailableModels _ _) as [[status body]|]; [|done].
  destruct (negb _); [done|]. destruct (models_of_json body) as [result|]; [|done]. intros [= <-].
  set (models := _ <$> map_to_list result).
  assert (NoDup (mi_ID <$> models)) as H0.
  { unfold models. rewrite <-list_fmap_compose.
    replace (mi_ID ∘ _) with (fst : string * (string * bool) → string) by done. apply NoDup_fst_map_to_list. }
  destruct (ensure_model_spec "gemini-3-flash-preview" "Gemini 3 Flash (Preview)" _ H0) as (H1 & H2 & H3).
  destruct (ensure_model_spec "gemini-3-flash" "Gemini 3 Flash" _ H1) as (H4 & H5 & [k H6]).
  split; [done|]. split; [done|]. rewrite H6, fmap_app. apply elem_of_app. by left.
Qed.
(** ** The tokens *)

(** A save that breaks off in the middle of the write. *)
Definition breaks_off (fault : save_fault) : bool := match fault with WriteFails _ _ => true | _ => false end.

Lemma set_get fault name cred f f' u :
  SetCredential fault name cred f = (Ok u, f') →
  ∀ other, GetCredential other f' = if bool_decide (other = name) then Ok cred else GetCredential other f.
Proof.
  intros H other. assert (fault = NoFault) as ->.
  { revert H. unfold SetCredential. destruct (LoadStore f); [|done]. by destruct fault. }
  destruct (LoadStore f) as [creds|] eqn:E; [|by unfold SetCredential in H; rewrite E in H].
  replace f' with (SetCredential NoFault name cred f).2 by (by rewrite H). by eapply get_set.
Qed.

Lemma set_fails fault name cred f e f' :
  SetCredential fault name cred f = (Err e, f') → breaks_off fault = false → f' = f.
Proof. unfold SetCredential. destruct (LoadStore f), fault; cbn; by intros [=]. Qed.

(** [cred] replaces [stored]: it has a new token and can be refreshed again. *)
Definition replaces (stored cred : AuthCredential) : Prop :=
  cr_AccessToken cred ≠ "" ∧ cr_RefreshToken cred ≠ "" ∧ cr_Provider cred = cr_Provider stored ∧
  cr_Email cred = cr_Email stored ∧ cr_ProjectID cred = cr_ProjectID stored.

(** The store [f'] holds [cred] under the name and what [f] holds under the others. *)
Definition holds (name : string) (cred : AuthCredential) (f f' : auth_file) : Prop :=
  GetCredential name f' = Ok (Some cred) ∧ ∀ other, other ≠ name → GetCredential other f' = GetCredential other f.

Lemma holds_set fault name cred f f' u :
  SetCredential fault name (Some cred) f = (Ok u, f') → holds name cred f f'.
Proof.
  intros H. pose proof (set_get _ _ _ _ _ _ H) as Hg. split; [by rewrite Hg, bool_decide_eq_true_2|].
  intros other Hne. by rewrite Hg, bool_decide_eq_false_2.
Qed.

Lemma refreshed_credential_Ok t1 t2 fault stored f cred f' :
  GetCredential antigravity_name f = Ok (Some stored) →
  refreshed_credential t1 t2 fault stored f = (Ok cred, f') →
  holds antigravity_name cred f f' ∧
  (if NeedsRefresh t1 stored && negb (bool_decide (cr_RefreshToken stored = ""))
   then replaces stored cred else cred = stored).
Proof.
  intros Hf. unfold refreshed_credential. destruct (_ && _).
  2:{ intros [= <- <-]. split; [|done]. by split. }
  destruct (refresh t2 stored _) as [r|] eqn:Hr; [|done].
  apply refresh_keeps in Hr as (HP & _ & HA & HR & _ & HE & HJ).
  set (cred1 := if bool_decide (cr_ProjectID (set_Email r _) = "") then _ else _).
  assert (replaces stored cred1) as H1.
  { unfold cred1. case_bool_decide as Hp; cbn in Hp |- *; by split_and!. }
  destruct (SetCredential fault antigravity_name (Some cred1) f) as [[u|e] f1] eqn:Hs; [|done].
  intros [= <- <-]. split; [by eapply holds_set|done].
Qed.

Lemma fetched_project_ne token project : FetchAntigravityProjectID token = Ok project → project ≠ "".
Proof.
  unfold FetchAntigravityProjectID. destruct (loadCodeAssist token) as [[status body]|]; [|done].
  case_match; [done|]. destruct (project_of_json body); [|done]. case_bool_decide; [done|]. by intros [= <-].
Qed.

Lemma project_for_spec fault cred f project f' :
  GetCredential antigravity_name f = Ok (Some cred) → project_for fault cred f = (project, f') →
  project ≠ "" ∧
  (breaks_off fault = false → ∃ cred', holds antigravity_name cred' f f' ∧
     (cred' = cred ∨ cred' = set_ProjectID cred project)).
Proof.
  intros Hf. unfold project_for. case_bool_decide as Hp.
  2:{ intros [= <- <-]. split; [done|]. intros _. exists cred. split; [by split|by left]. }
  destruct (FetchAntigravityProjectID _) as [fetched|] eqn:Hx.
  2:{ intros [= <- <-]. split; [done|]. intros _. exists cred. split; [by split|by left]. }
  intros [= <- <-]. split; [by eapply fetched_project_ne|]. intros Hb.
  destruct (SetCredential _ _ _ _) as [[u|e] f1] eqn:Hs.
  - eexists. split; [by eapply holds_set|by right].
  - apply set_fails in Hs as ->; [|done]. exists cred. split; [by split|by left].
Qed.

(** C18: a request to Antigravity is made only with a token that has not expired: the
    stored one, or, when that is about to expire and can be refreshed, a new one
    that was saved before it is used and can be refreshed again; and with a
    project.  Unless the last save breaks off, the store then holds the token
    that was used, and the credentials of the other providers as they were. *)
Theorem antigravity_token_valid t1 t2 t3 fault1 fault2 f token project f' :
  createAntigravityTokenSource t1 t2 t3 fault1 fault2 f = (Token token project, f') →
  project ≠ "" ∧
  ∃ stored cred, GetCredential antigravity_name f = Ok (Some stored) ∧
    token = cr_AccessToken cred ∧ IsExpired t3 cred = false ∧
    (if NeedsRefresh t1 stored && negb (bool_decide (cr_RefreshToken stored = ""))
     then replaces stored cred else cred = stored) ∧
    (breaks_off fault2 = false → ∃ cred', holds antigravity_name cred' f f' ∧
       (cred' = cred ∨ cred' = set_ProjectID cred project)).
Proof.
  unfold createAntigravityTokenSource.
  destruct (GetCredential antigravity_name f) as [[stored|]|] eqn:Hf; [|done..].
  destruct (refreshed_credential _ _ _ _ _) as [[cred|] f1] eqn:Hr; [|done].
  apply refreshed_credential_Ok in Hr as [[Hh Ho] Hc]; [|done].
  destruct (IsExpired t3 cred) eqn:Hx; [done|].
  destruct (project_for _ _ _) as [project1 f2] eqn:Hp. intros [= <- <- <-].
  apply project_for_spec in Hp as [Hne Hs]; [|done]. split; [done|].
  exists stored, cred. do 4 (split; [done|]). intros Hb. destruct (Hs Hb) as (cred' & [H1 H2] & H3).
  exists cred'. split; [|done]. split; [done|]. intros other Hother. by rewrite H2, Ho.
Qed.
End sources.

(** ** Tokens taken *)
Definition old_token : AuthCredential :=
  mk_AuthCredential "old" "again" "" 5 "google-antigravity" "oauth" "me@x" "".
Definition demo_store : auth_file :=
  Stored (Some {[ antigravity_name := Some old_token; codex_name := Some demo_cred ]}).
Definition demo_answer (token : string) : result string (Z * string) := Ok (200%Z, "project-1").
Definition refreshing_post (url : string) (form : gmap string string) : result string (Z * string) :=
  Ok (200%Z, "new").

Example refreshed_and_saved :
  createAntigravityTokenSource demo_token (λ _, Err "") refreshing_post demo_answer Ok 1000 2000 3000
    NoFault NoFault demo_store =
  (Token "new" "project-1",
   Stored (Some {[ antigravity_name := Some (mk_AuthCredential "new" "again" "" (2000 + 3600 * second)
                      "google-antigravity" "oauth" "me@x" "project-1");
                   codex_name := Some demo_cred ]})).
Proof. vm_compute. reflexivity. Qed.

Lemma antigravity_token_valid_witness :
  ∃ stored cred, GetCredential antigravity_name demo_store = Ok (Some stored) ∧
    "new" = cr_AccessToken cred ∧ IsExpired 3000 cred = false.
Proof.
  destruct (antigravity_token_valid _ _ _ _ _ _ _ _ _ _ _ _ _ _ refreshed_and_saved)
    as (_ & stored & cred & H1 & H2 & H3 & _).
  exists stored, cred. split; [exact H1|]. split; [exact H2|exact H3].
Defined.

(** The Codex client checks no expiry after that: without a refresh token, an expired
    token is sent, and the request fails with an error of the server. *)
Lemma codex_sends_expired_token t1 t2 fault creds cred :
  creds !! codex_name = Some (Some cred) → cr_RefreshToken cred = "" →
  (createCodexTokenSource demo_token (λ _, Err "") demo_post t1 t2 fault (Stored (Some creds))).1
  = Token (cr_AccessToken cred) (cr_AccountID cred).
Proof.
  intros Hc Hr. unfold createCodexTokenSource, GetCredential. cbn [LoadStore]. rewrite Hc, Hr.
  rewrite (bool_decide_eq_true_2 ("" = "")) by done. by rewrite andb_false_r.
Qed.

(** A null in the store is a nil pointer, which both clients dereference. *)
Lemma null_credential_panics t1 t2 fault :
  (createCodexTokenSource demo_token (λ _, Err "") demo_post t1 t2 fault
     (Stored (Some {[ codex_name := None ]}))).1 = NilPointer.
Proof. reflexivity. Qed.

(** The save of the project comes after the token is checked and its error is
    dropped, so a save that breaks off loses every credential unseen. *)
Lemma project_save_loses_unseen :
  createAntigravityTokenSource demo_token (λ _, Err "") refreshing_post demo_answer Ok 1000 2000 3000
    NoFault (WriteFails "disk full" (Malformed "unexpected end of JSON input")) demo_store =
  (Token "new" "project-1", Malformed "unexpected end of JSON input").
Proof. vm_compute. reflexivity. Qed.
