(* ===== verification/Anthropic.v ===== *)
(** * The client of the Anthropic API (pkg/providers/anthropic/provider.go, claude_provider.go)

    The parameters of a request and the answer, with the structs of the SDK as
    far as they are set and read.  The request itself and JSON are parameters. *)
From stdpp Require Import base gmap strings list.
From Stdlib Require Import Ascii ZArith QArith Lia.
From S2P Require Import Prelude GoStrings ProviderTypes Paths ToolLoop Wire Auth ProviderFactory.
#[local] Open Scope go_scope.
#[local] Open Scope nat_scope.

(** ** The parameters of a request *)
Inductive block_param :=
| NewTextBlock (text : string)
| NewToolUseBlock (id input name : string)
| NewToolResultBlock (toolUseID content : string) (isError : bool).

Inductive message_param :=
| NewUserMessage (blocks : list block_param)
| NewAssistantMessage (blocks : list block_param).

Record text_block := mk_text_block {
  tb_Text : string;
  tb_Ephemeral : bool;
}.

Record tool_param := mk_tool_param {
  tp_Name : string;
  tp_Description : option string;
  tp_Properties : option json;
  tp_Required : list string;
}.

Record MessageNewParams := mk_MessageNewParams {
  mp_Model : string;
  mp_Messages : list message_param;
  mp_MaxTokens : Z;
  mp_System : list text_block;
  mp_Temperature : option Q;
  mp_Tools : list tool_param;
}.

(** The required parameters that are strings. *)
Definition required_of (v : option json) : list string :=
  match v with
  | Some (JArr req) => omap (λ r, match r with JStr s => Some s | _ => None end) req
  | _ => []
  end.

Definition translateTools (tools : list ToolDefinition) : list tool_param :=
  (λ t,
    let params := default ∅ (td_Parameters t) in
    mk_tool_param (td_Name t) (if bool_decide (td_Description t = "") then None else Some (td_Description t))
      (params !! "properties") (required_of (params !! "required"))) <$> tools.

(** ** The answer *)
Inductive content_block :=
| TextContent (text : string)
| ToolUseContent (id name input : string)
| OtherContent.

Record api_message := mk_api_message {
  am_Content : list content_block;
  am_StopReason : string;
  am_InputTokens : Z;
  am_OutputTokens : Z;
}.

Record Provider := mk_Provider {
  ap_baseURL : string;
  ap_token : string;
  ap_tokenSource : option (result error string);
}.

Definition NewProviderWithBaseURL (token apiBase : string) : Provider :=
  mk_Provider (normalizeBaseURL apiBase) token None.
Definition NewProviderWithTokenSourceAndBaseURL (token : string) (tokenSource : result error string)
    (apiBase : string) : Provider :=
  mk_Provider (normalizeBaseURL apiBase) token (Some tokenSource).

Section client.
Context (Marshal : gmap string json → result string string).
Context (Unmarshal : string → option (option (gmap string json))).

(** The input of a call: the arguments of its function as they are, or else its
    arguments encoded. *)
Definition tool_use_input (tc : ToolCall) : result error string :=
  let of_map :=
    match tc_Arguments tc with
    | Some args => match Marshal args with
                   | Ok s => Ok s
                   | Err e => Err (errors_New ("marshal tool_use input: " +:+ e))
                   end
    | None => Ok "{}"
    end in
  match tc_Function tc with
  | Some f => if bool_decide (fc_Arguments f = "") then of_map else Ok (fc_Arguments f)
  | None => of_map
  end.

Definition tool_use (tc : ToolCall) : result error block_param :=
  let? input := tool_use_input tc in Ok (NewToolUseBlock (tc_ID tc) input (call_name tc)).

Fixpoint tool_uses (tcs : list ToolCall) : result error (list block_param) :=
  match tcs with
  | [] => Ok []
  | tc :: rest => let? b := tool_use tc in let? bs := tool_uses rest in Ok (b :: bs)
  end.

Definition system_blocks (msg : Message) : list text_block :=
  match m_SystemParts msg with
  | [] => [mk_text_block (m_Content msg) false]
  | parts => (λ part, mk_text_block (cb_Text part) (bool_decide (cb_CacheControl part = Some "ephemeral"))) <$> parts
  end.

(** One turn of the loop over the messages. *)
Definition add_message (acc : list text_block * list message_param) (msg : Message) :
    result error (list text_block * list message_param) :=
  let '(system, messages) := acc in
  let result_block := NewUserMessage [NewToolResultBlock (m_ToolCallID msg) (m_Content msg) false] in
  if bool_decide (m_Role msg = "system") then Ok (system ++ system_blocks msg, messages)
  else if bool_decide (m_Role msg = "user") then
    if bool_decide (m_ToolCallID msg = "")
    then Ok (system, messages ++ [NewUserMessage [NewTextBlock (m_Content msg)]])
    else Ok (system, messages ++ [result_block])
  else if bool_decide (m_Role msg = "assistant") then
    if bool_decide (m_ToolCalls msg = [])
    then Ok (system, messages ++ [NewAssistantMessage [NewTextBlock (m_Content msg)]])
    else
      let text := if bool_decide (m_Content msg = "") then [] else [NewTextBlock (m_Content msg)] in
      let? uses := tool_uses (m_ToolCalls msg) in
      Ok (system, messages ++ [NewAssistantMessage (text ++ uses)])
  else if bool_decide (m_Role msg = "tool") then Ok (system, messages ++ [result_block])
  else Ok (system, messages).

Fixpoint add_messages (acc : list text_block * list message_param) (msgs : list Message) :
    result error (list text_block * list message_param) :=
  match msgs with
  | [] => Ok acc
  | msg :: rest => let? acc := add_message acc msg in add_messages acc rest
  end.

Definition buildParams (messages : list Message) (tools : list ToolDefinition) (model : string)
    (options : Options) : result error MessageNewParams :=
  let? (system, anthropicMessages) := add_messages ([], []) messages in
  Ok (mk_MessageNewParams model anthropicMessages
        (match options !! "max_tokens" with Some (VInt mt) => mt | _ => 4096%Z end) system
        (match options !! "temperature" with Some (VFloat64 q) => Some q | _ => None end)
        (translateTools tools)).

Definition call_of_block (b : content_block) : option ToolCall :=
  match b with
  | ToolUseContent id name input =>
      let args := match Unmarshal input with Some args => args | None => Some {[ "raw" := JStr input ]} end in
      Some (mk_ToolCall id "" None name args "" None)
  | _ => None
  end.

Definition finish_reason (stop : string) : string :=
  if bool_decide (stop = "tool_use") then "tool_calls"
  else if bool_decide (stop = "max_tokens") then "length" else "stop".

Definition parseResponse (resp : api_message) : LLMResponse :=
  mk_LLMResponse
    (join "" (omap (λ b, match b with TextContent t => Some t | _ => None end) (am_Content resp))) ""
    (omap call_of_block (am_Content resp)) (finish_reason (am_StopReason resp))
    (Some (mk_UsageInfo (am_InputTokens resp) (am_OutputTokens resp)
             (wrap64 (am_InputTokens resp + am_OutputTokens resp)))).

(** [client.Messages.New] with the token of the request and the base of the client. *)
Context (Messages_New : string → string → MessageNewParams → result error api_message).

Definition Chat (p : Provider) (messages : list Message) (tools : list ToolDefinition) (model : string)
    (options : Options) : result error LLMResponse :=
  match match ap_tokenSource p with Some source => source | None => Ok (ap_token p) end with
  | Err e => Err (wrap_error "refreshing token: " e)
  | Ok tok =>
      let? params := buildParams messages tools model options in
      match Messages_New tok (ap_baseURL p) params with
      | Err e => Err (wrap_error "claude API call: " e)
      | Ok resp => Ok (parseResponse resp)
      end
  end.

(** [ClaudeProvider.Chat] delegates. *)
Definition ClaudeProvider_Chat (p : Provider) messages tools model options : result error LLMResponse :=
  let? resp := Chat p messages tools model options in Ok resp.
End client.

(** The token a client of this kind takes before each request. *)
Definition createClaudeTokenSource (f : auth_file) : result error string :=
  match GetCredential "anthropic" f with
  | Err e => Err (errors_New ("loading auth credentials: " +:+ e))
  | Ok None => Err (errors_New "no credentials for anthropic. Run: tinyclaw auth login --provider anthropic")
  | Ok (Some cred) => Ok (cr_AccessToken cred)
  end.

(** ** What a request says *)
Definition block_events (role : string) (b : block_param) : list wire_event :=
  match b with
  | NewTextBlock text => text_event role text
  | NewToolUseBlock id input name => [EvCall id name input]
  | NewToolResultBlock id content _ => [EvResult id content]
  end.

Definition param_events (m : message_param) : list wire_event :=
  match m with
  | NewUserMessage blocks => blocks ≫= block_events "user"
  | NewAssistantMessage blocks => blocks ≫= block_events "assistant"
  end.

Lemma text_block_events role text :
  (if bool_decide (text = "") then [] else [NewTextBlock text]) ≫= block_events role = text_event role text.
Proof. case_bool_decide as H; [by rewrite H|]. csimpl. by rewrite app_nil_r. Qed.

Section lemmas.
Context (Marshal : gmap string json → result string string).

Lemma tool_uses_events tcs bs :
  Forall (recorded Marshal) tcs →
  tool_uses Marshal tcs = Ok bs → bs ≫= block_events "assistant" = call_event <$> tcs.
Proof.
  intros Hrec. revert bs. induction Hrec as [|tc tcs (f & Hf & _ & Hne & _) _ IH]; intros bs; cbn [tool_uses];
    [by intros [= <-]|].
  unfold tool_use, tool_use_input. rewrite Hf, bool_decide_eq_false_2 by done.
  destruct (tool_uses Marshal tcs) as [bs'|]; [|done]. intros [= <-]. csimpl. rewrite (IH bs' eq_refl).
  unfold call_event, recorded_arguments. by rewrite Hf.
Qed.

Lemma add_message_says acc msg acc' :
  (m_Role msg = "assistant" → Forall (recorded Marshal) (m_ToolCalls msg)) →
  add_message Marshal acc msg = Ok acc' →
  acc'.2 ≫= param_events = (acc.2 ≫= param_events) ++ message_events msg.
Proof.
  intros Hrec. destruct acc as [system messages]. unfold add_message, message_events.
  case_bool_decide as Hs; [intros [= <-]; rewrite Hs; csimpl; by rewrite app_nil_r|].
  case_bool_decide as Hu.
  { rewrite Hu. csimpl. case_bool_decide; intros [= <-]; csimpl; rewrite bind_app; csimpl;
      by rewrite ?app_nil_r. }
  case_bool_decide as Ha.
  { case_bool_decide as Hc.
    - intros [= <-]. csimpl. rewrite bind_app, Hc. csimpl. by rewrite !app_nil_r.
    - destruct (tool_uses Marshal (m_ToolCalls msg)) as [uses|] eqn:Hus; [|done]. intros [= <-].
      csimpl. rewrite bind_app. csimpl. rewrite app_nil_r, bind_app, (tool_uses_events _ _ (Hrec Ha) Hus).
      by rewrite text_block_events. }
  case_bool_decide; intros [= <-]; csimpl; rewrite ?bind_app; csimpl; by rewrite ?app_nil_r.
Qed.

Lemma add_messages_events acc msgs acc' :
  calls_recorded Marshal msgs → add_messages Marshal acc msgs = Ok acc' →
  acc'.2 ≫= param_events = (acc.2 ≫= param_events) ++ transcript_events msgs.
Proof.
  intros Hrec. revert acc. induction Hrec as [|m msgs Hm _ IH]; intros acc; cbn [add_messages].
  { intros [= <-]. by rewrite app_nil_r. }
  destruct (add_message Marshal acc m) as [acc1|] eqn:H1; [|done]. intros H.
  by rewrite (IH _ H), (add_message_says _ _ _ Hm H1), transcript_events_cons, app_assoc.
Qed.

Lemma add_messages_system acc msgs acc' :
  add_messages Marshal acc msgs = Ok acc' → acc'.1 = acc.1 ++ (system_messages msgs ≫= system_blocks).
Proof.
  revert acc. induction msgs as [|m msgs IH]; intros acc; cbn [add_messages].
  { intros [= <-]. by rewrite app_nil_r. }
  destruct (add_message Marshal acc m) as [acc1|] eqn:H1; [|done]. intros H.
  rewrite (IH _ H). unfold system_messages. destruct acc as [system messages].
  revert H1. unfold add_message. case_bool_decide as Hs.
  - intros [= <-]. rewrite filter_cons_True by done. csimpl. by rewrite app_assoc.
  - rewrite filter_cons_False by done. repeat case_bool_decide; try (by intros [= <-]).
    all: destruct (tool_uses _ _); [by intros [= <-]|done].
Qed.

(** A request is built whenever the arguments of the calls can be encoded. *)
Lemma buildParams_total msgs tools model options :
  (∀ args, is_ok (Marshal args) = true) → is_ok (buildParams Marshal msgs tools model options) = true.
Proof.
  intros HM. unfold buildParams.
  assert (∀ tc, is_ok (tool_use Marshal tc) = true) as Htu.
  { intros tc. unfold tool_use, tool_use_input.
    destruct (tc_Function tc) as [f|], (tc_Arguments tc) as [args|];
      try (pose proof (HM args); destruct (Marshal args)); try case_bool_decide; done. }
  assert (∀ tcs, is_ok (tool_uses Marshal tcs) = true) as Htus.
  { induction tcs as [|tc tcs IH]; [done|]. cbn [tool_uses]. pose proof (Htu tc).
    destruct (tool_use Marshal tc); [|done]. by destruct (tool_uses Marshal tcs). }
  assert (∀ acc m, is_ok (add_message Marshal acc m) = true) as Hone.
  { intros [sys l] m. unfold add_message. repeat case_bool_decide; try done;
    pose proof (Htus (m_ToolCalls m)); by destruct (tool_uses Marshal (m_ToolCalls m)). }
  assert (∀ ms acc, is_ok (add_messages Marshal acc ms) = true) as Hall.
  { induction ms as [|m ms IH]; intros acc; [done|]. cbn [add_messages].
    pose proof (Hone acc m). destruct (add_message Marshal acc m); [apply IH|done]. }
  specialize (Hall msgs ([], [])). by destruct (add_messages Marshal ([], []) msgs) as [[??]|].
Qed.
End lemmas.

#[export] Instance anthropic_format Marshal (Marshal_ok : ∀ args, is_ok (Marshal args) = true)
    tools model options :
  RequestFormat (λ ms, buildParams Marshal ms tools model options)
    (λ params, mp_Messages params ≫= param_events) mp_System (λ ms, ms ≫= system_blocks)
    (calls_recorded Marshal).
Proof.
  split; [intros ms; by apply buildParams_total| |].
  - intros ms r Hrec. unfold buildParams.
    destruct (add_messages _ _ _) as [[system msgs]|] eqn:E; [|done]. intros [= <-].
    exact (add_messages_events _ _ _ _ Hrec E).
  - intros ms r. unfold buildParams.
    destruct (add_messages _ _ _) as [[system msgs]|] eqn:E; [|done]. intros [= <-].
    exact (add_messages_system _ _ _ _ E).
Qed.
