(* ===== verification/Codex.v ===== *)
(** * The client of the Codex backend (pkg/providers/codex_provider.go)

    The model that is asked, the parameters of a request, the answer, and the
    tokens the client takes from the credential store. *)
From stdpp Require Import base gmap strings list.
From Stdlib Require Import Ascii ZArith QArith Lia.
From S2P Require Import Prelude GoStrings ProviderTypes Paths ToolLoop Wire Auth OpenAICompat.
#[local] Open Scope go_scope.
#[local] Open Scope nat_scope.

Definition codexDefaultModel : string := "gpt-5.2".
Definition codexDefaultInstructions : string := "You are Codex, a coding assistant.".

(** ** The model *)
Definition unsupportedPrefixes : list string :=
  ["glm"; "claude"; "anthropic"; "gemini"; "google"; "moonshot"; "kimi"; "qwen"; "deepseek"; "llama";
   "meta-llama"; "mistral"; "grok"; "xai"; "zhipu"].

(** The model of the family, and why it is not the one asked for. *)
Definition resolve_family (m : string) : string * string :=
  if existsb (has_prefix m) unsupportedPrefixes then (codexDefaultModel, "unsupported model prefix")
  else if has_prefix m "gpt-" || has_prefix m "o3" || has_prefix m "o4" then (m, "")
  else (codexDefaultModel, "unsupported model family").

Definition resolveCodexModel (model : string) : string * string :=
  let m := to_lower (trim_space model) in
  if bool_decide (m = "") then (codexDefaultModel, "empty model")
  else if has_prefix m "openai/" then resolve_family (trim_prefix m "openai/")
  else if contains m "/" then (codexDefaultModel, "non-openai model namespace")
  else resolve_family m.

(** ** The parameters of a request *)
Inductive input_item :=
| InMessage (role content : string)
| InFunctionCall (callID name arguments : string)
| InFunctionCallOutput (callID output : string).

Inductive tool_union :=
| FunctionTool (name : string) (description : option string) (parameters : option (gmap string json))
| WebSearchTool.

(** [Store] is false and [Strict] is false for every tool. *)
Record ResponseNewParams := mk_ResponseNewParams {
  rp_Model : string;
  rp_Input : list input_item;
  rp_Instructions : string;
  rp_PromptCacheKey : option string;
  rp_Tools : list tool_union;
}.

(** The two letters beyond ASCII whose case folds to an ASCII letter, which
    [strings.EqualFold] takes for it. *)
Fixpoint fold_ascii (l : list ascii) : list ascii :=
  match l with
  | [] => []
  | a :: ((b :: rest) as tl) =>
      if Nat.eqb (byte a) 197 && Nat.eqb (byte b) 191 then "s"%char :: fold_ascii rest
      else match rest with
           | c :: rest' =>
               if Nat.eqb (byte a) 226 && Nat.eqb (byte b) 132 && Nat.eqb (byte c) 170
               then "k"%char :: fold_ascii rest' else lower_char a :: fold_ascii tl
           | [] => lower_char a :: fold_ascii tl
           end
  | [a] => [lower_char a]
  end.

(** [strings.EqualFold(s, t)] for an ASCII [t]. *)
Definition EqualFold (s t : string) : bool := bool_decide (fold_ascii (chars s) = chars (to_lower t)).

Definition translateToolsForCodex (tools : list ToolDefinition) (enableWebSearch : bool) : list tool_union :=
  omap (λ t,
    if negb (bool_decide (td_Type t = "function")) then None
    else if enableWebSearch && EqualFold (td_Name t) "web_search" then None
    else Some (FunctionTool (td_Name t)
                 (if bool_decide (td_Description t = "") then None else Some (td_Description t))
                 (td_Parameters t))) tools
  ++ (if enableWebSearch then [WebSearchTool] else []).

(** ** The answer *)
Inductive output_item :=
| OutMessage (contents : list (string * string))     (* type and text of each *)
| OutFunctionCall (callID name arguments : string)
| OutOther.

Record Response := mk_Response {
  re_ID : string;
  re_Output : list output_item;
  re_Status : string;
  re_InputTokens : Z;
  re_OutputTokens : Z;
  re_TotalTokens : Z;
}.

Record CodexProvider := mk_CodexProvider {
  cx_token : string;
  cx_accountID : string;
  cx_tokenSource : option (result error (string * string));
  cx_enableWebSearch : bool;
}.

Definition NewCodexProvider (token accountID : string) : CodexProvider :=
  mk_CodexProvider token accountID None true.
Definition NewCodexProviderWithTokenSource (token accountID : string)
    (tokenSource : result error (string * string)) : CodexProvider :=
  mk_CodexProvider token accountID (Some tokenSource) true.

Section client.
Context (Marshal : gmap string json → result string string).
Context (Unmarshal : string → option (option (gmap string json))).

Definition resolveCodexToolCall (tc : ToolCall) : option (string * string) :=
  let name := call_name tc in
  if bool_decide (name = "") then None
  else
    let arguments := default ∅ (tc_Arguments tc) in
    if negb (bool_decide (size arguments = 0)) then
      match Marshal arguments with Ok argsJSON => Some (name, argsJSON) | Err _ => None end
    else match tc_Function tc with
         | Some f => if bool_decide (fc_Arguments f = "") then Some (name, "{}") else Some (name, fc_Arguments f)
         | None => Some (name, "{}")
         end.

Definition call_items (tcs : list ToolCall) : list input_item :=
  omap (λ tc, (λ na, InFunctionCall (tc_ID tc) na.1 na.2) <$> resolveCodexToolCall tc) tcs.

(** One turn of the loop over the messages: the instructions and the items so far. *)
Definition add_message (acc : string * list input_item) (msg : Message) : string * list input_item :=
  let '(instructions, items) := acc in
  let output := InFunctionCallOutput (m_ToolCallID msg) (m_Content msg) in
  if bool_decide (m_Role msg = "system") then (m_Content msg, items)
  else if bool_decide (m_Role msg = "user") then
    (instructions,
     items ++ [if bool_decide (m_ToolCallID msg = "") then InMessage "user" (m_Content msg) else output])
  else if bool_decide (m_Role msg = "assistant") then
    if bool_decide (m_ToolCalls msg = []) then (instructions, items ++ [InMessage "assistant" (m_Content msg)])
    else
      let text := if bool_decide (m_Content msg = "") then [] else [InMessage "assistant" (m_Content msg)] in
      (instructions, items ++ text ++ call_items (m_ToolCalls msg))
  else if bool_decide (m_Role msg = "tool") then (instructions, items ++ [output])
  else (instructions, items).

Definition buildCodexParams (messages : list Message) (tools : list ToolDefinition) (model : string)
    (options : Options) (enableWebSearch : bool) : ResponseNewParams :=
  let '(instructions, items) := foldl add_message ("", []) messages in
  mk_ResponseNewParams model items
    (if bool_decide (instructions = "") then codexDefaultInstructions else instructions)
    (cache_key options) (translateToolsForCodex tools enableWebSearch).

Definition output_text (items : list output_item) : string :=
  join "" (items ≫= λ item,
    match item with
    | OutMessage contents => omap (λ c, if bool_decide (c.1 = "output_text") then Some c.2 else None) contents
    | _ => []
    end).

Definition call_of_item (item : output_item) : option ToolCall :=
  match item with
  | OutFunctionCall callID name arguments =>
      let args := match Unmarshal arguments with
                  | Some args => args
                  | None => Some {[ "raw" := JStr arguments ]}
                  end in
      Some (mk_ToolCall callID "" None name args "" None)
  | _ => None
  end.

Definition parseCodexResponse (resp : Response) : LLMResponse :=
  let toolCalls := omap call_of_item (re_Output resp) in
  let finishReason := if bool_decide (re_Status resp = "incomplete") then "length"
                      else if bool_decide (toolCalls = []) then "stop" else "tool_calls" in
  mk_LLMResponse (output_text (re_Output resp)) "" toolCalls finishReason
    (if (0 <? re_TotalTokens resp)%Z
     then Some (mk_UsageInfo (re_InputTokens resp) (re_OutputTokens resp) (re_TotalTokens resp)) else None).

(** The events of a stream with the response of each, and the error it ended with. *)
Record stream := mk_stream {
  st_events : list (string * Response);
  st_Err : option error;
}.

(** The last response that a stream ends with. *)
Definition final_response (s : stream) : option Response :=
  foldl (λ resp evt,
    if bool_decide (evt.1 ∈ ["response.completed"; "response.failed"; "response.incomplete"])
       && negb (bool_decide (re_ID evt.2 = ""))
    then Some evt.2 else resp) None (st_events s).

(** [Responses.NewStreaming] with the token and the account header of the request. *)
Context (NewStreaming : string → option string → ResponseNewParams → stream).

Definition Chat (p : CodexProvider) (messages : list Message) (tools : list ToolDefinition) (model : string)
    (options : Options) : result error LLMResponse :=
  let '(resolvedModel, _) := resolveCodexModel model in
  match match cx_tokenSource p with Some source => source | None => Ok (cx_token p, "") end with
  | Err e => Err (wrap_error "refreshing token: " e)
  | Ok (tok, accID) =>
      let accountID := if bool_decide (accID = "") then cx_accountID p else accID in
      let header := if bool_decide (accountID = "") then None else Some accountID in
      let params := buildCodexParams messages tools resolvedModel options (cx_enableWebSearch p) in
      let s := NewStreaming tok header params in
      match st_Err s, final_response s with
      | Some e, _ => Err (wrap_error "codex API call: " e)
      | None, None => Err (errors_New "codex API call: stream ended without completed response")
      | None, Some resp => Ok (parseCodexResponse resp)
      end
  end.
End client.

(** ** The model that is asked *)
Definition codex_family (m : string) : Prop :=
  has_prefix m "gpt-" = true ∨ has_prefix m "o3" = true ∨ has_prefix m "o4" = true.

Lemma resolve_family_spec m :
  codex_family (resolve_family m).1 ∧
  ((resolve_family m).2 = "" → (resolve_family m).1 = m) ∧
  ((resolve_family m).2 ≠ "" → (resolve_family m).1 = codexDefaultModel).
Proof.
  assert (codex_family codexDefaultModel) as Hd by (left; reflexivity).
  unfold resolve_family. destruct (existsb _ _); [by split_and!|].
  destruct (_ || _) eqn:E; [|by split_and!].
  split_and!; [|done|done]. apply orb_true_iff in E as [[E|E]%orb_true_iff|E]; unfold codex_family; auto.
Qed.

(** Whatever model is configured, the backend is asked for one of its families:
    the configured one or the default. *)
Lemma resolved_model_of_family model : codex_family (resolveCodexModel model).1.
Proof.
  unfold resolveCodexModel. cbv zeta. case_bool_decide; [by left|].
  case_match; [apply resolve_family_spec|]. case_match; [by left|apply resolve_family_spec].
Qed.

(** ** What a request says *)
Definition item_events (i : input_item) : list wire_event :=
  match i with
  | InMessage role content => text_event role content
  | InFunctionCall callID name arguments => [EvCall callID name arguments]
  | InFunctionCallOutput callID output => [EvResult callID output]
  end.

(** The instructions are those of the last system message, if it says anything. *)
Definition instructions_of (systems : list Message) : string :=
  match last systems with
  | Some m => if bool_decide (m_Content m = "") then codexDefaultInstructions else m_Content m
  | None => codexDefaultInstructions
  end.

Section lemmas.
Context (Marshal : gmap string json → result string string).

(** A call that is recorded under a name is sent with its arguments. *)
Lemma resolveCodexToolCall_recorded tc :
  named tc = true → recorded Marshal tc →
  resolveCodexToolCall Marshal tc = Some (call_name tc, recorded_arguments tc).
Proof.
  unfold named, resolveCodexToolCall, recorded_arguments. intros H (f & Hf & _ & Hne & Hm). cbv zeta.
  case_bool_decide; [done|]. rewrite Hf. case_bool_decide as Hs; cbn [negb].
  - by rewrite bool_decide_eq_false_2.
  - by rewrite (Hm Hs).
Qed.

Lemma call_items_events tcs :
  Forall (λ tc, named tc = true) tcs → Forall (recorded Marshal) tcs →
  call_items Marshal tcs ≫= item_events = call_event <$> tcs.
Proof.
  unfold call_items. induction 1 as [|tc tcs Hn _ IH]; [done|]. intros [Hr Hrs]%Forall_cons. csimpl.
  rewrite resolveCodexToolCall_recorded by done. csimpl. by rewrite IH.
Qed.

Lemma text_item_events text :
  (if bool_decide (text = "") then [] else [InMessage "assistant" text]) ≫= item_events
  = text_event "assistant" text.
Proof. case_bool_decide as H; [by rewrite H|]. csimpl. by rewrite app_nil_r. Qed.

Definition sendable (ms : list Message) : Prop := calls_named ms ∧ calls_recorded Marshal ms.

Lemma add_message_items acc msg :
  (m_Role msg = "assistant" →
   Forall (λ tc, named tc = true) (m_ToolCalls msg) ∧ Forall (recorded Marshal) (m_ToolCalls msg)) →
  (add_message Marshal acc msg).2 ≫= item_events = (acc.2 ≫= item_events) ++ message_events msg.
Proof.
  destruct acc as [ins items]. intros Hn. unfold add_message, message_events. cbv zeta.
  case_bool_decide as Hs; [rewrite Hs; csimpl; by rewrite app_nil_r|].
  case_bool_decide as Hu.
  { rewrite Hu. csimpl. rewrite bind_app. case_bool_decide; csimpl; by rewrite ?app_nil_r. }
  case_bool_decide as Ha.
  { destruct (Hn Ha). case_bool_decide as Hc; csimpl; rewrite !bind_app.
    - rewrite Hc. csimpl. by rewrite ?app_nil_r.
    - by rewrite text_item_events, call_items_events by done. }
  case_bool_decide; csimpl; rewrite ?bind_app; csimpl; by rewrite ?app_nil_r.
Qed.

Lemma items_events msgs :
  sendable msgs →
  (foldl (add_message Marshal) ("", []) msgs).2 ≫= item_events = transcript_events msgs.
Proof.
  induction msgs as [|m msgs IH] using rev_ind; [done|].
  intros [[Hms Hm]%calls_named_snoc [Hrs [Hr _]%Forall_cons]%Forall_app].
  rewrite foldl_app, transcript_events_snoc, <-(IH (conj Hms Hrs)), <-add_message_items; [done|].
  intros Ha. split; [by apply Hm|by apply Hr].
Qed.

Lemma foldl_instructions msgs acc :
  (foldl (add_message Marshal) acc msgs).1
  = match last (system_messages msgs) with Some m => m_Content m | None => acc.1 end.
Proof.
  induction msgs as [|m msgs IH] using rev_ind; [done|].
  rewrite foldl_app. unfold system_messages in *. rewrite filter_app. cbn [foldl].
  destruct (foldl _ _ msgs) as [ins items]. cbn in IH. unfold add_message. case_bool_decide as Hs.
  - rewrite filter_cons_True, filter_nil by done. by rewrite last_snoc.
  - rewrite filter_cons_False, filter_nil, app_nil_r by done. repeat (case_bool_decide; try done).
Qed.

(** The instructions are those of the last system message. *)
Lemma instructions_told msgs tools model options web :
  rp_Instructions (buildCodexParams Marshal msgs tools model options web) = instructions_of (system_messages msgs).
Proof.
  unfold buildCodexParams, instructions_of. pose proof (foldl_instructions msgs ("", [])) as H.
  destruct (foldl _ _ _) as [ins items]. cbn in H |- *. rewrite H. by destruct (last _).
Qed.

#[export] Instance codex_format tools model options web :
  RequestFormat (λ ms, Ok (buildCodexParams Marshal ms tools model options web))
    (λ params, rp_Input params ≫= item_events) rp_Instructions instructions_of sendable.
Proof.
  split; [done| |intros ms r [= <-]; apply instructions_told]. intros ms r Hn [= <-]. unfold buildCodexParams.
  pose proof (items_events ms Hn) as H. by destruct (foldl _ _ ms).
Qed.
End lemmas.
