(* ===== verification/Antigravity.v ===== *)
(** * The client of Cloud Code Assist (pkg/providers/antigravity_provider.go)

    Requests in the format of Gemini, where a result names the function it comes
    from; the schemas Gemini accepts; the stream of an answer; errors.  The token
    source is in [TokenSources.v]; sending and JSON are parameters. *)
From stdpp Require Import base gmap strings list pretty.
From Stdlib Require Import Ascii ZArith QArith Lia.
From S2P Require Import Prelude GoStrings ProviderTypes Encoding Paths Regex ErrorClass ToolLoop Wire OpenAICompat.
From S2P Require Import TokenSources.
#[local] Open Scope go_scope.
#[local] Open Scope nat_scope.

Definition antigravityDefaultModel : string := "gemini-3-flash".
Definition antigravityBaseURL : string := "https://cloudcode-pa.googleapis.com".

(** ** The schemas of tools *)
Definition geminiUnsupportedKeywords : list string :=
  ["patternProperties"; "additionalProperties"; "$schema"; "$id"; "$ref"; "$defs"; "definitions"; "examples";
   "minLength"; "maxLength"; "minimum"; "maximum"; "multipleOf"; "pattern"; "format"; "minItems"; "maxItems";
   "uniqueItems"; "minProperties"; "maxProperties"].

Definition supported_key (k : string) : bool := negb (bool_decide (k ∈ geminiUnsupportedKeywords)).

Definition has_key (k : string) (kvs : list (string * json)) : bool :=
  existsb (λ kv, bool_decide (kv.1 = k)) kvs.

(** An object with properties gets a type. *)
Definition ensure_type (kvs : list (string * json)) : list (string * json) :=
  if has_key "properties" kvs && negb (has_key "type" kvs) then kvs ++ [("type", JStr "object")] else kvs.

(** The objects in a value, those directly in an array included, but not those in
    an array inside an array. *)
Fixpoint sanitize_value (v : json) : json :=
  match v with
  | JObj kvs =>
      JObj (ensure_type
        ((fix fields (kvs : list (string * json)) : list (string * json) :=
            match kvs with
            | [] => []
            | (k, v) :: rest => if supported_key k then (k, sanitize_value v) :: fields rest else fields rest
            end) kvs))
  | JArr items =>
      JArr ((fix elements (items : list json) : list json :=
               match items with
               | [] => []
               | item :: rest =>
                   (match item with JObj _ => sanitize_value item | _ => item end) :: elements rest
               end) items)
  | _ => v
  end.

Definition sanitize_fields (kvs : list (string * json)) : list (string * json) :=
  omap (λ kv, if supported_key kv.1 then Some (kv.1, sanitize_value kv.2) else None) kvs.

(** The parameters of a tool are a map; the nil map stays nil. *)
Definition sanitizeSchemaForGemini (schema : option (gmap string json)) : option (gmap string json) :=
  (λ m,
    let result : gmap string json :=
      sanitize_value <$> filter (λ kv, supported_key kv.1 = true) m in
    if bool_decide (is_Some (result !! "properties")) && bool_decide (result !! "type" = None)
    then <["type" := JStr "object"]> result else result) <$> schema.

(** ** The request *)
Record function_call := mk_function_call {
  gf_Name : string;
  gf_Args : gmap string json;
}.

(** One part of a content: a text, a call with its signature, or a result. *)
Inductive part :=
| TextPart (text : string)
| CallPart (signature : string) (call : function_call)
| ResponsePart (name result : string).

Record content := mk_content {
  ct_Role : string;
  ct_Parts : list part;
}.

Record func_decl := mk_func_decl {
  fd_Name : string;
  fd_Description : string;
  fd_Parameters : option (gmap string json);
}.

Record gen_config := mk_gen_config {
  gc_MaxOutputTokens : Z;
  gc_Temperature : Q;
}.

Record antigravityRequest := mk_antigravityRequest {
  aq_Contents : list content;
  aq_Tools : list func_decl;
  aq_SystemPrompt : option string;
  aq_Config : option gen_config;
}.

(** [strings.LastIndex] for one character: the length of what stands before it. *)
Definition last_index (c : ascii) (s : string) : option nat :=
  (λ ab, length ab.2) <$> cut_l c (reverse (chars s)).

(** The name in an identifier of the form [call_NAME_SUFFIX]. *)
Definition inferToolNameFromCallID (toolCallID : string) : string :=
  if negb (has_prefix toolCallID "call_") then toolCallID
  else
    let rest := trim_prefix toolCallID "call_" in
    match last_index "_"%char rest with
    | Some idx => if 0 <? idx then str_take idx rest else toolCallID
    | None => toolCallID
    end.

Definition resolveToolResponseName (toolCallID : string) (toolCallNames : gmap string string) : string :=
  if bool_decide (toolCallID = "") then ""
  else match toolCallNames !! toolCallID with
       | Some name => if bool_decide (name = "") then inferToolNameFromCallID toolCallID else name
       | None => inferToolNameFromCallID toolCallID
       end.

Definition positive_max (v : option option_value) : Z :=
  match v with
  | Some (VInt n) => if (0 <? n)%Z then n else 0%Z
  | Some (VFloat64 q) => if negb (Qle_bool q 0) then int_of_float q else 0%Z
  | _ => 0%Z
  end.

Section client.
Context (Marshal : gmap string json → string).
Context (Unmarshal : string → option (option (gmap string json))).

Definition normalizeStoredToolCall (tc : ToolCall) : string * gmap string json * string :=
  (call_name tc, call_arguments Unmarshal tc,
   match tc_Function tc with Some f => fc_ThoughtSignature f | None => "" end).

(** The loop over the calls of an assistant message: the names of calls and the parts so far. *)
Definition add_call (acc : gmap string string * list part) (tc : ToolCall) : gmap string string * list part :=
  let '(names, parts) := acc in
  let '(toolName, toolArgs, thoughtSignature) := normalizeStoredToolCall tc in
  if bool_decide (toolName = "") then (names, parts)
  else (if bool_decide (tc_ID tc = "") then names else <[tc_ID tc := toolName]> names,
        parts ++ [CallPart thoughtSignature (mk_function_call toolName toolArgs)]).

Record building := mk_building {
  bd_System : option string;
  bd_Contents : list content;
  bd_Names : gmap string string;          (* [toolCallNames] *)
}.

(** One turn of the loop over the messages. *)
Definition add_message (b : building) (msg : Message) : building :=
  let append c := bd_Contents b ++ [c] in
  let response := mk_content "user"
    [ResponsePart (resolveToolResponseName (m_ToolCallID msg) (bd_Names b)) (m_Content msg)] in
  if bool_decide (m_Role msg = "system")
  then mk_building (Some (m_Content msg)) (bd_Contents b) (bd_Names b)
  else if bool_decide (m_Role msg = "user") then
    mk_building (bd_System b)
      (append (if bool_decide (m_ToolCallID msg = "") then mk_content "user" [TextPart (m_Content msg)]
               else response)) (bd_Names b)
  else if bool_decide (m_Role msg = "assistant") then
    let text := if bool_decide (m_Content msg = "") then [] else [TextPart (m_Content msg)] in
    let '(names, parts) := foldl add_call (bd_Names b, text) (m_ToolCalls msg) in
    mk_building (bd_System b)
      (if bool_decide (parts = []) then bd_Contents b else append (mk_content "model" parts)) names
  else if bool_decide (m_Role msg = "tool") then mk_building (bd_System b) (append response) (bd_Names b)
  else b.

Definition build_tools (tools : list ToolDefinition) : list func_decl :=
  omap (λ t, if bool_decide (td_Type t = "function")
             then Some (mk_func_decl (td_Name t) (td_Description t) (sanitizeSchemaForGemini (td_Parameters t)))
             else None) tools.

Definition build_config (options : Options) : option gen_config :=
  let maxTokens := positive_max (options !! "max_tokens") in
  let temp := match options !! "temperature" with Some (VFloat64 q) => q | _ => 0%Q end in
  if (0 <? maxTokens)%Z || negb (Qle_bool temp 0) then Some (mk_gen_config maxTokens temp) else None.

Definition buildRequest (messages : list Message) (tools : list ToolDefinition) (options : Options) :
    antigravityRequest :=
  let b := foldl add_message (mk_building None [] ∅) messages in
  mk_antigravityRequest (bd_Contents b) (build_tools tools) (bd_System b) (build_config options).

(** ** The answer *)
Record api_part := mk_api_part {
  pt_Text : string;
  pt_Signature : string;
  pt_SignatureSnake : string;
  pt_Call : option (string * option (gmap string json));    (* name and arguments *)
}.
Record api_candidate := mk_api_candidate {
  cd_Parts : list api_part;
  cd_FinishReason : string;
}.
Record chunk := mk_chunk {
  ck_Candidates : list api_candidate;
  ck_Prompt : Z;
  ck_Completion : Z;
  ck_Total : Z;
}.

Definition extractPartThoughtSignature (thoughtSignature thoughtSignatureSnake : string) : string :=
  if bool_decide (thoughtSignature = "") then thoughtSignatureSnake else thoughtSignature.

(** [call_NAME_NANOS], by the clock. *)
Definition generated_id (name : string) (now : time) : string := "call_" +:+ name +:+ "_" +:+ pretty now.

(** The encoding of arguments in a record of a call; the nil map gives null. *)
Definition args_json (args : option (gmap string json)) : string :=
  match args with Some a => Marshal a | None => "null" end.

Definition call_of_part (p : api_part) (now : time) : option ToolCall :=
  (λ c : string * option (gmap string json),
    mk_ToolCall (generated_id c.1 now) ""
      (Some (mk_FunctionCall c.1 (args_json c.2)
               (extractPartThoughtSignature (pt_Signature p) (pt_SignatureSnake p))))
      c.1 c.2 "" None) <$> pt_Call p.

(** What the loop over the lines has read. *)
Record reading := mk_reading {
  rd_Texts : list string;
  rd_Calls : list ToolCall;
  rd_Usage : option UsageInfo;
  rd_Finish : string;
}.

(** [clock]: the readings of the clock, one for each call. *)
Definition read_part (clock : nat → time) (r : reading) (p : api_part) : reading :=
  mk_reading (if bool_decide (pt_Text p = "") then rd_Texts r else rd_Texts r ++ [pt_Text p])
    (rd_Calls r ++ option_list (call_of_part p (clock (length (rd_Calls r))))) (rd_Usage r) (rd_Finish r).

Definition read_candidate (clock : nat → time) (r : reading) (c : api_candidate) : reading :=
  let r := foldl (read_part clock) r (cd_Parts c) in
  if bool_decide (cd_FinishReason c = "") then r
  else mk_reading (rd_Texts r) (rd_Calls r) (rd_Usage r) (cd_FinishReason c).

Definition read_chunk (clock : nat → time) (r : reading) (c : chunk) : reading :=
  let r := foldl (read_candidate clock) r (ck_Candidates c) in
  if (0 <? ck_Total c)%Z
  then mk_reading (rd_Texts r) (rd_Calls r) (Some (mk_UsageInfo (ck_Prompt c) (ck_Completion c) (ck_Total c)))
         (rd_Finish r)
  else r.

Context (chunk_of_json : string → option chunk).

(** Lines that are not data, or not JSON, are skipped; [DONE] ends the stream. *)
Fixpoint read_lines (clock : nat → time) (r : reading) (lines : list string) : reading :=
  match lines with
  | [] => r
  | line :: rest =>
      if negb (has_prefix line "data: ") then read_lines clock r rest
      else
        let data := trim_prefix line "data: " in
        if bool_decide (data = "[DONE]") then r
        else match chunk_of_json data with
             | None => read_lines clock r rest
             | Some c => read_lines clock (read_chunk clock r c) rest
             end
  end.

Definition parseSSEResponse (clock : nat → time) (body : string) : LLMResponse :=
  let r := read_lines clock (mk_reading [] [] None "") (scan_lines body) in
  mk_LLMResponse (join "" (rd_Texts r)) "" (rd_Calls r)
    (if bool_decide (rd_Finish r = "MAX_TOKENS") then "length"
     else if bool_decide (rd_Calls r = []) then "stop" else "tool_calls")
    (rd_Usage r).

(** ** Errors *)
Record api_error := mk_api_error {
  ae_Message : string;
  ae_Status : string;
  ae_Details : list (gmap string json);
}.

(** The delay in a detail that is an ErrorInfo. *)
Definition reset_delay (detail : gmap string json) : option string :=
  match detail !! "@type" with
  | Some (JStr typeVal) =>
      if has_suffix typeVal "ErrorInfo" then
        match detail !! "metadata" with
        | Some (JObj metadata) =>
            match find_first (λ kv, bool_decide (kv.1 = "quotaResetDelay")) metadata with
            | Some (_, JStr delay) => Some delay
            | _ => None
            end
        | _ => None
        end
      else None
  | _ => None
  end.

Context (error_of_json : string → option api_error).

Definition parseAntigravityError (statusCode : Z) (body : string) : error :=
  errors_New
    (match error_of_json body with
     | None => "antigravity API error (HTTP " +:+ pretty statusCode +:+ "): " +:+ truncateString body 500
     | Some e =>
         if (statusCode =? 429)%Z then
           match omap reset_delay (ae_Details e) with
           | delay :: _ => "antigravity rate limit exceeded: " +:+ ae_Message e +:+ " (reset in " +:+ delay +:+ ")"
           | [] => "antigravity rate limit exceeded: " +:+ ae_Message e
           end
         else "antigravity API error (" +:+ ae_Status e +:+ "): " +:+ ae_Message e
     end).

(** ** Chat *)
Definition request_model (model : string) : string :=
  let model := if bool_decide (model = "" ∨ model = "antigravity" ∨ model = "google-antigravity")
               then antigravityDefaultModel else model in
  trim_prefix (trim_prefix model "google-antigravity/") "antigravity/".

(** A request with the token, the project and the model. *)
Context (Do : string → string → string → antigravityRequest → http_outcome).

Definition Chat (source : sourced) (clock : nat → time) (messages : list Message) (tools : list ToolDefinition)
    (model : string) (options : Options) : option (result error LLMResponse) :=
  match source with
  | NilPointer => None
  | Fails e => Some (Err (wrap_error "antigravity auth: " e))
  | Token accessToken projectID =>
      Some match Do accessToken projectID (request_model model) (buildRequest messages tools options) with
           | NotCreated e => Err (wrap_error "creating request: " e)
           | NotSent e => Err (wrap_error "antigravity API call: " e)
           | NotRead e => Err (wrap_error "reading response: " e)
           | Answered status body =>
               if negb (status =? 200)%Z then Err (parseAntigravityError status body)
               else
                 let llmResp := parseSSEResponse clock body in
                 if bool_decide (lr_Content llmResp = "") && bool_decide (lr_ToolCalls llmResp = [])
                 then Err (errors_New "antigravity: model returned an empty response (this model might be invalid or restricted)")
                 else Ok llmResp
           end
  end.
End client.

(** ** Schemas are made of what Gemini supports *)

(** No unsupported keyword, and a type wherever there are properties, in the value,
    except in an array inside an array. *)
Fixpoint supported (v : json) : bool :=
  match v with
  | JObj kvs =>
      forallb (λ kv, supported_key kv.1) kvs && (negb (has_key "properties" kvs) || has_key "type" kvs)
      && (fix fields (kvs : list (string * json)) : bool :=
            match kvs with [] => true | (_, v) :: rest => supported v && fields rest end) kvs
  | JArr items =>
      (fix elements (items : list json) : bool :=
         match items with
         | [] => true
         | item :: rest => (match item with JObj _ => supported item | _ => true end) && elements rest
         end) items
  | _ => true
  end.

Definition sanitize_item (v : json) : json := match v with JObj _ => sanitize_value v | _ => v end.
Definition supported_item (v : json) : bool := match v with JObj _ => supported v | _ => true end.

Lemma sanitize_value_obj kvs : sanitize_value (JObj kvs) = JObj (ensure_type (sanitize_fields kvs)).
Proof.
  cbn [sanitize_value]. do 2 f_equal. induction kvs as [|[k v] kvs IH]; [done|].
  unfold sanitize_fields. csimpl. destruct (supported_key k); [by f_equal|exact IH].
Qed.

Lemma sanitize_value_arr items : sanitize_value (JArr items) = JArr (sanitize_item <$> items).
Proof. reflexivity. Qed.

Lemma supported_obj kvs :
  supported (JObj kvs) =
  forallb (λ kv, supported_key kv.1) kvs && (negb (has_key "properties" kvs) || has_key "type" kvs)
  && forallb (λ kv, supported kv.2) kvs.
Proof. cbn [supported]. f_equal. induction kvs as [|[k v] kvs IH]; [done|]. cbn. by f_equal. Qed.

Lemma supported_arr items : supported (JArr items) = forallb supported_item items.
Proof. cbn [supported]. induction items as [|v items IH]; [done|]. cbn. by f_equal. Qed.

Lemma ensure_type_supported kvs :
  forallb (λ kv, supported_key kv.1) kvs = true → forallb (λ kv, supported kv.2) kvs = true →
  supported (JObj (ensure_type kvs)) = true.
Proof.
  intros H1 H2. rewrite supported_obj. unfold ensure_type.
  destruct (has_key "properties" kvs && negb (has_key "type" kvs)) eqn:E.
  - unfold has_key. rewrite !forallb_app, !existsb_app, H1, H2. cbn. by rewrite !orb_true_r.
  - rewrite H1, H2, andb_true_r. cbn [andb]. apply andb_false_iff in E as [->|E%negb_false_iff]; [done|].
    by rewrite E, orb_true_r.
Qed.

Lemma sanitize_value_supported v : supported (sanitize_value v) = true.
Proof.
  induction v as [| | | |items IH|kvs IH] using json_induction; [done..| |].
  - rewrite sanitize_value_arr, supported_arr. apply forallb_forall. intros x (y & -> & Hy)%list_elem_of_In%list_elem_of_fmap.
    rewrite Forall_forall in IH. specialize (IH y Hy). by destruct y.
  - rewrite sanitize_value_obj. unfold sanitize_fields. apply ensure_type_supported; apply forallb_forall;
      intros [k x] ([k' y] & Hy & Hx)%list_elem_of_In%list_elem_of_omap; cbn in Hx |- *;
      destruct (supported_key k') eqn:Hk; try done; injection Hx as <- <-; [done|].
    rewrite Forall_forall in IH. exact (IH _ Hy).
Qed.

Lemma sanitize_value_id v : supported v = true → sanitize_value v = v.
Proof.
  induction v as [| | | |items IH|kvs IH] using json_induction; [done..| |].
  - rewrite sanitize_value_arr, supported_arr. intros H. f_equal. induction IH as [|x l Hx _ IHl]; [done|].
    cbn in H. apply andb_true_iff in H as [H1 H2]. csimpl. f_equal; [|by apply IHl].
    destruct x; try done. by apply Hx.
  - rewrite sanitize_value_obj, supported_obj. intros [[H1 H2]%andb_true_iff H3]%andb_true_iff. f_equal.
    assert (sanitize_fields kvs = kvs) as ->.
    { clear H2. unfold sanitize_fields. induction IH as [|[k x] l Hx _ IHl]; [done|]. cbn in *.
      apply andb_true_iff in H1 as [-> H1]. apply andb_true_iff in H3 as [H3 H3']. csimpl.
      by rewrite Hx, IHl. }
    unfold ensure_type. by destruct (has_key "properties" kvs), (has_key "type" kvs).
Qed.

(** The schema of a tool as it is sent has no keyword Gemini refuses, at no depth
    (objects in an array inside an array apart), and a type wherever it has
    properties; what Gemini supports is sent as it is; and sanitising a schema
    twice changes nothing more. *)
Lemma sanitized_schema_supported (m : gmap string json) :
  ∃ r, sanitizeSchemaForGemini (Some m) = Some r ∧
    (∀ k v, r !! k = Some v → supported_key k = true ∧ supported v = true) ∧
    (is_Some (r !! "properties") → is_Some (r !! "type")) ∧
    (∀ k v, m !! k = Some v → supported_key k = true → supported v = true → r !! k = Some v) ∧
    sanitizeSchemaForGemini (Some r) = Some r.
Proof.
  unfold sanitizeSchemaForGemini. csimpl.
  set (f := sanitize_value <$> filter (λ kv, supported_key kv.1 = true) m).
  assert (∀ k v, f !! k = Some v → supported_key k = true ∧ supported v = true) as Hf.
  { intros k v (x & <- & (Hx & Hk)%map_lookup_filter_Some)%lookup_fmap_Some.
    split; [done|apply sanitize_value_supported]. }
  assert (∀ k v, m !! k = Some v → supported_key k = true → supported v = true → f !! k = Some v) as Hkeep.
  { intros k v Hm Hk Hv. apply lookup_fmap_Some. exists v. split; [by apply sanitize_value_id|].
    by apply map_lookup_filter_Some. }
  set (r := if bool_decide (is_Some (f !! "properties")) && bool_decide (f !! "type" = None)
            then <["type" := JStr "object"]> f else f).
  assert (∀ k v, r !! k = Some v → supported_key k = true ∧ supported v = true) as Hr.
  { intros k v. unfold r. destruct (_ && _); [|apply Hf].
    intros [[<- <-]|[_ H]]%lookup_insert_Some; [done|by apply Hf]. }
  assert (is_Some (r !! "properties") → is_Some (r !! "type")) as Ht.
  { unfold r. case_bool_decide as H1; case_bool_decide as H2; cbn [andb]; [by rewrite lookup_insert_eq|..|done].
    - intros _. destruct (f !! "type"); [eauto|done].
    - done. }
  exists r. split; [done|]. split; [done|]. split; [done|]. split.
  - intros k v Hm Hk Hv. unfold r. destruct (bool_decide _ && bool_decide _) eqn:E; [|by apply Hkeep].
    apply andb_true_iff in E as [_ E%bool_decide_eq_true].
    rewrite lookup_insert_ne; [by apply Hkeep|]. intros <-. by rewrite (Hkeep _ _ Hm Hk Hv) in E.
  - assert (sanitize_value <$> filter (λ kv, supported_key kv.1 = true) r = r) as ->.
    { apply map_eq. intros k. rewrite lookup_fmap. destruct (r !! k) as [v|] eqn:E.
      - destruct (Hr k v E). rewrite (proj2 (map_lookup_filter_Some _ r k v)) by done. csimpl.
        by rewrite sanitize_value_id.
      - by rewrite (proj2 (map_lookup_filter_None _ r k)) by auto. }
    case_bool_decide as H1; [|done]. destruct (Ht H1) as [v Hv]. by rewrite Hv.
Qed.

(** Finding: [properties] is treated like a schema, so a parameter named like a
    keyword is removed from the tool, while it stays required. *)
Lemma parameter_named_like_keyword_removed :
  sanitize_value (JObj [("type", JStr "object");
                        ("properties", JObj [("pattern", JObj [("type", JStr "string")])]);
                        ("required", JArr [JStr "pattern"])])
  = JObj [("type", JStr "object"); ("properties", JObj []); ("required", JArr [JStr "pattern"])].
Proof. vm_compute. reflexivity. Qed.

(** Finding: objects in an array inside an array keep their keywords. *)
Lemma nested_arrays_kept :
  let v := JArr [JArr [JObj [("minimum", JNum 1)]]] in sanitize_value v = v.
Proof. vm_compute. reflexivity. Qed.

(** ** Identifiers name their calls *)
Lemma pretty_N_go_chars (P : ascii → Prop) x s :
  (∀ n, P (pretty_N_char n)) → Forall P (chars s) → Forall P (chars (pretty_N_go x s)).
Proof.
  intros HP. revert s. induction (N.lt_wf_0 x) as [x _ IH]; intros s Hs.
  destruct (decide (0 < x)%N) as [Hx|Hx].
  - rewrite pretty_N_go_step by done. apply IH; [by apply N.div_lt|]. cbn. by constructor.
  - assert (x = 0%N) as -> by lia. by rewrite pretty_N_go_0.
Qed.

Lemma pretty_Z_chars (P : ascii → Prop) (z : Z) :
  P "-"%char → (∀ n, P (pretty_N_char n)) → Forall P (chars (pretty z)).
Proof.
  intros Hm HP.
  assert (∀ n : N, Forall P (chars (pretty n))) as HN.
  { intros n. unfold pretty, pretty_N. case_decide; [cbn; constructor; [exact (HP 0%N)|done]|].
    by apply pretty_N_go_chars. }
  unfold pretty, pretty_Z. destruct z; [cbn; constructor; [exact (HP 0%N)|done]|apply HN|].
  rewrite chars_app. apply Forall_app. split; [by constructor|apply HN].
Qed.

Lemma pretty_no_underscore (z : Z) : "_"%char ∉ chars (pretty z).
Proof.
  intros H. assert (Forall (λ c, c ≠ "_"%char) (chars (pretty z))) as HF.
  { apply pretty_Z_chars; [done|]. intros n. unfold pretty_N_char. by repeat case_match. }
  rewrite Forall_forall in HF. by apply (HF _ H).
Qed.

Lemma last_index_app a c b : c ∉ chars b → last_index c (a +:+ String c b) = Some (String.length a).
Proof.
  intros H. unfold last_index. rewrite chars_app. cbn [chars].
  rewrite reverse_app, reverse_cons, <-app_assoc. cbn [app]. rewrite cut_l_app.
  - csimpl. by rewrite length_reverse, length_chars.
  - by rewrite elem_of_reverse.
Qed.

(** The name is read back from every identifier the client made, whatever the name. *)
Lemma inferred_name name now : name ≠ "" → inferToolNameFromCallID (generated_id name now) = name.
Proof.
  intros Hn. unfold inferToolNameFromCallID, generated_id.
  assert (has_prefix ("call_" +:+ name +:+ "_" +:+ pretty now) "call_" = true) as Hp.
  { apply has_prefix_l_spec. rewrite chars_app. eauto. }
  unfold trim_prefix. rewrite Hp. cbn [negb]. rewrite chars_app.
  change (String.length "call_") with (length (chars "call_")). rewrite drop_app_length, implode_chars.
  change ("_" +:+ pretty now) with (String "_" (pretty now)).
  rewrite (last_index_app name "_"%char (pretty now)) by apply pretty_no_underscore.
  rewrite (proj2 (Nat.ltb_lt _ _)); [|by destruct name; cbn; [|lia]].
  unfold str_take. rewrite chars_app, <-length_chars, take_app_length. apply implode_chars.
Qed.

(** ** What a request says *)

(** The format knows the calls by their names only; their arguments are sent as the
    decoded map, which is left out of the comparison. *)
Definition by_name (name_of : string → string) (ev : wire_event) : wire_event :=
  match ev with
  | EvText role text => EvText role text
  | EvCall _ name _ => EvCall "" name ""
  | EvResult id result => EvResult (name_of id) result
  end.

Definition part_events (role : string) (p : part) : list wire_event :=
  match p with
  | TextPart text => text_event (if bool_decide (role = "model") then "assistant" else role) text
  | CallPart _ call => [EvCall "" (gf_Name call) ""]
  | ResponsePart name result => [EvResult name result]
  end.

Definition content_events (c : content) : list wire_event := ct_Parts c ≫= part_events (ct_Role c).

Section lemmas.
Context (Unmarshal : string → option (option (gmap string json))).
Context (name_of : string → string).

(** [name_of] gives the names of the calls in [evs]. *)
Definition names_calls (evs : list wire_event) : Prop :=
  ∀ id name args, EvCall id name args ∈ evs → id ≠ "" → name_of id = name.

(** Every result answers a call before it, or has an identifier this client made
    for a call. *)
Definition results_known (evs : list wire_event) : Prop :=
  ∀ pre id result post, evs = pre ++ EvResult id result :: post →
    id ≠ "" ∧ ((∃ name args, EvCall id name args ∈ pre)
               ∨ ∃ name now, name ≠ "" ∧ id = generated_id name now ∧ name_of id = name).

(** The names recorded are those of the calls so far. *)
Definition names_recorded (names : gmap string string) (evs : list wire_event) : Prop :=
  (∀ id name, names !! id = Some name → id ≠ "" ∧ name ≠ "" ∧ ∃ args, EvCall id name args ∈ evs) ∧
  (∀ id name args, EvCall id name args ∈ evs → id ≠ "" → is_Some (names !! id)).

Lemma resolve_known names evs id result post :
  names_recorded names evs → names_calls evs → results_known (evs ++ EvResult id result :: post) →
  resolveToolResponseName id names = name_of id.
Proof.
  intros [Hn1 Hn2] Hc Hr. destruct (Hr evs id result post eq_refl) as [Hne Hid].
  unfold resolveToolResponseName. rewrite bool_decide_eq_false_2 by done.
  destruct (names !! id) as [name|] eqn:E.
  - apply Hn1 in E as (_ & Hname & args & Hin). rewrite bool_decide_eq_false_2 by done. symmetry. by eapply Hc.
  - destruct Hid as [(name & args & Hin)|(name & now & Hname & -> & Hof)].
    + destruct (Hn2 _ _ _ Hin Hne). congruence.
    + by rewrite inferred_name.
Qed.

Lemma add_call_recorded names parts tc evs :
  named tc = true → names_recorded names evs →
  let acc := add_call Unmarshal (names, parts) tc in
  names_recorded acc.1 (evs ++ [call_event tc]) ∧
  acc.2 ≫= part_events "model" = (parts ≫= part_events "model") ++ [by_name name_of (call_event tc)].
Proof.
  unfold named. intros Hn [H1 H2]. cbn. unfold normalizeStoredToolCall. cbn.
  case_bool_decide as Hname; [done|]. cbn. split; [|rewrite bind_app; reflexivity].
  unfold call_event. case_bool_decide as Hid; split; intros id name.
  - intros (?&?&args&?)%H1. split_and!; [done..|]. exists args. apply elem_of_app. by left.
  - intros args [Hin|[= -> -> ->]%list_elem_of_singleton]%elem_of_app Hne; [by eapply H2|done].
  - intros [[<- <-]|[Hne Hl]]%lookup_insert_Some.
    + split_and!; [done..|]. eexists. rewrite elem_of_app, list_elem_of_singleton. by right.
    + apply H1 in Hl as (?&?&args&?). split_and!; [done..|]. exists args. apply elem_of_app. by left.
  - intros args. rewrite elem_of_app, list_elem_of_singleton. intros [Hin|[= -> -> ->]] Hne.
    + rewrite lookup_insert. case_decide; [eauto|by eapply H2].
    + rewrite lookup_insert_eq. eauto.
Qed.

Lemma add_calls_recorded tcs names parts evs :
  Forall (λ tc, named tc = true) tcs → names_recorded names evs →
  let acc := foldl (add_call Unmarshal) (names, parts) tcs in
  names_recorded acc.1 (evs ++ (call_event <$> tcs)) ∧
  acc.2 ≫= part_events "model" = (parts ≫= part_events "model") ++ (by_name name_of <$> (call_event <$> tcs)).
Proof.
  intros H. revert names parts evs. induction H as [|tc tcs Hn _ IH]; intros names parts evs Hr.
  { cbn. by rewrite !app_nil_r. }
  destruct (add_call_recorded names parts tc evs Hn Hr) as [H1 H2]. cbn [foldl].
  destruct (add_call Unmarshal (names, parts) tc) as [names1 parts1]. cbn [fst snd] in H1, H2.
  destruct (IH names1 parts1 (evs ++ [call_event tc]) H1) as [H3 H4].
  rewrite <-app_assoc in H3. split; [exact H3|]. cbv zeta. rewrite H4, H2. csimpl. by rewrite <-app_assoc.
Qed.

Lemma names_recorded_more names evs evs' :
  names_recorded names evs → (∀ id name args, EvCall id name args ∉ evs') → names_recorded names (evs ++ evs').
Proof.
  intros [H1 H2] Hno. split; intros id name.
  - intros (?&?&args&?)%H1. split_and!; [done..|]. exists args. apply elem_of_app. by left.
  - intros args. rewrite elem_of_app. intros [?|?]; [by eapply H2|by destruct (Hno id name args)].
Qed.

Lemma by_name_text role text : by_name name_of <$> text_event role text = text_event role text.
Proof. unfold text_event. by case_bool_decide. Qed.

Lemma no_call_text role text id name args : EvCall id name args ∉ text_event role text.
Proof. unfold text_event. case_bool_decide; [apply not_elem_of_nil|]. by rewrite list_elem_of_singleton. Qed.

(** One message: what is recorded and what the request says. *)
Lemma add_message_said b m evs :
  names_recorded (bd_Names b) evs → names_calls evs → results_known (evs ++ message_events m) →
  (m_Role m = "assistant" → Forall (λ tc, named tc = true) (m_ToolCalls m)) →
  let b' := add_message Unmarshal b m in
  names_recorded (bd_Names b') (evs ++ message_events m) ∧
  bd_Contents b' ≫= content_events
  = (bd_Contents b ≫= content_events) ++ (by_name name_of <$> message_events m).
Proof.
  intros Hrec Hc Hres Hn. unfold add_message. cbv zeta.
  set (resolved := resolveToolResponseName (m_ToolCallID m) (bd_Names b)).
  assert (∀ i r a, EvCall i r a ∉ [EvResult (m_ToolCallID m) (m_Content m)]) as Hno.
  { intros i r a. by rewrite list_elem_of_singleton. }
  case_bool_decide as Hs.
  { rewrite message_events_other by congruence. cbn. by rewrite !app_nil_r. }
  case_bool_decide as Hu.
  { rewrite (message_events_user m Hu) in *. cbn [bd_Names bd_Contents]. case_bool_decide as Hid.
    - split; [apply names_recorded_more; [done|intros; apply no_call_text]|].
      rewrite bind_app, by_name_text. f_equal. csimpl. rewrite app_nil_r. unfold content_events. csimpl. by rewrite app_nil_r.
    - split; [by apply names_recorded_more|]. rewrite bind_app. csimpl. unfold resolved.
      by rewrite (resolve_known _ _ _ _ _ Hrec Hc Hres). }
  case_bool_decide as Ha.
  { rewrite (message_events_assistant m Ha) in *.
    destruct (add_calls_recorded (m_ToolCalls m) (bd_Names b)
      (if bool_decide (m_Content m = "") then [] else [TextPart (m_Content m)])
      (evs ++ text_event "assistant" (m_Content m)) (Hn Ha)) as [H1 H2].
    { apply names_recorded_more; [done|intros; apply no_call_text]. }
    destruct (foldl _ _ _) as [names parts]. cbn [fst snd] in H1, H2. rewrite <-app_assoc in H1.
    split; [exact H1|]. rewrite fmap_app, by_name_text. cbn [bd_Contents].
    assert (parts ≫= part_events "model" =
      text_event "assistant" (m_Content m) ++ (by_name name_of <$> (call_event <$> m_ToolCalls m))) as H3.
    { rewrite H2. f_equal. case_bool_decide as Ht; [by rewrite Ht|]. csimpl. by rewrite app_nil_r. }
    clear H2. case_bool_decide as Hp.
    - rewrite <-H3, Hp. csimpl. by rewrite app_nil_r.
    - rewrite bind_app. csimpl. unfold content_events at 2. cbn [ct_Parts ct_Role].
      by rewrite app_nil_r, H3. }
  case_bool_decide as Ht.
  { rewrite (message_events_tool m Ht) in *. cbn [bd_Names bd_Contents].
    split; [by apply names_recorded_more|]. rewrite bind_app. csimpl. unfold resolved.
    by rewrite (resolve_known _ _ _ _ _ Hrec Hc Hres). }
  rewrite message_events_other by done.
  cbn. by rewrite !app_nil_r.
Qed.

Lemma results_known_app l k : results_known (l ++ k) → results_known l.
Proof. intros H pre id result post ->. apply (H pre id result (post ++ k)). by rewrite <-app_assoc. Qed.

Lemma built_said ms :
  calls_named ms → names_calls (transcript_events ms) → results_known (transcript_events ms) →
  let b := foldl (add_message Unmarshal) (mk_building None [] ∅) ms in
  names_recorded (bd_Names b) (transcript_events ms) ∧
  bd_Contents b ≫= content_events = by_name name_of <$> transcript_events ms.
Proof.
  induction ms as [|m ms IH] using rev_ind.
  { intros _ _ _. split; [|done]. split; [done|]. intros id name args H. by apply elem_of_nil in H. }
  intros [Hms Hm]%calls_named_snoc. rewrite transcript_events_snoc. intros Hc Hr.
  assert (names_calls (transcript_events ms)) as Hc'.
  { intros id name args Hin. eapply Hc, elem_of_app. by left. }
  destruct (IH Hms Hc' (results_known_app _ _ Hr)) as [H1 H2]. rewrite foldl_app. cbn [foldl].
  destruct (add_message_said _ m _ H1 Hc' Hr Hm) as [H3 H4]. split; [exact H3|].
  cbv zeta. by rewrite H4, H2, fmap_app.
Qed.

(** A request to Gemini says what the transcript says, in its order, and every
    result carries the name of the call it answers, although the format has no
    identifiers: the name is that of a call before it in the transcript, or, when
    that call is gone, the one in the identifier, which this client made. *)
Lemma results_named_after_calls ms tools options :
  calls_named ms → names_calls (transcript_events ms) → results_known (transcript_events ms) →
  aq_Contents (buildRequest Unmarshal ms tools options) ≫= content_events
  = by_name name_of <$> transcript_events ms.
Proof. intros H1 H2 H3. exact (proj2 (built_said ms H1 H2 H3)). Qed.
End lemmas.

Definition demo_transcript : list Message :=
  [tool_message "old page" "call_web_fetch_5";
   text_message "user" "go on";
   mk_Message "assistant" "" "" []
     [mk_ToolCall "c7" "function" (Some (mk_FunctionCall "read_file" "{}" "")) "" None "" None] "";
   tool_message "text" "c7"].
Definition demo_names (id : string) : string :=
  if bool_decide (id = "c7") then "read_file" else "web_fetch".

Lemma results_named_after_calls_witness :
  aq_Contents (buildRequest (λ _, None) demo_transcript [] ∅) ≫= content_events
  = [EvResult "web_fetch" "old page"; EvText "user" "go on"; EvCall "" "read_file" ""; EvResult "read_file" "text"].
Proof.
  rewrite (results_named_after_calls (λ _, None) demo_names demo_transcript [] ∅).
  - reflexivity.
  - by repeat constructor.
  - intros id name args. change (transcript_events demo_transcript) with
      [EvResult "call_web_fetch_5" "old page"; EvText "user" "go on"; EvCall "c7" "read_file" "{}"; EvResult "c7" "text"].
    rewrite !elem_of_cons, elem_of_nil. by intros [[=]|[[=]|[[= -> -> ->]|[[=]|[]]]]].
  - intros pre id result post. change (transcript_events demo_transcript) with
      [EvResult "call_web_fetch_5" "old page"; EvText "user" "go on"; EvCall "c7" "read_file" "{}"; EvResult "c7" "text"].
    intros H. destruct pre as [|e1 [|e2 [|e3 [|e4 pre]]]]; injection H; intros; try discriminate; simplify_eq.
    + split; [done|]. right. by exists "web_fetch", 5%Z.
    + split; [done|]. left. exists "read_file", "{}". rewrite !elem_of_cons. auto.
    + by destruct pre.
Defined.

(** Finding: a call without a name is left out of the request, its result is not. *)
Lemma unnamed_call_leaves_result :
  aq_Contents (buildRequest (λ _, None)
    [mk_Message "assistant" "" "" [] [mk_ToolCall "c1" "function" None "" None "" None] "";
     tool_message "text" "c1"] [] ∅)
  = [mk_content "user" [ResponsePart "c1" "text"]].
Proof. vm_compute. reflexivity. Qed.

(** ** Answers *)
Section answers.
Context (Marshal : gmap string json → string) (chunk_of_json : string → option chunk).
Context (clock : nat → time).

(** The identifier of a call in an answer names the call. *)
Definition id_names_call (tc : ToolCall) : Prop := ∃ now, tc_ID tc = generated_id (tc_Name tc) now.

Lemma read_part_ids r p :
  Forall id_names_call (rd_Calls r) → Forall id_names_call (rd_Calls (read_part Marshal clock r p)).
Proof.
  intros H. unfold read_part. cbn [rd_Calls]. apply Forall_app. split; [done|].
  unfold call_of_part. destruct (pt_Call p) as [c|]; csimpl; [|done]. constructor; [|done].
  by eexists.
Qed.

Lemma fold_ids {A} (step : reading → A → reading) l r :
  (∀ r x, Forall id_names_call (rd_Calls r) → Forall id_names_call (rd_Calls (step r x))) →
  Forall id_names_call (rd_Calls r) → Forall id_names_call (rd_Calls (foldl step r l)).
Proof. intros Hs. revert r. induction l as [|x l IH]; intros r H; [done|]. cbn. apply IH. by apply Hs. Qed.

Lemma read_chunk_ids r c :
  Forall id_names_call (rd_Calls r) → Forall id_names_call (rd_Calls (read_chunk Marshal clock r c)).
Proof.
  intros H. unfold read_chunk.
  assert (Forall id_names_call (rd_Calls (foldl (read_candidate Marshal clock) r (ck_Candidates c)))) as H1.
  { apply fold_ids; [|done]. intros r1 cd H1. unfold read_candidate.
    pose proof (fold_ids _ (cd_Parts cd) r1 read_part_ids H1). by case_bool_decide. }
  by destruct (0 <? ck_Total c)%Z.
Qed.

(** So a result that outlives its call is still named after it. *)
Lemma answered_calls_named_by_id body :
  Forall (λ tc, tc_Name tc ≠ "" → inferToolNameFromCallID (tc_ID tc) = tc_Name tc)
    (lr_ToolCalls (parseSSEResponse Marshal chunk_of_json clock body)).
Proof.
  assert (∀ lines r, Forall id_names_call (rd_Calls r) →
    Forall id_names_call (rd_Calls (read_lines Marshal chunk_of_json clock r lines))) as H.
  { induction lines as [|line lines IH]; intros r Hr; cbn [read_lines]; [done|].
    destruct (negb _); [by apply IH|]. case_bool_decide; [done|].
    destruct (chunk_of_json _); apply IH; [by apply read_chunk_ids|done]. }
  eapply Forall_impl; [apply (H (scan_lines body) (mk_reading [] [] None "")); constructor|].
  intros tc [now Hid] Hn. rewrite Hid. by apply inferred_name.
Qed.
End answers.

(** Finding: a line of the stream of 64 KiB or more ends the scan without an error, so
    the answer is empty, or worse, cut off. *)
Lemma long_line_cuts_answer Marshal chunk_of_json clock l text :
  newline_char ∉ l → ¬ short l →
  lr_Content (parseSSEResponse Marshal chunk_of_json clock (implode (l ++ newline_char :: text))) = "" ∧
  lr_ToolCalls (parseSSEResponse Marshal chunk_of_json clock (implode (l ++ newline_char :: text))) = [].
Proof. intros Hl Hs. unfold parseSSEResponse. by rewrite scan_stops. Qed.

(** Finding: of a failure that is not 429 the text keeps no status, so the failover may
    not know it and gives up, where with the status it would try the next model. *)
Lemma server_failure_not_classified :
  let e := parseAntigravityError (λ _, Some (mk_api_error "Internal error encountered." "INTERNAL" [])) 500 "{}" in
  ClassifyError (Some e) "antigravity" "gemini-3-flash" = None ∧ is_Some (classifyByStatus 500).
Proof. split; [vm_compute; reflexivity|]. vm_compute. eauto. Qed.

Lemma quota_failure_classified :
  let detail : gmap string json :=
    {[ "@type" := JStr "type.googleapis.com/google.rpc.ErrorInfo";
       "metadata" := JObj [("quotaResetDelay", JStr "4h")] ]} in
  let e := parseAntigravityError (λ _, Some (mk_api_error "Resource exhausted" "" [detail])) 429 "{}" in
  err_text e = "antigravity rate limit exceeded: Resource exhausted (reset in 4h)" ∧
  fe_Reason <$> ClassifyError (Some e) "antigravity" "gemini-3-flash" = Some FailoverRateLimit.
Proof. split; vm_compute; reflexivity. Qed.
