(* ===== verification/CliProviders.v ===== *)
(** * The clients that run a command (pkg/providers/claude_cli_provider.go,
      codex_cli_provider.go, tool_call_extract.go, codex_cli_credentials.go,
      github_copilot_provider.go)

    The prompt and the arguments of the command, its output, and the calls a model
    writes into its text.  Running a command and JSON are parameters. *)
From stdpp Require Import base gmap strings list.
From Stdlib Require Import Ascii ZArith Lia.
From S2P Require Import Prelude GoStrings ProviderTypes Paths Regex ToolLoop AgentContext Wire.
#[local] Open Scope go_scope.
#[local] Open Scope nat_scope.

(** ** Calls in a text (tool_call_extract.go) *)

(** The depth of braces along a text; the position after the one that closes it. *)
Fixpoint closing_brace (depth : Z) (i : nat) (l : list ascii) : option nat :=
  match l with
  | [] => None
  | c :: l' =>
      if bool_decide (c = "{"%char) then closing_brace (depth + 1) (S i) l'
      else if bool_decide (c = "}"%char) then
        if (depth - 1 =? 0)%Z then Some (S i) else closing_brace (depth - 1) (S i) l'
      else closing_brace depth (S i) l'
  end.

Definition findMatchingBrace (text : string) (pos : nat) : nat :=
  default pos (closing_brace 0 pos (drop pos (chars text))).

(** The opening of a document of calls: a brace and the quoted key. *)
Definition marker : string := String "{" (String quote ("tool_calls" +:+ String quote "")).

(** Where the document of calls starts and ends. *)
Definition calls_span (text : string) : option (nat * nat) :=
  match index text marker with
  | None => None
  | Some start =>
      let fin := findMatchingBrace text start in
      if Nat.eqb fin start then None else Some (start, fin)
  end.

Definition stripToolCallsFromText (text : string) : string :=
  match calls_span text with
  | None => text
  | Some (start, fin) => trim_space (str_take start text +:+ str_drop fin text)
  end.

Record wrapped_call := mk_wrapped_call {
  wc_ID : string;
  wc_Type : string;
  wc_Name : string;
  wc_Arguments : string;
}.

Section extract.
Context (wrapper_of_json : string → option (list wrapped_call)).
Context (Unmarshal : string → option (option (gmap string json))).

(** Arguments that cannot be decoded give the nil map. *)
Definition unwrapped (w : wrapped_call) : ToolCall :=
  mk_ToolCall (wc_ID w) (wc_Type w) (Some (mk_FunctionCall (wc_Name w) (wc_Arguments w) "")) (wc_Name w)
    (match Unmarshal (wc_Arguments w) with Some args => args | None => None end) "" None.

Definition extractToolCallsFromText (text : string) : list ToolCall :=
  match calls_span text with
  | None => []
  | Some (start, fin) =>
      match wrapper_of_json (str_drop start (str_take fin text)) with
      | None => []
      | Some wrapped => unwrapped <$> wrapped
      end
  end.

(** The answer a text makes: its calls, and what is left of the text. *)
Definition answer_of_text (text : string) (usage : option UsageInfo) : LLMResponse :=
  let toolCalls := extractToolCallsFromText text in
  if bool_decide (toolCalls = [])
  then mk_LLMResponse (trim_space text) "" toolCalls "stop" usage
  else mk_LLMResponse (trim_space (stripToolCallsFromText text)) "" toolCalls "tool_calls" usage.

(** ** Tools in a prompt *)
Context (Marshal : gmap string json → result string string).

Definition fence : string := "```".

Definition tool_section (t : ToolDefinition) : string :=
  if negb (bool_decide (td_Type t = "function")) then ""
  else
    let params := default ∅ (td_Parameters t) in
    "#### " +:+ td_Name t +:+ nl
    +:+ (if bool_decide (td_Description t = "") then "" else "Description: " +:+ td_Description t +:+ nl)
    +:+ (if bool_decide (size params = 0) then ""
         else match Marshal params with
              | Err e => "Parameters: (marshal error: " +:+ e +:+ ")" +:+ nl
              | Ok paramsJSON => "Parameters:" +:+ nl +:+ fence +:+ "json" +:+ nl +:+ paramsJSON +:+ nl +:+ fence +:+ nl
              end)
    +:+ nl.

(** The example of a call in the prompt, which is itself a document of calls. *)
Definition quoted_key (s : string) : string := String quote (s +:+ String quote "").
Definition example_call : string :=
  "{" +:+ quoted_key "tool_calls" +:+ ":[{" +:+ quoted_key "id" +:+ ":" +:+ quoted_key "call_xxx" +:+ ","
  +:+ quoted_key "type" +:+ ":" +:+ quoted_key "function" +:+ "," +:+ quoted_key "function" +:+ ":{"
  +:+ quoted_key "name" +:+ ":" +:+ quoted_key "tool_name" +:+ "," +:+ quoted_key "arguments" +:+ ":"
  +:+ quoted_key "{...}" +:+ "}}]}".

Definition buildToolsPrompt (tools : list ToolDefinition) : string :=
  "## Available Tools" +:+ nl +:+ nl
  +:+ "When you need to use a tool, respond with ONLY a JSON object:" +:+ nl +:+ nl
  +:+ fence +:+ "json" +:+ nl +:+ example_call +:+ nl +:+ fence +:+ nl +:+ nl
  +:+ "CRITICAL: The 'arguments' field MUST be a JSON-encoded STRING." +:+ nl +:+ nl
  +:+ "### Tool Definitions:" +:+ nl +:+ nl +:+ join "" (tool_section <$> tools).

Definition system_texts (messages : list Message) : list string :=
  omap (λ m, if bool_decide (m_Role m = "system") then Some (m_Content m) else None) messages.

Definition tool_result_text (m : Message) : string :=
  "[Tool Result for " +:+ m_ToolCallID m +:+ "]: " +:+ m_Content m.

(** What running a command gives: the output, the errors, and how it ended. *)
Record run := mk_run {
  rn_stdout : string;
  rn_stderr : string;
  rn_err : option error;
}.

End extract.

(** ** The claude command *)
Module Claude.
Section client.
Context (wrapper_of_json : string → option (list wrapped_call)).
Context (Unmarshal : string → option (option (gmap string json))).
Context (Marshal : gmap string json → result string string).

Definition line_of (m : Message) : option string :=
  if bool_decide (m_Role m = "user") then Some ("User: " +:+ m_Content m)
  else if bool_decide (m_Role m = "assistant") then Some ("Assistant: " +:+ m_Content m)
  else if bool_decide (m_Role m = "tool") then Some (tool_result_text m)
  else None.

Definition messagesToPrompt (messages : list Message) : string :=
  let parts := omap line_of messages in
  match parts with
  | [p] => if has_prefix p "User: " then trim_prefix p "User: " else join nl parts
  | _ => join nl parts
  end.

Definition buildSystemPrompt (messages : list Message) (tools : list ToolDefinition) : string :=
  join (nl +:+ nl) (system_texts messages ++ if bool_decide (tools = []) then [] else [buildToolsPrompt Marshal tools]).

Record response := mk_response {
  cl_IsError : bool;
  cl_Result : string;
  cl_InputTokens : Z;
  cl_OutputTokens : Z;
  cl_CacheCreation : Z;
  cl_CacheRead : Z;
}.

Definition usage_of (r : response) : option UsageInfo :=
  if (0 <? cl_InputTokens r)%Z || (0 <? cl_OutputTokens r)%Z
  then let prompt := wrap64 (cl_InputTokens r + cl_CacheCreation r + cl_CacheRead r) in
       Some (mk_UsageInfo prompt (cl_OutputTokens r) (wrap64 (prompt + cl_OutputTokens r)))
  else None.

Definition parseClaudeCliResponse (response_of_json : string → result string response) (output : string) :
    result error LLMResponse :=
  match response_of_json output with
  | Err e => Err (errors_New ("failed to parse claude cli response: " +:+ e))
  | Ok resp =>
      if cl_IsError resp then Err (errors_New ("claude cli returned error: " +:+ cl_Result resp))
      else Ok (answer_of_text wrapper_of_json Unmarshal (cl_Result resp) (usage_of resp))
  end.

Definition arguments (systemPrompt model : string) : list string :=
  ["-p"; "--output-format"; "json"; "--dangerously-skip-permissions"; "--no-chrome"]
  ++ (if bool_decide (systemPrompt = "") then [] else ["--system-prompt"; systemPrompt])
  ++ (if bool_decide (model = "") || bool_decide (model = "claude-code") then [] else ["--model"; model])
  ++ ["-"].

(** [Run] takes the command, its arguments, its directory and its input. *)
Definition Chat (response_of_json : string → result string response)
    (Run : string → list string → string → string → run) (workspace : string)
    (messages : list Message) (tools : list ToolDefinition) (model : string) : result error LLMResponse :=
  let r := Run "claude" (arguments (buildSystemPrompt messages tools) model) workspace
             (messagesToPrompt messages) in
  match rn_err r with
  | Some e => Err (if bool_decide (rn_stderr r = "") then wrap_error "claude cli error: " e
                   else errors_New ("claude cli error: " +:+ rn_stderr r))
  | None => parseClaudeCliResponse response_of_json (rn_stdout r)
  end.
End client.
End Claude.

(** ** The codex command *)
Module CodexCLI.
Section client.
Context (wrapper_of_json : string → option (list wrapped_call)).
Context (Unmarshal : string → option (option (gmap string json))).
Context (Marshal : gmap string json → result string string).

Definition line_of (m : Message) : option string :=
  if bool_decide (m_Role m = "user") then Some (m_Content m)
  else if bool_decide (m_Role m = "assistant") then Some ("Assistant: " +:+ m_Content m)
  else if bool_decide (m_Role m = "tool") then Some (tool_result_text m)
  else None.

Definition buildPrompt (messages : list Message) (tools : list ToolDefinition) : string :=
  let systemParts := system_texts messages in
  let conversationParts := omap line_of messages in
  let instructions :=
    if bool_decide (systemParts = []) then ""
    else "## System Instructions" +:+ nl +:+ nl +:+ join (nl +:+ nl) systemParts +:+ nl +:+ nl
         +:+ "## Task" +:+ nl +:+ nl in
  let toolsPrompt := if bool_decide (tools = []) then "" else buildToolsPrompt Marshal tools +:+ nl +:+ nl in
  match conversationParts, systemParts, tools with
  | [p], [], [] => p
  | _, _, _ => instructions +:+ toolsPrompt +:+ join nl conversationParts
  end.

(** An event of the output, by its type. *)
Inductive event :=
| ItemCompleted (item : option (string * string))        (* type and text *)
| TurnCompleted (usage : option (Z * Z * Z))             (* input, cached input, output *)
| ErrorEvent (message : string)
| TurnFailed (error : option string)
| OtherEvent.

Record reading := mk_reading {
  rd_Parts : list string;
  rd_Usage : option UsageInfo;
  rd_LastError : string;
}.

Definition read_event (r : reading) (e : event) : reading :=
  match e with
  | ItemCompleted (Some (ty, text)) =>
      if bool_decide (ty = "agent_message") && negb (bool_decide (text = ""))
      then mk_reading (rd_Parts r ++ [text]) (rd_Usage r) (rd_LastError r) else r
  | TurnCompleted (Some (input, cached, output)) =>
      let prompt := wrap64 (input + cached) in
      mk_reading (rd_Parts r) (Some (mk_UsageInfo prompt output (wrap64 (prompt + output)))) (rd_LastError r)
  | ErrorEvent message => mk_reading (rd_Parts r) (rd_Usage r) message
  | TurnFailed (Some message) => mk_reading (rd_Parts r) (rd_Usage r) message
  | _ => r
  end.

(** Empty and malformed lines are skipped. *)
Definition read_line (event_of_json : string → option event) (r : reading) (line : string) : reading :=
  let line := trim_space line in
  if bool_decide (line = "") then r
  else match event_of_json line with None => r | Some e => read_event r e end.

Definition parseJSONLEvents (event_of_json : string → option event) (output : string) :
    result error LLMResponse :=
  let r := foldl (read_line event_of_json) (mk_reading [] None "") (scan_lines output) in
  if negb (bool_decide (rd_LastError r = "")) && bool_decide (rd_Parts r = [])
  then Err (errors_New ("codex cli: " +:+ rd_LastError r))
  else Ok (answer_of_text wrapper_of_json Unmarshal (join nl (rd_Parts r)) (rd_Usage r)).

Definition arguments (model workspace : string) : list string :=
  ["exec"; "--json"; "--dangerously-bypass-approvals-and-sandbox"; "--skip-git-repo-check"; "--color"; "never"]
  ++ (if bool_decide (model = "") || bool_decide (model = "codex-cli") then [] else ["-m"; model])
  ++ (if bool_decide (workspace = "") then [] else ["-C"; workspace])
  ++ ["-"].

Definition says_something (r : LLMResponse) : bool :=
  negb (bool_decide (lr_Content r = "")) || negb (bool_decide (lr_ToolCalls r = [])).

(** An answer in the output counts, however the command ended.  [canceled]: the
    context was canceled. *)
Definition Chat (event_of_json : string → option event) (Run : string → list string → string → run)
    (canceled : bool) (command workspace : string) (messages : list Message) (tools : list ToolDefinition)
    (model : string) : result error LLMResponse :=
  if bool_decide (command = "") then Err (errors_New "codex command not configured")
  else
    let r := Run command (arguments model workspace) (buildPrompt messages tools) in
    let failed :=
      match rn_err r with
      | Some e =>
          if canceled then Err context_Canceled
          else Err (if bool_decide (rn_stderr r = "") then wrap_error "codex cli error: " e
                    else errors_New ("codex cli error: " +:+ rn_stderr r))
      | None => parseJSONLEvents event_of_json (rn_stdout r)
      end in
    if bool_decide (rn_stdout r = "") then failed
    else match parseJSONLEvents event_of_json (rn_stdout r) with
         | Ok resp => if says_something resp then Ok resp else failed
         | Err _ => failed
         end.

(** The tokens of the command, which count for an hour after its file was written. *)
Definition resolveCodexAuthPath (codexHome : string) (home : result string string) : result string string :=
  if bool_decide (codexHome = "") then
    match home with
    | Err e => Err ("getting home dir: " +:+ e)
    | Ok home => Ok (Join (Join home ".codex") "auth.json")
    end
  else Ok (Join codexHome "auth.json").

Definition ReadCodexCliCredentials (ReadFile : string → result string string) (Stat : string → option time)
    (auth_of_json : string → result string (string * string)) (now : time)
    (codexHome : string) (home : result string string) : result string (string * string * time) :=
  let? authPath := resolveCodexAuthPath codexHome home in
  match ReadFile authPath with
  | Err e => Err ("reading " +:+ authPath +:+ ": " +:+ e)
  | Ok data =>
      match auth_of_json data with
      | Err e => Err ("parsing " +:+ authPath +:+ ": " +:+ e)
      | Ok (accessToken, accountID) =>
          if bool_decide (accessToken = "") then Err ("no access_token in " +:+ authPath)
          else Ok (accessToken, accountID, (default now (Stat authPath) + hour)%Z)
      end
  end.

Definition CreateCodexCliTokenSource (credentials : result string (string * string * time)) (now : time) :
    result error (string * string) :=
  match credentials with
  | Err e => Err (errors_New ("reading codex cli credentials: " +:+ e))
  | Ok (token, accountID, expiresAt) =>
      if (expiresAt <? now)%Z
      then Err (errors_New "codex cli credentials expired (auth.json last modified > 1h ago). Run: codex login")
      else Ok (token, accountID)
  end.
End client.
End CodexCLI.

(** ** GitHub Copilot *)
Module Copilot.

(** Every request sends all messages; calls and tools are not sent.  [SendAndWait]:
    the content of the answer, if there is an answer and if it has content. *)
Definition Chat (Marshal_messages : list (string * string) → result string string)
    (session : option (string → option (option string))) (messages : list Message) : result error LLMResponse :=
  match Marshal_messages ((λ m, (m_Role m, m_Content m)) <$> messages) with
  | Err e => Err (errors_New ("marshal messages: " +:+ e))
  | Ok fullcontent =>
      match session with
      | None => Err (errors_New "provider closed")
      | Some SendAndWait =>
          match SendAndWait fullcontent with
          | None => Err (errors_New "empty response from copilot")
          | Some None => Err (errors_New "no content in copilot response")
          | Some (Some content) => Ok (mk_LLMResponse content "" [] "stop" None)
          end
      end
  end.
End Copilot.

(** ** Documents of calls in a text *)
Definition brace (c : ascii) : Z :=
  if bool_decide (c = "{"%char) then 1 else if bool_decide (c = "}"%char) then -1 else 0.
Definition depth (l : list ascii) : Z := foldr (λ c n, brace c + n)%Z 0%Z l.

(** Braces open at the start, close at the end, and not before. *)
Definition balanced (l : list ascii) : Prop :=
  depth l = 0%Z ∧ ∀ k, 0 < k < length l → (0 < depth (take k l))%Z.

Lemma closing_brace_balanced d i doc post :
  (0 < d)%Z → (d + depth doc = 0)%Z → (∀ k, k < length doc → (0 < d + depth (take k doc))%Z) →
  closing_brace d i (doc ++ post) = Some (i + length doc).
Proof.
  revert d i. induction doc as [|c doc IH]; intros d i Hd H0 Hpos; [cbn in H0; lia|].
  assert (∀ d', d' = (d + brace c)%Z → doc ≠ [] → closing_brace d' (S i) (doc ++ post) = Some (S i + length doc))
    as Hstep.
  { intros d' -> Hne. apply IH.
    - specialize (Hpos 1). cbn in Hpos. destruct doc; [done|]. cbn in Hpos. specialize (Hpos ltac:(lia)). lia.
    - cbn [depth foldr] in H0. fold (depth doc) in H0. lia.
    - intros k Hk. specialize (Hpos (S k)). cbn [length take depth foldr] in Hpos.
      fold (depth (take k doc)) in Hpos. specialize (Hpos ltac:(lia)). lia. }
  cbn [app closing_brace length]. rewrite Nat.add_succ_r. cbn [depth foldr] in H0. fold (depth doc) in H0.
  unfold brace in Hstep, H0. case_bool_decide; [|case_bool_decide].
  - apply Hstep; [lia|]. intros ->. cbn in H0. lia.
  - destruct (decide (doc = [])) as [->|Hne].
    + cbn in H0 |- *. rewrite (proj2 (Z.eqb_eq _ _)) by lia. f_equal. lia.
    + rewrite (proj2 (Z.eqb_neq _ _)); [apply Hstep; [lia|done]|].
      assert (brace c = -1)%Z as Hb by (unfold brace; by rewrite bool_decide_eq_false_2, bool_decide_eq_true_2).
      specialize (Hpos 1). destruct doc; [done|]. cbn in Hpos. specialize (Hpos ltac:(lia)). lia.
  - apply Hstep; [lia|]. intros ->. cbn in H0. lia.
Qed.

Lemma index_l_first p l n :
  has_prefix_l p (drop n l) = true → (∀ k, k < n → has_prefix_l p (drop k l) = false) → index_l p l = Some n.
Proof.
  revert l. induction n as [|n IH]; intros l Hn Hk.
  { rewrite drop_0 in Hn. destruct l; cbn [index_l]; by rewrite Hn. }
  pose proof (Hk 0 ltac:(lia)) as H0. rewrite drop_0 in H0. destruct l as [|c l].
  - rewrite drop_nil in Hn. congruence.
  - cbn [index_l]. rewrite H0. rewrite (IH l); [done|exact Hn|].
    intros k Hlt. apply (Hk (S k)). lia.
Qed.

(** A text with a document of calls in it, the first place its opening occurs. *)
Record holds_calls (text pre doc post : string) : Prop := {
  hc_text : text = pre +:+ doc +:+ post;
  hc_first : ∀ k, k < String.length pre → has_prefix_l (chars marker) (drop k (chars text)) = false;
  hc_marker : has_prefix doc marker = true;
  hc_balanced : balanced (chars doc);
}.

Lemma calls_span_of text pre doc post :
  holds_calls text pre doc post →
  calls_span text = Some (String.length pre, String.length pre + String.length doc).
Proof.
  intros [Ht Hf Hm [Hb0 Hb]].
  assert (chars text = chars pre ++ chars doc ++ chars post) as Hl by (by rewrite Ht, !chars_app).
  pose proof (proj1 (has_prefix_l_spec _ _) Hm) as [tl Hdoc].
  unfold calls_span, index. rewrite (index_l_first _ _ (String.length pre)); [|..|exact Hf].
  2:{ rewrite Hl, <-length_chars, drop_app_length, Hdoc, <-app_assoc. apply has_prefix_l_spec. eauto. }
  assert (findMatchingBrace text (String.length pre) = String.length pre + String.length doc) as ->.
  { unfold findMatchingBrace. rewrite Hl, <-!length_chars, drop_app_length.
    assert (∃ rest, chars doc = "{"%char :: rest) as [rest Hr] by (rewrite Hdoc; cbn; eauto).
    rewrite Hr. cbn [app closing_brace]. rewrite bool_decide_eq_true_2 by done.
    rewrite closing_brace_balanced; [cbn; lia|lia| |].
    - rewrite Hr in Hb0. exact Hb0.
    - intros k Hk. specialize (Hb (S k)). rewrite Hr in Hb. cbn [length] in Hb.
      specialize (Hb ltac:(lia)). exact Hb. }
  assert (0 < String.length doc) as Hd.
  { rewrite <-length_chars, Hdoc, length_app. cbn. lia. }
  by rewrite (proj2 (Nat.eqb_neq _ _)) by lia.
Qed.

(** When a model writes a document of calls into its text, whose braces balance,
    both commands take the calls from exactly that document, and the text they
    answer with is what stands before and after it; a text without the opening of
    such a document is answered as it is, without calls. *)
Lemma calls_taken_from_text wrapper_of_json Unmarshal text pre doc post calls usage :
  holds_calls text pre doc post → wrapper_of_json doc = Some calls → calls ≠ [] →
  answer_of_text wrapper_of_json Unmarshal text usage =
  mk_LLMResponse (trim_space (pre +:+ post)) "" (unwrapped Unmarshal <$> calls) "tool_calls" usage.
Proof.
  intros H Hw Hne. pose proof (calls_span_of _ _ _ _ H) as Hs. destruct H as [Ht _ _ _].
  assert (str_drop (String.length pre) (str_take (String.length pre + String.length doc) text) = doc) as Hdoc.
  { rewrite Ht. unfold str_drop, str_take. rewrite !chars_app, app_assoc, chars_implode, <-!length_chars.
    rewrite <-length_app, take_app_length, drop_app_length. apply implode_chars. }
  assert (str_take (String.length pre) text = pre) as Hpre.
  { rewrite Ht. unfold str_take. rewrite chars_app, <-length_chars, take_app_length. apply implode_chars. }
  assert (str_drop (String.length pre + String.length doc) text = post) as Hpost.
  { rewrite Ht. unfold str_drop. rewrite !chars_app, app_assoc, <-!length_chars, <-length_app, drop_app_length.
    apply implode_chars. }
  unfold answer_of_text, extractToolCallsFromText, stripToolCallsFromText. rewrite Hs, Hdoc, Hw, Hpre, Hpost.
  rewrite bool_decide_eq_false_2 by (by destruct calls). by rewrite trim_space_idemp.
Qed.

(** Nothing is taken from a text without the opening. *)
Lemma text_without_calls wrapper_of_json Unmarshal text usage :
  contains text marker = false →
  answer_of_text wrapper_of_json Unmarshal text usage = mk_LLMResponse (trim_space text) "" [] "stop" usage.
Proof.
  unfold contains. intros H%bool_decide_eq_false. unfold answer_of_text, extractToolCallsFromText, calls_span.
  destruct (index text marker); [by destruct H; eauto|]. done.
Qed.

(** ** Texts with calls, and without *)
Definition demo_doc : string := marker +:+ ":[{}]}".
Definition demo_text : string := "Reading. " +:+ demo_doc +:+ " Done.".
Definition demo_wrapped : wrapped_call := mk_wrapped_call "call_1" "function" "read_file" "{}".

Lemma calls_taken_from_text_witness :
  lr_Content (answer_of_text (λ _, Some [demo_wrapped]) (λ _, None) demo_text None) = "Reading.  Done." ∧
  tc_Name <$> lr_ToolCalls (answer_of_text (λ _, Some [demo_wrapped]) (λ _, None) demo_text None) = ["read_file"].
Proof.
  rewrite (calls_taken_from_text (λ _, Some [demo_wrapped]) (λ _, None) demo_text "Reading. " demo_doc " Done."
    [demo_wrapped] None); [|split|done|done].
  - split; reflexivity.
  - done.
  - intros k Hk. do 9 (destruct k as [|k]; [reflexivity|]). cbn in Hk. lia.
  - reflexivity.
  - split; [reflexivity|]. intros k Hk. destruct k as [|k]; [lia|].
    do 18 (destruct k as [|k]; [vm_compute; reflexivity|]). destruct Hk as [_ Hk]. vm_compute in Hk. lia.
Defined.

(** Finding: braces are counted in strings, too, so a brace in an argument ends the
    document early, or leaves it open; the calls are lost, and the text with the
    document is answered instead. *)
Lemma brace_in_argument_ends_document :
  let text := marker +:+ ":[" +:+ quoted_key "}" +:+ "]}" in
  calls_span text = Some (0, 17) ∧ String.length text = 20.
Proof. split; vm_compute; reflexivity. Qed.

Lemma open_brace_in_argument_loses_calls wrapper_of_json Unmarshal usage :
  let text := marker +:+ ":[" +:+ quoted_key "{" +:+ "]}" in
  answer_of_text wrapper_of_json Unmarshal text usage = mk_LLMResponse text "" [] "stop" usage.
Proof.
  cbv zeta. unfold answer_of_text, extractToolCallsFromText.
  assert (calls_span (marker +:+ ":[" +:+ quoted_key "{" +:+ "]}") = None) as -> by (vm_compute; reflexivity).
  f_equal.
Qed.

(** The calls made so far are not in the prompts: only the texts and the results are. *)
Definition without_calls (m : Message) : Message :=
  mk_Message (m_Role m) (m_Content m) (m_ReasoningContent m) (m_SystemParts m) [] (m_ToolCallID m).

Lemma prompts_omit_calls Marshal messages tools :
  Claude.messagesToPrompt (without_calls <$> messages) = Claude.messagesToPrompt messages ∧
  CodexCLI.buildPrompt Marshal (without_calls <$> messages) tools = CodexCLI.buildPrompt Marshal messages tools.
Proof.
  assert (omap Claude.line_of (without_calls <$> messages) = omap Claude.line_of messages) as H1.
  { induction messages as [|m ms IH]; [done|]. csimpl. rewrite IH. by unfold Claude.line_of. }
  assert (omap CodexCLI.line_of (without_calls <$> messages) = omap CodexCLI.line_of messages) as H2.
  { clear H1. induction messages as [|m ms IH]; [done|]. csimpl. rewrite IH. by unfold CodexCLI.line_of. }
  assert (system_texts (without_calls <$> messages) = system_texts messages) as H3.
  { clear H1 H2. unfold system_texts. induction messages as [|m ms IH]; [done|]. csimpl. by rewrite IH. }
  unfold Claude.messagesToPrompt, CodexCLI.buildPrompt. by rewrite H1, H2, H3.
Qed.

(** An answer in the output of the codex command counts, however the command ended. *)
Lemma codex_output_counts wrapper_of_json Unmarshal Marshal event_of_json Run canceled command workspace messages
    tools model resp :
  command ≠ "" →
  let r := Run command (CodexCLI.arguments model workspace) (CodexCLI.buildPrompt Marshal messages tools) in
  rn_stdout r ≠ "" →
  CodexCLI.parseJSONLEvents wrapper_of_json Unmarshal event_of_json (rn_stdout r) = Ok resp →
  CodexCLI.says_something resp = true →
  CodexCLI.Chat wrapper_of_json Unmarshal Marshal event_of_json Run canceled command workspace messages tools model
  = Ok resp.
Proof.
  intros Hc r Hs Hp Hr. unfold CodexCLI.Chat. rewrite bool_decide_eq_false_2 by done. fold r. cbv zeta.
  by rewrite bool_decide_eq_false_2, Hp, Hr.
Qed.
