(* ===== verification/Clients.v ===== *)
(** * The loops and the clients of providers

    What the requests of the clients say of the dialogue that the tool loop leads
    with a model and the tools, through the interface of [Wire.v] that each client
    implements. *)
From stdpp Require Import base gmap strings list.
From Stdlib Require Import Ascii ZArith QArith Lia.
From S2P Require Import Prelude GoStrings ProviderTypes Paths ToolBase AgentContext ToolLoop Wire.
From S2P Require Import OpenAICompat Anthropic Codex.
#[local] Open Scope nat_scope.

(** ** Against the interface *)
Section interface.
Context {R S : Type} {build : list Message → result error R} {said_of : R → list wire_event}
        {told : R → S} {system : list Message → S} {admits : list Message → Prop}
        `{!RequestFormat build said_of told system admits}.
Context (Marshal : gmap string json → string) (Marshal_text : ∀ args, Marshal args ≠ "").
Context (Unmarshal : string → option (option (gmap string json))).

Lemma rounds_said base said rounds :
  Forall2 (λ x round, round_of Marshal Unmarshal x.1 x.2 round) said rounds →
  admits (base ++ mjoin rounds) →
  ∃ r, build (base ++ mjoin rounds) = Ok r ∧
    said_of r = transcript_events base ++ (said ≫= exchange_events Marshal Unmarshal) ∧
    told r = system (system_messages base).
Proof using All.
  intros Hr Ha. pose proof (format_total (base ++ mjoin rounds)) as Ht.
  destruct (build (base ++ mjoin rounds)) as [r|] eqn:E; [|done].
  destruct (rounds_say Marshal Unmarshal said rounds Marshal_text Hr) as (H1 & H2 & _).
  exists r. split_and!; [done| |].
  - by rewrite (format_faithful _ _ Ha E), transcript_events_app, H1.
  - rewrite (format_told (told:=told) _ _ E). unfold system_messages in *. by rewrite filter_app, H2, app_nil_r.
Qed.
End interface.

(** ** The tool loop and three clients *)
Section loop.
Context {P W C : Type} `{!LLMProvider P}.
Context (Marshal : gmap string json → string).
Context (Unmarshal : string → option (option (gmap string json))).
Context (config : ToolLoopConfig W C) (channel chatID : string).

(** The requests the three clients make of the messages [asked] hold the conversation
    [evs], and what [systems] tell the model, each in its own place. *)
Definition requests_hold (asked : list Message) (evs : list wire_event) (systems : list Message)
    tools model options web : Prop :=
  let M args := Ok (Marshal args) in
  (∃ params, Anthropic.buildParams M asked tools model options = Ok params ∧
     (Anthropic.mp_Messages params ≫= Anthropic.param_events) = evs ∧
     Anthropic.mp_System params = systems ≫= Anthropic.system_blocks) ∧
  (let params := Codex.buildCodexParams M asked tools model options web in
   (Codex.rp_Input params ≫= Codex.item_events) = evs ∧
   Codex.rp_Instructions params = Codex.instructions_of systems) ∧
  (let sent := OpenAICompat.stripSystemParts asked in
   (sent ≫= OpenAICompat.openai_events) = evs ∧
   OpenAICompat.om_Content <$> filter (λ m, OpenAICompat.om_Role m = "system") sent = m_Content <$> systems).

Lemma requests_of_rounds base said rounds tools model options web :
  (∀ args, Marshal args ≠ "") →
  Forall2 (λ x round, round_of Marshal Unmarshal x.1 x.2 round) said rounds →
  calls_named (base ++ mjoin rounds) → calls_recorded (λ args, Ok (Marshal args)) base →
  requests_hold (base ++ mjoin rounds) (transcript_events base ++ (said ≫= exchange_events Marshal Unmarshal))
    (system_messages base) tools model options web.
Proof.
  intros HM Hr Hn Hrec.
  destruct (rounds_say Marshal Unmarshal said rounds HM Hr) as (_ & _ & Hrec').
  assert (calls_recorded (λ args, Ok (Marshal args)) (base ++ mjoin rounds)) as Hall
    by (by apply Forall_app).
  split; [|split].
  - pose proof (Anthropic.anthropic_format (λ args, Ok (Marshal args)) (λ _, eq_refl) tools model options) as HF.
    destruct (rounds_said Marshal HM Unmarshal base said rounds Hr Hall) as (r & E & H1 & H2). by exists r.
  - pose proof (Codex.codex_format (λ args, Ok (Marshal args)) tools model options web) as HF.
    destruct (rounds_said Marshal HM Unmarshal base said rounds Hr (conj Hn Hall)) as (r & [= <-] & H1 & H2).
    by split.
  - pose proof (OpenAICompat.openai_format (λ args, Ok (Marshal args))) as HF.
    destruct (rounds_said Marshal HM Unmarshal base said rounds Hr Hall) as (r & [= <-] & H1 & H2). by split.
Qed.

(** C14: every request of the tool loop, in the format of each client, says what was
    said.  The loop is a dialogue with the model and the tools; the request made
    after [k] rounds says what the messages at the start say and then, round by
    round, the text of the model's response, every call of it with its identifier,
    its name and its arguments, and for each call, in order, what the tool returned,
    under its identifier; and what the system messages at the start tell is in its
    place in the request.  For this every call has a name (an unnamed one is left
    out for the Codex backend), the messages at the start record their calls as the
    loops do, and the encoding of a map is not empty, as JSON is not. *)
Theorem requests_say_rounds p messages w res messages' p' w' tools model options web :
  RunToolLoop Marshal Unmarshal config channel chatID p messages w = (res, (messages', p', w')) →
  (∀ args, Marshal args ≠ "") →
  calls_named messages' → calls_recorded (λ args, Ok (Marshal args)) messages →
  ∃ said p1 rounds,
    dialogue Marshal Unmarshal config channel chatID p messages w said p1 messages' w' ∧
    messages' = messages ++ mjoin rounds ∧ length rounds = length said ∧
    ∀ k, requests_hold (messages ++ mjoin (take k rounds))
           (transcript_events messages ++ (take k said ≫= exchange_events Marshal Unmarshal))
           (system_messages messages) tools model options web.
Proof.
  intros Hrun HM Hn Hrec. unfold RunToolLoop in Hrun.
  pose proof (tool_loop_spec Marshal Unmarshal config channel chatID (Z.to_nat (tl_MaxIterations config)) 0 p
    messages w (Nat.add_0_r _)) as H.
  rewrite Hrun in H. destruct H as (said & p1 & Hd & _).
  destruct (dialogue_rounds _ _ _ _ _ _ _ _ _ _ _ _ Hd) as (rounds & -> & _ & Hs).
  exists said, p1, rounds. split_and!; [done|done|symmetry; by eapply Forall2_length|]. intros k.
  apply requests_of_rounds; [done|by apply Forall2_take| |done].
  apply Forall_app in Hn as [Hb Hr]. apply Forall_app. split; [done|].
  rewrite <-(take_drop k rounds), join_app in Hr. by apply Forall_app in Hr as [? _].
Qed.
End loop.

(** The dialogue with the tool that notes its argument: two calls in one response. *)
Definition note_messages : list Message :=
  (RunToolLoop note_json (λ _, None) note_config "cli" "direct" note_script note_request []).2.1.1.

Lemma requests_say_rounds_witness :
  requests_hold note_json note_messages
    [EvText "user" "go"; EvText "assistant" "Noting."; EvCall "c1" "note" "{one}"; EvCall "c2" "note" "{two}";
     EvResult "c1" "one"; EvResult "c2" "two"]
    [text_message "system" "You are a subagent."] [] "m" ∅ false.
Proof.
  destruct (requests_say_rounds note_json (λ _, None) note_config "cli" "direct" note_script note_request []
    (Ok (mk_ToolLoopResult "done" 2)) note_messages [] ["one"; "two"] [] "m" ∅ false)
    as (said & p1 & rounds & _ & Hm & Hlen & Hk).
  - vm_compute. reflexivity.
  - done.
  - vm_compute. repeat constructor.
  - repeat constructor; by intros [=].
  - specialize (Hk (length rounds)). rewrite Hlen in Hk at 2. rewrite !take_ge, <-Hm in Hk by done.
    revert Hk. generalize (transcript_events note_request ++ (said ≫= exchange_events note_json (λ _, None))).
    intros evs (H1 & [H2 H2'] & H3). pose proof H2 as E. vm_compute in E. rewrite <-E in H1, H2, H3.
    split; [exact H1|]. split; [split; [exact H2|exact H2']|exact H3].
Defined.
