(* ===== verification/Cron.v ===== *)
(** * Scheduled jobs (pkg/cron/service.go)

    The job store with its file, the computation of run times and the loop that
    runs due jobs.  Instants are Unix milliseconds as 64-bit integers.  The
    library that evaluates cron expressions is the parameter [NextTickAfter];
    the job handler, which runs outside the lock, may change the service and the
    rest of the program, which the operations carry along.
    Every operation is the whole critical section of the code, with the clock
    readings and the outcome of writing the file as arguments. *)
From stdpp Require Import base gmap strings list.
From Stdlib Require Import Ascii ZArith Lia.
From S2P Require Import Prelude GoStrings.
#[local] Open Scope Z_scope.

(** ** Data *)
Record CronSchedule := mk_CronSchedule {
  cs_Kind : string;
  cs_AtMS : option Z;
  cs_EveryMS : option Z;
  cs_Expr : string;
  cs_TZ : string;
}.

Record CronPayload := mk_CronPayload {
  cp_Kind : string;
  cp_Message : string;
  cp_Command : string;
  cp_Deliver : bool;
  cp_Channel : string;
  cp_To : string;
}.

Record CronJobState := mk_CronJobState {
  js_NextRunAtMS : option Z;
  js_LastRunAtMS : option Z;
  js_LastStatus : string;
  js_LastError : string;
}.

Record CronJob := mk_CronJob {
  j_ID : string;
  j_Name : string;
  j_Enabled : bool;
  j_Schedule : CronSchedule;
  j_Payload : CronPayload;
  j_State : CronJobState;
  j_CreatedAtMS : Z;
  j_UpdatedAtMS : Z;
  j_DeleteAfterRun : bool;
}.

(** The file of the store: missing, not readable or not a store, or a store. *)
Inductive store_file :=
| NoFile
| BadFile
| StoreFile (jobs : list CronJob).

(** The service: the jobs in memory, whether its loop runs, and its file. *)
Record CronService := mk_CronService {
  c_jobs : list CronJob;
  c_running : bool;
  c_file : store_file;
}.

Definition set_jobs (cs : CronService) (jobs : list CronJob) : CronService :=
  mk_CronService jobs (c_running cs) (c_file cs).

Definition with_state (j : CronJob) (st : CronJobState) : CronJob :=
  mk_CronJob (j_ID j) (j_Name j) (j_Enabled j) (j_Schedule j) (j_Payload j) st
    (j_CreatedAtMS j) (j_UpdatedAtMS j) (j_DeleteAfterRun j).
Definition with_enabled (j : CronJob) (enabled : bool) (updated : Z) : CronJob :=
  mk_CronJob (j_ID j) (j_Name j) enabled (j_Schedule j) (j_Payload j) (j_State j)
    (j_CreatedAtMS j) updated (j_DeleteAfterRun j).
Definition set_next (j : CronJob) (next : option Z) : CronJob :=
  with_state j (mk_CronJobState next (js_LastRunAtMS (j_State j)) (js_LastStatus (j_State j))
                  (js_LastError (j_State j))).

(** ** The file *)

(** The outcome of [saveStoreUnsafe]: the write is not atomic, a failure may
    leave any file behind. *)
Inductive save_outcome := Saved | SaveFailed (left : store_file).

Definition saveStoreUnsafe (o : save_outcome) (cs : CronService) : result unit unit * CronService :=
  match o with
  | Saved => (Ok tt, mk_CronService (c_jobs cs) (c_running cs) (StoreFile (c_jobs cs)))
  | SaveFailed f => (Err tt, mk_CronService (c_jobs cs) (c_running cs) f)
  end.

Definition loadStore (cs : CronService) : result unit unit * CronService :=
  match c_file cs with
  | NoFile => (Ok tt, set_jobs cs [])
  | BadFile => (Err tt, set_jobs cs [])
  | StoreFile jobs => (Ok tt, set_jobs cs jobs)
  end.

(** [NewCronService] drops the error of the load. *)
Definition NewCronService (f : store_file) : CronService :=
  (loadStore (mk_CronService [] false f)).2.

Section service.
(** [gronx.NextTickAfter(expr, now, false)] in milliseconds; [None]: an error. *)
Context (NextTickAfter : string → Z → option Z).

(** ** Run times *)
Definition computeNextRun (schedule : CronSchedule) (nowMS : Z) : option Z :=
  if bool_decide (cs_Kind schedule = "at") then
    match cs_AtMS schedule with
    | Some at_ms => if nowMS <? at_ms then Some at_ms else None
    | None => None
    end
  else if bool_decide (cs_Kind schedule = "every") then
    match cs_EveryMS schedule with
    | Some every => if every <=? 0 then None else Some (wrap64 (nowMS + every))
    | None => None
    end
  else if bool_decide (cs_Kind schedule = "cron") then
    if bool_decide (cs_Expr schedule = "") then None
    else NextTickAfter (cs_Expr schedule) nowMS
  else None.

Definition recomputeNextRuns (now : Z) (cs : CronService) : CronService :=
  set_jobs cs
    ((λ job, if j_Enabled job then set_next job (computeNextRun (j_Schedule job) now) else job)
       <$> c_jobs cs).

Definition getNextWakeMS (cs : CronService) : option Z :=
  foldl (λ nextWake job,
           match j_Enabled job, js_NextRunAtMS (j_State job) with
           | true, Some t => match nextWake with
                             | None => Some t
                             | Some w => if t <? w then Some t else nextWake
                             end
           | _, _ => nextWake
           end) None (c_jobs cs).

(** ** Start and Stop *)
Definition Start (now : Z) (o : save_outcome) (cs : CronService) :
    result unit unit * CronService :=
  if c_running cs then (Ok tt, cs)
  else
    match loadStore cs with
    | (Err e, cs) => (Err e, cs)
    | (Ok _, cs) =>
        match saveStoreUnsafe o (recomputeNextRuns now cs) with
        | (Err e, cs) => (Err e, cs)
        | (Ok _, cs) => (Ok tt, mk_CronService (c_jobs cs) true (c_file cs))
        end
    end.

Definition Stop (cs : CronService) : CronService :=
  if negb (c_running cs) then cs else mk_CronService (c_jobs cs) false (c_file cs).

(** ** Managing jobs *)
Definition AddJob (now : Z) (id : string) (o : save_outcome) (name : string)
    (schedule : CronSchedule) (message : string) (deliver : bool) (channel to : string)
    (cs : CronService) : result unit CronJob * CronService :=
  let deleteAfterRun := bool_decide (cs_Kind schedule = "at") in
  let job := mk_CronJob id name true schedule
    (mk_CronPayload "agent_turn" message "" deliver channel to)
    (mk_CronJobState (computeNextRun schedule now) None "" "") now now deleteAfterRun in
  match saveStoreUnsafe o (set_jobs cs (c_jobs cs ++ [job])) with
  | (Err e, cs) => (Err e, cs)
  | (Ok _, cs) => (Ok job, cs)
  end.

(** Replace the first job with this identifier; [None] when there is none. *)
Fixpoint update_first (id : string) (f : CronJob → CronJob) (jobs : list CronJob) :
    option (list CronJob) :=
  match jobs with
  | [] => None
  | j :: jobs' => if bool_decide (j_ID j = id) then Some (f j :: jobs')
                  else cons j <$> update_first id f jobs'
  end.

Definition UpdateJob (now : Z) (o : save_outcome) (job : CronJob) (cs : CronService) :
    result string unit * CronService :=
  match update_first (j_ID job) (λ _, with_enabled job (j_Enabled job) now) (c_jobs cs) with
  | Some jobs => match saveStoreUnsafe o (set_jobs cs jobs) with
                 | (Ok _, cs) => (Ok tt, cs)
                 | (Err _, cs) => (Err "save failed", cs)
                 end
  | None => (Err "job not found", cs)
  end.

Definition removeJobUnsafe (o : save_outcome) (jobID : string) (cs : CronService) :
    bool * CronService :=
  let before := length (c_jobs cs) in
  let jobs := List.filter (λ j, negb (bool_decide (j_ID j = jobID))) (c_jobs cs) in
  let removed := (length jobs <? before)%nat in
  let cs := set_jobs cs jobs in
  (removed, if removed then (saveStoreUnsafe o cs).2 else cs).

Definition RemoveJob := removeJobUnsafe.

Definition EnableJob (updated now : Z) (o : save_outcome) (jobID : string) (enabled : bool)
    (cs : CronService) : option CronJob * CronService :=
  let f := λ j, set_next (with_enabled j enabled updated)
                  (if enabled then computeNextRun (j_Schedule j) now else None) in
  match update_first jobID f (c_jobs cs) with
  | Some jobs =>
      let cs := (saveStoreUnsafe o (set_jobs cs jobs)).2 in
      (find_first (λ j, bool_decide (j_ID j = jobID)) jobs, cs)
  | None => (None, cs)
  end.

Definition ListJobs (includeDisabled : bool) (cs : CronService) : list CronJob :=
  if includeDisabled then c_jobs cs else List.filter j_Enabled (c_jobs cs).

(** [Status]: running, the number of jobs, the next wake-up. *)
Definition Status (cs : CronService) : bool * Z * option Z :=
  (c_running cs, Z.of_nat (length (c_jobs cs)), getNextWakeMS cs).

(** ** Running jobs *)
Definition find_job (jobID : string) (cs : CronService) : option CronJob :=
  find_first (λ j, bool_decide (j_ID j = jobID)) (c_jobs cs).

(** The clock readings of one run: when it starts, for the update time of the
    record, and for the next run. *)
Record run_clock := mk_run_clock {
  rc_start : Z;
  rc_updated : Z;
  rc_now : Z;
}.

(** The record of a job after a run, [None] when it is deleted. *)
Definition after_run (c : run_clock) (err : option string) (job : CronJob) : option CronJob :=
  let st := mk_CronJobState (js_NextRunAtMS (j_State job)) (Some (rc_start c))
    (match err with Some _ => "error" | None => "ok" end) (default "" err) in
  let job := with_state (with_enabled job (j_Enabled job) (rc_updated c)) st in
  if bool_decide (cs_Kind (j_Schedule job) = "at") then
    if j_DeleteAfterRun job then None
    else Some (set_next (with_enabled job false (rc_updated c)) None)
  else Some (set_next job (computeNextRun (j_Schedule job) (rc_now c))).

(** The second critical section of [executeJobByID]. *)
Definition finish_job (c : run_clock) (o : save_outcome) (err : option string)
    (jobID : string) (cs : CronService) : CronService :=
  match find_job jobID cs with
  | None => cs
  | Some job =>
      match after_run c err job with
      | Some job' =>
          (saveStoreUnsafe o
             (set_jobs cs (default (c_jobs cs) (update_first jobID (λ _, job') (c_jobs cs))))).2
      | None => (saveStoreUnsafe o (removeJobUnsafe o jobID cs).2).2
      end
  end.

(** A run: the handler works on a copy of the job, outside the lock, and may
    call the service and change the rest of the program, [W]; [None] for the
    handler: [onJob] is nil. *)
Abbreviation handler W := (option (CronJob → CronService * W → option string * (CronService * W))).

Definition executeJobByID {W} (c : run_clock) (o : save_outcome) (onJob : handler W)
    (jobID : string) (s : CronService * W) : CronService * W :=
  match find_job jobID s.1 with
  | None => s
  | Some callbackJob =>
      let '(err, (cs, w)) :=
        match onJob with Some f => f callbackJob s | None => (None, s) end in
      (finish_job c o err jobID cs, w)
  end.

Definition due (now : Z) (job : CronJob) : bool :=
  j_Enabled job && match js_NextRunAtMS (j_State job) with Some t => t <=? now | None => false end.

Definition collect_due (now : Z) (cs : CronService) : list string * list CronJob :=
  let dueJobIDs := j_ID <$> List.filter (due now) (c_jobs cs) in
  (dueJobIDs,
   (λ j, if bool_decide (j_ID j ∈ dueJobIDs) then set_next j None else j) <$> c_jobs cs).

(** One tick of the loop at [now]; [clock] gives the readings of each run. *)
Definition checkJobs {W} (now : Z) (clock : string → run_clock) (o : save_outcome) (onJob : handler W)
    (s : CronService * W) : CronService * W :=
  let '(cs, w) := s in
  if negb (c_running cs) then s
  else
    let '(dueJobIDs, jobs) := collect_due now cs in
    let cs := (saveStoreUnsafe o (set_jobs cs jobs)).2 in
    foldl (λ s jobID, executeJobByID (clock jobID) o onJob jobID s)
      (cs, w) dueJobIDs.

(** ** Lemmas *)
Definition ids (cs : CronService) : list string := j_ID <$> c_jobs cs.

Lemma saveStore_jobs o cs : c_jobs (saveStoreUnsafe o cs).2 = c_jobs cs.
Proof. by destruct o. Qed.
Lemma saveStore_running o cs : c_running (saveStoreUnsafe o cs).2 = c_running cs.
Proof. by destruct o. Qed.

Lemma update_first_None id f jobs : update_first id f jobs = None ↔ id ∉ (j_ID <$> jobs).
Proof.
  induction jobs as [|j jobs IH]; simpl; [split; [intros _; apply not_elem_of_nil|done]|].
  rewrite not_elem_of_cons. case_bool_decide as E; [split; [done|by intros [? _]]|].
  rewrite fmap_None, IH. naive_solver.
Qed.

Lemma update_first_Some id f jobs jobs' :
  NoDup (j_ID <$> jobs) → update_first id f jobs = Some jobs' →
  jobs' = (λ j, if bool_decide (j_ID j = id) then f j else j) <$> jobs.
Proof.
  revert jobs'. induction jobs as [|j jobs IH]; intros jobs' Hn; simpl; [done|].
  rewrite fmap_cons in Hn. apply NoDup_cons in Hn as [Hj Hn].
  case_bool_decide as E.
  - intros [= <-]. f_equal. symmetry. rewrite <-(list_fmap_id jobs) at 2.
    apply list_fmap_ext. intros i x Hx. rewrite bool_decide_eq_false_2; [done|].
    intros Hid. apply Hj. rewrite E, <-Hid. apply list_elem_of_fmap_2.
    by eapply list_elem_of_lookup_2.
  - intros (l & Hl & ->)%fmap_Some. f_equal. by apply IH.
Qed.

Lemma find_job_In jobID cs job : find_job jobID cs = Some job → job ∈ c_jobs cs ∧ j_ID job = jobID.
Proof.
  intros (l1 & l2 & -> & H & _)%find_first_Some. bool_nums. split; [set_solver|done].
Qed.

Lemma find_job_None jobID cs : find_job jobID cs = None ↔ jobID ∉ ids cs.
Proof.
  unfold find_job, ids. rewrite find_first_None, Forall_forall. split.
  - intros H (j & -> & Hj)%list_elem_of_fmap. specialize (H j Hj). by rewrite bool_decide_eq_true_2 in H.
  - intros H j Hj. apply bool_decide_eq_false. intros <-. apply H. by apply list_elem_of_fmap_2.
Qed.

Lemma NoDup_id_eq (l : list CronJob) j j' :
  NoDup (j_ID <$> l) → j ∈ l → j' ∈ l → j_ID j = j_ID j' → j = j'.
Proof.
  induction l as [|x l IH]; intros Hn Hj Hj' E; [by apply not_elem_of_nil in Hj|].
  rewrite fmap_cons in Hn. apply NoDup_cons in Hn as [Hx Hn].
  apply elem_of_cons in Hj as [->|Hj], Hj' as [->|Hj']; auto; exfalso; apply Hx.
  - rewrite E. by apply list_elem_of_fmap_2.
  - rewrite <-E. by apply list_elem_of_fmap_2.
Qed.

Lemma after_run_id c err j j' : after_run c err j = Some j' → j_ID j' = j_ID j.
Proof. unfold after_run. repeat case_bool_decide; repeat case_match; intros; simplify_eq; done. Qed.

(** [finish_job] rewrites the one job with this identifier. *)
Definition finish_one (c : run_clock) (err : option string) (jobID : string) (j : CronJob) :
    option CronJob :=
  if bool_decide (j_ID j = jobID) then after_run c err j else Some j.

Lemma omap_ext_in {A B} (f g : A → option B) (l : list A) : (∀ x, x ∈ l → f x = g x) → omap f l = omap g l.
Proof.
  induction l as [|x l IH]; intros H; [done|]. csimpl. rewrite (H x) by set_solver.
  rewrite IH by (intros; apply H; set_solver). done.
Qed.
Lemma omap_Some_fmap {A B} (f : A → B) (l : list A) : omap (λ x, Some (f x)) l = f <$> l.
Proof. induction l as [|x l IH]; [done|]. csimpl. by rewrite IH. Qed.
Lemma omap_omap {A B C} (f : B → option C) (g : A → option B) (l : list A) :
  omap f (omap g l) = omap (λ x, g x ≫= f) l.
Proof. induction l as [|x l IH]; [done|]. csimpl. destruct (g x); csimpl; by rewrite IH. Qed.
Lemma omap_filter_neg (p : CronJob → bool) (l : list CronJob) :
  List.filter (λ j, negb (p j)) l = omap (λ j, if p j then None else Some j) l.
Proof. induction l as [|x l IH]; [done|]. csimpl. destruct (p x); csimpl; by rewrite IH. Qed.

Lemma finish_job_jobs c o err jobID cs :
  NoDup (ids cs) → c_jobs (finish_job c o err jobID cs) = omap (finish_one c err jobID) (c_jobs cs).
Proof.
  intros Hn. unfold finish_job. destruct (find_job jobID cs) as [job|] eqn:Ef.
  - apply find_job_In in Ef as [Hin Hid].
    assert (∀ j, j ∈ c_jobs cs → j_ID j = jobID → j = job) as Huniq.
    { intros j Hj Hji. eapply NoDup_id_eq; [exact Hn|done|done|congruence]. }
    destruct (after_run c err job) as [job'|] eqn:Ea; rewrite saveStore_jobs.
    + destruct (update_first jobID (λ _, job') (c_jobs cs)) as [jobs|] eqn:Eu.
      2:{ apply update_first_None in Eu. exfalso. apply Eu. rewrite <-Hid.
          by apply list_elem_of_fmap_2. }
      simpl. rewrite (update_first_Some _ _ _ _ Hn Eu), <-omap_Some_fmap.
      apply omap_ext_in. intros j Hj. unfold finish_one.
      case_bool_decide as E; [|done]. by rewrite (Huniq j Hj E), Ea.
    + unfold removeJobUnsafe. simpl.
      assert (∀ (b : bool) cs', c_jobs (if b then (saveStoreUnsafe o cs').2 else cs') = c_jobs cs') as Hif.
      { intros [] cs'; [apply saveStore_jobs|done]. }
      rewrite Hif. simpl. rewrite omap_filter_neg. apply omap_ext_in. intros j Hj.
      unfold finish_one. case_bool_decide as E; [|done]. by rewrite (Huniq j Hj E), Ea.
  - apply find_job_None in Ef. rewrite <-(list_fmap_id (c_jobs cs)) at 1.
    rewrite <-omap_Some_fmap. apply omap_ext_in. intros j Hj. unfold finish_one.
    rewrite bool_decide_eq_false_2; [done|]. intros <-. apply Ef. by apply list_elem_of_fmap_2.
Qed.

Lemma omap_ids (f : CronJob → option CronJob) (l : list CronJob) :
  (∀ j j', f j = Some j' → j_ID j' = j_ID j) → (j_ID <$> omap f l) `sublist_of` (j_ID <$> l).
Proof.
  intros Hf. induction l as [|x l IH]; [done|]. csimpl.
  destruct (f x) as [y|] eqn:E; rewrite ?fmap_cons; [|by apply sublist_cons].
  rewrite (Hf _ _ E). by apply sublist_skip.
Qed.

Lemma finish_one_id c err jobID j j' : finish_one c err jobID j = Some j' → j_ID j' = j_ID j.
Proof. unfold finish_one. case_bool_decide; [apply after_run_id|by intros [= ->]]. Qed.

(** A handler that leaves the service alone, answers [err j] for a copy [j] and
    is watched: the world is the list of the copies it is called with. *)
Definition watched (onJob : handler (list CronJob)) (err : CronJob → option string) : Prop :=
  match onJob with
  | Some f => ∀ j cs calls, f j (cs, calls) = (err j, (cs, calls ++ [j]))
  | None => ∀ j, err j = None
  end.

(** The calls of a handler, if there is one. *)
Definition calls_of {W} (onJob : handler W) (js : list CronJob) : list CronJob :=
  match onJob with Some _ => js | None => [] end.

Lemma execute_watched c o onJob err jobID cs calls job :
  watched onJob err → find_job jobID cs = Some job →
  executeJobByID c o onJob jobID (cs, calls)
  = (finish_job c o (err job) jobID cs, calls ++ calls_of onJob [job]).
Proof.
  intros Hq Hf. unfold executeJobByID. cbn [fst]. rewrite Hf. unfold watched in Hq.
  destruct onJob as [f|]; rewrite Hq; [done|]. cbn. by rewrite app_nil_r.
Qed.

Lemma calls_of_cons {W} (onJob : handler W) j js :
  calls_of onJob (j :: js) = calls_of onJob [j] ++ calls_of onJob js.
Proof. by destruct onJob. Qed.

(** Running the jobs [D], all of them there and with their own identifiers. *)
Lemma execute_all clock o onJob err (D : list CronJob) cs calls :
  watched onJob err → NoDup (ids cs) → NoDup (j_ID <$> D) → D ⊆ c_jobs cs →
  let s := foldl (λ s jobID, executeJobByID (clock jobID) o onJob jobID s) (cs, calls) (j_ID <$> D) in
  c_jobs s.1 = omap (λ j, if bool_decide (j_ID j ∈ j_ID <$> D) then after_run (clock (j_ID j)) (err j) j
                          else Some j) (c_jobs cs)
  ∧ s.2 = calls ++ calls_of onJob D.
Proof.
  intros Hq. revert cs calls. induction D as [|job D IH]; intros cs calls Hn HD Hsub;
    cbn [foldl fmap list_fmap].
  { split; [|by destruct onJob; rewrite app_nil_r]. cbn [fst].
    rewrite <-(list_fmap_id (c_jobs cs)) at 1. rewrite <-omap_Some_fmap.
    apply omap_ext_in. intros j _. by rewrite bool_decide_eq_false_2 by apply not_elem_of_nil. }
  csimpl in HD. apply NoDup_cons in HD as [Hid HD].
  assert (job ∈ c_jobs cs) as Hin by (apply Hsub; left).
  assert (find_job (j_ID job) cs = Some job) as Ef.
  { destruct (find_job (j_ID job) cs) as [job'|] eqn:Ef.
    - apply find_job_In in Ef as [Hin' E]. f_equal. exact (NoDup_id_eq _ _ _ Hn Hin' Hin E).
    - apply find_job_None in Ef. exfalso. apply Ef. by apply list_elem_of_fmap_2. }
  rewrite (execute_watched _ _ _ _ _ _ _ _ Hq Ef).
  set (cs1 := finish_job _ _ _ _ cs).
  assert (c_jobs cs1 = omap (finish_one (clock (j_ID job)) (err job) (j_ID job)) (c_jobs cs)) as Hjobs
    by by apply finish_job_jobs.
  assert (NoDup (ids cs1)) as Hn'.
  { unfold ids. rewrite Hjobs. eapply sublist_NoDup; [exact Hn|]. apply omap_ids, finish_one_id. }
  assert (D ⊆ c_jobs cs1) as Hsub'.
  { intros j Hj. rewrite Hjobs. apply list_elem_of_omap. exists j.
    split; [apply Hsub; by right|]. unfold finish_one. rewrite bool_decide_eq_false_2; [done|].
    intros E. apply Hid. rewrite <-E. by apply list_elem_of_fmap_2. }
  destruct (IH cs1 (calls ++ calls_of onJob [job]) Hn' HD Hsub') as [IH1 IH2]. split.
  - cbn [foldl fst snd] in IH1 |- *. rewrite IH1, Hjobs, omap_omap. apply omap_ext_in.
    intros j Hj. unfold finish_one. case_bool_decide as E.
    + assert (j = job) as -> by exact (NoDup_id_eq _ _ _ Hn Hj Hin E).
      rewrite (bool_decide_eq_true_2 (_ ∈ _ :: _)) by left.
      destruct (after_run _ _ job) as [j'|] eqn:Ea; simpl; [|done].
      apply after_run_id in Ea. rewrite Ea. by rewrite bool_decide_eq_false_2.
    + simpl. by rewrite (bool_decide_ext (j_ID j ∈ j_ID job :: _) (j_ID j ∈ j_ID <$> D))
        by (rewrite elem_of_cons; naive_solver).
  - cbn [foldl fst snd] in IH2 |- *. by rewrite IH2, (calls_of_cons _ job D), app_assoc.
Qed.

Lemma collect_due_elem now cs j :
  NoDup (ids cs) → j ∈ c_jobs cs → j_ID j ∈ (collect_due now cs).1 ↔ due now j = true.
Proof.
  intros Hn Hj. simpl. rewrite list_elem_of_fmap. split.
  - intros (j' & E & Hj'). apply list_elem_of_In, filter_In in Hj' as [Hin Hd].
    rewrite <-list_elem_of_In in Hin. by rewrite (NoDup_id_eq _ _ _ Hn Hj Hin E).
  - intros Hd. exists j. split; [done|]. apply list_elem_of_In, filter_In.
    by rewrite <-list_elem_of_In.
Qed.

Lemma filter_ids (p : CronJob → bool) (l : list CronJob) :
  (j_ID <$> List.filter p l) `sublist_of` (j_ID <$> l).
Proof.
  induction l as [|x l IH]; [done|]. csimpl. destruct (p x); csimpl;
    [by apply sublist_skip|by apply sublist_cons].
Qed.

Lemma checkJobs_jobs now clock o onJob err cs calls :
  watched onJob err → NoDup (ids cs) → c_running cs = true →
  let s := checkJobs now clock o onJob (cs, calls) in
  c_jobs s.1
  = omap (λ j, if due now j
               then after_run (clock (j_ID j)) (err (set_next j None)) (set_next j None)
               else Some j) (c_jobs cs)
  ∧ s.2 = calls ++ calls_of onJob ((λ j, set_next j None) <$> List.filter (due now) (c_jobs cs)).
Proof.
  intros Hq Hn Hr s. subst s. unfold checkJobs. rewrite Hr. cbn [negb].
  pose proof (λ j, collect_due_elem now cs j Hn) as Hdue.
  unfold collect_due in *. cbn [fst] in Hdue. cbv zeta.
  set (D := List.filter (due now) (c_jobs cs)) in *.
  set (reset := λ j, if bool_decide (j_ID j ∈ j_ID <$> D) then set_next j None else j).
  assert (∀ j, j_ID (reset j) = j_ID j) as Hrid by (intros j; unfold reset; by case_bool_decide).
  assert (∀ jobs : list CronJob, j_ID <$> (reset <$> jobs) = j_ID <$> jobs) as Hids.
  { intros jobs. rewrite <-list_fmap_compose. apply list_fmap_ext. intros; apply Hrid. }
  assert ((λ j, set_next j None) <$> D = reset <$> D) as HD.
  { apply list_fmap_ext. intros i j Hi%list_elem_of_lookup_2. unfold reset.
    rewrite bool_decide_eq_true_2; [done|]. by apply list_elem_of_fmap_2. }
  set (cs1 := (saveStoreUnsafe o (set_jobs cs (reset <$> c_jobs cs))).2).
  assert (c_jobs cs1 = reset <$> c_jobs cs) as Hcs1 by (unfold cs1; by rewrite saveStore_jobs).
  destruct (execute_all clock o onJob err (reset <$> D) cs1 calls) as [Hjobs Hcalls].
  - done.
  - unfold ids. by rewrite Hcs1, Hids.
  - rewrite Hids. eapply sublist_NoDup; [exact Hn|apply filter_ids].
  - rewrite Hcs1. intros j (j0 & -> & Hj)%list_elem_of_fmap. apply list_elem_of_fmap_2.
    unfold D in Hj. apply list_elem_of_In, filter_In in Hj as [Hj _]. by apply list_elem_of_In.
  - rewrite Hids in Hjobs, Hcalls. rewrite HD. split; [|done].
    rewrite Hjobs, Hcs1, <-(omap_Some_fmap reset (c_jobs cs)), omap_omap.
    apply omap_ext_in. intros j Hj. simpl. rewrite Hrid.
    rewrite (bool_decide_ext _ _ (Hdue j Hj)). unfold reset.
    rewrite (bool_decide_ext _ _ (Hdue j Hj)). by destruct (due now j).
Qed.

(** The library's promise: the next tick is after the given instant. *)
Definition ticks_after : Prop := ∀ e n t, NextTickAfter e n = Some t → n < t.

Lemma computeNextRun_future schedule now t :
  ticks_after → (∀ every, cs_EveryMS schedule = Some every → in_int64 (now + every)) →
  computeNextRun schedule now = Some t → now < t.
Proof.
  intros Hlaw Hov. unfold computeNextRun.
  repeat case_bool_decide; repeat case_match; intros; simplify_eq; bool_nums; try lia; eauto.
  rewrite wrap64_id by auto. lia.
Qed.

(** C28: a tick of the running loop runs exactly the enabled jobs whose time has
    come, each once and in the order of the store: a handler that does not call
    the service itself is called with the copies of these jobs, their next run
    taken away, one after the other.  Their records get the start, outcome and
    next run of its answer on the copy, one-time jobs are deleted or
    disabled, all other records are unchanged; and no record is due any more
    at that instant, provided the runs read the clock at or after it, the
    next runs do not overflow and cron expressions tick in the future. *)
Theorem tick_runs_due_jobs (now : Z) (clock : string → run_clock) (o : save_outcome)
    (onJob : handler (list CronJob)) (err : CronJob → option string) (cs : CronService)
    (calls : list CronJob) :
  watched onJob err → NoDup (ids cs) → c_running cs = true →
  let '(cs', calls') := checkJobs now clock o onJob (cs, calls) in
  calls' = calls ++ calls_of onJob ((λ j, set_next j None) <$> List.filter (due now) (c_jobs cs))
  ∧ c_jobs cs' = omap (λ j, if due now j
                            then after_run (clock (j_ID j)) (err (set_next j None)) (set_next j None)
                            else Some j) (c_jobs cs)
  ∧ (ticks_after → (∀ id, now <= rc_now (clock id)) →
     (∀ j every, j ∈ c_jobs cs → cs_EveryMS (j_Schedule j) = Some every →
        in_int64 (rc_now (clock (j_ID j)) + every)) →
     ∀ j, j ∈ c_jobs cs' → due now j = false).
Proof.
  intros Hq Hn Hr. destruct (checkJobs_jobs now clock o onJob err cs calls Hq Hn Hr) as [Hjobs Hcalls].
  destruct (checkJobs _ _ _ _ _) as [cs' calls']. cbn [fst snd] in Hjobs, Hcalls.
  split; [done|]. rewrite Hjobs.
  split; [done|]. intros Hlaw Hclock Hov j Hj.
  apply list_elem_of_omap in Hj as (j0 & Hj0 & Hj).
  destruct (due now j0) eqn:Hd; [|by simplify_eq].
  unfold after_run in Hj. simpl in Hj. unfold due.
  case_bool_decide as Hat; [destruct (j_DeleteAfterRun j0); simplify_eq; done|].
  injection Hj as <-. simpl.
  destruct (computeNextRun _ _) as [t|] eqn:Ec; [|apply andb_false_r].
  apply computeNextRun_future in Ec; [|done|intros; by apply Hov].
  apply andb_false_iff. right. apply Z.leb_gt. specialize (Hclock (j_ID j0)). lia.
Qed.

(** ** Interleavings of the critical sections *)
Inductive cron_step : CronService → CronService → Prop :=
| step_start now cs : cron_step cs (Start now Saved cs).2
| step_stop cs : cron_step cs (Stop cs)
| step_add now id name sch msg dl ch to cs :
    id ∉ ids cs → cron_step cs (AddJob now id Saved name sch msg dl ch to cs).2
| step_update now job cs : cron_step cs (UpdateJob now Saved job cs).2
| step_remove id cs : cron_step cs (RemoveJob Saved id cs).2
| step_enable updated now id b cs : cron_step cs (EnableJob updated now Saved id b cs).2
| step_collect now cs :
    c_running cs = true →
    cron_step cs (saveStoreUnsafe Saved (set_jobs cs (collect_due now cs).2)).2
| step_finish c err id cs : cron_step cs (finish_job c Saved err id cs).

Inductive cron_reachable : CronService → Prop :=
| cron_init f : (∀ jobs, f = StoreFile jobs → NoDup (j_ID <$> jobs)) → f ≠ BadFile →
    cron_reachable (NewCronService f)
| cron_next cs cs' : cron_reachable cs → cron_step cs cs' → cron_reachable cs'.

(** The file holds the jobs of the memory; a missing file counts as no jobs. *)
Definition mirrored (cs : CronService) : Prop :=
  c_file cs = StoreFile (c_jobs cs) ∨ (c_file cs = NoFile ∧ c_jobs cs = []).

Lemma update_first_ids id f jobs jobs' :
  (∀ j, j_ID j = id → j_ID (f j) = id) → update_first id f jobs = Some jobs' →
  j_ID <$> jobs' = j_ID <$> jobs.
Proof.
  intros Hf. revert jobs'. induction jobs as [|j jobs IH]; intros jobs'; simpl; [done|].
  case_bool_decide as E.
  - intros [= <-]. by rewrite !fmap_cons, Hf, E.
  - intros (l & Hl & ->)%fmap_Some. rewrite !fmap_cons. f_equal. by apply IH.
Qed.

Lemma set_jobs_ids_fmap cs (f : CronJob → CronJob) :
  (∀ j, j_ID (f j) = j_ID j) → ids (set_jobs cs (f <$> c_jobs cs)) = ids cs.
Proof. intros Hf. unfold ids. simpl. rewrite <-list_fmap_compose.
  apply list_fmap_ext. intros; apply Hf.
Qed.

Lemma cron_step_ok cs cs' :
  cron_step cs cs' → NoDup (ids cs) ∧ mirrored cs → NoDup (ids cs') ∧ mirrored cs'.
Proof.
  intros Hs [Hn Hm].
  destruct Hs as [now cs|cs|now id name sch msg dl ch to cs Hid|now job cs|id cs|upd now id b cs
    |now cs Hr|c err id cs].
  - unfold Start, loadStore. destruct (c_running cs); [done|].
    assert (∀ jobs, NoDup (j_ID <$> jobs) →
      NoDup (ids (recomputeNextRuns now (set_jobs cs jobs)))) as Hrec.
    { intros jobs Hj. unfold recomputeNextRuns.
      rewrite set_jobs_ids_fmap; [done|]. intros j. by destruct (j_Enabled j). }
    destruct Hm as [Hf|[Hf Hj]]; rewrite Hf; simpl; (split; [|by left]).
    + by apply (Hrec (c_jobs cs)).
    + constructor.
  - unfold Stop. destruct (c_running cs); simpl; [|done]. split; [done|]. exact Hm.
  - simpl. split; [|by left]. unfold ids. simpl. rewrite fmap_app. apply NoDup_app.
    split_and!; [done| |apply NoDup_singleton].
    intros x Hx ->%list_elem_of_singleton. done.
  - unfold UpdateJob. destruct (update_first _ _ _) as [jobs|] eqn:E; [|done]. simpl.
    split; [|by left]. unfold ids. simpl.
    by erewrite update_first_ids; [exact Hn| |exact E].
  - unfold RemoveJob, removeJobUnsafe. simpl.
    match goal with |- context [(?a <? ?b)%nat] => destruct (Nat.ltb_spec a b) as [Hlt|Hge] end; simpl.
    + split; [|by left]. eapply sublist_NoDup; [done|apply filter_ids].
    + assert (List.filter (λ j, negb (bool_decide (j_ID j = id))) (c_jobs cs) = c_jobs cs) as E.
      { clear -Hge. revert Hge. induction (c_jobs cs) as [|x l IH]; simpl; [done|].
        destruct (negb _); simpl; intros; [f_equal; apply IH; lia|].
        pose proof (List.filter_length_le (λ j, negb (bool_decide (j_ID j = id))) l). lia. }
      unfold ids, mirrored. simpl. rewrite E. by split.
  - unfold EnableJob. destruct (update_first _ _ _) as [jobs|] eqn:E; [|done]. simpl.
    split; [|by left]. unfold ids. simpl. by erewrite update_first_ids; [exact Hn| |exact E].
  - simpl. split; [|by left]. unfold ids. simpl. rewrite <-list_fmap_compose.
    erewrite list_fmap_ext; [exact Hn|]. intros i j _. simpl. by case_bool_decide.
  - split.
    + unfold ids. rewrite finish_job_jobs by done. eapply sublist_NoDup; [exact Hn|].
      apply omap_ids, finish_one_id.
    + unfold finish_job. destruct (find_job id cs) as [job|]; [|done].
      destruct (after_run c err job); by left.
Qed.

(** The store survives restarts: in every interleaving of the service's
    critical sections whose writes succeed, job identifiers stay unique and
    the file holds exactly the jobs in memory, so a new service on the same
    file starts with the same jobs. *)
Lemma store_mirrored (cs : CronService) :
  cron_reachable cs →
  NoDup (ids cs) ∧ mirrored cs ∧ c_jobs (NewCronService (c_file cs)) = c_jobs cs.
Proof.
  intros Hr.
  assert (NoDup (ids cs) ∧ mirrored cs) as [Hn Hm].
  { induction Hr as [f Hf Hb|cs cs' _ IH Hs]; [|by eapply cron_step_ok].
    unfold NewCronService, loadStore. destruct f as [| |jobs]; simpl; [|done|].
    - split; [constructor|by right].
    - split; [by apply Hf|by left]. }
  split_and!; [done|done|]. unfold NewCronService, loadStore. simpl.
  destruct Hm as [->|[-> Hj]]; simpl; [done|by rewrite Hj].
Qed.

Definition at_or_before (w : option Z) (now : Z) : bool :=
  match w with Some t => t <=? now | None => false end.

Lemma next_wake_fold jobs w0 now :
  at_or_before (foldl (λ nextWake job,
           match j_Enabled job, js_NextRunAtMS (j_State job) with
           | true, Some t => match nextWake with
                             | None => Some t
                             | Some w => if t <? w then Some t else nextWake
                             end
           | _, _ => nextWake
           end) w0 jobs) now
  = at_or_before w0 now || existsb (due now) jobs.
Proof.
  revert w0. induction jobs as [|j jobs IH]; intros w0; cbn [foldl existsb]; [by rewrite orb_false_r|].
  rewrite IH, orb_assoc. f_equal. unfold due.
  destruct (j_Enabled j), (js_NextRunAtMS (j_State j)) as [t|], w0 as [w|];
    simpl; rewrite ?orb_false_r; try done.
  apply eq_true_iff_eq. rewrite orb_true_iff, !Z.leb_le.
  destruct (Z.ltb_spec t w); simpl; rewrite Z.leb_le; lia.
Qed.

(** [getNextWakeMS] is the earliest time at which anything is due: some job
    is due at [now] exactly when there is a next wake-up at or before [now];
    so a tick before it runs nothing. *)
Lemma next_wake_is_earliest (cs : CronService) (now : Z) :
  (∃ t, getNextWakeMS cs = Some t ∧ t <= now) ↔ (collect_due now cs).1 ≠ [].
Proof.
  pose proof (next_wake_fold (c_jobs cs) None now) as H.
  change (at_or_before (getNextWakeMS cs) now = existsb (due now) (c_jobs cs)) in H. simpl.
  transitivity (existsb (due now) (c_jobs cs) = true).
  - rewrite <-H. unfold at_or_before. destruct (getNextWakeMS cs) as [t|].
    + rewrite Z.leb_le. split; [by intros (? & [= <-] & ?)|eauto].
    + split; [by intros (? & ? & _)|done].
  - rewrite existsb_exists. split.
    + intros (j & Hj & Hd) E. apply fmap_nil_inv in E.
      assert (In j (List.filter (due now) (c_jobs cs))) as Hin by by apply filter_In.
      by rewrite E in Hin.
    + intros Hne. destruct (List.filter (due now) (c_jobs cs)) as [|j l] eqn:E; [done|].
      exists j. apply filter_In. rewrite E. by left.
Qed.
End service.

(** ** Concrete runs *)

(** A library that ticks every minute, whatever the expression. *)
Definition every_minute (e : string) (n : Z) : option Z := Some ((n / 60_000 + 1) * 60_000).

Definition every_schedule (ms : Z) : CronSchedule := mk_CronSchedule "every" None (Some ms) "" "".

Definition sample_0 : CronService := NewCronService NoFile.
Definition sample_1 : CronService :=
  (AddJob every_minute 0 "a" Saved "often" (every_schedule 1000) "" true "" "" sample_0).2.
Definition sample_2 : CronService :=
  (AddJob every_minute 0 "b" Saved "weekly" (every_schedule 604_800_000) "" true "" "" sample_1).2.
Definition sample_service : CronService := (Start every_minute 0 Saved sample_2).2.

Definition sample_clock (id : string) : run_clock := mk_run_clock 1000 1001 1002.

Definition sample_handler :
    option (CronJob → CronService * list CronJob → option string * (CronService * list CronJob)) :=
  Some (λ j s, (None, (s.1, s.2 ++ [j]))).

Lemma tick_runs_due_jobs_witness :
  let s := checkJobs every_minute 1000 sample_clock Saved sample_handler (sample_service, []) in
  j_ID <$> s.2 = ["a"] ∧ ∀ j, j ∈ c_jobs s.1 → due 1000 j = false.
Proof.
  pose proof (tick_runs_due_jobs every_minute 1000 sample_clock Saved sample_handler (λ _, None)
    sample_service []) as H.
  destruct (checkJobs _ _ _ _ _ _) as [cs' calls'].
  destruct H as (Hcalls & _ & H).
  - intros j cs calls. reflexivity.
  - refine (bool_decide_unpack (NoDup _) _). vm_compute. exact I.
  - reflexivity.
  - split; [rewrite Hcalls; reflexivity|]. apply H.
    + intros e n t Ht. injection Ht as <-. pose proof (Z.div_mod n 60_000 ltac:(lia)).
      pose proof (Z.mod_pos_bound n 60_000 ltac:(lia)). lia.
    + intros id. vm_compute. discriminate.
    + intros j every Hj He.
      assert (Forall (λ j, cs_EveryMS (j_Schedule j) = Some 1000
        ∨ cs_EveryMS (j_Schedule j) = Some 604_800_000) (c_jobs sample_service)) as Hall.
      { refine (bool_decide_unpack (Forall _ _) _). vm_compute. exact I. }
      rewrite Forall_forall in Hall. unfold in_int64, int64_min, int64_max. simpl.
      destruct (Hall j Hj) as [H1|H1]; rewrite H1 in He; injection He as <-; lia.
Defined.

Lemma store_mirrored_witness :
  c_jobs (NewCronService (c_file sample_service)) = c_jobs sample_service.
Proof.
  apply (store_mirrored every_minute).
  apply (cron_next _ sample_2); [|apply step_start].
  apply (cron_next _ sample_1).
  - apply (cron_next _ sample_0).
    + apply cron_init; [intros jobs H; discriminate H|discriminate].
    + apply step_add. refine (bool_decide_unpack (¬ _) _). vm_compute. exact I.
  - apply step_add. refine (bool_decide_unpack (¬ _) _). vm_compute. exact I.
Defined.

(** An interval so long that the next run overflows is accepted, and the job
    then runs on every tick: its next run wraps to a negative time, is due at
    once, and is due again at once after each run.  And a one-time job whose
    time passes while the service is down never runs: after the restart it is
    still enabled, but without a next run. *)
Lemma schedule_edge_cases :
  (let cs := (AddJob every_minute 1 "a" Saved "rare" (every_schedule int64_max) "" true "" ""
               (NewCronService NoFile)).2 in
   ∀ now clock, 0 < now <= 1_000_000_000_000_000 →
     (∀ id, now <= rc_now (clock id) <= 1_000_000_000_000_000) →
     let cs := mk_CronService (c_jobs cs) true (c_file cs) in
     (collect_due now cs).1 = ["a"]
     ∧ (collect_due now (checkJobs every_minute now clock Saved None (cs, ())).1).1 = ["a"])
  ∧ (let cs := (AddJob every_minute 1 "a" Saved "once"
                  (mk_CronSchedule "at" (Some 5000) None "" "") "" true "" ""
                  (NewCronService NoFile)).2 in
     let cs' := (Start every_minute 6000 Saved (NewCronService (c_file cs))).2 in
     map j_Enabled (c_jobs cs') = [true] ∧ getNextWakeMS cs' = None
     ∧ ∀ now, (collect_due now cs').1 = []).
Proof.
  assert (∀ t, 0 < t <= 1_000_000_000_000_000 → wrap64 (t + int64_max) = t + int64_max - 2^64) as Hw.
  { intros t Ht. unfold wrap64, int64_max.
    rewrite <-(Z.mod_unique (t + (2^63 - 1) + 2^63) (2^64) 1 (t - 1)); lia. }
  split.
  - intros cs now clock Hnow Hclock. unfold cs. simpl. unfold collect_due, due. simpl.
    change (every_schedule int64_max) with (mk_CronSchedule "every" None (Some int64_max) "" "").
    assert (∀ t, 0 < t <= 1_000_000_000_000_000 →
      computeNextRun every_minute (every_schedule int64_max) t = Some (t + int64_max - 2^64)) as Hc.
    { intros t Ht. unfold computeNextRun. simpl. by rewrite Hw. }
    assert (∀ t, 0 < t <= 1_000_000_000_000_000 → t + int64_max - 2^64 <=? now = true) as Hle.
    { intros t Ht. apply Z.leb_le. unfold int64_max. lia. }
    split.
    + by rewrite (Hw 1), (Hle 1).
    + unfold checkJobs, collect_due, due. simpl. rewrite (Hw 1), (Hle 1) by done. simpl.
      unfold executeJobByID, find_job. simpl. unfold finish_job, find_job. simpl.
      assert (0 < rc_now (clock "a") <= 1_000_000_000_000_000) as Hn.
      { specialize (Hclock "a"). lia. }
      by rewrite (Hw _ Hn), (Hle _ Hn).
  - split_and!; [reflexivity|reflexivity|]. intros now. reflexivity.
Qed.
