(* ===== verification/CronTool.v ===== *)
(** * The scheduling tool (pkg/tools/cron.go)

    The tool with which the model adds, lists, removes and switches scheduled
    jobs of the cron service ([Cron]), and the handler that runs a due job: a
    shell command ([ShellTool]), a message to the chat, or a turn of the agent.
    Numbers of the arguments are whole; the clock readings, the new identifier
    and the outcomes of the two saves of one call are arguments. *)
From stdpp Require Import base gmap strings list pretty.
From Stdlib Require Import Ascii ZArith Lia.
From S2P Require Import Prelude GoStrings ProviderTypes ToolBase Bus SplitMessage Cron FileTools ShellTool.
#[local] Open Scope Z_scope.

(** ** The tool *)
Record CronTool := mk_CronTool {
  ct_execTool : ExecTool;
  ct_channel : string;
  ct_chatID : string;
}.

Definition NewCronTool (Compile : string → result string Regex.re) (workspace : string)
    (restrict : bool) (execTimeout : duration) (config : option ExecConfig) : CronTool :=
  mk_CronTool (SetTimeout (NewExecToolWithConfig Compile workspace restrict config) execTimeout) "" "".

Definition SetContext (channel chatID : string) (t : CronTool) : CronTool :=
  mk_CronTool (ct_execTool t) channel chatID.

(** What one call reads from outside: the clock of the tool, of [AddJob] and of
    [UpdateJob] or [EnableJob], the new identifier, and how the saves end (the
    text: the error of a failed save). *)
Record call_env := mk_call_env {
  e_now : Z;
  e_add : Z;
  e_update : Z;
  e_id : string;
  e_saved : save_outcome;
  e_saved2 : save_outcome;
  e_save_error : string;
}.

Section tool.
Context (NextTickAfter : string → Z → option Z).

(** [args[k].(float64)]. *)
Definition arg_num (args : gmap string json) (k : string) : option Z :=
  match args !! k with Some (JNum n) => Some n | _ => None end.

(** at_seconds before every_seconds before cron_expr. *)
Definition schedule_of (now : Z) (args : gmap string json) : option CronSchedule :=
  match arg_num args "at_seconds", arg_num args "every_seconds", arg_string args "cron_expr" with
  | Some atSeconds, _, _ =>
      Some (mk_CronSchedule "at" (Some (wrap64 (now + wrap64 (atSeconds * 1000)))) None "" "")
  | None, Some everySeconds, _ =>
      Some (mk_CronSchedule "every" None (Some (wrap64 (everySeconds * 1000))) "" "")
  | None, None, Some cronExpr => Some (mk_CronSchedule "cron" None None cronExpr "")
  | None, None, None => None
  end.

Definition with_command (job : CronJob) (command : string) : CronJob :=
  let p := j_Payload job in
  mk_CronJob (j_ID job) (j_Name job) (j_Enabled job) (j_Schedule job)
    (mk_CronPayload (cp_Kind p) (cp_Message p) command (cp_Deliver p) (cp_Channel p) (cp_To p))
    (j_State job) (j_CreatedAtMS job) (j_UpdatedAtMS job) (j_DeleteAfterRun job).

Definition deliver_of (args : gmap string json) : bool :=
  if bool_decide (arg_string_or_empty args "command" ≠ "") then false
  else match args !! "deliver" with Some (JBool d) => d | _ => true end.

Definition addJob (e : call_env) (t : CronTool) (args : gmap string json) (cs : CronService) :
    ToolResult * CronService :=
  let channel := ct_channel t in
  let chatID := ct_chatID t in
  if bool_decide (channel = "") || bool_decide (chatID = "")
  then (ErrorResult "no session context (channel/chat_id not set). Use this tool in an active conversation.", cs)
  else
    let message := arg_string_or_empty args "message" in
    if bool_decide (message = "") then (ErrorResult "message is required for add", cs)
    else
      match schedule_of (e_now e) args with
      | None => (ErrorResult "one of at_seconds, every_seconds, or cron_expr is required", cs)
      | Some schedule =>
          let command := arg_string_or_empty args "command" in
          match AddJob NextTickAfter (e_add e) (e_id e) (e_saved e) (Truncate message 30) schedule
                  message (deliver_of args) channel chatID cs with
          | (Err _, cs) => (ErrorResult ("Error adding job: " +:+ e_save_error e), cs)
          | (Ok job, cs) =>
              let cs := if bool_decide (command ≠ "")
                        then (UpdateJob (e_update e) (e_saved2 e) (with_command job command) cs).2
                        else cs in
              (SilentResult ("Cron job added: " +:+ j_Name job +:+ " (id: " +:+ j_ID job +:+ ")"), cs)
          end
      end.

Definition schedule_info (s : CronSchedule) : string :=
  match bool_decide (cs_Kind s = "every"), cs_EveryMS s with
  | true, Some every => "every " +:+ pretty (Z.quot every 1000) +:+ "s"
  | _, _ =>
      if bool_decide (cs_Kind s = "cron") then cs_Expr s
      else if bool_decide (cs_Kind s = "at") then "one-time"
      else "unknown"
  end.

Definition job_line (j : CronJob) : string :=
  "- " +:+ j_Name j +:+ " (id: " +:+ j_ID j +:+ ", " +:+ schedule_info (j_Schedule j) +:+ ")"
  +:+ String newline_char "".

Definition listJobs (cs : CronService) : ToolResult :=
  match ListJobs false cs with
  | [] => SilentResult "No scheduled jobs"
  | jobs => SilentResult ("Scheduled jobs:" +:+ String newline_char (join "" (job_line <$> jobs)))
  end.

Definition removeJob (e : call_env) (args : gmap string json) (cs : CronService) :
    ToolResult * CronService :=
  let jobID := arg_string_or_empty args "job_id" in
  if bool_decide (jobID = "") then (ErrorResult "job_id is required for remove", cs)
  else
    let '(removed, cs) := RemoveJob (e_saved e) jobID cs in
    (if removed then SilentResult ("Cron job removed: " +:+ jobID)
     else ErrorResult ("Job " +:+ jobID +:+ " not found"), cs).

Definition enableJob (e : call_env) (args : gmap string json) (enable : bool) (cs : CronService) :
    ToolResult * CronService :=
  let jobID := arg_string_or_empty args "job_id" in
  if bool_decide (jobID = "") then (ErrorResult "job_id is required for enable/disable", cs)
  else
    match EnableJob NextTickAfter (e_update e) (e_now e) (e_saved e) jobID enable cs with
    | (None, cs) => (ErrorResult ("Job " +:+ jobID +:+ " not found"), cs)
    | (Some job, cs) =>
        (SilentResult ("Cron job '" +:+ j_Name job +:+ "' " +:+ (if enable then "enabled" else "disabled")),
         cs)
    end.

Definition Execute (e : call_env) (t : CronTool) (args : gmap string json) (cs : CronService) :
    ToolResult * CronService :=
  match arg_string args "action" with
  | None => (ErrorResult "action is required", cs)
  | Some action =>
      if bool_decide (action = "add") then addJob e t args cs
      else if bool_decide (action = "list") then (listJobs cs, cs)
      else if bool_decide (action = "remove") then removeJob e args cs
      else if bool_decide (action = "enable") then enableJob e args true cs
      else if bool_decide (action = "disable") then enableJob e args false cs
      else (ErrorResult ("unknown action: " +:+ action), cs)
  end.
End tool.

(** ** Running a due job *)
Section run.
Context {W : Type} (fs_of : W → fsys) (getwd : result string string).
Context (sh : duration → string → string → W → proc * W).
(** [JobExecutor]: content, session key, channel and chat. *)
Context (ProcessDirectWithChannel : string → string → string → string → W → result string string * W).

(** [ExecuteJob]: its text, the messages it publishes, and the state. *)
Definition ExecuteJob (t : CronTool) (job : CronJob) (w : W) :
    string * list OutboundMessage * W :=
  let p := j_Payload job in
  let channel := if bool_decide (cp_Channel p = "") then "cli" else cp_Channel p in
  let chatID := if bool_decide (cp_To p = "") then "direct" else cp_To p in
  if bool_decide (cp_Command p ≠ "") then
    let '(result, w) :=
      ShellTool.Execute fs_of getwd sh (ct_execTool t) {[ "command" := JStr (cp_Command p) ]} w in
    let output :=
      if IsError result then "Error executing scheduled command: " +:+ ForLLM result
      else "Scheduled command '" +:+ cp_Command p +:+ "' executed:"
           +:+ String newline_char (ForLLM result) in
    ("ok", [mk_OutboundMessage channel chatID output], w)
  else if cp_Deliver p then ("ok", [mk_OutboundMessage channel chatID (cp_Message p)], w)
  else
    match ProcessDirectWithChannel (cp_Message p) ("cron-" +:+ j_ID job) channel chatID w with
    | (Err err, w) => ("Error: " +:+ err, [], w)
    | (Ok _, w) => ("ok", [], w)
    end.

(** The handler the gateway installs ([setupCronTool]): it never answers an
    error to the service. *)
Definition on_job (t : CronTool) (job : CronJob) (w : W) :
    result string string * list OutboundMessage * W :=
  let '(text, out, w) := ExecuteJob t job w in (Ok text, out, w).
End run.

(** ** Properties *)
Section properties.
Context (NextTickAfter : string → Z → option Z).
Implicit Types (e : call_env) (t : CronTool) (cs : CronService).

(** The job a successful call makes. *)
Definition made_job e t (args : gmap string json) (schedule : CronSchedule) : CronJob :=
  let command := arg_string_or_empty args "command" in
  mk_CronJob (e_id e) (Truncate (arg_string_or_empty args "message") 30) true schedule
    (mk_CronPayload "agent_turn" (arg_string_or_empty args "message") command (deliver_of args)
       (ct_channel t) (ct_chatID t))
    (mk_CronJobState (computeNextRun NextTickAfter schedule (e_add e)) None "" "")
    (e_add e) (if bool_decide (command ≠ "") then e_update e else e_add e)
    (bool_decide (cs_Kind schedule = "at")).

Lemma update_first_last id f jobs j :
  id ∉ (j_ID <$> jobs) → j_ID j = id → update_first id f (jobs ++ [j]) = Some (jobs ++ [f j]).
Proof.
  intros Hn Hj. induction jobs as [|x jobs IH]; cbn [update_first app].
  - by rewrite bool_decide_eq_true_2.
  - rewrite fmap_cons in Hn. apply not_elem_of_cons in Hn as [Hx Hn].
    rewrite bool_decide_eq_false_2 by congruence. by rewrite IH.
Qed.

(** Adding a job: without a chat, a message or a schedule the service is
    not touched and the model is told so; otherwise, when the saves succeed and
    the identifier is new, exactly one job is appended, with the schedule of the
    first of at_seconds, every_seconds and cron_expr, for the chat of the call,
    the command kept with it (and then never delivered as a message), and the
    file holds the jobs in memory. *)
Lemma addJob_spec e t args cs :
  e_saved e = Saved → e_saved2 e = Saved → e_id e ∉ ids cs →
  let r := addJob NextTickAfter e t args cs in
  if bool_decide (ct_channel t = "") || bool_decide (ct_chatID t = "")
     || bool_decide (arg_string_or_empty args "message" = "")
     || bool_decide (schedule_of (e_now e) args = None)
  then IsError r.1 = true ∧ r.2 = cs
  else ∃ schedule, schedule_of (e_now e) args = Some schedule
    ∧ IsError r.1 = false
    ∧ c_jobs r.2 = c_jobs cs ++ [made_job e t args schedule]
    ∧ c_file r.2 = StoreFile (c_jobs r.2)
    ∧ (arg_string_or_empty args "command" ≠ "" → cp_Deliver (j_Payload (made_job e t args schedule)) = false).
Proof.
  intros Hs1 Hs2 Hid r. subst r. unfold addJob. cbv zeta.
  destruct (bool_decide (ct_channel t = "") || bool_decide (ct_chatID t = "")); cbn [orb]; [done|].
  destruct (bool_decide (arg_string_or_empty args "message" = "")); cbn [orb]; [done|].
  destruct (schedule_of (e_now e) args) as [schedule|] eqn:Hsch;
    [rewrite bool_decide_eq_false_2 by done|by rewrite bool_decide_eq_true_2].
  exists schedule. split; [done|]. unfold AddJob. rewrite Hs1. cbn [saveStoreUnsafe set_jobs c_jobs c_running].
  unfold made_job, deliver_of.
  destruct (bool_decide (arg_string_or_empty args "command" ≠ "")) eqn:Hc.
  - unfold UpdateJob. cbn [c_jobs with_command j_ID]. rewrite update_first_last by done.
    rewrite Hs2. cbn. split_and!; done.
  - bool_nums. cbn. split_and!; try done. 
    destruct (decide (arg_string_or_empty args "command" = "")) as [->|]; [done|by destruct Hc].
Qed.
End properties.

Definition no_ticks (_ : string) (_ : Z) : option Z := None.
Definition demo_env : call_env := mk_call_env 1000 1000 1001 "ab12" Saved Saved "".
Definition demo_tool : CronTool := SetContext "telegram" "7" (NewCronTool (λ _, Err "") "/w" true minute None).
Definition demo_args : gmap string json :=
  {[ "action" := JStr "add"; "message" := JStr "disk report"; "command" := JStr "df -h";
     "every_seconds" := JNum 3600 ]}.
Definition demo_service : CronService := NewCronService NoFile.

Lemma addJob_spec_witness :
  e_id demo_env ∉ ids demo_service ∧
  ∃ schedule, schedule_of 1000 demo_args = Some schedule
    ∧ c_jobs (addJob no_ticks demo_env demo_tool demo_args demo_service).2
      = [] ++ [made_job no_ticks demo_env demo_tool demo_args schedule].
Proof.
  assert (e_id demo_env ∉ ids demo_service) as Hid by apply not_elem_of_nil.
  split; [exact Hid|].
  destruct (addJob_spec no_ticks demo_env demo_tool demo_args demo_service eq_refl eq_refl Hid)
    as (schedule & Hsch & _ & Hjobs & _). exists schedule. by split.
Defined.

Section run_properties.
Context {W : Type} (fs_of : W → fsys) (getwd : result string string).
Context (sh : duration → string → string → W → proc * W).
Implicit Types (pd : string → string → string → string → W → result string string * W).

Definition job_chat (job : CronJob) : string * string :=
  let p := j_Payload job in
  (if bool_decide (cp_Channel p = "") then "cli" else cp_Channel p,
   if bool_decide (cp_To p = "") then "direct" else cp_To p).

(** Running a job with a command: the agent is not asked (any two
    executors give the same); one message goes to the chat of the job; a command
    the guard refuses is not run and the message says why; one it admits is run
    once, in the directory of the tool, and the message shows what it printed. *)
Lemma scheduled_command_guarded pd t job w :
  cp_Command (j_Payload job) ≠ "" →
  ∃ text w', (∀ pd', ExecuteJob fs_of getwd sh pd' t job w
                     = ("ok", [mk_OutboundMessage (job_chat job).1 (job_chat job).2 text], w'))
    ∧ ExecuteJob fs_of getwd sh pd t job w
      = ("ok", [mk_OutboundMessage (job_chat job).1 (job_chat job).2 text], w')
    ∧ match admit_command getwd (ct_execTool t) {[ "command" := JStr (cp_Command (j_Payload job)) ]} (fs_of w) with
      | Err why => w' = w ∧ text = "Error executing scheduled command: " +:+ why
      | Ok (command, dir) =>
          command = cp_Command (j_Payload job)
          ∧ (workingDir (ct_execTool t) ≠ "" → dir = workingDir (ct_execTool t))
          ∧ w' = (sh (Z.max 0 (timeout (ct_execTool t))) command dir w).2
          ∧ ∃ prefix, text = prefix +:+ ForLLM (command_result (timeout (ct_execTool t))
                                           (sh (Z.max 0 (timeout (ct_execTool t))) command dir w).1)
      end.
Proof.
  intros Hc. set (args := {[ "command" := JStr _ ]} : gmap string json).
  pose (r := ShellTool.Execute fs_of getwd sh (ct_execTool t) args w).
  assert (∀ pd', ExecuteJob fs_of getwd sh pd' t job w =
    ("ok", [mk_OutboundMessage (job_chat job).1 (job_chat job).2
              (if IsError r.1 then "Error executing scheduled command: " +:+ ForLLM r.1
               else "Scheduled command '" +:+ cp_Command (j_Payload job) +:+ "' executed:"
                    +:+ String newline_char (ForLLM r.1))], r.2)) as Hex.
  { intros pd'. unfold ExecuteJob. rewrite bool_decide_eq_true_2 by done.
    change (ShellTool.Execute fs_of getwd sh (ct_execTool t) {[ "command" := JStr (cp_Command (j_Payload job)) ]} w) with r.
    by destruct r. }
  eexists _, _. split; [exact Hex|]. split; [apply Hex|].
  unfold r, ShellTool.Execute. destruct (admit_command _ _ _ _) as [[command dir]|why] eqn:Ea; [|done].
  destruct (sh _ command dir w) as [p w'] eqn:Esh.
  apply admit_default_dir in Ea as [-> Hdir]. split_and!; [done|done|done|].
  cbn [fst]. destruct (IsError (command_result _ p)); [by eexists|].
  exists ("Scheduled command '" +:+ cp_Command (j_Payload job) +:+ "' executed:" +:+ String newline_char "").
  apply (inj chars). by rewrite !chars_app, <-!app_assoc.
Qed.
End run_properties.

Definition demo_job : CronJob :=
  mk_CronJob "1" "sweep" true (mk_CronSchedule "every" None (Some 1000) "" "")
    (mk_CronPayload "agent_turn" "sweep" "rm -rf /w/tmp" false "telegram" "7")
    (mk_CronJobState None None "" "") 0 0 false.

Lemma scheduled_command_guarded_witness :
  cp_Command (j_Payload demo_job) ≠ "" ∧
  ∃ text w', ExecuteJob (λ _, ∅) (Ok "/") (λ _ _ _ n, (NotStarted "", S n)) (λ _ _ _ _ n, (Ok "", n))
               demo_tool demo_job 0%nat
             = ("ok", [mk_OutboundMessage "telegram" "7" text], w').
Proof.
  assert (cp_Command (j_Payload demo_job) ≠ "") as Hc by (intros H; discriminate H).
  split; [exact Hc|].
  destruct (scheduled_command_guarded (λ _, ∅) (Ok "/") (λ _ _ _ n, (NotStarted "", S n))
              (λ _ _ _ _ n, (Ok "", n)) demo_tool demo_job 0%nat Hc) as (text & w' & _ & H & _).
  exists text, w'. exact H.
Defined.

(** ** What the tool reports and what happens *)

(** A job whose schedule has no run ahead (an interval of no seconds, a time not
    in the future, an expression without a next tick) is added and reported like
    any other, and never due. *)
Lemma made_job_never_due NextTickAfter e t args schedule now :
  computeNextRun NextTickAfter schedule (e_add e) = None →
  due now (made_job NextTickAfter e t args schedule) = false.
Proof. intros Hn. unfold due, made_job. cbn. by rewrite Hn. Qed.

Lemma zero_interval_added :
  let args : gmap string json := {[ "message" := JStr "water"; "every_seconds" := JNum 0 ]} in
  let r := addJob no_ticks demo_env demo_tool args demo_service in
  IsError r.1 = false ∧ (js_NextRunAtMS ∘ j_State) <$> c_jobs r.2 = [None].
Proof. split; vm_compute; reflexivity. Qed.

(** When at_seconds is given with every_seconds, the job runs once. *)
Lemma at_wins_over_every NextTickAfter e n m :
  let args : gmap string json := {[ "at_seconds" := JNum n; "every_seconds" := JNum m ]} in
  ∃ s, schedule_of (e_now e) args = Some s ∧ cs_Kind s = "at"
    ∧ (n <= 0 → in_int64 (e_now e + n * 1000) → in_int64 (n * 1000) → e_now e <= e_add e →
       computeNextRun NextTickAfter s (e_add e) = None).
Proof.
  eexists. split; [reflexivity|]. split; [done|]. intros Hn H1 H2 Hle.
  unfold computeNextRun. cbn. rewrite (wrap64_id (n * 1000)), wrap64_id by done.
  rewrite (proj2 (Z.ltb_ge _ _)) by lia. done.
Qed.

(** The job of a call that reports a failed save is in memory all the same, and
    will run. *)
Lemma failed_add_stays NextTickAfter now id f name sch msg dl ch to cs :
  ∃ job, (AddJob NextTickAfter now id (SaveFailed f) name sch msg dl ch to cs).1 = Err tt
    ∧ c_jobs (AddJob NextTickAfter now id (SaveFailed f) name sch msg dl ch to cs).2 = c_jobs cs ++ [job]
    ∧ j_ID job = id ∧ j_Enabled job = true.
Proof. by eexists. Qed.

(** A failed turn of the agent is recorded as a success of the job, because the
    handler answers no error. *)
Lemma agent_failure_recorded_ok {W} (fs_of : W → fsys) getwd sh pd t job w c j' :
  match (on_job fs_of getwd sh pd t job w).1.1 with
  | Ok _ => after_run no_ticks c None job | Err e => after_run no_ticks c (Some e) job end = Some j' →
  js_LastStatus (j_State j') = "ok".
Proof.
  unfold on_job. destruct (ExecuteJob _ _ _ _ _ _ _) as [[text out] w']. cbn.
  unfold after_run. repeat case_bool_decide; repeat case_match; intros; by simplify_eq.
Qed.

(** The list shows no disabled job, so its identifier, needed to enable it, is
    no longer to be had from the tool. *)
Lemma disabled_jobs_not_listed cs :
  (∀ j, j ∈ c_jobs cs → j_Enabled j = false) → listJobs cs = SilentResult "No scheduled jobs".
Proof.
  intros H. unfold listJobs, ListJobs. assert (List.filter j_Enabled (c_jobs cs) = []) as ->; [|done].
  induction (c_jobs cs) as [|j l IH]; [done|]. cbn. rewrite (H j) by set_solver.
  apply IH. intros; apply H; set_solver.
Qed.
