(* ===== verification/CommandLine.v ===== *)
(** * The command line (cmd/tinyclaw/internal)

    What commands do besides printing: logging in and out with the changes of the
    configuration, the state of the credentials, the loop of a chat, jobs that are added
    and pieces of the gateway.  Logins of [Auth] and the configuration that loading gives
    are arguments; what a command saves is part of its outcome. *)
From stdpp Require Import base gmap strings list pretty fin_maps.
From Stdlib Require Import Ascii ZArith Lia.
From coqutil Require Import Datatypes.RecordSetters.
From S2P Require Import Prelude GoStrings ProviderTypes ToolBase Bus StateManager Agents Config Auth TokenSources ProviderFactory Heartbeat Cron.
Import TriangleBracketNotations.
#[local] Open Scope go_scope.
#[local] Open Scope nat_scope.

(** ** The configuration (helpers.go) *)

(** [dhall]: what loading the Dhall file gives, [None] when there is no such file. *)
Definition LoadConfig_cli (dhall : option (result string Config)) (json : result string Config) :
    result string Config :=
  match dhall with
  | Some (Ok cfg) => Ok cfg
  | Some (Err e) => if bool_decide (e = "dhall-to-json not available") then json else Err ("error loading dhall config: " +:+ e)
  | None => json
  end.

(** ** Logging in (auth/helpers.go) *)
Definition isAntigravityModel (model : string) : bool :=
  bool_decide (model = "antigravity") || bool_decide (model = "google-antigravity")
  || has_prefix model "antigravity/" || has_prefix model "google-antigravity/".
Definition isOpenAIModel (model : string) : bool := bool_decide (model = "openai") || has_prefix model "openai/".
Definition isAnthropicModel (model : string) : bool := bool_decide (model = "anthropic") || has_prefix model "anthropic/".

Definition set_method (method : string) (m : ModelConfig) : ModelConfig := m <|mdl_AuthMethod := method|>.

(** The first entry of a provider gets a method, or an entry is added at the end. *)
Fixpoint update_entry (p : string → bool) (method : string) (new : ModelConfig) (l : list ModelConfig) : list ModelConfig :=
  match l with
  | [] => [new]
  | m :: l => if p (mdl_Model m) then set_method method m :: l else m :: update_entry p method new l
  end.

Definition new_entry (name model method : string) : ModelConfig := mk_ModelConfig name model "" "" "" method "" "" 0 "".

Definition record_login (p : string → bool) (name model method : string) (cfg : Config) : Config :=
  cfg <|cfg_ModelList ::= update_entry p method (new_entry name model method)|>
      <|cfg_Defaults -> ad_ModelName := name|>.

(** The method in the settings of the providers. *)
Definition openai_method (method : string) (cfg : Config) : Config :=
  cfg <|cfg_Providers -> p_OpenAI ::= λ o, mk_OpenAIProviderConfig ((oc_ProviderConfig o) <|pc_AuthMethod := method|>) (oc_WebSearch o)|>.
Definition anthropic_method (method : string) (cfg : Config) : Config :=
  cfg <|cfg_Providers -> p_Anthropic -> pc_AuthMethod := method|>.
Definition antigravity_method (method : string) (cfg : Config) : Config :=
  cfg <|cfg_Providers -> p_Antigravity -> pc_AuthMethod := method|>.

(** What a command leaves: an error, the credentials, and the configuration that it
    saves, if it saves one. *)
Record outcome := mk_outcome {
  ot_error : option string;
  ot_store : auth_file;
  ot_saved : option Config;
}.

(** What commands are run on: faults of saving the credentials and the configuration,
    and the configuration as it is loaded. *)
Record setting := mk_setting {
  st_fault : save_fault;
  st_save : option string;
  st_config : result string Config;
}.

(** The part that the logins share: the credential is stored, and a configuration that
    can be loaded is changed and saved; [strict] when failing to save it is an error. *)
Definition finish_login (S : setting) (strict : bool) (name : string) (login : result string AuthCredential)
    (change : Config → Config) (f : auth_file) : outcome :=
  match login with
  | Err e => mk_outcome (Some ("login failed: " +:+ e)) f None
  | Ok cred =>
      match SetCredential (st_fault S) name (Some cred) f with
      | (Err e, f) => mk_outcome (Some ("failed to save credentials: " +:+ e)) f None
      | (Ok _, f) =>
          match st_config S with
          | Err _ => mk_outcome None f None
          | Ok cfg =>
              mk_outcome (match st_save S with
                          | Some e => if strict then Some ("could not update config: " +:+ e) else None
                          | None => None
                          end) f (Some (change cfg))
          end
      end
  end.

Definition authLoginOpenAI (S : setting) (useDeviceCode : bool) (device browser : result string AuthCredential)
    (f : auth_file) : outcome :=
  finish_login S true "openai" (if useDeviceCode then device else browser)
    (λ cfg, record_login isOpenAIModel "gpt-5.2" "openai/gpt-5.2" "oauth" (openai_method "oauth" cfg)) f.

(** [get] is the answer of the service that tells who has a token: a status and a body. *)
Definition fetchGoogleUserEmail (get : string → result string (Z * string)) (email_of_json : string → result string string)
    (accessToken : string) : result string string :=
  match get accessToken with
  | Err e => Err e
  | Ok (status, body) =>
      if negb (status =? 200)%Z then Err ("userinfo request failed: " +:+ body) else email_of_json body
  end.

Definition set_Provider (c : AuthCredential) (p : string) : AuthCredential := c <|cr_Provider := p|>.

Definition authLoginGoogleAntigravity (S : setting) (get : string → result string (Z * string))
    (email_of_json : string → result string string) (loadCodeAssist : string → result string (Z * string))
    (project_of_json : string → result string string) (browser : result string AuthCredential) (f : auth_file) : outcome :=
  let login :=
    match browser with
    | Err e => Err e
    | Ok cred =>
        let cred := set_Provider cred "google-antigravity" in
        let cred := match fetchGoogleUserEmail get email_of_json (cr_AccessToken cred) with
                    | Ok email => set_Email cred email | Err _ => cred end in
        let cred := match FetchAntigravityProjectID loadCodeAssist project_of_json (cr_AccessToken cred) with
                    | Ok id => set_ProjectID cred id | Err _ => cred end in
        Ok cred
    end in
  finish_login S false "google-antigravity" login
    (λ cfg, record_login isAntigravityModel "gemini-flash" "antigravity/gemini-3-flash" "oauth" (antigravity_method "oauth" cfg)) f.

Definition authLoginPasteToken (S : setting) (provider : string) (scan : result string (option string)) (f : auth_file) : outcome :=
  finish_login S true provider (LoginPasteToken provider scan)
    (λ cfg,
      if bool_decide (provider = "anthropic") then
        record_login isAnthropicModel "claude-sonnet-4.6" "anthropic/claude-sonnet-4.6" "token" (anthropic_method "token" cfg)
      else if bool_decide (provider = "openai") then
        record_login isOpenAIModel "gpt-5.2" "openai/gpt-5.2" "token" (openai_method "token" cfg)
      else cfg) f.

(** ** Logging out *)
Definition models_of_provider (provider model : string) : bool :=
  if bool_decide (provider = "openai") then isOpenAIModel model
  else if bool_decide (provider = "anthropic") then isAnthropicModel model
  else if bool_decide (provider = "google-antigravity") || bool_decide (provider = "antigravity") then isAntigravityModel model
  else false.

Definition clear_methods (p : string → bool) (cfg : Config) : Config :=
  cfg <|cfg_ModelList ::= fmap (λ m, if p (mdl_Model m) then set_method "" m else m)|>.

Definition clear_provider (provider : string) (cfg : Config) : Config :=
  if bool_decide (provider = "openai") then openai_method "" cfg
  else if bool_decide (provider = "anthropic") then anthropic_method "" cfg
  else if bool_decide (provider = "google-antigravity") || bool_decide (provider = "antigravity") then antigravity_method "" cfg
  else cfg.

(** [remove_err]: the error of removing the file of the credentials.  A failure to save
    the configuration is not noticed. *)
Definition authLogoutCmd (S : setting) (remove_err : option string) (provider : string) (f : auth_file) : outcome :=
  let '(removed, change) :=
    if negb (bool_decide (provider = "")) then
      (DeleteCredential (st_fault S) provider f,
       λ cfg, clear_provider provider (clear_methods (models_of_provider provider) cfg))
    else
      (DeleteAllCredentials remove_err f,
       λ cfg, antigravity_method "" (anthropic_method "" (openai_method "" (clear_methods (λ _, true) cfg)))) in
  match removed with
  | (Err e, f) => mk_outcome (Some ("failed to remove credentials: " +:+ e)) f None
  | (Ok _, f) => mk_outcome None f (match st_config S with Ok cfg => Some (change cfg) | Err _ => None end)
  end.

(** ** The credentials *)
Inductive status_listing :=
| StatusFails (e : string)
| NoneAuthenticated
| StatusPanics
| Authenticated (l : list (string * string * string)).

Definition credential_status (now : time) (c : AuthCredential) : string :=
  if IsExpired now c then "expired" else if NeedsRefresh now c then "needs refresh" else "active".

(** The names, methods and statuses, in the order in which the map is iterated: a nil
    pointer in it panics. *)
Fixpoint list_credentials (now : time) (l : list (string * option AuthCredential)) : option (list (string * string * string)) :=
  match l with
  | [] => Some []
  | (_, None) :: _ => None
  | (name, Some c) :: l => cons (name, cr_AuthMethod c, credential_status now c) <$> list_credentials now l
  end.

Definition authStatusCmd (now : time) (order : gmap string (option AuthCredential) → list (string * option AuthCredential))
    (f : auth_file) : status_listing :=
  match LoadStore f with
  | Err e => StatusFails ("failed to load auth store: " +:+ e)
  | Ok creds =>
      if bool_decide (creds = ∅) then NoneAuthenticated
      else match list_credentials now (order creds) with Some l => Authenticated l | None => StatusPanics end
  end.

Inductive model_listing :=
| ModelsFail (e : string)
| ModelsPanic
| ModelsAre (l : list (string * bool)).

(** [refresh] and [fetch] are [RefreshAccessToken] for Google and
    [FetchAntigravityModels]. *)
Definition authModelsCmd (now : time) (refresh : AuthCredential → result string AuthCredential)
    (fetch : string → string → result string (list AntigravityModelInfo)) (fault : save_fault) (f : auth_file) :
    model_listing * auth_file :=
  match GetCredential "google-antigravity" f with
  | Err _ =>
      (ModelsFail (join (String newline_char "") ["not logged in to Google Antigravity.";
         "run: tinyclaw auth login --provider google-antigravity"]), f)
  | Ok None => (ModelsPanic, f)
  | Ok (Some cred) =>
      let '(cred, f) :=
        if NeedsRefresh now cred && negb (bool_decide (cr_RefreshToken cred = "")) then
          match refresh cred with
          | Ok refreshed => (refreshed, (SetCredential fault "google-antigravity" (Some refreshed) f).2)
          | Err _ => (cred, f)
          end
        else (cred, f) in
      if bool_decide (cr_ProjectID cred = "") then (ModelsFail "no project id stored. Try logging in again", f)
      else
        (match fetch (cr_AccessToken cred) (cr_ProjectID cred) with
         | Err e => ModelsFail ("error fetching models: " +:+ e)
         | Ok models =>
             if bool_decide (length models = 0) then ModelsFail "no models available"
             else ModelsAre
               ((λ m, (if bool_decide (mi_DisplayName m = "") then mi_ID m
                       else mi_ID m +:+ " (" +:+ mi_DisplayName m +:+ ")", negb (mi_IsExhausted m))) <$> models)
         end, f)
  end.

(** The providers that the status command names, and whether they are set up. *)
Definition provider_status (p : ProvidersConfig) : list (string * bool) :=
  let key c := negb (bool_decide (pc_APIKey c = "")) in
  let base c := negb (bool_decide (pc_APIBase c = "")) in
  [("OpenRouter API", key (p_OpenRouter p)); ("Anthropic API", key (p_Anthropic p));
   ("OpenAI API", key (oc_ProviderConfig (p_OpenAI p))); ("Gemini API", key (p_Gemini p));
   ("Zhipu API", key (p_Zhipu p)); ("Qwen API", key (p_Qwen p)); ("Groq API", key (p_Groq p));
   ("Moonshot API", key (p_Moonshot p)); ("DeepSeek API", key (p_DeepSeek p));
   ("VolcEngine API", key (p_VolcEngine p)); ("Nvidia API", key (p_Nvidia p));
   ("vLLM/Local", base (p_VLLM p)); ("Ollama", base (p_Ollama p))].

(** ** Chatting (agent/helpers.go) *)
Section chat.
(** The agent loop, and what processing a message in the session does to it. *)
Context {W : Type} (process : string → W → result string string * W).

Inductive input_read := Line (line : string) | InputEnds | InputFails (e : string).
Inductive shown := Response (text : string) | ShownError (e : string) | ReadingError (e : string) | Goodbye.

(** Both loops, on the reads to come: an interrupt ends the one of [readline], like the
    end of the input. *)
Fixpoint interactive (reads : list input_read) (w : W) : list shown * W :=
  match reads with
  | [] => ([], w)
  | InputEnds :: _ => ([Goodbye], w)
  | InputFails e :: reads => let '(l, w) := interactive reads w in (ReadingError e :: l, w)
  | Line line :: reads =>
      let input := trim_space line in
      if bool_decide (input = "") then interactive reads w
      else if bool_decide (input = "exit") || bool_decide (input = "quit") then ([Goodbye], w)
      else
        let '(r, w) := process input w in
        let '(l, w) := interactive reads w in
        ((match r with Ok text => Response text | Err e => ShownError e end) :: l, w)
  end.

(** The texts that a chat asks: those of its lines before the first that ends it. *)
Fixpoint asked (reads : list input_read) : list string :=
  match reads with
  | [] => []
  | InputEnds :: _ => []
  | InputFails _ :: reads => asked reads
  | Line line :: reads =>
      let input := trim_space line in
      if bool_decide (input = "") then asked reads
      else if bool_decide (input ∈ ["exit"; "quit"]) then [] else input :: asked reads
  end.

Lemma interactive_asks reads w : (interactive reads w).2 = foldl (λ w t, (process t w).2) w (asked reads).
Proof.
  revert w. induction reads as [|[line| |e] reads IH]; intros w; cbn [interactive asked]; [done| |done|].
  - case_bool_decide as Hb; [done|]. rewrite <- bool_decide_or.
    rewrite (bool_decide_ext (trim_space line ∈ ["exit"; "quit"]) (trim_space line = "exit" ∨ trim_space line = "quit"))
      by set_solver.
    case_bool_decide; [done|]. cbn [foldl]. destruct (process _ w) as [r w1]. cbn [snd]. rewrite <- IH.
    by destruct (interactive reads w1).
  - rewrite <- IH. by destruct (interactive reads w).
Qed.

(** Errors of the terminal never end the loop. *)
Lemma read_errors_go_on n e w : (interactive (replicate n (InputFails e)) w).1 = replicate n (ReadingError e).
Proof. induction n as [|n IH]; [done|]. cbn. rewrite <- IH. by destruct (interactive _ w). Qed.
End chat.

(** ** The gateway (gateway/helpers.go) *)

(** The model that is asked: [model] is that of the command line. *)
Definition start_provider (getCredential : string → result string (option AuthCredential))
    (connect : string → string → result string unit) (home model : string) (cfg : Config) (rrCounter : N) :
    result string (Client * Config) * N :=
  let cfg := if bool_decide (model = "") then cfg else cfg <|cfg_Defaults -> ad_ModelName := model|> in
  match CreateProvider getCredential connect home cfg rrCounter with
  | (Err e, _, rrCounter) => (Err ("error creating provider: " +:+ e), rrCounter)
  | (Ok (client, modelID), cfg, rrCounter) =>
      (Ok (client, if bool_decide (modelID = "") then cfg else cfg <|cfg_Defaults -> ad_ModelName := modelID|>), rrCounter)
  end.

(** The key for transcriptions: that of the provider, or of the first model of Groq that
    has one. *)
Definition groq_key (cfg : Config) : string :=
  if negb (bool_decide (pc_APIKey (p_Groq (cfg_Providers cfg)) = "")) then pc_APIKey (p_Groq (cfg_Providers cfg))
  else
    match find_first (λ m, has_prefix (mdl_Model m) "groq/" && negb (bool_decide (mdl_APIKey m = ""))) (cfg_ModelList cfg) with
    | Some m => mdl_APIKey m
    | None => ""
    end.

(** The handler of heartbeats; [process] is [ProcessHeartbeat]. *)
Definition heartbeat_handler (process : string → string → string → result string string) : Heartbeat.handler :=
  λ prompt channel chatID,
    let '(channel, chatID) := if bool_decide (channel = "") || bool_decide (chatID = "") then ("cli", "direct") else (channel, chatID) in
    Some (match process prompt channel chatID with
          | Err e => ErrorResult ("Heartbeat error: " +:+ e)
          | Ok response => if bool_decide (response = "HEARTBEAT_OK") then SilentResult "Heartbeat OK" else SilentResult response
          end).

(** With it no heartbeat is ever published, whatever the agent answers. *)
Lemma heartbeats_say_nothing process now created hs :
  (executeHeartbeat now created (Some (heartbeat_handler process)) hs).1 = None.
Proof.
  unfold executeHeartbeat. destruct (_ || _); [done|]. destruct (buildPrompt now created hs) as [prompt hs1].
  destruct (bool_decide _); [done|]. destruct (Heartbeat.parseLastChannel _) as [channel chatID].
  unfold heartbeat_handler. destruct (if bool_decide (channel = "") || bool_decide (chatID = "") then _ else _) as [channel' chatID'].
  destruct (process _ _ _) as [response|e]; [|done]. by destruct (bool_decide _).
Qed.

(** ** Jobs (cron) *)
Section jobs.
Context (NextTickAfter : string → Z → option Z).

Definition cron_add (now : Z) (id : string) (o : save_outcome) (name : string) (every : Z) (cronExp message : string)
    (deliver : bool) (channel to : string) (f : store_file) : result string CronJob * store_file :=
  if (every <=? 0)%Z && bool_decide (cronExp = "") then (Err "either --every or --cron must be specified", f)
  else
    let schedule :=
      if (0 <? every)%Z then mk_CronSchedule "every" None (Some (wrap64 (every * 1000))) "" ""
      else mk_CronSchedule "cron" None None cronExp "" in
    match AddJob NextTickAfter now id o name schedule message deliver channel to (NewCronService f) with
    | (Err _, cs) => (Err "error adding job", c_file cs)
    | (Ok job, cs) => (Ok job, c_file cs)
    end.

Definition schedule_text (s : CronSchedule) : string :=
  match cs_EveryMS s with
  | Some every => if bool_decide (cs_Kind s = "every") then "every " +:+ pretty (Z.quot every 1000) +:+ "s"
                  else if bool_decide (cs_Kind s = "cron") then cs_Expr s else "one-time"
  | None => if bool_decide (cs_Kind s = "cron") then cs_Expr s else "one-time"
  end.

(** Name, identifier, schedule, whether the job is enabled, and its next run. *)
Definition cronListCmd (f : store_file) : list (string * string * string * bool * option Z) :=
  (λ j, (j_Name j, j_ID j, schedule_text (j_Schedule j), j_Enabled j, js_NextRunAtMS (j_State j)))
    <$> ListJobs true (NewCronService f).

Definition cronRemoveCmd (o : save_outcome) (jobID : string) (f : store_file) : string * store_file :=
  let '(removed, cs) := RemoveJob o jobID (NewCronService f) in
  (if removed : bool then "✓ Removed job " +:+ jobID else "✗ Job " +:+ jobID +:+ " not found", c_file cs).

Definition cronSetJobEnabled (updated now : Z) (o : save_outcome) (jobID : string) (enabled : bool) (f : store_file) :
    string * store_file :=
  let '(job, cs) := EnableJob NextTickAfter updated now o jobID enabled (NewCronService f) in
  (match job with
   | Some j => "✓ Job '" +:+ j_Name j +:+ "' enabled"
   | None => "✗ Job " +:+ jobID +:+ " not found"
   end, c_file cs).

(** A job that is added is stored behind those there are, which stay as they were, and
    it is enabled for the agent. *)
Lemma cron_added now id name every cronExp message deliver channel to jobs job f' :
  cron_add now id Saved name every cronExp message deliver channel to (StoreFile jobs) = (Ok job, f') →
  f' = StoreFile (jobs ++ [job]) ∧ j_ID job = id ∧ j_Enabled job = true ∧ j_DeleteAfterRun job = false ∧
  j_Payload job = mk_CronPayload "agent_turn" message "" deliver channel to ∧
  ((0 < every)%Z ∧ cs_EveryMS (j_Schedule job) = Some (wrap64 (every * 1000)) ∨
   (every <= 0)%Z ∧ cronExp ≠ "" ∧ cs_Expr (j_Schedule job) = cronExp).
Proof.
  unfold cron_add. destruct (every <=? 0)%Z eqn:Ee; cbn [andb].
  - case_bool_decide as Hc; [done|]. assert ((0 <? every)%Z = false) as -> by lia. cbn. intros [= <- <-].
    split_and!; [done..|]. right. split_and!; [lia|done|done].
  - assert ((0 <? every)%Z = true) as -> by lia. cbn. intros [= <- <-]. split_and!; [done..|]. left. split; [lia|done].
Qed.
End jobs.

(** ** What logging in and out do *)
Lemma update_entry_spec p method new l :
  ∃ l1 m l2, update_entry p method new l = l1 ++ m :: l2 ∧ Forall (λ x, p (mdl_Model x) = false) l1 ∧
    ((∃ old, l = l1 ++ old :: l2 ∧ p (mdl_Model old) = true ∧ m = set_method method old) ∨
     (l = l1 ∧ l2 = [] ∧ m = new)).
Proof.
  induction l as [|x l (l1 & m & l2 & E & Hl & H)]; cbn [update_entry].
  - exists [], new, []. split_and!; [done|constructor|by right].
  - destruct (p (mdl_Model x)) eqn:Ex.
    + exists [], (set_method method x), l. split_and!; [done|constructor|]. left. by exists x.
    + exists (x :: l1), m, l2. rewrite E. split_and!; [done|by constructor|].
      destruct H as [(old & -> & Hp & Hm)|(-> & -> & ->)]; [left; by exists old|by right].
Qed.

(** A login that reports no error has stored a credential; one that fails before that
    leaves the credentials as they were, and the configuration. *)
Lemma login_stores S strict name login change f :
  st_fault S = NoFault →
  let o := finish_login S strict name login change f in
  (ot_error o = None → ∃ cred, login = Ok cred ∧ GetCredential name (ot_store o) = Ok (Some cred) ∧
     ot_saved o = match st_config S with Ok cfg => Some (change cfg) | Err _ => None end) ∧
  (ot_saved o = None → ot_error o ≠ None → ot_store o = f).
Proof.
  intros Hf o. subst o. unfold finish_login. rewrite Hf. destruct login as [cred|e]; [|done].
  unfold SetCredential. destruct (LoadStore f) as [creds|e] eqn:El; [|done]. cbn [SaveStore].
  assert (GetCredential name (Stored (Some (<[name := Some cred]> creds))) = Ok (Some cred)) as Hg
    by (unfold GetCredential; cbn; by rewrite lookup_insert_eq).
  destruct (st_config S) as [cfg|e]; cbn [ot_error ot_store ot_saved]; [|split; [by exists cred|done]].
  split; [|done]. intros _. by exists cred.
Qed.

(** What is saved has the model of the login as its default, and the method in the first
    entry of the provider, which is added if there is none; other entries stay. *)
Lemma login_recorded p name model method cfg :
  p model = true →
  GetModelName (cfg_Defaults (record_login p name model method cfg)) = (if bool_decide (name = "") then ad_Model (cfg_Defaults cfg) else name) ∧
  ∃ l1 m l2, cfg_ModelList (record_login p name model method cfg) = l1 ++ m :: l2 ∧
    p (mdl_Model m) = true ∧ mdl_AuthMethod m = method ∧ Forall (λ x, p (mdl_Model x) = false) l1 ∧
    ((∃ old, cfg_ModelList cfg = l1 ++ old :: l2 ∧ m = set_method method old) ∨ (cfg_ModelList cfg = l1 ∧ l2 = [])).
Proof.
  intros Hp. split; [done|].
  destruct (update_entry_spec p method (new_entry name model method) (cfg_ModelList cfg))
    as (l1 & m & l2 & E & Hl & H). exists l1, m, l2. split; [exact E|].
  destruct H as [(old & Ho & Hpo & ->)|(Ho & -> & ->)]; split_and!; try done; [left; by exists old|by right].
Qed.

(** Logging out of a provider removes its credential and the method of every entry of its
    models; the entries of others stay. *)
Lemma logged_out S remove_err provider f o :
  provider ≠ "" → st_fault S = NoFault → authLogoutCmd S remove_err provider f = o → ot_error o = None →
  GetCredential provider (ot_store o) = Err ErrCredentialNotFound ∧
  ∀ cfg, st_config S = Ok cfg → ∃ cfg', ot_saved o = Some cfg' ∧
    Forall2 (λ old new, new = (if models_of_provider provider (mdl_Model old) then set_method "" old else old))
      (cfg_ModelList cfg) (cfg_ModelList cfg').
Proof.
  intros Hne Hf <-. unfold authLogoutCmd. rewrite bool_decide_eq_false_2 by done. cbn [negb]. unfold DeleteCredential.
  rewrite Hf. destruct (LoadStore f) as [creds|e]; [|done]. cbn [SaveStore ot_error ot_store ot_saved]. intros _. split.
  - unfold GetCredential. cbn. by rewrite lookup_delete_eq.
  - intros cfg ->. eexists. split; [done|].
    assert (cfg_ModelList (clear_provider provider (clear_methods (models_of_provider provider) cfg)) =
            cfg_ModelList (clear_methods (models_of_provider provider) cfg)) as ->
      by (unfold clear_provider; by repeat case_match).
    apply Forall2_fmap_r. by apply Forall_Forall2_diag, Forall_true.
Qed.

(** ** Where the commands depart from what they mean to do *)
Definition plain (cfg : result string Config) : setting := mk_setting NoFault None cfg.

(** With the default configuration a pasted token of Anthropic is recorded in the first of
    its models, but the default becomes the second, which has neither key nor method. *)
Example anthropic_login_unusable :
  let o := authLoginPasteToken (plain (Ok DefaultConfig)) "anthropic" (Ok (Some "sk-ant")) Auth.NoFile in
  ot_error o = None ∧
  match ot_saved o with
  | Some cfg =>
      (λ m, mdl_ModelName m) <$> filter (λ m, mdl_AuthMethod m = "token") (cfg_ModelList cfg) = ["claude-opus-4-6"] ∧
      is_ok (start_provider (λ name, GetCredential name (ot_store o)) (λ _ _, Ok tt) "/home/u" "" cfg 0%N).1 = false
  | None => False
  end.
Proof. by vm_compute. Qed.

(** An entry for OpenAI under a name of its own gets the method, and the default names a
    model that is not in the list. *)
Example default_model_missing :
  let cfg := with_ModelList DefaultConfig [default_entry "gpt" "openai/gpt-4o" "" "k"] in
  let o := authLoginOpenAI (plain (Ok cfg)) true (Ok (mk_AuthCredential "t" "" "" 0 "openai" "oauth" "" "")) (Err "") Auth.NoFile in
  ot_error o = None ∧
  match ot_saved o with
  | Some cfg => (GetModelConfig cfg (GetModelName (cfg_Defaults cfg)) 0).1 = Err "model gpt-5.2 not found in model_list or providers"
  | None => False
  end.
Proof. by vm_compute. Qed.

(** The name antigravity is accepted for logging in and out; logging out by it leaves the
    credential, which is stored under another name. *)
Example logout_alias_keeps_credential :
  let cred := mk_AuthCredential "t" "" "" 0 "google-antigravity" "oauth" "" "" in
  let o := authLogoutCmd (plain (Err "none")) None "antigravity" (Stored (Some {[ "google-antigravity" := Some cred ]})) in
  ot_error o = None ∧ GetCredential "google-antigravity" (ot_store o) = Ok (Some cred).
Proof. by vm_compute. Qed.

(** A null in the file of the credentials makes two commands panic. *)
Example null_credential_ends_commands :
  let f := Stored (Some {[ "google-antigravity" := None ]}) in
  authStatusCmd 1 map_to_list f = StatusPanics ∧ (authModelsCmd 1 (λ _, Err "") (λ _ _, Err "") NoFault f).1 = ModelsPanic.
Proof. by vm_compute. Qed.

(** Disabling a job says that it is enabled. *)
Example disabled_says_enabled :
  let job := mk_CronJob "a" "tea" true (mk_CronSchedule "cron" None None "* * * * *" "") (mk_CronPayload "agent_turn" "m" "" false "" "")
               (mk_CronJobState None None "" "") 0 0 false in
  let '(text, f) := cronSetJobEnabled (λ _ _, None) 1 1 Saved "a" false (StoreFile [job]) in
  text = "✓ Job 'tea' enabled" ∧ match f with StoreFile [j] => j_Enabled j = false | _ => False end.
Proof. by vm_compute. Qed.

(** A job that the command line adds while the gateway runs is lost when the gateway
    saves its own jobs. *)
Lemma cli_job_lost tick now id name every cron message deliver channel to job f' (running : CronService) :
  c_file running = StoreFile (c_jobs running) → id ∉ j_ID <$> c_jobs running →
  cron_add tick now id Saved name every cron message deliver channel to (c_file running) = (Ok job, f') →
  f' = StoreFile (c_jobs running ++ [job]) ∧
  let gateway := mk_CronService (c_jobs running) (c_running running) f' in
  match c_file (saveStoreUnsafe Saved gateway).2 with
  | StoreFile jobs => id ∉ j_ID <$> jobs
  | _ => False
  end.
Proof. intros -> Hid (-> & _)%cron_added. by split. Qed.

(** A number of seconds whose milliseconds do not fit gives a job that never runs. *)
Example every_overflows :
  match (cron_add (λ _ _, None) 0 "a" Saved "n" 9223372036854776 "" "m" false "" "" Cron.NoFile).1 with
  | Ok job => js_NextRunAtMS (j_State job) = None ∧ j_Enabled job = true
  | Err _ => False
  end.
Proof. by vm_compute. Qed.

(** The last channel of a state manager is that of its own memory: what another manager
    of the same file records later is not seen. *)
Example stale_last_channel :
  let fs := mk_files Absent Absent Absent in
  let service := NewManager None fs in
  let '(_, agent) := SetLastChannel 1 None "telegram:42" (NewManager None fs) in
  let later := mk_Manager (sm_state service) (sm_files agent) in
  GetLastChannel agent = "telegram:42" ∧ GetLastChannel later = "" ∧ GetLastChannel (load later) = "telegram:42".
Proof. by vm_compute. Qed.
