(* ===== verification/Campaign.v ===== *)
(** * Campaigns (pkg/campaign/runner.go, pkg/campaign/guardrails.go)

    A campaign runs in a goroutine of its own while [Stop] and the timeout of
    its context may strike at any moment.  The goroutine is a program counter
    [pc] with one transition per critical section or unlocked read of the code;
    a world interleaves the transitions of all campaigns with the operations
    of the runner.  What the adapters answer and the clock are inputs. *)
From stdpp Require Import base gmap strings list.
From Stdlib Require Import Ascii ZArith Lia.
From S2P Require Import Prelude GoStrings.
#[local] Open Scope Z_scope.

(** ** Data *)
Inductive Status := StatusPending | StatusRunning | StatusCompleted | StatusFailed | StatusCanceled.
#[export] Instance Status_eq_dec : EqDecision Status.
Proof. solve_decision. Defined.

Record Guardrails := mk_Guardrails {
  MaxDurationMinutes : Z;
  ReadOnly : bool;
  AIAPIBudgetCents : Z;
  KillSwitch : bool;
  MaxToolCalls : Z;
  MaxIterations : Z;
}.
Definition DefaultGuardrails : Guardrails := mk_Guardrails 60 false 1000 true 100 50.

Record Target := mk_Target { t_AgentID : string; t_Backend : string; t_ConfigOverride : string }.

Record Step := mk_Step {
  st_Name : string;
  st_Prompt : string;
  st_Tools : list string;
  st_TimeoutMinutes : Z;
}.

(** [Definition] of the source, without the fields that only describe it. *)
Record CampaignDefinition := mk_CampaignDefinition {
  d_ID : string;
  d_Targets : list Target;
  d_Steps : list Step;
  d_Guardrails : Guardrails;
}.

Record StepResult := mk_StepResult {
  r_StepName : string;
  r_Output : string;
  r_Duration : duration;
  r_ToolCalls : Z;
  r_Tokens : Z;
  r_Error : string;
}.

Record Execution := mk_Execution {
  e_ID : string;
  e_Definition : CampaignDefinition;
  e_Status : Status;
  e_StartTime : time;
  e_EndTime : time;
  e_CurrentStep : Z;
  e_SpentCents : Z;
  e_ToolCalls : Z;
  e_Iterations : Z;
  e_Results : list StepResult;
  e_Error : string;
  e_KillSwitchUsed : bool;
}.

Definition finish (s : Status) (err : string) (now : time) (e : Execution) : Execution :=
  mk_Execution (e_ID e) (e_Definition e) s (e_StartTime e) now (e_CurrentStep e)
    (e_SpentCents e) (e_ToolCalls e) (e_Iterations e) (e_Results e) err (e_KillSwitchUsed e).
Definition set_kill_switch (e : Execution) : Execution :=
  mk_Execution (e_ID e) (e_Definition e) (e_Status e) (e_StartTime e) (e_EndTime e)
    (e_CurrentStep e) (e_SpentCents e) (e_ToolCalls e) (e_Iterations e) (e_Results e)
    (e_Error e) true.
Definition set_current_step (i : Z) (e : Execution) : Execution :=
  mk_Execution (e_ID e) (e_Definition e) (e_Status e) (e_StartTime e) (e_EndTime e) i
    (e_SpentCents e) (e_ToolCalls e) (e_Iterations e) (e_Results e) (e_Error e)
    (e_KillSwitchUsed e).
Definition add_result (r : StepResult) (e : Execution) : Execution :=
  mk_Execution (e_ID e) (e_Definition e) (e_Status e) (e_StartTime e) (e_EndTime e)
    (e_CurrentStep e) (e_SpentCents e) (e_ToolCalls e) (wrap64 (e_Iterations e + 1))
    (e_Results e ++ [r]) (e_Error e) (e_KillSwitchUsed e).

(** ** Guardrails *)

(** [int(time.Since(start).Minutes())], for runs of less than 90 days exact. *)
Definition elapsed_minutes (now start : time) : Z := Z.quot (time_sub now start) minute.

(** [checkGuardrails]; [None] is the empty reason. *)
Definition checkGuardrails (now : time) (e : Execution) (g : Guardrails) : option string :=
  if e_KillSwitchUsed e then Some "kill_switch_activated"
  else if MaxDurationMinutes g <=? elapsed_minutes now (e_StartTime e) then Some "duration_exceeded"
  else if AIAPIBudgetCents g <=? e_SpentCents e then Some "budget_exhausted"
  else if MaxToolCalls g <=? e_ToolCalls e then Some "tool_call_limit"
  else if MaxIterations g <=? e_Iterations e then Some "iteration_limit"
  else None.

(** [GuardrailCheck] on an execution with a definition: the [GuardrailError]. *)
Definition GuardrailCheck (now : time) (e : Execution) : option (string * string) :=
  (λ reason, (reason, e_ID e)) <$> checkGuardrails now e (d_Guardrails (e_Definition e)).

Definition CanExecuteTool (e : Execution) (toolName : string) : bool :=
  let g := d_Guardrails (e_Definition e) in
  if e_KillSwitchUsed e then false
  else if ReadOnly g && bool_decide (toolName ∈ ["write_file"; "exec_command"; "delete_file"])
  then false
  else if MaxToolCalls g <=? e_ToolCalls e then false
  else true.

Definition RecordToolCall (costCents : Z) (e : Execution) : Execution :=
  mk_Execution (e_ID e) (e_Definition e) (e_Status e) (e_StartTime e) (e_EndTime e)
    (e_CurrentStep e) (wrap64 (e_SpentCents e + costCents)) (wrap64 (e_ToolCalls e + 1))
    (e_Iterations e) (e_Results e) (e_Error e) (e_KillSwitchUsed e).

(** ** The goroutine of a campaign *)
Inductive pc :=
| LoopHead (i : nat)                (* about to read ctx.Err() for step i *)
| CancelReturn                      (* the context is done: about to record it *)
| Guard (i : nat)                   (* about to check the guardrails *)
| GuardReturn (reason : string)
| SetStep (i : nat)
| Dispatch (i : nat) (started : time) (targets : list Target) (output : string)
    (err : option string)
| Append (i : nat) (started : time) (output : string) (err : option string)
| Complete
| Cleanup                           (* the deferred function *)
| Exited.

(** The inputs of one transition: the clock, and the answer of an adapter. *)
Record input := mk_input {
  in_now : time;
  in_answer : string * option string;
}.

(** One transition, given the registered adapters and the context's error. *)
Definition run_step (adapters : gset string) (ctx : option string) (inp : input)
    (p : pc) (e : Execution) : pc * Execution :=
  let def := e_Definition e in
  match p with
  | LoopHead i =>
      match d_Steps def !! i with
      | None => (Complete, e)
      | Some _ => match ctx with
                  | Some _ => (CancelReturn, e)
                  | None => (Guard i, e)
                  end
      end
  | CancelReturn =>
      (Cleanup,
       if bool_decide (e_Status e = StatusRunning)
       then finish StatusCanceled (default "" ctx) (in_now inp) e
       else finish (e_Status e) (e_Error e) (in_now inp) e)
  | Guard i =>
      match checkGuardrails (in_now inp) e (d_Guardrails def) with
      | Some reason => (GuardReturn reason, e)
      | None => (SetStep i, e)
      end
  | GuardReturn reason =>
      (Cleanup, finish StatusFailed ("guardrail: " +:+ reason) (in_now inp) e)
  | SetStep i =>
      (Dispatch i (in_now inp) (d_Targets def) "" None, set_current_step (Z.of_nat i) e)
  | Dispatch i started [] output err => (Append i started output err, e)
  | Dispatch i started (target :: targets) output err =>
      if bool_decide (t_Backend target ∈ adapters) then
        let '(output, err) := in_answer inp in
        match err with
        | None => (Append i started output None, e)
        | Some _ => (Dispatch i started targets output err, e)
        end
      else (Dispatch i started targets output
              (Some ("no adapter for backend " +:+ t_Backend target)), e)
  | Append i started output err =>
      match d_Steps def !! i with
      | None => (Complete, e)
      | Some step =>
          (LoopHead (S i),
           add_result (mk_StepResult (st_Name step) output (time_sub (in_now inp) started)
                         (Z.of_nat (length (st_Tools step))) 0 (default "" err)) e)
      end
  | Complete => (Cleanup, finish StatusCompleted (e_Error e) (in_now inp) e)
  | Cleanup => (Exited, e)
  | Exited => (Exited, e)
  end.

(** ** The runner and the world around it *)
Record Runner := mk_Runner {
  executions : gmap string Execution;
  adapters : gset string;
  cancel : gset string;
}.

(** The runner, the context of each campaign and where its goroutine is. *)
Record world := mk_world {
  w_runner : Runner;
  w_ctx : gmap string (option string);
  w_pc : gmap string pc;
}.

Definition NewRunner : Runner := mk_Runner ∅ ∅ ∅.
Definition RegisterAdapter (backend : string) (r : Runner) : Runner :=
  mk_Runner (executions r) ({[backend]} ∪ adapters r) (cancel r).

Definition new_execution (now : time) (def : CampaignDefinition) : Execution :=
  mk_Execution (d_ID def) def StatusRunning now 0 0 0 0 0 [] "" false.

(** The context of a campaign: [None] while it is live.  With no time at all
    for the campaign it is done at once. *)
Definition new_context (def : CampaignDefinition) : option string :=
  if MaxDurationMinutes (d_Guardrails def) <=? 0 then Some "context deadline exceeded" else None.

Definition Start (now : time) (def : CampaignDefinition) (w : world) : result string world :=
  if bool_decide (d_ID def = "") then Err "campaign ID is required"
  else if bool_decide (d_Steps def = []) then Err "campaign must have at least one step"
  else
    let r := w_runner w in
    match executions r !! d_ID def with
    | Some _ => Err "campaign is already running"
    | None =>
        Ok (mk_world
          (mk_Runner (<[d_ID def := new_execution now def]> (executions r)) (adapters r)
             ({[d_ID def]} ∪ cancel r))
          (<[d_ID def := new_context def]> (w_ctx w))
          (<[d_ID def := LoopHead 0]> (w_pc w)))
    end.

(** A context that is done stays done with the same error. *)
Definition cancel_ctx (reason : string) (c : option string) : option string :=
  match c with Some e => Some e | None => Some reason end.

Definition Stop (now : time) (campaignID : string) (w : world) : result string world :=
  let r := w_runner w in
  match executions r !! campaignID with
  | None => Err "campaign not found"
  | Some e =>
      if negb (bool_decide (e_Status e = StatusRunning)) then Err "campaign is not running"
      else
        let e := finish StatusCanceled (e_Error e) now (set_kill_switch e) in
        let w' := mk_world
          (mk_Runner (<[campaignID := e]> (executions r)) (adapters r) (cancel r ∖ {[campaignID]}))
          (w_ctx w) (w_pc w) in
        Ok (if bool_decide (campaignID ∈ cancel r)
            then mk_world (w_runner w')
                   (alter (cancel_ctx "context canceled") campaignID (w_ctx w)) (w_pc w)
            else w')
  end.

Definition GetStatus (campaignID : string) (w : world) : result string Execution :=
  match executions (w_runner w) !! campaignID with
  | Some e => Ok e
  | None => Err "campaign not found"
  end.

Definition ListExecutions (w : world) : list Execution := (map_to_list (executions (w_runner w))).*2.

(** One transition of the goroutine of a campaign. *)
Definition go (inp : input) (id : string) (w : world) : world :=
  match w_pc w !! id, executions (w_runner w) !! id with
  | Some p, Some e =>
      let r := w_runner w in
      let ctx := default None (w_ctx w !! id) in
      let '(p', e') := run_step (adapters r) ctx inp p e in
      mk_world
        (mk_Runner (<[id := e']> (executions r)) (adapters r)
           (match p with Cleanup => cancel r ∖ {[id]} | _ => cancel r end))
        (w_ctx w) (<[id := p']> (w_pc w))
  | _, _ => w
  end.

(** The context of a campaign ends for a reason outside the runner: its
    timeout, or the context it was started with. *)
Definition context_done (reason : string) (id : string) (w : world) : world :=
  mk_world (w_runner w) (alter (cancel_ctx reason) id (w_ctx w)) (w_pc w).

Inductive world_step : world → world → Prop :=
| ws_register b w :
    world_step w (mk_world (RegisterAdapter b (w_runner w)) (w_ctx w) (w_pc w))
| ws_start now def w w' : Start now def w = Ok w' → world_step w w'
| ws_stop now id w w' : Stop now id w = Ok w' → world_step w w'
| ws_go inp id w : world_step w (go inp id w)
| ws_done reason id w : world_step w (context_done reason id w).

Inductive world_reachable : world → Prop :=
| wr_init : world_reachable (mk_world NewRunner ∅ ∅)
| wr_step w w' : world_reachable w → world_step w w' → world_reachable w'.

(** ** The invariant of one campaign *)

(** The number of steps whose result is recorded when the goroutine is at [p]. *)
Definition recorded (p : pc) (n : nat) (k : nat) : Prop :=
  match p with
  | LoopHead i => k = i ∧ (i ≤ n)%nat
  | Guard i | SetStep i | Dispatch i _ _ _ _ | Append i _ _ _ => k = i ∧ (i < n)%nat
  | Complete => k = n
  | _ => (k ≤ n)%nat
  end.

(** The guardrails passed before the step that is now running. *)
Definition in_step (p : pc) : bool :=
  match p with SetStep _ | Dispatch _ _ _ _ _ | Append _ _ _ _ => true | _ => false end.

Record campaign_ok (p : pc) (e : Execution) : Prop := {
  ok_recorded : recorded p (length (d_Steps (e_Definition e))) (length (e_Results e));
  ok_names : r_StepName <$> e_Results e
             = take (length (e_Results e)) (st_Name <$> d_Steps (e_Definition e));
  ok_iterations : Z.of_nat (length (d_Steps (e_Definition e))) <= int64_max →
                  e_Iterations e = Z.of_nat (length (e_Results e));
  ok_max : Z.of_nat (length (d_Steps (e_Definition e))) <= int64_max →
           Z.of_nat (length (e_Results e) + if in_step p then 1 else 0)
           <= Z.max 0 (MaxIterations (d_Guardrails (e_Definition e)));
  ok_counters : e_SpentCents e = 0 ∧ e_ToolCalls e = 0;
  ok_finished : (p = Cleanup ∨ p = Exited ∨ e_KillSwitchUsed e = true) → e_Status e ≠ StatusRunning;
}.

Lemma take_snoc_lookup {A} (l : list A) i x : l !! i = Some x → take i l ++ [x] = take (S i) l.
Proof. intros H. by rewrite (take_S_r _ _ _ H). Qed.

Lemma run_step_def ads ctx inp p e : e_Definition (run_step ads ctx inp p e).2 = e_Definition e.
Proof. destruct p as [| | | | | ? ? [|] | | | |]; simpl; repeat case_match; simplify_eq/=; try done. Qed.
Lemma run_step_kill ads ctx inp p e :
  e_KillSwitchUsed (run_step ads ctx inp p e).2 = e_KillSwitchUsed e.
Proof. destruct p as [| | | | | ? ? [|] | | | |]; simpl; repeat case_match; simplify_eq/=; try done. Qed.

Lemma finish_ok p p' s err now e :
  campaign_ok p e → s ≠ StatusRunning → (p' = Cleanup) → campaign_ok p' (finish s err now e).
Proof.
  intros [Hr Hn Hi Hm Hc _] Hs ->. constructor; simpl; try done.
  - destruct p; simpl in Hr; lia.
  - intros Hsm. specialize (Hm Hsm). destruct (in_step p); lia.
Qed.

Lemma move_ok p p' e :
  campaign_ok p e → recorded p' (length (d_Steps (e_Definition e))) (length (e_Results e)) →
  (in_step p' = true → in_step p = true) → p' ≠ Cleanup → p' ≠ Exited → campaign_ok p' e.
Proof.
  intros [Hr Hn Hi Hm Hc Hf] Hr' Hin H1 H2. constructor; try done.
  - intros Hsm. specialize (Hm Hsm). destruct (in_step p'); [by rewrite Hin in Hm|].
    destruct (in_step p); lia.
  - intros [?|[?|?]]; [done|done|]. auto.
Qed.

Lemma run_step_ok ads ctx inp p e :
  campaign_ok p e →
  campaign_ok (run_step ads ctx inp p e).1 (run_step ads ctx inp p e).2.
Proof.
  intros Hok. pose proof (ok_recorded _ _ Hok) as Hr.
  destruct p as [i| |i|reason|i|i started ts output err|i started output err| | |]; simpl in Hr |- *.
  - destruct (d_Steps (e_Definition e) !! i) as [st|] eqn:E.
    + apply lookup_lt_Some in E.
      destruct ctx; simpl; (eapply move_ok; [exact Hok|simpl; lia|done|done|done]).
    + apply lookup_ge_None in E. simpl. eapply move_ok; [exact Hok|simpl; lia|done|done|done].
  - case_bool_decide; eapply finish_ok; eauto.
  - destruct (checkGuardrails _ _ _) as [reason|] eqn:E; simpl.
    + eapply move_ok; [exact Hok|simpl; lia|done|done|done].
    + destruct Hok as [Hr' Hn Hi Hm Hc Hf]. constructor; try done.
      * intros Hsm. specialize (Hi Hsm). specialize (Hm Hsm). simpl.
        unfold checkGuardrails in E. repeat case_match; try done. bool_nums. lia.
      * intros [?|[?|?]]; [done|done|auto].
  - eapply finish_ok; eauto.
  - destruct Hok as [Hr' Hn Hi Hm Hc Hf]. constructor; simpl; try done.
    intros [?|[?|?]]; [done|done|auto].
  - destruct ts as [|t ts]; [|case_bool_decide; [destruct (in_answer inp) as [out [er|]]|]]; simpl;
      (eapply move_ok; [exact Hok|simpl; lia|done|done|done]).
  - destruct (d_Steps (e_Definition e) !! i) as [st|] eqn:E.
    2:{ apply lookup_ge_None in E. lia. }
    destruct Hok as [Hr' Hn Hi Hm Hc Hf]. destruct Hr as [Hk Hlt]. simpl.
    constructor; simpl; try done.
    + rewrite length_app. simpl. lia.
    + rewrite fmap_app, Hn, length_app. simpl. rewrite Nat.add_1_r. apply take_snoc_lookup.
      rewrite list_lookup_fmap, Hk, E. done.
    + intros Hsm. rewrite Hi, length_app by done. simpl.
      rewrite wrap64_id by (unfold in_int64, int64_min in *; lia). lia.
    + intros Hsm. specialize (Hm Hsm). simpl in Hm. rewrite length_app. simpl. lia.
    + intros [?|[?|?]]; [done|done|auto].
  - eapply finish_ok; eauto.
  - destruct Hok as [Hr' Hn Hi Hm Hc Hf]. constructor; try done.
    intros _. apply Hf. by left.
  - done.
Qed.

(** The campaigns of a world, each at its own place. *)
Definition world_ok (w : world) : Prop :=
  ∀ id e, executions (w_runner w) !! id = Some e →
    ∃ p, w_pc w !! id = Some p ∧ campaign_ok p e ∧ d_ID (e_Definition e) = id.

Lemma go_lookup inp id w id' :
  executions (w_runner (go inp id w)) !! id' =
  match w_pc w !! id, executions (w_runner w) !! id with
  | Some p, Some e =>
      if decide (id = id')
      then Some (run_step (adapters (w_runner w)) (default None (w_ctx w !! id)) inp p e).2
      else executions (w_runner w) !! id'
  | _, _ => executions (w_runner w) !! id'
  end.
Proof.
  unfold go. destruct (w_pc w !! id) as [p|], (executions (w_runner w) !! id) as [e|]; try done.
  destruct (run_step _ _ _ _ _). simpl. apply lookup_insert.
Qed.
Lemma go_pc inp id w id' :
  w_pc (go inp id w) !! id' =
  match w_pc w !! id, executions (w_runner w) !! id with
  | Some p, Some e =>
      if decide (id = id')
      then Some (run_step (adapters (w_runner w)) (default None (w_ctx w !! id)) inp p e).1
      else w_pc w !! id'
  | _, _ => w_pc w !! id'
  end.
Proof.
  unfold go. destruct (w_pc w !! id) as [p|], (executions (w_runner w) !! id) as [e|]; try done.
  destruct (run_step _ _ _ _ _). simpl. apply lookup_insert.
Qed.

(** What [Stop] does when it succeeds. *)
Lemma Stop_inv now id w w' :
  Stop now id w = Ok w' →
  ∃ e, executions (w_runner w) !! id = Some e ∧ e_Status e = StatusRunning
    ∧ executions (w_runner w')
      = <[id := finish StatusCanceled (e_Error e) now (set_kill_switch e)]> (executions (w_runner w))
    ∧ w_pc w' = w_pc w ∧ adapters (w_runner w') = adapters (w_runner w).
Proof.
  unfold Stop. destruct (executions (w_runner w) !! id) as [e|] eqn:E; [|done].
  case_bool_decide as Hs; simpl; [|done]. intros [= <-]. exists e.
  case_bool_decide; by split_and!.
Qed.

Lemma Start_inv now def w w' :
  Start now def w = Ok w' →
  executions (w_runner w) !! d_ID def = None ∧ d_Steps def ≠ []
  ∧ executions (w_runner w') = <[d_ID def := new_execution now def]> (executions (w_runner w))
  ∧ w_pc w' = <[d_ID def := LoopHead 0]> (w_pc w).
Proof.
  unfold Start. case_bool_decide; [done|]. case_bool_decide; [done|].
  destruct (executions (w_runner w) !! d_ID def) eqn:E; [done|]. intros [= <-]. done.
Qed.

Lemma world_step_ok w w' : world_step w w' → world_ok w → world_ok w'.
Proof.
  intros Hs Hok. destruct Hs as [b w|now def w w' H|now id w w' H|inp id w|reason id w].
  - exact Hok.
  - apply Start_inv in H as (Hnew & Hne & He & Hp). intros id e. rewrite He, Hp, !lookup_insert.
    case_decide as E; [|intros; by apply Hok]. subst. intros [= <-]. exists (LoopHead 0).
    split; [done|]. split; [|done]. constructor; simpl; try done; try lia. intros [?|[?|?]]; done.
  - apply Stop_inv in H as (e & He & Hst & Hex & Hp & _). intros id' e'. rewrite Hex, Hp, lookup_insert.
    case_decide as E; [|intros; by apply Hok]. subst id'. intros [= <-].
    destruct (Hok id e He) as (p & Hpc & [Hr Hn Hi Hm Hc Hf] & Hid). exists p.
    split; [done|]. split; [|done]. by constructor.
  - intros id' e'. rewrite go_lookup, go_pc.
    destruct (w_pc w !! id) as [p|] eqn:Ep, (executions (w_runner w) !! id) as [e|] eqn:Ee;
      try (intros; by apply Hok).
    case_decide as E; [|intros; by apply Hok]. subst id'. intros [= <-].
    destruct (Hok id e Ee) as (p' & Hp' & Hc & Hid). assert (p' = p) as -> by congruence.
    eexists. split; [done|]. split; [by apply run_step_ok|]. by rewrite run_step_def.
  - exact Hok.
Qed.

Lemma world_reachable_ok w : world_reachable w → world_ok w.
Proof.
  induction 1 as [|w w' _ IH Hs]; [|by eapply world_step_ok].
  intros id e H. simpl in H. by rewrite lookup_empty in H.
Qed.

(** In every interleaving of goroutines, stops, timeouts and starts, the
    results of a campaign are those of its first steps in order, one per
    iteration, never more than the limit on iterations; an execution whose
    goroutine has ended, or that was stopped, is not running any more; and
    the spent budget and the tool calls are still zero, so these two limits
    never stop a campaign that sets them above zero. *)
Lemma campaign_invariant (w : world) (id : string) (e : Execution) :
  world_reachable w → executions (w_runner w) !! id = Some e →
  let def := e_Definition e in
  d_ID def = id
  ∧ r_StepName <$> e_Results e = take (length (e_Results e)) (st_Name <$> d_Steps def)
  ∧ (Z.of_nat (length (d_Steps def)) <= int64_max →
       e_Iterations e = Z.of_nat (length (e_Results e))
       ∧ e_Iterations e <= Z.max 0 (MaxIterations (d_Guardrails def)))
  ∧ (w_pc w !! id = Some Exited ∨ e_KillSwitchUsed e = true → e_Status e ≠ StatusRunning)
  ∧ e_SpentCents e = 0 ∧ e_ToolCalls e = 0.
Proof.
  intros Hr He def. destruct (world_reachable_ok w Hr id e He) as (p & Hp & [Hrec Hn Hi Hm Hc Hf] & Hid).
  split_and!; try done; try apply Hc.
  - intros Hsm. rewrite (Hi Hsm). specialize (Hm Hsm). split; [done|].
    fold def in Hm. destruct (in_step p); lia.
  - intros [H|H]; apply Hf; [right; left; congruence|by right; right].
Qed.

(** ** The kill switch *)

(** The results that can still be recorded without passing the guardrails. *)
Definition pending_results (p : pc) : nat := if in_step p then 1 else 0.

Lemma run_step_killed ads ctx inp p e :
  e_KillSwitchUsed e = true →
  let r := run_step ads ctx inp p e in
  (length (e_Results r.2) + pending_results r.1 ≤ length (e_Results e) + pending_results p)%nat.
Proof.
  intros Hk. unfold pending_results.
  destruct p as [i| |i|reason|i|i started ts output err|i started output err| | |]; simpl; try lia.
  - repeat (case_inner; simpl); lia.
  - case_inner; simpl; lia.
  - unfold checkGuardrails. rewrite Hk. simpl. lia.
  - repeat (case_inner; simpl); lia.
  - case_inner; simpl; rewrite ?length_app; simpl; lia.
Qed.

Definition stopped_with (id : string) (n : nat) (w : world) : Prop :=
  ∃ e p, executions (w_runner w) !! id = Some e ∧ w_pc w !! id = Some p
    ∧ e_KillSwitchUsed e = true ∧ (length (e_Results e) + pending_results p ≤ n)%nat.

Lemma stopped_step id n w w' : world_step w w' → stopped_with id n w → stopped_with id n w'.
Proof.
  intros Hs (e & p & He & Hp & Hk & Hn).
  destruct Hs as [b w|now def w w' H|now id' w w' H|inp id' w|reason id' w].
  - by exists e, p.
  - apply Start_inv in H as (Hnew & _ & Hex & Hpc). exists e, p.
    rewrite Hex, Hpc, !lookup_insert_ne by congruence. done.
  - apply Stop_inv in H as (e' & He' & Hst & Hex & Hpc & _).
    unfold stopped_with. rewrite Hex, Hpc. destruct (decide (id' = id)) as [->|Hne].
    + simplify_eq. eexists _, p. rewrite lookup_insert_eq. done.
    + exists e, p. by rewrite lookup_insert_ne.
  - unfold stopped_with. rewrite go_lookup, go_pc.
    destruct (w_pc w !! id') as [p'|] eqn:Ep, (executions (w_runner w) !! id') as [e'|] eqn:Ee;
      try (exists e, p; done).
    case_decide as E; [|exists e, p; done]. subst id'. simplify_eq.
    eexists _, _. split; [done|]. split; [done|]. rewrite run_step_kill. split; [done|].
    etrans; [by apply run_step_killed|done].
  - by exists e, p.
Qed.

(** The kill switch works: once [Stop] has succeeded, whatever else happens,
    at most the step that was already past its guardrails adds its result; no
    further step begins, so the results grow by at most one. *)
Lemma stop_halts (now : time) (id : string) (w w1 w2 : world) (e : Execution) :
  world_reachable w → executions (w_runner w) !! id = Some e →
  Stop now id w = Ok w1 → rtc world_step w1 w2 →
  ∃ e2, executions (w_runner w2) !! id = Some e2 ∧ e_KillSwitchUsed e2 = true
    ∧ (length (e_Results e2) ≤ length (e_Results e) + 1)%nat
    ∧ (∀ p, w_pc w !! id = Some p → in_step p = false →
         (length (e_Results e2) ≤ length (e_Results e))%nat).
Proof.
  intros Hr He Hstop Hsteps.
  destruct (world_reachable_ok w Hr id e He) as (p & Hp & _ & _).
  apply Stop_inv in Hstop as (e' & He' & Hst & Hex & Hpc & _).
  assert (e' = e) as -> by congruence.
  assert (stopped_with id (length (e_Results e) + pending_results p) w1) as Hsw.
  { eexists _, p. rewrite Hex, Hpc, lookup_insert_eq. by split_and!. }
  assert (stopped_with id (length (e_Results e) + pending_results p) w2) as (e2 & p2 & He2 & _ & Hk & Hn).
  { clear -Hsw Hsteps. induction Hsteps as [|w w' w'' Hs _ IH]; [done|]. apply IH. by eapply stopped_step. }
  exists e2. unfold pending_results in Hn. split_and!; [done|done| |].
  - destruct (in_step p), (in_step p2); lia.
  - intros p' Hp' Hin. assert (p' = p) as -> by congruence. rewrite Hin in Hn. destruct (in_step p2); lia.
Qed.

(** ** Termination *)

(** An upper bound of the transitions that are left. *)
Definition remaining (n m : nat) (p : pc) : nat :=
  match p with
  | LoopHead i => (n - i) * (m + 6) + 4
  | Guard i => (n - i) * (m + 6) + 3
  | SetStep i => (n - i) * (m + 6) + 2
  | Dispatch i _ ts _ _ => (n - S i) * (m + 6) + 6 + length ts
  | Append i _ _ _ => (n - S i) * (m + 6) + 5
  | GuardReturn _ | Complete => 3
  | CancelReturn => 2
  | Cleanup => 1
  | Exited => 0
  end.

Definition left_of (e : Execution) (p : pc) : nat :=
  remaining (length (d_Steps (e_Definition e))) (length (d_Targets (e_Definition e))) p.

Lemma run_step_decreases ads ctx inp p e :
  campaign_ok p e → p ≠ Exited →
  let r := run_step ads ctx inp p e in (left_of r.2 r.1 < left_of e p)%nat.
Proof.
  intros Hok Hne r. pose proof (ok_recorded _ _ Hok) as Hr. unfold left_of.
  subst r. rewrite run_step_def. set (n := length _) in *. set (m := length _).
  assert (∀ i, (i < n)%nat → (n - i) * (m + 6) = (n - S i) * (m + 6) + m + 6)%nat as Hmul by nia.
  destruct p as [i| |i|reason|i|i started ts output err|i started output err| | |];
    simpl in Hr |- *; try done; try lia.
  - repeat (case_inner; simpl); nia.
  - case_inner; simpl; [nia|]. rewrite Hmul by lia. lia.
  - rewrite (Hmul i) by lia. fold m. lia.
  - repeat (case_inner; simpl); nia.
  - case_inner; simpl; nia.
Qed.

(** Runs of the world in which the goroutine of [id] makes [k] transitions. *)
Inductive runs (id : string) : nat → world → world → Prop :=
| runs_done w : runs id 0 w w
| runs_go inp k w w' : runs id k (go inp id w) w' → runs id (S k) w w'
| runs_other k w w1 w' : world_step w w1 → w_pc w1 !! id = w_pc w !! id →
    runs id k w1 w' → runs id k w w'.

Lemma world_step_def id w w' e :
  world_step w w' → executions (w_runner w) !! id = Some e →
  ∃ e', executions (w_runner w') !! id = Some e' ∧ e_Definition e' = e_Definition e.
Proof.
  intros Hs He. destruct Hs as [b w|now def w w' H|now id' w w' H|inp id' w|reason id' w]; eauto.
  - apply Start_inv in H as (Hnew & _ & Hex & _). exists e.
    rewrite Hex, lookup_insert_ne by congruence. done.
  - apply Stop_inv in H as (e' & He' & _ & Hex & _). rewrite Hex, lookup_insert.
    case_decide; subst; simplify_eq; eauto.
  - rewrite go_lookup. destruct (w_pc w !! id'), (executions (w_runner w) !! id') eqn:Ee; eauto.
    case_decide; subst; simplify_eq; eauto. eexists. split; [done|apply run_step_def].
Qed.

(** C38: every campaign terminates: with n steps and m targets its goroutine has
    ended after at most n * (m + 6) + 4 transitions, whatever the adapters
    answer and however stops, timeouts and other campaigns interleave. *)
Theorem campaign_terminates (w w' : world) (id : string) (e : Execution) (k : nat) :
  world_reachable w → executions (w_runner w) !! id = Some e →
  w_pc w !! id = Some (LoopHead 0) → runs id k w w' →
  (length (d_Steps (e_Definition e)) * (length (d_Targets (e_Definition e)) + 6) + 4 ≤ k)%nat →
  w_pc w' !! id = Some Exited.
Proof.
  intros Hr He Hp Hrun Hk.
  assert (left_of e (LoopHead 0) ≤ k)%nat as Hle.
  { unfold left_of. simpl. by rewrite Nat.sub_0_r. }
  clear Hk. revert Hp Hle. generalize (LoopHead 0). revert e He.
  induction Hrun as [w|inp k w w' _ IH|k w w1 w' Hs Hsame _ IH]; intros e He p Hp Hle.
  - rewrite Hp. f_equal. unfold left_of in Hle. destruct p; simpl in Hle; first [done | nia].
  - pose proof (world_reachable_ok w Hr id e He) as (p' & Hp' & Hok & _). simplify_eq.
    eapply IH.
    + eapply wr_step; [done|]. constructor.
    + rewrite go_lookup, Hp, He, decide_True by done. done.
    + rewrite go_pc, Hp, He, decide_True by done. done.
    + assert (p = Exited ∨ p ≠ Exited) as [->|Hne]
        by (destruct p; (by left) || (by right)).
      { unfold left_of; simpl; lia. }
      pose proof (run_step_decreases (adapters (w_runner w)) (default None (w_ctx w !! id)) inp
        p e Hok Hne) as H. simpl in H. lia.
  - destruct (world_step_def id w w1 e Hs He) as (e1 & He1 & Hdef).
    eapply (IH (wr_step _ _ Hr Hs) e1 He1 p); [by rewrite Hsame|].
    unfold left_of in *. by rewrite Hdef.
Qed.

(** ** Concrete runs *)
Definition sample_def : CampaignDefinition :=
  mk_CampaignDefinition "audit" [mk_Target "a" "tinyclaw" ""] [mk_Step "scan" "look" [] 5]
    DefaultGuardrails.
Definition at_time (t : Z) (out : string) (err : option string) : input :=
  mk_input (t * second) (out, err).
Definition ok_or_same (r : result string world) (w : world) : world :=
  match r with Ok w' => w' | Err _ => w end.
Definition world_0 : world :=
  mk_world (RegisterAdapter "tinyclaw" NewRunner) ∅ ∅.
Definition world_1 : world := ok_or_same (Start second sample_def world_0) world_0.
(** The goroutine has begun the only step and waits for the adapter. *)
Definition world_2 : world :=
  Nat.iter 3 (go (at_time 2 "" None) "audit") world_1.
Definition world_3 : world := ok_or_same (Stop (3 * second) "audit" world_2) world_2.
(** The adapter answers although it was told to stop, and the goroutine ends. *)
Definition world_4 : world := Nat.iter 6 (go (at_time 4 "done" None) "audit") world_3.

Lemma world_0_reachable : world_reachable world_0.
Proof. eapply wr_step; [apply wr_init|]. apply ws_register. Qed.
Lemma world_1_reachable : world_reachable world_1.
Proof. eapply wr_step; [apply world_0_reachable|]. apply (ws_start second sample_def). reflexivity. Qed.
Lemma go_reachable inp id n w : world_reachable w → world_reachable (Nat.iter n (go inp id) w).
Proof. intros Hr. induction n as [|n IH]; simpl; [done|]. eapply wr_step; [exact IH|constructor]. Qed.
Lemma go_steps inp id n w : rtc world_step w (Nat.iter n (go inp id) w).
Proof. induction n as [|n IH]; [done|]. simpl. eapply rtc_r; [exact IH|constructor]. Qed.
Lemma go_runs inp id n w : runs id n w (Nat.iter n (go inp id) w).
Proof.
  revert w. induction n as [|n IH]; intros w; [constructor|].
  apply runs_go with inp. rewrite Nat.iter_succ_r. apply IH.
Qed.
Lemma world_2_reachable : world_reachable world_2.
Proof. apply go_reachable, world_1_reachable. Qed.

(** A stop can be overridden: when [Stop] succeeds while the last step is
    running, the goroutine afterwards overwrites the status "canceled" with
    "completed"; and when it succeeds between the check of the context and the
    check of the guardrails, with "failed".  In both cases the campaign can
    not be started again: its identifier counts as running forever. *)
Lemma stop_can_be_overridden :
  (∃ e, executions (w_runner world_3) !! "audit" = Some e ∧ e_Status e = StatusCanceled)
  ∧ (∃ e, executions (w_runner world_4) !! "audit" = Some e ∧ w_pc world_4 !! "audit" = Some Exited
        ∧ e_KillSwitchUsed e = true ∧ e_Status e = StatusCompleted)
  ∧ (let w := Nat.iter 3 (go (at_time 2 "" None) "audit")
                (ok_or_same (Stop (2 * second) "audit" (go (at_time 1 "" None) "audit" world_1)) world_1) in
     ∃ e, executions (w_runner w) !! "audit" = Some e ∧ w_pc w !! "audit" = Some Exited
        ∧ e_KillSwitchUsed e = true ∧ e_Status e = StatusFailed)
  ∧ (∀ now, Start now sample_def world_4 = Err "campaign is already running").
Proof.
  split_and!.
  - eexists. split; vm_compute; reflexivity.
  - eexists. split_and!; vm_compute; reflexivity.
  - eexists. split_and!; vm_compute; reflexivity.
  - intros now. vm_compute. reflexivity.
Qed.

Lemma campaign_invariant_witness :
  ∃ e, executions (w_runner world_2) !! "audit" = Some e ∧ e_SpentCents e = 0.
Proof.
  eexists. split; [vm_compute; reflexivity|].
  apply (campaign_invariant world_2 "audit"); [apply world_2_reachable|vm_compute; reflexivity].
Defined.

Lemma stop_halts_witness :
  ∃ e2, executions (w_runner world_4) !! "audit" = Some e2 ∧ (length (e_Results e2) ≤ 1)%nat.
Proof.
  destruct (executions (w_runner world_2) !! "audit") as [e|] eqn:E; [|vm_compute in E; discriminate].
  destruct (stop_halts (3 * second) "audit" world_2 world_3 world_4 e) as (e2 & H & _ & Hn & _).
  - apply world_2_reachable.
  - exact E.
  - vm_compute. reflexivity.
  - apply go_steps.
  - exists e2. split; [exact H|].
    assert (length (e_Results e) = 0%nat) as Hz.
    { replace e with (default e (Some e)) by reflexivity. rewrite <-E. vm_compute. reflexivity. }
    rewrite Hz in Hn. exact Hn.
Defined.

Lemma campaign_terminates_witness :
  w_pc (Nat.iter 11 (go (at_time 2 "ok" None) "audit") world_1) !! "audit" = Some Exited.
Proof.
  apply (campaign_terminates world_1 _ "audit" (new_execution second sample_def) 11).
  - apply world_1_reachable.
  - vm_compute. reflexivity.
  - vm_compute. reflexivity.
  - apply go_runs.
  - vm_compute. repeat constructor.
Defined.
